(* ===== verification/_CoqProject ===== *)
-Q . S2P
Prelude.v
EthIO.v
World.v
EthMac.v
Mac.v
Checksum.v
Ipv4.v
Arp.v
ArpProto.v
Icmp.v
Udp.v
Tcp.v
TcpConn.v
Ptp.v
PtpSync.v
Tte.v
TteSched.v
TteSync.v
SdDisk.v
SdSpi.v
FatTable.v
FatName.v
FatDir.v
FatFs.v
FatIO.v
FatWrite.v
Lock.v
Noc.v
MemSize.v
Queuing.v
QueueFifo.v
Mp.v
MpPorts.v
Sampling.v
SportPorts.v
Decompress.v
Download.v
DownloadRun.v
Boot.v
Tasks.v
TtScheduler.v
RmScheduler.v
Dsp.v
AudioFx.v
AudioRun.v
AudioProc.v
LockFree.v
CasLock.v
I2c.v
NocInit.v
Rticap.v
CoreThread.v
BootEth.v
