(* ===== verification/Prelude.v ===== *)
(** A verification development of the C libraries of the Patmos platform.

    Patmos is a time-predictable processor; its repository (src/) holds the
    hardware, tools, and under src/c the libraries that programs on a Patmos
    multicore use.  This development covers the libraries with a logic of
    their own: the network stack [ethlib], the SD card driver and FAT32 file
    system [libsd], the network-on-chip driver [libnoc], the message
    passing library [libmp], threads on other cores [libcorethread], the
    reconfiguration controller [librticap], the audio effects [libaudio], the
    boot loader, and of the applications two task schedulers, the concurrent
    stacks and queues and the I2C driver.

    * The parts and how they interact

    - ethlib: the driver eth_mac_driver.c moves frames between the Ethernet
      controller and a buffer that eth_patmos_io.c accesses by words and
      bytes.  mac.c classifies received frames; arp.c resolves addresses and
      answers requests; icmp.c answers pings; ipv4.c, udp.c and tcp.c build
      and take apart packets in the buffer, and tcp.c keeps the connection
      state machine.  tte.c is TTEthernet: it synchronises the clock to
      integration frames and sends queued frames at scheduled times;
      ptp1588.c synchronises the clock with a master over UDP.
    - libsd: fat32.c keeps files and directories on a card that sddisk.c
      reads and writes in blocks through the driver sd_spi.c.
    - libnoc and libmp: every core has a scratchpad and a table of DMA
      transfers to the scratchpads of the other cores (noc.c).  noc_init loads
      the schedules of the network on every core and starts it.  lock.c
      protects a critical section of two cores, queuing.c and sampling.c are
      the channels between them; mp.c and utils.c allocate scratchpad memory
      and connect the ports.
    - bootloader: download.c receives a program in packets over the serial
      line, through the decoder of decompress.c, and puts it into memory;
      bootloader.c starts it on all cores and collects them afterwards.
    - libaudio: the filters of dsp_algorithms.c and the effects of audio.c,
      each of which takes stereo samples one by one; audio_process receives
      blocks of samples over libmp, runs an effect over them and sends the
      result on, so that effects on several cores form a chain.
    - libcorethread: the master starts a function on another core and waits
      for its result, through the entry of that core in boot_info.
    - librticap: a scratchpad of several banks behind one window, and the
      registers of the controller.
    - apps/hardlock and apps/htmrts: a stack and a queue that several cores
      share, lock-free over a scratchpad with compare-and-swap or under a lock
      in it.
    - apps/i2c-master: registers of devices on an I2C bus.
    - apps/ttscheduling and apps/rmscheduling: schedulers that call tasks at
      the times of a table or periodically, from a sorted linked list.

    * Files

    Prelude   machine integers, byte lists, counted loops, tactics, hints
    EthIO     eth_patmos_io.c: mem_iord, mem_iowr and the byte access
    World     the state of ethlib: controller registers and clock
              ([EthDev], an interface with the laws [EthDevSpec] and
              [EthClockSpec] and the executable controller [SimDev]), the
              buffer, the globals
    EthMac    eth_mac_driver.c
    Mac       mac.c
    Checksum  the 16-bit one's complement sum that ipv4.c, udp.c and tcp.c
              compute
    Ipv4      ipv4.c
    Arp       arp.c: the table; ArpProto: frames, handler, resolution
    Icmp      icmp.c
    Udp       udp.c
    Tcp       tcp.c; TcpConn: the theorems on segments and connections
    Ptp       ptp1588.c; PtpSync: the theorems
    Tte       tte.c; TteSched: the schedule; TteSync: frames, clock, queues
    SdDisk    sddisk.c over the interface [BlockDev] with its laws
              [BlockDevSpec]; the state of libsd and its monad [F]
    SdSpi     sd_spi.c over the interfaces [SpiHost] and [SdCardSpec]; an
              instance of [BlockDev] that satisfies [BlockDevSpec]
    FatTable  fat32.c: fields, partition information, allocation table
    FatName   fat32.c: long and short names, path resolution
    FatDir    fat32.c: creating and deleting directory entries
    FatFs     fat32.c: fat_init, fat_open .. fat_rmdir
    FatIO     theorems on fat_read, fat_lseek and opening
    FatWrite  theorems on fat_write
    Lock      lock.c: two cores and the transfers between them as steps
    Noc       noc.c and coreset.h
    MemSize   find_mem_size of noc.c, test_spm_size of utils.c
    Queuing   queuing.c: send, receive, acknowledge, with timeouts
    QueueFifo theorems on a queuing channel
    Mp        mp.c, utils.c and port creation; MpPorts: theorems
    Sampling  sampling.c (IMPL = DOUBLE_NOC): mp_read and mp_write of two
              cores as steps, with the lock and the network; SportPorts:
              creation and connection give such a channel
    Decompress  decompress.c over a source of bytes [ByteSource]
    Download  download.c; DownloadRun: the theorems
    Boot      bootloader.c: the cores as interleaved steps
    BootEth   ethmac.c: bytes from datagrams, over ethlib
    Tasks     the linked lists of tt_minimal_scheduler.c and
              rm_minimal_scheduler.c, in a store of nodes
    TtScheduler, RmScheduler  the two schedulers
    Dsp       dsp_algorithms.c: the filters in fixed point, over arrays
              [Arrays] of which nothing is known outside of their bounds
    AudioFx   audio.c: effects and their initial states; AudioRun: theorems
    AudioProc audio.c: audio_process over the channels [AudioPorts] with the
              laws [PortSpec], and its theorem
    LockFree  stack_lock_free.c over caspm.h: any number of cores as steps
    CasLock   the lock of caspm.h around any operation; the queue and the
              stacks under it (queue.h, stack.h, stack_hardlock.c)
    I2c       i2c_master.c over its controller and a device [I2cSlave], with
              the laws [RegSlave] and the device [RegFile]
    NocInit   noc.c: schedule loading, noc_init on all cores as steps,
              interrupt handlers
    Rticap    rticap.c over a banked memory [SpmHw]
    CoreThread  corethread.c: the master and the workers as steps

    * How code is translated

    A w-bit integer is a [Z]; conversions ([u8], [u16], [u32], [s32], ...)
    stand where the C code has them.  Whether [char] is signed is the
    parameter [CharModel].  Arrays are lists, a scratchpad is a function from
    word addresses.  ethlib runs in the state monad [M] of World (None: a
    busy wait used up its polls), libsd in [F] of SdDisk, whose results are
    [Ret] or a [Crash]: an access outside an array, a failed assert or
    exhausted fuel.  libmp and libnoc functions pass the state of the core
    explicitly.  Lock.v, Sampling.v, Boot.v, LockFree.v,
    CasLock.v, NocInit.v and CoreThread.v have one step per access to shared
    memory; QueueFifo.v interleaves whole calls of the ports with transfers
    of single words; all quantify over every interleaving.  tte.c works on
    the record [tte] of its globals, and [None] is an access outside an
    array.  The clock of the schedulers is the list of its readings, and the
    calls of tasks are recorded.

    Code outside src/ and hardware is a parameter: the Ethernet controller
    and clock ([EthDev]), the SPI controller ([SpiHost]), the wall clock and
    uninitialised stack memory of fat32.c ([FatEnv]), the address of the
    network interface ([ArgoBase]), the generated schedules (noc_init_array),
    the device on the I2C bus ([I2cSlave]).  The laws assumed of them are
    documented behaviour, stated as classes, and each has an executable
    instance on which the witnesses compute.  Of the Ethernet controller
    (hardware/ethmac) [EthDevSpec] says that a descriptor that is made READY
    while the transmitter is idle is transmitted, with an interrupt flag at
    the end, when it has more than 4 bytes; nothing is said of a descriptor
    written during a transmission, except that one of up to 4 bytes sends
    nothing, so the theorems on sending require an idle transmitter.  Of the
    arrays of libaudio ([Arrays]) only accesses inside of them are known.

    * Fuel

    Loops that wait for hardware have a number of polls as argument.
    Theorems that a function returns give the number: eth_mac_receive and
    arp_resolve_ip return within 80 polls per microsecond of the timeout (the
    clock law of [EthClockSpec]); the loops of sd_spi.c within the polls of
    [SpiSpec] and the answer bounds of [SdCardSpec].  The loops of fat32.c
    follow chains on the disk: [fat_free_cluster_chain] needs the length of
    the chain, reading and writing one step per 512-byte block, and
    [loop_fuel] of [FatEnv] is the fuel of the interface functions; theorems
    state the fuel as a bound on it.  The schedule of tte.c needs one step
    per transmission.  The loops of queuing.c with a timeout need fewer polls
    than cycles of the timeout, as every poll takes a cycle.  The download
    needs one step per byte; the search for the hyper period one per
    candidate.  The loops of libaudio are counted.  The lists of tasks need at
    most the number of nodes.  The I2C driver polls as often as the
    controller is busy, a bound on which is the fuel.

    * Theorems

    - Data in memory: [EthIO] byte access on words refines a byte memory;
      [Checksum] and [Ipv4] the checksum verifies, and what it computes.
    - Protocols: the frames ARP, ICMP, UDP and TCP send on an idle transmitter
      are given byte by byte, received ones are read back, the ARP table refines a map, the
      resolution and the handshake of two hosts succeed, and a connection
      becomes established only through a handshake.
    - Storage: the driver implements a block device; on one that works, chains
      are allocated from free clusters and freed entirely; fat_write stores
      the data and leaves other files alone; fat_read, when the current
      cluster is the one of the position, and fat_lseek; write, seek and read
      give the data back.
    - Multicore: the lock excludes, serves in order and is free of deadlock
      as long as tickets do not wrap; a queuing channel is a bounded FIFO
      queue under every interleaving with the network; ports that were
      created and connected, with room in the scratchpads, are such a channel;
      a sampling channel is an atomic register, again as long as the tickets of
      its lock do not wrap, and created and connected ports are one; the calls
      with a timeout return; allocated areas are disjoint.  noc_init is a
      barrier: the network runs only when all cores are configured, with the
      schedules that fit in their tables, and every state of the start can be
      continued to its end.  Threads on other cores return what they would in
      sequence, and under stated assumptions on time every state can be
      continued until the calls have returned.
    - Shared data: the lock-free stack is linearizable, as long as no element is
      pushed again that a pop has read, and the cas of a core fails only when
      another core completed an operation; the queue under the lock is a FIFO
      queue.
    - Devices: a register written over I2C reads back, for every pair of
      functions, with register addresses of one and of two bytes; the banks of the reconfiguration scratchpad are one memory,
      and its test passes on it.
    - Time-triggered Ethernet: for a cluster period below 256 that all periods
      divide, the schedule lists every transmission of every link in order; an integration frame within the window sets the clock;
      the queue of a link is a bounded FIFO queue; frames are recognised.
    - Clock synchronisation (PTP): two nodes exchange the four time stamps,
      and the offset computed from them is the offset of the clocks.
    - Boot loader: a program arrives in memory however it is cut into packets,
      also compressed; behind packets of a valid program, one with a wrong CRC
      ends the download.  Under stated assumptions on time every core starts
      the program once per round and every state can be continued to the end
      of the round; without them the cores can hang.
    - Schedulers: in a list sorted by release time every release of the
      time-triggered table is executed once and in order; periodic tasks are executed a period apart; the hyper
      period is the least common multiple; the loop ends.
    - Audio: the filter computes its difference equation without overflow in its
      sums (its store in 16 bits is exact for shifts of at most 1), the delay
      is an echo and the overdrive follows its curve without overflow; no
      effect accesses memory outside of its arrays or divides by 0; an effect in a chain processes the
      stream of samples whatever the sizes of the blocks.
    - Some theorems show where the code does not do what it should: the ticket
      overflow of the lock, the frame that is lost behind a busy descriptor, the
      long names that overrun their arrays, the read that repeats a cluster, the memory probes that
      do not restore the memory, the cluster period that is cut to 8 bits,
      the wait that ignores its timeout, the read before the first write, the
      counter that the lock-free pop loses, the schedules that are accepted
      although they overwrite each other, the threads that end too early, the
      datagrams that a download over Ethernet does not take, the ICAP status
      that always reads 0.

    * Not modelled

    Functions that only print.  The variant of noc.c that calls the driver
    through a trap, which is configured off.  The implementations of
    sampling.c other than the default.  collective.c has one compiled
    function, which returns 0.  Of libaudio the coefficients and tables that
    are computed in floating point, the placement of the structs in the scratchpad, the set-up of the
    audio interface over I2C and the calls that connect effects.  The stack
    and queue for the transactional memory, whose hardware is not described in
    the repository.  libelf and FatFs are third-party code; the other
    applications, hardware, simulators and host tools are outside the C
    libraries. *)

From stdpp Require Import base numbers list gmap.
From Stdlib Require Import Lia ZArith.

#[global] Open Scope Z_scope.

(* ------------------------------------------------------------------ *)
(** ** Machine integers

    A [w]-bit C integer is a [Z]; wrap-around is written where the code
    has it.  [u8] .. [u64] are the conversions to the unsigned types,
    [s8] .. [s64] those to the signed ones (two's complement, as the
    Patmos compiler implements the conversion). *)

Definition u8 (z : Z) : Z := z mod 2 ^ 8.
Definition u16 (z : Z) : Z := z mod 2 ^ 16.
Definition u32 (z : Z) : Z := z mod 2 ^ 32.
Definition u64 (z : Z) : Z := z mod 2 ^ 64.

Definition sext (w z : Z) : Z :=
  let r := z mod 2 ^ w in if r <? 2 ^ (w - 1) then r else r - 2 ^ w.

Definition s8 (z : Z) : Z := sext 8 z.
Definition s16 (z : Z) : Z := sext 16 z.
Definition s32 (z : Z) : Z := sext 32 z.
Definition s64 (z : Z) : Z := sext 64 z.

(** The truth value of a C expression. *)
Definition c_bool (b : bool) : Z := if b then 1 else 0.
Definition c_true (z : Z) : bool := negb (z =? 0).

(** Plain [char] is signed or unsigned depending on the target; code that
    uses it is modelled for both choices. *)
Class CharModel := char_signed : bool.
Definition to_char {CM : CharModel} (z : Z) : Z :=
  if char_signed then s8 z else u8 z.

#[global] Arguments u8 : simpl never.
#[global] Arguments u16 : simpl never.
#[global] Arguments u32 : simpl never.
#[global] Arguments u64 : simpl never.
#[global] Arguments s8 : simpl never.
#[global] Arguments s16 : simpl never.
#[global] Arguments s32 : simpl never.
#[global] Arguments s64 : simpl never.
#[global] Arguments Z.shiftl : simpl never.
#[global] Arguments Z.shiftr : simpl never.
#[global] Arguments Z.land : simpl never.
#[global] Arguments Z.lor : simpl never.
#[global] Arguments Z.pow : simpl never.
#[global] Arguments Z.modulo : simpl never.
#[global] Arguments Z.div : simpl never.
#[global] Arguments Z.mul : simpl never.
#[global] Arguments Z.add : simpl never.
#[global] Arguments Z.sub : simpl never.

Create HintDb word.
Create Rewrite HintDb word.

Lemma u8_range z : 0 <= u8 z < 256.
Proof. apply Z.mod_pos_bound. lia. Qed.
Lemma u16_range z : 0 <= u16 z < 65536.
Proof. apply Z.mod_pos_bound. lia. Qed.
Lemma u32_range z : 0 <= u32 z < 4294967296.
Proof. apply Z.mod_pos_bound. lia. Qed.
Lemma u64_range z : 0 <= u64 z < 18446744073709551616.
Proof. apply Z.mod_pos_bound. lia. Qed.

Lemma u8_small z : 0 <= z < 256 -> u8 z = z.
Proof. intros. apply Z.mod_small. lia. Qed.
Lemma u16_small z : 0 <= z < 65536 -> u16 z = z.
Proof. intros. apply Z.mod_small. lia. Qed.
Lemma u32_small z : 0 <= z < 4294967296 -> u32 z = z.
Proof. intros. apply Z.mod_small. lia. Qed.
Lemma u64_small z : 0 <= z < 18446744073709551616 -> u64 z = z.
Proof. intros. apply Z.mod_small. lia. Qed.

Lemma u8_u8 z : u8 (u8 z) = u8 z.
Proof. apply u8_small, u8_range. Qed.
Lemma u16_u16 z : u16 (u16 z) = u16 z.
Proof. apply u16_small, u16_range. Qed.
Lemma u32_u32 z : u32 (u32 z) = u32 z.
Proof. apply u32_small, u32_range. Qed.

Lemma u32_add_l a b : u32 (u32 a + b) = u32 (a + b).
Proof. apply Zplus_mod_idemp_l. Qed.
Lemma u32_add_r a b : u32 (a + u32 b) = u32 (a + b).
Proof. apply Zplus_mod_idemp_r. Qed.

#[export] Hint Rewrite u8_u8 u16_u16 u32_u32 u32_add_l u32_add_r : word.
#[export] Hint Resolve u8_range u16_range u32_range u64_range : word.

Lemma land_255 z : Z.land z 255 = u8 z.
Proof. change 255 with (Z.ones 8). by rewrite Z.land_ones by lia. Qed.
Lemma land_1 z : Z.land z 1 = z mod 2.
Proof. change 1 with (Z.ones 1). by rewrite Z.land_ones by lia. Qed.
Lemma land_255_l z : Z.land 255 z = u8 z.
Proof. by rewrite Z.land_comm, land_255. Qed.
Lemma land_65535 z : Z.land z 65535 = u16 z.
Proof. change 65535 with (Z.ones 16). by rewrite Z.land_ones by lia. Qed.

(** Reduce every machine-integer conversion in the context to a [mod]
    that [lia] can use through its bounds. *)
Ltac word_bounds :=
  repeat match goal with
  | |- context [u8 ?z] =>
      lazymatch goal with
      | _ : 0 <= u8 z < 256 |- _ => fail
      | _ => pose proof (u8_range z) end
  | |- context [u16 ?z] =>
      lazymatch goal with
      | _ : 0 <= u16 z < 65536 |- _ => fail
      | _ => pose proof (u16_range z) end
  | |- context [u32 ?z] =>
      lazymatch goal with
      | _ : 0 <= u32 z < 4294967296 |- _ => fail
      | _ => pose proof (u32_range z) end
  end.

(** ** Bit-level reasoning *)

Create Rewrite HintDb bits.

Lemma testbit_u w z i :
  0 <= w -> 0 <= i -> Z.testbit (z mod 2 ^ w) i = (i <? w) && Z.testbit z i.
Proof.
  intros Hw Hi. destruct (Z.ltb_spec i w).
  - by rewrite Z.mod_pow2_bits_low by lia.
  - by rewrite Z.mod_pow2_bits_high by lia.
Qed.

(** The byte of a word that starts at bit [k]. *)
Definition byte_at (w k : Z) : Z := Z.land (Z.shiftr w k) 255.

Lemma byte_at_range w k : 0 <= byte_at w k < 256.
Proof. unfold byte_at. rewrite land_255. apply u8_range. Qed.

Lemma byte_at_div w k : 0 <= k -> byte_at w k = (w / 2 ^ k) mod 256.
Proof. intros. unfold byte_at. rewrite land_255, Z.shiftr_div_pow2 by lia. done. Qed.

Definition is_byte (z : Z) : Prop := 0 <= z < 256.

(** [(a << k) | b] for a [b] that fits below bit [k]. *)
Lemma lor_shift a b k : 0 <= k -> 0 <= b < 2 ^ k -> Z.lor (Z.shiftl a k) b = a * 2 ^ k + b.
Proof.
  intros Hk Hb. assert (Hnc : Z.land (Z.shiftl a k) b = 0).
  { apply Z.bits_inj'. intros i Hi. rewrite Z.land_spec, Z.bits_0, Z.shiftl_spec by lia.
    destruct (Z.ltb_spec i k); [by rewrite (Z.testbit_neg_r _ (i - k)) by lia|].
    rewrite <- (Z.mod_small b (2 ^ k)), testbit_u by lia.
    replace (i <? k) with false by lia. by rewrite andb_false_r. }
  rewrite <- Z.lxor_lor, <- Z.add_nocarry_lxor by done.
  by rewrite Z.shiftl_mul_pow2 by lia.
Qed.

Lemma lor_bytes a b : 0 <= b < 256 -> Z.lor (Z.shiftl a 8) b = 256 * a + b.
Proof. intros. rewrite lor_shift; lia. Qed.

(** The words the frame builders write, as numbers. *)
Lemma word_1111 a b c d : is_byte b -> is_byte c -> is_byte d ->
  Z.lor (Z.lor (Z.lor (Z.shiftl a 24) (Z.shiftl b 16)) (Z.shiftl c 8)) d
  = a * 2 ^ 24 + b * 2 ^ 16 + c * 2 ^ 8 + d.
Proof.
  unfold is_byte. intros. rewrite <- !Z.lor_assoc, (lor_shift c d), (lor_shift b), (lor_shift a); lia.
Qed.

Lemma word_112 a b c : is_byte b -> 0 <= c < 65536 ->
  Z.lor (Z.lor (Z.shiftl a 24) (Z.shiftl b 16)) c = a * 2 ^ 24 + b * 2 ^ 16 + c.
Proof. unfold is_byte. intros. rewrite <- !Z.lor_assoc, (lor_shift b), (lor_shift a); lia. Qed.

(** The four bytes of a big-endian word. *)
Lemma be_lanes a b c d :
  is_byte a -> is_byte b -> is_byte c -> is_byte d ->
  let w := a * 2 ^ 24 + b * 2 ^ 16 + c * 2 ^ 8 + d in
  byte_at w 24 = a /\ byte_at w 16 = b /\ byte_at w 8 = c /\ byte_at w 0 = d.
Proof.
  intros Ha Hb Hc Hd w. unfold is_byte in *. rewrite !byte_at_div by lia. subst w.
  split_and!.
  - rewrite (Z.mod_small (_ / _)); [symmetry; apply Z.div_unique with (b * 2 ^ 16 + c * 2 ^ 8 + d); lia|].
    split; [apply Z.div_pos | apply Z.div_lt_upper_bound]; lia.
  - symmetry. apply Z.mod_unique with a; [lia|].
    symmetry. apply Z.div_unique with (c * 2 ^ 8 + d); lia.
  - symmetry. apply Z.mod_unique with (a * 256 + b); [lia|].
    symmetry. apply Z.div_unique with d; lia.
  - rewrite Z.div_1_r. symmetry. apply Z.mod_unique with (a * 65536 + b * 256 + c); lia.
Qed.

Lemma div_mod_256 v : 256 * (v / 256) + v mod 256 = v.
Proof. symmetry. apply Z.div_mod. lia. Qed.

Lemma hi_byte v : 0 <= v < 65536 -> is_byte (v / 256).
Proof. intros. split; [apply Z.div_pos | apply Z.div_lt_upper_bound]; lia. Qed.
Lemma lo_byte v : is_byte (v mod 256).
Proof. apply Z.mod_pos_bound. lia. Qed.

#[export] Hint Resolve hi_byte lo_byte : word.

(** ** Counting loops

    [for_up n i step body s] is the C loop that runs [body] for the
    [n] values [i], [i + step], ... of its index. *)
Fixpoint for_up {St : Type} (n : nat) (i step : Z) (body : Z -> St -> St) (s : St) : St :=
  match n with
  | O => s
  | S n' => for_up n' (i + step) step body (body i s)
  end.

Lemma for_up_inv {St : Type} (P : Z -> St -> Prop) n i step body s :
  P i s ->
  (forall k t, 0 <= k < Z.of_nat n ->
     P (i + step * k) t -> P (i + step * k + step) (body (i + step * k) t)) ->
  P (i + step * Z.of_nat n) (for_up n i step body s).
Proof.
  revert i s; induction n as [|n IH]; intros i s H0 Hs; cbn [for_up].
  - by replace (i + step * Z.of_nat 0) with i by lia.
  - replace (i + step * Z.of_nat (S n)) with ((i + step) + step * Z.of_nat n) by lia.
    apply IH.
    + specialize (Hs 0 s ltac:(lia)).
      replace (i + step * 0) with i in Hs by lia. auto.
    + intros k t Hk Ht. specialize (Hs (k + 1) t ltac:(lia)).
      replace (i + step * (k + 1)) with (i + step + step * k) in Hs by lia. auto.
Qed.

(** ** C arrays

    An [unsigned char x[n]] is the list of its [n] elements; [at_ l i] is
    [l[i]] for an index inside the array. *)
Definition at_ (l : list Z) (i : Z) : Z := nth (Z.to_nat i) l 0.

(** An array of [n] bytes. *)
Definition byte_array (n : nat) (l : list Z) : Prop := length l = n /\ Forall is_byte l.

Lemma byte_array_at n l i : byte_array n l -> is_byte (at_ l i).
Proof.
  intros [_ Hl]. unfold at_. destruct (nth_in_or_default (Z.to_nat i) l 0) as [Hin| ->].
  - rewrite Forall_forall in Hl. apply Hl, list_elem_of_In, Hin.
  - unfold is_byte; lia.
Qed.

#[export] Hint Resolve byte_array_at : word.

Lemma at_u8 n l i : byte_array n l -> u8 (at_ l i) = at_ l i.
Proof. intros Hl. apply u8_small. by eapply byte_array_at. Qed.

Lemma at_replicate n x i : 0 <= i < Z.of_nat n -> at_ (replicate n x) i = x.
Proof. intros Hi. unfold at_. rewrite nth_lookup, lookup_replicate_2 by lia. done. Qed.

Lemma forall_seqZ (P : Z -> Prop) n : Forall P (seqZ 0 n) -> forall i, 0 <= i < n -> P i.
Proof. intros HP i Hi. rewrite Forall_forall in HP. apply HP, elem_of_seqZ. lia. Qed.


(** Decide the comparisons of a goal by [lia]. *)
Ltac zdec :=
  repeat match goal with
  | |- context [?x <=? ?y] =>
      first [rewrite (proj2 (Z.leb_le x y)) by lia | rewrite (proj2 (Z.leb_gt x y)) by lia]
  | |- context [?x <? ?y] =>
      first [rewrite (proj2 (Z.ltb_lt x y)) by lia | rewrite (proj2 (Z.ltb_ge x y)) by lia]
  | |- context [?x =? ?y] =>
      first [rewrite (proj2 (Z.eqb_eq x y)) by lia | rewrite (proj2 (Z.eqb_neq x y)) by lia]
  end; cbn [andb orb negb].

(** A concrete array of bytes. *)
Ltac bytes :=
  split; [reflexivity | repeat (apply List.Forall_cons; [unfold is_byte; lia|]); apply List.Forall_nil].

(** Index into the concrete arrays of a goal. *)
Ltac arr :=
  unfold at_;
  change (Z.to_nat 0) with 0%nat; change (Z.to_nat 1) with 1%nat; change (Z.to_nat 2) with 2%nat;
  change (Z.to_nat 3) with 3%nat; change (Z.to_nat 4) with 4%nat; change (Z.to_nat 5) with 5%nat;
  cbn [nth].

(** The elements of a MAC or an IP address. *)
Lemma byte_array_6 l : byte_array 6 l -> exists a b c d e f, l = [a; b; c; d; e; f] /\
  is_byte a /\ is_byte b /\ is_byte c /\ is_byte d /\ is_byte e /\ is_byte f.
Proof.
  intros [Hl Hb]. destruct l as [|a [|b [|c [|d [|e [|f [|]]]]]]]; try done.
  rewrite !Forall_cons in Hb. exists a, b, c, d, e, f. tauto.
Qed.
Lemma byte_array_4 l : byte_array 4 l -> exists a b c d, l = [a; b; c; d] /\
  is_byte a /\ is_byte b /\ is_byte c /\ is_byte d.
Proof.
  intros [Hl Hb]. destruct l as [|a [|b [|c [|d [|]]]]]; try done.
  rewrite !Forall_cons in Hb. exists a, b, c, d. tauto.
Qed.

(** Values in the range of the signed type. *)
Lemma sext_small w x : 0 < w -> - 2 ^ (w - 1) <= x < 2 ^ (w - 1) -> sext w x = x.
Proof.
  intros Hw Hx. unfold sext. assert (2 ^ w = 2 * 2 ^ (w - 1)) as E by (rewrite <- Z.pow_succ_r by lia; f_equal; lia).
  destruct (Z.le_gt_cases 0 x).
  - rewrite Z.mod_small by lia. by rewrite (proj2 (Z.ltb_lt _ _)) by lia.
  - rewrite <- (Z_mod_plus_full x 1), Z.mod_small by lia. rewrite (proj2 (Z.ltb_ge _ _)) by lia. lia.
Qed.
Lemma s32_small x : - 2 ^ 31 <= x < 2 ^ 31 -> s32 x = x.
Proof. intros Hx. by apply sext_small. Qed.

(** ** Numbers in bytes, most significant byte first *)

Fixpoint be (k : nat) (v : Z) : list Z :=
  match k with O => [] | S k' => u8 (v / 256 ^ Z.of_nat k') :: be k' v end.
Definition num (l : list Z) : Z := fold_left (fun a b => 256 * a + b) l 0.

Lemma be_length k v : length (be k v) = k.
Proof. induction k; cbn; by rewrite ?IHk. Qed.
Lemma be_is_bytes k v : Forall is_byte (be k v).
Proof. induction k; cbn [be]; constructor; [apply u8_range|done]. Qed.

Lemma num_be_acc k v : forall a, fold_left (fun a b => 256 * a + b) (be k v) a = a * 256 ^ Z.of_nat k + v mod 256 ^ Z.of_nat k.
Proof.
  induction k as [|k IH]; intros a; cbn [be fold_left]; [by rewrite Z.mod_1_r; lia|].
  rewrite IH. replace (256 ^ Z.of_nat (S k)) with (256 * 256 ^ Z.of_nat k) by (rewrite <- Z.pow_succ_r by lia; f_equal; lia).
  set (p := 256 ^ Z.of_nat k). assert (0 < p) by (apply Z.pow_pos_nonneg; lia).
  rewrite (Z.mul_comm 256 p), Z.rem_mul_r by lia. unfold u8. change (2 ^ 8) with 256. ring.
Qed.
Lemma num_be k v : 0 <= v < 256 ^ Z.of_nat k -> num (be k v) = v.
Proof. intros Hv. unfold num. rewrite num_be_acc, Z.mod_small by done. lia. Qed.
Lemma num_snoc l b : num (l ++ [b]) = 256 * num l + b.
Proof. unfold num. by rewrite fold_left_app. Qed.

(** Rounding up to a multiple of four. *)
Lemma align_4 x : 0 <= x < 2 ^ 32 - 3 -> Z.land (u32 (x + 3)) (u32 (Z.lnot 3)) = 4 * ((x + 3) / 4).
Proof.
  intros Hx. rewrite (u32_small (x + 3)) by lia. change (u32 (Z.lnot 3)) with (Z.ldiff (Z.ones 32) 3).
  set (y := x + 3).
  assert (Z.land y (Z.ldiff (Z.ones 32) 3) = Z.ldiff (Z.land y (Z.ones 32)) (Z.ones 2)) as ->.
  { apply Z.bits_inj'. intros i Hi. rewrite ?Z.land_spec, ?Z.ldiff_spec, ?Z.land_spec. change 3 with (Z.ones 2).
    by rewrite andb_assoc. }
  rewrite Z.land_ones, Z.mod_small by lia. rewrite Z.ldiff_ones_r, Z.shiftl_mul_pow2, Z.shiftr_div_pow2 by lia. change (2 ^ 2) with 4. lia.
Qed.
