(* ===== verification/EthIO.v ===== *)
(** EthIO: the memory-mapped rx-tx buffer of the Ethernet controller.

    Models c/ethlib/eth_patmos_io.c.  The buffer is an array of 32-bit
    words (the [volatile unsigned *] at BUFF_BASE); bytes are read and
    written in big-endian lanes of those words by [mem_iord_byte] and
    [mem_iowr_byte].  The theorems show that these two functions
    implement a byte-addressed memory on top of the word memory. *)

From stdpp Require Import base numbers list gmap.
From S2P Require Import Prelude.

(** The words at BUFF_BASE, by word index; words never written are 0. *)
Abbreviation mem := (gmap Z Z).

Definition rdw (m : mem) (i : Z) : Z := default 0 (m !! i).

Lemma rdw_insert m i v j : rdw (<[i := v]> m) j = if i =? j then v else rdw m j.
Proof.
  unfold rdw. destruct (Z.eqb_spec i j) as [->|].
  - by rewrite lookup_insert_eq.
  - by rewrite lookup_insert_ne.
Qed.

(** [addr >> 2] of the C code.  Pointer arithmetic is modulo 2^32, so
    signed and unsigned [addr] select the same word. *)
Definition cell (addr : Z) : Z := Z.shiftr (u32 addr) 2.

Definition shift_factor (addr : Z) : Z := 24 - 8 * Z.land addr 3.

Definition mem_iowr (m : mem) (addr data : Z) : mem := <[cell addr := u32 data]> m.

Definition mem_iowr_byte (m : mem) (addr data : Z) : mem :=
  let previous_data := rdw m (cell addr) in
  let mask := u32 (Z.lnot (Z.shiftl 255 (shift_factor addr))) in
  let data := u32 (Z.shiftl (Z.land 255 data) (shift_factor addr)) in
  let data := u32 (Z.land previous_data mask + data) in
  <[cell addr := data]> m.

Definition mem_iord (m : mem) (addr : Z) : Z := rdw m (cell addr).

Definition mem_iord_byte (m : mem) (addr : Z) : Z :=
  let full_data := rdw m (cell addr) in
  let mask := u32 (Z.shiftl 255 (shift_factor addr)) in
  Z.shiftr (Z.land full_data mask) (shift_factor addr).

(** The buffer of the second controller, at BUFF1_BASE. *)
Definition mem_iowr1 (m1 : mem) (addr data : Z) : mem := <[cell addr := u32 data]> m1.

Definition mem_iowr1_byte (m1 : mem) (addr data : Z) : mem :=
  let previous_data := rdw m1 (cell addr) in
  let mask := u32 (Z.lnot (Z.shiftl 255 (shift_factor addr))) in
  let data := u32 (Z.shiftl (Z.land 255 data) (shift_factor addr)) in
  let data := u32 (Z.land previous_data mask + data) in
  <[cell addr := data]> m1.

Definition mem_iord1 (m1 : mem) (addr : Z) : Z := rdw m1 (cell addr).

Definition mem_iord_byte1 (m1 : mem) (addr : Z) : Z :=
  let full_data := rdw m1 (cell addr) in
  let mask := u32 (Z.shiftl 255 (shift_factor addr)) in
  Z.shiftr (Z.land full_data mask) (shift_factor addr).

(** ** Lanes *)

Lemma land_3 a : Z.land a 3 = a mod 4.
Proof. change 3 with (Z.ones 2). by rewrite Z.land_ones by lia. Qed.

Lemma cell_div a : cell a = u32 a / 4.
Proof. unfold cell. by rewrite Z.shiftr_div_pow2 by lia. Qed.

Lemma shift_factor_cases a :
  shift_factor a = 0 \/ shift_factor a = 8 \/ shift_factor a = 16 \/ shift_factor a = 24.
Proof.
  unfold shift_factor. rewrite land_3.
  pose proof (Z.mod_pos_bound a 4 ltac:(lia)). lia.
Qed.

Lemma u32_mod4 a : u32 a mod 4 = a mod 4.
Proof.
  unfold u32. change (2 ^ 32) with (4 * 2 ^ 30).
  rewrite Z.rem_mul_r by lia.
  rewrite Z.mul_comm, Z.mod_add by lia. apply Z.mod_mod. lia.
Qed.

(** Two addresses with the same word and the same lane are the same
    address modulo 2^32. *)
Lemma cell_lane_inj a b :
  cell a = cell b -> shift_factor a = shift_factor b -> u32 a = u32 b.
Proof.
  rewrite !cell_div. unfold shift_factor. rewrite !land_3.
  rewrite <- (u32_mod4 a), <- (u32_mod4 b). intros Hd Hm.
  rewrite (Z.div_mod (u32 a) 4), (Z.div_mod (u32 b) 4) by lia. lia.
Qed.

Lemma u32_eq_cell a b : u32 a = u32 b -> cell a = cell b /\ shift_factor a = shift_factor b.
Proof.
  intros H. rewrite !cell_div, H. split; [done|].
  unfold shift_factor. rewrite !land_3, <- (u32_mod4 a), <- (u32_mod4 b), H. done.
Qed.

(** Reading a byte extracts one lane of the word. *)
Lemma iord_byte_lane m a : mem_iord_byte m a = byte_at (rdw m (cell a)) (shift_factor a).
Proof.
  unfold mem_iord_byte, byte_at.
  destruct (shift_factor_cases a) as [-> | [-> | [-> | ->]]];
    rewrite Z.shiftr_land; f_equal.
Qed.

Lemma iord_byte_range m a : 0 <= mem_iord_byte m a < 256.
Proof. rewrite iord_byte_lane. apply byte_at_range. Qed.

(** Replacing the lane at bit [k] of a word. *)
Lemma testbit_mask k i : 0 <= k -> 0 <= i ->
  Z.testbit (Z.shiftl 255 k) i = (k <=? i) && (i <? k + 8).
Proof.
  intros Hk Hi. rewrite Z.shiftl_spec by lia. change 255 with (Z.ones 8).
  destruct (Z.leb_spec k i); cbn.
  - rewrite Z.testbit_ones by lia. destruct (Z.leb_spec 0 (i - k)); [|lia].
    cbn. destruct (Z.ltb_spec (i - k) 8), (Z.ltb_spec i (k + 8)); lia.
  - apply Z.testbit_neg_r. lia.
Qed.

Lemma testbit_put_u8 d k i : 0 <= k -> 0 <= i ->
  Z.testbit (Z.shiftl (u8 d) k) i = (k <=? i) && (i <? k + 8) && Z.testbit d (i - k).
Proof.
  intros Hk Hi. rewrite Z.shiftl_spec by lia. unfold u8.
  destruct (Z.leb_spec k i); cbn.
  - rewrite testbit_u by lia. f_equal.
    destruct (Z.ltb_spec (i - k) 8), (Z.ltb_spec i (k + 8)); lia.
  - apply Z.testbit_neg_r. lia.
Qed.

Lemma testbit_byte_at w k i : 0 <= k -> 0 <= i ->
  Z.testbit (byte_at w k) i = (i <? 8) && Z.testbit w (i + k).
Proof.
  intros. unfold byte_at. rewrite land_255. unfold u8.
  by rewrite testbit_u, Z.shiftr_spec by lia.
Qed.

Lemma byte_at_put w d k j :
  (k = 0 \/ k = 8 \/ k = 16 \/ k = 24) -> (j = 0 \/ j = 8 \/ j = 16 \/ j = 24) ->
  byte_at (u32 (Z.land w (u32 (Z.lnot (Z.shiftl 255 k))) +
                u32 (Z.shiftl (Z.land 255 d) k))) j
  = if k =? j then u8 d else byte_at w j.
Proof.
  intros Hk Hj. rewrite land_255_l.
  assert (Hnc : Z.land (Z.land w (u32 (Z.lnot (Z.shiftl 255 k))))
                       (u32 (Z.shiftl (u8 d) k)) = 0).
  { apply Z.bits_inj'. intros i Hi. rewrite !Z.land_spec, Z.bits_0.
    unfold u32. rewrite !testbit_u, Z.lnot_spec, testbit_mask, testbit_put_u8 by lia.
    by destruct (k <=? i), (i <? k + 8), (i <? 32), (Z.testbit w i). }
  rewrite Z.add_nocarry_lxor, Z.lxor_lor by done. clear Hnc.
  apply Z.bits_inj'. intros i Hi.
  rewrite testbit_byte_at by lia. unfold u32.
  rewrite testbit_u, Z.lor_spec, Z.land_spec, !testbit_u, Z.lnot_spec,
    testbit_mask, testbit_put_u8 by lia.
  destruct (Z.eqb_spec k j) as [->|Hkj].
  - unfold u8. rewrite testbit_u by lia. replace (i + j - j) with i by lia.
    destruct (Z.ltb_spec i 8); [|done].
    replace (i + j <? 32) with true by lia. replace (j <=? i + j) with true by lia.
    replace (i + j <? j + 8) with true by lia. cbn. by rewrite andb_false_r.
  - rewrite testbit_byte_at by lia. destruct (Z.ltb_spec i 8); [|done].
    replace (i + j <? 32) with true by lia. cbn.
    replace ((k <=? i + j) && (i + j <? k + 8)) with false by lia. cbn.
    by rewrite andb_true_r, orb_false_r.
Qed.

(** ** Byte-addressed view *)

(** What [mem_iowr_byte] does to each byte of the buffer. *)
Lemma iord_iowr_byte m a d b :
  mem_iord_byte (mem_iowr_byte m a d) b =
  if u32 a =? u32 b then u8 d else mem_iord_byte m b.
Proof.
  rewrite !iord_byte_lane. unfold mem_iowr_byte. rewrite rdw_insert.
  destruct (Z.eqb_spec (cell a) (cell b)) as [Hc|Hc].
  - rewrite byte_at_put by apply shift_factor_cases. rewrite Hc.
    destruct (Z.eqb_spec (shift_factor a) (shift_factor b)) as [Hs|Hs].
    + rewrite (cell_lane_inj a b Hc Hs), Z.eqb_refl. done.
    + destruct (Z.eqb_spec (u32 a) (u32 b)) as [He|]; [|done].
      by apply u32_eq_cell in He as [_ ?].
  - destruct (Z.eqb_spec (u32 a) (u32 b)) as [He|]; [|done].
    by apply u32_eq_cell in He as [? _].
Qed.

(** What a word write does to each byte. *)
Lemma iord_byte_iowr m a w b :
  mem_iord_byte (mem_iowr m a w) b =
  if cell a =? cell b then byte_at (u32 w) (shift_factor b) else mem_iord_byte m b.
Proof.
  rewrite !iord_byte_lane. unfold mem_iowr. rewrite rdw_insert.
  by destruct (Z.eqb_spec (cell a) (cell b)).
Qed.

(** The same facts for addresses that do not wrap around, the form the
    frame builders use. *)
Definition in_space (a n : Z) : Prop := 0 <= a /\ 0 <= n /\ a + n <= 2 ^ 32.

Lemma rd_wr m a d b :
  0 <= a < 2 ^ 32 -> 0 <= b < 2 ^ 32 ->
  mem_iord_byte (mem_iowr_byte m a d) b = if a =? b then u8 d else mem_iord_byte m b.
Proof. intros. by rewrite iord_iowr_byte, !u32_small by lia. Qed.

Lemma byte_at_u32 w k : (k = 0 \/ k = 8 \/ k = 16 \/ k = 24) -> byte_at (u32 w) k = byte_at w k.
Proof.
  intros Hk. apply Z.bits_inj'. intros i Hi. rewrite !testbit_byte_at by lia.
  unfold u32. destruct (Z.ltb_spec i 8); [|done].
  rewrite testbit_u by lia. by replace (i + k <? 32) with true by lia.
Qed.

Lemma cell_aligned a b :
  0 <= a -> a + 4 <= 2 ^ 32 -> a mod 4 = 0 -> 0 <= b < 2 ^ 32 ->
  cell a = cell b <-> a <= b < a + 4.
Proof.
  intros. rewrite !cell_div, !u32_small by lia.
  pose proof (Z.div_mod a 4 ltac:(lia)). pose proof (Z.div_mod b 4 ltac:(lia)).
  pose proof (Z.mod_pos_bound b 4 ltac:(lia)). lia.
Qed.

Lemma shift_factor_aligned a b :
  a mod 4 = 0 -> a <= b < a + 4 -> shift_factor b = 24 - 8 * (b - a).
Proof.
  intros. unfold shift_factor. rewrite land_3.
  replace b with ((b - a) + (a / 4) * 4).
  - rewrite Z.mod_add, Z.mod_small by lia. pose proof (Z.div_mod a 4 ltac:(lia)). lia.
  - pose proof (Z.div_mod a 4 ltac:(lia)). lia.
Qed.

Lemma rd_wrw m a w b :
  0 <= a -> a + 4 <= 2 ^ 32 -> a mod 4 = 0 -> 0 <= b < 2 ^ 32 ->
  mem_iord_byte (mem_iowr m a w) b =
  if (a <=? b) && (b <? a + 4) then byte_at w (24 - 8 * (b - a)) else mem_iord_byte m b.
Proof.
  intros H1 H2 H3 H4. rewrite iord_byte_iowr.
  pose proof (cell_aligned a b H1 H2 H3 H4) as Hc.
  destruct (Z.eqb_spec (cell a) (cell b)) as [He|He].
  - apply Hc in He. replace ((a <=? b) && (b <? a + 4)) with true by lia.
    rewrite byte_at_u32 by apply shift_factor_cases.
    by rewrite (shift_factor_aligned a b).
  - replace ((a <=? b) && (b <? a + 4)) with false; [done|].
    destruct (Z.leb_spec a b), (Z.ltb_spec b (a + 4)); try done. exfalso. apply He, Hc. lia.
Qed.

(** Word writes at a multiple of four from an aligned frame. *)
Lemma rd_wrw_off m a k w b :
  a mod 4 = 0 -> k mod 4 = 0 -> 0 <= a + k -> a + k + 4 <= 2 ^ 32 -> 0 <= b < 2 ^ 32 ->
  mem_iord_byte (mem_iowr m (a + k) w) b =
  if (a + k <=? b) && (b <? a + k + 4) then byte_at w (24 - 8 * (b - (a + k)))
  else mem_iord_byte m b.
Proof.
  intros Ha Hk H0 H1 Hb. apply rd_wrw; try lia. by rewrite Z.add_mod, Ha, Hk by lia.
Qed.

(** ** Type invariant of the buffer: every word fits in 32 bits. *)
Definition wf_mem (m : mem) : Prop := forall i, 0 <= rdw m i < 2 ^ 32.

Lemma wf_mem_empty : wf_mem ∅.
Proof. intros i. unfold rdw. rewrite lookup_empty. cbn. lia. Qed.

Lemma wf_mem_insert m i v : wf_mem m -> wf_mem (<[i := u32 v]> m).
Proof.
  intros Hm j. rewrite rdw_insert. destruct (i =? j); [|apply Hm].
  apply u32_range.
Qed.

Lemma wf_mem_iowr m a w : wf_mem m -> wf_mem (mem_iowr m a w).
Proof. apply wf_mem_insert. Qed.
Lemma wf_mem_iowr_byte m a d : wf_mem m -> wf_mem (mem_iowr_byte m a d).
Proof. apply wf_mem_insert. Qed.

#[export] Hint Resolve wf_mem_empty wf_mem_iowr wf_mem_iowr_byte : word.

(** A word read is the big-endian value of its four bytes. *)
Lemma word_bytes w : 0 <= w < 2 ^ 32 ->
  w = byte_at w 24 * 2 ^ 24 + byte_at w 16 * 2 ^ 16 + byte_at w 8 * 2 ^ 8 + byte_at w 0.
Proof.
  intros. rewrite !byte_at_div by lia.
  change (2 ^ 24) with (256 * 256 * 256). change (2 ^ 16) with (256 * 256).
  change (2 ^ 8) with 256. change (2 ^ 0) with 1. rewrite Z.div_1_r.
  rewrite <- !Z.div_div by lia.
  pose proof (Z.div_mod w 256). pose proof (Z.div_mod (w / 256) 256).
  pose proof (Z.div_mod (w / 256 / 256) 256).
  assert (w / 256 / 256 / 256 < 256) by (do 3 (apply Z.div_lt_upper_bound; [lia|]); lia).
  assert (0 <= w / 256 / 256 / 256) by (do 3 (apply Z.div_pos; [|lia]); lia).
  rewrite (Z.mod_small (w / 256 / 256 / 256)) by lia. lia.
Qed.

Lemma mem_iord_bytes m a :
  wf_mem m -> 0 <= a -> a + 4 <= 2 ^ 32 -> a mod 4 = 0 ->
  mem_iord m a = mem_iord_byte m a * 2 ^ 24 + mem_iord_byte m (a + 1) * 2 ^ 16
               + mem_iord_byte m (a + 2) * 2 ^ 8 + mem_iord_byte m (a + 3).
Proof.
  intros Hm Ha Hb Hal. unfold mem_iord. rewrite !iord_byte_lane.
  assert (Hc : forall k, 0 <= k < 4 -> cell (a + k) = cell a).
  { intros k Hk. symmetry. apply cell_aligned; lia. }
  rewrite !Hc by lia.
  rewrite !(shift_factor_aligned a) by lia.
  replace (24 - 8 * (a - a)) with 24 by lia.
  replace (24 - 8 * (a + 1 - a)) with 16 by lia.
  replace (24 - 8 * (a + 2 - a)) with 8 by lia.
  replace (24 - 8 * (a + 3 - a)) with 0 by lia.
  apply word_bytes, Hm.
Qed.

(** ** Loops over the buffer *)

(** The [n] bytes from address [a] on, as the getters of the library
    collect them into a C array. *)
Definition read_bytes (m : mem) (a n : Z) : list Z :=
  map (fun i => mem_iord_byte m (a + i)) (seqZ 0 n).

Lemma read_bytes_S m a n : 0 <= n ->
  read_bytes m a (n + 1) = mem_iord_byte m a :: read_bytes m (a + 1) n.
Proof.
  intros Hn. unfold read_bytes. replace (n + 1) with (Z.succ n) by lia.
  rewrite seqZ_cons by lia. cbn [map].
  replace (Z.pred (Z.succ n)) with n by lia. f_equal; [f_equal; lia|].
  replace (Z.succ 0) with (1 + 0) by lia. rewrite <- (fmap_add_seqZ 1 0 n).
  change (Z.add 1 <$> seqZ 0 n) with (map (Z.add 1) (seqZ 0 n)).
  rewrite map_map. apply map_ext. intros i. f_equal. lia.
Qed.

Lemma read_bytes_nil m a n : n <= 0 -> read_bytes m a n = [].
Proof. intros. unfold read_bytes. by rewrite seqZ_nil. Qed.

Lemma read_bytes_1 m a : read_bytes m a 1 = [mem_iord_byte m a].
Proof. change 1 with (0 + 1) at 1. rewrite read_bytes_S by lia. by rewrite read_bytes_nil. Qed.

Lemma read_bytes_length m a n : length (read_bytes m a n) = Z.to_nat n.
Proof. unfold read_bytes. by rewrite length_map, length_seqZ. Qed.

Lemma read_bytes_app m a n1 n2 : 0 <= n1 -> 0 <= n2 ->
  read_bytes m a (n1 + n2) = read_bytes m a n1 ++ read_bytes m (a + n1) n2.
Proof.
  intros H1 H2. unfold read_bytes. rewrite seqZ_app, map_app by lia. f_equal.
  replace (0 + n1) with (n1 + 0) by lia. rewrite <- (fmap_add_seqZ n1 0 n2).
  change (Z.add n1 <$> seqZ 0 n2) with (map (Z.add n1) (seqZ 0 n2)). rewrite map_map.
  apply map_ext. intros i. f_equal. lia.
Qed.

Lemma at_read_bytes m a n i : 0 <= i < n -> at_ (read_bytes m a n) i = mem_iord_byte m (a + i).
Proof.
  intros Hi. unfold at_. rewrite nth_lookup. unfold read_bytes.
  change (map ?f ?l) with (f <$> l). rewrite list_lookup_fmap.
  rewrite lookup_seqZ_lt by lia. cbn. f_equal. lia.
Qed.

(** Two arrays with the same elements. *)
Lemma at_ext l1 l2 : length l1 = length l2 ->
  (forall i, 0 <= i < Z.of_nat (length l1) -> at_ l1 i = at_ l2 i) -> l1 = l2.
Proof.
  intros Hl He. apply (nth_ext _ _ 0 0 Hl). intros n Hn.
  specialize (He (Z.of_nat n) ltac:(lia)). unfold at_ in He. by rewrite Nat2Z.id in He.
Qed.

Lemma read_bytes_list m a n l : Z.of_nat (length l) = n ->
  (forall i, 0 <= i < n -> mem_iord_byte m (a + i) = at_ l i) -> read_bytes m a n = l.
Proof.
  intros Hl He. apply at_ext; rewrite read_bytes_length; [lia|].
  intros i Hi. rewrite at_read_bytes by lia. apply He. lia.
Qed.

Lemma read_bytes_ext m m' a a' n :
  (forall i, 0 <= i < n -> mem_iord_byte m (a + i) = mem_iord_byte m' (a' + i)) ->
  read_bytes m a n = read_bytes m' a' n.
Proof.
  intros He. unfold read_bytes. apply map_ext_in.
  intros i Hi%list_elem_of_In%elem_of_seqZ. apply He. lia.
Qed.

Lemma read_bytes_array m a n : byte_array (Z.to_nat n) (read_bytes m a n).
Proof.
  split; [apply read_bytes_length|]. unfold read_bytes. apply Forall_map.
  apply Forall_true. intros i. apply iord_byte_range.
Qed.

Lemma read_bytes_slice m a n k j :
  0 <= k -> 0 <= j -> k + j <= n ->
  read_bytes m (a + k) j = take (Z.to_nat j) (drop (Z.to_nat k) (read_bytes m a n)).
Proof.
  intros Hk Hj Hn. replace n with (k + (j + (n - k - j))) by lia.
  rewrite !read_bytes_app by lia.
  rewrite drop_app_length' by (rewrite read_bytes_length; lia).
  by rewrite take_app_length' by (rewrite read_bytes_length; lia).
Qed.

(** Byte-wise invariant of a loop over the buffer: [Q k] gives the bytes
    after [k] iterations. *)
Lemma for_up_rd (Q : Z -> Z -> Z) n body m :
  (forall b, 0 <= b < 2 ^ 32 -> mem_iord_byte m b = Q 0 b) ->
  (forall k t, 0 <= k < Z.of_nat n ->
     (forall b, 0 <= b < 2 ^ 32 -> mem_iord_byte t b = Q k b) ->
     forall b, 0 <= b < 2 ^ 32 -> mem_iord_byte (body k t) b = Q (k + 1) b) ->
  forall b, 0 <= b < 2 ^ 32 -> mem_iord_byte (for_up n 0 1 body m) b = Q (Z.of_nat n) b.
Proof.
  intros H0 Hs.
  pose (P i t := forall b, 0 <= b < 2 ^ 32 -> mem_iord_byte t b = Q i b).
  enough (HP : P (0 + 1 * Z.of_nat n) (for_up n 0 1 body m)).
  { unfold P in HP. by replace (0 + 1 * Z.of_nat n) with (Z.of_nat n) in HP by lia. }
  apply for_up_inv; unfold P; [exact H0|].
  intros k t Hk. replace (0 + 1 * k) with k by lia. by apply Hs.
Qed.

(** A loop that stores [f i] at [a + i]. *)
Lemma rd_fill m a n (f : Z -> Z) b :
  in_space a (Z.of_nat n) -> 0 <= b < 2 ^ 32 ->
  mem_iord_byte (for_up n 0 1 (fun i t => mem_iowr_byte t (a + i) (f i)) m) b =
  if (a <=? b) && (b <? a + Z.of_nat n) then u8 (f (b - a)) else mem_iord_byte m b.
Proof.
  intros [Ha [_ Hn]]. revert b. apply (for_up_rd (fun k b =>
    if (a <=? b) && (b <? a + k) then u8 (f (b - a)) else mem_iord_byte m b)).
  - intros b Hb. by replace ((a <=? b) && (b <? a + 0)) with false by lia.
  - intros k t Hk IH b Hb. rewrite rd_wr, IH by lia.
    destruct (Z.eqb_spec (a + k) b) as [<-|].
    + replace ((a <=? a + k) && (a + k <? a + (k + 1))) with true by lia.
      do 2 f_equal. lia.
    + by replace ((a <=? b) && (b <? a + (k + 1))) with ((a <=? b) && (b <? a + k)) by lia.
Qed.

(** The copy loop of the reply builders. *)
Lemma rd_copy m src dst n b :
  in_space src (Z.of_nat n) -> in_space dst (Z.of_nat n) ->
  dst <= src \/ src + Z.of_nat n <= dst -> 0 <= b < 2 ^ 32 ->
  mem_iord_byte (for_up n 0 1 (fun i t =>
    mem_iowr_byte t (dst + i) (mem_iord_byte t (src + i))) m) b =
  if (dst <=? b) && (b <? dst + Z.of_nat n) then mem_iord_byte m (src + (b - dst))
  else mem_iord_byte m b.
Proof.
  intros [Hs1 [_ Hs2]] [Hd1 [_ Hd2]] Hov. revert b. apply (for_up_rd (fun k b =>
    if (dst <=? b) && (b <? dst + k) then mem_iord_byte m (src + (b - dst)) else mem_iord_byte m b)).
  - intros b Hb. by replace ((dst <=? b) && (b <? dst + 0)) with false by lia.
  - intros k t Hk IH b Hb. rewrite rd_wr, !IH by lia.
    replace ((dst <=? src + k) && (src + k <? dst + k)) with false by lia.
    destruct (Z.eqb_spec (dst + k) b) as [<-|].
    + replace ((dst <=? dst + k) && (dst + k <? dst + (k + 1))) with true by lia.
      rewrite u8_small by apply iord_byte_range. f_equal. lia.
    + by replace ((dst <=? b) && (b <? dst + (k + 1))) with ((dst <=? b) && (b <? dst + k)) by lia.
Qed.

(** The "swap addresses" loop of the reply builders: field [src] moves
    to field [dst] and is replaced by our own address [f]. *)
Definition swap_body (src dst : Z) (f : Z -> Z) (i : Z) (t : mem) : mem :=
  mem_iowr_byte (mem_iowr_byte t (dst + i) (mem_iord_byte t (src + i))) (src + i) (f i).

Lemma rd_swap m src dst n (f : Z -> Z) b :
  in_space src (Z.of_nat n) -> in_space dst (Z.of_nat n) ->
  dst + Z.of_nat n <= src \/ src + Z.of_nat n <= dst -> 0 <= b < 2 ^ 32 ->
  mem_iord_byte (for_up n 0 1 (swap_body src dst f) m) b =
  if (dst <=? b) && (b <? dst + Z.of_nat n) then mem_iord_byte m (src + (b - dst))
  else if (src <=? b) && (b <? src + Z.of_nat n) then u8 (f (b - src))
  else mem_iord_byte m b.
Proof.
  intros [Hs1 [_ Hs2]] [Hd1 [_ Hd2]] Hov. revert b. apply (for_up_rd (fun k b =>
    if (dst <=? b) && (b <? dst + k) then mem_iord_byte m (src + (b - dst))
    else if (src <=? b) && (b <? src + k) then u8 (f (b - src)) else mem_iord_byte m b)).
  - intros b Hb. replace ((dst <=? b) && (b <? dst + 0)) with false by lia.
    by replace ((src <=? b) && (b <? src + 0)) with false by lia.
  - intros k t Hk IH b Hb. unfold swap_body. rewrite !rd_wr, !IH by lia.
    replace ((dst <=? src + k) && (src + k <? dst + k)) with false by lia.
    replace ((src <=? src + k) && (src + k <? src + k)) with false by lia.
    rewrite (u8_small (mem_iord_byte _ _)) by apply iord_byte_range.
    replace ((src <=? b) && (b <? src + (k + 1)))
      with ((src + k =? b) || ((src <=? b) && (b <? src + k))) by lia.
    replace ((dst <=? b) && (b <? dst + (k + 1)))
      with ((dst + k =? b) || ((dst <=? b) && (b <? dst + k))) by lia.
    destruct (Z.eqb_spec (src + k) b) as [<-|].
    { replace (dst + k =? src + k) with false by lia.
      replace ((dst <=? src + k) && (src + k <? dst + k)) with false by lia.
      cbn. do 2 f_equal. lia. }
    destruct (Z.eqb_spec (dst + k) b) as [<-|]; [|done]. cbn. f_equal. lia.
Qed.

(** ** The byte memory the buffer implements *)

(** The abstract memory: a byte for every 32-bit address. *)
Definition bytes := Z -> Z.

Inductive buf_op :=
| WrByte (addr data : Z)   (* mem_iowr_byte *)
| WrWord (addr data : Z).  (* mem_iowr *)

Definition buf_step (o : buf_op) (m : mem) : mem :=
  match o with
  | WrByte a d => mem_iowr_byte m a d
  | WrWord a d => mem_iowr m a d
  end.

Definition bytes_step (o : buf_op) (f : bytes) : bytes := fun b =>
  match o with
  | WrByte a d => if a mod 2 ^ 32 =? b then d mod 256 else f b
  | WrWord a d =>
      let base := 4 * (a mod 2 ^ 32 / 4) in
      if (base <=? b) && (b <? base + 4) then (d / 256 ^ (base + 3 - b)) mod 256 else f b
  end.

(** The simulation relation. *)
Definition buf_abs (m : mem) (f : bytes) : Prop :=
  forall b, 0 <= b < 2 ^ 32 -> mem_iord_byte m b = f b.

Lemma pow_256 k : 0 <= k -> 2 ^ (8 * k) = 256 ^ k.
Proof. intros. by rewrite Z.pow_mul_r by lia. Qed.

Lemma buf_step_sim o m f : buf_abs m f -> buf_abs (buf_step o m) (bytes_step o f).
Proof.
  intros Hs b Hb. destruct o as [a d|a d]; cbn [buf_step bytes_step].
  - rewrite iord_iowr_byte, (u32_small b), Hs by lia. done.
  - fold (u32 a). set (base := 4 * (u32 a / 4)).
    assert (Hbase : 0 <= base /\ base + 4 <= 2 ^ 32 /\ base mod 4 = 0).
    { subst base. pose proof (u32_range a). rewrite Z.mul_comm, Z.mod_mul by lia.
      pose proof (Z.div_mod (u32 a) 4). pose proof (Z.mod_pos_bound (u32 a) 4).
      assert (u32 a / 4 < 2 ^ 30) by (apply Z.div_lt_upper_bound; lia).
      pose proof (Z.div_pos (u32 a) 4). lia. }
    assert (Hw : mem_iowr m a d = mem_iowr m base d).
    { unfold mem_iowr. f_equal. rewrite !cell_div, (u32_small base) by lia.
      subst base. by rewrite (Z.mul_comm 4), Z.div_mul by lia. }
    rewrite Hw, rd_wrw, Hs by lia.
    destruct (Z.leb_spec base b), (Z.ltb_spec b (base + 4)); try done. cbn.
    rewrite byte_at_div, <- pow_256 by lia. do 3 f_equal. lia.
Qed.

Lemma buf_run_sim ops : forall m f, buf_abs m f ->
  buf_abs (fold_left (fun t o => buf_step o t) ops m)
          (fold_left (fun t o => bytes_step o t) ops f).
Proof. induction ops as [|o ops IH]; intros m f Hs; cbn; auto using buf_step_sim. Qed.

Lemma buf_run_wf ops : forall m, wf_mem m ->
  wf_mem (fold_left (fun t o => buf_step o t) ops m).
Proof.
  induction ops as [|o ops IH]; intros m Hm; cbn; [done|].
  apply IH. destruct o; cbn [buf_step]; auto with word.
Qed.

(** The rx-tx buffer refines a byte-addressed memory.  After any
    sequence of byte and word writes to a buffer of 32-bit words, every
    byte read returns what a plain byte memory returns, a word is read
    as the big-endian value of its four bytes, and every word still fits
    in 32 bits. *)
Theorem buffer_refines_bytes ops m :
  wf_mem m ->
  let m' := fold_left (fun t o => buf_step o t) ops m in
  let f' := fold_left (fun t o => bytes_step o t) ops (mem_iord_byte m) in
  (forall b, 0 <= b < 2 ^ 32 -> mem_iord_byte m' b = f' b) /\
  (forall a, 0 <= a < 2 ^ 30 ->
     mem_iord m' (4 * a) = f' (4 * a) * 2 ^ 24 + f' (4 * a + 1) * 2 ^ 16
                         + f' (4 * a + 2) * 2 ^ 8 + f' (4 * a + 3)) /\
  (forall i, 0 <= rdw m' i < 2 ^ 32).
Proof.
  intros Hm m' f'.
  assert (Hs : buf_abs m' f') by (apply buf_run_sim; by intros b Hb).
  assert (Hw : wf_mem m') by by apply buf_run_wf.
  split_and!; [done | | done].
  intros a Ha. rewrite mem_iord_bytes, !Hs; auto; try lia.
  by rewrite Z.mul_comm, Z.mod_mul by lia.
Qed.

Lemma buffer_refines_bytes_witness :
  wf_mem ∅ /\
  mem_iord (fold_left (fun t o => buf_step o t)
    [WrWord 8 0x11223344; WrByte 9 0x1AB; WrByte 7 5] ∅) (4 * 2) = 0x11AB3344.
Proof.
  split; [apply wf_mem_empty|].
  rewrite (proj1 (proj2 (buffer_refines_bytes
    [WrWord 8 0x11223344; WrByte 9 0x1AB; WrByte 7 5] ∅ wf_mem_empty)) 2 ltac:(lia)).
  reflexivity.
Defined.
