(* ===== verification/World.v ===== *)
(** World: the machine state the Ethernet library runs in.

    - [EthDev] is the interface to what the library reads and writes but
      does not contain: the registers of the Ethernet controller at
      ETH_BASE and the microsecond clock of machine/rtc.h.  A register
      read may let the controller store a received frame into the buffer.
    - [world] collects the buffer, the controller and the globals of
      mac.c, ipv4.c, arp.c and udp.c.
    - [EthDevSpec] states the documented behaviour of the controller that
      the drivers rely on; [SimDev] is an executable controller with that
      behaviour. *)

From stdpp Require Import base numbers list gmap.
From S2P Require Import Prelude EthIO.

Class EthDev := {
  D : Type;
  reg_rd : Z -> mem -> D -> Z * (mem * D);
  reg_wr : Z -> Z -> mem -> D -> D;
  usecs : D -> Z * D;
}.

(** struct arp_table_entry (arp.c). *)
Record arp_table_entry := mk_arp_entry {
  used : Z;
  ip_addr : list Z;
  mac_addr : list Z;
}.

Record world `{EthDev} := mk_world {
  w_mem : mem;
  w_dev : D;
  w_arp_table : list arp_table_entry;
  w_my_mac : list Z;
  w_my_ip : list Z;
  w_ipv4_id : Z;
}.

Section Setters.
Context `{EthDev}.

Definition set_mem (m : mem) (w : world) : world :=
  mk_world _ m (w_dev w) (w_arp_table w) (w_my_mac w) (w_my_ip w) (w_ipv4_id w).
Definition set_dev (d : D) (w : world) : world :=
  mk_world _ (w_mem w) d (w_arp_table w) (w_my_mac w) (w_my_ip w) (w_ipv4_id w).
Definition set_arp_table (t : list arp_table_entry) (w : world) : world :=
  mk_world _ (w_mem w) (w_dev w) t (w_my_mac w) (w_my_ip w) (w_ipv4_id w).
Definition set_my_ip (ip : list Z) (w : world) : world :=
  mk_world _ (w_mem w) (w_dev w) (w_arp_table w) (w_my_mac w) ip (w_ipv4_id w).
Definition set_ipv4_id (i : Z) (w : world) : world :=
  mk_world _ (w_mem w) (w_dev w) (w_arp_table w) (w_my_mac w) (w_my_ip w) i.

(** Code that may spin on the controller: [None] is a busy-wait loop that
    used up its poll budget. *)
Definition M (A : Type) : Type := world -> option (A * world).

Definition ret {A} (a : A) : M A := fun w => Some (a, w).
Definition bind {A B} (c : M A) (k : A -> M B) : M B :=
  fun w => match c w with Some (a, w') => k a w' | None => None end.
Definition spin {A} : M A := fun _ => None.
Definition gets {A} (f : world -> A) : M A := fun w => Some (f w, w).
Definition modify (f : world -> world) : M unit := fun w => Some (tt, f w).

(** Buffer accesses as statements. *)
Definition rdb (addr : Z) : M Z := gets (fun w => mem_iord_byte (w_mem w) addr).
Definition upd_mem (f : mem -> mem) : M unit := modify (fun w => set_mem (f (w_mem w)) w).

(** eth_patmos_io.c: eth_iowr and eth_iord. *)
Definition eth_iowr (addr data : Z) : M unit :=
  modify (fun w => set_dev (reg_wr (cell addr) (u32 data) (w_mem w) (w_dev w)) w).
Definition eth_iord (addr : Z) : M Z := fun w =>
  let '(v, (m', d')) := reg_rd (cell addr) (w_mem w) (w_dev w) in
  Some (v, set_dev d' (set_mem m' w)).

(** machine/rtc.h: get_cpu_usecs. *)
Definition get_cpu_usecs : M Z := fun w =>
  let '(t, d') := usecs (w_dev w) in Some (u64 t, set_dev d' w).

End Setters.

Declare Scope eth_scope.
Delimit Scope eth_scope with eth.
Notation "x <- c ;; k" := (bind c (fun x => k))
  (at level 100, c at next level, right associativity) : eth_scope.
Notation "c ;; k" := (bind c (fun _ => k))
  (at level 100, right associativity) : eth_scope.

(** ** Registers (eth_mac_driver.h) *)
Definition INT_SOURCE_ADDR := 0x04.
Definition TX_BD_NUM_ADDR := 0x20.
Definition MIICOMMAND_ADDR := 0x2C.
Definition MIIADDRESS_ADDR := 0x30.
Definition MIITX_DATA_ADDR := 0x34.
Definition MIISTATUS := 0x3C.
Definition TX_BD_ADDR_BASE := 0x400.
Definition RX_BD_ADDR_BASE (tx_bd_num : Z) : Z := TX_BD_ADDR_BASE + tx_bd_num * 8.
Definition INT_SOURCE_RXB_BIT := 0x0004.
Definition INT_SOURCE_TXB_BIT := 0x0001.
Definition RX_BD_EMPTY_BIT := 0x8000.
Definition RX_BD_IRQEN_BIT := 0x4000.
Definition RX_BD_WRAP_BIT := 0x2000.
Definition TX_BD_READY_BIT := 0x8000.
Definition TX_BD_IRQEN_BIT := 0x4000.
Definition TX_BD_WRAP_BIT := 0x2000.
Definition TX_BD_PAD_EN_BIT := 0x1000.
Definition WCTRLDATA_BIT := 0x4.
Definition BUSY_BIT := 0x2.

(** ** What the controller promises *)

(** TXB is raised within [n] further reads of INT_SOURCE, and when it shows
    the transmitter is idle. *)
Fixpoint txb_within `{EthDev} (idle : D -> Prop) (n : nat) (m : mem) (d : D) : Prop :=
  let '(v, (m', d')) := reg_rd (cell INT_SOURCE_ADDR) m d in
  Z.land v 1 <> 0 /\ idle d' \/
  Z.land v 1 = 0 /\ match n with O => False | S n' => txb_within idle n' m' d' end.

(** The transmitter of the controller (hardware/ethmac, eth_wishbone.v) reads
    the transmit descriptor between the accesses of the processor while it is
    idle.  It starts when READY is set and the length is more than 4, and then
    does not look at the descriptor until the frame is sent; then it clears
    READY and raises TXB.  Transmissions without error are assumed.
    - [wire d] are the frames accepted so far, [txptr d] the transmit buffer
      pointer, [tx_idle d] says that no transmission is under way, [txb d] is the
      TXB flag, and [rx_window d] are the addresses where the controller may store
      a received frame.
    - A frame is what the buffer holds when its transmission starts; whoever
      does not wait for TXB must leave the buffer alone meanwhile. *)
Class EthDevSpec `{EthDev} := {
  wire : D -> list (list Z);
  txptr : D -> Z;
  tx_idle : D -> Prop;
  txb : D -> bool;
  rx_window : D -> Z -> Prop;
  tx_latency : nat;
  wr_tx_pointer : forall p m d,
    let d' := reg_wr (cell (TX_BD_ADDR_BASE + 4)) p m d in
    txptr d' = p /\ wire d' = wire d /\ (forall b, rx_window d' b <-> rx_window d b) /\ txb d' = txb d;
  wr_tx_ready : forall v m d, tx_idle d ->
    Z.testbit v 15 = true -> Z.testbit v 14 = true -> 4 < Z.shiftr v 16 ->
    let d' := reg_wr (cell TX_BD_ADDR_BASE) v m d in
    txptr d' = txptr d /\ wire d' = wire d ++ [read_bytes m (txptr d) (Z.shiftr v 16)] /\
    (forall b, rx_window d' b <-> rx_window d b) /\ (txb d = false -> txb_within tx_idle tx_latency m d');
  wr_tx_short : forall v m d, Z.shiftr v 16 <= 4 ->
    let d' := reg_wr (cell TX_BD_ADDR_BASE) v m d in
    txptr d' = txptr d /\ wire d' = wire d /\ (forall b, rx_window d' b <-> rx_window d b) /\ (tx_idle d -> tx_idle d');
  wr_int_source : forall v m d,
    let d' := reg_wr (cell INT_SOURCE_ADDR) v m d in
    txptr d' = txptr d /\ wire d' = wire d /\ (forall b, rx_window d' b <-> rx_window d b) /\
    (Z.testbit v 0 = true -> txb d' = false);
  wr_idle : forall r v m d, r <> cell TX_BD_ADDR_BASE -> tx_idle d -> tx_idle (reg_wr r v m d);
  rd_any : forall r m d,
    let '(_, (m', d')) := reg_rd r m d in
    txptr d' = txptr d /\ wire d' = wire d /\ (forall b, rx_window d' b <-> rx_window d b) /\
    (forall b, ~ rx_window d b -> mem_iord_byte m' b = mem_iord_byte m b) /\
    (wf_mem m -> wf_mem m') /\ (tx_idle d -> tx_idle d');
  usecs_idle : forall d, tx_idle d -> tx_idle (snd (usecs d));
}.

(** The clock: [cycles] counts processor cycles at 80 MHz, every access
    of the device takes between one and [max_cycles] of them, and
    get_cpu_usecs returns the elapsed microseconds. *)
Class EthClockSpec `{EthDev} := {
  cycles : D -> Z;
  max_cycles : Z;
  rd_cycles : forall r m d,
    let '(_, (_, d')) := reg_rd r m d in cycles d + 1 <= cycles d' <= cycles d + max_cycles;
  wr_cycles : forall r v m d, cycles d <= cycles (reg_wr r v m d) <= cycles d + max_cycles;
  usecs_cycles : forall d,
    let '(t, d') := usecs d in
    t = cycles d / 80 /\ cycles d <= cycles d' <= cycles d + max_cycles;
}.

(** ** An executable controller *)
Record sim_dev := mk_sim {
  sim_regs : gmap Z Z;
  sim_int : Z;
  sim_wire : list (list Z);
  sim_rx : list (list Z);
  sim_time : Z;
  sim_tx : option Z;
}.

Definition sim_reg (d : sim_dev) (r : Z) : Z := default 0 (sim_regs d !! r).

(** The receive descriptor follows the TX_BD_NUM transmit descriptors,
    whose number is fixed to the reset value of the controller. *)
Definition sim_tx_bd_num : Z := 0x40.
Definition sim_rxptr (d : sim_dev) : Z :=
  sim_reg d (cell (RX_BD_ADDR_BASE sim_tx_bd_num + 4)).

Fixpoint store_bytes (m : mem) (a : Z) (l : list Z) : mem :=
  match l with [] => m | x :: l' => store_bytes (mem_iowr_byte m a x) (a + 1) l' end.

(** Every access takes one cycle of the 80 MHz clock. *)
Definition sim_tick (d : sim_dev) : sim_dev :=
  mk_sim (sim_regs d) (sim_int d) (sim_wire d) (sim_rx d) (sim_time d + 1) (sim_tx d).

(** The transmission of [sim_tx], a descriptor, ends: READY is cleared and TXB
    is raised when the descriptor asks for it.  It ends at the next read of
    INT_SOURCE. *)
Definition sim_done (d : sim_dev) : sim_dev :=
  match sim_tx d with
  | None => d
  | Some v =>
      mk_sim (<[cell TX_BD_ADDR_BASE := Z.clearbit v 15]> (sim_regs d))
        (if Z.testbit v 14 then Z.lor (sim_int d) INT_SOURCE_TXB_BIT else sim_int d)
        (sim_wire d) (sim_rx d) (sim_time d) None
  end.

Definition sim_rd (r : Z) (m : mem) (d0 : sim_dev) : Z * (mem * sim_dev) :=
  let d := sim_tick d0 in
  if r =? cell INT_SOURCE_ADDR then
    let d := sim_done d in
    match sim_rx d with
    | f :: fs =>
        if Z.land (sim_int d) INT_SOURCE_RXB_BIT =? 0 then
          let i := Z.lor (sim_int d) INT_SOURCE_RXB_BIT in
          (i, (store_bytes m (sim_rxptr d) (take 1536 f),
               mk_sim (sim_regs d) i (sim_wire d) fs (sim_time d) (sim_tx d)))
        else (sim_int d, (m, d))
    | [] => (sim_int d, (m, d))
    end
  else if r =? cell TX_BD_NUM_ADDR then (sim_tx_bd_num, (m, d))
  else (sim_reg d r, (m, d)).

Definition sim_wr (r v : Z) (m : mem) (d : sim_dev) : sim_dev :=
  if r =? cell INT_SOURCE_ADDR then
    mk_sim (sim_regs d) (Z.land (sim_int d) (Z.lnot v)) (sim_wire d) (sim_rx d) (sim_time d) (sim_tx d)
  else if (r =? cell TX_BD_ADDR_BASE) && Z.testbit v 15 && (4 <? Z.shiftr v 16) && bool_decide (sim_tx d = None) then
    mk_sim (<[r := v]> (sim_regs d)) (sim_int d)
      (sim_wire d ++ [read_bytes m (sim_reg d (cell (TX_BD_ADDR_BASE + 4))) (Z.shiftr v 16)])
      (sim_rx d) (sim_time d) (Some v)
  else mk_sim (<[r := v]> (sim_regs d)) (sim_int d) (sim_wire d) (sim_rx d) (sim_time d) (sim_tx d).

Definition sim_usecs (d : sim_dev) : Z * sim_dev := (sim_time d / 80, sim_tick d).

Definition SimDev : EthDev := {|
  D := sim_dev; reg_rd := sim_rd; reg_wr := sim_wr; usecs := sim_usecs |}.

Definition sim_rx_window (d : sim_dev) (b : Z) : Prop :=
  exists k, 0 <= k < 1536 /\ u32 b = u32 (sim_rxptr d + k).

Lemma store_bytes_frame l : forall m a b,
  (forall k, 0 <= k < Z.of_nat (length l) -> u32 b <> u32 (a + k)) ->
  mem_iord_byte (store_bytes m a l) b = mem_iord_byte m b.
Proof.
  induction l as [|x l IH]; intros m a b Hb; cbn [store_bytes]; [done|].
  rewrite IH.
  - rewrite iord_iowr_byte. specialize (Hb 0). cbn [length] in Hb.
    rewrite Z.add_0_r in Hb. destruct (Z.eqb_spec (u32 a) (u32 b)) as [He|]; [|done].
    exfalso. apply Hb; [lia | done].
  - intros k Hk. replace (a + 1 + k) with (a + (k + 1)) by lia.
    apply Hb. cbn [length]. lia.
Qed.

Lemma store_bytes_wf l : forall m a, wf_mem m -> wf_mem (store_bytes m a l).
Proof. induction l; cbn [store_bytes]; auto with word. Qed.

Lemma sim_reg_insert r v d i w x t b r' :
  sim_reg (mk_sim (<[r := v]> (sim_regs d)) i w x t b) r' = if r =? r' then v else sim_reg d r'.
Proof. apply rdw_insert. Qed.

Lemma sim_wr_tx_pointer p m d :
  sim_wr (cell (TX_BD_ADDR_BASE + 4)) p m d =
  mk_sim (<[cell (TX_BD_ADDR_BASE + 4) := p]> (sim_regs d)) (sim_int d) (sim_wire d)
    (sim_rx d) (sim_time d) (sim_tx d).
Proof. reflexivity. Qed.

Lemma sim_wr_tx_ready v m d : sim_tx d = None -> Z.testbit v 15 = true -> 4 < Z.shiftr v 16 ->
  sim_wr (cell TX_BD_ADDR_BASE) v m d =
  mk_sim (<[cell TX_BD_ADDR_BASE := v]> (sim_regs d)) (sim_int d)
    (sim_wire d ++ [read_bytes m (sim_reg d (cell (TX_BD_ADDR_BASE + 4))) (Z.shiftr v 16)])
    (sim_rx d) (sim_time d) (Some v).
Proof.
  intros Hi Hv Hl. unfold sim_wr. change (cell TX_BD_ADDR_BASE =? cell INT_SOURCE_ADDR) with false.
  by rewrite Z.eqb_refl, Hv, (proj2 (Z.ltb_lt _ _) Hl), bool_decide_true.
Qed.
Lemma sim_wr_tx_short v m d : Z.shiftr v 16 <= 4 ->
  sim_wr (cell TX_BD_ADDR_BASE) v m d =
  mk_sim (<[cell TX_BD_ADDR_BASE := v]> (sim_regs d)) (sim_int d) (sim_wire d) (sim_rx d) (sim_time d) (sim_tx d).
Proof.
  intros Hl. unfold sim_wr. change (cell TX_BD_ADDR_BASE =? cell INT_SOURCE_ADDR) with false.
  by rewrite (proj2 (Z.ltb_ge _ _) Hl), andb_false_r.
Qed.
Lemma sim_done_reg d r : r <> cell TX_BD_ADDR_BASE -> sim_reg (sim_done d) r = sim_reg d r.
Proof.
  intros Hr. unfold sim_done. destruct (sim_tx d); [|done]. rewrite sim_reg_insert. by destruct (Z.eqb_spec (cell TX_BD_ADDR_BASE) r).
Qed.
Lemma sim_done_rest d : sim_wire (sim_done d) = sim_wire d /\ sim_rx (sim_done d) = sim_rx d /\
  sim_time (sim_done d) = sim_time d /\ sim_tx (sim_done d) = None.
Proof. unfold sim_done. by destruct (sim_tx d) eqn:E. Qed.

Lemma lor_txb_nonzero z : Z.land (Z.lor z 1) 1 <> 0.
Proof.
  intros Hz. apply (f_equal (fun x => Z.testbit x 0)) in Hz.
  rewrite Z.land_spec, Z.lor_spec, Z.bits_0 in Hz.
  change (Z.testbit 1 0) with true in Hz. by rewrite orb_true_r in Hz.
Qed.

Definition SimDevSpec : @EthDevSpec SimDev.
Proof.
  refine (@Build_EthDevSpec SimDev sim_wire
    (fun d => sim_reg d (cell (TX_BD_ADDR_BASE + 4))) (fun d => sim_tx d = None) (fun d => Z.testbit (sim_int d) 0)
    sim_rx_window 0%nat _ _ _ _ _ _ _).
  - intros p m d. change (@reg_wr SimDev) with sim_wr. rewrite sim_wr_tx_pointer.
    unfold sim_rx_window, sim_rxptr. cbv zeta. split_and!; [|done| |done].
    + by rewrite sim_reg_insert, Z.eqb_refl.
    + intros b. by rewrite sim_reg_insert.
  - intros v m d Hi Hv Hq Hl. change (@reg_wr SimDev) with sim_wr.
    cbv zeta. rewrite sim_wr_tx_ready by done.
    unfold sim_rx_window, sim_rxptr. split_and!; [| done | |].
    + by rewrite sim_reg_insert.
    + intros b. by rewrite sim_reg_insert.
    + intros _. cbn [txb_within]. change (@reg_rd SimDev) with sim_rd. unfold sim_rd.
      rewrite Z.eqb_refl. unfold sim_done. cbn [sim_tick sim_int sim_rx sim_wire sim_time sim_regs sim_tx]. rewrite Hq.
      repeat case_match; simplify_eq; left; (split; [|done]); try apply lor_txb_nonzero.
      unfold INT_SOURCE_TXB_BIT.
      rewrite <- Z.lor_assoc, (Z.lor_comm 1), Z.lor_assoc. apply lor_txb_nonzero.
  - intros v m d Hl. change (@reg_wr SimDev) with sim_wr. cbv zeta. rewrite sim_wr_tx_short by done.
    unfold sim_rx_window, sim_rxptr. split_and!; [by rewrite sim_reg_insert|done| |done]. intros b. by rewrite sim_reg_insert.
  - intros v m d. change (@reg_wr SimDev) with sim_wr. split_and!; [done..|]. intros Hv. unfold sim_wr.
    rewrite Z.eqb_refl. cbn [sim_int]. by rewrite Z.land_spec, Z.lnot_spec, Hv, andb_false_r by lia.
  - intros r v m d Hr Hi. change (@reg_wr SimDev) with sim_wr. unfold sim_wr. rewrite (proj2 (Z.eqb_neq _ _) Hr). cbn [andb].
    by destruct (r =? cell INT_SOURCE_ADDR).
  - intros r m d. change (@reg_rd SimDev) with sim_rd. unfold sim_rd.
    destruct (sim_done_rest (sim_tick d)) as (Ew & Ex & Et & Ei).
    assert (Er : forall a, a <> cell TX_BD_ADDR_BASE -> sim_reg (sim_done (sim_tick d)) a = sim_reg d a)
      by (intros a Ha; by rewrite sim_done_reg).
    unfold sim_rx_window, sim_rxptr.
    repeat case_match; simplify_eq; cbn [sim_wire sim_regs sim_tx]; unfold sim_reg in *; cbn [sim_regs];
      rewrite ?Er by done; split_and!; try done.
    + intros b Hb. apply store_bytes_frame. intros k Hk He. apply Hb.
      exists k. rewrite length_take in Hk. split; [lia|done].
    + by apply store_bytes_wf.
  - done.
Defined.

Definition SimClock : @EthClockSpec SimDev.
Proof.
  refine (@Build_EthClockSpec SimDev sim_time 1 _ _ _).
  - intros r m d. change (@reg_rd SimDev) with sim_rd. unfold sim_rd.
    destruct (sim_done_rest (sim_tick d)) as (_ & _ & Et & _). repeat case_match; simplify_eq; cbn [sim_tick sim_time] in *; lia.
  - intros r v m d. change (@reg_wr SimDev) with sim_wr. unfold sim_wr.
    repeat case_match; cbn [sim_time]; lia.
  - intros d. cbn [usecs SimDev sim_usecs sim_tick sim_time]. lia.
Defined.

(** A controller after reset. *)
Definition sim_init : sim_dev := mk_sim ∅ 0 [] [] 0 None.
