(* ===== verification/EthMac.v ===== *)
(** EthMac: the driver of the Ethernet controller.

    Models c/ethlib/eth_mac_driver.c over the [EthDev] interface: sending
    and receiving frames through the buffer descriptors, and the register
    accessors.  Busy-wait loops take a poll budget ([fuel]); the theorems
    give budgets that suffice. *)

From stdpp Require Import base numbers list gmap.
From S2P Require Import Prelude EthIO World.

Section Driver.
Context `{EthDev}.
Local Open Scope eth_scope.

(** The loop that waits until the descriptor is free.  [free] is an
    unsigned char, so the value read is truncated to eight bits. *)
Fixpoint wait_free (fuel : nat) (free : Z) : M unit :=
  if free =? 1 then
    match fuel with
    | O => spin
    | S f => v <- eth_iord TX_BD_ADDR_BASE ;; wait_free f (u8 (Z.land v 0x8000))
    end
  else ret tt.

(** The loop that waits until the transmission is done. *)
Fixpoint wait_done (fuel : nat) (done : Z) : M unit :=
  if done =? 0 then
    match fuel with
    | O => spin
    | S f => v <- eth_iord INT_SOURCE_ADDR ;; wait_done f (u8 (Z.land v 0x1))
    end
  else ret tt.

Definition eth_mac_send (fuel : nat) (tx_addr frame_length : Z) : M unit :=
  wait_free fuel 1 ;;
  eth_iowr INT_SOURCE_ADDR 0x00000001 ;;
  eth_iowr (TX_BD_ADDR_BASE + 4) tx_addr ;;
  eth_iowr TX_BD_ADDR_BASE (Z.lor (Z.shiftl frame_length 16) 0xF000) ;;
  wait_done fuel 0.

Definition eth_mac_send_nb (tx_addr frame_length : Z) : M Z :=
  v <- eth_iord TX_BD_ADDR_BASE ;;
  if Z.land v TX_BD_READY_BIT =? 1 then ret 0
  else
    eth_iowr (TX_BD_ADDR_BASE + 4) tx_addr ;;
    eth_iowr TX_BD_ADDR_BASE (Z.lor (Z.shiftl frame_length 16) 0xF000) ;;
    eth_iowr INT_SOURCE_ADDR INT_SOURCE_TXB_BIT ;;
    eth_iowr TX_BD_ADDR_BASE
      (Z.lor (Z.lor (Z.lor TX_BD_READY_BIT TX_BD_IRQEN_BIT) TX_BD_WRAP_BIT) TX_BD_PAD_EN_BIT) ;;
    ret 1.

(** RX_BD_EMPTY_BIT | RX_BD_IRQEN_BIT | RX_BD_WRAP_BIT *)
Definition rx_bd_rearm : Z := Z.lor (Z.lor RX_BD_EMPTY_BIT RX_BD_IRQEN_BIT) RX_BD_WRAP_BIT.

Fixpoint wait_rxb (fuel : nat) : M unit :=
  v <- eth_iord INT_SOURCE_ADDR ;;
  if Z.land v INT_SOURCE_RXB_BIT =? 0 then
    match fuel with O => spin | S f => wait_rxb f end
  else ret tt.

(** The polling loop with a timeout: [false] when the time is up. *)
Fixpoint wait_rxb_until (fuel : nat) (start_time timeout : Z) : M bool :=
  v <- eth_iord INT_SOURCE_ADDR ;;
  if Z.land v INT_SOURCE_RXB_BIT =? 0 then
    t <- get_cpu_usecs ;;
    if timeout <=? u64 (t - start_time) then ret false
    else match fuel with O => spin | S f => wait_rxb_until f start_time timeout end
  else ret true.

Definition eth_mac_receive (fuel : nat) (rx_addr timeout : Z) : M Z :=
  n <- eth_iord TX_BD_NUM_ADDR ;;
  eth_iowr (RX_BD_ADDR_BASE n + 4) rx_addr ;;
  got <- (if timeout =? 0 then wait_rxb fuel ;; ret true
          else start_time <- get_cpu_usecs ;; wait_rxb_until fuel start_time timeout) ;;
  if (got : bool) then
    eth_iowr INT_SOURCE_ADDR INT_SOURCE_RXB_BIT ;;
    n <- eth_iord TX_BD_NUM_ADDR ;;
    eth_iowr (RX_BD_ADDR_BASE n) rx_bd_rearm ;;
    ret 1
  else ret 0.

Definition eth_mac_receive_nb (rx_addr : Z) : M Z :=
  n <- eth_iord TX_BD_NUM_ADDR ;;
  eth_iowr (RX_BD_ADDR_BASE n + 4) rx_addr ;;
  v <- eth_iord INT_SOURCE_ADDR ;;
  let ans := if Z.land v INT_SOURCE_RXB_BIT =? 0 then 0 else 1 in
  eth_iowr INT_SOURCE_ADDR INT_SOURCE_RXB_BIT ;;
  n <- eth_iord TX_BD_NUM_ADDR ;;
  eth_iowr (RX_BD_ADDR_BASE n) rx_bd_rearm ;;
  ret ans.

Definition eth_mac_has_frame (rx_addr : Z) : M Z :=
  v <- eth_iord INT_SOURCE_ADDR ;;
  ret (if Z.land v INT_SOURCE_RXB_BIT =? 0 then 0 else 1).

Definition eth_mac_isready_rx_buffer (rx_buff rx_bd : Z) : M Z :=
  v <- eth_iord rx_bd ;;
  ret (if Z.land v RX_BD_EMPTY_BIT =? 0 then 0 else 1).

Definition eth_mac_clear_rx_buffer (rx_buff rx_bd : Z) : M unit :=
  temp_config <- eth_iord INT_SOURCE_ADDR ;;
  eth_iowr INT_SOURCE_ADDR (Z.lor temp_config INT_SOURCE_RXB_BIT) ;;
  temp_config <- eth_iord rx_bd ;;
  eth_iowr rx_bd (Z.lor temp_config rx_bd_rearm).

Definition eth_mac_initialize : M unit :=
  eth_iowr 0x40 0xEEF0DA42 ;;
  eth_iowr 0x44 0x000000FF ;;
  eth_iowr 0x00 0x0000A423 ;;
  n <- eth_iord TX_BD_NUM_ADDR ;;
  eth_iowr (RX_BD_ADDR_BASE n) rx_bd_rearm.

(** ** Register accessors *)

Definition set_tx_enable : M unit := data <- eth_iord 0x00 ;; eth_iowr 0x00 (Z.lor data 0x0002).
Definition get_tx_enable : M Z := data <- eth_iord 0x00 ;; ret (Z.land data 0x0002).
Definition set_rx_enable : M unit := data <- eth_iord 0x00 ;; eth_iowr 0x00 (Z.lor data 0x0001).
Definition get_rx_enable : M Z := data <- eth_iord 0x00 ;; ret (Z.land data 0x0001).
Definition set_int_source_rxb : M unit :=
  data <- eth_iord 0x04 ;; eth_iowr 0x04 (Z.lor data (Z.shiftl 1 3)).
Definition get_int_source_rxb : M Z :=
  data <- eth_iord 0x04 ;; ret (Z.land (Z.shiftr data 3) 1).

(** The error message of the rejected case is not modelled. *)
Definition set_tx_db_num (data : Z) : M unit :=
  if data <? 0x80 then eth_iowr 0x20 data else ret tt.
Definition get_tx_db_num : M Z := eth_iord 0x20.

Definition set_mac_address (my_mac0 my_mac1 : Z) : M unit :=
  eth_iowr 0x40 my_mac0 ;; eth_iowr 0x44 my_mac1.
Definition get_mac_address : M Z :=
  my_mac <- eth_iord 0x44 ;;
  lo <- eth_iord 0x40 ;;
  ret (u64 (u64 (Z.shiftl my_mac 32) + lo)).

Definition set_tx_bd (data : Z) : M unit := eth_iowr 0x400 data.
Definition get_tx_db : M Z := eth_iord 0x400.
Definition get_tx_db_mem_pointer : M Z := eth_iord (0x400 + 0x04).

(** The address of the first receive descriptor: 0x400 + (tx_db_num * 0x08). *)
Definition base_addr_rx_db : M Z :=
  tx_db_num <- get_tx_db_num ;; ret (u32 (0x400 + tx_db_num * 0x08)).

Definition set_rx_bd (data : Z) : M unit := a <- base_addr_rx_db ;; eth_iowr a data.
Definition get_rx_db : M Z := a <- base_addr_rx_db ;; eth_iord a.
Definition get_rx_db_length : M Z :=
  base_addr_rx_db ;; rx_db <- get_rx_db ;; ret (Z.shiftr rx_db 16).
Definition get_rx_db_mem_pointer : M Z := a <- base_addr_rx_db ;; eth_iord (a + 0x04).
Definition set_rx_db_empty : M unit :=
  a <- base_addr_rx_db ;; cur_data <- eth_iord a ;; eth_iowr a (Z.lor cur_data (Z.shiftl 1 15)).
Definition get_rx_db_empty : M Z :=
  a <- base_addr_rx_db ;; cur_data <- eth_iord a ;; ret (Z.land (Z.shiftr cur_data 15) 1).
Definition set_rx_db_irq : M unit :=
  a <- base_addr_rx_db ;; cur_data <- eth_iord a ;; eth_iowr a (Z.lor cur_data (Z.shiftl 1 14)).
Definition get_rx_db_irq : M Z :=
  a <- base_addr_rx_db ;; cur_data <- eth_iord a ;; ret (Z.land (Z.shiftr cur_data 14) 1).

Definition send_phy_command (cmd reg_addr phy_addr : Z) : M Z :=
  st <- eth_iord MIISTATUS ;;
  if Z.land st BUSY_BIT =? BUSY_BIT then ret 0
  else
    eth_iowr MIITX_DATA_ADDR cmd ;;
    eth_iowr MIIADDRESS_ADDR
      (Z.lor (Z.shiftl (Z.land reg_addr 0xF) 8) (Z.land phy_addr 0xF)) ;;
    eth_iowr MIICOMMAND_ADDR WCTRLDATA_BIT ;;
    ret 1.

Definition eth_read_register (addr : Z) : M Z := eth_iord addr.

End Driver.

(** ** Correctness against the controller's contract *)

Section Correct.
Context `{EthDevSpec}.
Local Open Scope eth_scope.

(** What the environment may change while the driver runs: the globals of
    the library stay, the buffer only changes in the receive window, and an idle
    transmitter stays idle. *)
Record env_step (w w' : world) : Prop := {
  es_arp : w_arp_table w' = w_arp_table w;
  es_mac : w_my_mac w' = w_my_mac w;
  es_ip : w_my_ip w' = w_my_ip w;
  es_id : w_ipv4_id w' = w_ipv4_id w;
  es_window : forall b, rx_window (w_dev w') b <-> rx_window (w_dev w) b;
  es_mem : forall b, ~ rx_window (w_dev w) b ->
    mem_iord_byte (w_mem w') b = mem_iord_byte (w_mem w) b;
  es_wf : wf_mem (w_mem w) -> wf_mem (w_mem w');
  es_idle : tx_idle (w_dev w) -> tx_idle (w_dev w');
}.

#[export] Instance env_step_preorder : PreOrder env_step.
Proof.
  split.
  - intros w. by split.
  - intros w1 w2 w3 [A1 B1 C1 D1 E1 F1 G1 I1] [A2 B2 C2 D2 E2 F2 G2 I2]. split; try congruence; auto.
    + intros b. by rewrite E2, E1.
    + intros b Hb. rewrite F2, F1; [done | done |]. by rewrite E1.
Qed.

Lemma eth_iord_env a w : exists v w',
  eth_iord a w = Some (v, w') /\ env_step w w' /\
  wire (w_dev w') = wire (w_dev w) /\ txptr (w_dev w') = txptr (w_dev w).
Proof.
  unfold eth_iord. pose proof (rd_any (cell a) (w_mem w) (w_dev w)) as Hr.
  destruct (reg_rd _ _ _) as [v [m' d']]. destruct Hr as (Ht & Hw & Hx & Hm & Hwf & Hid).
  do 2 eexists. split; [done|]. by split_and!.
Qed.

(** One poll of a busy-wait loop. *)
Lemma bind_eth_iord {A} a (k : Z -> M A) w : exists v w',
  (v0 <- eth_iord a ;; k v0) w = k v w' /\ env_step w w' /\
  wire (w_dev w') = wire (w_dev w) /\ txptr (w_dev w') = txptr (w_dev w).
Proof.
  destruct (eth_iord_env a w) as (v & w' & Hr & ?).
  exists v, w'. unfold bind. by rewrite Hr.
Qed.

Lemma u8_land_32768 v : u8 (Z.land v 0x8000) = 0.
Proof.
  apply Z.bits_inj'. intros i Hi. unfold u8. rewrite testbit_u, Z.land_spec, Z.bits_0 by lia.
  change 0x8000 with (2 ^ 15). rewrite Z.pow2_bits_eqb by lia.
  destruct (Z.ltb_spec i 8); [|done]. replace (15 =? i) with false by lia.
  by rewrite andb_false_r.
Qed.

(** The descriptor-free loop polls exactly once whatever it reads. *)
Lemma wait_free_once fuel w : (0 < fuel)%nat -> exists w',
  wait_free fuel 1 w = Some (tt, w') /\ env_step w w' /\
  wire (w_dev w') = wire (w_dev w) /\ txptr (w_dev w') = txptr (w_dev w).
Proof.
  destruct fuel as [|f]; [lia|]. intros _. cbn [wait_free]. rewrite Z.eqb_refl.
  destruct (bind_eth_iord TX_BD_ADDR_BASE
    (fun v => wait_free f (u8 (Z.land v 0x8000))) w) as (v & w' & -> & Hw').
  exists w'. rewrite u8_land_32768. by destruct f.
Qed.

(** The completion loop ends as soon as TXB is raised, with the transmitter
    idle. *)
Lemma wait_done_ends n : forall fuel w,
  txb_within tx_idle n (w_mem w) (w_dev w) -> (n < fuel)%nat -> exists w',
  wait_done fuel 0 w = Some (tt, w') /\ env_step w w' /\
  wire (w_dev w') = wire (w_dev w) /\ txptr (w_dev w') = txptr (w_dev w) /\ tx_idle (w_dev w').
Proof.
  induction n as [|n IH]; intros fuel w Htx Hf; (destruct fuel as [|f]; [lia|]);
    cbn [wait_done]; rewrite Z.eqb_refl; cbn [txb_within] in Htx; unfold bind, eth_iord;
    pose proof (rd_any (cell INT_SOURCE_ADDR) (w_mem w) (w_dev w)) as Hr;
    destruct (reg_rd _ _ _) as [v [m' d']]; destruct Hr as (Ht & Hw & Hx & Hm & Hwf & Hid).
  all: set (w1 := set_dev d' (set_mem m' w)).
  all: assert (Henv : env_step w w1) by (subst w1; by split).
  all: assert (Hlow : u8 (Z.land v 1) = Z.land v 1)
    by (apply u8_small; rewrite land_1; pose proof (Z.mod_pos_bound v 2); lia).
  all: rewrite Hlow.
  all: destruct (Z.eqb_spec (Z.land v 1) 0) as [Hz|Hz]; destruct Htx as [[Hb Hi]|[Hb Htx]]; try done.
  all: try (exists w1; unfold wait_done; destruct f; rewrite (proj2 (Z.eqb_neq _ _) Hz); done).
  destruct (IH f w1 Htx ltac:(lia)) as (w' & Hd & He & Hw1 & Ht1 & Hi1). exists w'.
  rewrite Hz, Hd. split_and!; [done | by etrans | by rewrite Hw1 | by rewrite Ht1 | done].
Qed.

(** The descriptor word of a frame: its length and the READY bit. *)
Lemma tx_descriptor len : 0 <= len < 2 ^ 16 ->
  let v := Z.lor (Z.shiftl len 16) 0xF000 in
  u32 v = v /\ Z.testbit v 15 = true /\ Z.testbit v 14 = true /\ Z.shiftr v 16 = len.
Proof.
  intros Hlen v. subst v. split_and!.
  - apply Z.bits_inj'. intros i Hi. unfold u32. rewrite testbit_u by lia.
    destruct (Z.ltb_spec i 32); [done|]. rewrite Z.lor_spec, Z.shiftl_spec by lia.
    rewrite <- (Z.mod_small len (2 ^ 16)) by lia. rewrite testbit_u by lia.
    replace (i - 16 <? 16) with false by lia. cbn.
    change 0xF000 with (Z.land 0xF000 (Z.ones 32)). rewrite Z.land_ones, testbit_u by lia.
    by replace (i <? 32) with false by lia.
  - rewrite Z.lor_spec. by rewrite orb_true_r.
  - rewrite Z.lor_spec. by rewrite orb_true_r.
  - rewrite Z.shiftr_lor, Z.shiftr_shiftl_l by lia. change (Z.shiftr 0xF000 16) with 0.
    by rewrite Z.lor_0_r, Z.shiftl_0_r.
Qed.

(** Sending a frame of [len] bytes, when the transmitter is idle, hands
    exactly those bytes to the controller and returns once they are
    transmitted. *)
Lemma eth_mac_send_spec fuel tx_addr len w :
  0 <= tx_addr < 2 ^ 32 -> 4 < len < 2 ^ 16 -> (tx_latency < fuel)%nat -> tx_idle (w_dev w) ->
  (forall i, 0 <= i < len -> ~ rx_window (w_dev w) (tx_addr + i)) ->
  exists w', eth_mac_send fuel tx_addr len w = Some (tt, w') /\ env_step w w' /\ tx_idle (w_dev w') /\
    wire (w_dev w') = wire (w_dev w) ++ [read_bytes (w_mem w) tx_addr len].
Proof.
  intros Htx Hlen Hfuel Hidle Hrx. unfold eth_mac_send.
  destruct (wait_free_once fuel w) as (w1 & Hf & He1 & Hw1 & _); [lia|].
  unfold bind at 1. rewrite Hf.
  destruct (tx_descriptor len ltac:(lia)) as (Hv1 & Hv2 & Hv4 & Hv3).
  set (v := Z.lor (Z.shiftl len 16) 0xF000) in *.
  unfold bind, eth_iowr, modify. cbn [w_mem w_dev set_dev].
  rewrite Hv1, (u32_small tx_addr) by lia.
  set (d1 := reg_wr (cell INT_SOURCE_ADDR) (u32 1) (w_mem w1) (w_dev w1)).
  set (d2 := reg_wr (cell (TX_BD_ADDR_BASE + 4)) tx_addr (w_mem w1) d1).
  set (d3 := reg_wr (cell TX_BD_ADDR_BASE) v (w_mem w1) d2).
  pose proof (wr_int_source (u32 1) (w_mem w1) (w_dev w1)) as (_ & Hi2 & Hi3 & Hi4). fold d1 in Hi2, Hi3, Hi4.
  pose proof (wr_tx_pointer tx_addr (w_mem w1) d1) as (Hp1 & Hp2 & Hp3 & Hp4). fold d2 in Hp1, Hp2, Hp3, Hp4.
  assert (Hid2 : tx_idle d2) by (apply wr_idle, wr_idle, (es_idle _ _ He1), Hidle; vm_compute; discriminate).
  pose proof (wr_tx_ready v (w_mem w1) d2 Hid2 Hv2 Hv4 ltac:(lia)) as (_ & Hr2 & Hr3 & Hr4). fold d3 in Hr2, Hr3, Hr4.
  match goal with |- context [wait_done fuel 0 ?x] => set (w2 := x) end.
  destruct (wait_done_ends tx_latency fuel w2 (Hr4 ltac:(by rewrite Hp4, Hi4)) Hfuel) as (w' & Hd & He2 & Hw2 & _ & Hid').
  exists w'. split; [done|].
  split; [|split; [done|]].
  { destruct He1 as [A1 B1 C1 D1 E1 F1 G1 I1], He2 as [A2 B2 C2 D2 E2 F2 G2 I2]. split; try congruence; auto.
    - by rewrite A2.
    - by rewrite B2.
    - by rewrite C2.
    - by rewrite D2.
    - intros b. rewrite E2. change (w_dev w2) with d3. by rewrite Hr3, Hp3, Hi3.
    - intros b Hb. rewrite F2, <- F1 by (try done; change (w_dev w2) with d3; by rewrite Hr3, Hp3, Hi3, E1). done. }
  rewrite Hw2. change (w_dev w2) with d3. rewrite Hr2, Hp2, Hi2, Hw1, Hp1, Hv3. do 2 f_equal.
  unfold read_bytes. apply map_ext_in. intros i [Hi Hi']%list_elem_of_In%elem_of_seqZ.
  apply es_mem; [done|]. apply Hrx. lia.
Qed.

End Correct.

(** ** Time bound of the receive loop *)

Section Timeout.
Context `{EthDev} {EC : EthClockSpec}.
Local Open Scope eth_scope.

Definition now (w : world) : Z := cycles (w_dev w).

Lemma eth_iord_time a w : exists v w',
  eth_iord a w = Some (v, w') /\ now w + 1 <= now w' <= now w + max_cycles.
Proof.
  unfold eth_iord. pose proof (rd_cycles (cell a) (w_mem w) (w_dev w)) as Hc.
  destruct (reg_rd _ _ _) as [v [m' d']]. by eexists _, _.
Qed.

Lemma get_cpu_usecs_time w : exists w',
  get_cpu_usecs w = Some (u64 (now w / 80), w') /\ now w <= now w' <= now w + max_cycles.
Proof.
  unfold get_cpu_usecs. pose proof (usecs_cycles (w_dev w)) as Hc.
  destruct (usecs _) as [t d']. destruct Hc as [-> Hc]. by eexists.
Qed.

Lemma eth_iowr_time a v w : exists w',
  eth_iowr a v w = Some (tt, w') /\ now w <= now w' <= now w + max_cycles.
Proof. eexists. split; [done|]. apply wr_cycles. Qed.

Lemma u64_sub a b : u64 (u64 a - u64 b) = u64 (a - b).
Proof. unfold u64. by rewrite <- Zminus_mod. Qed.

(** The polling loop returns within [80 * timeout] polls, and only gives
    up once the time is over. *)
Lemma wait_rxb_until_ends timeout start : forall fuel w,
  start <= now w <= start + 80 * timeout + max_cycles ->
  timeout + 2 * max_cycles + 1 < 2 ^ 64 ->
  80 * timeout <= now w - start + Z.of_nat fuel ->
  exists b w', wait_rxb_until fuel (u64 (start / 80)) timeout w = Some (b, w') /\
    now w <= now w' /\ (b = false -> timeout <= now w' / 80 - start / 80).
Proof.
  intros fuel. induction fuel as [|fuel IH]; intros w Hge Hbig Hfuel;
    cbn [wait_rxb_until]; unfold bind at 1;
    destruct (eth_iord_time INT_SOURCE_ADDR w) as (v & w1 & -> & Hw1);
    (destruct (Z.land v INT_SOURCE_RXB_BIT =? 0);
       [|eexists true, w1; split_and!; [done | lia | done]]);
    unfold bind; destruct (get_cpu_usecs_time w1) as (w2 & -> & Hw2);
    pose proof (Z.div_mod start 80); pose proof (Z.mod_pos_bound start 80);
    pose proof (Z.div_mod (now w1) 80); pose proof (Z.mod_pos_bound (now w1) 80);
    pose proof (Z.div_le_mono (now w1) (now w2) 80);
    rewrite u64_sub, (u64_small (_ - _)) by lia;
    destruct (Z.leb_spec timeout (now w1 / 80 - start / 80));
    try (exists false, w2; split_and!; [done | lia | lia]).
  - lia.
  - destruct (IH w2) as (b & w' & -> & Hnow & Hb); [lia | lia | lia |].
    exists b, w'. split_and!; [done | lia | done].
Qed.

(** The receive function returns, and gives up only after the timeout. *)
Lemma receive_ends fuel rx_addr timeout w :
  0 < timeout -> timeout + 2 * max_cycles + 1 < 2 ^ 64 -> 80 * timeout <= Z.of_nat fuel ->
  exists v w', eth_mac_receive fuel rx_addr timeout w = Some (v, w') /\
    (v = 0 \/ v = 1) /\ (v = 0 -> timeout <= now w' / 80 - now w / 80).
Proof.
  intros Ht Hbig Hf. unfold eth_mac_receive, bind.
  destruct (eth_iord_time TX_BD_NUM_ADDR w) as (n & w1 & -> & Hw1).
  destruct (eth_iowr_time (RX_BD_ADDR_BASE n + 4) rx_addr w1) as (w2 & -> & Hw2).
  replace (timeout =? 0) with false by lia.
  destruct (get_cpu_usecs_time w2) as (w3 & -> & Hw3).
  destruct (wait_rxb_until_ends timeout (now w2) fuel w3) as (b & w4 & -> & Hw4 & Hb);
    [lia | lia | lia |].
  destruct b.
  - destruct (eth_iowr_time INT_SOURCE_ADDR INT_SOURCE_RXB_BIT w4) as (w5 & -> & _).
    destruct (eth_iord_time TX_BD_NUM_ADDR w5) as (n' & w6 & -> & _).
    eexists 1, _. split_and!; [reflexivity | by right | done].
  - exists 0, w4. split_and!; [done | by left |]. intros _. specialize (Hb eq_refl).
    pose proof (Z.div_le_mono (now w) (now w2) 80). lia.
Qed.

(** eth_mac_receive with a timeout returns.  On every controller
    whose accesses take time, [80 * timeout] polls are enough, the result
    is 0 or 1, and it is 0 only if the timeout (in microseconds) has
    elapsed since the call. *)
Theorem eth_mac_receive_returns fuel rx_addr timeout w :
  0 < timeout -> timeout + 2 * max_cycles + 1 < 2 ^ 64 -> 80 * timeout <= Z.of_nat fuel ->
  exists v w', eth_mac_receive fuel rx_addr timeout w = Some (v, w') /\
    (v = 0 \/ v = 1) /\ (v = 0 -> timeout <= now w' / 80 - now w / 80).
Proof. apply receive_ends. Qed.

End Timeout.

Definition sim_world (m : mem) (d : sim_dev) : @world SimDev :=
  @mk_world SimDev m d [] [] [] 0.

Lemma eth_mac_receive_returns_witness :
  exists v w', @eth_mac_receive SimDev 160 0 2 (sim_world ∅ sim_init) = Some (v, w') /\
    (v = 0 \/ v = 1) /\
    (v = 0 -> 2 <= @now SimDev SimClock w' / 80 - @now SimDev SimClock (sim_world ∅ sim_init) / 80).
Proof. apply (@eth_mac_receive_returns SimDev SimClock); [lia | reflexivity | lia]. Defined.

Lemma land_32768_ne_1 v : (Z.land v 0x8000 =? 1) = false.
Proof.
  apply Z.eqb_neq. intros Hz. apply (f_equal (fun x => Z.testbit x 0)) in Hz.
  rewrite Z.land_spec in Hz. change (Z.testbit 0x8000 0) with false in Hz.
  by rewrite andb_false_r in Hz.
Qed.

(** eth_mac_send_nb never reports a busy descriptor.  Its guard
    compares the masked READY bit (0 or 0x8000) with 1, so on every
    controller and in every state it overwrites the descriptor and
    returns 1. *)
Theorem eth_mac_send_nb_never_refuses `{EthDev} tx_addr frame_length w :
  exists w', eth_mac_send_nb tx_addr frame_length w = Some (1, w') /\
    w_mem w' = fst (snd (reg_rd (cell TX_BD_ADDR_BASE) (w_mem w) (w_dev w))).
Proof.
  unfold eth_mac_send_nb, bind, eth_iord.
  destruct (reg_rd _ _ _) as [v [m' d']]. unfold TX_BD_READY_BIT at 1.
  rewrite land_32768_ne_1. by eexists.
Qed.

Lemma sim_window_outside m b : 1536 <= b < 2 ^ 32 ->
  ~ @rx_window SimDev SimDevSpec (w_dev (sim_world m sim_init)) b.
Proof.
  intros Hb (k & Hk & He). change (sim_rxptr _) with 0 in He.
  rewrite !u32_small in He by lia. lia.
Qed.

(** The frame [1; ..; 8] at address 2048. *)
Definition frame8 : mem := mem_iowr (mem_iowr ∅ 2048 0x01020304) 2052 0x05060708.
(** The wire after eth_mac_send of that frame. *)
Definition wire_after_send (d : sim_dev) : option (list (list Z)) :=
  match @eth_mac_send SimDev 1 2048 8 (sim_world frame8 d) with Some (_, w) => Some (sim_wire (@w_dev SimDev w)) | None => None end.

(** The wait for a free descriptor does not wait ([wait_free_once]): when the
    transmitter is idle the frame is sent, but while it is sending another frame
    eth_mac_send returns as well, and the frame is lost. *)
Theorem eth_mac_send_busy_loses :
  wire_after_send sim_init = Some [[1; 2; 3; 4; 5; 6; 7; 8]] /\
  wire_after_send (mk_sim ∅ 0 [[9; 9; 9; 9; 9]] [] 0 (Some 0x5F000)) = Some [[9; 9; 9; 9; 9]].
Proof. split; vm_compute; reflexivity. Qed.
