(* ===== verification/Mac.v ===== *)
(** Mac: the MAC layer, c/ethlib/mac.c.

    Classification of a received frame, its MAC addresses and their
    comparison.  The print functions are not modelled. *)

From stdpp Require Import base numbers list gmap.
From S2P Require Import Prelude EthIO.

(** enum eth_protocol (mac.h); TIMEOUT is -1 in C. *)
Inductive eth_protocol :=
| TIMEOUT | UNSUPPORTED | IP | ICMP | UDP | TCP | PTP | ARP | LLDP | MDNS
| TTE_PCF | TTE_MSG | INTERNOC_MSG.

#[export] Instance eth_protocol_eq_dec : EqDecision eth_protocol.
Proof. solve_decision. Defined.

(** The initial value of the global my_mac. *)
Definition my_mac : list Z := [0x00; 0x80; 0x6e; 0xF0; 0xDA; 0x42].

Definition mac_packet_type (m : mem) (addr : Z) : eth_protocol :=
  let b := u8 (mem_iord_byte m (addr + 13)) in
  if mem_iord_byte m (addr + 12) =? 0x08 then
    if b =? 0x00 then
      let b := u8 (mem_iord_byte m (addr + 23)) in
      if b =? 0x01 then ICMP
      else if b =? 0x11 then UDP
      else if b =? 0x06 then TCP
      else UNSUPPORTED
    else if b =? 0x06 then ARP
    else UNSUPPORTED
  else if mem_iord_byte m (addr + 12) =? 0x88 then
    if b =? 0x0c then LLDP
    else if b =? 0xf7 then PTP
    else UNSUPPORTED
  else if mem_iord_byte m (addr + 12) =? 0x89 then
    if b =? 0x1d then TTE_PCF
    else UNSUPPORTED
  else UNSUPPORTED.

(** The out-parameter arrays are results here. *)
Definition mac_addr_sender (m : mem) (rx_addr : Z) : list Z :=
  [u8 (mem_iord_byte m (rx_addr + 6 + 0)); u8 (mem_iord_byte m (rx_addr + 6 + 1));
   u8 (mem_iord_byte m (rx_addr + 6 + 2)); u8 (mem_iord_byte m (rx_addr + 6 + 3));
   u8 (mem_iord_byte m (rx_addr + 6 + 4)); u8 (mem_iord_byte m (rx_addr + 6 + 5))].

Definition mac_addr_dest (m : mem) (rx_addr : Z) : list Z :=
  [u8 (mem_iord_byte m (rx_addr + 0)); u8 (mem_iord_byte m (rx_addr + 1));
   u8 (mem_iord_byte m (rx_addr + 2)); u8 (mem_iord_byte m (rx_addr + 3));
   u8 (mem_iord_byte m (rx_addr + 4)); u8 (mem_iord_byte m (rx_addr + 5))].

Definition mac_compare_mac (mac1 mac2 : list Z) : Z :=
  if (at_ mac1 0 =? at_ mac2 0) && (at_ mac1 1 =? at_ mac2 1) && (at_ mac1 2 =? at_ mac2 2)
     && (at_ mac1 3 =? at_ mac2 3) && (at_ mac1 4 =? at_ mac2 4) && (at_ mac1 5 =? at_ mac2 5)
  then 1 else 0.

(** ** Classification by EtherType and IP protocol *)

(** The EtherType and the IPv4 protocol number of a frame. *)
Definition ethertype (m : mem) (a : Z) : Z :=
  256 * mem_iord_byte m (a + 12) + mem_iord_byte m (a + 13).
Definition ip_proto (m : mem) (a : Z) : Z := mem_iord_byte m (a + 23).

(** The EtherTypes and protocol numbers the library knows. *)
Definition frame_class (p : eth_protocol) (et : Z) (proto : Z) : Prop :=
  match p with
  | ICMP => et = 0x0800 /\ proto = 1
  | UDP => et = 0x0800 /\ proto = 17
  | TCP => et = 0x0800 /\ proto = 6
  | ARP => et = 0x0806
  | LLDP => et = 0x880C
  | PTP => et = 0x88F7
  | TTE_PCF => et = 0x891D
  | UNSUPPORTED =>
      et <> 0x0806 /\ et <> 0x880C /\ et <> 0x88F7 /\ et <> 0x891D /\
      (et = 0x0800 -> proto <> 1 /\ proto <> 17 /\ proto <> 6)
  | TIMEOUT | IP | MDNS | TTE_MSG | INTERNOC_MSG => False
  end.

Lemma mac_packet_type_class m a :
  frame_class (mac_packet_type m a) (ethertype m a) (ip_proto m a).
Proof.
  unfold mac_packet_type, frame_class, ethertype, ip_proto.
  rewrite !u8_small by apply iord_byte_range.
  pose proof (iord_byte_range m (a + 12)). pose proof (iord_byte_range m (a + 13)).
  repeat (match goal with |- context [if ?x =? ?y then _ else _] => destruct (Z.eqb_spec x y) end); lia.
Qed.

(** Mac_packet_type is the classification of frames by EtherType and
    IP protocol number: it returns [p] exactly for the frames of class
    [p], on every buffer, so every frame has one class and IP fragments of
    other protocols are UNSUPPORTED. *)
Theorem mac_packet_type_correct m a p :
  mac_packet_type m a = p <-> frame_class p (ethertype m a) (ip_proto m a).
Proof.
  pose proof (mac_packet_type_class m a) as Hc. split; [by intros <-|].
  destruct (mac_packet_type m a), p; cbn [frame_class] in *; intros; try done; exfalso; lia.
Qed.

Lemma mac_addr_dest_bytes m a : mac_addr_dest m a = read_bytes m a 6.
Proof.
  unfold mac_addr_dest. rewrite !u8_small by apply iord_byte_range.
  change 6 with (0 + 1 + 1 + 1 + 1 + 1 + 1). rewrite !read_bytes_S by lia.
  repeat (apply f_equal2; [f_equal; lia|]). reflexivity.
Qed.

Lemma mac_addr_sender_bytes m a : mac_addr_sender m a = read_bytes m (a + 6) 6.
Proof.
  rewrite <- mac_addr_dest_bytes. unfold mac_addr_sender, mac_addr_dest.
  reflexivity.
Qed.

Lemma length_6 (l : list Z) : length l = 6%nat ->
  exists a b c d e f, l = [a; b; c; d; e; f].
Proof. destruct l as [|a [|b [|c [|d [|e [|f [|]]]]]]]; intros; simplify_eq/=; eauto 10. Qed.

(** Comparison is equality of MAC addresses. *)
Lemma mac_compare_eq l1 l2 : length l1 = 6%nat -> length l2 = 6%nat ->
  mac_compare_mac l1 l2 = c_bool (bool_decide (l1 = l2)).
Proof.
  intros (?&?&?&?&?&?& ->)%length_6 (?&?&?&?&?&?& ->)%length_6.
  unfold mac_compare_mac, at_. cbn [nth Z.to_nat Pos.to_nat Pos.iter_op Init.Nat.add].
  case_bool_decide as Heq; [simplify_eq; by rewrite !Z.eqb_refl|].
  match goal with |- (if ?c then _ else _) = _ => destruct c eqn:E end; [|done].
  exfalso. apply Heq. rewrite !andb_true_iff, !Z.eqb_eq in E. simpl in E.
  by destruct E as (((((-> & ->) & ->) & ->) & ->) & ->).
Qed.
