(* ===== verification/Checksum.v ===== *)
(** Checksum: the Internet checksum as the library computes it.

    ipv4.c, udp.c and tcp.c share one scheme: add the 16-bit big-endian
    words of a header to a 32-bit accumulator, fold the carries three
    times, complement.  This file proves that the folding computes the
    one's complement sum, and what that gives for a stored checksum. *)

From stdpp Require Import base numbers list gmap.
From S2P Require Import Prelude EthIO.

(** checksum + (mem_iord_byte(a) << 8) + (mem_iord_byte(a + 1) & 0xFF) *)
Definition add_word (m : mem) (hi lo checksum : Z) : Z :=
  u32 (checksum + Z.shiftl (mem_iord_byte m hi) 8 + Z.land (mem_iord_byte m lo) 0xFF).

(** The loop over the [n] words from address [a] on. *)
Definition sum_words (m : mem) (a : Z) (n : nat) (checksum : Z) : Z :=
  for_up n 0 2 (fun i c => add_word m (a + i) (a + 1 + i) c) checksum.

(** if ((checksum & 0xFFFF0000) > 0)
      checksum = (checksum & 0xFFFF) + (checksum >> 16); *)
Definition fold_carry (checksum : Z) : Z :=
  if 0 <? Z.land checksum 0xFFFF0000 then Z.land checksum 0xFFFF + Z.shiftr checksum 16
  else checksum.

(** The three folds and (~checksum) & 0xFFFF. *)
Definition finish (checksum : Z) : Z :=
  let checksum := fold_carry (fold_carry (fold_carry checksum)) in
  Z.land (u32 (Z.lnot checksum)) 0xFFFF.

(** ** Specification *)

(** The 16-bit big-endian words of a byte memory, added up. *)
Fixpoint sum16 (f : Z -> Z) (a : Z) (n : nat) : Z :=
  match n with
  | O => 0
  | S n' => 256 * f a + f (a + 1) + sum16 f (a + 2) n'
  end.

(** One's complement sum of an accumulated total. *)
Definition oc (s : Z) : Z := if s =? 0 then 0 else (s - 1) mod 65535 + 1.

Lemma add_word_val m hi lo c :
  add_word m hi lo c = u32 (c + (256 * mem_iord_byte m hi + mem_iord_byte m lo)).
Proof.
  unfold add_word. rewrite land_255, u8_small by apply iord_byte_range.
  rewrite Z.shiftl_mul_pow2 by lia. f_equal. lia.
Qed.

Lemma for_up_ext {St : Type} (b1 b2 : Z -> St -> St) n : forall i j step s,
  (forall k t, 0 <= k < Z.of_nat n -> b1 (i + step * k) t = b2 (j + step * k) t) ->
  for_up n i step b1 s = for_up n j step b2 s.
Proof.
  induction n as [|n IH]; intros i j step s Hb; cbn [for_up]; [done|].
  rewrite (IH (i + step) (j + step)).
  - f_equal. specialize (Hb 0 s ltac:(lia)). by rewrite Z.mul_0_r, !Z.add_0_r in Hb.
  - intros k t Hk. specialize (Hb (k + 1) t ltac:(lia)).
    replace (i + step * (k + 1)) with (i + step + step * k) in Hb by lia.
    by replace (j + step * (k + 1)) with (j + step + step * k) in Hb by lia.
Qed.

Lemma sum_words_val m n : forall a c,
  u32 (sum_words m a n c) = u32 (c + sum16 (mem_iord_byte m) a n).
Proof.
  induction n as [|n IH]; intros a c.
  - cbn. by rewrite Z.add_0_r.
  - unfold sum_words. cbn [for_up sum16].
    rewrite (for_up_ext _ (fun i c => add_word m (a + 2 + i) (a + 2 + 1 + i) c) n _ 0).
    2:{ intros k t _. f_equal; lia. }
    fold (sum_words m (a + 2) n (add_word m (a + 0) (a + 1 + 0) c)).
    rewrite IH, add_word_val, u32_add_l. rewrite !Z.add_0_r. f_equal. lia.
Qed.

Lemma sum16_ext f g n : forall a,
  (forall i, 0 <= i < 2 * Z.of_nat n -> f (a + i) = g (a + i)) -> sum16 f a n = sum16 g a n.
Proof.
  induction n as [|n IH]; intros a H; cbn [sum16]; [done|].
  rewrite (IH (a + 2)).
  - pose proof (H 0 ltac:(lia)) as H0. pose proof (H 1 ltac:(lia)) as H1.
    rewrite Z.add_0_r in H0. by rewrite H0, H1.
  - intros i Hi. specialize (H (i + 2) ltac:(lia)).
    by replace (a + (i + 2)) with (a + 2 + i) in H by lia.
Qed.

Lemma sum16_range f n : (forall b, is_byte (f b)) -> forall a,
  0 <= sum16 f a n <= 65535 * Z.of_nat n.
Proof.
  intros Hf. induction n as [|n IH]; intros a; cbn [sum16]; [lia|].
  pose proof (Hf a). pose proof (Hf (a + 1)). specialize (IH (a + 2)). unfold is_byte in *. lia.
Qed.

Lemma sum16_app f n1 n2 : forall a,
  sum16 f a (n1 + n2) = sum16 f a n1 + sum16 f (a + 2 * Z.of_nat n1) n2.
Proof.
  induction n1 as [|n IH]; intros a; cbn [sum16 Nat.add].
  - replace (a + 2 * Z.of_nat 0) with a by lia. done.
  - rewrite IH. replace (a + 2 + 2 * Z.of_nat n) with (a + 2 * Z.of_nat (S n)) by lia. lia.
Qed.

(** Replacing the word at [p], [k] words into the range. *)
Lemma sum16_set f g a n k :
  (k < n)%nat -> let p := a + 2 * Z.of_nat k in
  (forall b, a <= b < a + 2 * Z.of_nat n -> b <> p -> b <> p + 1 -> f b = g b) ->
  sum16 f a n = sum16 g a n - (256 * g p + g (p + 1)) + (256 * f p + f (p + 1)).
Proof.
  intros Hk p Hfg. replace n with (k + (1 + (n - k - 1)))%nat by lia.
  rewrite !sum16_app. cbn [sum16 Nat.add]. fold p.
  change (2 * Z.of_nat 1) with 2.
  rewrite (sum16_ext f g k a), (sum16_ext f g (n - k - 1) (p + 2)); [lia | |];
    intros i Hi; apply Hfg; lia.
Qed.

(** ** Folding *)

Lemma land_hi s : 0 <= s < 2 ^ 32 -> Z.land s 0xFFFF0000 = 65536 * (s / 65536).
Proof.
  intros Hs. change 0xFFFF0000 with (Z.ldiff (Z.ones 32) (Z.ones 16)).
  rewrite (Z.mul_comm 65536). change 65536 with (2 ^ 16).
  rewrite <- Z.shiftr_div_pow2, <- Z.shiftl_mul_pow2, <- Z.ldiff_ones_r by lia.
  apply Z.bits_inj'. intros i Hi. rewrite Z.land_spec, !Z.ldiff_spec.
  rewrite <- (Z.mod_small s (2 ^ 32)) by lia. rewrite testbit_u by lia.
  rewrite !Z.testbit_ones by lia. replace (0 <=? i) with true by lia.
  by destruct (i <? 32), (i <? 16), (Z.testbit s i).
Qed.

Lemma fold_carry_val s : 0 <= s < 2 ^ 32 -> fold_carry s = s mod 65536 + s / 65536.
Proof.
  intros Hs. unfold fold_carry. rewrite land_hi, land_65535, Z.shiftr_div_pow2 by lia.
  pose proof (Z.div_pos s 65536). unfold u16. change (2 ^ 16) with 65536.
  destruct (Z.ltb_spec 0 (65536 * (s / 65536))); [done|].
  assert (Hz : s / 65536 = 0) by lia. rewrite Hz.
  apply Z.div_small_iff in Hz; [|lia]. rewrite Z.mod_small; lia.
Qed.

(** Three folds leave the one's complement sum. *)
Lemma fold3_oc s : 0 <= s < 2 ^ 32 -> fold_carry (fold_carry (fold_carry s)) = oc s.
Proof.
  intros Hs. rewrite (fold_carry_val s) by done.
  pose proof (Z.div_mod s 65536). pose proof (Z.mod_pos_bound s 65536).
  set (q := s / 65536) in *. set (r := s mod 65536) in *.
  assert (0 <= q < 65536) by lia.
  rewrite (fold_carry_val (r + q)) by lia.
  pose proof (Z.div_mod (r + q) 65536). pose proof (Z.mod_pos_bound (r + q) 65536).
  set (q1 := (r + q) / 65536) in *. set (r1 := (r + q) mod 65536) in *.
  rewrite fold_carry_val by lia.
  assert (r1 + q1 < 65536) by lia.
  rewrite Z.mod_small, Z.div_small, Z.add_0_r by lia.
  unfold oc. destruct (Z.eqb_spec s 0); [lia|].
  assert (Hm : (s - 1) mod 65535 = r1 + q1 - 1).
  { symmetry. apply Z.mod_unique with (q + q1); lia. }
  lia.
Qed.

Lemma oc_range s : 0 <= s -> 0 <= oc s <= 65535.
Proof.
  intros. unfold oc. pose proof (Z.mod_pos_bound (s - 1) 65535).
  destruct (s =? 0); lia.
Qed.

Lemma finish_val s : 0 <= s < 2 ^ 32 -> finish s = 65535 - oc s.
Proof.
  intros Hs. unfold finish. rewrite fold3_oc, land_65535 by done.
  pose proof (oc_range s). unfold u16, u32, Z.lnot.
  rewrite <- Z.sub_1_r.
  replace ((- oc s - 1) mod 2 ^ 32) with (2 ^ 32 - 1 - oc s).
  - symmetry. apply Z.mod_unique with 65535; lia.
  - apply Z.mod_unique with (-1); lia.
Qed.

(** A total is accepted when it is a positive multiple of 65535. *)
Lemma oc_full s : 0 <= s -> oc s = 65535 <-> 0 < s /\ s mod 65535 = 0.
Proof.
  intros Hs. unfold oc. destruct (Z.eqb_spec s 0) as [->|].
  - split; intros; lia.
  - pose proof (Z.mod_pos_bound (s - 1) 65535). rewrite (Z.mod_eq (s - 1)) in * by lia.
    rewrite (Z.mod_eq s) by lia.
    pose proof (Z.div_mod (s - 1) 65535). pose proof (Z.div_mod s 65535).
    pose proof (Z.mod_pos_bound s 65535). split; intros; lia.
Qed.

Lemma oc_mod s : 0 <= s -> oc s mod 65535 = s mod 65535.
Proof.
  intros Hs. unfold oc. destruct (Z.eqb_spec s 0) as [->|]; [done|].
  rewrite Z.add_mod_idemp_l by lia. f_equal. lia.
Qed.

(** Storing the complement of the sum makes the total acceptable, when
    [e] is the error between the sum that was complemented and the sum
    that is verified. *)
Lemma stored_checksum s e :
  0 <= s -> 0 <= e < 65535 -> s + e < 2 ^ 32 -> s + 65535 < 2 ^ 32 ->
  finish (s + (65535 - oc (s + e))) = 0 <-> e = 0.
Proof.
  intros Hs He Hlt Hlt2. pose proof (oc_range (s + e)).
  rewrite finish_val by lia.
  transitivity (oc (s + (65535 - oc (s + e))) = 65535); [lia|].
  rewrite oc_full by lia.
  assert (Hm : (s + (65535 - oc (s + e))) mod 65535 = (- e) mod 65535).
  { replace (s + (65535 - oc (s + e))) with (s - oc (s + e) + 1 * 65535) by lia.
    rewrite Z.mod_add, Zminus_mod, oc_mod, <- Zminus_mod by lia. f_equal. lia. }
  rewrite Hm. split.
  - intros [_ Hz]. destruct (Z.eq_dec e 0); [done|].
    rewrite Z.mod_opp_l_nz in Hz by (rewrite ?Z.mod_small; lia).
    rewrite Z.mod_small in Hz; lia.
  - intros ->. split; [|done]. rewrite Z.add_0_r in *.
    unfold oc. destruct (Z.eqb_spec s 0); [lia|].
    pose proof (Z.mod_pos_bound (s - 1) 65535). lia.
Qed.

Lemma stored_valid s : 0 <= s -> s + 65535 < 2 ^ 32 -> oc (s + (65535 - oc s)) = 65535.
Proof.
  intros Hs Hlt. pose proof (oc_range s).
  pose proof (proj2 (stored_checksum s 0 ltac:(lia) ltac:(lia) ltac:(lia) Hlt) eq_refl) as Hf.
  rewrite Z.add_0_r, finish_val in Hf by lia. lia.
Qed.

(** ** Checksums of frames

    The same sums on the bytes of a frame; an odd last byte is padded. *)
Fixpoint wsum (l : list Z) : Z :=
  match l with
  | a :: b :: l' => 256 * a + b + wsum l'
  | [a] => 256 * a
  | [] => 0
  end.

Lemma wsum_sum16 m n : forall a,
  sum16 (mem_iord_byte m) a n = wsum (read_bytes m a (2 * Z.of_nat n)).
Proof.
  induction n as [|n IH]; intros a; [done|]. cbn [sum16].
  replace (2 * Z.of_nat (S n)) with (2 * Z.of_nat n + 1 + 1) by lia.
  rewrite !read_bytes_S by lia. cbn [wsum]. rewrite IH. by replace (a + 1 + 1) with (a + 2) by lia.
Qed.

Lemma wsum_app l1 l2 : Nat.Even (length l1) -> wsum (l1 ++ l2) = wsum l1 + wsum l2.
Proof.
  intros [k Hk]. revert l1 Hk. induction k as [|k IH]; intros l1 Hk.
  - destruct l1; [done|]. cbn in Hk. lia.
  - destruct l1 as [|a [|b l1]]; cbn in Hk; try lia. cbn [app wsum]. rewrite IH by lia. lia.
Qed.

Lemma wsum_range l : Forall is_byte l -> 0 <= wsum l <= 65535 * ((Z.of_nat (length l) + 1) / 2).
Proof.
  intros Hl. remember (length l) as n eqn:E. revert l E Hl.
  induction (lt_wf n) as [n _ IH]. intros [|a [|b l]] -> Hl; cbn [wsum length].
  - split; [lia|]. change ((Z.of_nat 0 + 1) / 2) with 0. lia.
  - inversion_clear Hl. unfold is_byte in *. change ((Z.of_nat 1 + 1) / 2) with 1. lia.
  - inversion_clear Hl as [|? ? Ha Hl']. inversion_clear Hl' as [|? ? Hb Hl''].
    specialize (IH (length l) ltac:(cbn; lia) l eq_refl Hl''). unfold is_byte in *.
    replace (Z.of_nat (S (S (length l))) + 1) with (Z.of_nat (length l) + 1 + 1 * 2) by lia.
    rewrite Z.div_add by lia. lia.
Qed.

(** The IP header checksum of a frame is valid. *)
Definition ip_valid (frame : list Z) : Prop := oc (wsum (take 20 (drop 14 frame))) = 65535.

Lemma ip_valid_rd m a n : 34 <= n ->
  ip_valid (read_bytes m a n) <-> finish (sum16 (mem_iord_byte m) (a + 14) 10) = 0.
Proof.
  intros Hn. unfold ip_valid. change 20%nat with (Z.to_nat 20). change 14%nat with (Z.to_nat 14).
  rewrite <- read_bytes_slice, wsum_sum16 by lia.
  pose proof (sum16_range (mem_iord_byte m) 10 (iord_byte_range m) (a + 14)) as Hr.
  rewrite wsum_sum16 in Hr. change (2 * Z.of_nat 10) with 20 in *. rewrite finish_val by lia. lia.
Qed.

(** Padding an odd number of bytes. *)
Lemma wsum_pad l : Nat.Odd (length l) -> wsum (l ++ [0]) = wsum l.
Proof.
  intros [k Hk]. revert l Hk. induction k as [|k IH]; intros l Hk.
  - destruct l as [|a [|b l]]; cbn [length] in Hk; try lia. cbn. lia.
  - destruct l as [|a [|b l]]; cbn [length] in Hk; try lia. cbn [app wsum]. by rewrite IH by lia.
Qed.

Lemma add_word_range m hi lo c : 0 <= add_word m hi lo c < 4294967296.
Proof. rewrite add_word_val. apply u32_range. Qed.

Lemma sum_words_range m n : forall a c, 0 <= c < 4294967296 ->
  0 <= sum_words m a n c < 4294967296.
Proof.
  intros a c Hc. apply (for_up_inv (fun _ c => 0 <= c < 4294967296)); [done|].
  intros. apply add_word_range.
Qed.

(** The summing loop when the total stays below 2^32. *)
Lemma sum_words_exact m a n c :
  0 <= c -> c + sum16 (mem_iord_byte m) a n < 4294967296 ->
  sum_words m a n c = c + sum16 (mem_iord_byte m) a n.
Proof.
  intros Hc Hlt. pose proof (sum16_range (mem_iord_byte m) n (iord_byte_range m) a).
  rewrite <- (u32_small (sum_words m a n c)) by (apply sum_words_range; lia).
  rewrite sum_words_val. apply u32_small. lia.
Qed.
