(* ===== verification/Ipv4.v ===== *)
(** Ipv4: the IPv4 layer, c/ethlib/ipv4.c.

    Header fields of a received packet, the system IP address and the
    header checksum.  The print functions are not modelled. *)

From stdpp Require Import base numbers list gmap.
From S2P Require Import Prelude EthIO World Checksum.

(** The initial value of the global my_ip. *)
Definition my_ip : list Z := [192; 168; 24; 50].

Section Fields.
Context {CM : CharModel}.

Definition ipv4_get_version (m : mem) (pkt_addr : Z) : Z :=
  let version := to_char (mem_iord_byte m (pkt_addr + 14)) in
  to_char (Z.shiftr version 4).

Definition ipv4_get_type_of_service (m : mem) (pkt_addr : Z) : Z :=
  let type := to_char (mem_iord_byte m (pkt_addr + 14 + 1)) in
  to_char (Z.shiftr type 2).

Definition ipv4_get_flags (m : mem) (pkt_addr : Z) : Z :=
  let flags := to_char (mem_iord_byte m (pkt_addr + 14 + 6)) in
  to_char (Z.shiftr flags 5).

Definition ipv4_get_ttl (m : mem) (pkt_addr : Z) : Z :=
  to_char (mem_iord_byte m (pkt_addr + 14 + 8)).

Definition ipv4_get_protocol (m : mem) (pkt_addr : Z) : Z :=
  to_char (mem_iord_byte m (pkt_addr + 14 + 9)).
End Fields.

Definition ipv4_get_length (m : mem) (pkt_addr : Z) : Z :=
  let length := u16 (mem_iord_byte m (pkt_addr + 14 + 2)) in
  let length := u16 (Z.shiftl length 8) in
  u16 (length + mem_iord_byte m (pkt_addr + 14 + 3)).

Definition ipv4_get_identification (m : mem) (pkt_addr : Z) : Z :=
  let identification := mem_iord_byte m (pkt_addr + 14 + 4) in
  let identification := u32 (Z.shiftl identification 8) in
  u32 (identification + mem_iord_byte m (pkt_addr + 14 + 5)).

Definition ipv4_get_checksum (m : mem) (pkt_addr : Z) : Z :=
  u32 (Z.shiftl (mem_iord_byte m (pkt_addr + 24)) 8 +
       Z.land (mem_iord_byte m (pkt_addr + 25)) 0xFF).

(** The copy loops into an unsigned char array of [n] elements. *)
Definition get_bytes (m : mem) (a : Z) (n : Z) : list Z :=
  map (fun i => u8 (mem_iord_byte m (a + i))) (seqZ 0 n).

Definition ipv4_get_source_ip (m : mem) (pkt_addr : Z) : list Z :=
  get_bytes m (pkt_addr + 26) 4.

Definition ipv4_get_destination_ip (m : mem) (pkt_addr : Z) : list Z :=
  get_bytes m (pkt_addr + 30) 4.

Definition ipv4_compare_ip (ip1 ip2 : list Z) : Z :=
  if (at_ ip1 0 =? at_ ip2 0) && (at_ ip1 1 =? at_ ip2 1) &&
     (at_ ip1 2 =? at_ ip2 2) && (at_ ip1 3 =? at_ ip2 3)
  then 1 else 0.

Definition ipv4_set_my_ip `{EthDev} (new_ip : list Z) : M unit :=
  modify (set_my_ip (map (at_ new_ip) (seqZ 0 4))).

(** Note [- (b24 << 8) + b25]: only the high byte of the checksum field
    is subtracted, the low byte is added once more. *)
Definition ipv4_compute_checksum (m : mem) (pkt_addr : Z) : Z :=
  let checksum := sum_words m (pkt_addr + 14) 10 0 in
  let checksum := u32 (checksum - Z.shiftl (mem_iord_byte m (pkt_addr + 24)) 8 +
                       Z.land (mem_iord_byte m (pkt_addr + 25)) 0xFF) in
  u16 (finish checksum).

Definition ipv4_verify_checksum (m : mem) (pkt_addr : Z) : Z :=
  let checksum := sum_words m (pkt_addr + 14) 10 0 in
  if finish checksum =? 0 then 1 else 0.

(** ** Field lemmas *)

Lemma get_bytes_read m a n : get_bytes m a n = read_bytes m a n.
Proof.
  unfold get_bytes, read_bytes. apply map_ext. intros i.
  apply u8_small, iord_byte_range.
Qed.

Lemma ipv4_get_length_val m a :
  ipv4_get_length m a = 256 * mem_iord_byte m (a + 16) + mem_iord_byte m (a + 17).
Proof.
  unfold ipv4_get_length. replace (a + 14 + 2) with (a + 16) by lia.
  replace (a + 14 + 3) with (a + 17) by lia.
  pose proof (iord_byte_range m (a + 16)). pose proof (iord_byte_range m (a + 17)).
  rewrite (u16_small (mem_iord_byte m (a + 16))), Z.shiftl_mul_pow2 by lia.
  rewrite (u16_small (_ * _)) by lia. rewrite u16_small; lia.
Qed.

Lemma length_4 (l : list Z) : length l = 4%nat -> exists a b c d, l = [a; b; c; d].
Proof. destruct l as [|a [|b [|c [|d [|]]]]]; intros; simplify_eq/=; eauto 10. Qed.

Lemma ipv4_compare_eq l1 l2 : length l1 = 4%nat -> length l2 = 4%nat ->
  ipv4_compare_ip l1 l2 = c_bool (bool_decide (l1 = l2)).
Proof.
  intros (?&?&?&?& ->)%length_4 (?&?&?&?& ->)%length_4.
  unfold ipv4_compare_ip, at_. case_bool_decide as Heq.
  - simplify_eq. by rewrite !Z.eqb_refl.
  - match goal with |- (if ?c then _ else _) = _ => destruct c eqn:E end; [|done].
    exfalso. apply Heq. rewrite !andb_true_iff, !Z.eqb_eq in E. simpl in E.
    by destruct E as (((-> & ->) & ->) & ->).
Qed.

(** ** Checksum *)

(** The total of the header as the code accumulates it. *)
Lemma header_sum m a :
  sum_words m (a + 14) 10 0 = sum16 (mem_iord_byte m) (a + 14) 10.
Proof.
  apply sum_words_exact; pose proof (sum16_range (mem_iord_byte m) 10 (iord_byte_range m) (a + 14)); lia.
Qed.

Lemma ipv4_verify_val m a :
  ipv4_verify_checksum m a = 1 <-> finish (sum16 (mem_iord_byte m) (a + 14) 10) = 0.
Proof.
  unfold ipv4_verify_checksum. rewrite header_sum.
  destruct (Z.eqb_spec (finish (sum16 (mem_iord_byte m) (a + 14) 10)) 0); by split.
Qed.

(** What compute returns: [r] is the sum of the other nine words. *)
Lemma ipv4_compute_val m a r :
  sum16 (mem_iord_byte m) (a + 14) 10 =
    r + (256 * mem_iord_byte m (a + 24) + mem_iord_byte m (a + 25)) ->
  0 <= r <= 9 * 65535 ->
  ipv4_compute_checksum m a = 65535 - oc (r + 2 * mem_iord_byte m (a + 25)).
Proof.
  intros Hsum Hr. unfold ipv4_compute_checksum. rewrite header_sum, Hsum.
  pose proof (iord_byte_range m (a + 25)).
  rewrite land_255, Z.shiftl_mul_pow2, u8_small by lia.
  rewrite (u32_small (_ + _)), finish_val by lia.
  pose proof (oc_range (r + 2 * mem_iord_byte m (a + 25)) ltac:(lia)).
  replace (r + (256 * mem_iord_byte m (a + 24) + mem_iord_byte m (a + 25)) -
    mem_iord_byte m (a + 24) * 2 ^ 8 + mem_iord_byte m (a + 25))
    with (r + 2 * mem_iord_byte m (a + 25)) by lia.
  apply u16_small. lia.
Qed.

(** The stores of a checksum by the frame builders. *)
Definition put16 (m : mem) (a v : Z) : mem :=
  mem_iowr_byte (mem_iowr_byte m a (Z.shiftr v 8)) (a + 1) (Z.land v 0xFF).

Lemma rd_put16 m a v b : 0 <= v < 65536 -> in_space a 2 -> 0 <= b < 2 ^ 32 ->
  mem_iord_byte (put16 m a v) b =
  if b =? a then v / 256 else if b =? a + 1 then v mod 256 else mem_iord_byte m b.
Proof.
  intros Hv [? [_ ?]] Hb. unfold put16. rewrite !rd_wr by lia.
  rewrite land_255, u8_u8, Z.shiftr_div_pow2, (u8_small (v / 2 ^ 8)) by
    (try (split; [apply Z.div_pos | apply Z.div_lt_upper_bound]); lia).
  rewrite (Z.eqb_sym b a), (Z.eqb_sym b (a + 1)).
  destruct (Z.eqb_spec (a + 1) b) as [<-|].
  - by replace (a =? a + 1) with false by lia.
  - done.
Qed.

(** Verification after storing [c] in the checksum field. *)
Lemma header_sum_put m a c : 0 <= c < 65536 -> in_space a 34 -> exists r,
  0 <= r <= 9 * 65535 /\
  sum16 (mem_iord_byte m) (a + 14) 10 =
    r + (256 * mem_iord_byte m (a + 24) + mem_iord_byte m (a + 25)) /\
  sum16 (mem_iord_byte (put16 m (a + 24) c)) (a + 14) 10 = r + c.
Proof.
  intros Hc [Ha [_ Ha2]].
  assert (Hrd : forall b, 0 <= b < 2 ^ 32 ->
    mem_iord_byte (put16 m (a + 24) c) b =
    if b =? a + 24 then c / 256 else if b =? a + 24 + 1 then c mod 256 else mem_iord_byte m b).
  { intros b Hb. apply rd_put16; [done | split_and!; lia | done]. }
  pose proof (sum16_set (mem_iord_byte (put16 m (a + 24) c)) (mem_iord_byte m) (a + 14) 10 5
    ltac:(lia)) as Hset. cbv zeta in Hset.
  replace (a + 14 + 2 * Z.of_nat 5) with (a + 24) in Hset by lia.
  rewrite Hset; clear Hset.
  2:{ intros b Hb Hn1 Hn2. rewrite Hrd by lia.
      replace (b =? a + 24) with false by lia. by replace (b =? a + 24 + 1) with false by lia. }
  rewrite !Hrd by lia. rewrite Z.eqb_refl, (Z.eqb_refl (a + 24 + 1)).
  replace (a + 24 + 1 =? a + 24) with false by lia.
  replace (a + 24 + 1) with (a + 25) by lia. rewrite div_mod_256.
  exists (sum16 (mem_iord_byte m) (a + 14) 10
          - (256 * mem_iord_byte m (a + 24) + mem_iord_byte m (a + 25))).
  split_and!; try lia.
  all: change 10%nat with (5 + (1 + 4))%nat; rewrite !sum16_app; cbn [sum16];
    replace (a + 14 + 2 * Z.of_nat 5) with (a + 24) by lia;
    pose proof (sum16_range (mem_iord_byte m) 5 (iord_byte_range m) (a + 14));
    pose proof (sum16_range (mem_iord_byte m) 4 (iord_byte_range m) (a + 24 + 2 * Z.of_nat 1));
    replace (a + 24 + 1) with (a + 25) by lia; cbn [sum16] in *; lia.
Qed.

(** Storing the computed checksum yields a header that verifies, provided
    the low byte of the field was 0 when it was computed. *)
Lemma ipv4_checksum_stored m a :
  in_space a 34 ->
  ipv4_verify_checksum (put16 m (a + 24) (ipv4_compute_checksum m a)) a = 1 <->
  mem_iord_byte m (a + 25) = 0.
Proof.
  intros Ha.
  assert (Hc : 0 <= ipv4_compute_checksum m a < 65536)
    by (unfold ipv4_compute_checksum; apply u16_range).
  destruct (header_sum_put m a _ Hc Ha) as (r & Hr & Hs1 & Hs2).
  rewrite ipv4_verify_val, Hs2, (ipv4_compute_val m a r) by done.
  pose proof (iord_byte_range m (a + 25)).
  rewrite stored_checksum by lia. lia.
Qed.

(** Ipv4_compute_checksum and ipv4_verify_checksum agree.  For every
    packet, storing the computed checksum in the header makes
    ipv4_verify_checksum return 1 exactly when the low byte of the
    checksum field was 0 before: the function does not ignore the field
    as its comment says. *)
Theorem ipv4_checksum_roundtrip m a :
  0 <= a -> a + 34 <= 2 ^ 32 ->
  ipv4_verify_checksum (put16 m (a + 24) (ipv4_compute_checksum m a)) a = 1 <->
  mem_iord_byte m (a + 25) = 0.
Proof. intros. apply ipv4_checksum_stored. split_and!; lia. Qed.

Lemma ipv4_checksum_roundtrip_witness :
  ipv4_verify_checksum (put16 (mem_iowr ∅ 12 0x08004500) (0 + 24)
    (ipv4_compute_checksum (mem_iowr ∅ 12 0x08004500) 0)) 0 = 1.
Proof. apply ipv4_checksum_roundtrip; [lia | lia | reflexivity]. Defined.
