(* ===== verification/Arp.v ===== *)
(** Arp: the ARP table and protocol, c/ethlib/arp.c.

    The table ([w_arp_table] of the world) is shown to implement a finite
    map from IP to MAC addresses of at most ARP_TABLE_SIZE entries; the
    frame builders and the receive handler are shown to answer requests
    and to learn from replies.  [arp_table_print] is not modelled. *)

From stdpp Require Import base numbers list gmap.
From S2P Require Import Prelude EthIO World EthMac Mac Ipv4.

Definition ARP_TABLE_SIZE : Z := 8.

(** ** The table *)

(** arp_table[i].used = 0 for every i. *)
Definition arp_table_init (t : list arp_table_entry) : list arp_table_entry :=
  map (fun e => mk_arp_entry 0 (ip_addr e) (mac_addr e)) t.

Definition entry_matches (ip : list Z) (e : arp_table_entry) : bool :=
  (used e =? 1) && (at_ (ip_addr e) 0 =? at_ ip 0) && (at_ (ip_addr e) 1 =? at_ ip 1)
  && (at_ (ip_addr e) 2 =? at_ ip 2) && (at_ (ip_addr e) 3 =? at_ ip 3).

(** The result and the array mac_addr after the call. *)
Fixpoint arp_table_search (t : list arp_table_entry) (ip mac : list Z) : Z * list Z :=
  match t with
  | [] => (0, mac)
  | e :: t' =>
      if entry_matches ip e then (1, map (at_ (mac_addr e)) (seqZ 0 6))
      else arp_table_search t' ip mac
  end.

Fixpoint arp_table_delete_entry (t : list arp_table_entry) (ip : list Z) :
    Z * list arp_table_entry :=
  match t with
  | [] => (0, [])
  | e :: t' =>
      let '(ans, t1) := arp_table_delete_entry t' ip in
      if entry_matches ip e then (1, mk_arp_entry 0 (ip_addr e) (mac_addr e) :: t1)
      else (ans, e :: t1)
  end.

(** while(arp_table[i].used == 1 && i<ARP_TABLE_SIZE) i++;  The loop reads
    [used] before it tests the index, so on a full table it reads one
    entry past the end; [beyond] is the byte found there. *)
Fixpoint first_free (t : list arp_table_entry) (beyond i : Z) : Z :=
  match t with
  | [] => if (beyond =? 1) && (i <? ARP_TABLE_SIZE) then i + 1 else i
  | e :: t' => if (used e =? 1) && (i <? ARP_TABLE_SIZE) then first_free t' beyond (i + 1) else i
  end.

Definition arp_table_new_entry (t : list arp_table_entry) (ip mac : list Z) :
    list arp_table_entry :=
  let t := if fst (arp_table_search t ip (replicate 6 0)) =? 1
           then snd (arp_table_delete_entry t ip) else t in
  let i := first_free t 0 0 in
  let i := if i =? ARP_TABLE_SIZE then 0 else i in
  <[Z.to_nat i := mk_arp_entry 1 (map (at_ ip) (seqZ 0 4)) (map (at_ mac) (seqZ 0 6))]> t.

(** ** Fields of an ARP packet *)

Definition arp_get_target_ip (m : mem) (pkt_addr : Z) : list Z := get_bytes m (pkt_addr + 38) 4.
Definition arp_get_target_mac (m : mem) (pkt_addr : Z) : list Z := get_bytes m (pkt_addr + 32) 6.
Definition arp_get_sender_ip (m : mem) (pkt_addr : Z) : list Z := get_bytes m (pkt_addr + 28) 4.
Definition arp_get_operation (m : mem) (pkt_addr : Z) : Z :=
  u16 (Z.shiftl (mem_iord_byte m (pkt_addr + 20)) 8 +
       Z.land (mem_iord_byte m (pkt_addr + 21)) 0xFF).
Definition arp_get_sender_mac (m : mem) (pkt_addr : Z) : list Z := get_bytes m (pkt_addr + 22) 6.

(** ** Building frames *)

(** "Copy the entire frame" of the reply builders, when the addresses
    differ. *)
Definition copy_frame (m : mem) (rx_addr tx_addr : Z) (frame_length : nat) : mem :=
  if rx_addr =? tx_addr then m
  else for_up frame_length 0 1
    (fun i t => mem_iowr_byte t (tx_addr + i) (mem_iord_byte t (rx_addr + i))) m.

Definition arp_build_reply (m : mem) (my_mac my_ip : list Z) (rx_addr tx_addr : Z) : mem * Z :=
  let frame_length := 42 in
  let m := copy_frame m rx_addr tx_addr 42 in
  let m := for_up 6 0 1 (swap_body (tx_addr + 6) tx_addr (at_ my_mac)) m in
  let m := mem_iowr_byte m (tx_addr + 21) 2 in
  let m := for_up 6 0 1 (swap_body (tx_addr + 22) (tx_addr + 32) (at_ my_mac)) m in
  let m := for_up 4 0 1 (swap_body (tx_addr + 28) (tx_addr + 38) (at_ my_ip)) m in
  (m, frame_length).

Definition arp_build_request (m : mem) (my_mac my_ip : list Z) (tx_addr : Z)
    (target_ip : list Z) : mem * Z :=
  let frame_length := 42 in
  let m := for_up 6 0 1 (fun i t =>
    let t := mem_iowr_byte t (tx_addr + i) 0xFF in
    let t := mem_iowr_byte t (tx_addr + 6 + i) (at_ my_mac i) in
    let t := mem_iowr_byte t (tx_addr + 22 + i) (at_ my_mac i) in
    mem_iowr_byte t (tx_addr + 32 + i) 0x00) m in
  let m := for_up 4 0 1 (fun i t =>
    let t := mem_iowr_byte t (tx_addr + 28 + i) (at_ my_ip i) in
    mem_iowr_byte t (tx_addr + 38 + i) (at_ target_ip i)) m in
  let m := mem_iowr m (tx_addr + 12) 0x08060001 in
  let m := mem_iowr m (tx_addr + 16) 0x08000604 in
  let m := mem_iowr_byte m (tx_addr + 20) 0x00 in
  let m := mem_iowr_byte m (tx_addr + 21) 0x01 in
  (m, frame_length).

(** ** Protocol *)
Section Protocol.
Context `{EthDev}.
Local Open Scope eth_scope.

(** Run a frame builder on the buffer and return the frame length. *)
Definition build (f : world -> mem * Z) : M Z := fun w =>
  let '(m', len) := f w in Some (len, set_mem m' w).

Definition arp_process_received (fuel : nat) (rx_addr tx_addr : Z) : M Z :=
  target_ip <- gets (fun w => arp_get_target_ip (w_mem w) rx_addr) ;;
  ip <- gets w_my_ip ;;
  if ipv4_compare_ip target_ip ip =? 1 then
    op <- rdb (rx_addr + 21) ;;
    if op =? 0x01 then
      frame_length <- build (fun w =>
        arp_build_reply (w_mem w) (w_my_mac w) (w_my_ip w) rx_addr tx_addr) ;;
      eth_mac_send fuel tx_addr frame_length ;;
      ret 1
    else if op =? 0x02 then
      target_mac <- gets (fun w => arp_get_target_mac (w_mem w) rx_addr) ;;
      mac <- gets w_my_mac ;;
      if mac_compare_mac target_mac mac =? 1 then
        sender_ip <- gets (fun w => arp_get_sender_ip (w_mem w) rx_addr) ;;
        sender_mac <- gets (fun w => arp_get_sender_mac (w_mem w) rx_addr) ;;
        modify (fun w => set_arp_table
          (arp_table_new_entry (w_arp_table w) sender_ip sender_mac) w) ;;
        ret 2
      else ret 0
    else ret 0
  else ret 0.

(** One pass of the loop of arp_resolve_ip. *)
Definition arp_resolve_pass (fuel : nat) (rx_addr tx_addr : Z) (target_ip : list Z) : M Z :=
  frame_length <- build (fun w =>
    arp_build_request (w_mem w) (w_my_mac w) (w_my_ip w) tx_addr target_ip) ;;
  eth_mac_send fuel tx_addr frame_length ;;
  got <- eth_mac_receive fuel rx_addr 100000 ;;
  if got =? 1 then
    type <- gets (fun w => mac_packet_type (w_mem w) rx_addr) ;;
    if bool_decide (type = ARP) then
      r <- arp_process_received fuel rx_addr tx_addr ;;
      if r =? 2 then
        found <- gets (fun w => fst (arp_table_search (w_arp_table w) target_ip (replicate 6 0))) ;;
        ret (if found =? 1 then 1 else 0)
      else ret 0
    else ret 0
  else ret 0.

Fixpoint arp_resolve_loop (n fuel : nat) (rx_addr tx_addr : Z) (target_ip : list Z)
    (start_time timeout : Z) : M Z :=
  ans <- arp_resolve_pass fuel rx_addr tx_addr target_ip ;;
  if ans =? 0 then
    t <- get_cpu_usecs ;;
    if u64 (t - start_time) <? timeout then
      match n with
      | O => spin
      | S n' => arp_resolve_loop n' fuel rx_addr tx_addr target_ip start_time timeout
      end
    else ret ans
  else ret ans.

Definition arp_resolve_ip (n fuel : nat) (rx_addr tx_addr : Z) (target_ip : list Z)
    (timeout : Z) : M Z :=
  start_time <- get_cpu_usecs ;;
  arp_resolve_loop n fuel rx_addr tx_addr target_ip start_time timeout.

End Protocol.

(** ** The table implements a bounded map *)

(** The binding an entry stands for. *)
Definition pair_of (e : arp_table_entry) : option (list Z * list Z) :=
  if used e =? 1 then Some (ip_addr e, mac_addr e) else None.

Definition pairs (t : list arp_table_entry) : list (list Z * list Z) := omap pair_of t.

Definition arp_map (t : list arp_table_entry) : gmap (list Z) (list Z) := list_to_map (pairs t).

(** Table invariant: ARP_TABLE_SIZE entries with addresses of the right
    length, at most one of them in use for each IP address. *)
Record arp_inv (t : list arp_table_entry) : Prop := {
  ai_size : Z.of_nat (length t) = ARP_TABLE_SIZE;
  ai_entry : Forall (fun e => length (ip_addr e) = 4%nat /\ length (mac_addr e) = 6%nat) t;
  ai_nodup : NoDup (pairs t).*1;
}.

Lemma entry_matches_iff ip e : length ip = 4%nat -> length (ip_addr e) = 4%nat ->
  entry_matches ip e = true <-> used e = 1 /\ ip_addr e = ip.
Proof.
  intros Hip He. destruct e as [u eip emac]. cbn [ip_addr] in He.
  destruct (length_4 _ Hip) as (?&?&?&?& ->). destruct (length_4 _ He) as (?&?&?&?& ->).
  unfold entry_matches, at_. cbn [used ip_addr]. rewrite !andb_true_iff, !Z.eqb_eq. simpl.
  split; [intros ((((-> & ->) & ->) & ->) & ->); done | intros [-> ?]; by simplify_eq].
Qed.

Lemma copy_array (l : list Z) n : length l = n -> map (at_ l) (seqZ 0 (Z.of_nat n)) = l.
Proof.
  intros <-. induction l as [|x l IH]; [done|].
  cbn [length]. rewrite seqZ_cons by lia. cbn [map]. f_equal.
  replace (Z.pred (Z.of_nat (S (length l)))) with (Z.of_nat (length l)) by lia.
  etrans; [|exact IH]. replace (Z.succ 0) with (1 + 0) by lia.
  rewrite <- fmap_add_seqZ. change (Z.add 1 <$> seqZ 0 (Z.of_nat (length l)))
    with (map (Z.add 1) (seqZ 0 (Z.of_nat (length l)))).
  rewrite map_map. apply map_ext_in. intros i [Hi _]%list_elem_of_In%elem_of_seqZ.
  unfold at_. by replace (Z.to_nat (1 + i)) with (S (Z.to_nat i)) by lia.
Qed.

Lemma copy_array_6 l : length l = 6%nat -> map (at_ l) (seqZ 0 6) = l.
Proof. apply (copy_array l 6). Qed.
Lemma copy_array_4 l : length l = 4%nat -> map (at_ l) (seqZ 0 4) = l.
Proof. apply (copy_array l 4). Qed.
Lemma copy_array_8 l : length l = 8%nat -> map (at_ l) (seqZ 0 8) = l.
Proof. apply (copy_array l 8). Qed.

Lemma pairs_cons e t :
  pairs (e :: t) = if used e =? 1 then (ip_addr e, mac_addr e) :: pairs t else pairs t.
Proof. unfold pairs. cbn. unfold pair_of at 1. by destruct (used e =? 1). Qed.

(** Searching is lookup. *)
Lemma arp_search_lookup t ip mac :
  length ip = 4%nat ->
  Forall (fun e => length (ip_addr e) = 4%nat /\ length (mac_addr e) = 6%nat) t ->
  arp_table_search t ip mac =
  match arp_map t !! ip with Some a => (1, a) | None => (0, mac) end.
Proof.
  intros Hip. unfold arp_map.
  induction 1 as [|e t [He1 He2] _ IH]; cbn [arp_table_search]; [done|].
  pose proof (entry_matches_iff ip e Hip He1) as Hm. rewrite pairs_cons.
  destruct (entry_matches ip e) eqn:E.
  - destruct (proj1 Hm eq_refl) as [-> <-]. rewrite Z.eqb_refl, list_to_map_cons.
    by rewrite lookup_insert_eq, copy_array_6.
  - rewrite IH. destruct (Z.eqb_spec (used e) 1) as [Hu|]; [|done].
    rewrite list_to_map_cons, lookup_insert_ne; [done|].
    intros <-. destruct Hm as [_ Hm]. by discriminate Hm.
Qed.

Lemma list_to_map_filter_ne (l : list (list Z * list Z)) ip :
  (list_to_map (filter (fun p => p.1 <> ip) l) : gmap _ _) = delete ip (list_to_map l).
Proof.
  induction l as [|[k v] l IH].
  - rewrite list_to_map_nil. symmetry. apply delete_empty.
  - rewrite filter_cons, list_to_map_cons. case_decide as Hk; cbn [fst] in Hk.
    + by rewrite list_to_map_cons, IH, delete_insert_ne.
    + assert (k = ip) as -> by (by destruct (decide (k = ip))).
      by rewrite IH, delete_insert_eq.
Qed.

(** Deleting removes exactly the bindings of the address. *)
Lemma arp_delete_pairs t ip :
  length ip = 4%nat ->
  Forall (fun e => length (ip_addr e) = 4%nat /\ length (mac_addr e) = 6%nat) t ->
  pairs (snd (arp_table_delete_entry t ip)) = filter (fun p => p.1 <> ip) (pairs t) /\
  fst (arp_table_delete_entry t ip) = c_bool (bool_decide (is_Some (arp_map t !! ip))) /\
  length (snd (arp_table_delete_entry t ip)) = length t /\
  Forall (fun e => length (ip_addr e) = 4%nat /\ length (mac_addr e) = 6%nat)
    (snd (arp_table_delete_entry t ip)).
Proof.
  intros Hip. unfold arp_map.
  induction 1 as [|e t [He1 He2] _ (IH1 & IH2 & IH3 & IH4)]; cbn [arp_table_delete_entry].
  - rewrite bool_decide_false; [done|]. by intros [].
  - destruct (arp_table_delete_entry t ip) as [ans t1]. cbn [fst snd] in *.
    pose proof (entry_matches_iff ip e Hip He1) as Hm. rewrite (pairs_cons e t).
    destruct (entry_matches ip e) eqn:E; cbn [fst snd length]; rewrite pairs_cons, IH1, IH3.
    + destruct (proj1 Hm eq_refl) as [-> <-]. rewrite Z.eqb_refl, filter_cons. cbn [fst used].
      rewrite decide_False by (intros Hn; by apply Hn). rewrite list_to_map_cons, lookup_insert_eq.
      rewrite bool_decide_true by eauto. split_and!; [done | done | done | by constructor].
    + assert (Hne : used e = 1 -> ip_addr e <> ip)
        by (intros Hu Hi; destruct Hm as [_ Hm]; by discriminate Hm).
      rewrite IH2. destruct (Z.eqb_spec (used e) 1) as [Hu|]; [|by split_and!; try constructor].
      rewrite filter_cons, decide_True by (cbn; auto).
      rewrite list_to_map_cons, lookup_insert_ne by auto. by split_and!; try constructor.
Qed.

Lemma arp_delete_map t ip : length ip = 4%nat -> arp_inv t ->
  arp_map (snd (arp_table_delete_entry t ip)) = delete ip (arp_map t) /\
  arp_inv (snd (arp_table_delete_entry t ip)).
Proof.
  intros Hip [Hs He Hd]. destruct (arp_delete_pairs t ip Hip He) as (Hp & _ & Hl & Hf).
  unfold arp_map. rewrite Hp, list_to_map_filter_ne. split; [done|].
  split; [by rewrite Hl | done |].
  rewrite Hp. apply (sublist_NoDup _ (pairs t).*1); [done|]. apply fmap_sublist, sublist_filter.
Qed.

Lemma pairs_app t1 t2 : pairs (t1 ++ t2) = pairs t1 ++ pairs t2.
Proof. apply omap_app. Qed.

(** The scan for a free entry: the byte read past the table does not
    matter. *)
Lemma first_free_spec t beyond : forall i, i + Z.of_nat (length t) = ARP_TABLE_SIZE -> 0 <= i ->
  (Forall (fun e => used e = 1) t /\ first_free t beyond i = ARP_TABLE_SIZE) \/
  (exists t1 e t2, t = t1 ++ e :: t2 /\ used e <> 1 /\
     first_free t beyond i = i + Z.of_nat (length t1)).
Proof.
  induction t as [|e t IH]; cbn [length first_free]; intros i Hi H0.
  - left. split; [done|]. replace (i <? ARP_TABLE_SIZE) with false by lia.
    rewrite andb_false_r. lia.
  - replace (i <? ARP_TABLE_SIZE) with true by lia. rewrite andb_true_r.
    destruct (Z.eqb_spec (used e) 1) as [Hu|Hu].
    + destruct (IH (i + 1) ltac:(lia) ltac:(lia)) as [[Hf ->]|(t1 & e' & t2 & -> & He & ->)].
      * left. by split; [constructor|].
      * right. exists (e :: t1), e', t2. cbn [length]. split_and!; [done | done | lia].
    + right. exists [], e, t. cbn. split_and!; [done | done | lia].
Qed.

Lemma pairs_full t : Forall (fun e => used e = 1) t ->
  pairs t = map (fun e => (ip_addr e, mac_addr e)) t.
Proof. induction 1 as [|e t Hu _ IH]; [done|]. by rewrite pairs_cons, Hu, IH. Qed.

Lemma size_arp_map t : NoDup (pairs t).*1 -> size (arp_map t) = length (pairs t).
Proof. intros. by apply map_size_list_to_map. Qed.

Lemma pairs_length t : (length (pairs t) <= length t)%nat.
Proof. unfold pairs. induction t as [|e t IH]; cbn; [lia|]. destruct (pair_of e); cbn; lia. Qed.

(** What inserting may do to the map: bind [ip], and forget one other
    binding when the table is full. *)
Definition cache_insert (ip mac : list Z) (M M' : gmap (list Z) (list Z)) : Prop :=
  let M0 := delete ip M in
  (Z.of_nat (size M0) < ARP_TABLE_SIZE /\ M' = <[ip := mac]> M) \/
  (Z.of_nat (size M0) = ARP_TABLE_SIZE /\ exists victim, is_Some (M0 !! victim) /\
     M' = <[ip := mac]> (delete victim M)).

Lemma arp_insert_full e t ip mac :
  arp_inv (e :: t) -> Forall (fun e => used e = 1) (e :: t) -> arp_map (e :: t) !! ip = None ->
  length ip = 4%nat -> length mac = 6%nat ->
  let t' := mk_arp_entry 1 ip mac :: t in
  arp_inv t' /\ cache_insert ip mac (arp_map (e :: t)) (arp_map t').
Proof.
  intros [Hs He Hd] Hfull Hnone Hip Hmac t'. subst t'.
  assert (Hni : ip ∉ (pairs (e :: t)).*1) by (by apply not_elem_of_list_to_map).
  inversion_clear Hfull as [|? ? Hu Hf]. inversion_clear He as [|? ? He1 He2].
  rewrite pairs_cons, Hu, Z.eqb_refl in Hd, Hni. cbn in Hd, Hni.
  apply NoDup_cons in Hd as [Hd1 Hd2]. apply not_elem_of_cons in Hni as [Hn1 Hn2].
  split; [split; [done | by constructor|]|].
  - rewrite pairs_cons. cbn. by constructor.
  - right. rewrite delete_id by done. unfold arp_map.
    rewrite !pairs_cons, Hu, Z.eqb_refl. cbn [used ip_addr mac_addr].
    rewrite Z.eqb_refl, !list_to_map_cons. split.
    + rewrite map_size_insert_None by (by apply not_elem_of_list_to_map).
      rewrite map_size_list_to_map by done. rewrite pairs_full, length_map by done.
      cbn [length] in Hs. lia.
    + exists (ip_addr e). rewrite lookup_insert_eq. split; [eauto|]. f_equal.
      rewrite delete_insert_eq, delete_id; [done|]. by apply not_elem_of_list_to_map.
Qed.

Lemma arp_insert_free t1 e t2 ip mac :
  arp_inv (t1 ++ e :: t2) -> used e <> 1 -> arp_map (t1 ++ e :: t2) !! ip = None ->
  length ip = 4%nat -> length mac = 6%nat ->
  let t' := t1 ++ mk_arp_entry 1 ip mac :: t2 in
  arp_inv t' /\ cache_insert ip mac (arp_map (t1 ++ e :: t2)) (arp_map t').
Proof.
  intros [Hs He Hd] Hu Hnone Hip Hmac t'. subst t'.
  assert (Hni : ip ∉ (pairs (t1 ++ e :: t2)).*1) by (by apply not_elem_of_list_to_map).
  assert (Hpo : pairs (t1 ++ e :: t2) = pairs t1 ++ pairs t2).
  { rewrite pairs_app, pairs_cons. by replace (used e =? 1) with false by lia. }
  rewrite Hpo in Hd, Hni.
  assert (Hp : pairs (t1 ++ mk_arp_entry 1 ip mac :: t2) ≡ₚ (ip, mac) :: (pairs t1 ++ pairs t2)).
  { rewrite pairs_app, pairs_cons. cbn. by rewrite Permutation_middle. }
  assert (Hd' : NoDup (pairs (t1 ++ mk_arp_entry 1 ip mac :: t2)).*1)
    by (rewrite Hp; cbn; by constructor).
  rewrite length_app in Hs. cbn [length] in Hs.
  apply Forall_app in He as [He1 He2]. inversion_clear He2 as [|? ? He3 He4].
  split; [split; [by rewrite length_app | by apply Forall_app_2; [|constructor] | done]|].
  left. rewrite delete_id by done. split.
  - rewrite size_arp_map, Hpo, length_app by (by rewrite Hpo).
    pose proof (pairs_length t1). pose proof (pairs_length t2). lia.
  - unfold arp_map. by rewrite (list_to_map_proper _ _ Hd' Hp), list_to_map_cons, Hpo.
Qed.

(** Inserting into a table without a binding for [ip]. *)
Lemma arp_insert_slot t ip mac :
  arp_inv t -> arp_map t !! ip = None -> length ip = 4%nat -> length mac = 6%nat ->
  let i := first_free t 0 0 in
  let i := if i =? ARP_TABLE_SIZE then 0 else i in
  let t' := <[Z.to_nat i := mk_arp_entry 1 ip mac]> t in
  arp_inv t' /\ cache_insert ip mac (arp_map t) (arp_map t').
Proof.
  intros Hinv Hnone Hip Hmac i0 i t'. pose proof (ai_size t Hinv) as Hs.
  destruct (first_free_spec t 0 0 ltac:(lia) ltac:(lia)) as [[Hfull Hi]|(t1 & e & t2 & -> & Hu & Hi)];
    fold i0 in Hi; subst i t'; rewrite Hi; clear Hi i0.
  - rewrite Z.eqb_refl. destruct t as [|e t]; [cbn in Hs; unfold ARP_TABLE_SIZE in Hs; lia|].
    by apply arp_insert_full.
  - rewrite length_app in Hs. cbn [length] in Hs.
    replace (0 + Z.of_nat (length t1) =? ARP_TABLE_SIZE) with false by lia.
    replace (Z.to_nat (0 + Z.of_nat (length t1))) with (length t1 + 0)%nat by lia.
    rewrite insert_app_r. by apply arp_insert_free.
Qed.

Lemma arp_new_entry_map t ip mac :
  arp_inv t -> length ip = 4%nat -> length mac = 6%nat ->
  arp_inv (arp_table_new_entry t ip mac) /\
  cache_insert ip mac (arp_map t) (arp_map (arp_table_new_entry t ip mac)).
Proof.
  intros Hinv Hip Hmac. unfold arp_table_new_entry.
  rewrite copy_array_4, copy_array_6, arp_search_lookup by (by try apply Hinv).
  destruct (arp_map t !! ip) as [a|] eqn:E; cbn [fst].
  - change (1 =? 1) with true. cbv iota.
    destruct (arp_delete_map t ip Hip Hinv) as [Hm Hinv'].
    assert (Hnone : arp_map (snd (arp_table_delete_entry t ip)) !! ip = None)
      by (by rewrite Hm, lookup_delete_eq).
    destruct (arp_insert_slot _ ip mac Hinv' Hnone Hip Hmac) as [Hi Hc].
    split; [exact Hi|]. revert Hc. unfold cache_insert. rewrite Hm, delete_delete_eq.
    rewrite insert_delete_eq. intros [?|(? & v & Hv & ->)]; [by left|].
    right. split; [done|]. exists v. split; [done|]. by rewrite (delete_delete _ v ip), insert_delete_eq.
  - change (0 =? 1) with false. cbv iota. by apply arp_insert_slot.
Qed.

(** The operations of the table and of the abstract cache. *)
Inductive arp_op :=
| Init
| Search (ip mac : list Z)
| Delete (ip : list Z)
| NewEntry (ip mac : list Z).

Definition arp_step (o : arp_op) (t : list arp_table_entry) :
    (Z * list Z) * list arp_table_entry :=
  match o with
  | Init => ((0, []), arp_table_init t)
  | Search ip mac => (arp_table_search t ip mac, t)
  | Delete ip => let '(ans, t') := arp_table_delete_entry t ip in ((ans, []), t')
  | NewEntry ip mac => ((0, []), arp_table_new_entry t ip mac)
  end.

Definition cache_step (o : arp_op) (M : gmap (list Z) (list Z)) (r : Z * list Z)
    (M' : gmap (list Z) (list Z)) : Prop :=
  match o with
  | Init => M' = ∅
  | Search ip mac => M' = M /\ r = match M !! ip with Some a => (1, a) | None => (0, mac) end
  | Delete ip => M' = delete ip M /\ fst r = c_bool (bool_decide (is_Some (M !! ip)))
  | NewEntry ip mac => cache_insert ip mac M M' /\ M' !! ip = Some mac
  end.

Definition arp_op_ok (o : arp_op) : Prop :=
  match o with
  | Init => True
  | Search ip _ | Delete ip => length ip = 4%nat
  | NewEntry ip mac => length ip = 4%nat /\ length mac = 6%nat
  end.

Lemma arp_init_map t : arp_inv t -> arp_map (arp_table_init t) = ∅ /\ arp_inv (arp_table_init t).
Proof.
  intros [Hs He Hd].
  assert (Hp : pairs (arp_table_init t) = []).
  { clear. unfold arp_table_init. induction t as [|e t IH]; [done|]. by cbn [map]; rewrite pairs_cons, IH. }
  unfold arp_map. rewrite Hp. split; [done|]. split; [| | rewrite Hp; by constructor].
  - unfold arp_table_init. by rewrite length_map.
  - unfold arp_table_init. apply Forall_map. by eapply Forall_impl.
Qed.

(** C20: the ARP table refines a map from IP to MAC addresses with at most
    ARP_TABLE_SIZE bindings.  Every operation keeps the table invariant
    (eight entries, no IP address twice) and does to the map what its
    comment says: init empties it, search looks up and copies the MAC
    address, delete removes the binding and reports whether there was one,
    and a new entry is bound, at the cost of one other binding exactly
    when eight other addresses are bound. *)
Theorem arp_table_refines_map o t r t' :
  arp_inv t -> arp_op_ok o -> arp_step o t = (r, t') ->
  arp_inv t' /\ cache_step o (arp_map t) r (arp_map t').
Proof.
  intros Hinv Hok Hstep. destruct o as [|ip mac|ip|ip mac]; cbn in Hstep, Hok.
  - simplify_eq. destruct (arp_init_map t Hinv). by split.
  - simplify_eq. split; [done|]. split; [done|].
    apply arp_search_lookup; [done | apply Hinv].
  - destruct (arp_delete_map t ip Hok Hinv) as [Hm Hi].
    destruct (arp_delete_pairs t ip Hok (ai_entry t Hinv)) as (_ & Hans & _).
    destruct (arp_table_delete_entry t ip) as [ans t1]. injection Hstep as <- <-.
    split; [exact Hi|]. split; [exact Hm | exact Hans].
  - simplify_eq. destruct Hok as [Hip Hmac].
    destruct (arp_new_entry_map t ip mac Hinv Hip Hmac) as [Hi Hc].
    split; [exact Hi|]. split; [exact Hc|].
    destruct Hc as [[_ ->]|(_ & v & _ & ->)]; apply lookup_insert_eq.
Qed.

(** The table of a fresh boot: static storage is zero. *)
Definition arp_table_boot : list arp_table_entry :=
  replicate 8 (mk_arp_entry 0 (replicate 4 0) (replicate 6 0)).

Lemma arp_boot_inv : arp_inv arp_table_boot.
Proof. split; [done | | constructor]. by repeat constructor. Qed.

Lemma arp_table_refines_map_witness :
  arp_inv (snd (arp_step (NewEntry [10;0;0;1] [1;2;3;4;5;6]) arp_table_boot)) /\
  arp_map (snd (arp_step (NewEntry [10;0;0;1] [1;2;3;4;5;6]) arp_table_boot)) !! [10;0;0;1]
    = Some [1;2;3;4;5;6].
Proof.
  destruct (arp_table_refines_map (NewEntry [10;0;0;1] [1;2;3;4;5;6]) arp_table_boot _ _
    arp_boot_inv (conj eq_refl eq_refl) eq_refl) as [Hi [_ Hl]].
  split; [exact Hi | exact Hl].
Defined.
