(* ===== verification/ArpProto.v ===== *)
(** ArpProto: ARP frames, the receive handler and address resolution.

    Proofs about the protocol part of c/ethlib/arp.c (definitions in
    [Arp]): the bytes of the frames that are built, the receive handler on
    every branch, the exchange between two hosts, and the time bound of
    arp_resolve_ip. *)

From stdpp Require Import base numbers list gmap.
From S2P Require Import Prelude EthIO World EthMac Mac Ipv4 Arp.


(** ** Frames *)

(** Loops that fill two, respectively four, disjoint fields at once. *)
Lemma rd_fill2 m a1 a2 n (f1 f2 : Z -> Z) b :
  in_space a1 (Z.of_nat n) -> in_space a2 (Z.of_nat n) -> a1 + Z.of_nat n <= a2 -> 0 <= b < 2 ^ 32 ->
  mem_iord_byte (for_up n 0 1 (fun i t =>
    mem_iowr_byte (mem_iowr_byte t (a1 + i) (f1 i)) (a2 + i) (f2 i)) m) b =
  if (a2 <=? b) && (b <? a2 + Z.of_nat n) then u8 (f2 (b - a2))
  else if (a1 <=? b) && (b <? a1 + Z.of_nat n) then u8 (f1 (b - a1))
  else mem_iord_byte m b.
Proof.
  intros [? [_ ?]] [? [_ ?]] Hd. revert b. apply (for_up_rd (fun k b =>
    if (a2 <=? b) && (b <? a2 + k) then u8 (f2 (b - a2))
    else if (a1 <=? b) && (b <? a1 + k) then u8 (f1 (b - a1)) else mem_iord_byte m b)).
  - intros b Hb. replace ((a2 <=? b) && (b <? a2 + 0)) with false by lia.
    by replace ((a1 <=? b) && (b <? a1 + 0)) with false by lia.
  - intros k t Hk IH b Hb. rewrite !rd_wr, IH by lia.
    replace ((a2 <=? b) && (b <? a2 + (k + 1)))
      with ((a2 + k =? b) || ((a2 <=? b) && (b <? a2 + k))) by lia.
    replace ((a1 <=? b) && (b <? a1 + (k + 1)))
      with ((a1 + k =? b) || ((a1 <=? b) && (b <? a1 + k))) by lia.
    destruct (Z.eqb_spec (a2 + k) b) as [<-|]; [cbn; do 2 f_equal; lia|].
    destruct (Z.eqb_spec (a1 + k) b) as [<-|]; [|done]. zdec. do 2 f_equal. lia.
Qed.

Lemma rd_fill4 m a1 a2 a3 a4 n (f1 f2 f3 f4 : Z -> Z) b :
  0 <= a1 -> a1 + Z.of_nat n <= a2 -> a2 + Z.of_nat n <= a3 -> a3 + Z.of_nat n <= a4 ->
  a4 + Z.of_nat n <= 2 ^ 32 -> 0 <= b < 2 ^ 32 ->
  mem_iord_byte (for_up n 0 1 (fun i t =>
    mem_iowr_byte (mem_iowr_byte (mem_iowr_byte (mem_iowr_byte t (a1 + i) (f1 i))
      (a2 + i) (f2 i)) (a3 + i) (f3 i)) (a4 + i) (f4 i)) m) b =
  if (a4 <=? b) && (b <? a4 + Z.of_nat n) then u8 (f4 (b - a4))
  else if (a3 <=? b) && (b <? a3 + Z.of_nat n) then u8 (f3 (b - a3))
  else if (a2 <=? b) && (b <? a2 + Z.of_nat n) then u8 (f2 (b - a2))
  else if (a1 <=? b) && (b <? a1 + Z.of_nat n) then u8 (f1 (b - a1))
  else mem_iord_byte m b.
Proof.
  intros H0 H1 H2 H3 H4. revert b. apply (for_up_rd (fun k b =>
    if (a4 <=? b) && (b <? a4 + k) then u8 (f4 (b - a4))
    else if (a3 <=? b) && (b <? a3 + k) then u8 (f3 (b - a3))
    else if (a2 <=? b) && (b <? a2 + k) then u8 (f2 (b - a2))
    else if (a1 <=? b) && (b <? a1 + k) then u8 (f1 (b - a1)) else mem_iord_byte m b)).
  - intros b Hb. replace ((a4 <=? b) && (b <? a4 + 0)) with false by lia.
    replace ((a3 <=? b) && (b <? a3 + 0)) with false by lia.
    replace ((a2 <=? b) && (b <? a2 + 0)) with false by lia.
    by replace ((a1 <=? b) && (b <? a1 + 0)) with false by lia.
  - intros k t Hk IH b Hb. rewrite !rd_wr, IH by lia.
    assert (Hs : forall a, (a <=? b) && (b <? a + (k + 1)) =
      (a + k =? b) || ((a <=? b) && (b <? a + k))) by (intros; lia).
    rewrite !Hs. clear Hs IH.
    destruct (Z.eqb_spec (a4 + k) b) as [<-|]; [cbn; do 2 f_equal; lia|].
    destruct (Z.eqb_spec (a3 + k) b) as [<-|]; [zdec; do 2 f_equal; lia|].
    destruct (Z.eqb_spec (a2 + k) b) as [<-|]; [zdec; do 2 f_equal; lia|].
    destruct (Z.eqb_spec (a1 + k) b) as [<-|]; [zdec; do 2 f_equal; lia|]. done.
Qed.

Lemma rd_copy_frame m rx tx n b :
  in_space rx (Z.of_nat n) -> in_space tx (Z.of_nat n) ->
  tx <= rx \/ rx + Z.of_nat n <= tx -> 0 <= b < 2 ^ 32 ->
  mem_iord_byte (copy_frame m rx tx n) b =
  if (tx <=? b) && (b <? tx + Z.of_nat n) then mem_iord_byte m (rx + (b - tx))
  else mem_iord_byte m b.
Proof.
  intros Hr Ht Ho Hb. unfold copy_frame. destruct (Z.eqb_spec rx tx) as [->|].
  - replace (tx + (b - tx)) with b by lia. by destruct (_ && _).
  - by apply rd_copy.
Qed.

(** Read a byte of a frame through the writes that built it. *)
Ltac rd_frame :=
  repeat (first
    [ rewrite rd_swap by (unfold in_space; lia)
    | rewrite rd_copy_frame by (unfold in_space in *; lia)
    | rewrite rd_fill2 by (unfold in_space; lia)
    | rewrite rd_fill4 by lia
    | rewrite rd_wr by lia
    | rewrite rd_wrw_off by (first [assumption | reflexivity | lia])
    | rewrite rd_wrw by (first [assumption | lia]) ]; zdec).

(** Split a claim about the bytes of a frame into one goal per byte. *)
Ltac each_byte :=
  apply read_bytes_list; [reflexivity|]; apply forall_seqZ;
  match goal with |- Forall _ ?l => let l' := eval vm_compute in l in change l with l' end;
  repeat (apply List.Forall_cons; [cbv beta|]); [.. | apply List.Forall_nil].

(** The frames of the protocol. *)
Definition arp_request_frame (mac ip target_ip : list Z) : list Z :=
  replicate 6 0xFF ++ mac ++ [0x08; 0x06; 0; 1; 0x08; 0x00; 6; 4; 0; 1] ++
  mac ++ ip ++ replicate 6 0 ++ target_ip.

(** The answer to the request frame in the buffer at [rx]. *)
Definition arp_reply_frame (mac ip : list Z) (m : mem) (rx : Z) : list Z :=
  read_bytes m (rx + 6) 6 ++ mac ++ read_bytes m (rx + 12) 9 ++ [2] ++
  mac ++ ip ++ read_bytes m (rx + 22) 6 ++ read_bytes m (rx + 28) 4.

(** Name the lane of a [byte_at]. *)
Ltac lane :=
  repeat match goal with
  | |- context [byte_at ?w (24 - ?k)] =>
      first [replace (24 - k) with 0 by lia | replace (24 - k) with 8 by lia
            |replace (24 - k) with 16 by lia | replace (24 - k) with 24 by lia]
  end.

Section Frames.
Context (mac ip : list Z) (Hmac : byte_array 6 mac) (Hip : byte_array 4 ip).

Lemma arp_build_reply_frame m rx tx :
  in_space rx 42 -> in_space tx 42 -> tx <= rx \/ rx + 42 <= tx ->
  let m' := fst (arp_build_reply m mac ip rx tx) in
  read_bytes m' tx 42 = arp_reply_frame mac ip m rx.
Proof.
  intros [Hr1 [_ Hr2]] [Ht1 [_ Ht2]] Ho m'. subst m'.
  unfold arp_build_reply, arp_reply_frame. cbn [fst].
  set (m1 := copy_frame m rx tx 42).
  change 42 with (6 + (6 + (9 + (1 + (6 + (4 + (6 + 4))))))) at 1.
  rewrite !read_bytes_app by lia.
  assert (Hc : forall b, 0 <= b < 2 ^ 32 -> mem_iord_byte m1 b =
    if (tx <=? b) && (b <? tx + 42) then mem_iord_byte m (rx + (b - tx)) else mem_iord_byte m b).
  { intros b Hb. apply rd_copy_frame; unfold in_space; lia. }
  clearbody m1.
  repeat apply f_equal2; first
    [apply read_bytes_list; [by destruct Hmac as [-> _] | intros i Hi; rd_frame; rewrite (at_u8 6) by done; f_equal; lia]
    |apply read_bytes_list; [by destruct Hip as [-> _] | intros i Hi; rd_frame; rewrite (at_u8 4) by done; f_equal; lia]
    |apply read_bytes_list; [done | intros i Hi; replace i with 0 by lia; rd_frame; done]
    |apply read_bytes_ext; intros i Hi; rd_frame; rewrite Hc by lia; zdec; f_equal; lia].
Qed.

Lemma arp_build_request_frame m tx target :
  tx mod 4 = 0 -> in_space tx 42 -> byte_array 4 target ->
  read_bytes (fst (arp_build_request m mac ip tx target)) tx 42 = arp_request_frame mac ip target.
Proof.
  intros Hal [Ht1 [_ Ht2]] Htg. unfold arp_build_request, arp_request_frame. cbn [fst].
  change 42 with (6 + (6 + (10 + (6 + (4 + (6 + 4)))))) at 1.
  rewrite !read_bytes_app by lia.
  repeat apply f_equal2; first
    [apply read_bytes_list; [by destruct Hmac as [-> _] | intros i Hi; rd_frame; rewrite (at_u8 6) by done; f_equal; lia]
    |apply read_bytes_list; [by destruct Hip as [-> _] | intros i Hi; rd_frame; rewrite (at_u8 4) by done; f_equal; lia]
    |apply read_bytes_list; [by destruct Htg as [-> _] | intros i Hi; rd_frame; rewrite (at_u8 4) by done; f_equal; lia]
    |apply read_bytes_list; [done | intros i Hi; rewrite at_replicate by (cbn; lia); rd_frame; done]
    |each_byte; rd_frame; lane; reflexivity].
Qed.

End Frames.

(** ** The receive handler *)

Section Handler.
Context `{EthDevSpec}.
Local Open Scope eth_scope.

(** Globals of the right type. *)
Record wf_world (w : world) : Prop := {
  ww_mac : byte_array 6 (w_my_mac w);
  ww_ip : byte_array 4 (w_my_ip w);
  ww_arp : arp_inv (w_arp_table w);
}.

(** The request for us in the buffer at [rx], the reply for us. *)
Definition for_us (w : world) (rx : Z) : Prop := read_bytes (w_mem w) (rx + 38) 4 = w_my_ip w.
#[global] Instance for_us_dec w rx : Decision (for_us w rx).
Proof. unfold for_us. apply _. Defined.
Definition arp_op_byte (w : world) (rx : Z) : Z := mem_iord_byte (w_mem w) (rx + 21).

Lemma compare_for_us w rx : byte_array 4 (w_my_ip w) ->
  (ipv4_compare_ip (arp_get_target_ip (w_mem w) rx) (w_my_ip w) =? 1) =
  bool_decide (for_us w rx).
Proof.
  intros [Hl _]. unfold arp_get_target_ip, for_us.
  rewrite get_bytes_read, ipv4_compare_eq by (rewrite ?read_bytes_length; done).
  by repeat case_bool_decide.
Qed.

(** A tx frame of [n] bytes that the controller does not overwrite, and a
    transmitter that is idle. *)
Definition tx_ok (w : world) (tx n : Z) : Prop :=
  in_space tx n /\ (forall i, 0 <= i < n -> ~ rx_window (w_dev w) (tx + i)) /\ tx_idle (w_dev w).

Lemma arp_request_answered fuel rx tx w :
  wf_world w -> in_space rx 42 -> tx_ok w tx 42 -> tx <= rx \/ rx + 42 <= tx ->
  (tx_latency < fuel)%nat -> for_us w rx -> arp_op_byte w rx = 1 ->
  exists w', arp_process_received fuel rx tx w = Some (1, w') /\
    w_arp_table w' = w_arp_table w /\
    wire (w_dev w') = wire (w_dev w) ++ [arp_reply_frame (w_my_mac w) (w_my_ip w) (w_mem w) rx].
Proof.
  intros Hw Hrx (Htx & Hwin & Hid) Ho Hf Hus Hop.
  unfold arp_process_received, bind, gets, rdb, gets. rewrite compare_for_us by apply Hw.
  rewrite bool_decide_true by done. fold (arp_op_byte w rx). rewrite Hop, Z.eqb_refl.
  pose proof (arp_build_reply_frame _ _ (ww_mac w Hw) (ww_ip w Hw) (w_mem w) rx tx Hrx Htx Ho) as Hfr.
  assert (Hlen : snd (arp_build_reply (w_mem w) (w_my_mac w) (w_my_ip w) rx tx) = 42) by reflexivity.
  unfold build. destruct (arp_build_reply _ _ _ _ _) as [m1 len]. cbn [fst snd] in *. subst len.
  assert (Htx2 : 0 <= tx < 2 ^ 32) by (unfold in_space in Htx; lia).
  destruct (eth_mac_send_spec fuel tx 42 (set_mem m1 w) Htx2 ltac:(lia) Hf Hid Hwin)
    as (w' & -> & He & _ & Hwire).
  exists w'. split_and!; [done | by apply He |].
  rewrite Hwire. cbn [w_dev set_mem w_mem]. by rewrite Hfr.
Qed.

Lemma arp_reply_learned fuel rx tx w :
  wf_world w -> for_us w rx -> arp_op_byte w rx = 2 ->
  arp_process_received fuel rx tx w =
  if bool_decide (read_bytes (w_mem w) (rx + 32) 6 = w_my_mac w) then
    Some (2, set_arp_table (arp_table_new_entry (w_arp_table w)
      (read_bytes (w_mem w) (rx + 28) 4) (read_bytes (w_mem w) (rx + 22) 6)) w)
  else Some (0, w).
Proof.
  intros Hw Hus Hop.
  unfold arp_process_received, bind, gets, rdb, gets. rewrite compare_for_us by apply Hw.
  rewrite bool_decide_true by done. fold (arp_op_byte w rx). rewrite Hop.
  change (2 =? 1) with false. change (2 =? 2) with true. cbv iota.
  unfold arp_get_target_mac, arp_get_sender_ip, arp_get_sender_mac. rewrite (get_bytes_read _ (rx + 32)).
  rewrite mac_compare_eq by (rewrite ?read_bytes_length; try done; apply Hw).
  case_bool_decide; [|done]. cbn. by rewrite !get_bytes_read.
Qed.

Lemma arp_ignored fuel rx tx w :
  wf_world w -> ~ (for_us w rx /\ (arp_op_byte w rx = 1 \/ arp_op_byte w rx = 2)) ->
  arp_process_received fuel rx tx w = Some (0, w).
Proof.
  intros Hw Hn.
  unfold arp_process_received, bind, gets, rdb, gets. rewrite compare_for_us by apply Hw.
  case_bool_decide; [|done]. fold (arp_op_byte w rx).
  destruct (Z.eqb_spec (arp_op_byte w rx) 1); [tauto|].
  destruct (Z.eqb_spec (arp_op_byte w rx) 2); [tauto|]. done.
Qed.

(** Arp_process_received on every branch.  A packet whose target IP is
    not ours, or whose operation is neither request nor reply, is ignored
    (result 0, nothing changes); a request for us is answered with the
    reply frame that carries our addresses and the requester's (result 1);
    a reply to us binds the sender's IP to its MAC address in the table
    (result 2) and keeps the table invariant, and a reply to another MAC
    address is ignored. *)
Theorem arp_process_received_correct fuel rx tx w :
  wf_world w -> in_space rx 42 -> tx_ok w tx 42 -> tx <= rx \/ rx + 42 <= tx ->
  (tx_latency < fuel)%nat ->
  exists r w', arp_process_received fuel rx tx w = Some (r, w') /\
    if bool_decide (for_us w rx) && (arp_op_byte w rx =? 1) then
      r = 1 /\ w_arp_table w' = w_arp_table w /\
      wire (w_dev w') = wire (w_dev w) ++ [arp_reply_frame (w_my_mac w) (w_my_ip w) (w_mem w) rx]
    else if bool_decide (for_us w rx) && (arp_op_byte w rx =? 2) &&
            bool_decide (read_bytes (w_mem w) (rx + 32) 6 = w_my_mac w) then
      r = 2 /\ arp_inv (w_arp_table w') /\ w_mem w' = w_mem w /\ w_dev w' = w_dev w /\
      arp_map (w_arp_table w') !! read_bytes (w_mem w) (rx + 28) 4
        = Some (read_bytes (w_mem w) (rx + 22) 6)
    else r = 0 /\ w' = w.
Proof.
  intros Hw Hrx Htx Ho Hf.
  destruct (decide (for_us w rx)) as [Hus|Hus].
  2:{ rewrite (bool_decide_false _ Hus). exists 0, w. split; [|done]. apply arp_ignored; [done | tauto]. }
  rewrite (bool_decide_true _ Hus). cbn [andb].
  destruct (Z.eqb_spec (arp_op_byte w rx) 1) as [H1|H1].
  { destruct (arp_request_answered fuel rx tx w Hw Hrx Htx Ho Hf Hus H1) as (w' & ? & ? & ?).
    by exists 1, w'. }
  destruct (Z.eqb_spec (arp_op_byte w rx) 2) as [H2|H2]; cbn [andb].
  2:{ exists 0, w. split; [|done]. apply arp_ignored; [done | tauto]. }
  rewrite (arp_reply_learned _ _ _ _ Hw Hus H2).
  case_bool_decide; [|by exists 0, w].
  eexists 2, _. split; [done|]. cbn [w_arp_table set_arp_table w_mem w_dev].
  destruct (arp_new_entry_map (w_arp_table w) (read_bytes (w_mem w) (rx + 28) 4)
    (read_bytes (w_mem w) (rx + 22) 6)) as [Hi Hc];
    [apply Hw | by rewrite read_bytes_length | by rewrite read_bytes_length|].
  split_and!; [done | done | done | done |].
  destruct Hc as [[_ ->]|(_ & v & _ & ->)]; apply lookup_insert_eq.
Qed.

End Handler.

(** ** Resolving an address between two hosts *)

Section Handshake.
Context `{EthDevSpec}.

Lemma arp_request_fields mac ip tip m rx :
  byte_array 6 mac -> byte_array 4 ip -> byte_array 4 tip ->
  read_bytes m rx 42 = arp_request_frame mac ip tip ->
  mem_iord_byte m (rx + 21) = 1 /\ read_bytes m (rx + 38) 4 = tip /\
  read_bytes m (rx + 6) 6 = mac /\ read_bytes m (rx + 12) 9 = [8; 6; 0; 1; 8; 0; 6; 4; 0] /\
  read_bytes m (rx + 22) 6 = mac /\ read_bytes m (rx + 28) 4 = ip.
Proof.
  intros [Hm _] [Hi _] [Ht _] Hf.
  rewrite <- (at_read_bytes m rx 42 21), !(read_bytes_slice m rx 42), Hf by lia.
  destruct (length_6 _ Hm) as (?&?&?&?&?&?& ->). destruct (length_4 _ Hi) as (?&?&?&?& ->).
  destruct (length_4 _ Ht) as (?&?&?&?& ->). done.
Qed.

Lemma arp_reply_fields mac ip rmac rip mid m rx :
  length mac = 6%nat -> length ip = 4%nat -> length rmac = 6%nat -> length rip = 4%nat ->
  length mid = 9%nat ->
  read_bytes m rx 42 = rmac ++ mac ++ mid ++ [2] ++ mac ++ ip ++ rmac ++ rip ->
  mem_iord_byte m (rx + 21) = 2 /\ read_bytes m (rx + 38) 4 = rip /\
  read_bytes m (rx + 32) 6 = rmac /\
  read_bytes m (rx + 22) 6 = mac /\ read_bytes m (rx + 28) 4 = ip.
Proof.
  intros Hm Hi Hrm Hri Hmid Hf.
  rewrite <- (at_read_bytes m rx 42 21), !(read_bytes_slice m rx 42), Hf by lia.
  destruct (length_6 _ Hm) as (?&?&?&?&?&?& ->). destruct (length_4 _ Hi) as (?&?&?&?& ->).
  destruct (length_6 _ Hrm) as (?&?&?&?&?&?& ->). destruct (length_4 _ Hri) as (?&?&?&?& ->).
  do 9 (destruct mid as [|? mid]; [done|]). destruct mid; done.
Qed.

(** Two hosts running this code resolve each other.  When B has A's
    request for B's address in its receive buffer, its handler transmits a
    frame; once that frame is in A's receive buffer, A's handler returns 2
    and A's table maps B's IP address to B's MAC address. *)
Theorem arp_handshake fuel m txA rxA rxB txB (wA wB : world) mA :
  wf_world wA -> wf_world wB -> (tx_latency < fuel)%nat ->
  in_space txA 42 -> txA mod 4 = 0 -> in_space rxB 42 -> tx_ok wB txB 42 ->
  txB <= rxB \/ rxB + 42 <= txB ->
  read_bytes (w_mem wB) rxB 42 =
    read_bytes (fst (arp_build_request m (w_my_mac wA) (w_my_ip wA) txA (w_my_ip wB))) txA 42 ->
  let frame := arp_reply_frame (w_my_mac wB) (w_my_ip wB) (w_mem wB) rxB in
  exists wB',
    arp_process_received fuel rxB txB wB = Some (1, wB') /\
    wire (w_dev wB') = wire (w_dev wB) ++ [frame] /\
    (read_bytes mA rxA 42 = frame ->
     exists wA', arp_process_received fuel rxA txA (set_mem mA wA) = Some (2, wA') /\
       arp_table_search (w_arp_table wA') (w_my_ip wB) (replicate 6 0) = (1, w_my_mac wB)).
Proof.
  intros HA HB Hf HtA HalA HrB HtB Ho Hreq frame.
  rewrite arp_build_request_frame in Hreq by (first [done | apply HA | apply HB]).
  apply arp_request_fields in Hreq as (Hop & Htip & Hsrc & Hmid & Hsm & Hsi);
    [|apply HA | apply HA | apply HB].
  destruct (arp_request_answered fuel rxB txB wB HB HrB HtB Ho Hf) as (wB' & HrunB & _ & Hwire);
    [done | done |].
  exists wB'. split_and!; [exact HrunB | exact Hwire |]. clear HrunB Hwire.
  subst frame. unfold arp_reply_frame. rewrite Hsrc, Hmid, Hsm, Hsi. intros Hrep.
  destruct HA as [HmacA HipA HtabA], HB as [[HmB _] [HiB _] _].
  apply arp_reply_fields in Hrep as (Hop2 & Htip2 & Htm2 & Hsm2 & Hsi2);
    try done; try apply HmacA; try apply HipA.
  pose proof (arp_reply_learned fuel rxA txA (set_mem mA wA)) as Hl.
  unfold for_us, arp_op_byte in Hl. cbn [w_mem w_my_ip w_my_mac w_arp_table set_mem] in Hl.
  rewrite bool_decide_true, Hsm2, Hsi2 in Hl by done. rewrite Hl by (by try split). clear Hl.
  eexists. split; [done|]. cbn [w_arp_table set_arp_table set_mem].
  destruct (arp_new_entry_map (w_arp_table wA) (w_my_ip wB) (w_my_mac wB) HtabA HiB HmB) as [Hi Hc].
  rewrite arp_search_lookup by (done || apply Hi).
  destruct Hc as [[_ ->]|(_ & v & _ & ->)]; by rewrite lookup_insert_eq.
Qed.

End Handshake.

(** ** Time bound of arp_resolve_ip *)

Section Resolve.
Context `{EthDevSpec} {EC : EthClockSpec}.
Local Open Scope eth_scope.

(** Programs that return whenever the transmitter is idle, and leave it
    idle. *)
Definition returns {A} (c : M A) : Prop :=
  forall w, tx_idle (w_dev w) -> exists a w', c w = Some (a, w') /\ tx_idle (w_dev w').

Lemma returns_bind {A B} (c : M A) (k : A -> M B) :
  returns c -> (forall a, returns (k a)) -> returns (bind c k).
Proof.
  intros Hc Hk w Hi. unfold bind. destruct (Hc w Hi) as (a & w1 & -> & Hi1). by apply Hk.
Qed.
Lemma returns_ret {A} (a : A) : returns (ret a).
Proof. intros w Hi. by eexists _, _. Qed.
Lemma returns_gets {A} (f : world -> A) : returns (gets f).
Proof. intros w Hi. by eexists _, _. Qed.
Lemma returns_rdb a : returns (rdb a).
Proof. apply returns_gets. Qed.
Lemma returns_table f : returns (modify (fun w => set_arp_table (f w) w)).
Proof. intros w Hi. by eexists _, _. Qed.
Lemma returns_usecs : returns get_cpu_usecs.
Proof.
  intros w Hi. unfold get_cpu_usecs. pose proof (usecs_idle (w_dev w) Hi) as Hu. destruct (usecs (w_dev w)) as [t d']. by eexists _, _.
Qed.
Lemma returns_iord a : returns (eth_iord a).
Proof. intros w Hi. destruct (eth_iord_env a w) as (v & w' & Hr & He & _). exists v, w'. split; [done|]. by apply He. Qed.
(** Every write the library makes outside eth_mac_send keeps the transmitter
    idle: at most a receive descriptor is written where the transmit descriptor
    is, and it has length 0. *)
Lemma returns_iowr a v : cell a <> cell TX_BD_ADDR_BASE \/ Z.shiftr (u32 v) 16 <= 4 -> returns (eth_iowr a v).
Proof.
  intros Hv w Hi. unfold eth_iowr, modify. eexists _, _. split; [done|]. cbn [w_dev set_dev].
  destruct (decide (cell a = cell TX_BD_ADDR_BASE)) as [E|Hne]; [|by apply wr_idle].
  destruct Hv as [Hv|Hv]; [done|]. rewrite E. by apply wr_tx_short.
Qed.

(** Sending returns whatever the receive window is. *)
Lemma returns_send fuel tx len : (tx_latency < fuel)%nat -> 4 < len < 2 ^ 16 -> returns (eth_mac_send fuel tx len).
Proof.
  intros Hfuel Hlen w Hi. unfold eth_mac_send.
  destruct (wait_free_once fuel w) as (w1 & Hf & He & _); [lia|].
  unfold bind at 1. rewrite Hf. unfold bind, eth_iowr, modify. cbn [w_mem w_dev set_dev].
  destruct (tx_descriptor len ltac:(lia)) as (Hv1 & Hv2 & Hv3 & Hv4). rewrite Hv1.
  match goal with |- context [wait_done fuel 0 ?x] => set (w2 := x) end.
  set (d1 := reg_wr (cell INT_SOURCE_ADDR) (u32 1) (w_mem w1) (w_dev w1)).
  set (d2 := reg_wr (cell (TX_BD_ADDR_BASE + 4)) (u32 tx) (w_mem w1) d1).
  pose proof (wr_int_source (u32 1) (w_mem w1) (w_dev w1)) as (_ & _ & _ & Hi4). fold d1 in Hi4.
  pose proof (wr_tx_pointer (u32 tx) (w_mem w1) d1) as (_ & _ & _ & Hp4). fold d2 in Hp4.
  assert (Hid2 : tx_idle d2) by (apply wr_idle, wr_idle, (es_idle _ _ He), Hi; vm_compute; discriminate).
  pose proof (wr_tx_ready _ (w_mem w1) d2 Hid2 Hv2 Hv3 ltac:(lia)) as (_ & _ & _ & Hr).
  destruct (wait_done_ends tx_latency fuel w2 (Hr ltac:(by rewrite Hp4, Hi4)) Hfuel) as (w' & Hd & _ & _ & _ & Hid).
  by exists tt, w'.
Qed.
(** A frame of 42 bytes is built and sent. *)
Lemma returns_build_send {A} fuel f tx (k : M A) : (tx_latency < fuel)%nat -> (forall w, snd (f w) = 42) -> returns k ->
  returns (n <- build f ;; eth_mac_send fuel tx n ;; k).
Proof.
  intros Hfuel Hf Hk w Hi. unfold bind at 1, build. specialize (Hf w). destruct (f w) as [m' n]. cbn [snd] in Hf. subst n.
  apply (returns_bind _ _ (returns_send fuel tx 42 Hfuel ltac:(lia)) (fun _ => Hk)). done.
Qed.

(** [took lo hi w w']: the step from [w] to [w'] took at least [lo] cycles
    and at most [hi] device accesses. *)
Definition took (lo hi : Z) (w w' : world) : Prop :=
  now w + lo <= now w' <= now w + hi * max_cycles.

Definition costs {A} (lo hi : Z) (c : M A) : Prop :=
  forall w a w', c w = Some (a, w') -> took lo hi w w'.

Lemma max_cycles_pos (w : world) : 1 <= max_cycles.
Proof.
  destruct (eth_iord_time 0 w) as (v & w' & _ & Hw). lia.
Qed.

Lemma costs_weaken {A} lo hi lo' hi' (c : M A) :
  costs lo hi c -> lo' <= lo -> hi <= hi' -> costs lo' hi' c.
Proof.
  intros Hc Hl Hh w a w' Hr. specialize (Hc w a w' Hr). unfold took in *.
  pose proof (max_cycles_pos w). nia.
Qed.

Lemma costs_step {A B} l1 h1 lo hi (c : M A) (k : A -> M B) :
  costs l1 h1 c -> (forall a, costs (lo - l1) (hi - h1) (k a)) -> costs lo hi (bind c k).
Proof.
  intros Hc Hk w b w' Hr. unfold bind in Hr. destruct (c w) as [[a w1]|] eqn:E; [|done].
  specialize (Hc _ _ _ E). specialize (Hk _ _ _ _ Hr). unfold took in *. lia.
Qed.

(** A step that does not touch the device. *)
Lemma costs_pure {A} lo hi (c : M A) :
  (forall w a w', c w = Some (a, w') -> w_dev w' = w_dev w) -> lo <= 0 -> 0 <= hi -> costs lo hi c.
Proof.
  intros Hc Hl Hh w a w' Hr. unfold took, now. rewrite (Hc _ _ _ Hr).
  pose proof (max_cycles_pos w). nia.
Qed.

Lemma costs_iord a : costs 1 1 (eth_iord a).
Proof.
  intros w v w' Hr. destruct (eth_iord_time a w) as (v' & w1 & Hr' & Hw).
  rewrite Hr' in Hr. simplify_eq. unfold took. lia.
Qed.
Lemma costs_iowr a v : costs 0 1 (eth_iowr a v).
Proof.
  intros w u w' [= _ <-]. unfold took, now. cbn.
  pose proof (wr_cycles (cell a) (u32 v) (w_mem w) (w_dev w)). lia.
Qed.
Lemma costs_usecs : costs 0 1 get_cpu_usecs.
Proof.
  intros w v w' Hr. destruct (get_cpu_usecs_time w) as (w1 & Hr' & Hw).
  rewrite Hr' in Hr. simplify_eq. unfold took. lia.
Qed.
Lemma build_dev f w v w' : build f w = Some (v, w') -> w_dev w' = w_dev w.
Proof. unfold build. destruct (f w) as [m' len]. intros. by simplify_eq. Qed.

(** Bound the cost of a program from its parts. *)
Ltac cost :=
  repeat match goal with
  | |- costs _ _ (if ?b then _ else _) => destruct b
  | |- costs _ _ (bind _ _) => eapply costs_step; [first [apply costs_iord | apply costs_iowr
      | apply costs_usecs | solve [eauto 2]
      | apply (costs_pure 0 0); [intros ? ? ?; first [apply build_dev | by intros [= _ <-]] | lia | lia]] | intros]
  | |- costs _ _ (ret _) => apply costs_pure; [by intros ? ? ? [= _ <-]| |]
  | |- costs _ _ spin => by intros ? ? ?
  end; try lia.

Lemma costs_wait_free fuel : forall v, costs 0 (Z.of_nat fuel) (wait_free fuel v).
Proof.
  induction fuel as [|f IH]; intros v; cbn [wait_free]; cost.
  eapply costs_weaken; [apply IH | lia | lia].
Qed.

Lemma costs_wait_done fuel : forall v, costs 0 (Z.of_nat fuel) (wait_done fuel v).
Proof.
  induction fuel as [|f IH]; intros v; cbn [wait_done]; cost.
  eapply costs_weaken; [apply IH | lia | lia].
Qed.

Lemma costs_wait_rxb fuel : costs 0 (Z.of_nat fuel + 1) (wait_rxb fuel).
Proof.
  induction fuel as [|f IH]; cbn [wait_rxb]; cost.
  eapply costs_weaken; [apply IH | lia | lia].
Qed.

Lemma costs_wait_rxb_until fuel s t : costs 0 (2 * Z.of_nat fuel + 2) (wait_rxb_until fuel s t).
Proof.
  induction fuel as [|f IH]; cbn [wait_rxb_until]; cost.
  eapply costs_weaken; [apply IH | lia | lia].
Qed.

Lemma costs_send fuel tx len : costs 0 (2 * Z.of_nat fuel + 3) (eth_mac_send fuel tx len).
Proof.
  unfold eth_mac_send. eapply costs_step; [apply costs_wait_free | intros]. cost.
  eapply costs_weaken; [apply costs_wait_done | lia | lia].
Qed.

Lemma costs_receive fuel rx t : costs 1 (2 * Z.of_nat fuel + 10) (eth_mac_receive fuel rx t).
Proof.
  unfold eth_mac_receive. do 2 (eapply costs_step; [first [apply costs_iord | apply costs_iowr] | intros]).
  apply (costs_step 0 (2 * Z.of_nat fuel + 3)).
  - destruct (t =? 0).
    + eapply costs_step; [apply costs_wait_rxb | intros]. cost.
    + eapply costs_step; [apply costs_usecs|]. intros.
      eapply costs_weaken; [apply costs_wait_rxb_until | lia | lia].
  - intros got. cost.
Qed.

Lemma costs_process fuel rx tx :
  costs 0 (2 * Z.of_nat fuel + 3) (arp_process_received fuel rx tx).
Proof.
  unfold arp_process_received. pose proof (costs_send fuel). cost.
Qed.

Lemma costs_pass fuel rx tx tip :
  costs 1 (6 * Z.of_nat fuel + 16) (arp_resolve_pass fuel rx tx tip).
Proof.
  unfold arp_resolve_pass. pose proof (costs_send fuel). pose proof (costs_receive fuel).
  pose proof (costs_process fuel). cost.
Qed.

#[local] Hint Resolve returns_ret returns_gets returns_rdb returns_table returns_usecs returns_iord returns_iowr : core.

Ltac rets :=
  repeat match goal with
  | |- returns (bind (build _) _) => apply returns_build_send; [done|by intros ?|]
  | |- returns (bind _ _) => apply returns_bind; [|intros ?]
  | |- returns (if ?b then _ else _) => destruct b
  end; auto.

(** The handler and one pass return whenever the polls of the driver are
    enough. *)
Lemma returns_process fuel rx tx : (tx_latency < fuel)%nat ->
  returns (arp_process_received fuel rx tx).
Proof. intros Hf. unfold arp_process_received. rets. Qed.

(** Receiving leaves an idle transmitter idle. *)
Definition keeps_idle {A} (c : M A) : Prop :=
  forall w a w', tx_idle (w_dev w) -> c w = Some (a, w') -> tx_idle (w_dev w').
Lemma keeps_returns {A} (c : M A) : returns c -> keeps_idle c.
Proof. intros Hc w a w' Hi Hr. destruct (Hc w Hi) as (a1 & w1 & Hr1 & Hi1). congruence. Qed.
Lemma keeps_bind {A B} (c : M A) (k : A -> M B) : keeps_idle c -> (forall a, keeps_idle (k a)) -> keeps_idle (bind c k).
Proof.
  intros Hc Hk w b w' Hi Hr. unfold bind in Hr. destruct (c w) as [[a w1]|] eqn:E; [|done]. eapply Hk; [|done]. by eapply Hc.
Qed.
Lemma keeps_wait s t : forall fuel, keeps_idle (wait_rxb_until fuel s t).
Proof.
  induction fuel as [|f IH]; cbn [wait_rxb_until]; (apply keeps_bind; [by apply keeps_returns|intros v]);
    (destruct (_ =? 0); [|by apply keeps_returns]); (apply keeps_bind; [by apply keeps_returns|intros n]);
    (destruct (_ <=? _); [by apply keeps_returns|]); (done || by intros ? ? ?).
Qed.
Lemma keeps_wait_rxb : forall fuel, keeps_idle (wait_rxb fuel).
Proof.
  induction fuel as [|f IH]; cbn [wait_rxb]; (apply keeps_bind; [by apply keeps_returns|intros v]);
    (destruct (_ =? 0); [|by apply keeps_returns]); (done || by intros ? ? ?).
Qed.
Lemma rearm_short : Z.shiftr (u32 rx_bd_rearm) 16 <= 4.
Proof. vm_compute. discriminate. Qed.
(** The pointer of a receive descriptor is not where the transmit descriptor
    is. *)
Lemma rx_pointer_cell n : cell (RX_BD_ADDR_BASE n + 4) <> cell TX_BD_ADDR_BASE.
Proof.
  unfold cell, RX_BD_ADDR_BASE, TX_BD_ADDR_BASE, u32. rewrite !Z.shiftr_div_pow2 by lia. change (0x400 mod 2 ^ 32 / 2 ^ 2) with 256.
  intros E. Z.to_euclidean_division_equations. lia.
Qed.
Lemma receive_keeps_idle fuel rx t : keeps_idle (eth_mac_receive fuel rx t).
Proof.
  unfold eth_mac_receive. apply keeps_bind; [by apply keeps_returns|intros n].
  apply keeps_bind; [apply keeps_returns, returns_iowr; left; apply rx_pointer_cell|intros _].
  apply keeps_bind.
  - destruct (t =? 0); (apply keeps_bind; [|intros ?]); try (by apply keeps_returns); [apply keeps_wait_rxb|apply keeps_wait].
  - intros []; [|by apply keeps_returns]. apply keeps_bind; [apply keeps_returns, returns_iowr; left; vm_compute; discriminate|intros _].
    apply keeps_bind; [by apply keeps_returns|intros n']. apply keeps_bind; [|intros _; by apply keeps_returns].
    apply keeps_returns, returns_iowr. right. apply rearm_short.
Qed.
Lemma returns_receive fuel rx :
  100000 + 2 * max_cycles + 1 < 2 ^ 64 -> 80 * 100000 <= Z.of_nat fuel ->
  returns (eth_mac_receive fuel rx 100000).
Proof.
  intros Hb Hf w Hi. destruct (receive_ends fuel rx 100000 w) as (v & w' & Hr & _);
    [lia | lia | lia |]. exists v, w'. split; [done|]. revert Hi Hr. apply receive_keeps_idle.
Qed.

(** A pass returns 0 or 1, and 1 only with the address in the table. *)
Lemma returns_pass fuel rx tx tip :
  (tx_latency < fuel)%nat -> 100000 + 2 * max_cycles + 1 < 2 ^ 64 ->
  80 * 100000 <= Z.of_nat fuel -> returns (arp_resolve_pass fuel rx tx tip).
Proof.
  intros Hf Hb Hf2. pose proof (returns_process fuel). pose proof (returns_receive fuel).
  unfold arp_resolve_pass. rets.
Qed.

Lemma arp_pass_result fuel rx tx tip w r w' :
  arp_resolve_pass fuel rx tx tip w = Some (r, w') ->
  r = 0 \/ (r = 1 /\ fst (arp_table_search (w_arp_table w') tip (replicate 6 0)) = 1).
Proof.
  unfold arp_resolve_pass, bind, gets, ret. intros Hr.
  repeat case_match; simplify_eq; auto. right. split; [done|]. by apply Z.eqb_eq.
Qed.

Lemma arp_resolve_loop_returns fuel rx tx tip start timeout :
  (tx_latency < fuel)%nat -> 80 * 100000 <= Z.of_nat fuel ->
  let pass := (6 * Z.of_nat fuel + 18) * max_cycles in
  timeout + pass + 100000 < 2 ^ 64 -> forall n w, tx_idle (w_dev w) ->
  start <= now w <= start + 80 * timeout + pass ->
  80 * timeout <= now w - start + Z.of_nat n ->
  exists r w', arp_resolve_loop n fuel rx tx tip (u64 (start / 80)) timeout w = Some (r, w') /\
    (r = 0 /\ timeout <= now w' / 80 - start / 80 \/
     r = 1 /\ fst (arp_table_search (w_arp_table w') tip (replicate 6 0)) = 1).
Proof.
  intros Hf Hf2 pass Hbig. induction n as [|n IH]; intros w Hi Hw Hn; cbn [arp_resolve_loop];
    unfold bind at 1; pose proof (max_cycles_pos w);
    (destruct (returns_pass fuel rx tx tip Hf ltac:(nia) Hf2 w Hi) as (ans & w1 & Hp & Hi1));
    rewrite Hp; pose proof (costs_pass fuel rx tx tip w ans w1 Hp) as Hc; unfold took in Hc;
    destruct (arp_pass_result _ _ _ _ _ _ _ Hp) as [-> | [-> Hs]];
    (try (exists 1, w1; split; [reflexivity | by right]));
    change (0 =? 0) with true; cbv iota; unfold bind;
    destruct (get_cpu_usecs_time w1) as (w2 & Hu & Hw2); pose proof (keeps_returns _ returns_usecs w1 _ w2 Hi1 Hu) as Hi2; rewrite Hu;
    pose proof (Z.div_mod start 80); pose proof (Z.mod_pos_bound start 80);
    pose proof (Z.div_mod (now w1) 80); pose proof (Z.mod_pos_bound (now w1) 80);
    pose proof (Z.div_le_mono (now w1) (now w2) 80);
    rewrite u64_sub, (u64_small (_ - _)) by nia;
    destruct (Z.ltb_spec (now w1 / 80 - start / 80) timeout);
    try (exists 0, w2; split; [reflexivity | left; lia]).
  - lia.
  - apply IH; [done|nia|nia].
Qed.

(** arp_resolve_ip returns.  On a controller that transmits, is idle, and whose
    accesses take time, [80 * timeout] passes are enough, the result is 0
    or 1, 0 only after the timeout has elapsed, and 1 only if the table
    holds the MAC address of the target. *)
Theorem arp_resolve_ip_returns n fuel rx tx tip timeout w :
  (tx_latency < fuel)%nat -> 80 * 100000 <= Z.of_nat fuel -> 0 <= timeout ->
  timeout + (6 * Z.of_nat fuel + 18) * max_cycles + 100000 < 2 ^ 64 ->
  80 * timeout <= Z.of_nat n -> tx_idle (w_dev w) ->
  exists r w', arp_resolve_ip n fuel rx tx tip timeout w = Some (r, w') /\
    (r = 0 /\ timeout <= now w' / 80 - now w / 80 \/
     r = 1 /\ fst (arp_table_search (w_arp_table w') tip (replicate 6 0)) = 1).
Proof.
  intros Hf Hf2 Ht Hbig Hn Hi. unfold arp_resolve_ip, bind at 1.
  destruct (get_cpu_usecs_time w) as (w1 & Hu & Hw1). pose proof (max_cycles_pos w).
  pose proof (keeps_returns _ returns_usecs w _ w1 Hi Hu) as Hi1. rewrite Hu.
  apply (arp_resolve_loop_returns fuel rx tx tip (now w)); [done | done | done | done | nia | lia].
Qed.

End Resolve.

(** ** Concrete hosts *)

(** A host with the executable controller after boot. *)
Definition sim_host (m : mem) (mac ip : list Z) : @world SimDev :=
  @mk_world SimDev m sim_init arp_table_boot mac ip 0x1111.

Lemma sim_host_wf m mac ip : byte_array 6 mac -> byte_array 4 ip -> wf_world (sim_host m mac ip).
Proof. intros. split; [done | done | apply arp_boot_inv]. Qed.

Lemma sim_host_tx_ok m mac ip tx n :
  1536 <= tx -> 0 <= n -> tx + n <= 2 ^ 32 -> @tx_ok SimDev SimDevSpec (sim_host m mac ip) tx n.
Proof.
  intros. split; [split_and!; lia|]. split; [|done]. intros i Hi (k & Hk & He).
  change (sim_rxptr _) with 0 in He. rewrite !u32_small in He by lia. lia.
Qed.

Lemma my_mac_array : byte_array 6 my_mac.
Proof. bytes. Qed.
Lemma my_ip_array : byte_array 4 my_ip.
Proof. bytes. Qed.

(** Another host. *)
Definition peer_mac : list Z := [2; 0; 0; 0; 0; 9].
Definition peer_ip : list Z := [10; 0; 0; 9].

Lemma peer_mac_array : byte_array 6 peer_mac.
Proof. bytes. Qed.
Lemma peer_ip_array : byte_array 4 peer_ip.
Proof. bytes. Qed.

(** The buffer of a host that received the peer's request at address 0. *)
Definition request_mem : mem := store_bytes ∅ 0 (arp_request_frame peer_mac peer_ip my_ip).

Lemma arp_process_received_correct_witness :
  exists r w', @arp_process_received SimDev 1 0 2048 (sim_host request_mem my_mac my_ip)
    = Some (r, w') /\ r = 1 /\ w_arp_table w' = arp_table_boot /\
    sim_wire (@w_dev SimDev w') = [peer_mac ++ my_mac ++ [8; 6; 0; 1; 8; 0; 6; 4; 0; 2] ++
      my_mac ++ my_ip ++ peer_mac ++ peer_ip].
Proof.
  destruct (@arp_process_received_correct SimDev SimDevSpec 1 0 2048
    (sim_host request_mem my_mac my_ip)) as (r & w' & Hr & Hc).
  - apply sim_host_wf; [apply my_mac_array | apply my_ip_array].
  - split_and!; lia.
  - apply sim_host_tx_ok; lia.
  - right; lia.
  - cbn; lia.
  - exists r, w'. split; [exact Hr|].
    rewrite bool_decide_true in Hc by (vm_compute; reflexivity).
    change (arp_op_byte _ _ =? 1) with true in Hc. exact Hc.
Defined.

(** The reply that host transmits. *)
Definition reply_bytes : list Z :=
  peer_mac ++ my_mac ++ [8; 6; 0; 1; 8; 0; 6; 4; 0; 2] ++ my_mac ++ my_ip ++ peer_mac ++ peer_ip.

Lemma arp_handshake_witness :
  exists wB',
    @arp_process_received SimDev 1 0 2048 (sim_host request_mem my_mac my_ip) = Some (1, wB') /\
    sim_wire (@w_dev SimDev wB') = [reply_bytes] /\
    exists wA', @arp_process_received SimDev 1 0 2048
        (set_mem (store_bytes ∅ 0 reply_bytes) (sim_host ∅ peer_mac peer_ip)) = Some (2, wA') /\
      arp_table_search (w_arp_table wA') my_ip (replicate 6 0) = (1, my_mac).
Proof.
  destruct (@arp_handshake SimDev SimDevSpec 1 ∅ 2048 0 0 2048
    (sim_host ∅ peer_mac peer_ip) (sim_host request_mem my_mac my_ip)
    (store_bytes ∅ 0 reply_bytes)) as (wB' & Hr & Hw & Hl).
  - apply sim_host_wf; [apply peer_mac_array | apply peer_ip_array].
  - apply sim_host_wf; [apply my_mac_array | apply my_ip_array].
  - cbn; lia.
  - split_and!; lia.
  - reflexivity.
  - split_and!; lia.
  - apply sim_host_tx_ok; lia.
  - right; lia.
  - vm_compute. reflexivity.
  - exists wB'. split; [exact Hr|]. split; [exact Hw|]. apply Hl. vm_compute. reflexivity.
Defined.

Lemma arp_resolve_ip_returns_witness :
  exists r w', @arp_resolve_ip SimDev (Z.to_nat 8000) (Z.to_nat 8000001) 0 2048 peer_ip 100
    (sim_host ∅ my_mac my_ip) = Some (r, w') /\
    (r = 0 /\ 100 <= @now SimDev SimClock w' / 80 - 0 \/
     r = 1 /\ fst (arp_table_search (w_arp_table w') peer_ip (replicate 6 0)) = 1).
Proof.
  apply (@arp_resolve_ip_returns SimDev SimDevSpec SimClock); rewrite ?Z2Nat.id by lia.
  - change tx_latency with 0%nat. lia.
  - lia.
  - lia.
  - reflexivity.
  - lia.
  - reflexivity.
Defined.
