(* ===== verification/Icmp.v ===== *)
(** Icmp: answering pings, c/ethlib/icmp.c.

    The reply is built from the request in the buffer; the theorems give
    the transmitted frame byte by byte, show that its IP checksum is still
    the request's, and say exactly when its ICMP checksum is valid. *)

From stdpp Require Import base numbers list gmap.
From S2P Require Import Prelude EthIO World EthMac Mac Checksum Ipv4 Arp ArpProto.

Definition icmp_get_type (m : mem) (pkt_addr : Z) : Z := u8 (mem_iord_byte m (pkt_addr + 34)).
Definition icmp_get_code (m : mem) (pkt_addr : Z) : Z := u8 (mem_iord_byte m (pkt_addr + 35)).
Definition icmp_get_quench (m : mem) (pkt_addr : Z) : Z := mem_iord m (pkt_addr + 38).

(** ~((~checksum) - 0x0800), computed in int and stored in a short. *)
Definition ping_checksum (checksum : Z) : Z :=
  u16 (Z.lnot (Z.lnot checksum - 0x0800)).

Definition icmp_build_ping_reply (m : mem) (my_mac my_ip : list Z) (rx_addr tx_addr : Z) : mem * Z :=
  let frame_length :=
    14 + Z.lor (Z.shiftl (mem_iord_byte m (rx_addr + 16)) 8) (mem_iord_byte m (rx_addr + 17)) in
  let m := copy_frame m rx_addr tx_addr (Z.to_nat frame_length) in
  let m := for_up 6 0 1 (swap_body (tx_addr + 6) tx_addr (at_ my_mac)) m in
  let m := for_up 4 0 1 (swap_body (tx_addr + 26) (tx_addr + 30) (at_ my_ip)) m in
  let m := mem_iowr_byte m (tx_addr + 34) 0x00 in
  let checksum := u16 (Z.lor (Z.shiftl (mem_iord_byte m (tx_addr + 36)) 8)
                             (mem_iord_byte m (tx_addr + 37))) in
  let checksum := ping_checksum checksum in
  let m := mem_iowr_byte m (tx_addr + 36) (Z.shiftr checksum 8) in
  let m := mem_iowr_byte m (tx_addr + 37) (Z.land checksum 0xff) in
  (m, frame_length).

Section Handler.
Context `{EthDev}.
Local Open Scope eth_scope.

Definition icmp_process_received (fuel : nat) (rx_addr tx_addr : Z) : M Z :=
  type <- gets (fun w => icmp_get_type (w_mem w) rx_addr) ;;
  if type =? 0x08 then
    destination_ip <- gets (fun w => ipv4_get_destination_ip (w_mem w) rx_addr) ;;
    ip <- gets w_my_ip ;;
    if c_true (ipv4_compare_ip destination_ip ip) then
      frame_length <- build (fun w =>
        icmp_build_ping_reply (w_mem w) (w_my_mac w) (w_my_ip w) rx_addr tx_addr) ;;
      eth_mac_send fuel tx_addr frame_length ;;
      ret 1
    else ret 0
  else ret 0.
End Handler.

(** ** The reply frame *)

Lemma ping_checksum_val c : ping_checksum c = (c + 2048) mod 65536.
Proof. unfold ping_checksum, u16, Z.lnot. f_equal. lia. Qed.

(** The length of the frame and the two fields of the request. *)
Definition ip_length (m : mem) (a : Z) : Z :=
  256 * mem_iord_byte m (a + 16) + mem_iord_byte m (a + 17).
Definition icmp_checksum (m : mem) (a : Z) : Z :=
  256 * mem_iord_byte m (a + 36) + mem_iord_byte m (a + 37).

(** The reply to the request in the buffer at [rx], [n] bytes long. *)
Definition ping_reply_frame (mac ip : list Z) (m : mem) (rx n : Z) : list Z :=
  let c := (icmp_checksum m rx + 2048) mod 65536 in
  read_bytes m (rx + 6) 6 ++ mac ++ read_bytes m (rx + 12) 14 ++ ip ++ read_bytes m (rx + 26) 4 ++
  [0] ++ read_bytes m (rx + 35) 1 ++ [c / 256; c mod 256] ++ read_bytes m (rx + 38) (n - 38).

Section Frame.
Context (mac ip : list Z) (Hmac : byte_array 6 mac) (Hip : byte_array 4 ip).

Lemma icmp_reply_frame m rx tx :
  let n := 14 + ip_length m rx in
  38 <= n -> in_space rx n -> in_space tx n -> tx <= rx \/ rx + n <= tx ->
  let r := icmp_build_ping_reply m mac ip rx tx in
  snd r = n /\ read_bytes (fst r) tx n = ping_reply_frame mac ip m rx n.
Proof.
  intros n Hn [Hr1 [_ Hr2]] [Ht1 [_ Ht2]] Ho r. subst r.
  unfold icmp_build_ping_reply, ping_reply_frame.
  rewrite lor_bytes by apply iord_byte_range. fold (ip_length m rx). fold n. cbn [fst snd].
  split; [done|]. clearbody n.
  set (m1 := copy_frame m rx tx (Z.to_nat n)).
  assert (Hc : forall b, 0 <= b < 2 ^ 32 -> mem_iord_byte m1 b =
    if (tx <=? b) && (b <? tx + n) then mem_iord_byte m (rx + (b - tx)) else mem_iord_byte m b).
  { intros b Hb. unfold m1. rewrite rd_copy_frame by (unfold in_space; lia).
    by rewrite Z2Nat.id by lia. }
  clearbody m1.
  set (m2 := mem_iowr_byte _ (tx + 34) 0).
  assert (Hck : u16 (Z.lor (Z.shiftl (mem_iord_byte m2 (tx + 36)) 8) (mem_iord_byte m2 (tx + 37)))
                = icmp_checksum m rx).
  { rewrite lor_bytes by apply iord_byte_range. unfold m2, icmp_checksum. rd_frame.
    rewrite !Hc by lia. zdec. replace (rx + (tx + 36 - tx)) with (rx + 36) by lia.
    replace (rx + (tx + 37 - tx)) with (rx + 37) by lia. apply u16_small.
    pose proof (iord_byte_range m (rx + 36)). pose proof (iord_byte_range m (rx + 37)). lia. }
  rewrite Hck, ping_checksum_val. set (c := (icmp_checksum m rx + 2048) mod 65536).
  assert (Hcr : 0 <= c < 65536) by (apply Z.mod_pos_bound; lia).
  clearbody c. subst m2.
  replace n with (6 + (6 + (14 + (4 + (4 + (1 + (1 + (2 + (n - 38))))))))) at 1 by lia.
  rewrite !read_bytes_app by lia.
  repeat apply f_equal2; first
    [apply read_bytes_list; [by destruct Hmac as [-> _] | intros i Hi; rd_frame; rewrite (at_u8 6) by done; f_equal; lia]
    |apply read_bytes_list; [by destruct Hip as [-> _] | intros i Hi; rd_frame; rewrite (at_u8 4) by done; f_equal; lia]
    |apply read_bytes_ext; intros i Hi; rd_frame; rewrite Hc by lia; zdec; f_equal; lia
    |each_byte; rd_frame].
  - done.
  - rewrite Z.shiftr_div_pow2 by lia. apply u8_small.
    split; [apply Z.div_pos | apply Z.div_lt_upper_bound]; lia.
  - by rewrite land_255, u8_u8.
Qed.
End Frame.

(** ** Checksums of the reply *)

Definition icmp_valid (frame : list Z) : Prop := oc (wsum (drop 34 frame)) = 65535.

Lemma ping_reply_icmp_bytes mac ip m rx n :
  byte_array 6 mac -> byte_array 4 ip -> 38 <= n ->
  let c := (icmp_checksum m rx + 2048) mod 65536 in
  drop 34 (ping_reply_frame mac ip m rx n) =
    [0; mem_iord_byte m (rx + 35); c / 256; c mod 256] ++ read_bytes m (rx + 38) (n - 38) /\
  drop 34 (read_bytes m rx n) =
    [mem_iord_byte m (rx + 34); mem_iord_byte m (rx + 35);
     mem_iord_byte m (rx + 36); mem_iord_byte m (rx + 37)] ++ read_bytes m (rx + 38) (n - 38).
Proof.
  intros [Hm _] [Hi _] Hn c. subst c. unfold ping_reply_frame.
  destruct (length_6 _ Hm) as (?&?&?&?&?&?& ->). destruct (length_4 _ Hi) as (?&?&?&?& ->).
  split; [by rewrite read_bytes_1|].
  replace n with (34 + (0 + 1 + 1 + 1 + 1 + (n - 38))) at 1 by lia.
  rewrite read_bytes_app by lia.
  rewrite drop_app_length' by (by rewrite read_bytes_length).
  rewrite (read_bytes_app _ _ (0 + 1 + 1 + 1 + 1)), !read_bytes_S, read_bytes_nil by lia.
  cbn [app]. repeat (apply f_equal2; [f_equal; lia|]). f_equal. lia.
Qed.

(** The IP headers of both frames have the same sum. *)
Lemma ping_reply_ip_bytes mac ip m rx n :
  byte_array 6 mac -> byte_array 4 ip ->
  wsum (take 20 (drop 14 (ping_reply_frame mac ip m rx n))) =
  wsum (read_bytes m (rx + 14) 12) + (wsum ip + wsum (read_bytes m (rx + 26) 4)).
Proof.
  intros [Hm _] [Hi _]. unfold ping_reply_frame.
  change 14 with (2 + 12) at 1. rewrite (read_bytes_app m (rx + 12) 2 12) by lia.
  replace (rx + 12 + 2) with (rx + 14) by lia.
  rewrite <- !app_assoc. do 2 rewrite app_assoc.
  rewrite drop_app_length' by (by rewrite !length_app, !read_bytes_length, Hm).
  do 2 rewrite app_assoc.
  rewrite take_app_length' by (by rewrite !length_app, !read_bytes_length, Hi).
  rewrite <- app_assoc, !wsum_app; [done | |].
  - rewrite Hi. by exists 2%nat.
  - rewrite read_bytes_length. by exists 6%nat.
Qed.

Lemma request_ip_bytes m rx n : 34 <= n ->
  wsum (take 20 (drop 14 (read_bytes m rx n))) =
  wsum (read_bytes m (rx + 14) 12) + (wsum (read_bytes m (rx + 26) 4) + wsum (read_bytes m (rx + 30) 4)).
Proof.
  intros Hn. change 20%nat with (Z.to_nat 20). change 14%nat with (Z.to_nat 14).
  rewrite <- read_bytes_slice by lia. change 20 with (12 + (4 + 4)).
  rewrite !read_bytes_app, !wsum_app by (lia || (rewrite read_bytes_length; by exists 2%nat) ||
    (rewrite read_bytes_length; by exists 6%nat)).
  replace (rx + 14 + 12) with (rx + 26) by lia. by replace (rx + 26 + 4) with (rx + 30) by lia.
Qed.

(** The sums of a valid request with checksum [c] and of the reply. *)
Lemma ping_valid_arith code c r :
  0 <= code -> 0 <= r -> 0 <= c < 65536 ->
  oc (256 * 8 + code + (c + r)) = 65535 ->
  oc (256 * 0 + code + ((c + 2048) mod 65536 + r)) = 65535 <-> c < 0xF800.
Proof.
  intros Hcode Hr Hc. pose proof (Z.mod_pos_bound (c + 2048) 65536).
  rewrite !oc_full by lia. intros [Hp Hm].
  destruct (Z.ltb_spec c 0xF800) as [Hlt|Hge].
  - rewrite (Z.mod_small (c + 2048)) by lia. split; [done|]. intros _. split; [lia|].
    rewrite <- Hm. f_equal. lia.
  - replace ((c + 2048) mod 65536) with (c + 2048 - 65536)
      by (apply Z.mod_unique with 1; lia).
    split; [|lia]. intros [_ Hz]. exfalso.
    pose proof (Z.div_mod (256 * 8 + code + (c + r)) 65535).
    pose proof (Z.div_mod (256 * 0 + code + (c + 2048 - 65536 + r)) 65535). lia.
Qed.

(** The checksums of a ping reply.  The IP header checksum stays valid,
    since our address and the requester's only change places; the ICMP
    checksum, which the code updates by adding 0x0800 without an
    end-around carry, is valid for a valid request exactly when the
    request's checksum field is below 0xF800. *)
Theorem ping_reply_checksums mac ip m rx :
  let n := 14 + ip_length m rx in
  byte_array 6 mac -> byte_array 4 ip -> 38 <= n < 65536 ->
  read_bytes m (rx + 30) 4 = ip -> mem_iord_byte m (rx + 34) = 8 ->
  icmp_valid (read_bytes m rx n) ->
  (ip_valid (ping_reply_frame mac ip m rx n) <-> ip_valid (read_bytes m rx n)) /\
  (icmp_valid (ping_reply_frame mac ip m rx n) <-> icmp_checksum m rx < 0xF800).
Proof.
  intros n Hmac Hip Hn Hdst Htype Hvalid. split.
  - unfold ip_valid. rewrite (ping_reply_ip_bytes mac ip m rx n), (request_ip_bytes m rx n) by (done || lia).
    by rewrite Hdst, (Z.add_comm (wsum ip)).
  - destruct (ping_reply_icmp_bytes mac ip m rx n Hmac Hip ltac:(lia)) as [Hb Hq].
    unfold icmp_valid in *. rewrite Hb. rewrite Hq in Hvalid. clear Hb Hq.
    rewrite Htype in Hvalid. cbn [app wsum] in *.
    destruct (wsum_range (read_bytes m (rx + 38) (n - 38))) as [Hw _]; [apply read_bytes_array|].
    pose proof (iord_byte_range m (rx + 35)). pose proof (iord_byte_range m (rx + 36)).
    pose proof (iord_byte_range m (rx + 37)).
    rewrite div_mod_256. unfold icmp_checksum. set (c := 256 * mem_iord_byte m (rx + 36) + _).
    assert (Hc : 256 * mem_iord_byte m (rx + 36) + mem_iord_byte m (rx + 37) = c) by done.
    assert (0 <= c < 65536) by lia. rewrite Hc in Hvalid. clearbody c.
    rewrite ping_valid_arith; [done | lia | lia | lia | exact Hvalid].
Qed.

(** A ping request from the peer at buffer address 0: IP length 28. *)
Definition ping_bytes : list Z :=
  my_mac ++ peer_mac ++ [8; 0; 0x45; 0; 0; 28; 0; 1; 0; 0; 64; 1; 0; 0] ++ peer_ip ++ my_ip ++
  [8; 0; 0xF7; 0xFE; 0; 0; 0; 1].
Definition ping_mem : mem := store_bytes ∅ 0 ping_bytes.

Lemma ping_reply_checksums_witness :
  (ip_valid (ping_reply_frame my_mac my_ip ping_mem 0 42) <-> ip_valid (read_bytes ping_mem 0 42)) /\
  (icmp_valid (ping_reply_frame my_mac my_ip ping_mem 0 42) <-> icmp_checksum ping_mem 0 < 0xF800).
Proof.
  apply (ping_reply_checksums my_mac my_ip ping_mem 0).
  - apply my_mac_array.
  - apply my_ip_array.
  - vm_compute. split; [discriminate | reflexivity].
  - vm_compute. reflexivity.
  - vm_compute. reflexivity.
  - vm_compute. reflexivity.
Defined.

(** ** The receive handler *)

Section Received.
Context `{EthDevSpec}.

(** A ping request for us. *)
Definition ping_for_us (w : world) (rx : Z) : bool :=
  (mem_iord_byte (w_mem w) (rx + 34) =? 8) &&
  bool_decide (read_bytes (w_mem w) (rx + 30) 4 = w_my_ip w).

(** icmp_process_received on every branch.  A ping request for our IP
    address is answered: the handler returns 1 after transmitting the
    reply frame, of the same length, with the MAC and IP addresses of
    sender and receiver exchanged, type 0 and the updated checksum; any
    other packet is ignored with result 0 and nothing changed. *)
Theorem icmp_process_received_correct fuel rx tx w :
  let n := 14 + ip_length (w_mem w) rx in
  wf_world w -> 38 <= n < 65536 -> in_space rx n -> tx_ok w tx n -> tx <= rx \/ rx + n <= tx ->
  (tx_latency < fuel)%nat ->
  exists r w', icmp_process_received fuel rx tx w = Some (r, w') /\
    if ping_for_us w rx then
      r = 1 /\ w_arp_table w' = w_arp_table w /\
      wire (w_dev w') = wire (w_dev w) ++
        [ping_reply_frame (w_my_mac w) (w_my_ip w) (w_mem w) rx n]
    else r = 0 /\ w' = w.
Proof.
  intros n Hw Hn Hrx (Htx & Hwin & Hid) Ho Hf.
  unfold icmp_process_received, ping_for_us, bind, gets, icmp_get_type, ipv4_get_destination_ip.
  rewrite u8_small by apply iord_byte_range.
  destruct (mem_iord_byte (w_mem w) (rx + 34) =? 8); [|by exists 0, w]. cbn [andb].
  rewrite get_bytes_read, ipv4_compare_eq by (rewrite ?read_bytes_length; first [done | apply Hw]).
  case_bool_decide as Hdst; [|by exists 0, w]. change (c_true (c_bool true)) with true. cbv iota.
  destruct (icmp_reply_frame _ _ (ww_mac w Hw) (ww_ip w Hw) (w_mem w) rx tx) as [Hlen Hfr]; try done.
  { fold n; lia. }
  fold n in Hlen, Hfr. clearbody n.
  unfold build. destruct (icmp_build_ping_reply _ _ _ _ _) as [m1 len]. cbn [fst snd] in *. subst len.
  assert (Htx2 : 0 <= tx < 2 ^ 32) by (unfold in_space in Htx; lia).
  destruct (eth_mac_send_spec fuel tx n (set_mem m1 w) Htx2 ltac:(lia) Hf Hid Hwin)
    as (w' & -> & He & _ & Hwire).
  exists 1, w'. split_and!; [done | done | by apply He |].
  rewrite Hwire. cbn [w_dev set_mem w_mem]. by rewrite Hfr.
Qed.

End Received.

Lemma icmp_process_received_correct_witness :
  exists r w', @icmp_process_received SimDev 1 0 2048 (sim_host ping_mem my_mac my_ip) = Some (r, w') /\
    r = 1 /\ w_arp_table w' = arp_table_boot /\
    sim_wire (@w_dev SimDev w') = [] ++ [ping_reply_frame my_mac my_ip ping_mem 0 42].
Proof.
  destruct (@icmp_process_received_correct SimDev SimDevSpec 1 0 2048
    (sim_host ping_mem my_mac my_ip)) as (r & w' & Hr & Hc).
  - apply sim_host_wf; [apply my_mac_array | apply my_ip_array].
  - vm_compute. split; [discriminate | reflexivity].
  - vm_compute. split_and!; discriminate.
  - apply sim_host_tx_ok; vm_compute; discriminate.
  - right. vm_compute. discriminate.
  - cbn; lia.
  - exists r, w'. split; [exact Hr|]. exact Hc.
Defined.
