(* ===== verification/Udp.v ===== *)
(** Udp: the UDP layer, c/ethlib/udp.c.

    Fields of a received packet, the checksum over the pseudo header, and
    the functions that build and send a packet.  The theorems give the
    transmitted frame byte by byte and show that a receiver running this
    code accepts it and reads back what was sent. *)

From stdpp Require Import base numbers list gmap.
From S2P Require Import Prelude EthIO World EthMac Mac Checksum Ipv4 Arp ArpProto Icmp.

Definition udp_get_source_port (m : mem) (pkt_addr : Z) : Z :=
  u16 (Z.land (mem_iord m (pkt_addr + 32)) 0x0000FFFF).
Definition udp_get_destination_port (m : mem) (pkt_addr : Z) : Z :=
  u16 (Z.shiftr (mem_iord m (pkt_addr + 36)) 16).
Definition udp_get_packet_length (m : mem) (pkt_addr : Z) : Z :=
  u16 (Z.land (mem_iord m (pkt_addr + 36)) 0x0000FFFF).
Definition udp_get_checksum (m : mem) (pkt_addr : Z) : Z :=
  u16 (Z.shiftr (mem_iord m (pkt_addr + 40)) 16).
Definition udp_get_data_length (m : mem) (pkt_addr : Z) : Z :=
  u16 (udp_get_packet_length m pkt_addr - 8).

(** The first [data_length] elements of the caller's array. *)
Definition udp_get_data (m : mem) (pkt_addr data_length : Z) : list Z :=
  get_bytes m (pkt_addr + 42) data_length.

(** iphead_t (ipv4.h), udphead_t and udp_t (udp.h); [data] is the buffer
    the pointer refers to. *)
Record iphead_t := mk_iphead {
  ver_headlen : Z; dscp_ecn : Z; length_ : Z; identification : Z; flags_fragmentoff : Z;
  ttl : Z; protocol : Z; head_checksum : Z; source_ip : list Z; destination_ip : list Z }.
Record udphead_t := mk_udphead {
  source_port : Z; destination_port : Z; data_length_ : Z; checksum_ : Z }.
Record udp_t := mk_udp { ip_head : iphead_t; udp_head : udphead_t; udp_data : list Z }.

(** sizeof(udphead_t) is 8. *)
Definition udp_build_packet (ipv4_id : Z) (packet : udp_t) (src_ip dst_ip : list Z)
    (src_port dst_port : Z) (data : list Z) (data_length : Z) : udp_t :=
  mk_udp
    (mk_iphead 0x45 0x00 (u16 (20 + 8 + data_length)) ipv4_id 0x4000 0x40 0x11 0x0
       (map (at_ src_ip) (seqZ 0 4)) (map (at_ dst_ip) (seqZ 0 4)))
    (mk_udphead src_port dst_port data_length 0x0)
    (for_up (Z.to_nat data_length) 0 1 (fun i b => <[Z.to_nat i := at_ data i]> b)
       (udp_data packet)).

(** ** Checksum *)

(** The even length that is summed, and the padding written for it. *)
Definition udp_corrected (udp_length : Z) : Z :=
  if Z.land udp_length 0x1 =? 0 then udp_length else u16 (udp_length + 1).
Definition udp_pad (m : mem) (pkt_addr udp_length : Z) : mem :=
  if Z.land udp_length 0x1 =? 0 then m else mem_iowr_byte m (pkt_addr + udp_length + 34) 0x00.

(** The number of iterations of for (i = 0; i < n; i = i + 2). *)
Definition steps2 (n : Z) : nat := Z.to_nat ((n + 1) / 2).

(** The pseudo header: both addresses, then 0x0011 and the length. *)
Definition udp_pseudo (m : mem) (pkt_addr udp_length checksum : Z) : Z :=
  let checksum := for_up 2 0 2 (fun i c =>
    let c := add_word m (pkt_addr + 26 + i) (pkt_addr + 27 + i) c in
    add_word m (pkt_addr + 30 + i) (pkt_addr + 31 + i) c) checksum in
  u32 (checksum + 0x0011 + udp_length).

Definition udp_compute_checksum (m : mem) (pkt_addr : Z) : mem * Z :=
  let udp_length := u16 (Z.land (mem_iord m (pkt_addr + 36)) 0xFFFF) in
  let corrected_length := udp_corrected udp_length in
  let m := udp_pad m pkt_addr udp_length in
  let checksum := for_up (steps2 corrected_length) 0 2
    (fun i c => add_word m (pkt_addr + 34 + i) (pkt_addr + 35 + i) c) 0 in
  let checksum := u32 (checksum - Z.shiftl (mem_iord_byte m (pkt_addr + 40)) 8 +
                       Z.land (mem_iord_byte m (pkt_addr + 41)) 0xFF) in
  let checksum := udp_pseudo m pkt_addr udp_length checksum in
  (m, u16 (finish checksum)).

Definition udp_verify_checksum (m : mem) (pkt_addr : Z) : mem * Z :=
  let udp_length := u16 (Z.land (mem_iord m (pkt_addr + 36)) 0xFFFF) in
  let corrected_length := udp_corrected udp_length in
  let m := udp_pad m pkt_addr udp_length in
  let checksum := for_up (steps2 corrected_length) 0 2
    (fun i c => add_word m (pkt_addr + 34 + i) (pkt_addr + 35 + i) c) 0 in
  let checksum := udp_pseudo m pkt_addr udp_length checksum in
  (m, if finish checksum =? 0 then 1 else 0).

(** ** Sending *)

(** (b0 << 24) | (b1 << 16) | (b2 << 8) | b3 *)
Definition word4 (b0 b1 b2 b3 : Z) : Z :=
  Z.lor (Z.lor (Z.lor (Z.shiftl b0 24) (Z.shiftl b1 16)) (Z.shiftl b2 8)) b3.

(** The header words of the frame, with both checksum fields zero. *)
Definition udp_header (m : mem) (ipv4_id : Z) (my_mac src_ip : list Z) (tx_addr : Z)
    (destination_mac destination_ip : list Z) (source_port destination_port udp_length ip_length : Z) : mem :=
  let dm := at_ destination_mac in let sm := at_ my_mac in
  let si := at_ src_ip in let di := at_ destination_ip in
  let m := mem_iowr m tx_addr (word4 (dm 0) (dm 1) (dm 2) (dm 3)) in
  let m := mem_iowr m (tx_addr + 4) (word4 (dm 4) (dm 5) (sm 0) (sm 1)) in
  let m := mem_iowr m (tx_addr + 8) (word4 (sm 2) (sm 3) (sm 4) (sm 5)) in
  let m := mem_iowr m (tx_addr + 12) 0x08004500 in
  let m := mem_iowr m (tx_addr + 16) (Z.lor (Z.shiftl ip_length 16) ipv4_id) in
  let m := mem_iowr m (tx_addr + 20) 0x40004011 in
  let m := mem_iowr m (tx_addr + 24) (Z.lor (Z.shiftl (si 0) 8) (si 1)) in
  let m := mem_iowr m (tx_addr + 28) (word4 (si 2) (si 3) (di 0) (di 1)) in
  let m := mem_iowr m (tx_addr + 32)
    (Z.lor (Z.lor (Z.shiftl (di 2) 24) (Z.shiftl (di 3) 16)) source_port) in
  let m := mem_iowr m (tx_addr + 36) (Z.lor (Z.shiftl destination_port 16) udp_length) in
  mem_iowr m (tx_addr + 40) 0x0000.

(** The statements of udp_send_mac from the lengths to the call of
    eth_mac_send; udp_send and udp_send_packet repeat them. *)
Definition udp_write_frame (m : mem) (ipv4_id : Z) (my_mac src_ip : list Z) (tx_addr : Z)
    (destination_mac destination_ip : list Z) (source_port destination_port : Z)
    (data : list Z) (data_length : Z) : mem * Z :=
  let udp_length := u16 (data_length + 8) in
  let ip_length := u16 (udp_length + 20) in
  let frame_length := u16 (ip_length + 14) in
  let m := udp_header m ipv4_id my_mac src_ip tx_addr destination_mac destination_ip
             source_port destination_port udp_length ip_length in
  let m := for_up (Z.to_nat data_length) 0 1
             (fun i t => mem_iowr_byte t (tx_addr + 42 + i) (at_ data i)) m in
  let m := put16 m (tx_addr + 24) (ipv4_compute_checksum m tx_addr) in
  let '(m, checksum) := udp_compute_checksum m tx_addr in
  let m := put16 m (tx_addr + 40) checksum in
  (m, frame_length).

Section Send.
Context `{EthDev}.
Local Open Scope eth_scope.

(** Send the frame, ipv4_id += 0x10000, return 1. *)
Definition udp_transmit (fuel : nat) (src_ip : list Z) (tx_addr : Z)
    (destination_mac destination_ip : list Z) (source_port destination_port : Z)
    (data : list Z) (data_length : Z) : M Z :=
  frame_length <- build (fun w =>
    udp_write_frame (w_mem w) (w_ipv4_id w) (w_my_mac w) src_ip tx_addr destination_mac
      destination_ip source_port destination_port data data_length) ;;
  eth_mac_send fuel tx_addr frame_length ;;
  modify (fun w => set_ipv4_id (u16 (w_ipv4_id w + 0x10000)) w) ;;
  ret 1.

Definition udp_send_mac (fuel : nat) (tx_addr rx_addr : Z) (destination_mac destination_ip : list Z)
    (source_port destination_port : Z) (data : list Z) (data_length timeout : Z) : M Z :=
  ip <- gets w_my_ip ;;
  udp_transmit fuel ip tx_addr destination_mac destination_ip source_port destination_port
    data data_length.

(** Resolve the IP address; the broadcast address when that fails. *)
Definition udp_resolve (n fuel : nat) (tx_addr rx_addr : Z) (destination_ip : list Z)
    (timeout : Z) : M (list Z) :=
  let destination_mac := replicate 6 0xFF in
  r <- gets (fun w => arp_table_search (w_arp_table w) destination_ip destination_mac) ;;
  if fst r =? 0 then
    ok <- arp_resolve_ip n fuel rx_addr tx_addr destination_ip (u64 timeout) ;;
    if c_true ok then
      r <- gets (fun w => arp_table_search (w_arp_table w) destination_ip destination_mac) ;;
      ret (snd r)
    else ret destination_mac
  else ret (snd r).

Definition udp_send (n fuel : nat) (tx_addr rx_addr : Z) (destination_ip : list Z)
    (source_port destination_port : Z) (data : list Z) (data_length timeout : Z) : M Z :=
  destination_mac <- udp_resolve n fuel tx_addr rx_addr destination_ip timeout ;;
  ip <- gets w_my_ip ;;
  udp_transmit fuel ip tx_addr destination_mac destination_ip source_port destination_port
    data data_length.

Definition udp_send_packet (n fuel : nat) (tx_addr rx_addr : Z) (packet : udp_t)
    (timeout : Z) : M Z :=
  destination_mac <- udp_resolve n fuel tx_addr rx_addr (destination_ip (ip_head packet)) timeout ;;
  udp_transmit fuel (source_ip (ip_head packet)) tx_addr destination_mac
    (destination_ip (ip_head packet)) (source_port (udp_head packet))
    (destination_port (udp_head packet)) (udp_data packet) (data_length_ (udp_head packet)).

End Send.

(** ** The transmitted frame *)

(** The frame with IP checksum [c1] and UDP checksum [c2]. *)
Definition udp_frame (dmac smac sip dip : list Z) (sport dport id : Z) (data : list Z)
    (c1 c2 : Z) : list Z :=
  let ul := Z.of_nat (length data) + 8 in
  let il := ul + 20 in
  dmac ++ smac ++
  [8; 0; 0x45; 0; il / 256; il mod 256; id / 256; id mod 256; 0x40; 0; 0x40; 0x11;
   c1 / 256; c1 mod 256] ++ sip ++ dip ++
  [sport / 256; sport mod 256; dport / 256; dport mod 256; ul / 256; ul mod 256;
   c2 / 256; c2 mod 256] ++ data.

Lemma word4_lanes a b c d : is_byte a -> is_byte b -> is_byte c -> is_byte d ->
  byte_at (word4 a b c d) 24 = a /\ byte_at (word4 a b c d) 16 = b /\
  byte_at (word4 a b c d) 8 = c /\ byte_at (word4 a b c d) 0 = d.
Proof. intros. unfold word4. rewrite word_1111 by done. by apply be_lanes. Qed.

(** Two halves of a word. *)
Lemma half_lanes h l : 0 <= h < 65536 -> 0 <= l < 65536 ->
  let w := h * 2 ^ 16 + l in
  byte_at w 24 = h / 256 /\ byte_at w 16 = h mod 256 /\
  byte_at w 8 = l / 256 /\ byte_at w 0 = l mod 256.
Proof.
  intros Hh Hl w.
  replace w with (h / 256 * 2 ^ 24 + h mod 256 * 2 ^ 16 + l / 256 * 2 ^ 8 + l mod 256)
    by (pose proof (div_mod_256 h); pose proof (div_mod_256 l); subst w; lia).
  apply be_lanes; auto with word.
Qed.

Section UdpFrame.
Context (dmac smac sip dip data : list Z) (sport dport id : Z).
Context (Hdm : byte_array 6 dmac) (Hsm : byte_array 6 smac)
        (Hsi : byte_array 4 sip) (Hdi : byte_array 4 dip) (Hdata : Forall is_byte data)
        (Hsp : 0 <= sport < 65536) (Hdp : 0 <= dport < 65536) (Hid : 0 <= id < 65536).
Let n := Z.of_nat (length data).
Context (Hn : n + 42 < 65536).

(** The memory after the header and the data are written. *)
Definition udp_mem (m : mem) (tx : Z) : mem :=
  for_up (Z.to_nat n) 0 1 (fun i t => mem_iowr_byte t (tx + 42 + i) (at_ data i))
    (udp_header m id smac sip tx dmac dip sport dport (n + 8) (n + 28)).

Lemma data_u8 i : u8 (at_ data i) = at_ data i.
Proof. apply (at_u8 (length data)). by split. Qed.

Lemma udp_header_bytes m tx ul il :
  tx mod 4 = 0 -> in_space tx 44 -> 0 <= ul < 65536 -> 0 <= il < 65536 ->
  read_bytes (udp_header m id smac sip tx dmac dip sport dport ul il) tx 42 =
  dmac ++ smac ++
  [8; 0; 0x45; 0; il / 256; il mod 256; id / 256; id mod 256; 0x40; 0; 0x40; 0x11; 0; 0] ++
  sip ++ dip ++
  [sport / 256; sport mod 256; dport / 256; dport mod 256; ul / 256; ul mod 256; 0; 0].
Proof.
  intros Hal [Ht1 [_ Ht2]] Hul Hil. unfold udp_header.
  destruct (byte_array_6 _ Hdm) as (d0&d1&d2&d3&d4&d5&E1&?&?&?&?&?&?).
  destruct (byte_array_6 _ Hsm) as (s0&s1&s2&s3&s4&s5&E2&?&?&?&?&?&?).
  destruct (byte_array_4 _ Hsi) as (i0&i1&i2&i3&E3&?&?&?&?).
  destruct (byte_array_4 _ Hdi) as (j0&j1&j2&j3&E4&?&?&?&?).
  rewrite E1, E2, E3, E4. arr.
  destruct (word4_lanes d0 d1 d2 d3) as (?&?&?&?); [done..|].
  destruct (word4_lanes d4 d5 s0 s1) as (?&?&?&?); [done..|].
  destruct (word4_lanes s2 s3 s4 s5) as (?&?&?&?); [done..|].
  destruct (word4_lanes i2 i3 j0 j1) as (?&?&?&?); [done..|].
  rewrite (lor_shift il id 16), (lor_shift dport ul 16), (lor_bytes i0 i1), (word_112 j2 j3 sport) by (done || lia).
  destruct (half_lanes il id) as (?&?&?&?); [done..|].
  destruct (half_lanes dport ul) as (?&?&?&?); [done..|].
  destruct (be_lanes 0 0 i0 i1) as (Z1&Z2&Z3&Z4); [done..|].
  destruct (be_lanes j2 j3 (sport / 256) (sport mod 256)) as (Y1&Y2&Y3&Y4); [auto with word..|].
  replace (0 * 2 ^ 24 + 0 * 2 ^ 16 + i0 * 2 ^ 8 + i1) with (256 * i0 + i1) in Z1, Z2, Z3, Z4 by lia.
  replace (j2 * 2 ^ 24 + j3 * 2 ^ 16 + sport / 256 * 2 ^ 8 + sport mod 256)
    with (j2 * 2 ^ 24 + j3 * 2 ^ 16 + sport) in Y1, Y2, Y3, Y4
    by (pose proof (div_mod_256 sport); lia).
  each_byte; rd_frame; lane; first [assumption | reflexivity].
Qed.

Lemma udp_mem_frame m tx :
  tx mod 4 = 0 -> in_space tx (46 + n) ->
  read_bytes (udp_mem m tx) tx (42 + n) = udp_frame dmac smac sip dip sport dport id data 0 0.
Proof.
  intros Hal [Ht1 [_ Ht2]]. rewrite read_bytes_app by lia.
  assert (Hh : read_bytes (udp_mem m tx) tx 42 =
    read_bytes (udp_header m id smac sip tx dmac dip sport dport (n + 8) (n + 28)) tx 42).
  { apply read_bytes_ext. intros i Hi. unfold udp_mem.
    rewrite rd_fill by (unfold in_space; lia). by zdec. }
  rewrite Hh, udp_header_bytes by (unfold in_space; (done || lia)).
  unfold udp_frame. fold n. replace (n + 8 + 20) with (n + 28) by lia.
  rewrite <- !app_assoc. cbn [app]. repeat (apply f_equal2; [reflexivity|]).
  apply read_bytes_list; [done|]. intros i Hi. unfold udp_mem.
  rewrite rd_fill by (unfold in_space; lia). zdec. rewrite data_u8. f_equal. lia.
Qed.

End UdpFrame.

(** ** Checksums over the pseudo header *)

Definition udp_total (frame : list Z) : Z :=
  wsum (drop 34 frame) + wsum (take 8 (drop 26 frame)) + 17 + (Z.of_nat (length frame) - 34).

Definition udp_valid (frame : list Z) : Prop := oc (udp_total frame) = 65535.

Lemma land_1_odd z : (Z.land z 1 =? 0) = Z.even z.
Proof.
  rewrite land_1, Zmod_even. by destruct (Z.even z).
Qed.

Lemma rd_udp_pad m a ul b : 0 <= a + ul + 34 < 2 ^ 32 -> 0 <= b < 2 ^ 32 ->
  mem_iord_byte (udp_pad m a ul) b =
  if negb (Z.even ul) && (b =? a + ul + 34) then 0 else mem_iord_byte m b.
Proof.
  intros Ha Hb. unfold udp_pad. rewrite land_1_odd. destruct (Z.even ul); [done|].
  rewrite rd_wr, Z.eqb_sym by lia. cbn [negb andb]. by destruct (b =? a + ul + 34).
Qed.

(** The padded words of the packet are its bytes. *)
Lemma udp_sum16 m a ul : 0 <= ul < 65535 -> in_space a (35 + ul) ->
  sum16 (mem_iord_byte (udp_pad m a ul)) (a + 34) (steps2 (udp_corrected ul)) =
  wsum (read_bytes m (a + 34) ul).
Proof.
  intros Hul [Ha1 [_ Ha2]]. rewrite wsum_sum16. unfold udp_corrected, steps2. rewrite land_1_odd.
  destruct (Z.even ul) eqn:E.
  - apply Z.even_spec in E as [k ->].
    replace ((2 * k + 1) / 2) with k by (apply Z.div_unique with 1; lia).
    rewrite Z2Nat.id by lia. f_equal. apply read_bytes_ext. intros i Hi.
    rewrite rd_udp_pad by lia. by rewrite Z.even_mul.
  - assert (Ho : Z.odd ul = true) by (by rewrite <- Z.negb_even, E).
    apply Z.odd_spec in Ho as [k ->]. rewrite u16_small by lia.
    replace ((2 * k + 1 + 1 + 1) / 2) with (k + 1) by (apply Z.div_unique with 1; lia).
    rewrite Z2Nat.id by lia. replace (2 * (k + 1)) with (2 * k + 1 + 1) by lia.
    rewrite (read_bytes_app _ _ (2 * k + 1) 1), read_bytes_1 by lia.
    rewrite rd_udp_pad, E by lia. replace (a + 34 + (2 * k + 1) =? a + (2 * k + 1) + 34) with true by lia.
    cbn [negb andb]. rewrite wsum_pad.
    + f_equal. apply read_bytes_ext. intros i Hi. rewrite rd_udp_pad, E by lia.
      by replace (a + 34 + i =? a + (2 * k + 1) + 34) with false by lia.
    + rewrite read_bytes_length. exists (Z.to_nat k). lia.
Qed.

Lemma wsum_packet_range m a ul : 0 <= ul < 65536 ->
  0 <= wsum (read_bytes m a ul) < 2147483648.
Proof.
  intros Hul. destruct (wsum_range (read_bytes m a ul)) as [Hr1 Hr2]; [apply read_bytes_array|].
  rewrite read_bytes_length, Z2Nat.id in Hr2 by lia.
  assert ((ul + 1) / 2 <= 32768) by (apply Z.div_le_upper_bound; lia). lia.
Qed.

(** The loop over the UDP header and data sums the bytes of the packet. *)
Lemma udp_sum m a ul :
  0 <= ul < 65535 -> in_space a (35 + ul) ->
  for_up (steps2 (udp_corrected ul)) 0 2
    (fun i c => add_word (udp_pad m a ul) (a + 34 + i) (a + 35 + i) c) 0 =
  wsum (read_bytes m (a + 34) ul).
Proof.
  intros Hul Ha.
  rewrite (for_up_ext _ (fun i c => add_word (udp_pad m a ul) (a + 34 + i) (a + 34 + 1 + i) c) _ _ 0)
    by (intros; f_equal; lia).
  change (for_up ?n 0 2 _ 0) with (sum_words (udp_pad m a ul) (a + 34) n 0).
  pose proof (wsum_packet_range m (a + 34) ul ltac:(lia)).
  rewrite sum_words_exact, udp_sum16 by (rewrite ?udp_sum16; (done || lia)). lia.
Qed.

Lemma udp_pseudo_val m a ul c :
  0 <= c < 2147483648 -> 0 <= ul < 65536 ->
  udp_pseudo m a ul c = c + wsum (read_bytes m (a + 26) 8) + 17 + ul.
Proof.
  intros Hc Hul. unfold udp_pseudo. cbn [for_up]. rewrite !add_word_val.
  rewrite !u32_add_l. change 8 with (0 + 1 + 1 + 1 + 1 + 1 + 1 + 1 + 1).
  rewrite !read_bytes_S, read_bytes_nil by lia. cbn [wsum].
  replace (a + 26 + 0) with (a + 26) by lia. replace (a + 27 + 0) with (a + 26 + 1) by lia.
  replace (a + 30 + 0) with (a + 26 + 1 + 1 + 1 + 1) by lia.
  replace (a + 31 + 0) with (a + 26 + 1 + 1 + 1 + 1 + 1) by lia.
  replace (a + 26 + (0 + 2)) with (a + 26 + 1 + 1) by lia.
  replace (a + 27 + (0 + 2)) with (a + 26 + 1 + 1 + 1) by lia.
  replace (a + 30 + (0 + 2)) with (a + 26 + 1 + 1 + 1 + 1 + 1 + 1) by lia.
  replace (a + 31 + (0 + 2)) with (a + 26 + 1 + 1 + 1 + 1 + 1 + 1 + 1) by lia.
  repeat match goal with |- context [mem_iord_byte m ?x] =>
    pose proof (iord_byte_range m x); generalize dependent (mem_iord_byte m x); intros end.
  rewrite (u32_small (c + _ + _)) by lia. rewrite (u32_small (c + _ + _ + _ + _)) by lia.
  rewrite u32_small; lia.
Qed.

Lemma udp_length_field m a : wf_mem m -> a mod 4 = 0 -> 0 <= a -> a + 40 <= 2 ^ 32 ->
  u16 (Z.land (mem_iord m (a + 36)) 0xFFFF) =
  256 * mem_iord_byte m (a + 38) + mem_iord_byte m (a + 39).
Proof.
  intros Hm Hal H0 H1. rewrite land_65535, u16_u16, mem_iord_bytes by
    (try done; try lia; by rewrite Z.add_mod, Hal by lia).
  replace (a + 36 + 2) with (a + 38) by lia. replace (a + 36 + 3) with (a + 39) by lia.
  pose proof (iord_byte_range m (a + 38)). pose proof (iord_byte_range m (a + 39)).
  unfold u16. symmetry. apply Z.mod_unique with
    (256 * mem_iord_byte m (a + 36) + mem_iord_byte m (a + 36 + 1)); lia.
Qed.

Lemma udp_total_rd m a ul : 0 <= ul ->
  udp_total (read_bytes m a (34 + ul)) =
  wsum (read_bytes m (a + 34) ul) + wsum (read_bytes m (a + 26) 8) + 17 + ul.
Proof.
  intros Hul. unfold udp_total. rewrite read_bytes_length.
  assert (E : take 8 (drop 26 (read_bytes m a (34 + ul))) = read_bytes m (a + 26) 8)
    by (symmetry; apply (read_bytes_slice m a (34 + ul) 26 8); lia).
  rewrite E, (read_bytes_app m a 34 ul), drop_app_length' by (rewrite ?read_bytes_length; lia).
  lia.
Qed.

Lemma udp_total_range m a ul : 0 <= ul < 65536 ->
  0 <= wsum (read_bytes m (a + 34) ul) < 2147483648 /\
  0 < udp_total (read_bytes m a (34 + ul)) < 4294967296 - 65535.
Proof.
  intros Hul. rewrite udp_total_rd by lia.
  pose proof (wsum_packet_range m (a + 34) ul Hul).
  destruct (wsum_range (read_bytes m (a + 26) 8)) as [Hr3 Hr4]; [apply read_bytes_array|].
  rewrite read_bytes_length, Z2Nat.id in Hr4 by lia. change ((8 + 1) / 2) with 4 in Hr4. lia.
Qed.

(** What verification checks on the received bytes. *)
Lemma udp_verify_val m a ul :
  wf_mem m -> a mod 4 = 0 -> 256 * mem_iord_byte m (a + 38) + mem_iord_byte m (a + 39) = ul ->
  8 <= ul < 65535 -> in_space a (35 + ul) ->
  snd (udp_verify_checksum m a) = 1 <-> udp_valid (read_bytes m a (34 + ul)).
Proof.
  intros Hm Hal Hlen Hul Ha. destruct Ha as [Ha1 [Ha Ha2]].
  unfold udp_verify_checksum, udp_valid. rewrite udp_length_field, Hlen by (done || lia). cbn [snd].
  rewrite udp_sum by (unfold in_space; lia).
  destruct (udp_total_range m a ul) as [Hr1 Hr2]; [lia|].
  rewrite udp_pseudo_val by lia.
  rewrite (read_bytes_ext (udp_pad m a ul) m (a + 26) (a + 26) 8).
  2:{ intros i Hi. rewrite rd_udp_pad by lia. replace (a + 26 + i =? a + ul + 34) with false by lia.
      by rewrite andb_false_r. }
  rewrite udp_total_rd in * by lia. rewrite finish_val by lia.
  pose proof (oc_range (wsum (read_bytes m (a + 34) ul) + wsum (read_bytes m (a + 26) 8) + 17 + ul)
    ltac:(lia)).
  match goal with |- context [?x =? 0] => destruct (Z.eqb_spec x 0) end; split; intros; lia.
Qed.

(** What is computed when the checksum field is zero. *)
Lemma udp_compute_val m a ul :
  wf_mem m -> a mod 4 = 0 -> 256 * mem_iord_byte m (a + 38) + mem_iord_byte m (a + 39) = ul ->
  8 <= ul < 65535 -> in_space a (35 + ul) ->
  mem_iord_byte m (a + 40) = 0 -> mem_iord_byte m (a + 41) = 0 ->
  udp_compute_checksum m a =
  (udp_pad m a ul, 65535 - oc (udp_total (read_bytes m a (34 + ul)))).
Proof.
  intros Hm Hal Hlen Hul [Ha1 [Ha Ha2]] H40 H41.
  unfold udp_compute_checksum. rewrite udp_length_field, Hlen by (done || lia). f_equal.
  rewrite udp_sum by (unfold in_space; lia).
  destruct (udp_total_range m a ul) as [Hr1 Hr2]; [lia|].
  assert (Hp : forall i, i < 34 + ul -> 0 <= i ->
    mem_iord_byte (udp_pad m a ul) (a + i) = mem_iord_byte m (a + i)).
  { intros i Hi Hi2. rewrite rd_udp_pad by lia. replace (a + i =? a + ul + 34) with false by lia.
    by rewrite andb_false_r. }
  rewrite !Hp, H40, H41 by lia. change (Z.shiftl 0 8) with 0. change (Z.land 0 255) with 0.
  rewrite Z.sub_0_r, Z.add_0_r, u32_small, udp_pseudo_val by lia.
  rewrite (read_bytes_ext (udp_pad m a ul) m (a + 26) (a + 26) 8)
    by (intros i Hi; replace (a + 26 + i) with (a + (26 + i)) by lia; apply Hp; lia).
  rewrite udp_total_rd in * by lia. rewrite finish_val by lia.
  pose proof (oc_range (wsum (read_bytes m (a + 34) ul) + wsum (read_bytes m (a + 26) 8) + 17 + ul)
    ltac:(lia)).
  apply u16_small. lia.
Qed.

(** ** Storing the checksums *)

Lemma read_put16 m a n k v :
  in_space a n -> 0 <= k -> k + 2 <= n -> 0 <= v < 65536 ->
  read_bytes (put16 m (a + k) v) a n =
  take (Z.to_nat k) (read_bytes m a n) ++ [v / 256; v mod 256] ++
  drop (Z.to_nat (k + 2)) (read_bytes m a n).
Proof.
  intros [Ha [_ Ha2]] Hk Hn Hv.
  assert (Hrd : forall b, 0 <= b < 2 ^ 32 -> mem_iord_byte (put16 m (a + k) v) b =
    if b =? a + k then v / 256 else if b =? a + k + 1 then v mod 256 else mem_iord_byte m b)
    by (intros b Hb; apply rd_put16; [done | split_and!; lia | done]).
  replace n with (k + (2 + (n - k - 2))) by lia.
  rewrite !read_bytes_app by lia.
  rewrite take_app_length' by (rewrite read_bytes_length; lia).
  rewrite (app_assoc (read_bytes m a k) (read_bytes m (a + k) 2)), drop_app_length'
    by (rewrite length_app, !read_bytes_length; lia).
  apply f_equal2; [|apply f_equal2].
  - apply read_bytes_ext. intros i Hi. rewrite Hrd by lia. by zdec.
  - change 2 with (0 + 1 + 1) at 1. rewrite !read_bytes_S, read_bytes_nil, !Hrd by lia. by zdec.
  - apply read_bytes_ext. intros i Hi. rewrite Hrd by lia. by zdec.
Qed.

Lemma read_udp_pad m a ul : 0 <= a -> 0 <= ul -> a + ul + 34 < 2 ^ 32 ->
  read_bytes (udp_pad m a ul) a (34 + ul) = read_bytes m a (34 + ul).
Proof.
  intros. apply read_bytes_ext. intros i Hi. rewrite rd_udp_pad by lia.
  replace (a + i =? a + ul + 34) with false by lia. by rewrite andb_false_r.
Qed.

Lemma wf_put16 m a v : wf_mem m -> wf_mem (put16 m a v).
Proof. unfold put16. auto with word. Qed.
#[local] Hint Resolve wf_put16 : word.

Lemma wf_for_up n (body : Z -> mem -> mem) m :
  (forall i t, wf_mem t -> wf_mem (body i t)) -> wf_mem m -> wf_mem (for_up n 0 1 body m).
Proof. intros Hb Hm. apply (for_up_inv (fun _ => wf_mem)); auto. Qed.

Lemma wf_udp_header m id smac sip tx dmac dip sp dp ul il :
  wf_mem m -> wf_mem (udp_header m id smac sip tx dmac dip sp dp ul il).
Proof. intros. unfold udp_header. auto 12 with word. Qed.

Section WriteFrame.
Context (dmac smac sip dip data : list Z) (sport dport id : Z).
Context (Hdm : byte_array 6 dmac) (Hsm : byte_array 6 smac)
        (Hsi : byte_array 4 sip) (Hdi : byte_array 4 dip) (Hdata : Forall is_byte data)
        (Hsp : 0 <= sport < 65536) (Hdp : 0 <= dport < 65536) (Hid : 0 <= id < 65536).
Let n := Z.of_nat (length data).
Context (Hn : n + 42 < 65536).
Let frame := udp_frame dmac smac sip dip sport dport id data.

(** Both checksum fields of the frame can be replaced. *)
Lemma udp_frame_set c1 c2 v :
  take 24 (frame c1 c2) ++ [v / 256; v mod 256] ++ drop 26 (frame c1 c2) = frame v c2 /\
  take 40 (frame c1 c2) ++ [v / 256; v mod 256] ++ drop 42 (frame c1 c2) = frame c1 v.
Proof.
  destruct (length_6 _ (proj1 Hdm)) as (?&?&?&?&?&?&E1).
  destruct (length_6 _ (proj1 Hsm)) as (?&?&?&?&?&?&E2).
  destruct (length_4 _ (proj1 Hsi)) as (?&?&?&?&E3).
  destruct (length_4 _ (proj1 Hdi)) as (?&?&?&?&E4).
  unfold frame, udp_frame. rewrite E1, E2, E3, E4. done.
Qed.

Lemma udp_frame_len c1 c2 : Z.of_nat (length (frame c1 c2)) = 42 + n.
Proof.
  unfold frame, udp_frame. rewrite !length_app, (proj1 Hdm), (proj1 Hsm), (proj1 Hsi), (proj1 Hdi).
  cbn [length]. unfold n. lia.
Qed.

(** Fields of the frame. *)
Lemma udp_frame_fields c1 c2 :
  let f := frame c1 c2 in let ul := n + 8 in
  take 6 f = dmac /\ take 6 (drop 6 f) = smac /\ at_ f 12 = 8 /\ at_ f 13 = 0 /\ at_ f 23 = 17 /\
  at_ f 25 = c1 mod 256 /\ take 4 (drop 26 f) = sip /\ take 4 (drop 30 f) = dip /\
  at_ f 34 = sport / 256 /\ at_ f 35 = sport mod 256 /\
  at_ f 36 = dport / 256 /\ at_ f 37 = dport mod 256 /\
  at_ f 38 = ul / 256 /\ at_ f 39 = ul mod 256 /\ at_ f 40 = c2 / 256 /\ at_ f 41 = c2 mod 256 /\
  drop 42 f = data.
Proof.
  destruct (length_6 _ (proj1 Hdm)) as (?&?&?&?&?&?&E1).
  destruct (length_6 _ (proj1 Hsm)) as (?&?&?&?&?&?&E2).
  destruct (length_4 _ (proj1 Hsi)) as (?&?&?&?&E3).
  destruct (length_4 _ (proj1 Hdi)) as (?&?&?&?&E4).
  unfold frame, udp_frame, n. rewrite E1, E2, E3, E4. split_and!; reflexivity.
Qed.

Lemma udp_frame_sums c1 c2 :
  take 20 (drop 14 (frame c1 c2)) = take 20 (drop 14 (frame c1 0)) /\
  udp_total (frame c1 c2) = udp_total (frame c1 0) + c2.
Proof.
  unfold udp_total. rewrite !udp_frame_len.
  destruct (length_6 _ (proj1 Hdm)) as (?&?&?&?&?&?&E1).
  destruct (length_6 _ (proj1 Hsm)) as (?&?&?&?&?&?&E2).
  destruct (length_4 _ (proj1 Hsi)) as (?&?&?&?&E3).
  destruct (length_4 _ (proj1 Hdi)) as (?&?&?&?&E4).
  unfold frame, udp_frame. rewrite E1, E2, E3, E4. split; [done|].
  cbn [app drop take wsum]. pose proof (div_mod_256 c2).
  change (0 / 256) with 0. change (0 mod 256) with 0. lia.
Qed.

Lemma udp_write_frame_spec m tx :
  wf_mem m -> tx mod 4 = 0 -> in_space tx (46 + n) ->
  let r := udp_write_frame m id smac sip tx dmac dip sport dport data n in
  snd r = 42 + n /\ exists c1 c2, 0 <= c1 < 65536 /\ 0 <= c2 < 65536 /\
    read_bytes (fst r) tx (42 + n) = frame c1 c2 /\
    ip_valid (frame c1 c2) /\ udp_valid (frame c1 c2).
Proof.
  intros Hm Hal Hsp' r. destruct Hsp' as [Ht1 [_ Ht2]]. subst r. unfold udp_write_frame.
  rewrite (u16_small (n + 8)), (u16_small (n + 8 + 20)), (u16_small (n + 8 + 20 + 14)) by lia.
  replace (n + 8 + 20) with (n + 28) by lia.
  change (for_up (Z.to_nat n) 0 1 _ _) with (udp_mem dmac smac sip dip data sport dport id m tx).
  pose proof (udp_mem_frame dmac smac sip dip data sport dport id Hdm Hsm Hsi Hdi Hdata Hsp Hdp Hid
    Hn m tx Hal ltac:(unfold in_space; fold n; lia)) as Hf1. fold n frame in Hf1.
  assert (Hw1 : wf_mem (udp_mem dmac smac sip dip data sport dport id m tx)).
  { apply wf_for_up; [auto with word|]. by apply wf_udp_header. }
  set (m1 := udp_mem _ _ _ _ _ _ _ _ _ _) in *. clearbody m1.
  (* the IP checksum *)
  set (c1 := ipv4_compute_checksum m1 tx).
  assert (Hc1 : 0 <= c1 < 65536) by (unfold c1, ipv4_compute_checksum; apply u16_range).
  assert (Hip : ipv4_verify_checksum (put16 m1 (tx + 24) c1) tx = 1).
  { apply ipv4_checksum_stored; [unfold in_space; lia|].
    rewrite <- (at_read_bytes m1 tx (42 + n) 25), Hf1 by lia.
    by destruct (udp_frame_fields 0 0) as (_&_&_&_&_&->&_). }
  assert (Hf2 : read_bytes (put16 m1 (tx + 24) c1) tx (42 + n) = frame c1 0).
  { rewrite read_put16, Hf1 by (unfold in_space; lia). apply udp_frame_set. }
  assert (Hw2 : wf_mem (put16 m1 (tx + 24) c1)) by auto with word.
  set (m2 := put16 m1 (tx + 24) c1) in *. clearbody m2 c1.
  (* the UDP checksum *)
  destruct (udp_frame_fields c1 0) as (_&_&_&_&_&_&_&_&_&_&_&_&H38&H39&H40&H41&_).
  rewrite (udp_compute_val m2 tx (n + 8)); [| done | done | | lia | unfold in_space; lia | |];
    try (rewrite <- !(at_read_bytes m2 tx (42 + n)), Hf2, ?H38, ?H39, ?H40, ?H41 by lia;
         first [apply div_mod_256 | reflexivity]).
  replace (34 + (n + 8)) with (42 + n) by lia. rewrite Hf2. cbn [fst snd].
  split; [lia|].
  assert (Ht : 0 < udp_total (frame c1 0) < 4294967296 - 65535).
  { rewrite <- Hf2. replace (42 + n) with (34 + (n + 8)) by lia. apply udp_total_range. lia. }
  set (c2 := 65535 - oc (udp_total (frame c1 0))).
  assert (Hc2 : 0 <= c2 < 65536) by (pose proof (oc_range (udp_total (frame c1 0))); lia).
  assert (Hf3 : read_bytes (put16 (udp_pad m2 tx (n + 8)) (tx + 40) c2) tx (42 + n) = frame c1 c2).
  { rewrite read_put16 by (unfold in_space; lia).
    replace (42 + n) with (34 + (n + 8)) by lia. rewrite read_udp_pad by lia.
    replace (34 + (n + 8)) with (42 + n) by lia. rewrite Hf2. apply udp_frame_set. }
  exists c1, c2. split_and!; [lia.. | done | |].
  - unfold ip_valid. rewrite (proj1 (udp_frame_sums c1 c2)). fold (ip_valid (frame c1 0)).
    rewrite <- Hf2, ip_valid_rd by lia. by apply ipv4_verify_val.
  - unfold udp_valid. rewrite (proj2 (udp_frame_sums c1 c2)). apply stored_valid; lia.
Qed.
End WriteFrame.

(** ** Sending and receiving *)

Section Transmit.
Context `{EthDevSpec}.
Local Open Scope eth_scope.

(** A datagram that can be sent: arrays of the right type, ports in
    range, and a frame that fits. *)
Record sendable (dmac sip dip data : list Z) (sport dport : Z) : Prop := {
  sb_dmac : byte_array 6 dmac;
  sb_sip : byte_array 4 sip;
  sb_dip : byte_array 4 dip;
  sb_data : Forall is_byte data;
  sb_sport : 0 <= sport < 65536;
  sb_dport : 0 <= dport < 65536;
  sb_fits : Z.of_nat (length data) + 42 < 65536;
}.

Lemma udp_transmit_spec fuel sip tx dmac dip sport dport data w :
  let n := Z.of_nat (length data) in
  wf_world w -> wf_mem (w_mem w) -> 0 <= w_ipv4_id w < 65536 ->
  sendable dmac sip dip data sport dport ->
  tx mod 4 = 0 -> tx_ok w tx (46 + n) -> (tx_latency < fuel)%nat ->
  exists w' c1 c2, udp_transmit fuel sip tx dmac dip sport dport data n w = Some (1, w') /\
    let frame := udp_frame dmac (w_my_mac w) sip dip sport dport (w_ipv4_id w) data c1 c2 in
    wire (w_dev w') = wire (w_dev w) ++ [frame] /\ ip_valid frame /\ udp_valid frame /\
    w_ipv4_id w' = w_ipv4_id w /\ tx_idle (w_dev w').
Proof.
  intros n Hw Hm Hid [Hdm Hsi Hdi Hda Hsp Hdp Hfit] Hal (Htx & Hwin & Hidle) Hf.
  destruct (udp_write_frame_spec dmac (w_my_mac w) sip dip data sport dport (w_ipv4_id w)
    Hdm (ww_mac w Hw) Hsi Hdi Hda Hsp Hdp Hid Hfit (w_mem w) tx Hm Hal Htx)
    as (Hlen & c1 & c2 & Hc1 & Hc2 & Hfr & Hip & Hudp).
  unfold udp_transmit, bind, build. fold n in Hlen, Hfr.
  destruct (udp_write_frame _ _ _ _ _ _ _ _ _ _ _) as [m1 len]. cbn [fst snd] in *. subst len.
  assert (Htx2 : 0 <= tx < 2 ^ 32) by (unfold in_space in Htx; lia).
  destruct (eth_mac_send_spec fuel tx (42 + n) (set_mem m1 w) Htx2 ltac:(lia) Hf Hidle)
    as (w' & -> & He & Hi' & Hwire); [intros i Hi; apply Hwin; lia|].
  eexists _, c1, c2. split; [reflexivity|]. cbn [w_dev set_ipv4_id w_ipv4_id].
  rewrite Hwire. cbn [w_dev set_mem w_mem]. rewrite Hfr. split_and!; [done | done | done | |done].
  rewrite (es_id _ _ He). cbn [w_ipv4_id set_mem].
  unfold u16. change 0x10000 with (1 * 2 ^ 16). rewrite Z.mod_add by lia. apply Z.mod_small. lia.
Qed.

(** C9: udp_send_mac transmits one well-formed datagram.  For every payload
    that fits a frame, when the transmitter of the controller is idle, it
    returns 1 after appending to the wire the
    Ethernet, IPv4 and UDP headers with the given addresses, ports and
    lengths followed by the payload; both checksums of the frame are
    valid, and the transmitter is idle again.  The identification field is
    the same for every datagram, since ipv4_id += 0x10000 leaves a 16-bit
    variable unchanged. *)
Theorem udp_send_mac_correct fuel tx rx dmac dip sport dport data timeout w :
  let n := Z.of_nat (length data) in
  wf_world w -> wf_mem (w_mem w) -> 0 <= w_ipv4_id w < 65536 ->
  sendable dmac (w_my_ip w) dip data sport dport ->
  tx mod 4 = 0 -> tx_ok w tx (46 + n) -> (tx_latency < fuel)%nat ->
  exists w' c1 c2,
    udp_send_mac fuel tx rx dmac dip sport dport data n timeout w = Some (1, w') /\
    let frame := udp_frame dmac (w_my_mac w) (w_my_ip w) dip sport dport (w_ipv4_id w) data c1 c2 in
    wire (w_dev w') = wire (w_dev w) ++ [frame] /\ ip_valid frame /\ udp_valid frame /\
    w_ipv4_id w' = w_ipv4_id w /\ tx_idle (w_dev w').
Proof. intros n Hw Hm Hid Hs Hal Htx Hf. by apply udp_transmit_spec. Qed.

(** Udp_send to an address in the ARP table sends to the MAC address
    bound to it: it does exactly what udp_send_mac does with that MAC
    address, without any ARP traffic. *)
Theorem udp_send_uses_table nn fuel tx rx dip sport dport data len timeout w mac :
  arp_inv (w_arp_table w) -> length dip = 4%nat -> arp_map (w_arp_table w) !! dip = Some mac ->
  udp_send nn fuel tx rx dip sport dport data len timeout w =
  udp_send_mac fuel tx rx mac dip sport dport data len timeout w.
Proof.
  intros Hinv Hdip Hmac. unfold udp_send, udp_resolve, bind at 1 2, gets at 1.
  rewrite arp_search_lookup, Hmac by (done || apply Hinv). reflexivity.
Qed.

End Transmit.

(** The halves of a word read from the buffer. *)
Lemma word_halves a b c d : is_byte a -> is_byte b -> is_byte c -> is_byte d ->
  let w := a * 2 ^ 24 + b * 2 ^ 16 + c * 2 ^ 8 + d in
  u16 (Z.land w 0xFFFF) = 256 * c + d /\ u16 (Z.shiftr w 16) = 256 * a + b.
Proof.
  intros Ha Hb Hc Hd w. unfold is_byte in *. subst w. rewrite land_65535, u16_u16, Z.shiftr_div_pow2 by lia.
  unfold u16. split; symmetry.
  - apply Z.mod_unique with (256 * a + b); lia.
  - apply Z.mod_unique with 0; [lia|]. symmetry. apply Z.div_unique with (c * 2 ^ 8 + d); lia.
Qed.

(** Getters on the bytes of an aligned packet. *)
Lemma udp_getters_rd m a : wf_mem m -> a mod 4 = 0 -> 0 <= a -> a + 44 <= 2 ^ 32 ->
  udp_get_source_port m a = 256 * mem_iord_byte m (a + 34) + mem_iord_byte m (a + 35) /\
  udp_get_destination_port m a = 256 * mem_iord_byte m (a + 36) + mem_iord_byte m (a + 37) /\
  udp_get_packet_length m a = 256 * mem_iord_byte m (a + 38) + mem_iord_byte m (a + 39) /\
  udp_get_checksum m a = 256 * mem_iord_byte m (a + 40) + mem_iord_byte m (a + 41).
Proof.
  intros Hm Hal H0 H1.
  unfold udp_get_source_port, udp_get_destination_port, udp_get_packet_length, udp_get_checksum.
  assert (Hmod : forall k, k mod 4 = 0 -> (a + k) mod 4 = 0)
    by (intros k Hk; by rewrite Z.add_mod, Hal, Hk by lia).
  rewrite !mem_iord_bytes by (first [done | lia | by apply Hmod]).
  pose proof (iord_byte_range m) as Hr.
  split_and!.
  - rewrite (proj1 (word_halves _ _ _ _ (Hr _) (Hr _) (Hr _) (Hr _))).
    by replace (a + 32 + 2) with (a + 34) by lia; replace (a + 32 + 3) with (a + 35) by lia.
  - rewrite (proj2 (word_halves _ _ _ _ (Hr _) (Hr _) (Hr _) (Hr _))).
    by replace (a + 36 + 1) with (a + 37) by lia.
  - rewrite (proj1 (word_halves _ _ _ _ (Hr _) (Hr _) (Hr _) (Hr _))).
    by replace (a + 36 + 2) with (a + 38) by lia; replace (a + 36 + 3) with (a + 39) by lia.
  - rewrite (proj2 (word_halves _ _ _ _ (Hr _) (Hr _) (Hr _) (Hr _))).
    by replace (a + 40 + 1) with (a + 41) by lia.
Qed.

(** What the getters return for a frame in the receive buffer. *)
Lemma udp_received m rx dmac smac sip dip sport dport id data c1 c2 :
  let n := Z.of_nat (length data) in
  let frame := udp_frame dmac smac sip dip sport dport id data c1 c2 in
  sendable dmac sip dip data sport dport -> byte_array 6 smac ->
  wf_mem m -> rx mod 4 = 0 -> in_space rx (44 + n) -> read_bytes m rx (42 + n) = frame ->
  256 * mem_iord_byte m (rx + 38) + mem_iord_byte m (rx + 39) = n + 8 /\
  mac_packet_type m rx = UDP /\
  mac_addr_dest m rx = dmac /\ mac_addr_sender m rx = smac /\
  ipv4_get_source_ip m rx = sip /\ ipv4_get_destination_ip m rx = dip /\
  udp_get_source_port m rx = sport /\ udp_get_destination_port m rx = dport /\
  udp_get_data_length m rx = n /\ udp_get_data m rx (udp_get_data_length m rx) = data.
Proof.
  intros n frame [Hdm Hsi Hdi Hda Hsp Hdp Hfit] Hsm Hm Hal [Hr1 [_ Hr2]] Hf.
  pose proof (udp_frame_fields dmac smac sip dip data sport dport id Hdm Hsm Hsi Hdi c1 c2) as Hfld.
  fold frame n in Hfld. cbv zeta in Hfld. rewrite <- Hf in Hfld.
  rewrite !at_read_bytes in Hfld by lia.
  destruct Hfld as (F0&F1&F12&F13&F23&_&F26&F30&F34&F35&F36&F37&F38&F39&_&_&F42).
  destruct (udp_getters_rd m rx Hm Hal Hr1 ltac:(lia)) as (G1&G2&G3&_).
  rewrite F34, F35 in G1. rewrite F36, F37 in G2. rewrite F38, F39 in G3.
  rewrite div_mod_256 in G1, G2, G3.
  assert (Hlen : udp_get_data_length m rx = n)
    by (unfold udp_get_data_length; rewrite G3; rewrite u16_small; lia).
  split_and!; try done.
  - rewrite F38, F39. apply div_mod_256.
  - pose proof (mac_packet_type_class m rx) as Hc. unfold ethertype, ip_proto in Hc.
    rewrite F12, F13, F23 in Hc. destruct (mac_packet_type m rx); cbn [frame_class] in Hc; try done; lia.
  - rewrite mac_addr_dest_bytes. rewrite <- F0.
    pose proof (read_bytes_slice m rx (42 + n) 0 6 ltac:(lia) ltac:(lia) ltac:(lia)) as E.
    by rewrite Z.add_0_r in E.
  - rewrite mac_addr_sender_bytes, <- F1. apply (read_bytes_slice m rx (42 + n) 6 6); lia.
  - unfold ipv4_get_source_ip. rewrite get_bytes_read, <- F26. apply (read_bytes_slice m rx (42 + n) 26 4); lia.
  - unfold ipv4_get_destination_ip. rewrite get_bytes_read, <- F30. apply (read_bytes_slice m rx (42 + n) 30 4); lia.
  - unfold udp_get_data. rewrite Hlen, get_bytes_read, <- F42.
    rewrite (read_bytes_app m rx 42 n) by lia. by rewrite drop_app_length' by (by rewrite read_bytes_length).
Qed.

(** C32: a received datagram is accepted and read back.  When the frame of
    [udp_send_mac_correct] is in a receive buffer, it is classified as UDP,
    both checksums verify, and the getters return the addresses, ports,
    lengths and payload that were sent. *)
Theorem udp_receive_roundtrip m rx dmac smac sip dip sport dport id data c1 c2 :
  let n := Z.of_nat (length data) in
  let frame := udp_frame dmac smac sip dip sport dport id data c1 c2 in
  sendable dmac sip dip data sport dport -> byte_array 6 smac ->
  wf_mem m -> rx mod 4 = 0 -> in_space rx (44 + n) ->
  ip_valid frame -> udp_valid frame -> read_bytes m rx (42 + n) = frame ->
  mac_packet_type m rx = UDP /\
  mac_addr_dest m rx = dmac /\ mac_addr_sender m rx = smac /\
  ipv4_verify_checksum m rx = 1 /\ snd (udp_verify_checksum m rx) = 1 /\
  ipv4_get_source_ip m rx = sip /\ ipv4_get_destination_ip m rx = dip /\
  udp_get_source_port m rx = sport /\ udp_get_destination_port m rx = dport /\
  udp_get_data_length m rx = n /\ udp_get_data m rx (udp_get_data_length m rx) = data.
Proof.
  intros n frame Hs Hsm Hm Hal Hr Hip Hudp Hf.
  destruct (udp_received m rx dmac smac sip dip sport dport id data c1 c2 Hs Hsm Hm Hal Hr Hf)
    as (Hl & H1 & H2 & H3 & H4 & H5 & H6 & H7 & H8 & H9).
  pose proof (sb_fits _ _ _ _ _ _ Hs) as Hfit. destruct Hr as [Hr1 [_ Hr2]]. fold n in Hl, Hfit. split_and!; try done.
  - apply ipv4_verify_val. rewrite <- (ip_valid_rd m rx (42 + n)), Hf by lia. done.
  - apply (udp_verify_val m rx (n + 8)); [done | done | done | lia | unfold in_space; lia |].
    replace (34 + (n + 8)) with (42 + n) by lia. by rewrite Hf.
Qed.

(** A small datagram from us to the peer. *)
Definition hello : list Z := [104; 105; 33].

Lemma hello_sendable : sendable peer_mac my_ip peer_ip hello 1000 2000.
Proof.
  split; try lia; [apply peer_mac_array | apply my_ip_array | apply peer_ip_array | |].
  - repeat (apply List.Forall_cons; [unfold is_byte; lia|]). apply List.Forall_nil.
  - cbn. lia.
Qed.

Lemma udp_send_mac_correct_witness :
  exists w' c1 c2,
    @udp_send_mac SimDev 1 2048 0 peer_mac peer_ip 1000 2000 hello 3 0
      (sim_host ∅ my_mac my_ip) = Some (1, w') /\
    let frame := udp_frame peer_mac my_mac my_ip peer_ip 1000 2000 0x1111 hello c1 c2 in
    sim_wire (@w_dev SimDev w') = [frame] /\ ip_valid frame /\ udp_valid frame /\
    w_ipv4_id w' = 0x1111 /\ sim_tx (@w_dev SimDev w') = None.
Proof.
  apply (@udp_send_mac_correct SimDev SimDevSpec 1 2048 0 peer_mac peer_ip 1000 2000 hello 0
    (sim_host ∅ my_mac my_ip)).
  - apply sim_host_wf; [apply my_mac_array | apply my_ip_array].
  - apply wf_mem_empty.
  - cbn. lia.
  - apply hello_sendable.
  - reflexivity.
  - apply sim_host_tx_ok; cbn; lia.
  - cbn. lia.
Defined.

Lemma udp_send_uses_table_witness :
  @udp_send SimDev 1 1 2048 0 peer_ip 1000 2000 hello 3 0
    (set_arp_table (arp_table_new_entry arp_table_boot peer_ip peer_mac) (sim_host ∅ my_mac my_ip)) =
  @udp_send_mac SimDev 1 2048 0 peer_mac peer_ip 1000 2000 hello 3 0
    (set_arp_table (arp_table_new_entry arp_table_boot peer_ip peer_mac) (sim_host ∅ my_mac my_ip)).
Proof.
  apply (@udp_send_uses_table SimDev).
  - apply (arp_new_entry_map arp_table_boot peer_ip peer_mac arp_boot_inv); reflexivity.
  - reflexivity.
  - vm_compute. reflexivity.
Defined.

Definition hello_frame : list Z :=
  udp_frame peer_mac my_mac my_ip peer_ip 1000 2000 0x1111 hello 18138 34771.

Lemma udp_receive_roundtrip_witness :
  mac_packet_type (store_bytes ∅ 0 hello_frame) 0 = UDP /\
  udp_get_data (store_bytes ∅ 0 hello_frame) 0
    (udp_get_data_length (store_bytes ∅ 0 hello_frame) 0) = hello.
Proof.
  destruct (udp_receive_roundtrip (store_bytes ∅ 0 hello_frame) 0 peer_mac my_mac my_ip peer_ip
    1000 2000 0x1111 hello 18138 34771) as (H1&_&_&_&_&_&_&_&_&_&H2).
  - apply hello_sendable.
  - apply my_mac_array.
  - apply store_bytes_wf, wf_mem_empty.
  - reflexivity.
  - split_and!; vm_compute; discriminate.
  - vm_compute. reflexivity.
  - vm_compute. reflexivity.
  - vm_compute. reflexivity.
  - split; [exact H1 | exact H2].
Defined.
