(* ===== verification/Tcp.v ===== *)
(** Tcp: the TCP layer, c/ethlib/tcp.c.

    Fields of a received segment, building and sending a segment, and the
    connection state machine (tcp_init_connection, tcp_connect,
    tcp_listen, tcp_close, tcp_push, tcp_recv, tcp_handle).  Debug prints
    are not modelled. *)

From stdpp Require Import base numbers list gmap.
From S2P Require Import Prelude EthIO World EthMac Mac Checksum Ipv4 Arp ArpProto Icmp Udp.

(** ** Fields *)

Definition tcp_get_source_port (m : mem) (pkt_addr : Z) : Z :=
  u16 (Z.shiftl (mem_iord_byte m (pkt_addr + 34)) 8 + mem_iord_byte m (pkt_addr + 35)).
Definition tcp_get_destination_port (m : mem) (pkt_addr : Z) : Z :=
  u16 (Z.shiftl (mem_iord_byte m (pkt_addr + 36)) 8 + mem_iord_byte m (pkt_addr + 37)).
Definition tcp_get_seqnum (m : mem) (pkt_addr : Z) : Z :=
  u32 (Z.shiftl (mem_iord_byte m (pkt_addr + 38)) 24 + Z.shiftl (mem_iord_byte m (pkt_addr + 39)) 16
       + Z.shiftl (mem_iord_byte m (pkt_addr + 40)) 8 + mem_iord_byte m (pkt_addr + 41)).
Definition tcp_get_acknum (m : mem) (pkt_addr : Z) : Z :=
  u32 (Z.shiftl (mem_iord_byte m (pkt_addr + 42)) 24 + Z.shiftl (mem_iord_byte m (pkt_addr + 43)) 16
       + Z.shiftl (mem_iord_byte m (pkt_addr + 44)) 8 + mem_iord_byte m (pkt_addr + 45)).
Definition tcp_get_header_length (m : mem) (pkt_addr : Z) : Z :=
  u8 (Z.shiftr (mem_iord_byte m (pkt_addr + 46)) 2).
Definition tcp_get_flags (m : mem) (pkt_addr : Z) : Z :=
  u8 (Z.land (mem_iord_byte m (pkt_addr + 47)) 0xFF).
Definition tcp_get_checksum (m : mem) (pkt_addr : Z) : Z :=
  u16 (Z.shiftr (mem_iord m (pkt_addr + 50)) 16).
Definition tcp_get_data_length (m : mem) (pkt_addr : Z) : Z :=
  u16 (ipv4_get_length m pkt_addr - 20 - tcp_get_header_length m pkt_addr).

(** The array [data] after the call and the number of bytes copied; the
    argument data_length is not used. *)
Definition tcp_get_data (m : mem) (pkt_addr : Z) (data : list Z) (data_length : Z) : list Z * Z :=
  let n := tcp_get_data_length m pkt_addr in
  (for_up (Z.to_nat n) 0 1 (fun i d => <[Z.to_nat i :=
     u8 (mem_iord_byte m (pkt_addr + 34 + tcp_get_header_length m pkt_addr + i))]> d) data, n).

(** ** Connections *)

(** enum tcpstate and enum tcpflags (tcp.h). *)
Inductive tcpstate :=
| CLOSED | LISTEN | SYN_SENT | SYN_RCVD | ESTABLISHED | FIN_WAIT_1 | FIN_WAIT_2 | TIME_WAIT
| CLOSE_WAIT | CLOSING | LAST_ACK.

#[export] Instance tcpstate_eq_dec : EqDecision tcpstate.
Proof. solve_decision. Defined.

Definition FIN := 0x1.
Definition SYN := 0x2.
Definition RST := 0x4.
Definition PSH := 0x8.
Definition ACK := 0x10.

Record tcp_connection := mk_conn {
  eth_tx_addr : Z; eth_rx_addr : Z;
  dstMAC : list Z; srcMAC : list Z; srcIP : list Z; dstIP : list Z;
  srcport : Z; dstport : Z; seqNum : Z; ackNum : Z;
  status : tcpstate; conn_ipv4_id : Z;
  send_buffer : list Z; send_buffer_size : Z;
  recv_buffer : list Z; recv_buffer_size : Z }.

Definition set_status (s : tcpstate) (c : tcp_connection) : tcp_connection :=
  mk_conn (eth_tx_addr c) (eth_rx_addr c) (dstMAC c) (srcMAC c) (srcIP c) (dstIP c)
    (srcport c) (dstport c) (seqNum c) (ackNum c) s (conn_ipv4_id c)
    (send_buffer c) (send_buffer_size c) (recv_buffer c) (recv_buffer_size c).
Definition set_nums (seq ack : Z) (c : tcp_connection) : tcp_connection :=
  mk_conn (eth_tx_addr c) (eth_rx_addr c) (dstMAC c) (srcMAC c) (srcIP c) (dstIP c)
    (srcport c) (dstport c) seq ack (status c) (conn_ipv4_id c)
    (send_buffer c) (send_buffer_size c) (recv_buffer c) (recv_buffer_size c).
Definition set_recv (buf : list Z) (size : Z) (c : tcp_connection) : tcp_connection :=
  mk_conn (eth_tx_addr c) (eth_rx_addr c) (dstMAC c) (srcMAC c) (srcIP c) (dstIP c)
    (srcport c) (dstport c) (seqNum c) (ackNum c) (status c) (conn_ipv4_id c)
    (send_buffer c) (send_buffer_size c) buf size.

(** memset(p, '0', n) *)
Definition memset0 (p : list Z) (n : Z) : list Z :=
  for_up (Z.to_nat n) 0 1 (fun i d => <[Z.to_nat i := 0x30]> d) p.

Definition tcp_init_connection (conn : tcp_connection) (eth_tx_addr eth_rx_addr : Z)
    (srcMAC dstMAC srcIP dstIP : list Z) (srcport dstport send_buffer_size recv_buffer_size : Z) :
    tcp_connection :=
  mk_conn eth_tx_addr eth_rx_addr
    (map (at_ dstMAC) (seqZ 0 6)) (map (at_ srcMAC) (seqZ 0 6))
    (map (at_ srcIP) (seqZ 0 4)) (map (at_ dstIP) (seqZ 0 4))
    srcport dstport 0x12345678 0x0 CLOSED 0x1111
    (memset0 (send_buffer conn) send_buffer_size) send_buffer_size
    (memset0 (recv_buffer conn) recv_buffer_size) recv_buffer_size.

(** ** Checksum and segment *)

(** hex = (b << 8) + b'; checksum += hex *)
Definition add_hex (m : mem) (a c : Z) : Z :=
  u32 (c + u16 (Z.shiftl (mem_iord_byte m a) 8 + mem_iord_byte m (a + 1))).

Definition tcp_compute_checksum (m : mem) (pkt_addr tcp_length data_length : Z) : mem * Z :=
  let corrected_length := udp_corrected tcp_length in
  let m := if Z.land tcp_length 0x1 =? 0 then m
           else mem_iowr_byte m (pkt_addr + 34 + tcp_length) 0x00 in
  let checksum := for_up 2 0 2 (fun i c => add_hex m (pkt_addr + 26 + i) c) 0 in
  let checksum := for_up 2 0 2 (fun i c => add_hex m (pkt_addr + 30 + i) c) checksum in
  let checksum := u32 (checksum + 0x0006) in
  let checksum := u32 (checksum + tcp_length) in
  let checksum := for_up (steps2 corrected_length) 0 2 (fun i c =>
    u32 (c + (Z.shiftl (mem_iord_byte m (pkt_addr + 34 + i)) 8
              + mem_iord_byte m (pkt_addr + 34 + i + 1)))) checksum in
  (m, u16 (finish checksum)).

Definition tcp_verify_checksum (m : mem) (pkt_addr : Z) : Z := 1.

Definition tcp_header (m : mem) (conn : tcp_connection) (flags tcp_length data_length ip_length : Z) : mem :=
  let a := eth_tx_addr conn in
  let dm := at_ (dstMAC conn) in let sm := at_ (srcMAC conn) in
  let si := at_ (srcIP conn) in let di := at_ (dstIP conn) in
  let seq := seqNum conn in let ack := ackNum conn in
  let m := mem_iowr m a (word4 (dm 0) (dm 1) (dm 2) (dm 3)) in
  let m := mem_iowr m (a + 4) (word4 (dm 4) (dm 5) (sm 0) (sm 1)) in
  let m := mem_iowr m (a + 8) (word4 (sm 2) (sm 3) (sm 4) (sm 5)) in
  let m := mem_iowr m (a + 12) 0x08004500 in
  let m := mem_iowr m (a + 16) (Z.lor (Z.shiftl ip_length 16) (conn_ipv4_id conn)) in
  let m := mem_iowr m (a + 20) 0x40004006 in
  let m := mem_iowr m (a + 24) (Z.lor (Z.shiftl (si 0) 8) (si 1)) in
  let m := mem_iowr m (a + 28) (word4 (si 2) (si 3) (di 0) (di 1)) in
  let m := mem_iowr m (a + 32)
    (Z.lor (Z.lor (Z.shiftl (di 2) 24) (Z.shiftl (di 3) 16)) (srcport conn)) in
  let m := mem_iowr m (a + 36)
    (Z.lor (Z.lor (Z.shiftl (dstport conn) 16) (Z.shiftl (Z.shiftr seq 24) 8))
           (Z.land (Z.shiftr seq 16) 0xFF)) in
  let m := mem_iowr m (a + 40)
    (word4 (Z.land (Z.shiftr seq 8) 0xFF) (Z.land seq 0xFF) (Z.shiftr ack 24)
           (Z.land (Z.shiftr ack 16) 0xFF)) in
  let m := mem_iowr m (a + 44)
    (word4 (Z.land (Z.shiftr ack 8) 0xFF) (Z.land ack 0xFF)
           (Z.shiftl (tcp_length - data_length) 2) (Z.land (u8 flags) 0xFF)) in
  let m := mem_iowr m (a + 48) (Z.lor (Z.lor (Z.shiftl 0x72 24) (Z.shiftl 0x10 16)) 0x0000) in
  mem_iowr m (a + 52) 0x0000.

Definition tcp_write_frame (m : mem) (conn : tcp_connection) (flags : Z) (data : list Z)
    (data_length : Z) : mem * Z :=
  let tcp_length := u16 (data_length + 20) in
  let ip_length := u16 (tcp_length + 20) in
  let frame_length := u16 (ip_length + 14) in
  let a := eth_tx_addr conn in
  let m := tcp_header m conn flags tcp_length data_length ip_length in
  let m := for_up (Z.to_nat data_length) 0 1
             (fun i t => mem_iowr_byte t (a + 54 + i) (at_ data i)) m in
  let m := put16 m (a + 24) (ipv4_compute_checksum m a) in
  let '(m, checksum) := tcp_compute_checksum m a tcp_length data_length in
  let m := put16 m (a + 50) checksum in
  (m, frame_length).

Section Connection.
Context `{EthDev}.
Local Open Scope eth_scope.

Definition tcp_send (conn : tcp_connection) (flags : Z) (data : list Z) (data_length : Z) : M Z :=
  frame_length <- build (fun w => tcp_write_frame (w_mem w) conn flags data data_length) ;;
  eth_mac_send_nb (eth_tx_addr conn) frame_length.

(** A segment without data: tcp_send(conn, flags, {'0'}, 0). *)
Definition tcp_send_empty (conn : tcp_connection) (flags : Z) : M Z := tcp_send conn flags [0x30] 0.

(** The result and the connection after the call. *)
Definition tcp_handle (conn : tcp_connection) : M (Z * tcp_connection) :=
  let rx := eth_rx_addr conn in
  flags <- gets (fun w => tcp_get_flags (w_mem w) rx) ;;
  rx_dst_port <- gets (fun w => tcp_get_destination_port (w_mem w) rx) ;;
  if rx_dst_port =? srcport conn then
    match status conn with
    | CLOSED => tcp_send_empty conn (Z.lor RST ACK) ;; ret (1, conn)
    | LISTEN =>
        if Z.land flags SYN =? SYN then
          tcp_send_empty conn (Z.lor SYN ACK) ;; ret (0, set_status SYN_RCVD conn)
        else ret (0, conn)
    | SYN_SENT =>
        if flags =? Z.lor SYN ACK then
          seq <- gets (fun w => tcp_get_acknum (w_mem w) rx) ;;
          ack <- gets (fun w => u32 (tcp_get_seqnum (w_mem w) rx + 1)) ;;
          let conn := set_nums seq ack conn in
          tcp_send_empty conn ACK ;; ret (1, set_status ESTABLISHED conn)
        else if flags =? SYN then
          tcp_send_empty conn (Z.lor SYN ACK) ;; ret (0, set_status SYN_RCVD conn)
        else if flags =? Z.lor RST ACK then ret (0, set_status CLOSED conn)
        else tcp_send_empty conn RST ;; ret (0, set_status CLOSED conn)
    | SYN_RCVD =>
        if Z.land flags ACK =? ACK then ret (1, set_status ESTABLISHED conn) else ret (0, conn)
    | ESTABLISHED =>
        let '(resolved, conn) :=
          if flags =? FIN then (0, set_status CLOSE_WAIT conn) else (1, conn) in
        tcp_send_empty conn ACK ;; ret (resolved, conn)
    | FIN_WAIT_1 =>
        if flags =? Z.lor FIN ACK then
          tcp_send_empty conn ACK ;; ret (0, set_status TIME_WAIT conn)
        else if flags =? FIN then
          tcp_send_empty conn ACK ;; ret (0, set_status CLOSING conn)
        else if flags =? ACK then
          tcp_send_empty conn ACK ;; ret (0, set_status FIN_WAIT_2 conn)
        else ret (0, conn)
    | FIN_WAIT_2 =>
        if Z.land flags FIN =? FIN then
          tcp_send_empty conn ACK ;; ret (0, set_status CLOSING conn)
        else ret (0, conn)
    | CLOSE_WAIT => ret (0, set_status LAST_ACK conn)
    | CLOSING => ret (0, if flags =? ACK then set_status TIME_WAIT conn else conn)
    | TIME_WAIT => ret (1, set_status CLOSED conn)
    | LAST_ACK =>
        if flags =? ACK then ret (1, set_status CLOSED conn) else ret (0, conn)
    end
  else ret (1, conn).

(** if(eth_mac_receive(rx, 1)) if(mac_packet_type(rx)==TCP) k; return 0 *)
Definition on_segment (fuel : nat) (conn : tcp_connection) (k : M (Z * tcp_connection)) :
    M (Z * tcp_connection) :=
  got <- eth_mac_receive fuel (eth_rx_addr conn) 1 ;;
  if c_true got then
    type <- gets (fun w => mac_packet_type (w_mem w) (eth_rx_addr conn)) ;;
    if bool_decide (type = TCP) then k else ret (0, conn)
  else ret (0, conn).

Definition tcp_connect (fuel : nat) (conn : tcp_connection) : M (Z * tcp_connection) :=
  ok <- tcp_send conn SYN [0x30] 1 ;;
  if c_true ok then
    let conn := set_status SYN_SENT conn in
    on_segment fuel conn (tcp_handle conn)
  else ret (0, conn).

Definition tcp_listen (fuel : nat) (conn : tcp_connection) : M (Z * tcp_connection) :=
  ok <- tcp_send conn SYN [0x30] 1 ;;
  if c_true ok then
    let conn := set_status LISTEN conn in
    on_segment fuel conn (tcp_handle conn)
  else ret (0, conn).

Definition tcp_close (fuel : nat) (conn : tcp_connection) : M (Z * tcp_connection) :=
  match status conn with
  | SYN_RCVD | ESTABLISHED =>
      tcp_send_empty conn FIN ;;
      let conn := set_status FIN_WAIT_1 conn in
      on_segment fuel conn (tcp_handle conn)
  | CLOSE_WAIT =>
      tcp_send_empty conn FIN ;;
      let conn := set_status LAST_ACK conn in
      on_segment fuel conn (tcp_handle conn)
  | FIN_WAIT_1 | FIN_WAIT_2 | CLOSING | LAST_ACK => on_segment fuel conn (tcp_handle conn)
  | TIME_WAIT | CLOSED | LISTEN | SYN_SENT => ret (1, set_status CLOSED conn)
  end.

Definition tcp_push (fuel : nat) (conn : tcp_connection) : M (Z * tcp_connection) :=
  let send := tcp_send conn (Z.lor PSH ACK) (send_buffer conn) (send_buffer_size conn) in
  send ;;
  on_segment fuel conn (
    port <- gets (fun w => tcp_get_destination_port (w_mem w) (eth_rx_addr conn)) ;;
    flags <- gets (fun w => tcp_get_flags (w_mem w) (eth_rx_addr conn)) ;;
    if (port =? srcport conn) && (Z.land flags ACK =? ACK) then ret (1, conn)
    else send ;; ret (0, conn)).

Definition tcp_recv (fuel : nat) (conn : tcp_connection) : M (Z * tcp_connection) :=
  on_segment fuel conn (
    port <- gets (fun w => tcp_get_destination_port (w_mem w) (eth_rx_addr conn)) ;;
    flags <- gets (fun w => tcp_get_flags (w_mem w) (eth_rx_addr conn)) ;;
    if (port =? srcport conn) && (Z.land flags PSH =? PSH) then
      d <- gets (fun w => tcp_get_data (w_mem w) (eth_rx_addr conn) (recv_buffer conn)
                            (recv_buffer_size conn)) ;;
      let conn := set_recv (fst d) (u16 (snd d)) conn in
      tcp_send_empty conn ACK ;; ret (1, conn)
    else ret (0, conn)).

End Connection.

(** ** The transmitted segment *)

(** The bytes of a 32-bit number, most significant first. *)
Definition be32 (z : Z) : list Z := [byte_at z 24; byte_at z 16; byte_at z 8; byte_at z 0].

Definition tcp_frame (c : tcp_connection) (flags : Z) (data : list Z) (c1 c2 : Z) : list Z :=
  let il := Z.of_nat (length data) + 40 in
  dstMAC c ++ srcMAC c ++
  [8; 0; 0x45; 0; il / 256; il mod 256; conn_ipv4_id c / 256; conn_ipv4_id c mod 256;
   0x40; 0; 0x40; 6; c1 / 256; c1 mod 256] ++ srcIP c ++ dstIP c ++
  [srcport c / 256; srcport c mod 256; dstport c / 256; dstport c mod 256] ++
  be32 (seqNum c) ++ be32 (ackNum c) ++
  [0x50; u8 flags; 0x72; 0x10; c2 / 256; c2 mod 256; 0; 0] ++ data.

(** A connection whose fields have their C types, with a transmit buffer
    for [n] bytes of data. *)
Record wf_conn (c : tcp_connection) (n : Z) : Prop := {
  wc_dm : byte_array 6 (dstMAC c);
  wc_sm : byte_array 6 (srcMAC c);
  wc_si : byte_array 4 (srcIP c);
  wc_di : byte_array 4 (dstIP c);
  wc_sp : 0 <= srcport c < 65536;
  wc_dp : 0 <= dstport c < 65536;
  wc_seq : 0 <= seqNum c < 2 ^ 32;
  wc_ack : 0 <= ackNum c < 2 ^ 32;
  wc_id : 0 <= conn_ipv4_id c < 65536;
  wc_al : eth_tx_addr c mod 4 = 0;
  wc_sp_ : in_space (eth_tx_addr c) (56 + n);
  wc_n : n + 54 < 65536;
}.

Lemma shiftr_24 z : 0 <= z < 2 ^ 32 -> Z.shiftr z 24 = byte_at z 24.
Proof.
  intros Hz. rewrite byte_at_div, Z.shiftr_div_pow2, Z.mod_small by
    (first [lia | split; [apply Z.div_pos | apply Z.div_lt_upper_bound]; lia]). done.
Qed.

Lemma byte_at_0 z : Z.land z 0xFF = byte_at z 0.
Proof. unfold byte_at. by rewrite Z.shiftr_0_r. Qed.

Lemma half_hi a b : is_byte b -> (256 * a + b) / 256 = a.
Proof. unfold is_byte. intros. symmetry. apply Z.div_unique with b; lia. Qed.
Lemma half_lo a b : is_byte b -> (256 * a + b) mod 256 = b.
Proof. unfold is_byte. intros. symmetry. apply Z.mod_unique with a; lia. Qed.

Section TcpFrame.
Context (c : tcp_connection) (data : list Z) (flags : Z).
Let n := Z.of_nat (length data).
Context (Hc : wf_conn c n) (Hdata : Forall is_byte data).
Let tx := eth_tx_addr c.

Lemma tcp_header_bytes m il : 0 <= il < 65536 ->
  read_bytes (tcp_header m c flags (n + 20) n il) tx 54 =
  dstMAC c ++ srcMAC c ++
  [8; 0; 0x45; 0; il / 256; il mod 256; conn_ipv4_id c / 256; conn_ipv4_id c mod 256;
   0x40; 0; 0x40; 6; 0; 0] ++ srcIP c ++ dstIP c ++
  [srcport c / 256; srcport c mod 256; dstport c / 256; dstport c mod 256] ++
  be32 (seqNum c) ++ be32 (ackNum c) ++ [0x50; u8 flags; 0x72; 0x10; 0; 0; 0; 0].
Proof.
  intros Hil. destruct Hc as [Hdm Hsm Hsi Hdi Hsp Hdp Hseq Hack Hid Hal [Ht1 [_ Ht2]] _].
  fold tx in Hal, Ht1, Ht2. unfold tcp_header, be32. fold tx.
  replace (n + 20 - n) with 20 by lia. change (Z.shiftl 20 2) with 0x50.
  rewrite !shiftr_24, (byte_at_0 (seqNum c)), (byte_at_0 (ackNum c)), (byte_at_0 (u8 flags)) by done.
  fold (byte_at (seqNum c) 16) (byte_at (seqNum c) 8) (byte_at (ackNum c) 16) (byte_at (ackNum c) 8).
  assert (Hfl : byte_at (u8 flags) 0 = u8 flags) by (unfold byte_at; rewrite Z.shiftr_0_r, land_255; apply u8_u8).
  rewrite Hfl.
  pose proof (byte_at_range (seqNum c)) as Rs. pose proof (byte_at_range (ackNum c)) as Ra.
  pose proof (u8_range flags) as Rf.
  generalize dependent (byte_at (seqNum c)). intros sq Rs.
  generalize dependent (byte_at (ackNum c)). intros ak Ra.
  generalize dependent (u8 flags). intros fl Hfl Rf.
  destruct (byte_array_6 _ Hdm) as (d0&d1&d2&d3&d4&d5&E1&?&?&?&?&?&?).
  destruct (byte_array_6 _ Hsm) as (s0&s1&s2&s3&s4&s5&E2&?&?&?&?&?&?).
  destruct (byte_array_4 _ Hsi) as (i0&i1&i2&i3&E3&?&?&?&?).
  destruct (byte_array_4 _ Hdi) as (j0&j1&j2&j3&E4&?&?&?&?).
  rewrite E1, E2, E3, E4. arr.
  set (sport := srcport c) in *. set (dport := dstport c) in *. set (id := conn_ipv4_id c) in *.
  destruct (word4_lanes d0 d1 d2 d3) as (?&?&?&?); [done..|].
  destruct (word4_lanes d4 d5 s0 s1) as (?&?&?&?); [done..|].
  destruct (word4_lanes s2 s3 s4 s5) as (?&?&?&?); [done..|].
  destruct (word4_lanes i2 i3 j0 j1) as (?&?&?&?); [done..|].
  destruct (word4_lanes (sq 8) (sq 0) (ak 24) (ak 16)) as (?&?&?&?); [apply Rs | apply Rs | apply Ra | apply Ra|].
  destruct (word4_lanes (ak 8) (ak 0) 0x50 fl) as (?&?&?&?); [apply Ra | apply Ra | done | done |].
  rewrite (lor_shift il id 16), (lor_bytes i0 i1), (word_112 j2 j3 sport) by (done || lia).
  rewrite <- (Z.lor_assoc (Z.shiftl dport 16)), (lor_bytes (sq 24) (sq 16)), (lor_shift dport _ 16)
    by (try apply Rs; pose proof (Rs 24); pose proof (Rs 16); lia).
  destruct (half_lanes il id) as (?&?&?&?); [done..|].
  destruct (half_lanes dport (256 * sq 24 + sq 16)) as (?&?&P3&P4);
    [done | pose proof (Rs 24); pose proof (Rs 16); lia |].
  rewrite (half_hi (sq 24) (sq 16) (Rs 16)) in P3. rewrite (half_lo (sq 24) (sq 16) (Rs 16)) in P4.
  destruct (be_lanes 0 0 i0 i1) as (Z1&Z2&Z3&Z4); [done..|].
  destruct (be_lanes j2 j3 (sport / 256) (sport mod 256)) as (Y1&Y2&Y3&Y4); [auto with word..|].
  replace (0 * 2 ^ 24 + 0 * 2 ^ 16 + i0 * 2 ^ 8 + i1) with (256 * i0 + i1) in Z1, Z2, Z3, Z4 by lia.
  replace (j2 * 2 ^ 24 + j3 * 2 ^ 16 + sport / 256 * 2 ^ 8 + sport mod 256)
    with (j2 * 2 ^ 24 + j3 * 2 ^ 16 + sport) in Y1, Y2, Y3, Y4
    by (pose proof (div_mod_256 sport); lia).
  clearbody sport dport id tx.
  each_byte; rd_frame; lane; first [assumption | reflexivity].
Qed.
End TcpFrame.

(** ** Checksums *)

Definition tcp_total (frame : list Z) : Z :=
  wsum (drop 34 frame) + wsum (take 8 (drop 26 frame)) + 6 + (Z.of_nat (length frame) - 34).

Definition tcp_valid (frame : list Z) : Prop := oc (tcp_total frame) = 65535.

Lemma tcp_total_rd m a tl : 0 <= tl ->
  tcp_total (read_bytes m a (34 + tl)) =
  wsum (read_bytes m (a + 34) tl) + wsum (read_bytes m (a + 26) 8) + 6 + tl.
Proof.
  intros Hl. pose proof (udp_total_rd m a tl Hl) as Ht. unfold udp_total in Ht.
  unfold tcp_total. lia.
Qed.

Lemma add_hex_val m a c :
  add_hex m a c = u32 (c + (256 * mem_iord_byte m a + mem_iord_byte m (a + 1))).
Proof.
  unfold add_hex. pose proof (iord_byte_range m a). pose proof (iord_byte_range m (a + 1)).
  rewrite Z.shiftl_mul_pow2, u16_small by lia. do 2 f_equal. lia.
Qed.

Lemma tcp_pseudo_val m a c : 0 <= c < 65536 ->
  for_up 2 0 2 (fun i c => add_hex m (a + 30 + i) c)
    (for_up 2 0 2 (fun i c => add_hex m (a + 26 + i) c) c) =
  c + wsum (read_bytes m (a + 26) 8).
Proof.
  intros Hc. cbn [for_up]. rewrite !add_hex_val, !u32_add_l.
  change 8 with (0 + 1 + 1 + 1 + 1 + 1 + 1 + 1 + 1).
  rewrite !read_bytes_S, read_bytes_nil by lia. cbn [wsum].
  replace (a + 26 + 0) with (a + 26) by lia.
  replace (a + 26 + (0 + 2)) with (a + 26 + 1 + 1) by lia.
  replace (a + 30 + 0) with (a + 26 + 1 + 1 + 1 + 1) by lia.
  replace (a + 30 + (0 + 2)) with (a + 26 + 1 + 1 + 1 + 1 + 1 + 1) by lia.
  repeat match goal with |- context [mem_iord_byte m ?x] =>
    pose proof (iord_byte_range m x); generalize dependent (mem_iord_byte m x); intros end.
  rewrite (u32_small (c + _ + _)) by lia. rewrite u32_small; lia.
Qed.

Lemma tcp_compute_val m a tl dl : 0 <= tl < 65535 -> in_space a (35 + tl) ->
  tcp_compute_checksum m a tl dl =
  (udp_pad m a tl, 65535 - oc (tcp_total (read_bytes m a (34 + tl)))).
Proof.
  intros Hl Ha. unfold tcp_compute_checksum.
  assert (Hp : (if Z.land tl 1 =? 0 then m else mem_iowr_byte m (a + 34 + tl) 0) = udp_pad m a tl).
  { unfold udp_pad. by replace (a + 34 + tl) with (a + tl + 34) by lia. }
  rewrite Hp. f_equal. rewrite tcp_pseudo_val by lia.
  pose proof (wsum_packet_range m (a + 34) tl ltac:(lia)) as Hr1.
  assert (Hps : read_bytes (udp_pad m a tl) (a + 26) 8 = read_bytes m (a + 26) 8).
  { destruct Ha as [? [_ ?]]. apply read_bytes_ext. intros i Hi. rewrite rd_udp_pad by lia.
    replace (a + 26 + i =? a + tl + 34) with false by lia. by rewrite andb_false_r. }
  rewrite Hps.
  destruct (wsum_range (read_bytes m (a + 26) 8)) as [Hr3 Hr4]; [apply read_bytes_array|].
  rewrite read_bytes_length, Z2Nat.id in Hr4 by lia. change ((8 + 1) / 2) with 4 in Hr4.
  rewrite (u32_small (_ + 6)), (u32_small (_ + tl)) by lia.
  rewrite (for_up_ext _ (fun i c => add_word (udp_pad m a tl) (a + 34 + i) (a + 34 + 1 + i) c) _ _ 0).
  2:{ intros k t _. rewrite add_word_val, Z.shiftl_mul_pow2 by lia. f_equal.
      replace (a + 34 + 1 + (0 + 2 * k)) with (a + 34 + (0 + 2 * k) + 1) by lia. lia. }
  change (for_up ?n 0 2 _ ?c) with (sum_words (udp_pad m a tl) (a + 34) n c).
  rewrite sum_words_exact, udp_sum16 by (rewrite ?udp_sum16; (done || lia)).
  rewrite tcp_total_rd, finish_val by lia.
  match goal with |- u16 (65535 - oc ?x) = 65535 - oc ?y => replace x with y by lia end.
  match goal with |- u16 (65535 - oc ?x) = _ => pose proof (oc_range x ltac:(lia)) end.
  apply u16_small. lia.
Qed.

(** ** The frame in memory *)

Section WriteTcp.
Context (c : tcp_connection) (data : list Z) (flags : Z).
Let n := Z.of_nat (length data).
Context (Hc : wf_conn c n) (Hdata : Forall is_byte data).
Let tx := eth_tx_addr c.
Let frame := tcp_frame c flags data.

Lemma tcp_mem_frame m :
  read_bytes (for_up (Z.to_nat n) 0 1 (fun i t => mem_iowr_byte t (tx + 54 + i) (at_ data i))
    (tcp_header m c flags (n + 20) n (n + 40))) tx (54 + n) = frame 0 0.
Proof.
  destruct (wc_sp_ _ _ Hc) as [Ht1 [_ Ht2]]. fold tx in Ht1, Ht2. pose proof (wc_n _ _ Hc) as Hn.
  rewrite read_bytes_app by lia.
  match goal with |- read_bytes (for_up ?k 0 1 ?b ?m0) tx 54 ++ _ = _ =>
    assert (Hh : read_bytes (for_up k 0 1 b m0) tx 54 = read_bytes m0 tx 54) end.
  { apply read_bytes_ext. intros i Hi. rewrite rd_fill by (unfold in_space; lia). by zdec. }
  pose proof (tcp_header_bytes c data flags Hc m (n + 40) ltac:(lia)) as Hb. fold n tx in Hb.
  rewrite Hh, Hb. unfold frame, tcp_frame. fold n.
  rewrite <- !app_assoc. repeat (apply f_equal2; [reflexivity|]).
  apply read_bytes_list; [done|]. intros i Hi. rewrite rd_fill by (unfold in_space; lia). zdec.
  rewrite (at_u8 (length data)) by (by split). f_equal. lia.
Qed.


Lemma tcp_frame_set c1 c2 v :
  take 24 (frame c1 c2) ++ [v / 256; v mod 256] ++ drop 26 (frame c1 c2) = frame v c2 /\
  take 50 (frame c1 c2) ++ [v / 256; v mod 256] ++ drop 52 (frame c1 c2) = frame c1 v.
Proof.
  destruct (length_6 _ (proj1 (wc_dm _ _ Hc))) as (?&?&?&?&?&?&E1).
  destruct (length_6 _ (proj1 (wc_sm _ _ Hc))) as (?&?&?&?&?&?&E2).
  destruct (length_4 _ (proj1 (wc_si _ _ Hc))) as (?&?&?&?&E3).
  destruct (length_4 _ (proj1 (wc_di _ _ Hc))) as (?&?&?&?&E4).
  unfold frame, tcp_frame, be32. rewrite E1, E2, E3, E4. done.
Qed.

Lemma tcp_frame_len c1 c2 : Z.of_nat (length (frame c1 c2)) = 54 + n.
Proof.
  unfold frame, tcp_frame.
  rewrite !length_app, (proj1 (wc_dm _ _ Hc)), (proj1 (wc_sm _ _ Hc)), (proj1 (wc_si _ _ Hc)),
    (proj1 (wc_di _ _ Hc)).
  cbn [length be32]. unfold n. lia.
Qed.

Lemma tcp_frame_fields c1 c2 :
  let f := frame c1 c2 in
  at_ f 12 = 8 /\ at_ f 13 = 0 /\ at_ f 16 = (n + 40) / 256 /\ at_ f 17 = (n + 40) mod 256 /\
  at_ f 23 = 6 /\ at_ f 25 = c1 mod 256 /\
  take 4 (drop 26 f) = srcIP c /\ take 4 (drop 30 f) = dstIP c /\
  take 2 (drop 34 f) = [srcport c / 256; srcport c mod 256] /\
  take 2 (drop 36 f) = [dstport c / 256; dstport c mod 256] /\
  take 4 (drop 38 f) = be32 (seqNum c) /\ take 4 (drop 42 f) = be32 (ackNum c) /\
  at_ f 46 = 0x50 /\ at_ f 47 = u8 flags /\ take 2 (drop 48 f) = [0x72; 0x10] /\
  drop 54 f = data.
Proof.
  destruct (length_6 _ (proj1 (wc_dm _ _ Hc))) as (?&?&?&?&?&?&E1).
  destruct (length_6 _ (proj1 (wc_sm _ _ Hc))) as (?&?&?&?&?&?&E2).
  destruct (length_4 _ (proj1 (wc_si _ _ Hc))) as (?&?&?&?&E3).
  destruct (length_4 _ (proj1 (wc_di _ _ Hc))) as (?&?&?&?&E4).
  unfold frame, tcp_frame, be32, n. rewrite E1, E2, E3, E4. split_and!; reflexivity.
Qed.

Lemma tcp_frame_sums c1 c2 :
  take 20 (drop 14 (frame c1 c2)) = take 20 (drop 14 (frame c1 0)) /\
  tcp_total (frame c1 c2) = tcp_total (frame c1 0) + c2.
Proof.
  unfold tcp_total. rewrite !tcp_frame_len.
  destruct (length_6 _ (proj1 (wc_dm _ _ Hc))) as (?&?&?&?&?&?&E1).
  destruct (length_6 _ (proj1 (wc_sm _ _ Hc))) as (?&?&?&?&?&?&E2).
  destruct (length_4 _ (proj1 (wc_si _ _ Hc))) as (?&?&?&?&E3).
  destruct (length_4 _ (proj1 (wc_di _ _ Hc))) as (?&?&?&?&E4).
  unfold frame, tcp_frame, be32. rewrite E1, E2, E3, E4. split; [done|].
  cbn [app drop take wsum]. pose proof (div_mod_256 c2).
  change (0 / 256) with 0. change (0 mod 256) with 0. lia.
Qed.

(** The segment in the transmit buffer carries valid checksums. *)
Lemma tcp_write_frame_spec m :
  let r := tcp_write_frame m c flags data n in
  snd r = 54 + n /\ exists c1 c2, 0 <= c1 < 65536 /\ 0 <= c2 < 65536 /\
    read_bytes (fst r) tx (54 + n) = frame c1 c2 /\
    ip_valid (frame c1 c2) /\ tcp_valid (frame c1 c2).
Proof.
  intros r. subst r. destruct (wc_sp_ _ _ Hc) as [Ht1 [_ Ht2]]. fold tx in Ht1, Ht2.
  pose proof (wc_n _ _ Hc) as Hn.
  unfold tcp_write_frame. fold tx.
  rewrite (u16_small (n + 20)), (u16_small (n + 20 + 20)), (u16_small (n + 20 + 20 + 14)) by lia.
  replace (n + 20 + 20) with (n + 40) by lia.
  pose proof (tcp_mem_frame m) as Hf1.
  set (m1 := for_up _ 0 1 _ _) in *. clearbody m1.
  set (c1 := ipv4_compute_checksum m1 tx).
  assert (Hc1 : 0 <= c1 < 65536) by (unfold c1, ipv4_compute_checksum; apply u16_range).
  assert (Hip : ipv4_verify_checksum (put16 m1 (tx + 24) c1) tx = 1).
  { apply ipv4_checksum_stored; [unfold in_space; lia|].
    rewrite <- (at_read_bytes m1 tx (54 + n) 25), Hf1 by lia.
    by destruct (tcp_frame_fields 0 0) as (_&_&_&_&_&->&_). }
  assert (Hf2 : read_bytes (put16 m1 (tx + 24) c1) tx (54 + n) = frame c1 0).
  { rewrite read_put16, Hf1 by (unfold in_space; lia). apply tcp_frame_set. }
  set (m2 := put16 m1 (tx + 24) c1) in *. clearbody m2 c1.
  rewrite tcp_compute_val by (unfold in_space; lia).
  replace (34 + (n + 20)) with (54 + n) by lia. rewrite Hf2. cbn [fst snd]. split; [lia|].
  assert (Ht : 0 <= tcp_total (frame c1 0) < 4294967296 - 65535).
  { rewrite <- Hf2. replace (54 + n) with (34 + (n + 20)) by lia. rewrite tcp_total_rd by lia.
    pose proof (proj2 (udp_total_range m2 tx (n + 20) ltac:(lia))) as Hu.
    rewrite udp_total_rd in Hu by lia.
    pose proof (wsum_packet_range m2 (tx + 34) (n + 20) ltac:(lia)).
    pose proof (wsum_packet_range m2 (tx + 26) 8 ltac:(lia)). lia. }
  set (c2 := 65535 - oc (tcp_total (frame c1 0))).
  assert (Hc2 : 0 <= c2 < 65536) by (pose proof (oc_range (tcp_total (frame c1 0))); lia).
  exists c1, c2. split_and!; [lia.. | | |].
  - rewrite read_put16 by (unfold in_space; lia).
    replace (54 + n) with (34 + (n + 20)) by lia. rewrite read_udp_pad by lia.
    replace (34 + (n + 20)) with (54 + n) by lia. rewrite Hf2. apply tcp_frame_set.
  - unfold ip_valid. rewrite (proj1 (tcp_frame_sums c1 c2)). fold (ip_valid (frame c1 0)).
    rewrite <- Hf2, ip_valid_rd by lia. by apply ipv4_verify_val.
  - unfold tcp_valid. rewrite (proj2 (tcp_frame_sums c1 c2)). apply stored_valid; lia.
Qed.
End WriteTcp.
