(* ===== verification/TcpConn.v ===== *)
(** TcpConn: what TCP connections do.

    Proofs about c/ethlib/tcp.c (definitions in [Tcp]): a sent segment is
    well-formed and read back by a receiver, a connection becomes
    ESTABLISHED only through a handshake, and the three-way handshake of
    two endpoints running this code. *)

From stdpp Require Import base numbers list gmap.
From S2P Require Import Prelude EthIO World EthMac Mac Checksum Ipv4 Arp ArpProto Icmp Udp Tcp.

(** ** Sending *)

Section Send.
Context `{EthDevSpec}.
Local Open Scope eth_scope.

(** The non-blocking send hands the frame to an idle controller.  The
    descriptor is then written a second time, READY without the length: the
    controller, which has taken the first descriptor and transmits no frame
    of 4 bytes or less, sends nothing for it.  The call does not wait, so
    the transmitter need not be idle when it returns. *)
Lemma eth_mac_send_nb_spec tx len w :
  0 <= tx < 2 ^ 32 -> 4 < len < 2 ^ 16 -> tx_idle (w_dev w) ->
  (forall i, 0 <= i < len -> ~ rx_window (w_dev w) (tx + i)) ->
  exists w', eth_mac_send_nb tx len w = Some (1, w') /\
    wire (w_dev w') = wire (w_dev w) ++ [read_bytes (w_mem w) tx len] /\
    w_arp_table w' = w_arp_table w.
Proof.
  intros Htx Hlen Hidle Hrx. unfold eth_mac_send_nb. unfold bind at 1.
  destruct (eth_iord_env TX_BD_ADDR_BASE w) as (v0 & w1 & -> & He1 & Hw1 & _).
  unfold TX_BD_READY_BIT at 1. rewrite land_32768_ne_1.
  destruct (tx_descriptor len ltac:(lia)) as (Hv1 & Hv2 & Hv4 & Hv3).
  set (v := Z.lor (Z.shiftl len 16) 0xF000) in *.
  unfold bind, eth_iowr, modify, ret. cbn [w_mem w_dev set_dev].
  rewrite Hv1, (u32_small tx) by lia.
  set (v2 := u32 (Z.lor _ _)). assert (Hl : Z.shiftr v2 16 <= 4) by (vm_compute; discriminate). clearbody v2.
  set (d1 := reg_wr (cell (TX_BD_ADDR_BASE + 4)) tx (w_mem w1) (w_dev w1)).
  set (d2 := reg_wr (cell TX_BD_ADDR_BASE) v (w_mem w1) d1).
  set (d3 := reg_wr (cell INT_SOURCE_ADDR) (u32 INT_SOURCE_TXB_BIT) (w_mem w1) d2).
  set (d4 := reg_wr (cell TX_BD_ADDR_BASE) v2 (w_mem w1) d3).
  pose proof (wr_tx_pointer tx (w_mem w1) (w_dev w1)) as (Hp1 & Hp2 & _). fold d1 in Hp1, Hp2.
  assert (Hid1 : tx_idle d1) by (apply wr_idle, (es_idle _ _ He1), Hidle; vm_compute; discriminate).
  pose proof (wr_tx_ready v (w_mem w1) d1 Hid1 Hv2 Hv4 ltac:(lia)) as (_ & Hr2 & _). fold d2 in Hr2.
  pose proof (wr_int_source (u32 INT_SOURCE_TXB_BIT) (w_mem w1) d2) as (_ & Hi2 & _). fold d3 in Hi2.
  pose proof (wr_tx_short v2 (w_mem w1) d3 Hl) as (_ & Hs2 & _). fold d4 in Hs2.
  eexists. split; [reflexivity|]. split; [|apply He1].
  cbn [w_dev set_dev]. fold d1 d2 d3 d4. rewrite Hs2, Hi2, Hr2, Hp2, Hw1, Hp1, Hv3. do 2 f_equal.
  apply read_bytes_ext. intros i Hi. apply (es_mem _ _ He1), Hrx. lia.
Qed.

(** The transmitter is idle and the transmit buffer of the connection is not
    a receive buffer. *)
Definition conn_tx_ok (w : world) (c : tcp_connection) (n : Z) : Prop :=
  tx_idle (w_dev w) /\ forall i, 0 <= i < 54 + n -> ~ rx_window (w_dev w) (eth_tx_addr c + i).

Lemma tcp_send_spec c flags data w :
  let n := Z.of_nat (length data) in
  wf_conn c n -> Forall is_byte data -> conn_tx_ok w c n ->
  exists w' c1 c2, tcp_send c flags data n w = Some (1, w') /\
    let frame := tcp_frame c flags data c1 c2 in
    wire (w_dev w') = wire (w_dev w) ++ [frame] /\ ip_valid frame /\ tcp_valid frame /\
    w_arp_table w' = w_arp_table w.
Proof.
  intros n Hc Hd Hok.
  destruct (tcp_write_frame_spec c data flags Hc Hd (w_mem w))
    as (Hlen & c1 & c2 & _ & _ & Hfr & Hip & Htcp). fold n in Hlen, Hfr.
  unfold tcp_send, bind, build.
  destruct (tcp_write_frame _ _ _ _ _) as [m1 len]. cbn [fst snd] in *. subst len.
  destruct (wc_sp_ _ _ Hc) as [Ht1 [Ht3 Ht2]]. pose proof (wc_n _ _ Hc) as Hn.
  destruct (eth_mac_send_nb_spec (eth_tx_addr c) (54 + n) (set_mem m1 w)) as (w' & -> & Hwire & He);
    [lia | lia | apply Hok | apply Hok |].
  exists w', c1, c2. split; [done|]. cbn [w_dev set_mem w_mem] in Hwire. rewrite Hwire, Hfr.
  by split_and!.
Qed.

(** C33: tcp_send transmits one well-formed segment.  For every connection
    and payload that fits, when the transmitter is idle, it returns 1 after
    handing the controller exactly one frame, with the connection's
    addresses, ports, sequence and acknowledgement numbers, the flags and
    the payload; both checksums are valid. *)
Theorem tcp_send_correct c flags data w :
  let n := Z.of_nat (length data) in
  wf_conn c n -> Forall is_byte data -> conn_tx_ok w c n ->
  exists w' c1 c2, tcp_send c flags data n w = Some (1, w') /\
    let frame := tcp_frame c flags data c1 c2 in
    wire (w_dev w') = wire (w_dev w) ++ [frame] /\ ip_valid frame /\ tcp_valid frame /\
    w_arp_table w' = w_arp_table w.
Proof. apply tcp_send_spec. Qed.

End Send.

(** ** Receiving *)

Lemma be32_val z : 0 <= z < 2 ^ 32 ->
  z = byte_at z 24 * 2 ^ 24 + byte_at z 16 * 2 ^ 16 + byte_at z 8 * 2 ^ 8 + byte_at z 0.
Proof. apply word_bytes. Qed.

Lemma u32_be32 m a z : 0 <= z < 2 ^ 32 -> read_bytes m a 4 = be32 z ->
  u32 (Z.shiftl (mem_iord_byte m a) 24 + Z.shiftl (mem_iord_byte m (a + 1)) 16
       + Z.shiftl (mem_iord_byte m (a + 2)) 8 + mem_iord_byte m (a + 3)) = z.
Proof.
  intros Hz Hb. rewrite <- (at_read_bytes m a 4 1), <- (at_read_bytes m a 4 2),
    <- (at_read_bytes m a 4 3) by lia.
  pose proof (at_read_bytes m a 4 0 ltac:(lia)) as H0. rewrite Z.add_0_r in H0.
  rewrite <- H0, Hb. unfold be32. arr.
  rewrite !Z.shiftl_mul_pow2, <- be32_val by lia. apply u32_small. lia.
Qed.

Lemma u16_be16 m a z : read_bytes m a 2 = [z / 256; z mod 256] -> 0 <= z < 65536 ->
  u16 (Z.shiftl (mem_iord_byte m a) 8 + mem_iord_byte m (a + 1)) = z.
Proof.
  intros Hb Hz. rewrite <- (at_read_bytes m a 2 1) by lia.
  pose proof (at_read_bytes m a 2 0 ltac:(lia)) as H0. rewrite Z.add_0_r in H0.
  rewrite <- H0, Hb. arr. rewrite Z.shiftl_mul_pow2, u16_small;
    pose proof (div_mod_256 z); lia.
Qed.

(** Copying into an array that is long enough. *)
Lemma copy_into (f : Z -> Z) k : forall d, (k <= length d)%nat ->
  for_up k 0 1 (fun i d => <[Z.to_nat i := f i]> d) d =
  map f (seqZ 0 (Z.of_nat k)) ++ drop k d.
Proof.
  assert (G : forall k i d, 0 <= i -> (Z.to_nat i + k <= length d)%nat ->
    for_up k i 1 (fun i d => <[Z.to_nat i := f i]> d) d =
    take (Z.to_nat i) d ++ map f (seqZ i (Z.of_nat k)) ++ drop (Z.to_nat i + k) d).
  { clear. induction k as [|k IH]; intros i d Hi Hl; cbn [for_up].
    - rewrite seqZ_nil, Nat.add_0_r by lia. cbn [map app]. by rewrite take_drop.
    - rewrite IH by (rewrite ?length_insert; lia).
      rewrite (seqZ_cons i) by lia. cbn [map].
      replace (Z.to_nat (i + 1)) with (S (Z.to_nat i)) by lia.
      replace (Z.pred (Z.of_nat (S k))) with (Z.of_nat k) by lia.
      replace (Z.succ i) with (i + 1) by lia.
      rewrite (take_S_r _ _ (f i)) by (apply list_lookup_insert_eq; lia).
      rewrite take_insert_ge, drop_insert_lt by lia. rewrite <- app_assoc. cbn [app].
      by replace (S (Z.to_nat i) + k)%nat with (Z.to_nat i + S k)%nat by lia. }
  intros d Hl. rewrite G by lia. done.
Qed.

(** The checksum getter reads the word that starts at offset 48. *)
Lemma tcp_checksum_field m rx h l :
  wf_mem m -> rx mod 4 = 0 -> 0 <= rx -> rx + 54 <= 2 ^ 32 ->
  read_bytes m (rx + 48) 2 = [h; l] -> tcp_get_checksum m rx = 256 * h + l.
Proof.
  intros Hm Hal H0 H1 Hb. unfold tcp_get_checksum.
  assert (Hmod : (rx + 48) mod 4 = 0) by (by rewrite Z.add_mod, Hal by lia).
  assert (Hw : mem_iord m (rx + 50) = mem_iord m (rx + 48)).
  { unfold mem_iord. f_equal. symmetry. apply cell_aligned; lia. }
  rewrite Hw, mem_iord_bytes by (done || lia). pose proof (iord_byte_range m) as Hr.
  rewrite (proj2 (word_halves _ _ _ _ (Hr _) (Hr _) (Hr _) (Hr _))).
  rewrite <- (at_read_bytes m (rx + 48) 2 1) by lia.
  pose proof (at_read_bytes m (rx + 48) 2 0 ltac:(lia)) as E0. rewrite Z.add_0_r in E0.
  by rewrite <- E0, Hb.
Qed.

(** A received segment is read back.  When the frame of
    [tcp_send_correct] is in a receive buffer, it is classified as TCP and
    the getters return the ports, sequence and acknowledgement numbers,
    flags and payload that were sent.  tcp_get_checksum is the exception:
    it reads the aligned word before the field and returns the window
    size 0x7210 whatever the checksum is. *)
Theorem tcp_receive_roundtrip m rx c flags data c1 c2 buf size :
  let n := Z.of_nat (length data) in
  wf_conn c n -> Forall is_byte data -> (length data <= length buf)%nat ->
  wf_mem m -> rx mod 4 = 0 -> in_space rx (54 + n) ->
  ip_valid (tcp_frame c flags data c1 c2) ->
  read_bytes m rx (54 + n) = tcp_frame c flags data c1 c2 ->
  mac_packet_type m rx = TCP /\ ipv4_verify_checksum m rx = 1 /\
  tcp_get_source_port m rx = srcport c /\ tcp_get_destination_port m rx = dstport c /\
  tcp_get_seqnum m rx = seqNum c /\ tcp_get_acknum m rx = ackNum c /\
  tcp_get_flags m rx = u8 flags /\ tcp_get_header_length m rx = 20 /\
  tcp_get_data_length m rx = n /\
  tcp_get_data m rx buf size = (data ++ drop (length data) buf, n) /\
  tcp_get_checksum m rx = 0x7210.
Proof.
  intros n Hc Hd Hbuf Hm Hal [Hr1 [_ Hr2]] Hip Hf.
  pose proof (tcp_frame_fields c data flags Hc c1 c2) as Hfld. cbv zeta in Hfld. fold n in Hfld.
  rewrite <- Hf in Hfld. rewrite !at_read_bytes in Hfld by lia.
  destruct Hfld as (F12&F13&F16&F17&F23&_&_&_&F34&F36&F38&F42&F46&F47&F48&F54).
  apply (eq_trans (read_bytes_slice m rx (54 + n) 34 2 ltac:(lia) ltac:(lia) ltac:(lia))) in F34.
  apply (eq_trans (read_bytes_slice m rx (54 + n) 36 2 ltac:(lia) ltac:(lia) ltac:(lia))) in F36.
  apply (eq_trans (read_bytes_slice m rx (54 + n) 38 4 ltac:(lia) ltac:(lia) ltac:(lia))) in F38.
  apply (eq_trans (read_bytes_slice m rx (54 + n) 42 4 ltac:(lia) ltac:(lia) ltac:(lia))) in F42.
  apply (eq_trans (read_bytes_slice m rx (54 + n) 48 2 ltac:(lia) ltac:(lia) ltac:(lia))) in F48.
  destruct Hc as [_ _ _ _ Hsp Hdp Hseq Hack _ _ _ Hn].
  assert (Hhl : tcp_get_header_length m rx = 20) by (unfold tcp_get_header_length; by rewrite F46).
  assert (Hil : ipv4_get_length m rx = n + 40)
    by (rewrite ipv4_get_length_val, F16, F17; apply div_mod_256).
  assert (Hdl : tcp_get_data_length m rx = n)
    by (unfold tcp_get_data_length; rewrite Hil, Hhl; rewrite u16_small; lia).
  split_and!.
  - pose proof (mac_packet_type_class m rx) as Hcl. unfold ethertype, ip_proto in Hcl.
    rewrite F12, F13, F23 in Hcl. destruct (mac_packet_type m rx); cbn [frame_class] in Hcl; try done; lia.
  - apply ipv4_verify_val. rewrite <- (ip_valid_rd m rx (54 + n)), Hf by lia. done.
  - unfold tcp_get_source_port. replace (rx + 35) with (rx + 34 + 1) by lia. by apply u16_be16.
  - unfold tcp_get_destination_port. replace (rx + 37) with (rx + 36 + 1) by lia. by apply u16_be16.
  - unfold tcp_get_seqnum. replace (rx + 39) with (rx + 38 + 1) by lia.
    replace (rx + 40) with (rx + 38 + 2) by lia. replace (rx + 41) with (rx + 38 + 3) by lia.
    by apply u32_be32.
  - unfold tcp_get_acknum. replace (rx + 43) with (rx + 42 + 1) by lia.
    replace (rx + 44) with (rx + 42 + 2) by lia. replace (rx + 45) with (rx + 42 + 3) by lia.
    by apply u32_be32.
  - unfold tcp_get_flags. by rewrite F47, land_255, !u8_u8.
  - done.
  - done.
  - unfold tcp_get_data. rewrite Hdl, Hhl. f_equal. unfold n at 1. rewrite Nat2Z.id, copy_into by done.
    f_equal. etrans; [|exact F54]. rewrite (read_bytes_app m rx 54 n), drop_app_length' by
      (rewrite ?read_bytes_length; lia). fold n. unfold read_bytes. apply map_ext. intros i.
    rewrite u8_small by apply iord_byte_range. f_equal. lia.
  - rewrite (tcp_checksum_field m rx 0x72 0x10) by (done || lia). done.
Qed.

(** ** The connection state machine *)

Section Fsm.
Context `{EthDev}.
Local Open Scope eth_scope.

(** Sending an empty segment always succeeds and leaves the connection to
    the caller. *)
Lemma tcp_send_returns c flags data len w : exists w', tcp_send c flags data len w = Some (1, w').
Proof.
  unfold tcp_send, bind, build. destruct (tcp_write_frame _ _ _ _ _) as [m1 fl].
  unfold eth_mac_send_nb, bind, eth_iord. destruct (reg_rd _ _ _) as [v [m' d']].
  unfold TX_BD_READY_BIT at 1. rewrite land_32768_ne_1. by eexists.
Qed.

Lemma bind_send_empty {A} c flags (k : M A) w : exists w',
  (tcp_send_empty c flags ;; k) w = k w'.
Proof.
  unfold bind, tcp_send_empty. destruct (tcp_send_returns c flags [0x30] 0 w) as (w' & ->).
  by exists w'.
Qed.

Lemma bind_gets {A B} (f : world -> A) (k : A -> M B) w : (x <- gets f ;; k x) w = k (f w) w.
Proof. done. Qed.

(** The diagram: the state after a segment with the given flags. *)
Definition tcp_next (s : tcpstate) (flags : Z) : tcpstate :=
  match s with
  | CLOSED => CLOSED
  | LISTEN => if Z.land flags SYN =? SYN then SYN_RCVD else LISTEN
  | SYN_SENT => if flags =? Z.lor SYN ACK then ESTABLISHED
                else if flags =? SYN then SYN_RCVD else CLOSED
  | SYN_RCVD => if Z.land flags ACK =? ACK then ESTABLISHED else SYN_RCVD
  | ESTABLISHED => if flags =? FIN then CLOSE_WAIT else ESTABLISHED
  | FIN_WAIT_1 => if flags =? Z.lor FIN ACK then TIME_WAIT else if flags =? FIN then CLOSING
                  else if flags =? ACK then FIN_WAIT_2 else FIN_WAIT_1
  | FIN_WAIT_2 => if Z.land flags FIN =? FIN then CLOSING else FIN_WAIT_2
  | CLOSE_WAIT => LAST_ACK
  | CLOSING => if flags =? ACK then TIME_WAIT else CLOSING
  | TIME_WAIT => CLOSED
  | LAST_ACK => if flags =? ACK then CLOSED else LAST_ACK
  end.

(** The segment in the receive buffer of a connection. *)
Definition seg_flags (c : tcp_connection) (w : world) : Z := tcp_get_flags (w_mem w) (eth_rx_addr c).
Definition seg_for (c : tcp_connection) (w : world) : bool :=
  tcp_get_destination_port (w_mem w) (eth_rx_addr c) =? srcport c.

(** What stays the same when a segment is handled: everything but the
    state, and the numbers, which are only set from a SYN|ACK. *)
Definition same_conn (c c' : tcp_connection) : Prop :=
  c' = set_nums (seqNum c') (ackNum c') (set_status (status c') c).

Lemma same_conn_status s c : same_conn c (set_status s c).
Proof. by destruct c. Qed.
Lemma same_conn_refl c : same_conn c c.
Proof. by destruct c. Qed.
Lemma same_conn_nums a b s c : same_conn c (set_status s (set_nums a b c)).
Proof. by destruct c. Qed.

Lemma tcp_handle_spec c w : exists r c' w',
  tcp_handle c w = Some ((r, c'), w') /\ same_conn c c' /\
  if seg_for c w then
    status c' = tcp_next (status c) (seg_flags c w) /\
    (seqNum c', ackNum c') =
      (if bool_decide (status c = SYN_SENT) && (seg_flags c w =? Z.lor SYN ACK)
       then (tcp_get_acknum (w_mem w) (eth_rx_addr c),
             u32 (tcp_get_seqnum (w_mem w) (eth_rx_addr c) + 1))
       else (seqNum c, ackNum c))
  else r = 1 /\ c' = c /\ w' = w.
Proof.
  unfold tcp_handle, seg_for. rewrite !bind_gets. fold (seg_flags c w).
  destruct (_ =? srcport c).
  2:{ exists 1, c, w. split_and!; try done. apply same_conn_refl. }
  destruct (status c) eqn:Es; cbn [tcp_next];
    [rewrite bool_decide_false by done | rewrite bool_decide_false by done
    |rewrite bool_decide_true by done | rewrite bool_decide_false by done ..];
    cbn [andb]; repeat case_match; simplify_eq; rewrite ?bind_gets;
    try match goal with |- context [bind (tcp_send_empty ?c0 ?f) (fun _ => ?k) ?w0] =>
      destruct (bind_send_empty c0 f k w0) as (w1 & ->) end;
    (eexists _, _, _; split; [reflexivity|]; split;
      [first [apply same_conn_status | apply same_conn_nums | apply same_conn_refl] | by split]).
Qed.
End Fsm.

Section Runs.
Context `{EthDev}.

(** Handling one segment after another; the buffer of each world holds
    the segment that arrived. *)
Fixpoint handle_all (c : tcp_connection) (ws : list world) : option tcp_connection :=
  match ws with
  | [] => Some c
  | w :: ws' => match tcp_handle c w with
                | Some ((_, c'), _) => handle_all c' ws'
                | None => None
                end
  end.

Definition has (c : tcp_connection) (f : Z) (w : world) : Prop :=
  seg_for c w = true /\ Z.land (seg_flags c w) f = f.

(** States before the peer's SYN. *)
Definition no_syn_yet (s : tcpstate) : Prop := s = SYN_SENT \/ s = LISTEN \/ s = CLOSED.
(** States before the connection is acknowledged. *)
Definition no_ack_yet (s : tcpstate) : Prop := no_syn_yet s \/ s = SYN_RCVD.

Lemma next_no_syn s f : no_syn_yet s -> Z.land f SYN <> SYN -> no_syn_yet (tcp_next s f).
Proof.
  unfold no_syn_yet. intros [-> | [-> | ->]] Hf; cbn [tcp_next]; repeat case_match; auto; exfalso;
    apply Hf; (by apply Z.eqb_eq) || (match goal with E : (f =? _) = true |- _ => apply Z.eqb_eq in E; by subst end).
Qed.

Lemma next_no_ack s f : no_ack_yet s -> Z.land f ACK <> ACK -> no_ack_yet (tcp_next s f).
Proof.
  unfold no_ack_yet, no_syn_yet. intros [[-> | [-> | ->]] | ->] Hf; cbn [tcp_next]; repeat case_match; auto; exfalso;
    apply Hf; (by apply Z.eqb_eq) || (match goal with E : (f =? _) = true |- _ => apply Z.eqb_eq in E; by subst end).
Qed.

Lemma same_conn_has c c' f w : same_conn c c' -> has c' f w <-> has c f w.
Proof. intros ->. by destruct c. Qed.

Lemma same_conn_trans c1 c2 c3 : same_conn c1 c2 -> same_conn c2 c3 -> same_conn c1 c3.
Proof. unfold same_conn. intros H12 H23. rewrite H23, H12. by destruct c1. Qed.

(** A set of states that is only left by a segment with flag [f]. *)
Lemma handle_all_until (P : tcpstate -> Prop) f ws :
  (forall s g, P s -> Z.land g f <> f -> P (tcp_next s g)) -> forall c, P (status c) ->
  exists c', handle_all c ws = Some c' /\ same_conn c c' /\
    (P (status c') \/ Exists (has c f) ws).
Proof.
  intros HP. induction ws as [|w ws IH]; intros c Hc.
  - exists c. split_and!; [done | apply same_conn_refl | by left].
  - cbn [handle_all]. destruct (tcp_handle_spec c w) as (r & c1 & w1 & -> & Hs1 & Hst).
    assert (Hex : P (status c1) \/ has c f w).
    { unfold has. destruct (seg_for c w); [|destruct Hst as (_ & -> & _); by left].
      destruct Hst as [-> _]. destruct (decide (Z.land (seg_flags c w) f = f)); [by right|left; auto]. }
    destruct Hex as [Hp|Hh].
    + destruct (IH c1 Hp) as (c' & -> & Hs2 & Hor). exists c'.
      split_and!; [done | eapply same_conn_trans; eassumption |].
      destruct Hor as [?|Hex]; [by left|]. right. apply Exists_cons_tl.
      eapply Exists_impl; [exact Hex|]. intros w0. by apply (same_conn_has c c1 f w0 Hs1).
    + assert (Hrun : forall ws c1, exists c', handle_all c1 ws = Some c' /\ same_conn c1 c').
      { clear. induction ws as [|w ws IH]; intros c1; [exists c1; split; [done|apply same_conn_refl]|].
        cbn [handle_all]. destruct (tcp_handle_spec c1 w) as (r & c2 & w1 & -> & Hs & _).
        destruct (IH c2) as (c' & -> & Hs2). exists c'. split; [done|]. eapply same_conn_trans; eassumption. }
      destruct (Hrun ws c1) as (c' & -> & Hs2). exists c'.
      split_and!; [done | eapply same_conn_trans; eassumption | right; by apply Exists_cons_hd].
Qed.

(** C34: a connection is only established by a handshake.  Whatever sequence
    of segments is handled after tcp_connect or tcp_listen, handling never
    blocks, addresses and ports of the connection stay, and if the state is
    ESTABLISHED at the end then a segment for our port with the SYN flag
    and one with the ACK flag were received. *)
Theorem tcp_established_needs_handshake c ws :
  status c = SYN_SENT \/ status c = LISTEN ->
  exists c', handle_all c ws = Some c' /\ same_conn c c' /\
    (status c' = ESTABLISHED -> Exists (has c SYN) ws /\ Exists (has c ACK) ws).
Proof.
  intros Hc.
  destruct (handle_all_until no_syn_yet SYN ws next_no_syn c) as (c' & Hr & Hs & Hsyn);
    [unfold no_syn_yet; tauto|].
  destruct (handle_all_until no_ack_yet ACK ws next_no_ack c) as (c'' & Hr' & _ & Hack);
    [unfold no_ack_yet, no_syn_yet; tauto|].
  rewrite Hr in Hr'. injection Hr' as <-. exists c'. split_and!; [done | done |].
  intros He. rewrite He in Hsyn, Hack.
  destruct Hsyn as [[?|[?|?]]|?]; try done. destruct Hack as [[[?|[?|?]]|?]|?]; done.
Qed.

End Runs.

(** ** The three-way handshake *)

Section ThreeWay.
Context `{EthDevSpec}.
Local Open Scope eth_scope.

Lemma tcp_send_empty_spec c flags w :
  wf_conn c 0 -> conn_tx_ok w c 0 ->
  exists w' c1 c2, tcp_send_empty c flags w = Some (1, w') /\
    wire (w_dev w') = wire (w_dev w) ++ [tcp_frame c flags [] c1 c2].
Proof.
  intros Hc Hok. destruct (tcp_send_spec c flags [] w Hc) as (w' & c1 & c2 & Hs & Hw & _);
    [by constructor | done |]. by exists w', c1, c2.
Qed.

(** The flags and the port of a frame in the receive buffer. *)
Lemma seg_fields w c p flags data c1 c2 :
  let n := Z.of_nat (length data) in
  wf_conn p n ->
  read_bytes (w_mem w) (eth_rx_addr c) (54 + n) = tcp_frame p flags data c1 c2 ->
  seg_flags c w = u8 flags /\ seg_for c w = (dstport p =? srcport c) /\
  tcp_get_seqnum (w_mem w) (eth_rx_addr c) = seqNum p /\
  tcp_get_acknum (w_mem w) (eth_rx_addr c) = ackNum p.
Proof.
  intros n Hp Hf. pose proof (tcp_frame_fields p data flags Hp c1 c2) as Hfld. cbv zeta in Hfld.
  fold n in Hfld. rewrite <- Hf in Hfld. assert (Hn : 0 <= n) by (unfold n; lia).
  set (m := w_mem w) in *. set (rx := eth_rx_addr c) in *.
  rewrite !at_read_bytes in Hfld by lia.
  destruct Hfld as (_&_&_&_&_&_&_&_&_&F36&F38&F42&_&F47&_&_).
  apply (eq_trans (read_bytes_slice m rx (54 + n) 36 2 ltac:(lia) ltac:(lia) ltac:(lia))) in F36.
  apply (eq_trans (read_bytes_slice m rx (54 + n) 38 4 ltac:(lia) ltac:(lia) ltac:(lia))) in F38.
  apply (eq_trans (read_bytes_slice m rx (54 + n) 42 4 ltac:(lia) ltac:(lia) ltac:(lia))) in F42.
  destruct Hp as [_ _ _ _ _ Hdp Hseq Hack _ _ _ _].
  unfold seg_flags, seg_for, tcp_get_flags, tcp_get_destination_port, tcp_get_seqnum, tcp_get_acknum.
  fold m rx. split_and!.
  - by rewrite F47, land_255, !u8_u8.
  - replace (rx + 37) with (rx + 36 + 1) by lia. by rewrite (u16_be16 m (rx + 36) (dstport p)).
  - replace (rx + 39) with (rx + 38 + 1) by lia. replace (rx + 40) with (rx + 38 + 2) by lia.
    replace (rx + 41) with (rx + 38 + 3) by lia. by apply u32_be32.
  - replace (rx + 43) with (rx + 42 + 1) by lia. replace (rx + 44) with (rx + 42 + 2) by lia.
    replace (rx + 45) with (rx + 42 + 3) by lia. by apply u32_be32.
Qed.

Lemma wf_conn_status s c n : wf_conn c n -> wf_conn (set_status s c) n.
Proof. by intros []. Qed.
Lemma wf_conn_nums a b c n : 0 <= a < 2 ^ 32 -> 0 <= b < 2 ^ 32 -> wf_conn c n -> wf_conn (set_nums a b c) n.
Proof. intros Ha Hb []. by split. Qed.

(** C10: the three-way handshake.  A server in LISTEN with the client's SYN
    in its buffer answers SYN|ACK, one frame, and moves to SYN_RCVD; a
    client in SYN_SENT with that answer in its buffer takes over the
    numbers, answers with one ACK frame and is ESTABLISHED; with that ACK in
    its buffer the server is ESTABLISHED.  The transmitter of an endpoint is
    idle when it answers. *)
Theorem tcp_three_way_handshake c s w1 data a1 a2 :
  let n := Z.of_nat (length data) in
  wf_conn c n -> wf_conn c 0 -> wf_conn s 0 -> status c = SYN_SENT -> status s = LISTEN ->
  dstport c = srcport s -> dstport s = srcport c ->
  conn_tx_ok w1 s 0 ->
  read_bytes (w_mem w1) (eth_rx_addr s) (54 + n) = tcp_frame c SYN data a1 a2 ->
  exists w1' b1 b2, let s1 := set_status SYN_RCVD s in
    let synack := tcp_frame s (Z.lor SYN ACK) [] b1 b2 in
    tcp_handle s w1 = Some ((0, s1), w1') /\
    wire (w_dev w1') = wire (w_dev w1) ++ [synack] /\
    (forall w2, conn_tx_ok w2 c 0 -> read_bytes (w_mem w2) (eth_rx_addr c) 54 = synack ->
     exists w2' d1 d2, let c1 := set_nums (ackNum s) (u32 (seqNum s + 1)) c in
       let ackf := tcp_frame c1 ACK [] d1 d2 in
       tcp_handle c w2 = Some ((1, set_status ESTABLISHED c1), w2') /\
       wire (w_dev w2') = wire (w_dev w2) ++ [ackf] /\
       (forall w3, read_bytes (w_mem w3) (eth_rx_addr s) 54 = ackf ->
        tcp_handle s1 w3 = Some ((1, set_status ESTABLISHED s1), w3))).
Proof.
  intros n Hcn Hc Hs Hstc Hsts Hp1 Hp2 Hok1 Hf1.
  destruct (seg_fields w1 s c SYN data a1 a2 Hcn Hf1) as (Hfl & Hfor & _).
  destruct (tcp_send_empty_spec s (Z.lor SYN ACK) w1 Hs Hok1) as (w1' & b1 & b2 & Hs1 & Hw1).
  exists w1', b1, b2. cbv zeta. split_and!; [| done |].
  { unfold tcp_handle. rewrite !bind_gets. fold (seg_flags s w1). fold (seg_for s w1).
    rewrite Hfor, Hfl, Hp1, Z.eqb_refl, Hsts. change (Z.land (u8 SYN) SYN =? SYN) with true. cbv iota.
    unfold bind. by rewrite Hs1. }
  intros w2 Hok2 Hf2. destruct (seg_fields w2 c s (Z.lor SYN ACK) [] b1 b2 Hs Hf2) as (Hfl2 & Hfor2 & Hsq & Hak).
  set (c1 := set_nums (ackNum s) (u32 (seqNum s + 1)) c).
  assert (Hc1 : wf_conn c1 0) by (apply wf_conn_nums; [apply Hs | apply u32_range | done]).
  destruct (tcp_send_empty_spec c1 ACK w2 Hc1) as (w2' & d1 & d2 & Hs2 & Hw2); [exact Hok2|].
  exists w2', d1, d2. split_and!; [| done |].
  { unfold tcp_handle. rewrite !bind_gets. fold (seg_flags c w2). fold (seg_for c w2).
    rewrite Hfor2, Hfl2, Hp2, Z.eqb_refl, Hstc.
    change (u8 (Z.lor SYN ACK) =? Z.lor SYN ACK) with true. cbv iota.
    rewrite !bind_gets, Hsq, Hak. fold c1. unfold bind. by rewrite Hs2. }
  intros w3 Hf3. destruct (seg_fields w3 s c1 ACK [] d1 d2 Hc1 Hf3) as (Hfl3 & Hfor3 & _).
  unfold tcp_handle. rewrite !bind_gets.
  change (eth_rx_addr (set_status SYN_RCVD s)) with (eth_rx_addr s).
  change (srcport (set_status SYN_RCVD s)) with (srcport s).
  fold (seg_flags s w3). fold (seg_for s w3). rewrite Hfor3, Hfl3.
  change (dstport c1) with (dstport c). rewrite Hp1, Z.eqb_refl.
  change (status (set_status SYN_RCVD s)) with SYN_RCVD. cbv iota.
  by change (Z.land (u8 ACK) ACK =? ACK) with true.
Qed.

End ThreeWay.

(** ** Concrete connections *)

Definition conn0 : tcp_connection :=
  mk_conn 0 0 [] [] [] [] 0 0 0 0 CLOSED 0 [] 0 (replicate 16 0) 16.

(** A connection from us to the peer, and the peer's end of it. *)
Definition our_conn : tcp_connection :=
  tcp_init_connection conn0 2048 0 my_mac peer_mac my_ip peer_ip 1000 2000 0 16.
Definition peer_conn : tcp_connection :=
  tcp_init_connection conn0 2048 0 peer_mac my_mac peer_ip my_ip 2000 1000 0 16.

Lemma our_conn_wf n : 0 <= n < 1000 -> wf_conn our_conn n.
Proof.
  intros Hn. split.
  1-4: match goal with |- byte_array _ ?l => let v := eval vm_compute in l in change l with v end; bytes.
  all: cbn [eth_tx_addr our_conn tcp_init_connection srcport dstport seqNum ackNum conn_ipv4_id];
    unfold in_space; lia || reflexivity.
Qed.
Lemma peer_conn_wf n : 0 <= n < 1000 -> wf_conn peer_conn n.
Proof.
  intros Hn. split.
  1-4: match goal with |- byte_array _ ?l => let v := eval vm_compute in l in change l with v end; bytes.
  all: cbn [eth_tx_addr peer_conn tcp_init_connection srcport dstport seqNum ackNum conn_ipv4_id];
    unfold in_space; lia || reflexivity.
Qed.

Lemma sim_conn_tx_ok m c n : eth_tx_addr c = 2048 -> 0 <= n < 1000 ->
  @conn_tx_ok SimDev SimDevSpec (sim_world m sim_init) c n.
Proof. intros Ha Hn. split; [reflexivity|]. intros i Hi. apply sim_window_outside. lia. Qed.

Lemma tcp_send_correct_witness :
  exists w' c1 c2, @tcp_send SimDev our_conn SYN hello 3 (sim_world ∅ sim_init) = Some (1, w') /\
    let frame := tcp_frame our_conn SYN hello c1 c2 in
    sim_wire (@w_dev SimDev w') = [frame] /\ ip_valid frame /\ tcp_valid frame /\
    @w_arp_table SimDev w' = [].
Proof.
  apply (@tcp_send_correct SimDev SimDevSpec our_conn SYN hello (sim_world ∅ sim_init)).
  - apply our_conn_wf. cbn. lia.
  - apply (sb_data _ _ _ _ _ _ hello_sendable).
  - apply sim_conn_tx_ok; [reflexivity | cbn; lia].
Defined.

(** The frame of that segment. *)
Definition hello_segment : list Z := tcp_frame our_conn (Z.lor PSH ACK) hello 18137 0.

Lemma tcp_receive_roundtrip_witness :
  mac_packet_type (store_bytes ∅ 0 hello_segment) 0 = TCP /\
  tcp_get_data (store_bytes ∅ 0 hello_segment) 0 (replicate 5 7) 5 = ([104; 105; 33; 7; 7], 3) /\
  tcp_get_checksum (store_bytes ∅ 0 hello_segment) 0 = 0x7210.
Proof.
  destruct (tcp_receive_roundtrip (store_bytes ∅ 0 hello_segment) 0 our_conn (Z.lor PSH ACK) hello
    18137 0 (replicate 5 7) 5) as (H1&_&_&_&_&_&_&_&_&H2&H3).
  - apply our_conn_wf. cbn. lia.
  - apply (sb_data _ _ _ _ _ _ hello_sendable).
  - cbn. lia.
  - apply store_bytes_wf, wf_mem_empty.
  - reflexivity.
  - split_and!; vm_compute; discriminate.
  - vm_compute. reflexivity.
  - vm_compute. reflexivity.
  - split_and!; [exact H1 | exact H2 | exact H3].
Defined.

Lemma tcp_established_needs_handshake_witness :
  exists c', @handle_all SimDev (set_status SYN_SENT our_conn)
      [sim_world (store_bytes ∅ 0 (tcp_frame peer_conn (Z.lor SYN ACK) [] 0 0)) sim_init] = Some c' /\
    status c' = ESTABLISHED /\
    Exists (@has SimDev our_conn SYN)
      [sim_world (store_bytes ∅ 0 (tcp_frame peer_conn (Z.lor SYN ACK) [] 0 0)) sim_init].
Proof.
  destruct (@tcp_established_needs_handshake SimDev (set_status SYN_SENT our_conn)
    [sim_world (store_bytes ∅ 0 (tcp_frame peer_conn (Z.lor SYN ACK) [] 0 0)) sim_init]
    (or_introl eq_refl)) as (c' & Hr & _ & Hh).
  assert (He : status c' = ESTABLISHED).
  { apply (f_equal (option_map status)) in Hr. vm_compute in Hr. by injection Hr. }
  exists c'. split; [exact Hr|]. split; [exact He|]. exact (proj1 (Hh He)).
Defined.

Lemma tcp_three_way_handshake_witness :
  exists w1' b1 b2,
    @tcp_handle SimDev (set_status LISTEN peer_conn)
      (sim_world (store_bytes ∅ 0 (tcp_frame (set_status SYN_SENT our_conn) SYN [48] 0 0)) sim_init)
      = Some ((0, set_status SYN_RCVD (set_status LISTEN peer_conn)), w1') /\
    sim_wire (@w_dev SimDev w1') =
      [tcp_frame (set_status LISTEN peer_conn) (Z.lor SYN ACK) [] b1 b2].
Proof.
  destruct (@tcp_three_way_handshake SimDev SimDevSpec (set_status SYN_SENT our_conn)
    (set_status LISTEN peer_conn)
    (sim_world (store_bytes ∅ 0 (tcp_frame (set_status SYN_SENT our_conn) SYN [48] 0 0)) sim_init)
    [48] 0 0) as (w1' & b1 & b2 & H1 & H2 & _).
  - apply wf_conn_status, our_conn_wf. cbn. lia.
  - apply wf_conn_status, our_conn_wf. lia.
  - apply wf_conn_status, peer_conn_wf. lia.
  - reflexivity.
  - reflexivity.
  - reflexivity.
  - reflexivity.
  - apply sim_conn_tx_ok; [reflexivity | lia].
  - vm_compute. reflexivity.
  - exists w1', b1, b2. split; [exact H1 | exact H2].
Defined.
