(* ===== verification/Ptp.v ===== *)
(** Ptp: the precision time protocol, c/ethlib/ptp1588.c and ptp1588.h.

    - A master sends SYNC and, with the time t1 at which it left, FOLLOW; the
      slave notes the time t2 of arrival, sends DLYREQ at t3, and the master
      answers the time t4 of its arrival in DLYRPLY.  From the four times the
      slave computes delay and offset and corrects its clock.
    - [ptp] are the globals of ptp1588.h.  The structures keep the padding of
      the compiler: 64-bit integers are aligned to 4 bytes on Patmos, so a
      header has 36 bytes, a message 56, and [msg_bytes] is a message as the
      bytes that (unsigned char * )&txPTPMsg points to, most significant byte
      first.
    - The time stamp units and the clock (RTC) are registers behind
      [ptp_rd] and [ptp_wr], at their byte addresses; [PtpDevSpec] states
      what they promise.
    - [None] as the result of a handler: it wrote behind rxPTPMsg. *)

From stdpp Require Import base numbers gmap list.
From S2P Require Import Prelude EthIO World EthMac Mac Checksum Ipv4 Arp ArpProto Icmp Udp.

Definition PTP_EVENT_PORT := 319.
Definition PTP_GENERAL_PORT := 320.
Definition PTP_SYNC_MSGTYPE := 0x00.
Definition PTP_FOLLOW_MSGTYPE := 0x08.
Definition PTP_DLYREQ_MSGTYPE := 0x01.
Definition PTP_DLYRPLY_MSGTYPE := 0x09.
Definition PTP_SYNC_CTRL := 0x0.
Definition PTP_FOLLOW_CTRL := 0x2.
Definition PTP_DLYREQ_CTRL := 0x1.
Definition PTP_DLYRPLY_CTRL := 0x3.
Definition FLAG_PTP_UNICAST_MASK := 0x400.
Definition FLAG_PTP_TWO_STEP_MASK := 0x0200.
Definition PTP_BROADCAST_MAC : list Z := replicate 6 0xFF.
(** Values of enum ptp_role, and of -PTP (mac.h). *)
Definition PTP_MASTER := 0.
Definition PTP_SLAVE := 1.
Definition minus_PTP := -5.

(** Offsets of the registers in the device. *)
Definition RXCHAN_TIMESTAMP_NS := 0xE000.
Definition RXCHAN_TIMESTAMP_SEC := 0xE004.
Definition RXCHAN_STATUS := 0xE008.
Definition TXCHAN_TIMESTAMP_NS := 0xE400.
Definition TXCHAN_TIMESTAMP_SEC := 0xE404.
Definition TXCHAN_STATUS := 0xE408.
Definition RTC_TIME_NS := 0xE800.
Definition RTC_TIME_SEC := 0xE804.
Definition RTC_ADJUST_OFFSET := 0xE820.

Definition USEC_TO_NS := 1000.
Definition SEC_TO_NS := 1000000000.
Definition SEC_TO_USEC := 1000000.
Definition PTP_NS_OFFSET_THRESHOLD := 500000 * USEC_TO_NS.
Definition WCET_COMPENSATION := 3 * USEC_TO_NS.

(** ** Data *)

Record PTPv2MsgHeader := mk_head {
  transportSpec_msgType : Z; reserved_versionPTP : Z; messageLength : Z; domainNumber : Z; reserved1 : Z;
  flagField : Z; correctionField : Z; reserved2 : Z; portIdentity : list Z; portId : Z; sequenceId : Z;
  controlField : Z; logMessageInterval : Z; head_pad : Z }.
Record PTPMsgBody := mk_body {
  seconds : Z; nanoseconds : Z; requestingSourcePort : list Z; requestingSourceId : Z; body_pad : Z }.
Record PTPv2Msg := mk_msg { head_ : PTPv2MsgHeader; body_ : PTPMsgBody }.

Record PTPv2TimeRecord := mk_rec {
  rec_syncInterval : Z; offsetSeconds : Z; offsetNanoseconds : Z;
  t1Seconds : Z; t1Nanoseconds : Z; t2Seconds : Z; t2Nanoseconds : Z;
  delaySeconds : Z; delayNanoseconds : Z;
  t3Seconds : Z; t3Nanoseconds : Z; t4Seconds : Z; t4Nanoseconds : Z }.

(** [syncInterval] is a char that is only used as an unsigned char. *)
Record PTPPortInfo := mk_port {
  eth_base : Z; ip : list Z; mac : list Z; clockId : list Z; id_ : Z; portRole : Z; syncInterval : Z }.

Record ptp := mk_ptp {
  txPTPMsg : PTPv2Msg; rxPTPMsg : PTPv2Msg; ptpTimeRecord : PTPv2TimeRecord;
  thisPtpPortInfo : PTPPortInfo; lastMasterInfo : PTPPortInfo; lastSlaveInfo : PTPPortInfo }.

(** *** Assignments *)

Definition set_tx (m : PTPv2Msg) (s : ptp) : ptp :=
  mk_ptp m (rxPTPMsg s) (ptpTimeRecord s) (thisPtpPortInfo s) (lastMasterInfo s) (lastSlaveInfo s).
Definition set_rx (m : PTPv2Msg) (s : ptp) : ptp :=
  mk_ptp (txPTPMsg s) m (ptpTimeRecord s) (thisPtpPortInfo s) (lastMasterInfo s) (lastSlaveInfo s).
Definition set_rec (r : PTPv2TimeRecord) (s : ptp) : ptp :=
  mk_ptp (txPTPMsg s) (rxPTPMsg s) r (thisPtpPortInfo s) (lastMasterInfo s) (lastSlaveInfo s).
Definition set_master (p : PTPPortInfo) (s : ptp) : ptp :=
  mk_ptp (txPTPMsg s) (rxPTPMsg s) (ptpTimeRecord s) (thisPtpPortInfo s) p (lastSlaveInfo s).
Definition set_slave (p : PTPPortInfo) (s : ptp) : ptp :=
  mk_ptp (txPTPMsg s) (rxPTPMsg s) (ptpTimeRecord s) (thisPtpPortInfo s) (lastMasterInfo s) p.
Definition set_t1 (sec ns : Z) (r : PTPv2TimeRecord) : PTPv2TimeRecord :=
  mk_rec (rec_syncInterval r) (offsetSeconds r) (offsetNanoseconds r) sec ns (t2Seconds r) (t2Nanoseconds r)
    (delaySeconds r) (delayNanoseconds r) (t3Seconds r) (t3Nanoseconds r) (t4Seconds r) (t4Nanoseconds r).
Definition set_t2 (interval sec ns : Z) (r : PTPv2TimeRecord) : PTPv2TimeRecord :=
  mk_rec interval (offsetSeconds r) (offsetNanoseconds r) (t1Seconds r) (t1Nanoseconds r) sec ns
    (delaySeconds r) (delayNanoseconds r) (t3Seconds r) (t3Nanoseconds r) (t4Seconds r) (t4Nanoseconds r).
Definition set_t3 (sec ns : Z) (r : PTPv2TimeRecord) : PTPv2TimeRecord :=
  mk_rec (rec_syncInterval r) (offsetSeconds r) (offsetNanoseconds r) (t1Seconds r) (t1Nanoseconds r)
    (t2Seconds r) (t2Nanoseconds r) (delaySeconds r) (delayNanoseconds r) sec ns (t4Seconds r) (t4Nanoseconds r).
Definition set_t4 (sec ns : Z) (r : PTPv2TimeRecord) : PTPv2TimeRecord :=
  mk_rec (rec_syncInterval r) (offsetSeconds r) (offsetNanoseconds r) (t1Seconds r) (t1Nanoseconds r)
    (t2Seconds r) (t2Nanoseconds r) (delaySeconds r) (delayNanoseconds r) (t3Seconds r) (t3Nanoseconds r) sec ns.
Definition set_delay_offset (ds dn os on : Z) (r : PTPv2TimeRecord) : PTPv2TimeRecord :=
  mk_rec (rec_syncInterval r) os on (t1Seconds r) (t1Nanoseconds r) (t2Seconds r) (t2Nanoseconds r)
    ds dn (t3Seconds r) (t3Nanoseconds r) (t4Seconds r) (t4Nanoseconds r).
Definition set_addr (source_ip source_mac : list Z) (p : PTPPortInfo) : PTPPortInfo :=
  mk_port (eth_base p) (map (at_ source_ip) (seqZ 0 4)) (map (at_ source_mac) (seqZ 0 6))
    (clockId p) (id_ p) (portRole p) (syncInterval p).
Definition set_len_ctrl (len ctrl : Z) (h : PTPv2MsgHeader) : PTPv2MsgHeader :=
  mk_head (transportSpec_msgType h) (reserved_versionPTP h) len (domainNumber h) (reserved1 h) (flagField h)
    (correctionField h) (reserved2 h) (portIdentity h) (portId h) (sequenceId h) ctrl (logMessageInterval h) (head_pad h).
Definition set_stamp (sec ns : Z) (b : PTPMsgBody) : PTPMsgBody :=
  mk_body sec ns (requestingSourcePort b) (requestingSourceId b) (body_pad b).
Definition set_requester (port : list Z) (id : Z) (b : PTPMsgBody) : PTPMsgBody :=
  mk_body (seconds b) (nanoseconds b) port id (body_pad b).

(** *** Messages as bytes *)

Definition head_bytes (h : PTPv2MsgHeader) : list Z :=
  be 1 (transportSpec_msgType h) ++ be 1 (reserved_versionPTP h) ++ be 2 (messageLength h) ++
  be 1 (domainNumber h) ++ be 1 (reserved1 h) ++ be 2 (flagField h) ++ be 8 (correctionField h) ++
  be 4 (reserved2 h) ++ portIdentity h ++ be 2 (portId h) ++ be 2 (sequenceId h) ++
  be 1 (controlField h) ++ be 1 (logMessageInterval h) ++ be 2 (head_pad h).
Definition body_bytes (b : PTPMsgBody) : list Z :=
  be 4 (seconds b) ++ be 4 (nanoseconds b) ++ requestingSourcePort b ++ be 2 (requestingSourceId b) ++ be 2 (body_pad b).
Definition msg_bytes (m : PTPv2Msg) : list Z := head_bytes (head_ m) ++ body_bytes (body_ m).

Definition msg_of_bytes (l : list Z) : PTPv2Msg :=
  let f i n := take n (drop i l) in
  mk_msg
    (mk_head (num (f 0 1)) (num (f 1 1)) (num (f 2 2)) (num (f 4 1)) (num (f 5 1)) (num (f 6 2)) (num (f 8 8))
       (num (f 16 4)) (f 20 8) (num (f 28 2)) (num (f 30 2)) (num (f 32 1)) (num (f 33 1)) (num (f 34 2)))%nat
    (mk_body (num (f 36 4)) (num (f 40 4)) (f 44 8) (num (f 52 2)) (num (f 54 2)))%nat.
Definition sizeof_PTPv2Msg : Z := 56.

(** ** Operations *)

Definition ptpv2_intialize_local_port (base role : Z) (m i : list Z) (port syncPeriod : Z) : PTPPortInfo :=
  mk_port base (map (at_ i) (seqZ 0 4)) (map (at_ m) (seqZ 0 6))
    [at_ m 0; at_ m 1; at_ m 2; 0xff; 0xfe; at_ m 3; at_ m 4; at_ m 5] port (u32 role) (u8 syncPeriod).

Definition ptp_calc_offset (t1 t2 delay : Z) : Z := s32 (t2 - t1 - delay).
Definition ptp_calc_delay (t1 t2 t3 t4 : Z) : Z := Z.quot (s32 (t2 - t1 + t4 - t3)) 2.

Definition ptp_filter_clockport (sourceId : list Z) (sourcePortId : Z) (matchId : list Z) (matchPortId : Z) : Z :=
  let eq a b := if a =? b then 1 else 0 in
  let ans := fold_left (fun ans i => Z.land ans (eq (at_ sourceId i) (at_ matchId i))) [1; 2; 3; 4; 5; 6; 7]
               (eq (at_ sourceId 0) (at_ matchId 0)) in
  Z.land ans (eq sourcePortId matchPortId).

(** The clock of the platform: registers at byte addresses. *)
Class PtpDev `{EthDev} := {
  ptp_rd : Z -> D -> Z * D;
  ptp_wr : Z -> Z -> D -> D;
}.

Section Node.
Context `{PtpDev}.
Local Open Scope eth_scope.

Definition ptp_iord (addr : Z) : M Z := fun w =>
  let '(v, d) := ptp_rd (u32 addr) (w_dev w) in Some (u32 v, set_dev d w).
Definition ptp_iowr (addr v : Z) : M unit := modify (fun w => set_dev (ptp_wr (u32 addr) (u32 v) (w_dev w)) w).

(** RTC_TIME_x = (unsigned) (d + (int) RTC_TIME_x) *)
Definition rtc_add (addr d : Z) : M unit := v <- ptp_iord addr ;; ptp_iowr addr (d + s32 v).

Definition ptp_correct_offset (port : PTPPortInfo) (r : PTPv2TimeRecord) : M unit :=
  let base := eth_base port in
  if negb (offsetSeconds r =? 0) then
    rtc_add (base + RTC_TIME_SEC) (- offsetSeconds r) ;;
    rtc_add (base + RTC_TIME_NS) (- offsetNanoseconds r + WCET_COMPENSATION)
  else if PTP_NS_OFFSET_THRESHOLD <? s32 (Z.abs (offsetNanoseconds r)) then
    rtc_add (base + RTC_TIME_NS) (- offsetNanoseconds r + WCET_COMPENSATION)
  else ptp_iowr (base + RTC_ADJUST_OFFSET) (offsetNanoseconds r).

Definition issue_head (port : PTPPortInfo) (seqId msgType : Z) (h : PTPv2MsgHeader) : PTPv2MsgHeader :=
  mk_head (u8 msgType) 0x02 (messageLength h) (domainNumber h) (reserved1 h)
    (Z.lor (Z.lor (flagField h) FLAG_PTP_TWO_STEP_MASK) FLAG_PTP_UNICAST_MASK) 0 (reserved2 h)
    (map (at_ (clockId port)) (seqZ 0 8)) (id_ port) (u16 seqId) (controlField h) (syncInterval port) (head_pad h).

(** Seconds and nanoseconds of a pair of registers, in the order of the code. *)
Definition sec_ns (sec_reg ns_reg : Z) : M (Z * Z) := s <- ptp_iord sec_reg ;; n <- ptp_iord ns_reg ;; ret (s, n).
Definition ns_sec (sec_reg ns_reg : Z) : M (Z * Z) := n <- ptp_iord ns_reg ;; s <- ptp_iord sec_reg ;; ret (s, n).
(** The time stamp of the frame that was sent. *)
Definition tx_timestamp (base : Z) : M (Z * Z) :=
  t <- ns_sec (base + TXCHAN_TIMESTAMP_SEC) (base + TXCHAN_TIMESTAMP_NS) ;;
  ptp_iowr (base + TXCHAN_STATUS) 0x1 ;;
  ret t.

Definition ptpv2_issue_msg (fuel : nat) (port : PTPPortInfo) (tx_addr rx_addr : Z)
    (destination_mac destination_ip : list Z) (seqId msgType : Z) (s : ptp) : M (Z * ptp) :=
  let base := eth_base port in
  let h := issue_head port seqId msgType (head_ (txPTPMsg s)) in
  let b := body_ (txPTPMsg s) in
  let send m dport len :=
    udp_send_mac fuel tx_addr rx_addr destination_mac destination_ip dport dport (msg_bytes m) len 0 ;;
    ret (set_tx m s) in
  s <- (if msgType =? PTP_SYNC_MSGTYPE then
          t <- sec_ns (base + RTC_TIME_SEC) (base + RTC_TIME_NS) ;;
          send (mk_msg (set_len_ctrl 44 PTP_SYNC_CTRL h) (set_stamp (Z.land (fst t) 0xFFFFFFFF) (snd t) b)) PTP_EVENT_PORT 44
        else if msgType =? PTP_FOLLOW_MSGTYPE then
          send (mk_msg (set_len_ctrl 44 PTP_FOLLOW_CTRL h)
                  (set_stamp (t1Seconds (ptpTimeRecord s)) (t1Nanoseconds (ptpTimeRecord s)) b)) PTP_GENERAL_PORT 44
        else if msgType =? PTP_DLYREQ_MSGTYPE then
          t <- sec_ns (base + RTC_TIME_SEC) (base + RTC_TIME_NS) ;;
          send (mk_msg (set_len_ctrl 44 PTP_DLYREQ_CTRL h) (set_stamp (Z.land (fst t) 0xFFFFFFFF) (snd t) b)) PTP_EVENT_PORT 44
        else if msgType =? PTP_DLYRPLY_MSGTYPE then
          let rq := head_ (rxPTPMsg s) in
          send (mk_msg (set_len_ctrl 54 PTP_DLYRPLY_CTRL h)
                  (set_stamp (t4Seconds (ptpTimeRecord s)) (t4Nanoseconds (ptpTimeRecord s))
                     (set_requester (portIdentity rq) (portId rq) b))) PTP_GENERAL_PORT 54
        else ret (set_tx (mk_msg h b) s)) ;;
  if msgType =? PTP_SYNC_MSGTYPE then
    t <- tx_timestamp base ;; ret (s32 msgType, set_rec (set_t1 (fst t) (snd t) (ptpTimeRecord s)) s)
  else if msgType =? PTP_DLYREQ_MSGTYPE then
    t <- tx_timestamp base ;; ret (s32 msgType, set_rec (set_t3 (fst t) (snd t) (ptpTimeRecord s)) s)
  else ret (s32 msgType, s).

(** The first bytes of [m] replaced by those of the packet. *)
Definition receive_into (data : list Z) (m : PTPv2Msg) : PTPv2Msg :=
  msg_of_bytes (data ++ drop (length data) (msg_bytes m)).

Definition two_step (m : PTPv2Msg) : bool :=
  Z.land (flagField (head_ m)) FLAG_PTP_TWO_STEP_MASK =? FLAG_PTP_TWO_STEP_MASK.

(** The times and, with the delays, the offsets of the record. *)
Definition calc_delay_offset (r : PTPv2TimeRecord) : PTPv2TimeRecord :=
  let dn := ptp_calc_delay (s32 (t1Nanoseconds r)) (s32 (t2Nanoseconds r)) (s32 (t3Nanoseconds r)) (s32 (t4Nanoseconds r)) in
  let on := ptp_calc_offset (s32 (t1Nanoseconds r)) (s32 (t2Nanoseconds r)) dn in
  let ds := ptp_calc_delay (s32 (t1Seconds r)) (s32 (t2Seconds r)) (s32 (t3Seconds r)) (s32 (t4Seconds r)) in
  let os := ptp_calc_offset (s32 (t1Seconds r)) (s32 (t2Seconds r)) ds in
  set_delay_offset ds dn os on r.

Definition ptpv2_handle_msg (port : PTPPortInfo) (tx_addr rx_addr : Z) (source_mac : list Z) (s : ptp)
    : M (option (Z * ptp)) :=
  t <- ns_sec (eth_base port + RXCHAN_TIMESTAMP_SEC) (eth_base port + RXCHAN_TIMESTAMP_NS) ;;
  ptp_iowr (eth_base (thisPtpPortInfo s) + RXCHAN_STATUS) 0x1 ;;
  m <- gets w_mem ;;
  let source_ip := ipv4_get_source_ip m rx_addr in
  let n := udp_get_data_length m rx_addr in
  if sizeof_PTPv2Msg <? n then ret None
  else
    let msg := receive_into (udp_get_data m rx_addr n) (rxPTPMsg s) in
    let s := set_rx msg s in
    let r := ptpTimeRecord s in
    let b := body_ msg in
    let type := transportSpec_msgType (head_ msg) in
    if type =? PTP_SYNC_MSGTYPE then
      let r := set_t2 (logMessageInterval (head_ msg)) (fst t) (snd t) r in
      let s := set_rec r s in
      ret (Some (PTP_SYNC_MSGTYPE,
        if two_step msg then s
        else set_rec (set_t1 (seconds b) (nanoseconds b) r)
               (set_master (set_addr source_ip source_mac (lastMasterInfo s)) s)))
    else if type =? PTP_FOLLOW_MSGTYPE then
      ret (Some (PTP_FOLLOW_MSGTYPE,
        set_master (set_addr source_ip source_mac (lastMasterInfo s))
          (set_rec (set_t1 (seconds b) (nanoseconds b) r) s)))
    else if type =? PTP_DLYREQ_MSGTYPE then
      ret (Some (PTP_DLYREQ_MSGTYPE,
        set_slave (set_addr source_ip source_mac (lastSlaveInfo s)) (set_rec (set_t4 (fst t) (snd t) r) s)))
    else if type =? PTP_DLYRPLY_MSGTYPE then
      let r := calc_delay_offset (set_t4 (seconds b) (nanoseconds b) r) in
      ptp_correct_offset port r ;;
      ret (Some (PTP_DLYRPLY_MSGTYPE, set_rec r s))
    else ret (Some (minus_PTP, s)).

(** Handle the message, then answer when [answer] says so. *)
Definition handle_and_answer (fuel : nat) (tx_addr rx_addr : Z) (s : ptp)
    (answer : Z -> ptp -> option (list Z * Z)) : M (option (Z * ptp)) :=
  r <- ptpv2_handle_msg (thisPtpPortInfo s) tx_addr rx_addr PTP_BROADCAST_MAC s ;;
  match r with
  | None => ret None
  | Some (msgType, s) =>
      match answer msgType s with
      | None => ret (Some (msgType, s))
      | Some (dest, reply) =>
          r <- ptpv2_issue_msg fuel (thisPtpPortInfo s) tx_addr rx_addr PTP_BROADCAST_MAC dest
                 (sequenceId (head_ (rxPTPMsg s))) reply s ;;
          ret (Some (msgType, snd r))
      end
  end.

Definition master_answer (msgType : Z) (s : ptp) : option (list Z * Z) :=
  if msgType =? PTP_DLYREQ_MSGTYPE then Some (ip (lastSlaveInfo s), PTP_DLYRPLY_MSGTYPE) else None.
Definition slave_answer (msgType : Z) (s : ptp) : option (list Z * Z) :=
  if msgType =? PTP_SYNC_MSGTYPE then
    if two_step (rxPTPMsg s) then None else Some (ip (lastMasterInfo s), PTP_DLYREQ_MSGTYPE)
  else if msgType =? PTP_FOLLOW_MSGTYPE then Some (ip (lastMasterInfo s), PTP_DLYREQ_MSGTYPE)
  else None.

Definition ptpv2_process_received (fuel : nat) (port : PTPPortInfo) (tx_addr rx_addr : Z) (s : ptp)
    : M (option (Z * ptp)) :=
  if portRole port =? PTP_MASTER then handle_and_answer fuel tx_addr rx_addr s master_answer
  else if portRole port =? PTP_SLAVE then handle_and_answer fuel tx_addr rx_addr s slave_answer
  else ret (Some (-1, s)).

(** *** Times as numbers *)

Definition nanos (t : Z * Z) : Z := u64 (u64 (SEC_TO_NS * fst t) + snd t).
Definition get_ptp_nanos (base : Z) : M Z := t <- sec_ns (base + RTC_TIME_SEC) (base + RTC_TIME_NS) ;; ret (nanos t).
Definition get_ptp_secs (base : Z) : M Z := ptp_iord (base + RTC_TIME_SEC).
Definition get_rx_timestamp_nanos (base : Z) : M Z :=
  t <- sec_ns (base + RXCHAN_TIMESTAMP_SEC) (base + RXCHAN_TIMESTAMP_NS) ;; ret (nanos t).
Definition get_tx_timestamp_nanos (base : Z) : M Z :=
  t <- sec_ns (base + TXCHAN_TIMESTAMP_SEC) (base + TXCHAN_TIMESTAMP_NS) ;; ret (nanos t).
(** The cast binds to NS_TO_USEC: (unsigned long long) 0.001 is 0. *)
Definition usecs_of (t : Z * Z) : Z := u64 (u64 (SEC_TO_USEC * fst t) + u64 (0 * snd t)).
Definition get_rx_timestamp_usecs (base : Z) : M Z :=
  t <- sec_ns (base + RXCHAN_TIMESTAMP_SEC) (base + RXCHAN_TIMESTAMP_NS) ;; ret (usecs_of t).
Definition get_tx_timestamp_usecs (base : Z) : M Z :=
  t <- sec_ns (base + TXCHAN_TIMESTAMP_SEC) (base + TXCHAN_TIMESTAMP_NS) ;; ret (usecs_of t).
End Node.
