(* ===== verification/PtpSync.v ===== *)
(** PtpSync: theorems on the precision time protocol (Ptp.v).

    Messages are read back as they were sent; the four messages of an exchange
    leave the four time stamps in the record of the slave; what the offset is
    that the slave computes from them. *)

From stdpp Require Import base numbers gmap list.
From S2P Require Import Prelude EthIO World EthMac Mac Checksum Ipv4 Arp ArpProto Icmp Udp Ptp.

(** ** Offset and delay *)

(** Seconds and nanoseconds of a running clock, less than 2^30 seconds apart. *)
Record times_ok (r : PTPv2TimeRecord) : Prop := {
  tk_sec : 0 <= t1Seconds r < 2 ^ 31 /\ 0 <= t2Seconds r < 2 ^ 31 /\ 0 <= t3Seconds r < 2 ^ 31 /\ 0 <= t4Seconds r < 2 ^ 31;
  tk_near : Z.abs (t2Seconds r - t1Seconds r) < 2 ^ 29 /\ Z.abs (t4Seconds r - t3Seconds r) < 2 ^ 29;
  tk_ns : 0 <= t1Nanoseconds r < SEC_TO_NS /\ 0 <= t2Nanoseconds r < SEC_TO_NS /\
          0 <= t3Nanoseconds r < SEC_TO_NS /\ 0 <= t4Nanoseconds r < SEC_TO_NS;
}.

Definition total (sec ns : Z) : Z := SEC_TO_NS * sec + ns.

(** Half a sum, rounded towards zero. *)
Lemma calc_delay_val t1 t2 t3 t4 : Z.abs (t2 - t1 + t4 - t3) < 2 ^ 31 ->
  2 * ptp_calc_delay t1 t2 t3 t4 = t2 - t1 + t4 - t3 - Z.rem (t2 - t1 + t4 - t3) 2.
Proof.
  intros Hr. unfold ptp_calc_delay. rewrite s32_small by lia.
  pose proof (Z.quot_rem' (t2 - t1 + t4 - t3) 2). lia.
Qed.
Lemma calc_offset_val t1 t2 d : Z.abs (t2 - t1 - d) < 2 ^ 31 -> ptp_calc_offset t1 t2 d = t2 - t1 - d.
Proof. intros Hr. unfold ptp_calc_offset. apply s32_small. lia. Qed.
Lemma rem_2 x : Z.abs (Z.rem x 2) <= 1.
Proof. pose proof (Z.rem_bound_abs x 2 ltac:(lia)). lia. Qed.

(** C22: the offset of the slave.  Let the slave's clock be theta nanoseconds
    ahead of the master's and a message take d nanoseconds in both directions:
    T2 = T1 + d + theta and T4 = T3 - theta + d.  When the seconds of the four
    time stamps, s2 - s1 + s4 - s3, have an even sum, the slave computes
    exactly theta and d.  When the sum is odd, that is when one of the two
    messages crossed the start of a second and the other did not, the division
    of the seconds by two loses its remainder, and offset and delay are wrong
    by half a second. *)
Theorem ptp_offset_correct r d theta : times_ok r ->
  total (t2Seconds r) (t2Nanoseconds r) = total (t1Seconds r) (t1Nanoseconds r) + d + theta ->
  total (t4Seconds r) (t4Nanoseconds r) = total (t3Seconds r) (t3Nanoseconds r) - theta + d ->
  let r' := calc_delay_offset r in
  let carry := Z.rem (t2Seconds r - t1Seconds r + t4Seconds r - t3Seconds r) 2 in
  total (offsetSeconds r') (offsetNanoseconds r') = theta + 500000000 * carry /\
  total (delaySeconds r') (delayNanoseconds r') = d - 500000000 * carry.
Proof.
  intros [Hs Hnear Hn] HA HB. unfold calc_delay_offset. cbv zeta. cbn [offsetSeconds offsetNanoseconds delaySeconds delayNanoseconds set_delay_offset].
  unfold SEC_TO_NS in *. unfold total, SEC_TO_NS in *. rewrite !(s32_small (t1Seconds r)), !(s32_small (t2Seconds r)), !(s32_small (t3Seconds r)),
    !(s32_small (t4Seconds r)), !(s32_small (t1Nanoseconds r)), !(s32_small (t2Nanoseconds r)), !(s32_small (t3Nanoseconds r)),
    !(s32_small (t4Nanoseconds r)) by lia.
  set (N := t2Nanoseconds r - t1Nanoseconds r + t4Nanoseconds r - t3Nanoseconds r).
  set (S := t2Seconds r - t1Seconds r + t4Seconds r - t3Seconds r).
  pose proof (calc_delay_val (t1Seconds r) (t2Seconds r) (t3Seconds r) (t4Seconds r) ltac:(lia)) as Hds.
  pose proof (calc_delay_val (t1Nanoseconds r) (t2Nanoseconds r) (t3Nanoseconds r) (t4Nanoseconds r) ltac:(lia)) as Hdn.
  fold S in Hds. fold N in Hdn. pose proof (rem_2 S). pose proof (rem_2 N).
  rewrite !calc_offset_val by (subst S N; lia).
  assert (Z.rem N 2 = 0) as Hz.
  { apply Z.rem_divide; [lia|]. exists (d - 500000000 * S). subst S N. lia. }
  rewrite Hz in Hdn. split; subst S N; lia.
Qed.

(** ** Messages as bytes *)

Definition fits (k : nat) (v : Z) : Prop := 0 <= v < 256 ^ Z.of_nat k.

Record wf_head (h : PTPv2MsgHeader) : Prop := {
  wh_8 : fits 1 (transportSpec_msgType h) /\ fits 1 (reserved_versionPTP h) /\ fits 1 (domainNumber h) /\ fits 1 (reserved1 h) /\
         fits 1 (controlField h) /\ fits 1 (logMessageInterval h);
  wh_16 : fits 2 (messageLength h) /\ fits 2 (flagField h) /\ fits 2 (portId h) /\ fits 2 (sequenceId h) /\ fits 2 (head_pad h);
  wh_long : fits 4 (reserved2 h) /\ fits 8 (correctionField h);
  wh_id : byte_array 8 (portIdentity h);
}.
Record wf_body (b : PTPMsgBody) : Prop := {
  wb_time : fits 4 (seconds b) /\ fits 4 (nanoseconds b);
  wb_16 : fits 2 (requestingSourceId b) /\ fits 2 (body_pad b);
  wb_id : byte_array 8 (requestingSourcePort b);
}.
Definition wf_msg (m : PTPv2Msg) : Prop := wf_head (head_ m) /\ wf_body (body_ m).

Lemma byte_array_8 l : byte_array 8 l -> exists a b c d e f g h, l = [a; b; c; d; e; f; g; h].
Proof. intros [Hl _]. destruct l as [|a [|b [|c [|d [|e [|f [|g [|h [|]]]]]]]]]; try done. by exists a, b, c, d, e, f, g, h. Qed.

Lemma msg_bytes_array m : wf_msg m -> byte_array 56 (msg_bytes m).
Proof.
  intros [[_ _ _ [Hl1 Hb1]] [_ _ [Hl2 Hb2]]]. unfold msg_bytes, head_bytes, body_bytes. split.
  - by rewrite !length_app, !be_length, Hl1, Hl2.
  - repeat (apply Forall_app; split); done || apply be_is_bytes.
Qed.

(** A message of which the first 44 or 54 bytes were sent. *)
Lemma receive_sent m old : wf_msg m -> wf_msg old ->
  receive_into (take 44 (msg_bytes m)) old =
    mk_msg (head_ m) (set_stamp (seconds (body_ m)) (nanoseconds (body_ m)) (body_ old)) /\
  receive_into (take 54 (msg_bytes m)) old =
    mk_msg (head_ m) (mk_body (seconds (body_ m)) (nanoseconds (body_ m)) (requestingSourcePort (body_ m))
                        (requestingSourceId (body_ m)) (body_pad (body_ old))).
Proof.
  intros [[H8 H16 HL Hid] [Ht H2 Hrp]] [[_ _ _ Hid'] [_ H2' Hrp']].
  unfold set_stamp. destruct m as [[a b c d e f g h pid i j k l n] [sec ns rp rid pad]],
    old as [[a' b' c' d' e' f' g' h' pid' i' j' k' l' n'] [sec' ns' rp' rid' pad']]; cbn in *.
  destruct (byte_array_8 _ Hid) as (?&?&?&?&?&?&?&?&->), (byte_array_8 _ Hrp) as (?&?&?&?&?&?&?&?&->),
    (byte_array_8 _ Hid') as (?&?&?&?&?&?&?&?&->), (byte_array_8 _ Hrp') as (?&?&?&?&?&?&?&?&->).
  unfold fits in *.
  split; match goal with |- _ = mk_msg (mk_head _ _ _ _ _ _ _ _ ?q _ _ _ _ _) (mk_body _ _ ?p ?r ?t) =>
    transitivity (mk_msg (mk_head (num (be 1 a)) (num (be 1 b)) (num (be 2 c)) (num (be 1 d)) (num (be 1 e)) (num (be 2 f))
      (num (be 8 g)) (num (be 4 h)) q (num (be 2 i)) (num (be 2 j)) (num (be 1 k)) (num (be 1 l)) (num (be 2 n)))
      (mk_body (num (be 4 sec)) (num (be 4 ns)) p (num (be 2 r)) (num (be 2 t)))); [reflexivity|] end;
    rewrite !num_be by tauto; reflexivity.
Qed.

(** ** What the clock and the time stamp units promise *)

Definition is_time (t : Z * Z) : Prop := fits 4 (fst t) /\ fits 4 (snd t).

(** [tx_stamp] and [rx_stamp] are the registers with the seconds and
    nanoseconds at which the last event message left and arrived.  Access to
    the registers of the clock does not disturb the Ethernet controller, and the
    time stamps stay until the next event message. *)
Class PtpDevSpec `{EthDevSpec} `{!PtpDev} := {
  ptp_base : Z;
  tx_stamp : D -> Z * Z;
  rx_stamp : D -> Z * Z;
  stamp_range d : is_time (tx_stamp d) /\ is_time (rx_stamp d);
  rd_tx_stamp d :
    (fst (ptp_rd (u32 (ptp_base + TXCHAN_TIMESTAMP_SEC)) d), fst (ptp_rd (u32 (ptp_base + TXCHAN_TIMESTAMP_NS)) d)) = tx_stamp d;
  rd_rx_stamp d :
    (fst (ptp_rd (u32 (ptp_base + RXCHAN_TIMESTAMP_SEC)) d), fst (ptp_rd (u32 (ptp_base + RXCHAN_TIMESTAMP_NS)) d)) = rx_stamp d;
  ptp_undisturbed o v d d' : 0xE000 <= o < 0xF000 ->
    d' = snd (ptp_rd (u32 (ptp_base + o)) d) \/ d' = ptp_wr (u32 (ptp_base + o)) v d ->
    wire d' = wire d /\ (forall b, rx_window d' b <-> rx_window d b) /\ tx_stamp d' = tx_stamp d /\ rx_stamp d' = rx_stamp d /\
    (tx_idle d -> tx_idle d');
}.

Section Exchange.
Context {ED : EthDev} {ES : @EthDevSpec ED} {PD : @PtpDev ED} {PS : @PtpDevSpec ED ES PD}.
Local Open Scope eth_scope.

(** Everything but the clock is as before. *)
Record kept (w w' : world) : Prop := {
  kp_mem : w_mem w' = w_mem w; kp_arp : w_arp_table w' = w_arp_table w; kp_mac : w_my_mac w' = w_my_mac w;
  kp_ip : w_my_ip w' = w_my_ip w; kp_id : w_ipv4_id w' = w_ipv4_id w;
  kp_wire : wire (w_dev w') = wire (w_dev w);
  kp_window b : rx_window (w_dev w') b <-> rx_window (w_dev w) b;
  kp_tx : tx_stamp (w_dev w') = tx_stamp (w_dev w);
  kp_rx : rx_stamp (w_dev w') = rx_stamp (w_dev w);
  kp_idle : tx_idle (w_dev w) -> tx_idle (w_dev w');
}.
Lemma kept_trans w1 w2 w3 : kept w1 w2 -> kept w2 w3 -> kept w1 w3.
Proof. intros [] []. constructor; try congruence; [intros b; etransitivity; eauto|auto]. Qed.
#[local] Hint Resolve kept_trans : core.

Lemma iord_run o w : 0xE000 <= o < 0xF000 -> exists w',
  ptp_iord (ptp_base + o) w = Some (u32 (fst (ptp_rd (u32 (ptp_base + o)) (w_dev w))), w') /\ kept w w'.
Proof.
  intros Ho. unfold ptp_iord. pose proof (ptp_undisturbed o 0 (w_dev w) _ Ho (or_introl eq_refl)) as Hu.
  destruct (ptp_rd _ _) as [v d]. cbn [fst snd] in *. eexists. split; [done|].
  destruct Hu as (?&?&?&?&?). by constructor.
Qed.
Lemma iowr_run o v w : 0xE000 <= o < 0xF000 -> exists w', ptp_iowr (ptp_base + o) v w = Some (tt, w') /\ kept w w'.
Proof.
  intros Ho. unfold ptp_iowr, modify. eexists. split; [done|].
  destruct (ptp_undisturbed o (u32 v) (w_dev w) _ Ho (or_intror eq_refl)) as (?&?&?&?&?). by constructor.
Qed.
Lemma rtc_add_run o v w : 0xE000 <= o < 0xF000 -> exists w', rtc_add (ptp_base + o) v w = Some (tt, w') /\ kept w w'.
Proof.
  intros Ho. unfold rtc_add, bind. destruct (iord_run o w Ho) as (w1 & -> & H1).
  destruct (iowr_run o (v + s32 (u32 (fst (ptp_rd (u32 (ptp_base + o)) (w_dev w))))) w1 Ho) as (w2 & -> & H2). eauto.
Qed.

Lemma sec_ns_run os on w : 0xE000 <= os < 0xF000 -> 0xE000 <= on < 0xF000 -> exists t w',
  sec_ns (ptp_base + os) (ptp_base + on) w = Some (t, w') /\ kept w w' /\ is_time t.
Proof.
  intros Hs Hn. unfold sec_ns, bind, ret. destruct (iord_run os w Hs) as (w1 & -> & H1).
  destruct (iord_run on w1 Hn) as (w2 & -> & H2). eexists _, w2. split; [done|]. split; [eauto|].
  split; apply u32_range.
Qed.

(** Time stamps, in the order in which the code reads the registers. *)
Lemma stamp_run os on (stamp : D -> Z * Z) w : 0xE000 <= os < 0xF000 -> 0xE000 <= on < 0xF000 ->
  (forall d, is_time (stamp d)) ->
  (forall d, (fst (ptp_rd (u32 (ptp_base + os)) d), fst (ptp_rd (u32 (ptp_base + on)) d)) = stamp d) ->
  (forall w', kept w w' -> stamp (w_dev w') = stamp (w_dev w)) ->
  exists w', ns_sec (ptp_base + os) (ptp_base + on) w = Some (stamp (w_dev w), w') /\ kept w w'.
Proof.
  intros Hs Hn Ht Hrd Hk. unfold ns_sec, bind, ret. destruct (iord_run on w Hn) as (w1 & -> & H1).
  destruct (iord_run os w1 Hs) as (w2 & -> & H2). exists w2. split; [|eauto].
  pose proof (Hrd (w_dev w)) as E0. pose proof (Hrd (w_dev w1)) as E1. rewrite (Hk w1 H1) in E1.
  destruct (Ht (w_dev w)) as [T1 T2]. destruct (stamp (w_dev w)) as [a b]. injection E0 as E0 E0'. injection E1 as E1 E1'.
  cbn in T1, T2. rewrite E0', E1. unfold fits in *. change (256 ^ Z.of_nat 4) with (2 ^ 32) in *. by rewrite !u32_small.
Qed.
Lemma rx_stamp_run w : exists w',
  ns_sec (ptp_base + RXCHAN_TIMESTAMP_SEC) (ptp_base + RXCHAN_TIMESTAMP_NS) w = Some (rx_stamp (w_dev w), w') /\ kept w w'.
Proof.
  apply stamp_run; try (unfold RXCHAN_TIMESTAMP_SEC, RXCHAN_TIMESTAMP_NS; lia).
  - intros d. apply stamp_range.
  - apply rd_rx_stamp.
  - intros w' Hw. apply kp_rx. done.
Qed.
Lemma tx_timestamp_run w : exists w', tx_timestamp ptp_base w = Some (tx_stamp (w_dev w), w') /\ kept w w'.
Proof.
  unfold tx_timestamp, bind, ret.
  destruct (stamp_run TXCHAN_TIMESTAMP_SEC TXCHAN_TIMESTAMP_NS tx_stamp w) as (w1 & -> & H1);
    try (unfold TXCHAN_TIMESTAMP_SEC, TXCHAN_TIMESTAMP_NS; lia).
  - intros d. apply stamp_range.
  - apply rd_tx_stamp.
  - intros w' Hw. apply kp_tx. done.
  - destruct (iowr_run TXCHAN_STATUS 1 w1) as (w2 & -> & H2); [unfold TXCHAN_STATUS; lia|]. eauto.
Qed.
Lemma correct_run p r w : eth_base p = ptp_base -> exists w', ptp_correct_offset p r w = Some (tt, w') /\ kept w w'.
Proof.
  intros E. unfold ptp_correct_offset, bind. rewrite E. destruct (negb _); [|destruct (_ <? _)].
  - destruct (rtc_add_run RTC_TIME_SEC (- offsetSeconds r) w) as (w1 & -> & H1); [unfold RTC_TIME_SEC; lia|].
    destruct (rtc_add_run RTC_TIME_NS (- offsetNanoseconds r + WCET_COMPENSATION) w1) as (w2 & -> & H2); [unfold RTC_TIME_NS; lia|].
    eauto.
  - apply rtc_add_run. unfold RTC_TIME_NS; lia.
  - apply iowr_run. unfold RTC_ADJUST_OFFSET; lia.
Qed.

(** Tests on constants. *)
Ltac const_ifs :=
  repeat match goal with |- context [?a =? ?b] =>
    let v := eval vm_compute in (a =? b) in
    match v with true => change (a =? b) with true | false => change (a =? b) with false end; cbn match
  end.

(** ** Sending *)

(** A host that can send a message from [tx]. *)
Record host_ok (w : world) (tx : Z) : Prop := {
  ho_world : wf_world w; ho_mem : wf_mem (w_mem w); ho_id : 0 <= w_ipv4_id w < 65536;
  ho_tx : tx mod 4 = 0 /\ tx_ok w tx 100;
}.
Lemma host_kept w w' tx : kept w w' -> host_ok w tx -> host_ok w' tx.
Proof.
  intros K [[Hmac Hip Harp] Hm Hid [Ha [Ht [Hr Hi]]]].
  constructor; [constructor; by rewrite ?(kp_mac _ _ K), ?(kp_ip _ _ K), ?(kp_arp _ _ K)|by rewrite (kp_mem _ _ K)|by rewrite (kp_id _ _ K)|].
  split; [done|]. split; [done|]. split; [|by apply (kp_idle _ _ K)]. intros i Hj Hw. by apply (Hr i Hj), (kp_window _ _ K).
Qed.

Record wf_port (p : PTPPortInfo) : Prop := {
  wp_base : eth_base p = ptp_base;
  wp_id : byte_array 8 (clockId p) /\ fits 2 (id_ p) /\ fits 1 (syncInterval p);
}.
Definition wf_rec (r : PTPv2TimeRecord) : Prop :=
  is_time (t1Seconds r, t1Nanoseconds r) /\ is_time (t4Seconds r, t4Nanoseconds r).
Record wf_ptp (s : ptp) : Prop := {
  ws_tx : wf_msg (txPTPMsg s); ws_rx : wf_msg (rxPTPMsg s); ws_rec : wf_rec (ptpTimeRecord s);
  ws_port : wf_port (thisPtpPortInfo s);
}.

(** The message types, and what is sent for each. *)
Definition is_type (k : Z) : Prop :=
  k = PTP_SYNC_MSGTYPE \/ k = PTP_FOLLOW_MSGTYPE \/ k = PTP_DLYREQ_MSGTYPE \/ k = PTP_DLYRPLY_MSGTYPE.
Definition is_event (k : Z) : bool := (k =? PTP_SYNC_MSGTYPE) || (k =? PTP_DLYREQ_MSGTYPE).
Definition issue_len (k : Z) : Z := if k =? PTP_DLYRPLY_MSGTYPE then 54 else 44.
Definition issue_port (k : Z) : Z := if is_event k then PTP_EVENT_PORT else PTP_GENERAL_PORT.
Definition issue_ctrl (k : Z) : Z :=
  if k =? PTP_SYNC_MSGTYPE then PTP_SYNC_CTRL else if k =? PTP_FOLLOW_MSGTYPE then PTP_FOLLOW_CTRL
  else if k =? PTP_DLYREQ_MSGTYPE then PTP_DLYREQ_CTRL else PTP_DLYRPLY_CTRL.
(** [t] is the time of the clock when the message is built. *)
Definition issue_body (k : Z) (t : Z * Z) (s : ptp) : PTPMsgBody :=
  let r := ptpTimeRecord s in let b := body_ (txPTPMsg s) in let rq := head_ (rxPTPMsg s) in
  if is_event k then set_stamp (fst t) (snd t) b
  else if k =? PTP_FOLLOW_MSGTYPE then set_stamp (t1Seconds r) (t1Nanoseconds r) b
  else set_stamp (t4Seconds r) (t4Nanoseconds r) (set_requester (portIdentity rq) (portId rq) b).
Definition issue_tx (k : Z) (p : PTPPortInfo) (seqId : Z) (t : Z * Z) (s : ptp) : PTPv2Msg :=
  mk_msg (set_len_ctrl (issue_len k) (issue_ctrl k) (issue_head p seqId k (head_ (txPTPMsg s)))) (issue_body k t s).
(** [t] is the time at which the message left. *)
Definition issue_rec (k : Z) (t : Z * Z) (r : PTPv2TimeRecord) : PTPv2TimeRecord :=
  if k =? PTP_SYNC_MSGTYPE then set_t1 (fst t) (snd t) r
  else if k =? PTP_DLYREQ_MSGTYPE then set_t3 (fst t) (snd t) r else r.

Lemma fits_u16 x : fits 2 (u16 x).
Proof. apply u16_range. Qed.
Lemma lor_fits k a b : fits k a -> fits k b -> fits k (Z.lor a b).
Proof.
  unfold fits. change 256 with (2 ^ 8). rewrite <- Z.pow_mul_r by lia. intros Ha Hb.
  rewrite <- (Z.mod_small a (2 ^ (8 * Z.of_nat k))), <- (Z.mod_small b (2 ^ (8 * Z.of_nat k))) by done.
  rewrite <- !Z.land_ones, <- Z.land_lor_distr_l, Z.land_ones by lia. apply Z.mod_pos_bound. apply Z.pow_pos_nonneg; lia.
Qed.

Lemma issue_tx_wf k p seqId t s : is_type k -> wf_port p -> is_time t -> wf_ptp s -> wf_msg (issue_tx k p seqId t s).
Proof.
  intros Hk [_ [Hid [Hpid Hsi]]] [Ht Ht'] [[[H8 H16 HL Hi] [Hb1 Hb2 Hb3]] [[_ G16 _ Gi] _] [[R1 R1'] [R4 R4']] _].
  assert (fits 1 (u8 k) /\ fits 2 (issue_len k) /\ fits 1 (issue_ctrl k)) as (? & ? & ?).
  { destruct Hk as [->|[->|[->| ->]]]; vm_compute; intuition congruence. }
  assert (fits 1 2 /\ fits 8 0 /\ fits 2 512 /\ fits 2 1024) as (? & ? & ? & ?) by (vm_compute; intuition congruence).
  split.
  - constructor; cbn; [tauto| |tauto|by rewrite copy_array_8 by apply Hid].
    split_and!; try tauto; [|apply fits_u16]. apply lor_fits; [|done]. apply lor_fits; [tauto|done].
  - unfold issue_tx, issue_body. cbn. repeat case_match; constructor; cbn; intuition.
Qed.

(** Of the data only the given number of bytes is used. *)
Lemma udp_transmit_take fuel sip tx dmac dip sp dp data n w :
  udp_transmit fuel sip tx dmac dip sp dp data (Z.of_nat n) w = udp_transmit fuel sip tx dmac dip sp dp (take n data) (Z.of_nat n) w.
Proof.
  unfold udp_transmit, bind, build, udp_write_frame. rewrite Nat2Z.id.
  rewrite (for_up_ext _ (fun i t => mem_iowr_byte t (tx + 42 + i) (at_ (take n data) i)) n 0 0); [done|].
  intros i t Hi. f_equal. unfold at_. by rewrite !nth_lookup, lookup_take_lt by lia.
Qed.

Lemma send_run fuel tx rx dmac dip port m k w : host_ok w tx -> wf_msg m -> byte_array 6 dmac -> byte_array 4 dip ->
  0 <= port < 65536 -> (k <= 54)%nat -> (tx_latency < fuel)%nat ->
  exists w' c1 c2, udp_send_mac fuel tx rx dmac dip port port (msg_bytes m) (Z.of_nat k) 0 w = Some (1, w') /\
    wire (w_dev w') = wire (w_dev w) ++
      [udp_frame dmac (w_my_mac w) (w_my_ip w) dip port port (w_ipv4_id w) (take k (msg_bytes m)) c1 c2].
Proof.
  intros [Hw Hm Hid [Hal [[Ht1 [Ht2 Ht3]] [Htw Hidle]]]] Hwf Hdm Hdi Hp Hk Hf. unfold udp_send_mac, bind, gets.
  pose proof (msg_bytes_array m Hwf) as [Hl Hb].
  assert (length (take k (msg_bytes m)) = k) as Hlen by (rewrite length_take; lia).
  rewrite udp_transmit_take. replace (Z.of_nat k) with (Z.of_nat (length (take k (msg_bytes m)))) by (by rewrite Hlen).
  destruct (udp_transmit_spec fuel (w_my_ip w) tx dmac dip port port (take k (msg_bytes m)) w)
    as (w' & c1 & c2 & Hr & Hwire & _); try done.
  - constructor; try done; [apply Hw|by apply Forall_take|lia].
  - split; [unfold in_space; lia|]. split; [|done]. intros i Hi. apply Htw. lia.
  - exists w', c1, c2. by split.
Qed.

Lemma issue_run fuel p tx rx dmac dip seqId k s w : host_ok w tx -> is_type k -> wf_port p -> wf_ptp s ->
  byte_array 6 dmac -> byte_array 4 dip -> (tx_latency < fuel)%nat ->
  exists w' t c1 c2, let m := issue_tx k p seqId t s in
    ptpv2_issue_msg fuel p tx rx dmac dip seqId k s w =
      Some ((k, set_rec (issue_rec k (tx_stamp (w_dev w')) (ptpTimeRecord s)) (set_tx m s)), w') /\
    wf_msg m /\
    wire (w_dev w') = wire (w_dev w) ++
      [udp_frame dmac (w_my_mac w) (w_my_ip w) dip (issue_port k) (issue_port k) (w_ipv4_id w)
         (take (Z.to_nat (issue_len k)) (msg_bytes m)) c1 c2].
Proof.
  intros Hw Hk Hp Hs Hdm Hdi Hf. pose proof (wp_base _ Hp) as Eb.
  assert (exists x w1, sec_ns (ptp_base + RTC_TIME_SEC) (ptp_base + RTC_TIME_NS) w = Some (x, w1) /\ kept w w1 /\ is_time x)
    as (x & w1 & Ex & Hk1 & _ & Ht2) by (apply sec_ns_run; unfold RTC_TIME_SEC, RTC_TIME_NS; lia).
  set (t := (Z.land (fst x) 0xFFFFFFFF, snd x)). set (w0 := if is_event k then w1 else w).
  assert (is_time t) as Ht.
  { split; [|done]. cbn. change 4294967295 with (Z.ones 32). rewrite Z.land_ones by lia. by apply Z.mod_pos_bound. }
  assert (kept w w0) as Hk0 by (subst w0; destruct (is_event k); [done|by constructor]).
  pose proof (issue_tx_wf k p seqId t s Hk Hp Ht Hs) as Hm.
  destruct (send_run fuel tx rx dmac dip (issue_port k) (issue_tx k p seqId t s) (Z.to_nat (issue_len k)) w0)
    as (w2 & c1 & c2 & Hsend & Hwire);
    [by apply (host_kept w)|done|done|done|unfold issue_port; case_match; unfold PTP_EVENT_PORT, PTP_GENERAL_PORT; lia
    |unfold issue_len; case_match; lia|done|].
  rewrite (kp_wire _ _ Hk0), (kp_mac _ _ Hk0), (kp_ip _ _ Hk0), (kp_id _ _ Hk0) in Hwire.
  destruct (tx_timestamp_run w2) as (w3 & Hst & Hk3).
  exists (if is_event k then w3 else w2), t, c1, c2. cbv zeta. split; [|split; [done|]].
  - unfold ptpv2_issue_msg. rewrite Eb. subst w0. destruct Hk as [->|[->|[->| ->]]]; const_ifs;
      unfold bind, ret; try (rewrite Ex; cbn [fst snd]);
      match goal with |- context [udp_send_mac fuel tx rx dmac dip ?a ?b ?m ?l 0 ?w] =>
        match type of Hsend with ?L = _ => change (udp_send_mac fuel tx rx dmac dip a b m l 0 w) with L end end;
      rewrite Hsend; cbn [fst snd];
      try (change (is_event _) with true; cbn match; rewrite Hst, (kp_tx _ _ Hk3)); try done.
    all: by destruct s.
  - destruct (is_event k); [|done]. by rewrite (kp_wire _ _ Hk3).
Qed.

(** ** Receiving *)

(** The frame is in the receive buffer of a host that can answer. *)
Record receives (f : list Z) (w : world) (rx tx : Z) : Prop := {
  rv_host : host_ok w tx;
  rv_rx : rx mod 4 = 0 /\ in_space rx 100;
  rv_frame : read_bytes (w_mem w) rx (Z.of_nat (length f)) = f;
}.

(** State and result after message [msg], which arrived at [t]. *)
Definition handled (t : Z * Z) (sip smac : list Z) (msg : PTPv2Msg) (s : ptp) : Z * ptp :=
  let s := set_rx msg s in
  let r := ptpTimeRecord s in
  let b := body_ msg in
  let type := transportSpec_msgType (head_ msg) in
  if type =? PTP_SYNC_MSGTYPE then
    let r := set_t2 (logMessageInterval (head_ msg)) (fst t) (snd t) r in
    (PTP_SYNC_MSGTYPE,
     if two_step msg then set_rec r s
     else set_rec (set_t1 (seconds b) (nanoseconds b) r) (set_master (set_addr sip smac (lastMasterInfo s)) (set_rec r s)))
  else if type =? PTP_FOLLOW_MSGTYPE then
    (PTP_FOLLOW_MSGTYPE, set_master (set_addr sip smac (lastMasterInfo s)) (set_rec (set_t1 (seconds b) (nanoseconds b) r) s))
  else if type =? PTP_DLYREQ_MSGTYPE then
    (PTP_DLYREQ_MSGTYPE, set_slave (set_addr sip smac (lastSlaveInfo s)) (set_rec (set_t4 (fst t) (snd t) r) s))
  else if type =? PTP_DLYRPLY_MSGTYPE then
    (PTP_DLYRPLY_MSGTYPE, set_rec (calc_delay_offset (set_t4 (seconds b) (nanoseconds b) r)) s)
  else (minus_PTP, s).

Section Received.
Context (dmac hmac sip dip data : list Z) (port id c1 c2 : Z).
Context (Hsb : sendable dmac sip dip data port port) (Hhm : byte_array 6 hmac) (Hlen : (length data <= 54)%nat).
Let frame := udp_frame dmac hmac sip dip port port id data c1 c2.

Lemma handle_run tx rx smac s w : wf_ptp s -> receives frame w rx tx -> exists w',
  ptpv2_handle_msg (thisPtpPortInfo s) tx rx smac s w =
    Some (Some (handled (rx_stamp (w_dev w)) sip smac (receive_into data (rxPTPMsg s)) s), w') /\ kept w w'.
Proof.
  intros Hs [Hw [Hal [Hr1 [_ Hr2]]] Hf]. pose proof (wp_base _ (ws_port _ Hs)) as Eb.
  unfold ptpv2_handle_msg. rewrite Eb. unfold bind, gets, ret.
  destruct (rx_stamp_run w) as (w1 & -> & H1).
  destruct (iowr_run RXCHAN_STATUS 1 w1) as (w2 & -> & H2); [unfold RXCHAN_STATUS; lia|].
  assert (kept w w2) as Hk by eauto. rewrite (kp_mem _ _ Hk).
  destruct Hsb as [Hdm Hsi Hdi Hda Hsp Hdp Hfit].
  assert (Z.of_nat (length frame) = 42 + Z.of_nat (length data)) as Hfl by (by apply udp_frame_len).
  rewrite Hfl in Hf.
  destruct (udp_received (w_mem w) rx dmac hmac sip dip port port id data c1 c2)
    as (_&_&_&_& -> &_&_&_& Hn & Hd); [done|done|apply Hw|done|unfold in_space; lia|done|].
  rewrite Hd, Hn. rewrite (proj2 (Z.ltb_ge _ _)) by (unfold sizeof_PTPv2Msg; lia).
  unfold handled. cbv zeta. do 3 (case_match; [by exists w2|]). case_match; [|by exists w2].
  destruct (correct_run (thisPtpPortInfo s)
    (calc_delay_offset (set_t4 (seconds (body_ (receive_into data (rxPTPMsg s)))) (nanoseconds (body_ (receive_into data (rxPTPMsg s))))
       (ptpTimeRecord (set_rx (receive_into data (rxPTPMsg s)) s)))) w2) as (w3 & E3 & Hk3); [apply Hs|].
  rewrite E3. eauto.
Qed.
End Received.

(** ** The exchange *)

(** [f] is a frame with the message [m] of type [k]. *)
Definition sent (k : Z) (m : PTPv2Msg) (f : list Z) : Prop :=
  is_type k /\ wf_msg m /\ transportSpec_msgType (head_ m) = k /\ two_step m = true /\
  exists dmac hmac sip dip id c1 c2, let data := take (Z.to_nat (issue_len k)) (msg_bytes m) in
    sendable dmac sip dip data (issue_port k) (issue_port k) /\ byte_array 6 hmac /\
    f = udp_frame dmac hmac sip dip (issue_port k) (issue_port k) id data c1 c2.

(** The message as it is received. *)
Definition got (k : Z) (m old : PTPv2Msg) : PTPv2Msg :=
  let b := body_ m in
  mk_msg (head_ m)
    (if k =? PTP_DLYRPLY_MSGTYPE
     then mk_body (seconds b) (nanoseconds b) (requestingSourcePort b) (requestingSourceId b) (body_pad (body_ old))
     else set_stamp (seconds b) (nanoseconds b) (body_ old)).

Definition time1 (r : PTPv2TimeRecord) : Z * Z := (t1Seconds r, t1Nanoseconds r).
Definition time2 (r : PTPv2TimeRecord) : Z * Z := (t2Seconds r, t2Nanoseconds r).
Definition time3 (r : PTPv2TimeRecord) : Z * Z := (t3Seconds r, t3Nanoseconds r).
Definition time4 (r : PTPv2TimeRecord) : Z * Z := (t4Seconds r, t4Nanoseconds r).

Lemma two_step_issued k p seqId t s : two_step (issue_tx k p seqId t s) = true.
Proof.
  unfold two_step, issue_tx, issue_head. cbn. apply Z.eqb_eq. apply Z.bits_inj'. intros i Hi.
  rewrite Z.land_spec, !Z.lor_spec. unfold FLAG_PTP_TWO_STEP_MASK. destruct (Z.testbit 0x200 i); [|by rewrite andb_false_r].
  by rewrite orb_true_r.
Qed.
Lemma type_issued k p seqId t s : is_type k -> transportSpec_msgType (head_ (issue_tx k p seqId t s)) = k.
Proof. by intros [->|[->|[->| ->]]]. Qed.

Lemma issue_step fuel tx rx dmac dip seqId k s w : host_ok w tx -> is_type k -> wf_ptp s ->
  byte_array 6 dmac -> byte_array 4 dip -> (tx_latency < fuel)%nat ->
  exists w' s' f t, ptpv2_issue_msg fuel (thisPtpPortInfo s) tx rx dmac dip seqId k s w = Some ((k, s'), w') /\
    wire (w_dev w') = wire (w_dev w) ++ [f] /\ sent k (issue_tx k (thisPtpPortInfo s) seqId t s) f /\ wf_ptp s' /\
    thisPtpPortInfo s' = thisPtpPortInfo s /\ ptpTimeRecord s' = issue_rec k (tx_stamp (w_dev w')) (ptpTimeRecord s).
Proof.
  intros Hw Hk Hs Hdm Hdi Hf.
  destruct (issue_run fuel (thisPtpPortInfo s) tx rx dmac dip seqId k s w) as (w' & t & c1 & c2 & Hr & Hm & Hwire);
    try done; [by apply ws_port|].
  eexists w', _, _, t. split; [exact Hr|]. split; [exact Hwire|]. split; [|split; [|done]].
  - split; [done|]. split; [done|]. split; [by apply type_issued|]. split; [apply two_step_issued|].
    destruct (msg_bytes_array _ Hm) as [Hl Hb]. eexists _, _, _, _, _, _, _. split; [|split; [|done]]; [|apply Hw].
    constructor; try done; [apply Hw|by apply Forall_take|..];
      try (unfold issue_port; case_match; unfold PTP_EVENT_PORT, PTP_GENERAL_PORT; lia).
    rewrite length_take, Hl. unfold issue_len. case_match; cbn; lia.
  - destruct Hs as [Htx Hrx Hrec Hp]. constructor; cbn; try done. destruct (stamp_range (w_dev w')) as [Ht _].
    destruct Hrec. unfold issue_rec. repeat case_match; split; cbn; try done.
Qed.

Lemma recv_step k m f tx rx smac s w : sent k m f -> receives f w rx tx -> wf_ptp s -> exists w' sip, byte_array 4 sip /\
  ptpv2_handle_msg (thisPtpPortInfo s) tx rx smac s w =
    Some (Some (handled (rx_stamp (w_dev w)) sip smac (got k m (rxPTPMsg s)) s), w') /\ kept w w'.
Proof.
  intros (Hk & Hm & _ & _ & dmac & hmac & sip & dip & id & c1 & c2 & Hsb & Hhm & ->) Hrv Hs.
  destruct (handle_run dmac hmac sip dip _ (issue_port k) id c1 c2 Hsb Hhm ltac:(rewrite length_take; unfold issue_len; case_match; lia)
    tx rx smac s w Hs Hrv) as (w' & Hr & Hkept).
  exists w', sip. split; [apply Hsb|]. split; [|done]. rewrite Hr.
  destruct (receive_sent m (rxPTPMsg s) Hm (ws_rx _ Hs)) as [E1 E2]. unfold got, issue_len.
  destruct (k =? PTP_DLYRPLY_MSGTYPE); [rewrite <- E2|rewrite <- E1]; done.
Qed.

Lemma got_wf k m old : wf_msg m -> wf_msg old -> wf_msg (got k m old).
Proof.
  intros [Hh [? ? ?]] [_ [? ? ?]]. split; [done|]. unfold got. cbn. case_match; constructor; cbn; tauto.
Qed.

(** A handler that does not answer, and one that does. *)
Lemma silent_step fuel tx rx answer k m f s w : sent k m f -> receives f w rx tx -> wf_ptp s ->
  (forall sip, uncurry answer (handled (rx_stamp (w_dev w)) sip PTP_BROADCAST_MAC (got k m (rxPTPMsg s)) s) = None) ->
  exists w' sip, handle_and_answer fuel tx rx s answer w =
    Some (Some (handled (rx_stamp (w_dev w)) sip PTP_BROADCAST_MAC (got k m (rxPTPMsg s)) s), w') /\ kept w w'.
Proof.
  intros Hm Hrv Hs Ha. unfold handle_and_answer, bind.
  destruct (recv_step k m f tx rx PTP_BROADCAST_MAC s w Hm Hrv Hs) as (w' & sip & _ & -> & Hk). exists w', sip.
  pose proof (Ha sip) as E. destruct (handled _ _ _ _ _) as [a s1]. cbn in E. by rewrite E.
Qed.

Lemma answer_step fuel tx rx answer k k' m f s w : sent k m f -> receives f w rx tx -> wf_ptp s ->
  is_type k' -> (tx_latency < fuel)%nat ->
  (forall sip, byte_array 4 sip -> let h := handled (rx_stamp (w_dev w)) sip PTP_BROADCAST_MAC (got k m (rxPTPMsg s)) s in
     uncurry answer h = Some (sip, k') /\ wf_ptp (snd h)) ->
  exists w' sip s' f' t seqId, let h := handled (rx_stamp (w_dev w)) sip PTP_BROADCAST_MAC (got k m (rxPTPMsg s)) s in
    handle_and_answer fuel tx rx s answer w = Some (Some (fst h, s'), w') /\
    wire (w_dev w') = wire (w_dev w) ++ [f'] /\ sent k' (issue_tx k' (thisPtpPortInfo (snd h)) seqId t (snd h)) f' /\ wf_ptp s' /\
    thisPtpPortInfo s' = thisPtpPortInfo (snd h) /\ ptpTimeRecord s' = issue_rec k' (tx_stamp (w_dev w')) (ptpTimeRecord (snd h)).
Proof.
  intros Hm Hrv Hs Hk' Hf Ha. unfold handle_and_answer, bind.
  destruct (recv_step k m f tx rx PTP_BROADCAST_MAC s w Hm Hrv Hs) as (w1 & sip & Hsip & -> & Hk).
  destruct (Ha sip Hsip) as [E Hwf]. destruct (handled _ _ _ _ _) as [a s1] eqn:Eh. cbn [uncurry snd] in E, Hwf. rewrite E.
  destruct (issue_step fuel tx rx PTP_BROADCAST_MAC sip (sequenceId (head_ (rxPTPMsg s1))) k' s1 w1)
    as (w2 & s2 & f2 & t & -> & Hw2 & Hsent & Hwf2 & Hthis & Hrec); try done.
  - apply (host_kept w); [done|apply Hrv].
  - split; [done|]. by repeat constructor.
  - exists w2, sip, s2, f2, t, (sequenceId (head_ (rxPTPMsg s1))). rewrite Eh. cbn [fst snd].
    split_and!; try done. by rewrite Hw2, (kp_wire _ _ Hk).
Qed.

Lemma got_type k m f old : sent k m f -> transportSpec_msgType (head_ (got k m old)) = k.
Proof. intros Hm. apply Hm. Qed.
(** [handled] for a message of a known type. *)
Ltac handled_type Hm := unfold handled; rewrite (got_type _ _ _ _ Hm); const_ifs.

Lemma slave_sync fuel tx rx m f s w : sent PTP_SYNC_MSGTYPE m f -> receives f w rx tx -> wf_ptp s ->
  portRole (thisPtpPortInfo s) = PTP_SLAVE ->
  exists w' s', ptpv2_process_received fuel (thisPtpPortInfo s) tx rx s w = Some (Some (PTP_SYNC_MSGTYPE, s'), w') /\
    wire (w_dev w') = wire (w_dev w) /\ wf_ptp s' /\ thisPtpPortInfo s' = thisPtpPortInfo s /\
    time2 (ptpTimeRecord s') = rx_stamp (w_dev w).
Proof.
  intros Hm Hrv Hs Hr. unfold ptpv2_process_received. rewrite Hr. const_ifs.
  assert (two_step (got PTP_SYNC_MSGTYPE m (rxPTPMsg s)) = true) as Htw by apply Hm.
  destruct (silent_step fuel tx rx slave_answer PTP_SYNC_MSGTYPE m f s w Hm Hrv Hs) as (w' & sip & -> & Hk).
  - intros sip. handled_type Hm. rewrite Htw. cbn. unfold slave_answer. const_ifs. cbn. by rewrite Htw.
  - eexists w', _. split; [handled_type Hm; reflexivity|]. rewrite Htw. split; [apply Hk|].
    destruct Hs as [Htx Hrx Hrec Hp]. split; [|split; [done|cbn; by destruct (rx_stamp (w_dev w))]].
    constructor; cbn; try done. apply got_wf; [apply Hm|done].
Qed.

Lemma slave_follow fuel tx rx m f s w : sent PTP_FOLLOW_MSGTYPE m f -> receives f w rx tx -> wf_ptp s ->
  portRole (thisPtpPortInfo s) = PTP_SLAVE -> (tx_latency < fuel)%nat ->
  exists w' s' m' f', ptpv2_process_received fuel (thisPtpPortInfo s) tx rx s w = Some (Some (PTP_FOLLOW_MSGTYPE, s'), w') /\
    wire (w_dev w') = wire (w_dev w) ++ [f'] /\ sent PTP_DLYREQ_MSGTYPE m' f' /\ wf_ptp s' /\
    thisPtpPortInfo s' = thisPtpPortInfo s /\
    time1 (ptpTimeRecord s') = (seconds (body_ m), nanoseconds (body_ m)) /\
    time2 (ptpTimeRecord s') = time2 (ptpTimeRecord s) /\ time3 (ptpTimeRecord s') = tx_stamp (w_dev w').
Proof.
  intros Hm Hrv Hs Hr Hf. unfold ptpv2_process_received. rewrite Hr. const_ifs.
  destruct (answer_step fuel tx rx slave_answer PTP_FOLLOW_MSGTYPE PTP_DLYREQ_MSGTYPE m f s w Hm Hrv Hs)
    as (w' & sip & s' & f' & t & q & Hh & Hw & Hsent & Hwf & Hthis & Hrec); [unfold is_type; tauto|done| |].
  - intros sip Hsip. handled_type Hm. cbn. rewrite copy_array_4 by apply Hsip. split; [done|].
    destruct Hs as [Htx Hrx [_ Hrec] Hp]. constructor; cbn; try done; [apply got_wf; [apply Hm|done]|].
    split; [apply Hm|done].
  - revert Hh Hrec Hthis Hsent. handled_type Hm. intros Hh Hrec Hthis Hsent. eexists w', s', _, f'.
    split; [exact Hh|]. split; [exact Hw|]. split; [exact Hsent|]. split; [done|]. split; [done|]. rewrite Hrec. cbn.
    split_and!; try done. by destruct (tx_stamp (w_dev w')).
Qed.

Lemma master_request fuel tx rx m f s w : sent PTP_DLYREQ_MSGTYPE m f -> receives f w rx tx -> wf_ptp s ->
  portRole (thisPtpPortInfo s) = PTP_MASTER -> (tx_latency < fuel)%nat ->
  exists w' s' m' f', ptpv2_process_received fuel (thisPtpPortInfo s) tx rx s w = Some (Some (PTP_DLYREQ_MSGTYPE, s'), w') /\
    wire (w_dev w') = wire (w_dev w) ++ [f'] /\ sent PTP_DLYRPLY_MSGTYPE m' f' /\
    (seconds (body_ m'), nanoseconds (body_ m')) = rx_stamp (w_dev w) /\
    requestingSourcePort (body_ m') = portIdentity (head_ m) /\ requestingSourceId (body_ m') = portId (head_ m).
Proof.
  intros Hm Hrv Hs Hr Hf. unfold ptpv2_process_received. rewrite Hr. const_ifs.
  destruct (answer_step fuel tx rx master_answer PTP_DLYREQ_MSGTYPE PTP_DLYRPLY_MSGTYPE m f s w Hm Hrv Hs)
    as (w' & sip & s' & f' & t & q & Hh & Hw & Hsent & _); [unfold is_type; tauto|done| |].
  - intros sip Hsip. handled_type Hm. cbn. rewrite copy_array_4 by apply Hsip. split; [done|].
    destruct Hs as [Htx Hrx [Hrec _] Hp]. constructor; cbn; try done; [apply got_wf; [apply Hm|done]|].
    split; [done|]. apply stamp_range.
  - revert Hh Hsent. handled_type Hm. intros Hh Hsent. eexists w', s', _, f'.
    split; [exact Hh|]. split; [exact Hw|]. split; [exact Hsent|]. cbn. split; [by destruct (rx_stamp (w_dev w))|done].
Qed.

Lemma slave_reply fuel tx rx m f s w : sent PTP_DLYRPLY_MSGTYPE m f -> receives f w rx tx -> wf_ptp s ->
  portRole (thisPtpPortInfo s) = PTP_SLAVE ->
  exists w' s', ptpv2_process_received fuel (thisPtpPortInfo s) tx rx s w = Some (Some (PTP_DLYRPLY_MSGTYPE, s'), w') /\
    wire (w_dev w') = wire (w_dev w) /\
    ptpTimeRecord s' = calc_delay_offset (set_t4 (seconds (body_ m)) (nanoseconds (body_ m)) (ptpTimeRecord s)).
Proof.
  intros Hm Hrv Hs Hr. unfold ptpv2_process_received. rewrite Hr. const_ifs.
  destruct (silent_step fuel tx rx slave_answer PTP_DLYRPLY_MSGTYPE m f s w Hm Hrv Hs) as (w' & sip & -> & Hk).
  - intros sip. handled_type Hm. done.
  - eexists w', _. split; [handled_type Hm; reflexivity|]. split; [apply Hk|done].
Qed.

(** C21: one exchange of the protocol.  A master that sends SYNC and FOLLOW and
    answers the request, and a slave that handles what it receives, exchange
    four frames; every call returns, and each sends exactly the next frame (SYNC
    is not answered, as it is a two-step message).  The transmitter of a host is
    idle when it sends (part of [host_ok] and [receives]).  At the end the record of the
    slave holds the times at which SYNC left the master (t1) and arrived (t2) and
    at which the request left the slave (t3) and arrived (t4), as the time
    stamp units measured them, and the delay and offset computed from them. *)
Theorem ptp_exchange fuel txm rxm txs rxs dmac dip q sm ss wm : (tx_latency < fuel)%nat ->
  wf_ptp sm -> portRole (thisPtpPortInfo sm) = PTP_MASTER -> wf_ptp ss -> portRole (thisPtpPortInfo ss) = PTP_SLAVE ->
  byte_array 6 dmac -> byte_array 4 dip -> host_ok wm txm ->
  let issue k s := ptpv2_issue_msg fuel (thisPtpPortInfo s) txm rxm dmac dip q k s in
  let process_m s := ptpv2_process_received fuel (thisPtpPortInfo s) txm rxm s in
  let process_s s := ptpv2_process_received fuel (thisPtpPortInfo s) txs rxs s in
  let sends w w' f := wire (w_dev w') = wire (w_dev w) ++ [f] in
  exists sm1 wm1 sync, issue PTP_SYNC_MSGTYPE sm wm = Some ((PTP_SYNC_MSGTYPE, sm1), wm1) /\ sends wm wm1 sync /\
  forall ws1, receives sync ws1 rxs txs -> exists ss2 ws2,
    process_s ss ws1 = Some (Some (PTP_SYNC_MSGTYPE, ss2), ws2) /\ wire (w_dev ws2) = wire (w_dev ws1) /\
  forall wm3, host_ok wm3 txm -> exists sm4 wm4 follow,
    issue PTP_FOLLOW_MSGTYPE sm1 wm3 = Some ((PTP_FOLLOW_MSGTYPE, sm4), wm4) /\ sends wm3 wm4 follow /\
  forall ws3, receives follow ws3 rxs txs -> exists ss4 ws4 request,
    process_s ss2 ws3 = Some (Some (PTP_FOLLOW_MSGTYPE, ss4), ws4) /\ sends ws3 ws4 request /\
  forall wm5, receives request wm5 rxm txm -> exists sm6 wm6 reply,
    process_m sm4 wm5 = Some (Some (PTP_DLYREQ_MSGTYPE, sm6), wm6) /\ sends wm5 wm6 reply /\
  forall ws5, receives reply ws5 rxs txs -> exists ss6 ws6,
    process_s ss4 ws5 = Some (Some (PTP_DLYRPLY_MSGTYPE, ss6), ws6) /\ wire (w_dev ws6) = wire (w_dev ws5) /\
    let r := ptpTimeRecord ss6 in
    time1 r = tx_stamp (w_dev wm1) /\ time2 r = rx_stamp (w_dev ws1) /\ time3 r = tx_stamp (w_dev ws4) /\
    time4 r = rx_stamp (w_dev wm5) /\ calc_delay_offset r = r.
Proof.
  intros Hf Hm HmR Hs HsR Hdm Hdi Hw issue process_m process_s sends.
  destruct (issue_step fuel txm rxm dmac dip q PTP_SYNC_MSGTYPE sm wm)
    as (wm1 & sm1 & sync & t & E1 & W1 & S1 & Hm1 & T1 & R1); try done; [unfold is_type; tauto|].
  exists sm1, wm1, sync. split; [exact E1|]. split; [exact W1|]. intros ws1 V1.
  destruct (slave_sync fuel txs rxs _ sync ss ws1 S1 V1 Hs HsR) as (ws2 & ss2 & E2 & W2 & Hs2 & T2 & R2).
  exists ss2, ws2. split; [exact E2|]. split; [exact W2|]. intros wm3 Hw3.
  destruct (issue_step fuel txm rxm dmac dip q PTP_FOLLOW_MSGTYPE sm1 wm3)
    as (wm4 & sm4 & follow & t4 & E4 & W4 & S4 & Hm4 & T4 & _); try done; [unfold is_type; tauto|].
  exists sm4, wm4, follow. split; [exact E4|]. split; [exact W4|]. intros ws3 V3.
  destruct (slave_follow fuel txs rxs _ follow ss2 ws3 S4 V3 Hs2) as (ws4 & ss4 & m4 & rq & E5 & W5 & S5 & Hs4 & T5 & R51 & R52 & R53);
    [by rewrite T2|done|].
  exists ss4, ws4, rq. split; [exact E5|]. split; [exact W5|]. intros wm5 V5.
  destruct (master_request fuel txm rxm m4 rq sm4 wm5 S5 V5 Hm4) as (wm6 & sm6 & m6 & rp & E6 & W6 & S6 & R6 & _);
    [by rewrite T4, T1|done|].
  exists sm6, wm6, rp. split; [exact E6|]. split; [exact W6|]. intros ws5 V6.
  destruct (slave_reply fuel txs rxs m6 rp ss4 ws5 S6 V6 Hs4) as (ws6 & ss6 & E7 & W7 & R7); [by rewrite T5, T2|].
  exists ss6, ws6. split; [exact E7|]. split; [exact W7|]. intros r. subst r. rewrite R7.
  split_and!; [|by rewrite <- R2, <- R52|by rewrite <- R53|by rewrite <- R6|done].
  change (time1 _) with (time1 (ptpTimeRecord ss4)). rewrite R51. cbn. rewrite R1. cbn. by destruct (tx_stamp (w_dev wm1)).
Qed.
End Exchange.

(** ** Bounds *)

Section Bounds.
Context {ED : EthDev} {PD : @PtpDev ED}.

Lemma iord_some a w : exists v w', ptp_iord a w = Some (v, w') /\ w_mem w' = w_mem w.
Proof. unfold ptp_iord. destruct (ptp_rd _ _) as [v d]. by eexists _, _. Qed.
Lemma iowr_some a v w : exists w', ptp_iowr a v w = Some (tt, w') /\ w_mem w' = w_mem w.
Proof. by eexists. Qed.
Lemma correct_some p r w : exists w', ptp_correct_offset p r w = Some (tt, w').
Proof.
  unfold ptp_correct_offset, rtc_add, bind.
  repeat match goal with
  | |- context [ptp_iord ?a ?w] => destruct (iord_some a w) as (? & ? & -> & _)
  | |- context [if ?b then _ else _] => destruct b
  | |- context [ptp_iowr ?a ?v ?w] => unfold ptp_iowr, modify
  end; by eexists.
Qed.

(** The length of a received message is not checked.  ptpv2_handle_msg
    returns for every packet, and it stays within rxPTPMsg exactly when the
    length field of the UDP header is between 8 and 64; for a longer packet, and
    for a field below 8, from which the length wraps around, it writes behind
    the structure. *)
Theorem ptp_receive_bounds port tx rx smac s w :
  (exists r w', ptpv2_handle_msg port tx rx smac s w = Some (r, w') /\
     (r = None <-> ~ 8 <= udp_get_packet_length (w_mem w) rx <= 64)).
Proof.
  unfold ptpv2_handle_msg, ns_sec, bind, gets, ret.
  destruct (iord_some (eth_base port + RXCHAN_TIMESTAMP_NS) w) as (n & w1 & -> & H1).
  destruct (iord_some (eth_base port + RXCHAN_TIMESTAMP_SEC) w1) as (sc & w2 & -> & H2).
  destruct (iowr_some (eth_base (thisPtpPortInfo s) + RXCHAN_STATUS) 1 w2) as (w3 & -> & H3).
  rewrite H3, H2, H1. unfold udp_get_data_length. pose proof (u16_range (Z.land (mem_iord (w_mem w) (rx + 36)) 65535)) as Hr.
  fold (udp_get_packet_length (w_mem w) rx) in Hr. set (len := udp_get_packet_length (w_mem w) rx) in *.
  assert ((sizeof_PTPv2Msg <? u16 (len - 8)) = negb ((8 <=? len) && (len <=? 64))) as E.
  { unfold sizeof_PTPv2Msg, u16. destruct (Z.leb_spec 8 len); cbn [andb negb].
    - rewrite Z.mod_small by lia. destruct (Z.leb_spec len 64); cbn; [apply Z.ltb_ge|apply Z.ltb_lt]; lia.
    - rewrite <- (Z_mod_plus_full _ 1), Z.mod_small by lia. apply Z.ltb_lt. lia. }
  rewrite E. destruct ((8 <=? len) && (len <=? 64)) eqn:Eb; cbn [negb].
  - assert (8 <= len <= 64) by (apply andb_true_iff in Eb; lia).
    do 3 (case_match; [by eexists _, _|]). case_match; [|by eexists _, _].
    match goal with |- context [ptp_correct_offset ?p ?r ?w] => destruct (correct_some p r w) as (w4 & ->) end.
    by eexists _, _.
  - apply andb_false_iff in Eb. eexists None, w3. split; [done|]. split; [|done]. intros _. lia.
Qed.
End Bounds.

(** ** Examples *)

(** A device with a clock, over the controller [SimDev]: the registers of the
    time stamp units cannot be written. *)
Module PtpDemo.
Definition base : Z := 0xF00B0000.
Definition stamp_reg (a : Z) : bool :=
  (a =? base + TXCHAN_TIMESTAMP_SEC) || (a =? base + TXCHAN_TIMESTAMP_NS) ||
  (a =? base + RXCHAN_TIMESTAMP_SEC) || (a =? base + RXCHAN_TIMESTAMP_NS).
Definition clock_rd (a : Z) (d : sim_dev) : Z * sim_dev := (u32 (sim_reg d (- a - 1)), d).
Definition put_reg (a v : Z) (d : sim_dev) : sim_dev :=
  mk_sim (<[- a - 1 := v]> (sim_regs d)) (sim_int d) (sim_wire d) (sim_rx d) (sim_time d) (sim_tx d).
Definition clock_wr (a v : Z) (d : sim_dev) : sim_dev := if stamp_reg a then d else put_reg a v d.
Definition SimPtp : @PtpDev SimDev := @Build_PtpDev SimDev clock_rd clock_wr.

Definition stamp (sec ns : Z) (d : sim_dev) : Z * Z := (fst (clock_rd (base + sec) d), fst (clock_rd (base + ns) d)).

Lemma put_reg_other a v d r : r <> - a - 1 -> sim_reg (put_reg a v d) r = sim_reg d r.
Proof. intros Hr. unfold put_reg. rewrite sim_reg_insert. by rewrite (proj2 (Z.eqb_neq _ _)) by lia. Qed.

Lemma clock_wr_regs o v d : 0xE000 <= o < 0xF000 ->
  let d' := clock_wr (base + o) v d in
  sim_wire d' = sim_wire d /\ sim_rxptr d' = sim_rxptr d /\
  stamp TXCHAN_TIMESTAMP_SEC TXCHAN_TIMESTAMP_NS d' = stamp TXCHAN_TIMESTAMP_SEC TXCHAN_TIMESTAMP_NS d /\
  stamp RXCHAN_TIMESTAMP_SEC RXCHAN_TIMESTAMP_NS d' = stamp RXCHAN_TIMESTAMP_SEC RXCHAN_TIMESTAMP_NS d.
Proof.
  intros Ho. unfold clock_wr. destruct (stamp_reg (base + o)) eqn:E; [done|]. cbv zeta. split; [done|].
  unfold stamp_reg in E. rewrite !orb_false_iff, !Z.eqb_neq in E. unfold stamp, clock_rd. cbn [fst].
  split; [|by rewrite !put_reg_other by lia].
  apply put_reg_other. unfold base. change (cell (RX_BD_ADDR_BASE sim_tx_bd_num + 4)) with 385. lia.
Qed.

Definition SimPtpSpec : @PtpDevSpec SimDev SimDevSpec SimPtp.
Proof.
  refine (@Build_PtpDevSpec SimDev SimDevSpec SimPtp base (stamp TXCHAN_TIMESTAMP_SEC TXCHAN_TIMESTAMP_NS)
    (stamp RXCHAN_TIMESTAMP_SEC RXCHAN_TIMESTAMP_NS) _ _ _ _).
  - intros d. repeat split; apply u32_range.
  - done.
  - done.
  - intros o v d d' Ho. rewrite u32_small by (unfold base; lia). intros [->| ->]; [done|].
    destruct (clock_wr_regs o v d Ho) as (Hw & Hrx & Ht & Hr). split; [exact Hw|]. split; [|split_and!; [done|done|]].
    { intros b. cbn. unfold sim_rx_window. by rewrite Hrx. }
    cbn. unfold clock_wr. by destruct (stamp_reg _).
Defined.

Definition blank_head : PTPv2MsgHeader := mk_head 0 0 0 0 0 0 0 0 (replicate 8 0) 0 0 0 0 0.
Definition blank_msg : PTPv2Msg := mk_msg blank_head (mk_body 0 0 (replicate 8 0) 0 0).
Definition boot (role : Z) (m i : list Z) : ptp :=
  let p := ptpv2_intialize_local_port base role m i 1 0 in
  mk_ptp blank_msg blank_msg (mk_rec 0 0 0 0 0 0 0 0 0 0 0 0 0) p p p.
(** A host whose time stamp units show [tx] and [rx], with [f] in its buffer. *)
Definition host (m i f : list Z) (tx rx : Z * Z) : @world SimDev :=
  let d := put_reg (base + TXCHAN_TIMESTAMP_SEC) (fst tx) (put_reg (base + TXCHAN_TIMESTAMP_NS) (snd tx)
             (put_reg (base + RXCHAN_TIMESTAMP_SEC) (fst rx) (put_reg (base + RXCHAN_TIMESTAMP_NS) (snd rx) sim_init))) in
  @mk_world SimDev (store_bytes ∅ 0 f) d arp_table_boot m i 0x1111.

Lemma boot_wf role m i : byte_array 6 m -> @wf_ptp SimDev SimDevSpec SimPtp SimPtpSpec (boot role m i).
Proof.
  intros Hm. assert (wf_msg blank_msg) as Hb.
  { split; constructor; cbn; try (split; [reflexivity|]); repeat (apply List.Forall_cons; [unfold is_byte; lia|]);
      try apply List.Forall_nil; vm_compute; intuition congruence. }
  constructor; [done|done|vm_compute; intuition congruence|]. constructor; [done|]. split; [|vm_compute; intuition congruence].
  split; [done|]. cbn. repeat (apply List.Forall_cons; [first [by eapply byte_array_at|unfold is_byte; lia]|]). apply List.Forall_nil.
Qed.
Lemma host_sim_ok m i f tx rx : byte_array 6 m -> byte_array 4 i -> @host_ok SimDev SimDevSpec (host m i f tx rx) 0x800.
Proof.
  intros Hm Hi. constructor.
  - constructor; [done|done|apply arp_boot_inv].
  - apply store_bytes_wf, wf_mem_empty.
  - cbn. lia.
  - split; [done|]. split; [split_and!; lia|]. split; [|done]. intros k Hk (j & Hj & He).
    change (sim_rxptr _) with 0 in He. rewrite !u32_small in He by lia. lia.
Qed.
End PtpDemo.
Import PtpDemo.

(** SYNC crosses the start of second 10, the request does not: instead of an
    offset of 50 ns the slave computes 0.500000050 s. *)
Lemma ptp_offset_correct_witness :
  let r' := calc_delay_offset (mk_rec 0 0 0 9 999999900 10 100 0 0 10 1000 10 1100) in
  total (offsetSeconds r') (offsetNanoseconds r') = 500000050 /\ total (delaySeconds r') (delayNanoseconds r') = -499999850.
Proof.
  apply (ptp_offset_correct (mk_rec 0 0 0 9 999999900 10 100 0 0 10 1000 10 1100) 150 50).
  - constructor; cbn; unfold SEC_TO_NS; lia.
  - reflexivity.
  - reflexivity.
Defined.

Lemma ptp_exchange_witness : exists sm1 wm1 sync,
  @ptpv2_issue_msg SimDev SimPtp 1 (thisPtpPortInfo (boot 0 my_mac my_ip)) 0x800 0 (replicate 6 0xFF) [224; 0; 1; 129] 7
    PTP_SYNC_MSGTYPE (boot 0 my_mac my_ip) (host my_mac my_ip [] (9, 999999900) (0, 0)) = Some ((PTP_SYNC_MSGTYPE, sm1), wm1) /\
  sim_wire (@w_dev SimDev wm1) = [sync].
Proof.
  destruct (@ptp_exchange SimDev SimDevSpec SimPtp SimPtpSpec 1 0x800 0 0x800 0 (replicate 6 0xFF) [224; 0; 1; 129] 7
    (boot 0 my_mac my_ip) (boot 1 peer_mac peer_ip) (host my_mac my_ip [] (9, 999999900) (0, 0)))
    as (sm1 & wm1 & sync & HE & HW & _).
  - cbn. lia.
  - apply boot_wf, my_mac_array.
  - reflexivity.
  - apply boot_wf, peer_mac_array.
  - reflexivity.
  - split; [reflexivity|]. cbn. repeat (apply List.Forall_cons; [unfold is_byte; lia|]). apply List.Forall_nil.
  - split; [reflexivity|]. repeat (apply List.Forall_cons; [unfold is_byte; lia|]). apply List.Forall_nil.
  - apply host_sim_ok; [apply my_mac_array|apply my_ip_array].
  - exists sm1, wm1, sync. split; [exact HE|]. exact HW.
Defined.

(** The same exchange, computed from the first call to the last. *)
Module PtpRun.
Definition sent_frame (w : @world SimDev) : list Z := default [] (last (sim_wire (@w_dev SimDev w))).
Definition master (f : list Z) (tx rx : Z * Z) : @world SimDev := host my_mac my_ip f tx rx.
Definition slave (f : list Z) (tx rx : Z * Z) : @world SimDev := host peer_mac peer_ip f tx rx.
Definition issue (k : Z) (s : ptp) := @ptpv2_issue_msg SimDev SimPtp 1 (thisPtpPortInfo s) 0x800 0 (replicate 6 0xFF) [224; 0; 1; 129] 7 k s.
Definition process (s : ptp) := @ptpv2_process_received SimDev SimPtp 1 (thisPtpPortInfo s) 0x800 0 s.
Definition exchange (t1 t2 t3 t4 : Z * Z) : option PTPv2TimeRecord :=
  let z := (0, 0) in
  match issue PTP_SYNC_MSGTYPE (boot 0 my_mac my_ip) (master [] t1 z) with
  | Some ((_, sm1), wm1) =>
    match process (boot 1 peer_mac peer_ip) (slave (sent_frame wm1) z t2), issue PTP_FOLLOW_MSGTYPE sm1 (master [] t1 z) with
    | Some (Some (_, ss1), _), Some ((_, sm2), wm2) =>
      match process ss1 (slave (sent_frame wm2) t3 z) with
      | Some (Some (_, ss2), ws2) =>
        match process sm2 (master (sent_frame ws2) z t4) with
        | Some (Some (_, _), wm3) =>
          match process ss2 (slave (sent_frame wm3) z z) with
          | Some (Some (_, ss3), _) => Some (ptpTimeRecord ss3)
          | _ => None
          end
        | _ => None
        end
      | _ => None
      end
    | _, _ => None
    end
  | _ => None
  end.
Example exchange_run : exchange (9, 999999900) (10, 100) (10, 1000) (10, 1100) =
  Some (mk_rec 0 1 (-499999950) 9 999999900 10 100 0 (-499999850) 10 1000 10 1100).
Proof. vm_compute. reflexivity. Qed.
End PtpRun.
