(* ===== verification/Tte.v ===== *)
(** Tte: TTEthernet, c/ethlib/tte.c.

    - [tte] are the globals of tte.c; [VL] is one virtual link with its queue
      of frames.  Memory from malloc holds the values of [junk].
    - Functions that only work on the globals take and return [tte]; [None] is
      an access outside an array.  Functions that reach the controller run in
      the monad [M] of World.
    - arm_clock_timer, the timer, the cycle counter and the exception vector
      belong to the platform: [armed] is the time last passed to
      arm_clock_timer, [handlers] what was passed to the functions of
      machine/exceptions.h. *)

From stdpp Require Import base numbers list gmap.
From S2P Require Import Prelude EthIO World EthMac.

Definition CYCLES_PER_UNIT := 8000.

Record VL := mk_VL {
  max_queue : Z;
  startTime : Z;
  period : Z;
  queue : list Z;
  sizeQueue : list Z;
  addplace : Z;
  rmplace : Z;
}.

(** [Given] is the handler of the application. *)
Inductive exc_handler := ClockTick | ClockTickLog | Given.
(** Interrupts: the handlers that were registered, the lines that were
    unmasked and whether interrupts are enabled. *)
Record exc_state := mk_exc {
  registered : gmap Z exc_handler;
  unmasked : gset Z;
  intr_enabled : bool;
}.
Definition exc_register (i : Z) (h : exc_handler) (e : exc_state) : exc_state :=
  mk_exc (<[i := h]> (registered e)) (unmasked e) (intr_enabled e).
Definition intr_unmask (i : Z) (e : exc_state) : exc_state :=
  mk_exc (registered e) ({[ i ]} ∪ unmasked e) (intr_enabled e).
Definition intr_enable (e : exc_state) : exc_state := mk_exc (registered e) (unmasked e) true.

Record tte := mk_tte {
  TTE_MAX_TRANS_DELAY : Z;
  TTE_COMP_DELAY : Z;
  TTE_PRECISION : Z;
  integration_period : Z;
  integration_cycle : Z;
  cluster_period : Z;
  tte_current_time : Z;
  timer_time : Z;
  clock_err : Z;
  clock_err_integral : Z;
  CT_marker : list Z;
  max_sched : Z;
  mac : list Z;
  VLarray : list VL;
  VLsize : Z;
  sched : list Z;
  VLsched : list Z;
  startTick : Z;
  schedplace : Z;
  send_times : list Z;
  send_time_i : Z;
  tte_receive_log_max_time : Z;
  handle_integration_frame_log_max_time : Z;
  tte_clear_free_rx_buffer_max_time : Z;
  armed : option Z;
  handlers : exc_state;
}.

(** ** Assignments to the globals *)

Definition set_config (d c p ip cp : Z) (ct mc : list Z) (t : tte) : tte :=
  mk_tte d c p ip (integration_cycle t) cp (tte_current_time t) (timer_time t) (clock_err t) (clock_err_integral t)
    ct (max_sched t) mc (VLarray t) (VLsize t) (sched t) (VLsched t) (startTick t) (schedplace t) (send_times t)
    (send_time_i t) (tte_receive_log_max_time t) (handle_integration_frame_log_max_time t)
    (tte_clear_free_rx_buffer_max_time t) (armed t) (handlers t).
Definition set_time (cycle now timer err integral place : Z) (arm : option Z) (t : tte) : tte :=
  mk_tte (TTE_MAX_TRANS_DELAY t) (TTE_COMP_DELAY t) (TTE_PRECISION t) (integration_period t) cycle (cluster_period t)
    now timer err integral (CT_marker t) (max_sched t) (mac t) (VLarray t) (VLsize t) (sched t) (VLsched t) (startTick t)
    place (send_times t) (send_time_i t) (tte_receive_log_max_time t) (handle_integration_frame_log_max_time t)
    (tte_clear_free_rx_buffer_max_time t) arm (handlers t).
Definition set_VLs (vls : list VL) (n : Z) (t : tte) : tte :=
  mk_tte (TTE_MAX_TRANS_DELAY t) (TTE_COMP_DELAY t) (TTE_PRECISION t) (integration_period t) (integration_cycle t)
    (cluster_period t) (tte_current_time t) (timer_time t) (clock_err t) (clock_err_integral t) (CT_marker t)
    (max_sched t) (mac t) vls n (sched t) (VLsched t) (startTick t) (schedplace t) (send_times t) (send_time_i t)
    (tte_receive_log_max_time t) (handle_integration_frame_log_max_time t) (tte_clear_free_rx_buffer_max_time t)
    (armed t) (handlers t).
Definition set_sched (n : Z) (sc vs : list Z) (start : Z) (t : tte) : tte :=
  mk_tte (TTE_MAX_TRANS_DELAY t) (TTE_COMP_DELAY t) (TTE_PRECISION t) (integration_period t) (integration_cycle t)
    (cluster_period t) (tte_current_time t) (timer_time t) (clock_err t) (clock_err_integral t) (CT_marker t)
    n (mac t) (VLarray t) (VLsize t) sc vs start (schedplace t) (send_times t) (send_time_i t)
    (tte_receive_log_max_time t) (handle_integration_frame_log_max_time t) (tte_clear_free_rx_buffer_max_time t)
    (armed t) (handlers t).
Definition set_log (times : list Z) (i rx hif clr : Z) (h : exc_state) (t : tte) : tte :=
  mk_tte (TTE_MAX_TRANS_DELAY t) (TTE_COMP_DELAY t) (TTE_PRECISION t) (integration_period t) (integration_cycle t)
    (cluster_period t) (tte_current_time t) (timer_time t) (clock_err t) (clock_err_integral t) (CT_marker t)
    (max_sched t) (mac t) (VLarray t) (VLsize t) (sched t) (VLsched t) (startTick t) (schedplace t) times i
    rx hif clr (armed t) h.

(** Arrays: [None] outside. *)
Definition rd {A} (l : list A) (i : Z) : option A := if 0 <=? i then l !! Z.to_nat i else None.
Definition wr {A} (l : list A) (i : Z) (v : A) : option (list A) :=
  if (0 <=? i) && (i <? Z.of_nat (length l)) then Some (<[Z.to_nat i := v]> l) else None.

(** ** Frames *)

Definition is_pcf (m : mem) (addr : Z) : Z :=
  if (mem_iord_byte m (addr + 12) =? 0x89) && (mem_iord_byte m (addr + 13) =? 0x1D) then 1 else 0.

Definition is_tte (m : mem) (addr : Z) (t : tte) : Z :=
  if (mem_iord_byte m addr =? at_ (CT_marker t) 0) && (mem_iord_byte m (addr + 1) =? at_ (CT_marker t) 1) &&
     (mem_iord_byte m (addr + 2) =? at_ (CT_marker t) 2) && (mem_iord_byte m (addr + 3) =? at_ (CT_marker t) 3)
  then 1 else 0.

(** Bytes [from], [from + 1], ... of [l]. *)
Fixpoint put_bytes (m : mem) (addr : Z) (l : list Z) : mem :=
  match l with [] => m | b :: l' => put_bytes (mem_iowr_byte m addr b) (addr + 1) l' end.

Definition tte_prepare_header (tx_addr : Z) (vl ethType : list Z) (t : tte) (m : mem) : mem :=
  let m := put_bytes m tx_addr (map (at_ (CT_marker t)) [0; 1; 2; 3]) in
  let m := mem_iowr_byte m (tx_addr + 4) (at_ vl 0) in
  let m := mem_iowr_byte m (tx_addr + 5) (at_ vl 1) in
  let m := put_bytes m (tx_addr + 6) (map (at_ (mac t)) [0; 1; 2; 3; 4; 5]) in
  let m := mem_iowr_byte m (tx_addr + 12) (at_ ethType 0) in
  mem_iowr_byte m (tx_addr + 13) (at_ ethType 1).

(** [data] is the whole frame: its first 14 bytes are not used. *)
Definition tte_prepare_data (tx_addr : Z) (vl data : list Z) (length : Z) (t : tte) (m : mem) : mem :=
  let ethType := [Z.land (Z.shiftr (length - 14) 8) 0xFF; Z.land (length - 14) 0xFF] in
  let m := tte_prepare_header tx_addr vl ethType t m in
  put_bytes m (tx_addr + 14) (map (at_ data) (seqZ 14 (length - 14))).

Definition tte_prepare_pcf (addr : Z) (vl : list Z) (type : Z) (t : tte) (m : mem) : mem :=
  let m := tte_prepare_header addr vl [0x89; 0x1D] t m in
  let m := put_bytes m (addr + 14) [0; 0; 0; 0] in
  let m := put_bytes m (addr + 18) [0; 0; 0] in
  let m := mem_iowr_byte m (addr + 21) 0x02 in
  let m := mem_iowr_byte m (addr + 26) 0x01 in
  let m := mem_iowr_byte m (addr + 27) 0x01 in
  let m := mem_iowr_byte m (addr + 28) type in
  put_bytes m (addr + 34) [0; 0; 0; 0; 0; 0; 0; 0].

(** ** Clock synchronisation *)

Definition transClk_to_clk (transClk : Z) : Z :=
  Z.shiftr (u64 (Z.shiftr (u64 (transClk * 10)) 16 * 536871)) 26.

(** A big-endian number of [k] bytes, built from the left in [w] bits. *)
Fixpoint be_number (w : Z) (m : mem) (addr : Z) (k : nat) (acc : Z) : Z :=
  match k with
  | O => acc
  | S k' => be_number w m (addr + 1) k' (Z.lor (Z.shiftl acc 8 mod 2 ^ w) (mem_iord_byte m addr))
  end.
Definition frame_trans_clock (m : mem) (addr : Z) : Z :=
  transClk_to_clk (be_number 64 m (addr + 35) 7 (mem_iord_byte m (addr + 34))).
Definition frame_cycle (m : mem) (addr : Z) : Z := be_number 32 m (addr + 15) 3 (mem_iord_byte m (addr + 14)).

(** The point in time at which the frame becomes permanent, the current time
    (guessed from the frame when it is 0) and the scheduled receive time. *)
Definition integration_times (m : mem) (addr receive_pit : Z) (t : tte) : Z * Z * Z :=
  let permanence_pit := u64 (receive_pit + u64 (TTE_MAX_TRANS_DELAY t - frame_trans_clock m addr)) in
  let now := if tte_current_time t =? 0
             then u64 (permanence_pit - u32 (u32 (2 * TTE_MAX_TRANS_DELAY t) + TTE_COMP_DELAY t))
             else tte_current_time t in
  let sched_rec_pit := u64 (u64 (now + u32 (2 * TTE_MAX_TRANS_DELAY t)) + TTE_COMP_DELAY t) in
  (permanence_pit, now, sched_rec_pit).
Definition in_window (permanence_pit sched_rec_pit : Z) (t : tte) : bool :=
  (u64 (sched_rec_pit - TTE_PRECISION t) <? permanence_pit) && (permanence_pit <? u64 (sched_rec_pit + TTE_PRECISION t)).

Definition first_tick (now : Z) (t : tte) : Z := u64 (now + u32 (CYCLES_PER_UNIT * startTick t)).

Definition handle_integration_frame (m : mem) (addr receive_pit : Z) (t : tte) : Z * tte :=
  let cycle := frame_cycle m addr in
  let '(permanence_pit, now, sched_rec_pit) := integration_times m addr receive_pit t in
  let err := s64 (permanence_pit - sched_rec_pit) in
  if in_window permanence_pit sched_rec_pit t then
    let now := u64 (now + err) in
    let '(timer, place, arm) :=
      if cycle =? 0 then (first_tick now t, 0, Some (first_tick now t)) else (timer_time t, schedplace t, armed t) in
    (1, set_time cycle (u64 (now + integration_period t)) timer (clock_err t) (clock_err_integral t) place arm t)
  else (0, set_time cycle 0 (timer_time t) (clock_err t) (clock_err_integral t) (schedplace t) (armed t) t).

(** The variant that steers the clock with a PI controller and logs the error. *)
Definition integration_frame_log (m : mem) (addr receive_pit : Z) (t : tte) : Z * Z * tte :=
  let cycle := frame_cycle m addr in
  let '(permanence_pit, now, sched_rec_pit) := integration_times m addr receive_pit t in
  let err := s64 (permanence_pit - sched_rec_pit) in
  if in_window permanence_pit sched_rec_pit t then
    let integral := s64 (clock_err_integral t + err) in
    let now := u64 (u64 (now + Z.shiftr (s64 (300 * err)) 10) + Z.shiftr (s64 (700 * integral)) 10) in
    let '(timer, place, arm) :=
      if cycle =? 0 then (first_tick now t, 0, Some (first_tick now t)) else (timer_time t, schedplace t, armed t) in
    (1, err, set_time cycle (u64 (now + integration_period t)) timer err integral place arm t)
  else (0, err, set_time cycle now (timer_time t) err (clock_err_integral t) (schedplace t) (armed t) t).

Definition tte_receive (m : mem) (addr rec_start : Z) (t : tte) : Z * tte :=
  if negb (is_pcf m addr =? 0) then
    if mem_iord_byte m (addr + 28) =? 0x2 then
      let '(r, t) := handle_integration_frame m addr rec_start t in
      if negb (r =? 0) then (1, t) else (0, t)
    else (3, t)
  else if negb (is_tte m addr t =? 0) then (2, t)
  else (3, t).

(** ** Virtual links and their schedule *)

Section Malloc.
(** Contents of memory from malloc. *)
Context (junk : Z -> Z) (junk_VL : VL).
Definition malloc_words (n : Z) : list Z := map junk (seqZ 0 n).

(** (unsigned char) cluster_period / period: the cast is applied to the
    cluster period. *)
Definition queue_slots (cluster_period period : Z) : Z := u8 (u8 cluster_period / period).

Definition tte_init_VL (i start per : Z) (t : tte) : option tte :=
  match rd (VLarray t) i with
  | None => None
  | Some _ =>
      let n := queue_slots (cluster_period t) per in
      let v := mk_VL n start per (replicate (Z.to_nat n) 0) (replicate (Z.to_nat n) 0) 0 0 in
      match wr (VLarray t) i v with Some vls => Some (set_VLs vls (VLsize t) t) | None => None end
  end.

(** The search for the next transmission: time and link. *)
Fixpoint scan_min (cur : list Z) (i : Z) (acc : Z * Z) : Z * Z :=
  match cur with
  | [] => acc
  | x :: cur' => scan_min cur' (i + 1) (if x <? fst acc then (x, i) else acc)
  end.

(** VLcurrent[VL] = VLcurrent[VL] + VLarray[VL].period *)
Definition advance (vls : list VL) (vl : Z) (cur : list Z) : option (list Z) :=
  match rd cur vl, rd vls vl with
  | Some x, Some v => wr cur vl (u32 (x + period v))
  | _, _ => None
  end.

Fixpoint sched_loop (fuel : nat) (vls : list VL) (cluster n index current vl : Z) (cur sc vs : list Z)
    : option (list Z * list Z) :=
  match fuel with
  | O => None
  | S fuel' =>
      let '(min, vl) := scan_min cur 0 (u32 (cluster * 2), vl) in
      match wr sc index (u32 (min - current)),
            (if index <? n - 1 then wr vs (index + 1) vl else Some vs), advance vls vl cur with
      | Some sc, Some vs, Some cur =>
          if cluster <=? min then Some (sc, vs)
          else sched_loop fuel' vls cluster n (index + 1) min vl cur sc vs
      | _, _, _ => None
      end
  end.

(** The first [VLsize] links are looked at; [vl0] is the uninitialised local
    variable VL. *)
Definition tte_generate_schedule (fuel : nat) (vl0 : Z) (t : tte) : option tte :=
  let vls := take (Z.to_nat (VLsize t)) (VLarray t) in
  if Z.of_nat (length (VLarray t)) <? VLsize t then None
  else
    let cur := map startTime vls in
    let '(min, vl) := scan_min cur 0 (cluster_period t, vl0) in
    let n := fold_left (fun a v => u8 (a + max_queue v)) vls 0 in
    match advance vls vl cur, wr (malloc_words n) 0 vl with
    | Some cur, Some vs =>
        match sched_loop fuel vls (cluster_period t) n 0 min vl cur (malloc_words n) vs with
        | Some (sc, vs) => Some (set_sched n sc vs min t)
        | None => None
        end
    | _, _ => None
    end.

(** Which handler serves which line.  intr_clear_all_pending drops interrupts
    that were raised before. *)
Definition register_handlers (timer : exc_handler) (enable_int : Z) (e : exc_state) : exc_state :=
  let e := if negb (enable_int =? 0)
           then intr_unmask 17 (intr_unmask 16 (exc_register 17 timer (exc_register 16 Given e)))
           else intr_unmask 16 (exc_register 16 timer e) in
  intr_enable e.

Definition tte_start_ticking (fuel : nat) (vl0 log_sending enable_int : Z) (t : tte) : option tte :=
  match tte_generate_schedule fuel vl0 t with
  | None => None
  | Some t =>
      let timer := if negb (log_sending =? 0) then ClockTickLog else ClockTick in
      let t := set_log (send_times t) (send_time_i t) (tte_receive_log_max_time t)
                 (handle_integration_frame_log_max_time t) (tte_clear_free_rx_buffer_max_time t)
                 (register_handlers timer enable_int (handlers t)) t in
      Some (set_time (integration_cycle t) 0 (timer_time t) (clock_err t) (clock_err_integral t) (schedplace t)
              (armed t) t)
  end.

(** free: the arrays of the links may not be used any more. *)
Definition tte_stop_ticking (t : tte) : tte := set_VLs [] (VLsize t) t.
End Malloc.

(** ** Queues *)

Definition set_queue (q s : list Z) (a r : Z) (v : VL) : VL :=
  mk_VL (max_queue v) (startTime v) (period v) q s a r.
(** A place in a ring of [n], after one. *)
Definition next_place (p n : Z) : Z := let p := u8 (p + 1) in if p =? n then 0 else p.

Definition push (addr size : Z) (v : VL) : option (Z * VL) :=
  match rd (queue v) (addplace v) with
  | None => None
  | Some x =>
      if x =? 0 then
        match wr (queue v) (addplace v) addr, wr (sizeQueue v) (addplace v) size with
        | Some q, Some s => Some (1, set_queue q s (next_place (addplace v) (max_queue v)) (rmplace v) v)
        | _, _ => None
        end
      else Some (0, v)
  end.

Definition tte_schedule_send (addr size i : Z) (t : tte) : option (Z * tte) :=
  match rd (VLarray t) i with
  | None => None
  | Some v =>
      match push addr size v with
      | None => None
      | Some (r, v) => match wr (VLarray t) i v with Some vls => Some (r, set_VLs vls (VLsize t) t) | None => None end
      end
  end.

(** The frame that tte_send_data takes from the queue, and its size. *)
Definition pop (v : VL) : option (Z * Z * VL) :=
  match rd (queue v) (rmplace v), wr (queue v) (rmplace v) 0, rd (sizeQueue v) (rmplace v) with
  | Some addr, Some q, Some size =>
      Some (addr, size, set_queue q (sizeQueue v) (addplace v) (next_place (rmplace v) (max_queue v)) v)
  | _, _, _ => None
  end.

Section Controller.
Context `{EthDev}.
Local Open Scope eth_scope.

Definition tte_send_data (fuel : nat) (i : Z) (t : tte) : M (option tte) :=
  match rd (VLarray t) i with
  | None => ret None
  | Some v =>
      match pop v with
      | None => ret None
      | Some (addr, size, v) =>
          eth_mac_send fuel addr size ;;
          ret (match wr (VLarray t) i v with Some vls => Some (set_VLs vls (VLsize t) t) | None => None end)
      end
  end.

(** The part of both handlers before the transmission: the link that is served
    and the next interrupt. *)
Definition tick_timer (t : tte) : option (Z * tte) :=
  match rd (sched t) (schedplace t), rd (VLsched t) (schedplace t) with
  | Some d, Some i =>
      let timer := u64 (timer_time t + u32 (CYCLES_PER_UNIT * d)) in
      let place := u8 (schedplace t + 1) in
      let upd timer arm :=
        set_time (integration_cycle t) (tte_current_time t) timer (clock_err t) (clock_err_integral t) place arm t in
      if place <? max_sched t then
        match rd (VLsched t) place with
        | None => None
        | Some l =>
            let timer := if l =? VLsize t - 1 then tte_current_time t else timer in
            Some (i, upd timer (Some timer))
        end
      else Some (i, upd timer (armed t))
  | _, _ => None
  end.
(** VLarray[i].queue[VLarray[i].rmplace] *)
Definition queue_head (i : Z) (t : tte) : option Z :=
  match rd (VLarray t) i with Some v => rd (queue v) (rmplace v) | None => None end.

Definition tte_clock_tick (fuel : nat) (t : tte) : M (option tte) :=
  match tick_timer t with
  | None => ret None
  | Some (i, t) =>
      match queue_head i t with
      | None => ret None
      | Some x => if 0 <? x then tte_send_data fuel i t else ret (Some t)
      end
  end.

Section Timed.
(** get_cpu_cycles of machine/rtc.h and the low word of the timer. *)
Context (get_cpu_cycles timer_loclk : M Z).

Definition tte_clock_tick_log (fuel : nat) (t : tte) : M (option tte) :=
  match tick_timer t with
  | None => ret None
  | Some (i, t) =>
      match queue_head i t with
      | None => ret None
      | Some x =>
          if 0 <? x then
            now <- get_cpu_cycles ;;
            match wr (send_times t) (send_time_i t) now with
            | None => ret None
            | Some times =>
                tte_send_data fuel i
                  (set_log times (s32 (send_time_i t + 1)) (tte_receive_log_max_time t)
                     (handle_integration_frame_log_max_time t) (tte_clear_free_rx_buffer_max_time t) (handlers t) t)
            end
          else ret (Some t)
      end
  end.

(** The statement [continue] leads to the test of the loop: what follows it in
    the body, the time stamp and the timeout, is never reached. *)
Fixpoint wait_frame (fuel : nat) : M unit :=
  v <- eth_iord 0x04 ;;
  if Z.land v 0x4 =? 0 then match fuel with O => spin | S f => wait_frame f end else ret tt.
Definition tte_wait_for_message (fuel : nat) (receive_point timeout : Z) : M (Z * Z) :=
  if timeout =? 0 then wait_frame fuel ;; ret (1, receive_point)
  else start_time <- get_cpu_cycles ;; wait_frame fuel ;; ret (1, receive_point).

(** The longest time measured so far. *)
Definition measured (start stop longest : Z) : Z := let d := u32 (stop - start) in if longest <? d then d else longest.

Definition tte_clear_free_rx_buffer (addr : Z) (t : tte) : M tte :=
  start <- timer_loclk ;;
  eth_iowr 0x04 0x00000004 ;;
  cur_data <- eth_iord addr ;;
  eth_iowr addr (Z.lor cur_data (Z.shiftl 1 15)) ;;
  stop <- timer_loclk ;;
  ret (set_log (send_times t) (send_time_i t) (tte_receive_log_max_time t) (handle_integration_frame_log_max_time t)
         (measured start stop (tte_clear_free_rx_buffer_max_time t)) (handlers t) t).

(** With the error for the caller's log. *)
Definition handle_integration_frame_log (addr receive_pit : Z) (t : tte) : M (Z * Z * tte) :=
  start <- timer_loclk ;;
  m <- gets w_mem ;;
  stop <- timer_loclk ;;
  let '(r, err, t) := integration_frame_log m addr receive_pit t in
  ret (r, err, set_log (send_times t) (send_time_i t) (tte_receive_log_max_time t)
         (measured start stop (handle_integration_frame_log_max_time t)) (tte_clear_free_rx_buffer_max_time t) (handlers t) t).

(** [None]: no entry of the caller's log is written. *)
Definition tte_receive_log (addr rec_start : Z) (t : tte) : M (Z * option Z * tte) :=
  start <- timer_loclk ;;
  m <- gets w_mem ;;
  r <- (if negb (is_pcf m addr =? 0) then
          if mem_iord_byte m (addr + 28) =? 0x2 then
            r <- handle_integration_frame_log addr rec_start t ;;
            let '(a, err, t) := r in ret (if negb (a =? 0) then 1 else 0, Some err, t)
          else ret (3, None, t)
        else if negb (is_tte m addr t =? 0) then ret (2, None, t)
        else ret (3, None, t)) ;;
  stop <- timer_loclk ;;
  let '(ans, err, t) := r in
  ret (ans, err, set_log (send_times t) (send_time_i t) (measured start stop (tte_receive_log_max_time t))
         (handle_integration_frame_log_max_time t) (tte_clear_free_rx_buffer_max_time t) (handlers t) t).
End Timed.

(** [junk_VL] are the links before they are initialised. *)
Definition tte_initialize (junk_VL : VL) (int_period cl_period : Z) (CT : list Z) (VLcount max_delay comp_delay precision : Z)
    (t : tte) : M (option tte) :=
  macAdd <- get_mac_address ;;
  let mc := map (fun k => Z.land (Z.shiftr macAdd (8 * k)) 0xFF) [5; 4; 3; 2; 1; 0] in
  let t := set_config max_delay comp_delay precision (u32 (int_period * CYCLES_PER_UNIT)) cl_period
             (map (at_ CT) [0; 1; 2; 3]) mc t in
  eth_iowr 0x00 0x0000A423 ;;
  eth_iowr 0x08 0x00000004 ;;
  let t := set_VLs (replicate (Z.to_nat (VLcount + 1)) junk_VL) (u8 (VLcount + 1)) t in
  ret (tte_init_VL VLcount int_period int_period t).
End Controller.
