(* ===== verification/TteSched.v ===== *)
(** TteSched: the schedule of the virtual links, tte_generate_schedule of
    c/ethlib/tte.c.

    A link transmits at its start time and then once in every period.  The
    theorems: when the periods divide the cluster period, the table that is
    generated lists exactly the transmissions of one cluster cycle, in the order
    of time; the cluster period must be below 256 for that. *)

From stdpp Require Import base numbers gmap sorting list.
From S2P Require Import Prelude EthIO World EthMac Tte.

(** ** Arrays *)

Lemma rd_Some {A} (l : list A) i x : rd l i = Some x <-> 0 <= i /\ l !! Z.to_nat i = Some x.
Proof. unfold rd. destruct (Z.leb_spec 0 i); split; try done; try tauto. intros [? ?]. lia. Qed.
Lemma rd_lt {A} (l : list A) i x : rd l i = Some x -> 0 <= i < Z.of_nat (length l).
Proof. intros [Hi Hx]%rd_Some. apply lookup_lt_Some in Hx. lia. Qed.
Lemma wr_ok {A} (l : list A) i v : 0 <= i < Z.of_nat (length l) -> wr l i v = Some (<[Z.to_nat i := v]> l).
Proof. intros Hi. unfold wr. by rewrite (proj2 (andb_true_iff _ _)) by lia. Qed.

(** ** The search *)

Lemma scan_min_spec cur : forall i acc,
  let r := scan_min cur i acc in
  (r = acc /\ (forall x, x ∈ cur -> fst acc <= x)) \/
  (exists j : nat, cur !! j = Some (fst r) /\ snd r = i + Z.of_nat j /\ fst r < fst acc /\ forall x, x ∈ cur -> fst r <= x).
Proof.
  induction cur as [|x cur IH]; intros i acc; cbn [scan_min]; [left; split; [done|set_solver]|].
  destruct (IH (i + 1) (if x <? fst acc then (x, i) else acc)) as [[-> Hall]|(j & Hj & Hs & Hlt & Hall)].
  - destruct (Z.ltb_spec x (fst acc)) as [Hx|Hx]; [right; exists 0%nat|left].
    + cbn in *. split_and!; [done|lia|done|]. intros y [->|Hy]%elem_of_cons; [lia|by apply Hall].
    + split; [done|]. intros y [->|Hy]%elem_of_cons; [done|by apply Hall].
  - right. exists (S j). split; [done|]. split; [lia|].
    destruct (Z.ltb_spec x (fst acc)) as [Hx|Hx]; cbn in Hlt.
    + split; [lia|]. intros y [->|Hy]%elem_of_cons; [lia|by apply Hall].
    + split; [done|]. intros y [->|Hy]%elem_of_cons; [lia|by apply Hall].
Qed.

(** ** Transmissions *)

(** All slots of the links. *)
Definition slots (vls : list VL) : Z := foldr (fun v a => max_queue v + a) 0 vls.

Section Cluster.
Context (vls : list VL) (C : Z).

(** Link [i] has a transmission at [x], number [k] of the link. *)
Definition sends (i x k : Z) : Prop :=
  exists v, rd vls i = Some v /\ 0 <= k /\ x = startTime v + k * period v.
(** The transmissions of one cluster cycle: time and link. *)
Definition transmission (e : Z * Z) : Prop := fst e < C /\ exists k, sends (snd e) (fst e) k.

Definition link_ok (v : VL) : Prop :=
  0 <= startTime v <= period v /\ 0 < period v /\ (period v | C) /\ max_queue v = C / period v.
Record links_ok : Prop := {
  lo_C : 0 < C < 256;
  lo_vls : Forall link_ok vls;
  lo_count : slots vls < 256;
  lo_some : exists v, v ∈ vls /\ startTime v < C;
}.
End Cluster.

(** The transmissions before [C] number at most the slots. *)
Fixpoint all_from (i : Z) (vls : list VL) : list (Z * Z) :=
  match vls with
  | [] => []
  | v :: vls' => map (fun k => (startTime v + k * period v, i)) (seqZ 0 (max_queue v)) ++ all_from (i + 1) vls'
  end.

Lemma link_slots C v : link_ok C v -> 0 < C -> 0 <= max_queue v /\ period v <= C /\ max_queue v * period v = C.
Proof.
  intros (_ & Hp & [q ->] & ->) HC. rewrite Z.div_mul by lia. assert (0 < q) by nia. split; [lia|]. split; [nia|done].
Qed.

Lemma length_all C vls : forall i, Forall (link_ok C) vls -> 0 < C -> Z.of_nat (length (all_from i vls)) = slots vls.
Proof.
  induction vls as [|v vls IH]; intros i HF HC; [done|]. apply Forall_cons in HF as [Hv HF].
  destruct (link_slots C v Hv HC) as (H0 & _). cbn [all_from slots foldr]. rewrite length_app, length_map, length_seqZ.
  fold (slots vls). rewrite <- (IH (i + 1)) by done. lia.
Qed.

Lemma all_complete C vls : forall i x j, Forall (link_ok C) vls -> 0 < C ->
  transmission vls C (x, j) -> (x, i + j) ∈ all_from i vls.
Proof.
  induction vls as [|v vls IH]; intros i x j HF HC [Hx (k & w & Hw & Hk & E)]; cbn in Hx, Hw, E.
  - by apply rd_Some in Hw as [_ Hw].
  - apply Forall_cons in HF as [Hv HF]. cbn [all_from]. apply elem_of_app. apply rd_Some in Hw as [Hj Hw].
    destruct (decide (j = 0)) as [->|Hne].
    + left. injection Hw as <-. destruct (link_slots C v Hv HC) as (H0 & _ & Hq). apply list_elem_of_fmap.
      exists k. split; [by rewrite Z.add_0_r, E|]. apply elem_of_seqZ. destruct Hv as (Hs & Hp & _). nia.
    + right. replace (i + j) with (i + 1 + (j - 1)) by lia. apply IH; [done|done|]. split; [done|]. exists k, w.
      split; [|done]. apply rd_Some. split; [cbn; lia|]. cbn. replace (Z.to_nat j) with (S (Z.to_nat (j - 1))) in Hw by lia.
      done.
Qed.

(** Distinct transmissions fit in the table. *)
Lemma events_fit vls C evs : links_ok vls C -> NoDup evs -> Forall (transmission vls C) evs ->
  Z.of_nat (length evs) <= slots vls.
Proof.
  intros [HC HF _ _] Hnd Hev. rewrite <- (length_all C vls 0) by (done || lia). apply Nat2Z.inj_le.
  apply submseteq_length, NoDup_submseteq; [done|]. intros [x j] Hin. rewrite Forall_forall in Hev.
  replace j with (0 + j) by lia. by apply (all_complete C); [done|lia|apply Hev].
Qed.

(** ** The loop *)

Section Loop.
Context (vls : list VL) (C : Z) (Hok : links_ok vls C).
Let n := slots vls.

(** The entries of the tables for the transmissions [evs]. *)
Definition tables (evs : list (Z * Z)) (sc vs : list Z) : Prop :=
  (forall j e, evs !! j = Some e -> vs !! j = Some (snd e)) /\
  (forall j e e', evs !! j = Some e -> evs !! S j = Some e' -> sc !! j = Some (fst e' - fst e)).

(** [cur] are the next transmissions of the links, [evs] those before. *)
Record pending (evs : list (Z * Z)) (current : Z) (cur : list Z) : Prop := {
  pd_len : length cur = length vls;
  pd_next : forall i x, cur !! i = Some x -> current <= x < 2 * C /\ exists k, sends vls (Z.of_nat i) x k;
  pd_evs : forall e, e ∈ evs <-> exists k x, sends vls (snd e) (fst e) k /\ rd cur (snd e) = Some x /\ fst e < x;
  pd_nodup : NoDup evs;
  pd_sorted : StronglySorted (fun e e' => fst e <= fst e') evs;
  pd_current : forall e, e ∈ evs -> fst e <= current;
  pd_before : Forall (transmission vls C) evs;
}.

Lemma cur_elem (cur : list Z) i x : rd cur i = Some x -> x ∈ cur.
Proof. intros [_ Hx]%rd_Some. by eapply list_elem_of_lookup_2. Qed.

Lemma pending_min evs current cur vl : pending evs current cur ->
  let '(min, vl') := scan_min cur 0 (u32 (C * 2), vl) in
  rd cur vl' = Some min /\ current <= min < 2 * C /\ (exists k, sends vls vl' min k) /\ forall x, x ∈ cur -> min <= x.
Proof.
  intros [Hl Hn _ _ _ _ _]. destruct Hok as [HC _ _ (v & Hv & _)]. rewrite u32_small by lia.
  pose proof (scan_min_spec cur 0 (C * 2, vl)) as Hs. destruct (scan_min cur 0 (C * 2, vl)) as [min vl'].
  destruct Hs as [[[= -> ->] Hall]|(j & Hj & Hvl & Hlt & Hall)].
  - apply list_elem_of_lookup_1 in Hv as [i Hi].
    destruct (lookup_lt_is_Some_2 cur i) as [x Hx]; [rewrite Hl; by apply lookup_lt_Some in Hi|].
    destruct (Hn i x Hx) as [Hx2 _]. apply list_elem_of_lookup_2 in Hx. apply Hall in Hx. cbn in Hx. lia.
  - cbn in *. rewrite Z.add_0_l in Hvl. subst vl'. split; [|split; [|split]].
    + apply rd_Some. split; [lia|]. by rewrite Nat2Z.id.
    + by apply (Hn j).
    + destruct (Hn j min Hj) as [_ Hk]. done.
    + done.
Qed.

(** A link that transmits at [min] transmits next one period later. *)
Lemma advance_run cur vl min k : length cur = length vls -> rd cur vl = Some min -> min < 2 * C -> sends vls vl min k ->
  exists v, rd vls vl = Some v /\ link_ok C v /\ advance vls vl cur = Some (<[Z.to_nat vl := min + period v]> cur).
Proof.
  intros Hl Hm Hlt (v & Hv & Hk & E). exists v. split; [done|]. destruct Hok as [HC HF _ _].
  assert (link_ok C v) as Hlink.
  { rewrite Forall_forall in HF. apply HF. apply rd_Some in Hv as [_ Hv]. by eapply list_elem_of_lookup_2. }
  split; [done|]. destruct (link_slots C v Hlink ltac:(lia)) as (_ & Hp & _). destruct Hlink as (Hs & Hpos & _).
  unfold advance. rewrite Hm, Hv, u32_small by nia. apply wr_ok. by apply rd_lt in Hm.
Qed.

(** The transmissions before the next one of each link, after link [vl]
    transmitted at [min]. *)
Lemma rd_insert (cur : list Z) vl y i x : rd cur vl = Some x -> rd (<[Z.to_nat vl := y]> cur) i =
  if decide (i = vl) then Some y else rd cur i.
Proof.
  intros Hx. pose proof (rd_lt _ _ _ Hx). unfold rd. destruct (Z.leb_spec 0 i); destruct (decide (i = vl)) as [->|]; try done.
  - by rewrite list_lookup_insert_eq by lia.
  - by rewrite list_lookup_insert_ne by lia.
  - lia.
Qed.

Lemma sends_before vl min k0 v x k : rd vls vl = Some v -> 0 < period v -> sends vls vl min k0 -> sends vls vl x k ->
  x < min + period v <-> x < min \/ x = min.
Proof.
  intros Hv Hp (v1 & E1 & _ & ->) (v2 & E2 & _ & ->). simplify_eq.
  destruct (Z.lt_trichotomy k k0) as [|[->|]]; split; try lia; nia.
Qed.

Lemma pending_step evs current cur vl min k : pending evs current cur -> rd cur vl = Some min -> sends vls vl min k ->
  (forall x, x ∈ cur -> min <= x) -> min < C ->
  exists cur', advance vls vl cur = Some cur' /\ pending (evs ++ [(min, vl)]) min cur'.
Proof.
  intros [Hl Hn He Hnd Hso Hcu Hbe] Hm Hse Hmin HminC. pose proof (lo_C _ _ Hok) as HC.
  destruct (advance_run cur vl min k Hl Hm ltac:(lia) Hse) as (v & Hv & Hlink & ->). eexists. split; [done|].
  destruct (link_slots C v Hlink ltac:(lia)) as (_ & HpC & _). pose proof Hlink as (_ & Hp & _).
  pose proof (rd_lt _ _ _ Hm) as Hvl. apply rd_Some in Hm as [H0 Hm].
  assert (current <= min) as Hcm by (destruct (Hn _ _ Hm) as [? _]; lia).
  assert (forall i, rd (<[Z.to_nat vl := min + period v]> cur) i = if decide (i = vl) then Some (min + period v) else rd cur i) as Hrd
    by (intros i; apply (rd_insert cur vl _ i min); by apply rd_Some).
  constructor.
  - by rewrite length_insert.
  - intros i x Hi. destruct (decide (i = Z.to_nat vl)) as [->|Hne].
    + rewrite list_lookup_insert_eq in Hi by lia. injection Hi as <-. split; [lia|]. exists (k + 1).
      destruct Hse as (v' & Hv' & Hk & ->). exists v'. rewrite Z2Nat.id by lia. simplify_eq. split; [done|]. split; [lia|lia].
    + rewrite list_lookup_insert_ne in Hi by done. destruct (Hn i x Hi) as [Hx Hk]. split; [|done].
      apply list_elem_of_lookup_2 in Hi. apply Hmin in Hi. lia.
  - intros [x i]. rewrite elem_of_app, He, list_elem_of_singleton. cbn [fst snd]. setoid_rewrite Hrd.
    destruct (decide (i = vl)) as [->|Hne].
    + split.
      * intros [(j & y & Hj & Hy & Hlt)|[= ->]]; [|exists k; eexists; split; [done|]; split; [done|]; lia].
        exists j. eexists. split; [done|]. split; [done|]. rewrite (proj2 (rd_Some _ _ _) (conj H0 Hm)) in Hy. simplify_eq. lia.
      * intros (j & y & Hj & [= <-] & Hlt). apply (sends_before vl min k v x j Hv Hp Hse Hj) in Hlt as [Hlt| ->]; [left|by right].
        exists j, min. split; [done|]. split; [by apply rd_Some|done].
    + split; [intros [Ho|[= _ ->]]; [done|done]|by left].
  - apply NoDup_app. split; [done|]. split; [|apply NoDup_singleton]. intros e He1 ->%list_elem_of_singleton.
    apply He in He1 as (j & y & _ & Hy & Hlt). cbn in *. rewrite (proj2 (rd_Some _ _ _) (conj H0 Hm)) in Hy. simplify_eq. lia.
  - apply StronglySorted_app_2; [|done|repeat constructor]. intros e1 e2 H1 ->%list_elem_of_singleton. apply Hcu in H1. cbn. lia.
  - intros e [Hin| ->%list_elem_of_singleton]%elem_of_app; [apply Hcu in Hin; lia|done].
  - apply Forall_app. split; [done|]. apply Forall_singleton. split; [done|]. by exists k.
Qed.

(** The finished tables: the transmissions [evs] of the cycle and, behind
    them, the first transmission of the next cycle. *)
Record finished (evs : list (Z * Z)) (sc vs : list Z) : Prop := {
  fin_evs : forall e, e ∈ evs <-> transmission vls C e;
  fin_nodup : NoDup evs;
  fin_sorted : StronglySorted (fun e e' => fst e <= fst e') evs;
  fin_tables : tables evs sc vs;
  fin_next : exists e next link k, last evs = Some e /\ C <= next /\ sends vls link next k /\
    (forall i x j, sends vls i x j -> C <= x -> next <= x) /\
    sc !! (length evs - 1)%nat = Some (next - fst e) /\
    ((length evs < length vs)%nat -> vs !! length evs = Some link);
}.

Lemma tables_step evs e sc vs min vl : tables evs sc vs -> last evs = Some e -> (length evs <= length sc)%nat ->
  (length evs < length vs)%nat ->
  tables (evs ++ [(min, vl)]) (<[(length evs - 1)%nat := min - fst e]> sc) (<[length evs := vl]> vs).
Proof.
  intros [Hv Hs] Hlast Hl1 Hl2. assert (length evs <> 0%nat) as Hne by (by destruct evs).
  rewrite last_lookup in Hlast. split.
  - intros j x [Hj|[Hj1 Hj2]]%lookup_app_Some.
    + rewrite list_lookup_insert_ne by (apply lookup_lt_Some in Hj; lia). by apply Hv.
    + apply list_lookup_singleton_Some in Hj2 as [Hj2 <-]. replace j with (length evs) by lia.
      by rewrite list_lookup_insert_eq.
  - intros j x x' Hj [Hj'|[Hj1 Hj2]]%lookup_app_Some.
    + pose proof (lookup_lt_Some _ _ _ Hj') as Hlt. rewrite lookup_app_l in Hj by lia.
      rewrite list_lookup_insert_ne by lia. by apply Hs.
    + apply list_lookup_singleton_Some in Hj2 as [Hj2 <-]. replace j with (length evs - 1)%nat in * by lia.
      rewrite lookup_app_l in Hj by lia. replace (Nat.pred (length evs)) with (length evs - 1)%nat in Hlast by lia.
      rewrite Hlast in Hj. injection Hj as ->. by rewrite list_lookup_insert_eq by lia.
Qed.

Lemma pending_finished evs e sc vs current cur next link k : pending evs current cur -> tables evs sc vs ->
  last evs = Some e -> (length evs <= length sc)%nat -> (length evs <= length vs)%nat ->
  rd cur link = Some next -> sends vls link next k -> (forall x, x ∈ cur -> next <= x) -> C <= next ->
  finished evs (<[(length evs - 1)%nat := next - fst e]> sc)
    (if decide (length evs < length vs)%nat then <[length evs := link]> vs else vs).
Proof.
  intros [Hl Hn He Hnd Hso _ Hbe] [Hv Hs] Hlast Hl1 Hl2 Hlink Hse Hmin HC.
  assert (length evs <> 0%nat) as Hne by (by destruct evs).
  assert (forall i x j, sends vls i x j -> (exists y, rd cur i = Some y /\ next <= y)) as Hcur.
  { intros i x j (v & Hi & _). pose proof (rd_lt _ _ _ Hi) as Hlt.
    destruct (lookup_lt_is_Some_2 cur (Z.to_nat i)) as [y Hy]; [lia|]. exists y.
    split; [apply rd_Some; split; [lia|done]|]. by apply Hmin, (list_elem_of_lookup_2 _ _ _ Hy). }
  constructor; [|done|done| |].
  - intros [x i]. split; [intros Hin; rewrite Forall_forall in Hbe; by apply Hbe|]. intros [Hx (j & Hj)]. cbn in *.
    destruct (Hcur i x j Hj) as (y & Hy & Hle). apply He. exists j, y. split; [done|]. split; [done|]. cbn. lia.
  - split.
    + intros j x Hj. pose proof (lookup_lt_Some _ _ _ Hj). case_decide; [rewrite list_lookup_insert_ne by lia|]; by apply Hv.
    + intros j x x' Hj Hj'. pose proof (lookup_lt_Some _ _ _ Hj'). rewrite list_lookup_insert_ne by lia. by apply Hs.
  - exists e, next, link, k. split; [done|]. split; [done|]. split; [done|]. split; [|split].
    + intros i x j Hj Hx. destruct (Hcur i x j Hj) as (y & Hy & Hle). destruct (decide (x < y)) as [Hlt|]; [|lia].
      assert ((x, i) ∈ evs) as Hin by (apply He; exists j, y; done). rewrite Forall_forall in Hbe.
      destruct (Hbe _ Hin) as [Hxc _]. cbn in Hxc. lia.
    + by rewrite list_lookup_insert_eq by lia.
    + intros Hlt. case_decide; [|lia].
      rewrite list_lookup_insert_eq; [done|]. done.
Qed.

Lemma sched_loop_run fuel : forall evs e current vl cur sc vs index, pending evs current cur ->
  last evs = Some e -> fst e = current -> Z.of_nat (length evs) = index + 1 -> tables evs sc vs ->
  Z.of_nat (length sc) = n -> Z.of_nat (length vs) = n -> n < index + 1 + Z.of_nat fuel ->
  exists sc' vs' evs', sched_loop fuel vls C n index current vl cur sc vs = Some (sc', vs') /\
    finished evs' sc' vs' /\ head evs' = head evs.
Proof.
  induction fuel as [|fuel IH]; intros evs e current vl cur sc vs index Hp Hlast He Hi Ht Hl1 Hl2 Hf.
  { pose proof (events_fit vls C evs Hok (pd_nodup _ _ _ Hp) (pd_before _ _ _ Hp)). unfold n in *. lia. }
  pose proof (events_fit vls C evs Hok (pd_nodup _ _ _ Hp) (pd_before _ _ _ Hp)) as Hfit. fold n in Hfit.
  assert (length evs <> 0%nat) as Hne by (by destruct evs).
  cbn [sched_loop]. pose proof (pending_min evs current cur vl Hp) as Hm.
  destruct (scan_min cur 0 (u32 (C * 2), vl)) as [min vl']. destruct Hm as (Hmin & Hcm & (k & Hse) & Hall).
  pose proof (lo_C _ _ Hok) as HC. rewrite u32_small by (destruct Hp as [_ _ _ _ _ _ Hb]; subst current;
    apply last_Some_elem_of in Hlast; rewrite Forall_forall in Hb; destruct (Hb e Hlast) as [_ (j & v & Hv & Hj & Ex)];
    pose proof (lo_vls _ _ Hok) as HF; rewrite Forall_forall in HF; apply rd_Some in Hv as [_ Hv];
    destruct (HF v ltac:(by eapply list_elem_of_lookup_2)) as (? & ? & _); nia).
  rewrite wr_ok by lia. replace (Z.to_nat index) with (length evs - 1)%nat by lia. rewrite <- He.
  destruct (Z.leb_spec C min) as [Hend|Hgo].
  - destruct (advance_run cur vl' min k (pd_len _ _ _ Hp) Hmin ltac:(lia) Hse) as (v & _ & _ & ->).
    pose proof (pending_finished evs e sc vs current cur min vl' k Hp Ht Hlast ltac:(lia) ltac:(lia) Hmin Hse Hall Hend) as HF.
    destruct (Z.ltb_spec index (n - 1)) as [Hlt|Hge].
    + rewrite wr_ok by lia. replace (Z.to_nat (index + 1)) with (length evs) by lia. eexists _, _, evs. split; [done|].
      rewrite decide_True in HF by lia. by split.
    + eexists _, _, evs. split; [done|]. rewrite decide_False in HF by lia. by split.
  - destruct (pending_step evs current cur vl' min k Hp Hmin Hse Hall Hgo) as (cur' & -> & Hp').
    pose proof (events_fit vls C _ Hok (pd_nodup _ _ _ Hp') (pd_before _ _ _ Hp')) as Hfit'. fold n in Hfit'.
    rewrite length_app in Hfit'. cbn in Hfit'. rewrite (proj2 (Z.ltb_lt index (n - 1))) by lia.
    rewrite wr_ok by lia. replace (Z.to_nat (index + 1)) with (length evs) by lia.
    destruct (IH (evs ++ [(min, vl')]) (min, vl') min vl' cur' (<[(length evs - 1)%nat := min - fst e]> sc)
      (<[length evs := vl']> vs) (index + 1)) as (sc' & vs' & evs' & E & HF & Hh); rewrite ?length_insert, ?length_app;
      cbn [length]; try done; try lia.
    + by rewrite last_snoc.
    + apply tables_step; [done|done|lia|lia].
    + exists sc', vs', evs'. split; [done|]. split; [done|]. rewrite Hh. by destruct evs.
Qed.
End Loop.

(** ** tte_generate_schedule *)

Lemma sum_slots C vls : Forall (link_ok C) vls -> 0 < C -> forall a, 0 <= a -> a + slots vls < 256 ->
  fold_left (fun a v => u8 (a + max_queue v)) vls a = a + slots vls.
Proof.
  intros HF HC. induction HF as [|v vls Hv HF IH]; intros a Ha Hlt; cbn in *; [lia|]. fold (slots vls) in *.
  destruct (link_slots C v Hv HC) as (H0 & _).
  assert (0 <= slots vls) by (rewrite <- (length_all C vls 0) by done; lia).
  rewrite u8_small, IH by lia. lia.
Qed.

(** At the start nothing was transmitted. *)
Lemma pending_start vls C min : links_ok vls C -> (forall x, x ∈ map startTime vls -> min <= x) ->
  pending vls C [] min (map startTime vls).
Proof.
  intros [HC HF _ _] Hmin. rewrite Forall_forall in HF. constructor; try done; try set_solver.
  - by rewrite length_map.
  - intros i x Hx. pose proof (Hmin x (list_elem_of_lookup_2 _ _ _ Hx)) as Hle.
    apply list_lookup_fmap_Some in Hx as (v & -> & Hv).
    destruct (HF v (list_elem_of_lookup_2 _ _ _ Hv)) as (Hs & Hp & Hd & Hq).
    destruct (link_slots C v (conj Hs (conj Hp (conj Hd Hq))) ltac:(lia)) as (_ & HpC & _). split; [lia|].
    exists 0, v. split; [apply rd_Some; rewrite Nat2Z.id; split; [lia|done]|]. lia.
  - intros [x i]. split; [by intros ?%elem_of_nil|]. intros (k & y & (v & Hv & Hk & ->) & Hy & Hlt). cbn in *. exfalso.
    apply rd_Some in Hv as [_ Hv]. apply rd_Some in Hy as [_ Hy]. rewrite list_lookup_fmap, Hv in Hy. injection Hy as <-.
    destruct (HF v (list_elem_of_lookup_2 _ _ _ Hv)) as (_ & Hp & _). nia.
  - constructor.
  - constructor.
Qed.

(** C23: the schedule of the virtual links.  When every link has a period that
    divides the cluster period and starts within its first period, the cluster
    period is below 256 and the links have fewer than 256 slots, then
    tte_generate_schedule returns without leaving its arrays.  The table VLsched
    lists exactly the transmissions of one cluster cycle, each once, in the order
    of time, with the first at startTick; sched holds the time from each to the
    next; behind the last comes the first transmission of the next cycle. *)
Theorem tte_schedule_correct junk vl0 fuel t :
  VLsize t = Z.of_nat (length (VLarray t)) -> links_ok (VLarray t) (cluster_period t) ->
  slots (VLarray t) < Z.of_nat fuel ->
  exists t' evs link, tte_generate_schedule junk fuel vl0 t = Some t' /\
    finished (VLarray t) (cluster_period t) evs (sched t') (VLsched t') /\
    max_sched t' = slots (VLarray t) /\ head evs = Some (startTick t', link).
Proof.
  intros Hsz Hok Hf. set (vls := VLarray t) in *. set (C := cluster_period t) in *.
  pose proof Hok as [HC HF Hcount (v0 & Hv0 & Hs0)]. unfold tte_generate_schedule. fold vls. fold C.
  rewrite Hsz, Z.ltb_irrefl, Nat2Z.id, take_ge by lia. rewrite (sum_slots C) by (done || lia). rewrite Z.add_0_l.
  pose proof (scan_min_spec (map startTime vls) 0 (C, vl0)) as Hs.
  destruct (scan_min (map startTime vls) 0 (C, vl0)) as [min vl].
  destruct Hs as [[_ Hall]|(j & Hj & Hvl & Hlt & Hall)].
  { assert (startTime v0 ∈ map startTime vls) as Hin by (apply list_elem_of_fmap; eauto). apply Hall in Hin. cbn in Hin. lia. }
  cbn in Hj, Hvl, Hlt, Hall. rewrite Z.add_0_l in Hvl. pose proof (pending_start vls C min Hok Hall) as Hp0.
  destruct (pd_next _ _ _ _ _ Hp0 j min Hj) as [_ (k & Hse)]. rewrite <- Hvl in Hse.
  assert (rd (map startTime vls) vl = Some min) as Hrd by (apply rd_Some; rewrite Hvl, Nat2Z.id; split; [lia|done]).
  destruct (pending_step vls C Hok [] min _ vl min k Hp0 Hrd Hse Hall Hlt) as (cur & -> & Hp).
  pose proof (events_fit vls C _ Hok (pd_nodup _ _ _ _ _ Hp) (pd_before _ _ _ _ _ Hp)) as Hfit. cbn in Hfit.
  assert (Z.of_nat (length (malloc_words junk (slots vls))) = slots vls) as Hlm
    by (unfold malloc_words; rewrite length_map, length_seqZ; lia).
  rewrite wr_ok by lia. change (Z.to_nat 0) with 0%nat.
  destruct (sched_loop_run vls C Hok fuel [(min, vl)] (min, vl) min vl cur (malloc_words junk (slots vls))
    (<[0%nat := vl]> (malloc_words junk (slots vls))) 0 Hp) as (sc & vs & evs & -> & HFin & Hh);
    rewrite ?length_insert; try done; try lia.
  - split; [|by intros [|j'] e e' _ ?].
    intros [|j'] e Hje; [|done]. injection Hje as <-. apply list_lookup_insert_eq. lia.
  - eexists _, evs, vl. split; [done|]. by split.
Qed.

(** ** An example: two links and the integration frames *)

Module TteDemo.
Definition blank_VL : VL := mk_VL 0 0 0 [] [] 0 0.
Definition tte0 (cl : Z) : tte :=
  mk_tte 0 0 0 0 0 cl 0 0 0 0 [] 0 [] (replicate 3 blank_VL) 3 [] [] 0 0 [] 0 0 0 0 None (mk_exc ∅ ∅ false).
(** Links 0 and 1 start at [s0] and [s1] with the periods [p0] and [p1]; link 2
    stands for the integration frames with period [ip]. *)
Definition setup (cl ip s0 p0 s1 p1 : Z) : tte :=
  default (tte0 cl)
    (match tte_init_VL 2 ip ip (tte0 cl) with
     | Some t => match tte_init_VL 0 s0 p0 t with Some t => tte_init_VL 1 s1 p1 t | None => None end
     | None => None
     end).
Definition demo : tte := setup 20 10 1 5 4 10.
Lemma demo_links_ok : links_ok (VLarray demo) 20.
Proof.
  constructor; [lia| |vm_compute; reflexivity|].
  - repeat constructor; cbn; try lia; first [by exists 4|by exists 2].
  - exists (mk_VL 4 1 5 [0; 0; 0; 0] [0; 0; 0; 0] 0 0). split; [left|cbn; lia].
Qed.
End TteDemo.
Import TteDemo.

Lemma tte_schedule_correct_witness : exists t' evs link,
  tte_generate_schedule (fun _ => 77) 10 99 demo = Some t' /\
  finished (VLarray demo) 20 evs (sched t') (VLsched t') /\ head evs = Some (startTick t', link) /\
  VLsched t' = [0; 1; 0; 2; 0; 1; 0; 2] /\ sched t' = [3; 2; 4; 1; 3; 2; 4; 77].
Proof.
  destruct (tte_schedule_correct (fun _ => 77) 99 10 demo) as (t' & evs & link & Hg & Hfin & _ & Hh);
    [reflexivity|exact demo_links_ok|vm_compute; reflexivity|].
  exists t', evs, link. split; [exact Hg|]. split; [exact Hfin|]. split; [exact Hh|].
  vm_compute in Hg. injection Hg as <-. split; reflexivity.
Defined.

(** The cluster period must fit in a byte.  The number of slots is computed
    from the low byte of the cluster period: for the cluster period 1000 with
    integration period 100 and links of periods 40 and 20 there are 18 slots for
    84 transmissions, and tte_generate_schedule leaves its arrays. *)
Theorem tte_cluster_period_cut junk vl0 fuel :
  let t := setup 1000 100 8 40 10 20 in
  slots (VLarray t) = 18 /\
  Forall (transmission (VLarray t) 1000)
    (map (fun k => (8 + 40 * k, 0)) (seqZ 0 25) ++ map (fun k => (10 + 20 * k, 1)) (seqZ 0 50) ++
     map (fun k => (100 + 100 * k, 2)) (seqZ 0 9)) /\
  tte_generate_schedule junk fuel vl0 t = None.
Proof.
  split; [reflexivity|]. split.
  - repeat (apply Forall_app; split); apply Forall_map, Forall_forall; intros k Hk%elem_of_seqZ; (split; [cbn; lia|]); exists k.
    + exists (mk_VL 5 8 40 (replicate 5 0) (replicate 5 0) 0 0). split; [reflexivity|]. cbn. lia.
    + exists (mk_VL 11 10 20 (replicate 11 0) (replicate 11 0) 0 0). split; [reflexivity|]. cbn. lia.
    + exists (mk_VL 2 100 100 (replicate 2 0) (replicate 2 0) 0 0). split; [reflexivity|]. cbn. lia.
  - do 20 (destruct fuel as [|fuel]; [vm_compute; reflexivity|]). vm_compute. reflexivity.
Qed.
