(* ===== verification/TteSync.v ===== *)
(** TteSync: frames, clock synchronisation and queues of c/ethlib/tte.c. *)

From stdpp Require Import base numbers gmap list.
From S2P Require Import Prelude EthIO World EthMac Tte TteSched.

(** ** Frames in the buffer *)

Lemma rd_put_bytes l : forall m a b, in_space a (Z.of_nat (length l)) -> 0 <= b < 2 ^ 32 ->
  mem_iord_byte (put_bytes m a l) b =
  if bool_decide (a <= b < a + Z.of_nat (length l)) then u8 (at_ l (b - a)) else mem_iord_byte m b.
Proof.
  induction l as [|x l IH]; intros m a b [Ha [Hn Hle]] Hb; cbn [put_bytes length].
  - by rewrite bool_decide_eq_false_2 by lia.
  - cbn [length] in Hle. rewrite IH by (unfold in_space in *; lia). rewrite rd_wr by lia.
    destruct (Z.eqb_spec a b) as [<-|Hne].
    + rewrite bool_decide_eq_false_2, bool_decide_eq_true_2 by lia. by rewrite Z.sub_diag.
    + repeat case_bool_decide; try lia. f_equal. unfold at_.
      by replace (Z.to_nat (b - a)) with (S (Z.to_nat (b - (a + 1)))) by lia.
Qed.

(** A byte of a frame that was just built. *)
Ltac frame_side := cbn [length map]; unfold in_space in *; lia.
Ltac frame_byte :=
  repeat first
    [ rewrite rd_wr by frame_side | rewrite rd_put_bytes by frame_side; cbn [length map]
    | match goal with
      | |- context [?x =? ?y] => first [rewrite (proj2 (Z.eqb_neq x y)) by lia|rewrite (proj2 (Z.eqb_eq x y)) by lia]
      | |- context [bool_decide ?P] =>
          first [rewrite (bool_decide_eq_true_2 P) by lia|rewrite (bool_decide_eq_false_2 P) by lia]
      end ];
  repeat match goal with |- context [at_ ?l (?x + ?k - ?y)] => ring_simplify (x + k - y) end.

Definition header_byte (vl ethType : list Z) (t : tte) (k : Z) : Z :=
  if k <? 4 then at_ (CT_marker t) k else if k <? 6 then at_ vl (k - 4)
  else if k <? 12 then at_ (mac t) (k - 6) else at_ ethType (k - 12).

Lemma header_bytes a vl ethType t m b : in_space a 14 -> 0 <= b < 2 ^ 32 ->
  mem_iord_byte (tte_prepare_header a vl ethType t m) b =
  if bool_decide (a <= b < a + 14) then u8 (header_byte vl ethType t (b - a)) else mem_iord_byte m b.
Proof.
  intros Ha Hb. unfold tte_prepare_header.
  case_bool_decide as E.
  - assert (exists k, b = a + k /\ 0 <= k < 14) as (k & -> & Hk) by (exists (b - a); lia).
    replace (a + k - a) with k by lia. unfold header_byte.
    assert (k = 0 \/ k = 1 \/ k = 2 \/ k = 3 \/ k = 4 \/ k = 5 \/ k = 6 \/ k = 7 \/ k = 8 \/ k = 9 \/ k = 10 \/ k = 11 \/ k = 12 \/ k = 13) as Hc by lia.
    repeat (destruct Hc as [->|Hc]); try subst k; frame_byte; reflexivity.
  - frame_byte. done.
Qed.

Lemma header_type a vl ethType t m m' : in_space a 14 -> (forall k, 12 <= k < 14 -> mem_iord_byte m' (a + k) =
    mem_iord_byte (tte_prepare_header a vl ethType t m) (a + k)) ->
  is_pcf m' a = if (u8 (at_ ethType 0) =? 0x89) && (u8 (at_ ethType 1) =? 0x1D) then 1 else 0.
Proof.
  intros Ha He. unfold is_pcf. rewrite !He by lia. rewrite !header_bytes by (unfold in_space in *; lia).
  rewrite !bool_decide_eq_true_2 by lia. by replace (a + 12 - a) with 12 by lia; replace (a + 13 - a) with 13 by lia.
Qed.

Lemma header_marker a vl ethType t t2 m m' : in_space a 14 -> byte_array 4 (CT_marker t) -> CT_marker t2 = CT_marker t ->
  (forall k, 0 <= k < 4 -> mem_iord_byte m' (a + k) = mem_iord_byte (tte_prepare_header a vl ethType t m) (a + k)) ->
  is_tte m' a t2 = 1.
Proof.
  intros Ha Hct E He.
  assert (forall k, 0 <= k < 4 -> mem_iord_byte m' (a + k) = at_ (CT_marker t) k) as Hb.
  { intros k Hk. rewrite He, header_bytes by (unfold in_space in *; lia). rewrite bool_decide_eq_true_2 by lia.
    replace (a + k - a) with k by lia. unfold header_byte. rewrite (proj2 (Z.ltb_lt k 4)) by lia. by apply at_u8 with 4%nat. }
  unfold is_tte. rewrite E, <- (Hb 1), <- (Hb 2), <- (Hb 3) by lia. rewrite <- (Hb 0) by lia. by rewrite Z.add_0_r, !Z.eqb_refl.
Qed.

Lemma be_number_zero w m k : forall a, (forall i, 0 <= i < Z.of_nat k -> mem_iord_byte m (a + i) = 0) -> be_number w m a k 0 = 0.
Proof.
  induction k as [|k IH]; intros a Hz; [done|]. cbn [be_number]. pose proof (Hz 0 ltac:(lia)) as H0.
  rewrite Z.add_0_r in H0. rewrite H0. apply IH. intros i Hi. replace (a + 1 + i) with (a + (i + 1)) by lia. apply Hz. lia.
Qed.

(** The bytes that tte_prepare_pcf writes behind the header. *)
Lemma pcf_bytes a vl type t m k : in_space a 42 -> 0 <= k < 42 ->
  mem_iord_byte (tte_prepare_pcf a vl type t m) (a + k) =
  if k <? 14 then mem_iord_byte (tte_prepare_header a vl [0x89; 0x1D] t m) (a + k)
  else if k <? 21 then 0 else if k =? 21 then 2 else if k <? 26 then mem_iord_byte m (a + k)
  else if k <? 28 then 1 else if k =? 28 then u8 type else if k <? 34 then mem_iord_byte m (a + k) else 0.
Proof.
  intros Ha Hk. unfold tte_prepare_pcf. set (m1 := tte_prepare_header a vl [0x89; 0x1D] t m).
  assert (14 <= k -> mem_iord_byte m1 (a + k) = mem_iord_byte m (a + k)) as Hh.
  { intros Hk14. subst m1. rewrite header_bytes by (unfold in_space in *; lia). by rewrite bool_decide_eq_false_2 by lia. }
  assert (k < 14 \/ 14 <= k < 18 \/ 18 <= k < 21 \/ k = 21 \/ 22 <= k < 26 \/ k = 26 \/ k = 27 \/ k = 28 \/ 29 <= k < 34 \/ 34 <= k < 42)
    as Hc by lia.
  assert (forall j, at_ [0; 0; 0; 0; 0; 0; 0; 0] j = 0 /\ at_ [0; 0; 0; 0] j = 0 /\ at_ [0; 0; 0] j = 0) as Hz.
  { intros j. unfold at_. destruct (Z.to_nat j) as [|[|[|[|[|[|[|[|[|]]]]]]]]]; done. }
  repeat (destruct Hc as [Hc|Hc]); try subst k; zdec;
    frame_byte; try done; try (by apply Hh; lia); by rewrite ?(proj1 (Hz _)), ?(proj1 (proj2 (Hz _))), ?(proj2 (proj2 (Hz _))).
Qed.

Lemma receive_pcf m addr pit t : is_pcf m addr = 1 -> mem_iord_byte m (addr + 28) = 2 ->
  tte_receive m addr pit t = handle_integration_frame m addr pit t.
Proof.
  intros Hp Ht. unfold tte_receive. rewrite Hp, Ht. cbn [negb Z.eqb Pos.eqb]. unfold handle_integration_frame.
  destruct (integration_times m addr pit t) as [[pp now] sp]. destruct (in_window pp sp t); [|done].
  by destruct (frame_cycle m addr =? 0).
Qed.

(** Frames are recognised by a node with the same critical traffic marker.
    A protocol control frame from tte_prepare_pcf of type 2 is handled by
    tte_receive as an integration frame of cycle 0 that was not delayed.  A data
    frame from tte_prepare_data of at most 1514 bytes carries the data behind the
    header and is received as traffic (result 2), never as a control frame. *)
Theorem tte_frames_roundtrip t t2 m addr vl data len pit :
  byte_array 4 (CT_marker t) -> CT_marker t2 = CT_marker t -> in_space addr (Z.max 42 len) -> 14 <= len <= 1514 ->
  (let m' := tte_prepare_pcf addr vl 2 t m in
   tte_receive m' addr pit t2 = handle_integration_frame m' addr pit t2 /\
   frame_cycle m' addr = 0 /\ frame_trans_clock m' addr = 0) /\
  (let m' := tte_prepare_data addr vl data len t m in
   tte_receive m' addr pit t2 = (2, t2) /\
   forall k, 14 <= k < len -> mem_iord_byte m' (addr + k) = u8 (at_ data k)).
Proof.
  intros Hct E Ha Hlen. assert (in_space addr 42 /\ in_space addr 14 /\ in_space addr len) as (Ha42 & Ha14 & Hal)
    by (unfold in_space in *; lia). split; intros m'.
  - assert (forall k, 0 <= k < 42 -> mem_iord_byte m' (addr + k) = _) as Hb by (intros k Hk; by apply pcf_bytes).
    split; [|split].
    + apply receive_pcf; [|by rewrite Hb by lia]. rewrite (header_type addr vl [0x89; 0x1D] t m); [done|done|].
      intros k Hk. rewrite Hb by lia. by zdec.
    + unfold frame_cycle. rewrite Hb by lia. cbn [Z.ltb Z.compare Pos.compare Pos.compare_cont Z.eqb Pos.eqb].
      apply be_number_zero. intros i Hi. rewrite <- Z.add_assoc, Hb by lia. by zdec.
    + unfold frame_trans_clock. rewrite Hb by lia. cbn [Z.ltb Z.compare Pos.compare Pos.compare_cont Z.eqb Pos.eqb].
      rewrite be_number_zero; [done|]. intros i Hi. rewrite <- Z.add_assoc, Hb by lia. by zdec.
  - assert (length (map (at_ data) (seqZ 14 (len - 14))) = Z.to_nat (len - 14)) as Hl by (by rewrite length_map, length_seqZ).
    assert (forall k, 0 <= k < len -> mem_iord_byte m' (addr + k) = if k <? 14 then
      mem_iord_byte (tte_prepare_header addr vl [Z.land (Z.shiftr (len - 14) 8) 0xFF; Z.land (len - 14) 0xFF] t m) (addr + k)
      else u8 (at_ data k)) as Hb.
    { intros k Hk. subst m'. unfold tte_prepare_data. rewrite rd_put_bytes by (rewrite ?Hl; unfold in_space in *; lia). rewrite Hl.
      destruct (Z.ltb_spec k 14); [by rewrite bool_decide_eq_false_2 by lia|]. rewrite bool_decide_eq_true_2 by lia. f_equal.
      unfold at_ at 1. rewrite nth_lookup, list_lookup_fmap, lookup_seqZ_lt by lia. cbn. f_equal. lia. }
    split; [|intros k Hk; rewrite Hb by lia; by zdec].
    assert (is_pcf m' addr = 0) as Hp.
    { rewrite (header_type addr vl [Z.land (Z.shiftr (len - 14) 8) 0xFF; Z.land (len - 14) 0xFF] t m); [|done|intros k Hk; rewrite Hb by lia; by zdec]. unfold at_. cbn [nth Z.to_nat Pos.to_nat].
      rewrite (proj2 (Z.eqb_neq _ 0x89)); [done|]. change (Z.to_nat 0) with 0%nat. cbn match. rewrite land_255, u8_u8, Z.shiftr_div_pow2 by lia.
      rewrite u8_small; Z.div_mod_to_equations; lia. }
    unfold tte_receive. rewrite Hp. cbn [negb Z.eqb].
    rewrite (header_marker addr vl [Z.land (Z.shiftr (len - 14) 8) 0xFF; Z.land (len - 14) 0xFF] t t2 m); [done|done|done|done|].
    intros k Hk. rewrite Hb by lia. by zdec.
Qed.

(** ** Clock synchronisation *)

(** Times and delays far from the limits of their types. *)
Record tte_ranges (t : tte) (pit clk : Z) : Prop := {
  tr_delays : 0 <= TTE_MAX_TRANS_DELAY t < 2 ^ 30 /\ 0 <= TTE_COMP_DELAY t < 2 ^ 30 /\ 0 < TTE_PRECISION t < 2 ^ 31;
  tr_pit : 0 <= clk /\ 0 <= pit < 2 ^ 62 /\ 2 * TTE_MAX_TRANS_DELAY t + TTE_COMP_DELAY t <= pit + TTE_MAX_TRANS_DELAY t - clk;
  tr_now : 0 <= tte_current_time t < 2 ^ 62;
  tr_window : TTE_PRECISION t <= 2 * TTE_MAX_TRANS_DELAY t + TTE_COMP_DELAY t;
  tr_period : 0 <= integration_period t < 2 ^ 32 /\ 0 <= CYCLES_PER_UNIT * startTick t < 2 ^ 32;
}.

(** C28: an integration frame.  With the frame's permanence point
    P = pit + MAX - clk, where pit is the time of reception and clk the delay in
    the frame, and the schedule's D = 2 MAX + COMP: a frame is accepted when the
    current time is 0 or P lies less than the precision from the current time
    plus D.  Then the current time becomes P - D plus the integration period,
    whatever it was before, and a frame of cycle 0 restarts the schedule at
    P - D plus the start tick.  A frame outside the window is rejected and the
    current time becomes 0; the timer is not touched. *)
Theorem tte_integration_correct m addr pit t : tte_ranges t pit (frame_trans_clock m addr) ->
  let cycle := frame_cycle m addr in
  let P := pit + TTE_MAX_TRANS_DELAY t - frame_trans_clock m addr in
  let D := 2 * TTE_MAX_TRANS_DELAY t + TTE_COMP_DELAY t in
  let tick := P - D + CYCLES_PER_UNIT * startTick t in
  handle_integration_frame m addr pit t =
  if (tte_current_time t =? 0) || (Z.abs (P - (tte_current_time t + D)) <? TTE_PRECISION t) then
    (1, set_time cycle (P - D + integration_period t) (if cycle =? 0 then tick else timer_time t)
          (clock_err t) (clock_err_integral t) (if cycle =? 0 then 0 else schedplace t)
          (if cycle =? 0 then Some tick else armed t) t)
  else (0, set_time cycle 0 (timer_time t) (clock_err t) (clock_err_integral t) (schedplace t) (armed t) t).
Proof.
  intros [Hd Hp Hn Hw Hi] cycle P D tick. unfold handle_integration_frame. fold cycle.
  set (now := if tte_current_time t =? 0 then P - D else tte_current_time t).
  assert (0 <= now < 2 ^ 62 + 2 ^ 31 /\ (tte_current_time t <> 0 -> now = tte_current_time t)) as [Hnow Hne]
    by (subst now P D; destruct (Z.eqb_spec (tte_current_time t) 0); lia).
  assert (integration_times m addr pit t = (P, now, now + D)) as ->.
  { unfold integration_times.
    assert (u64 (pit + u64 (TTE_MAX_TRANS_DELAY t - frame_trans_clock m addr)) = P) as ->.
    { unfold u64. rewrite Zplus_mod_idemp_r. replace (pit + _) with P by (subst P; lia). apply Z.mod_small. subst P. lia. }
    rewrite (u32_small (2 * TTE_MAX_TRANS_DELAY t)), u32_small by lia. fold D.
    rewrite (u64_small (P - D)) by (subst P D; lia). fold now. rewrite (u64_small (now + _)) by lia.
    rewrite u64_small by (subst D; lia). subst D. f_equal. lia. }
  assert (s64 (P - (now + D)) = P - (now + D)) as -> by (apply sext_small; subst P D; lia).
  assert (in_window P (now + D) t = (Z.abs (P - (now + D)) <? TTE_PRECISION t)) as ->.
  { unfold in_window. rewrite (u64_small (now + D + _)), u64_small by (subst P D; lia).
    apply eq_true_iff_eq. rewrite andb_true_iff, !Z.ltb_lt. lia. }
  assert ((tte_current_time t =? 0) || (Z.abs (P - (tte_current_time t + D)) <? TTE_PRECISION t) =
    (Z.abs (P - (now + D)) <? TTE_PRECISION t)) as ->.
  { subst now. destruct (Z.eqb_spec (tte_current_time t) 0); [|done]. cbn [orb]. symmetry. apply Z.ltb_lt. lia. }
  destruct (Z.abs (P - (now + D)) <? TTE_PRECISION t); [|done].
  replace (now + (P - (now + D))) with (P - D) by lia. rewrite (u64_small (P - D)) by (subst P D; lia).
  unfold first_tick. rewrite (u32_small (CYCLES_PER_UNIT * _)) by lia. rewrite (u64_small (P - D + CYCLES_PER_UNIT * _)), u64_small by (subst P D; lia).
  fold tick. by destruct (cycle =? 0).
Qed.

(** ** The clock of the frame *)

(** transClk_to_clk divides exactly.  The multiplication by 536871 and the
    shift by 26 replace a division by 125; they give its exact result as long as
    the scaled clock is below 6100805, that is for delays up to 0.61 ms. *)
Theorem transClk_exact x : 0 <= x -> x * 10 / 2 ^ 16 < 6100805 -> transClk_to_clk x = x * 10 / 2 ^ 16 / 125.
Proof.
  intros Hx Hlt. unfold transClk_to_clk. assert (x * 10 < 2 ^ 16 * 6100805) as Hb by (Z.div_mod_to_equations; lia).
  rewrite (u64_small (x * 10)) by lia. rewrite !Z.shiftr_div_pow2 by lia. set (y := x * 10 / 2 ^ 16) in *.
  assert (0 <= y) by (apply Z.div_pos; lia). rewrite u64_small by lia.
  pose proof (Z.div_mod y 125 ltac:(lia)). pose proof (Z.mod_pos_bound y 125 ltac:(lia)).
  symmetry. apply (Z.div_unique_pos _ _ _ (y * 536871 - 2 ^ 26 * (y / 125))); lia.
Qed.

(** ** Queues *)

Section Ring.
Context (n : Z) (Hn : 0 < n < 256).

Lemma next_place_mod p : 0 <= p < n -> next_place p n = (p + 1) mod n.
Proof.
  intros Hp. unfold next_place. rewrite u8_small by lia. destruct (Z.eqb_spec (p + 1) n) as [->|].
  - by rewrite Z.mod_same by lia.
  - by rewrite Z.mod_small by lia.
Qed.
Lemma ring_inj r i j : 0 <= i < n -> 0 <= j < n -> (r + i) mod n = (r + j) mod n -> i = j.
Proof.
  intros Hi Hj E. pose proof (Z.div_mod (r + i) n ltac:(lia)). pose proof (Z.div_mod (r + j) n ltac:(lia)).
  assert ((r + i) / n = (r + j) / n) by nia. nia.
Qed.
End Ring.

Lemma rd_wr_list {A} (l l' : list A) i v j : wr l i v = Some l' -> rd l' j = if decide (j = i) then Some v else rd l j.
Proof.
  unfold wr. destruct (_ && _) eqn:E; [|done]. intros [= <-]. unfold rd. rewrite andb_true_iff in E.
  destruct (Z.leb_spec 0 j); destruct (decide (j = i)) as [->|]; try done; [| |lia].
  - by rewrite list_lookup_insert_eq by lia.
  - by rewrite list_lookup_insert_ne by lia.
Qed.

(** The link [v] holds the frames [l], oldest first: address and size. *)
Record holds_frames (v : VL) (l : list (Z * Z)) : Prop := {
  hf_n : 0 < max_queue v < 256;
  hf_len : Z.of_nat (length (queue v)) = max_queue v /\ Z.of_nat (length (sizeQueue v)) = max_queue v;
  hf_cap : Z.of_nat (length l) <= max_queue v;
  hf_rm : 0 <= rmplace v < max_queue v;
  hf_add : addplace v = (rmplace v + Z.of_nat (length l)) mod max_queue v;
  hf_queue : forall j, 0 <= j < max_queue v -> rd (queue v) ((rmplace v + j) mod max_queue v) =
    Some (match l !! Z.to_nat j with Some f => fst f | None => 0 end);
  hf_sizes : forall j f, 0 <= j -> l !! Z.to_nat j = Some f ->
    rd (sizeQueue v) ((rmplace v + j) mod max_queue v) = Some (snd f);
  hf_addr : Forall (fun f => 0 < fst f) l;
}.

Lemma push_run v l addr size : holds_frames v l -> 0 < addr ->
  if decide (Z.of_nat (length l) < max_queue v) then
    exists v', push addr size v = Some (1, v') /\ holds_frames v' (l ++ [(addr, size)])
  else push addr size v = Some (0, v).
Proof.
  intros [Hn [Hl1 Hl2] Hcap Hrm Hadd Hq Hs Ha] Hpos. unfold push. set (n := max_queue v) in *.
  pose proof (Z.mod_pos_bound (rmplace v + Z.of_nat (length l)) n ltac:(lia)) as Hmod. case_decide as Hlt.
  - rewrite Hadd, (Hq (Z.of_nat (length l))) by lia. rewrite Nat2Z.id, lookup_ge_None_2 by lia. cbn [Z.eqb].
    rewrite !wr_ok by lia. eexists. split; [done|]. rewrite next_place_mod by lia.
    constructor; cbn; fold n; rewrite ?length_insert, ?length_app; cbn [length]; try done; try lia.
    + rewrite Zplus_mod_idemp_l. f_equal. lia.
    + intros j Hj. erewrite rd_wr_list by (apply wr_ok; lia). case_decide as E.
      * apply ring_inj in E; [|lia..]. subst j. rewrite Nat2Z.id, lookup_app_r, Nat.sub_diag by lia. done.
      * rewrite Hq by done. f_equal. destruct (decide (Z.to_nat j < length l)%nat); [by rewrite lookup_app_l|].
        rewrite (lookup_ge_None_2 l), lookup_ge_None_2; [done| |lia]. rewrite length_app; cbn.
        destruct (decide (Z.to_nat j = length l)); [|lia]. exfalso. apply E. f_equal. lia.
    + intros j f Hj Hf. erewrite rd_wr_list by (apply wr_ok; lia). apply lookup_app_Some in Hf as [Hf|[Hj1 Hf]].
      * pose proof (lookup_lt_Some _ _ _ Hf). rewrite decide_False; [by apply Hs|]. intros E. apply ring_inj in E; lia.
      * apply list_lookup_singleton_Some in Hf as [Hj2 <-]. replace j with (Z.of_nat (length l)) by lia. by rewrite decide_True.
    + apply Forall_app. split; [done|]. by apply Forall_singleton.
  - assert (Z.of_nat (length l) = n) as E by lia. rewrite Hadd, E.
    replace ((rmplace v + n) mod n) with ((rmplace v + 0) mod n) by (rewrite <- (Z.mod_add (rmplace v + 0) 1) by lia; f_equal; lia).
    rewrite Hq by lia. destruct l as [|f l]; [cbn in E; lia|]. apply Forall_cons in Ha as [Ha _].
    change ((f :: l) !! Z.to_nat 0) with (Some f). cbn match. by rewrite (proj2 (Z.eqb_neq (fst f) 0)) by lia.
Qed.

Lemma pop_run v f l : holds_frames v (f :: l) -> exists v', pop v = Some (fst f, snd f, v') /\ holds_frames v' l.
Proof.
  intros [Hn [Hl1 Hl2] Hcap Hrm Hadd Hq Hs Ha]. unfold pop. set (n := max_queue v) in *. cbn [length] in *.
  assert (rmplace v = (rmplace v + 0) mod n) as E0 by (rewrite Z.add_0_r, Z.mod_small; lia).
  pose proof (Hq 0 ltac:(lia)) as Hq0. pose proof (Hs 0 f ltac:(lia) eq_refl) as Hs0. rewrite <- E0 in Hq0, Hs0.
  rewrite Hq0, Hs0, wr_ok by lia. eexists. split; [done|]. rewrite next_place_mod by lia.
  assert (forall j, ((rmplace v + 1) mod n + j) mod n = (rmplace v + (j + 1)) mod n) as Hsh
    by (intros j; rewrite Zplus_mod_idemp_l; f_equal; lia).
  constructor; cbn; fold n; rewrite ?length_insert; try done; try lia.
  - apply Z.mod_pos_bound. lia.
  - rewrite Hsh, Hadd. f_equal. lia.
  - intros j Hj. erewrite rd_wr_list by (apply wr_ok; lia). rewrite Hsh.
    destruct (decide (j + 1 = n)) as [E|Hne].
    + rewrite E, decide_True by (replace (rmplace v + n) with (rmplace v + 1 * n) by lia; rewrite Z.mod_add, Z.mod_small by lia; done).
      by rewrite lookup_ge_None_2 by lia.
    + rewrite decide_False by (intros E; assert ((rmplace v + (j + 1)) mod n = (rmplace v + 0) mod n) as E' by congruence;
        apply ring_inj in E'; lia). rewrite Hq by lia.
      by replace (Z.to_nat (j + 1)) with (S (Z.to_nat j)) by lia.
  - intros j g Hj Hg. rewrite Hsh. apply Hs; [lia|]. by replace (Z.to_nat (j + 1)) with (S (Z.to_nat j)) by lia.
  - by apply Forall_cons in Ha as [_ Ha].
Qed.

Lemma init_frames n start per : 0 < n < 256 ->
  holds_frames (mk_VL n start per (replicate (Z.to_nat n) 0) (replicate (Z.to_nat n) 0) 0 0) [].
Proof.
  intros Hn. constructor; cbn [max_queue queue sizeQueue rmplace addplace length]; rewrite ?length_replicate; try done; try lia.
  - intros j Hj. rewrite Z.add_0_l, Z.mod_small by lia. unfold rd. rewrite (proj2 (Z.leb_le 0 j)) by lia.
    by rewrite lookup_replicate_2 by lia.
Qed.

Section Fifo.
Context `{EthDev}.

(** The queue of a link is first in, first out.  For a link that holds the
    frames l, tte_schedule_send appends the frame and returns 1 when fewer than
    max_queue frames wait, and returns 0 and changes nothing otherwise;
    tte_send_data hands the oldest frame, with its size, to the driver and
    removes it; a clock tick finds the queue empty exactly when l is. *)
Theorem tte_queue_is_fifo t i v l addr size : rd (VLarray t) i = Some v -> holds_frames v l -> 0 < addr ->
  let store v' := set_VLs (<[Z.to_nat i := v']> (VLarray t)) (VLsize t) t in
  (if decide (Z.of_nat (length l) < max_queue v) then
     exists v', tte_schedule_send addr size i t = Some (1, store v') /\ holds_frames v' (l ++ [(addr, size)])
   else tte_schedule_send addr size i t = Some (0, t)) /\
  match l with
  | [] => queue_head i t = Some 0
  | f :: l' => queue_head i t = Some (fst f) /\ 0 < fst f /\ exists v', holds_frames v' l' /\
      forall fuel w, tte_send_data fuel i t w = bind (eth_mac_send fuel (fst f) (snd f)) (fun _ => ret (Some (store v'))) w
  end.
Proof.
  intros Hv Hh Ha store. pose proof (rd_lt _ _ _ Hv) as Hi. split.
  - pose proof (push_run v l addr size Hh Ha) as Hp. unfold tte_schedule_send. rewrite Hv. case_decide.
    + destruct Hp as (v' & -> & Hh'). rewrite wr_ok by done. by exists v'.
    + rewrite Hp, wr_ok by done. apply rd_Some in Hv as [_ Hv]. rewrite list_insert_id by done. by destruct t.
  - pose proof (hf_queue _ _ Hh 0) as Hq. pose proof (hf_rm _ _ Hh) as Hrm.
    rewrite Z.add_0_r, Z.mod_small in Hq by lia. unfold queue_head. rewrite Hv. destruct l as [|f l].
    + rewrite Hq by lia. done.
    + rewrite Hq by lia. pose proof (hf_addr _ _ Hh) as HF. apply Forall_cons in HF as [Hf _]. split; [done|]. split; [done|].
      destruct (pop_run v f l Hh) as (v' & Hpop & Hh'). exists v'. split; [done|]. intros fuel w.
      unfold tte_send_data. rewrite Hv, Hpop. unfold bind. destruct (eth_mac_send fuel (fst f) (snd f) w) as [[[] w']|]; [|done].
      by rewrite wr_ok.
Qed.

Lemma wait_frame_never fuel : (forall m d, Z.land (fst (reg_rd (cell 0x04) m d)) 4 = 0) ->
  forall w, wait_frame fuel w = None.
Proof.
  intros Hno. induction fuel as [|fuel IH]; intros w; cbn [wait_frame]; unfold bind, eth_iord;
    pose proof (Hno (w_mem w) (w_dev w)) as Hz; destruct (reg_rd (cell 4) (w_mem w) (w_dev w)) as [v [m' d']]; cbn in Hz;
    by rewrite Hz.
Qed.

(** Tte_wait_for_message does not time out.  Where no frame arrives it polls
    without end for every timeout, and when it returns the result is 1 and the
    time stamp of the caller is as it was. *)
Theorem tte_wait_ignores_timeout (get_cpu_cycles : M Z) fuel receive_point timeout (w : world) :
  ((forall m d, Z.land (fst (reg_rd (cell 0x04) m d)) 4 = 0) ->
     tte_wait_for_message get_cpu_cycles fuel receive_point timeout w = None) /\
  (forall r w', tte_wait_for_message get_cpu_cycles fuel receive_point timeout w = Some (r, w') -> r = (1, receive_point)).
Proof.
  unfold tte_wait_for_message, bind, ret. split.
  - intros Hno. destruct (timeout =? 0); [by rewrite wait_frame_never|].
    destruct (get_cpu_cycles w) as [[t w1]|]; [|done]. by rewrite wait_frame_never.
  - intros r w'. destruct (timeout =? 0); repeat case_match; congruence.
Qed.
End Fifo.

(** ** Examples *)

Import TteDemo.
Definition node : tte := set_config 10848 4000 830 800000 20 [0xAB; 0xAD; 0xBA; 0xBE] [1; 2; 3; 4; 5; 6] demo.

Lemma tte_frames_roundtrip_witness :
  tte_receive (tte_prepare_pcf 0x800 [0x0F; 0xA1] 2 node ∅) 0x800 50000 node =
    handle_integration_frame (tte_prepare_pcf 0x800 [0x0F; 0xA1] 2 node ∅) 0x800 50000 node /\
  tte_receive (tte_prepare_data 0x800 [0x0F; 0xA1] (replicate 100 7) 60 node ∅) 0x800 50000 node = (2, node).
Proof.
  destruct (tte_frames_roundtrip node node ∅ 0x800 [0x0F; 0xA1] (replicate 100 7) 60 50000) as [[HA _] [HB _]].
  - split; [reflexivity|]. repeat constructor; unfold is_byte; cbn; lia.
  - reflexivity.
  - unfold in_space; lia.
  - lia.
  - split; [exact HA|exact HB].
Defined.

(** The first frame after the start. *)
Lemma tte_integration_correct_witness : exists t',
  handle_integration_frame (tte_prepare_pcf 0x800 [0x0F; 0xA1] 2 node ∅) 0x800 50000 node = (1, t') /\
  tte_current_time t' = 50000 + 10848 - (2 * 10848 + 4000) + 800000.
Proof.
  assert (frame_trans_clock (tte_prepare_pcf 0x800 [0x0F; 0xA1] 2 node ∅) 0x800 = 0) as Hz by (vm_compute; reflexivity).
  pose proof (tte_integration_correct (tte_prepare_pcf 0x800 [0x0F; 0xA1] 2 node ∅) 0x800 50000 node) as HT.
  rewrite Hz in HT. cbn zeta in HT. eexists. split.
  - rewrite HT; [reflexivity|]. constructor; repeat split; vm_compute; congruence.
  - reflexivity.
Defined.

Lemma transClk_exact_witness : transClk_to_clk 655360000 = 800.
Proof. rewrite (transClk_exact 655360000); [reflexivity|lia|vm_compute; reflexivity]. Defined.

(** Link 0 of the example has four places. *)
Lemma tte_queue_is_fifo_witness : exists v',
  @tte_schedule_send 0x800 64 0 demo = Some (1, set_VLs (<[0%nat := v']> (VLarray demo)) 3 demo) /\
  holds_frames v' [(0x800, 64)].
Proof.
  destruct (tte_queue_is_fifo (H := SimDev) demo 0 (mk_VL 4 1 5 [0; 0; 0; 0] [0; 0; 0; 0] 0 0) [] 0x800 64 eq_refl
    (init_frames 4 1 5 ltac:(lia)) ltac:(lia)) as [HA _].
  exact HA.
Defined.

Lemma tte_wait_ignores_timeout_witness :
  let dev := {| D := unit; reg_rd := fun _ m d => (0, (m, d)); reg_wr := fun _ _ _ d => d; usecs := fun d => (0, d) |} in
  @tte_wait_for_message dev (ret 0) 1000 7 5 (mk_world dev ∅ tt [] [] [] 0) = None.
Proof.
  intros dev. destruct (@tte_wait_ignores_timeout dev (ret 0) 1000 7 5 (mk_world dev ∅ tt [] [] [] 0)) as [HA _].
  apply HA. intros m d. reflexivity.
Defined.
