(* ===== verification/SdDisk.v ===== *)
(** SdDisk: the block device under the FAT32 library, libsd/sddisk.c.

    - [BlockDev] is the interface to the SD card driver (libsd/sd_spi.c,
      modelled in SdSpi): read and write one block.
    - [sys] is the state of libsd: the device, errno, the globals of
      sddisk.c and those of fat32.c.  Statements are [F A]: they return a
      value or stop with a [crash] - an array access outside the array, a
      failed assert, or a loop that used up its fuel.
    - [BlockDevSpec] states what a working card promises; [RamDisk] is an
      executable card with that behaviour. *)

From stdpp Require Import base numbers list gmap.
From S2P Require Import Prelude.

(** enum SDErr (sd_spi.h). *)
Definition SD_SUCCESS := 0.
Definition SD_BADRES := 1.
Definition SD_CLK_DIVISOR := 2.
Definition SD_CLK_HIGH := 3.
Definition SD_GOIDLE := 4.
Definition SD_TIMEOUT := 5.
Definition SD_SENDIFCOND_BADRES := 6.
Definition SD_SENDOPCOND_BADRES := 7.
Definition SD_SENDOPCOND_UNABLE := 8.
Definition SD_CRC_BADRES := 9.
Definition SD_BLKLEN_BADRES := 10.
Definition SD_BADCRC := 11.
Definition SD_WR := 12.

(** errno.h. *)
Definition EPERM := 1.
Definition ENOENT := 2.
Definition EIO := 5.
Definition EBADF := 9.
Definition EAGAIN := 11.
Definition EFAULT := 14.
Definition EBUSY := 16.
Definition EEXIST := 17.
Definition ENOTDIR := 20.
Definition EISDIR := 21.
Definition EINVAL := 22.
Definition EMFILE := 24.
Definition ENOSPC := 28.
Definition EPIPE := 32.
Definition ENOTEMPTY := 90.
Definition ENAMETOOLONG := 91.

(** The driver: sd_init, the block size of sd_info, sd_read_single_block,
    which returns its error code and the bytes it stored at the start of the
    buffer, and sd_write_single_block, which gets the bytes of the buffer.
    [None] is a driver that waits for the controller forever. *)
Class BlockDev := {
  Dev : Type;
  dev_init : Dev -> option (Z * Dev);
  dev_block_sz : Dev -> Z;
  dev_read : Z -> Z -> Dev -> option ((Z * list Z) * Dev);
  dev_write : Z -> list Z -> Dev -> option (Z * Dev);
}.

(** DiskInfo (sddisk.h). *)
Record DiskInfo := mk_DiskInfo { initialized : Z; block_sz : Z }.

(** FatPartitionInfo, FatDirEntryIdx and FatFile (fat32.h). *)
Record FatPartitionInfo := mk_pinfo {
  vol_begin_addr : Z;
  bytes_per_sector : Z;
  sectors_per_cluster : Z;
  num_res_sectors : Z;
  num_fats : Z;
  num_dir_entries : Z;
  num_total_sectors : Z;
  media_desc_type : Z;
  sectors_per_fat : Z;
  root_dir_cluster : Z;
  fat_begin_addr : Z;
  cluster_begin_addr : Z;
  entries_per_sector : Z;
  root_dir_addr : Z;
}.

Record FatDirEntryIdx := mk_didx { d_cluster : Z; d_sector : Z; d_index : Z }.

Record FatFile := mk_file {
  f_free : Z;
  f_pos : Z;
  f_dir_idx : FatDirEntryIdx;
  f_start_cluster : Z;
  f_current_cluster : Z;
  f_size : Z;
}.

(** The globals of sddisk.c and fat32.c.  [long_name16] and [long_name8]
    have FAT_MAX_LONG_NAME = 255 elements. *)
Record sys `{BlockDev} := mk_sys {
  s_dev : Dev;
  s_errno : Z;
  disk_global_info : DiskInfo;
  fat_pinfo : FatPartitionInfo;
  fat_open_files : list FatFile;
  fat_initialized : Z;
  long_name16 : list Z;
  long_name8 : list Z;
}.

Inductive crash := OutOfBounds | AssertFailed | OutOfFuel.
Inductive outcome `{BlockDev} (A : Type) := Ret (a : A) (s : sys) | Crash (c : crash).
Arguments Ret {_ _} _ _.
Arguments Crash {_ _} _.

Section Statements.
Context `{BlockDev}.

Definition F (A : Type) : Type := sys -> outcome A.

Definition fret {A} (a : A) : F A := fun s => Ret a s.
Definition fbind {A B} (c : F A) (k : A -> F B) : F B :=
  fun s => match c s with Ret a s' => k a s' | Crash e => Crash e end.
Definition stop {A} (e : crash) : F A := fun _ => Crash e.
Definition fget {A} (f : sys -> A) : F A := fun s => Ret (f s) s.
Definition fmod (f : sys -> sys) : F unit := fun s => Ret tt (f s).

Definition set_errno (e : Z) : F unit := fmod (fun s =>
  mk_sys _ (s_dev s) e (disk_global_info s) (fat_pinfo s) (fat_open_files s)
    (fat_initialized s) (long_name16 s) (long_name8 s)).
Definition set_device (d : Dev) : F unit := fmod (fun s =>
  mk_sys _ d (s_errno s) (disk_global_info s) (fat_pinfo s) (fat_open_files s)
    (fat_initialized s) (long_name16 s) (long_name8 s)).
Definition set_disk_global_info (i : DiskInfo) : F unit := fmod (fun s =>
  mk_sys _ (s_dev s) (s_errno s) i (fat_pinfo s) (fat_open_files s)
    (fat_initialized s) (long_name16 s) (long_name8 s)).
Definition set_fat_pinfo (p : FatPartitionInfo) : F unit := fmod (fun s =>
  mk_sys _ (s_dev s) (s_errno s) (disk_global_info s) p (fat_open_files s)
    (fat_initialized s) (long_name16 s) (long_name8 s)).
Definition set_open_files (l : list FatFile) : F unit := fmod (fun s =>
  mk_sys _ (s_dev s) (s_errno s) (disk_global_info s) (fat_pinfo s) l
    (fat_initialized s) (long_name16 s) (long_name8 s)).
Definition set_fat_initialized (v : Z) : F unit := fmod (fun s =>
  mk_sys _ (s_dev s) (s_errno s) (disk_global_info s) (fat_pinfo s) (fat_open_files s)
    v (long_name16 s) (long_name8 s)).
Definition set_long_name16 (l : list Z) : F unit := fmod (fun s =>
  mk_sys _ (s_dev s) (s_errno s) (disk_global_info s) (fat_pinfo s) (fat_open_files s)
    (fat_initialized s) l (long_name8 s)).
Definition set_long_name8 (l : list Z) : F unit := fmod (fun s =>
  mk_sys _ (s_dev s) (s_errno s) (disk_global_info s) (fat_pinfo s) (fat_open_files s)
    (fat_initialized s) (long_name16 s) l).

(** [buf[i]], [buf[i] = v] and memcpy into [buf + off], each inside the array. *)
Definition ld (buf : list Z) (i : Z) : F Z :=
  if (0 <=? i) && (i <? Z.of_nat (length buf)) then fret (at_ buf i) else stop OutOfBounds.
Definition st (buf : list Z) (i v : Z) : F (list Z) :=
  if (0 <=? i) && (i <? Z.of_nat (length buf)) then fret (<[Z.to_nat i := v]> buf)
  else stop OutOfBounds.
Definition blit (off : Z) (bytes buf : list Z) : list Z :=
  take (Z.to_nat off) buf ++ bytes ++ drop (Z.to_nat off + length bytes) buf.
Definition copy_to (buf : list Z) (off : Z) (bytes : list Z) : F (list Z) :=
  if (0 <=? off) && (off + Z.of_nat (length bytes) <=? Z.of_nat (length buf))
  then fret (blit off bytes buf) else stop OutOfBounds.
(** The [n] bytes at [buf + off]. *)
Definition slice (buf : list Z) (off n : Z) : list Z :=
  take (Z.to_nat n) (drop (Z.to_nat off) buf).
Definition copy_from (buf : list Z) (off n : Z) : F (list Z) :=
  if (0 <=? off) && (0 <=? n) && (off + n <=? Z.of_nat (length buf))
  then fret (slice buf off n) else stop OutOfBounds.

End Statements.

Declare Scope fat_scope.
Delimit Scope fat_scope with fat.
Notation "x <- c ;; k" := (fbind c (fun x => k))
  (at level 100, c at next level, right associativity) : fat_scope.
Notation "' p <- c ;; k" := (fbind c (fun x => let p := x in k))
  (at level 20, p pattern, c at level 99, k at level 200) : fat_scope.
Notation "c ;; k" := (fbind c (fun _ => k))
  (at level 100, right associativity) : fat_scope.

Section Disk.
Context `{BlockDev}.
Local Open Scope fat_scope.

(** ** sddisk.c *)

Definition call_dev {A} (f : Dev -> option (A * Dev)) : F A :=
  d <- fget s_dev;;
  match f d with
  | Some (a, d') => set_device d';; fret a
  | None => stop OutOfFuel
  end.

Definition disk_init : F Z :=
  res <- call_dev dev_init;;
  if negb (res =? SD_SUCCESS) then set_errno EIO;; fret (-1)
  else
    bs <- fget (fun s => dev_block_sz (s_dev s));;
    set_disk_global_info (mk_DiskInfo 1 bs);;
    set_errno 0;; fret 0.

Definition disk_info : F (DiskInfo * Z) :=
  i <- fget disk_global_info;;
  fret (i, if negb (initialized i =? 0) then 0 else 1).

Fixpoint disk_read_from (n : nat) (i block : Z) (buf : list Z) : F (Z * list Z) :=
  match n with
  | O => set_errno 0;; fret (0, buf)
  | S n' =>
      blksz <- fget (fun s => block_sz (disk_global_info s));;
      r <- call_dev (dev_read (u32 (block + i)) blksz);;
      buf <- copy_to buf (u32 (i * blksz)) (snd r);;
      if negb (fst r =? SD_SUCCESS) then set_errno EIO;; fret (-1, buf)
      else disk_read_from n' (i + 1) block buf
  end.

Definition disk_read (block : Z) (buf : list Z) (num_blocks : Z) : F (Z * list Z) :=
  disk_read_from (Z.to_nat num_blocks) 0 block buf.

Fixpoint disk_write_from (n : nat) (i block : Z) (buf : list Z) : F Z :=
  match n with
  | O => set_errno 0;; fret 0
  | S n' =>
      blksz <- fget (fun s => block_sz (disk_global_info s));;
      bytes <- copy_from buf (u32 (i * blksz)) blksz;;
      res <- call_dev (dev_write (u32 (block + i)) bytes);;
      if negb (res =? SD_SUCCESS) then set_errno EIO;; fret (-1)
      else disk_write_from n' (i + 1) block buf
  end.

Definition disk_write (block : Z) (buf : list Z) (num_blocks : Z) : F Z :=
  disk_write_from (Z.to_nat num_blocks) 0 block buf.

End Disk.

(** ** Reasoning: total weakest preconditions

    [wp c s Q]: the statement [c] returns from [s], with a value and a
    state that satisfy [Q]. *)
Section Wp.
Context `{BlockDev}.

Definition wp {A} (c : F A) (s : sys) (Q : A -> sys -> Prop) : Prop :=
  match c s with Ret a s' => Q a s' | Crash _ => False end.

Lemma wp_ret {A} (a : A) s Q : Q a s -> wp (fret a) s Q.
Proof. done. Qed.
Lemma wp_bind {A B} (c : F A) (k : A -> F B) s Q :
  wp c s (fun a s' => wp (k a) s' Q) -> wp (fbind c k) s Q.
Proof. unfold wp, fbind. by destruct (c s). Qed.
Lemma wp_mono {A} (c : F A) s (P Q : A -> sys -> Prop) :
  wp c s P -> (forall a s', P a s' -> Q a s') -> wp c s Q.
Proof. unfold wp. destruct (c s); auto. Qed.
Lemma wp_get {A} (f : sys -> A) s Q : Q (f s) s -> wp (fget f) s Q.
Proof. done. Qed.
Lemma wp_mod f s Q : Q tt (f s) -> wp (fmod f) s Q.
Proof. done. Qed.
Lemma wp_ld buf i s Q :
  0 <= i < Z.of_nat (length buf) -> Q (at_ buf i) s -> wp (ld buf i) s Q.
Proof. intros Hi HQ. unfold ld. zdec. done. Qed.
Lemma wp_st buf i v s Q :
  0 <= i < Z.of_nat (length buf) -> Q (<[Z.to_nat i := v]> buf) s -> wp (st buf i v) s Q.
Proof. intros Hi HQ. unfold st. zdec. done. Qed.
Lemma wp_copy_to buf off bytes s Q :
  0 <= off -> off + Z.of_nat (length bytes) <= Z.of_nat (length buf) ->
  Q (blit off bytes buf) s -> wp (copy_to buf off bytes) s Q.
Proof. intros H0 H1 HQ. unfold copy_to. zdec. done. Qed.
Lemma wp_copy_from buf off n s Q :
  0 <= off -> 0 <= n -> off + n <= Z.of_nat (length buf) ->
  Q (slice buf off n) s -> wp (copy_from buf off n) s Q.
Proof. intros H0 H1 H2 HQ. unfold copy_from. zdec. done. Qed.

(** A statement that returns, as an equation. *)
Lemma wp_returns {A} (c : F A) s Q :
  wp c s Q <-> exists a s', c s = Ret a s' /\ Q a s'.
Proof.
  unfold wp. destruct (c s) as [a s'|e]; split; try done.
  - intros HQ. by exists a, s'.
  - by intros (? & ? & [= <- <-] & HQ).
  - by intros (? & ? & ? & ?).
Qed.

Lemma length_blit off bytes buf :
  0 <= off -> off + Z.of_nat (length bytes) <= Z.of_nat (length buf) ->
  length (blit off bytes buf) = length buf.
Proof. intros. unfold blit. rewrite !length_app, length_take, length_drop. lia. Qed.
Lemma blit_all bytes buf : length bytes = length buf -> blit 0 bytes buf = bytes.
Proof.
  intros Hl. unfold blit. change (Z.to_nat 0) with 0%nat.
  rewrite take_0, Nat.add_0_l, Hl, drop_all, app_nil_r. done.
Qed.
Lemma slice_all buf n : n = Z.of_nat (length buf) -> slice buf 0 n = buf.
Proof. intros ->. unfold slice. rewrite Nat2Z.id. change (Z.to_nat 0) with 0%nat. rewrite drop_0. by apply take_ge. Qed.
Lemma length_slice buf off n :
  0 <= off -> 0 <= n -> off + n <= Z.of_nat (length buf) ->
  length (slice buf off n) = Z.to_nat n.
Proof. intros. unfold slice. rewrite length_take, length_drop. lia. Qed.

End Wp.

(** One statement of a straight-line program. *)
Ltac wstep :=
  lazymatch goal with
  | |- wp (fbind _ _) _ _ => apply wp_bind
  | |- wp (fret _) _ _ => apply wp_ret
  | |- wp (fget _) _ _ => apply wp_get
  | |- wp (set_errno _) _ _ => apply wp_mod
  | |- wp (set_device _) _ _ => apply wp_mod
  | |- wp (set_open_files _) _ _ => apply wp_mod
  | |- wp (set_long_name16 _) _ _ => apply wp_mod
  | |- wp (set_long_name8 _) _ _ => apply wp_mod
  end; cbn beta iota.

(** ** A working card *)

Class BlockDevSpec `{BlockDev} := {
  blocks : Dev -> Z -> list Z;
  capacity : Dev -> Z;
  ready : Dev -> Prop;
  capacity_u32 : forall d, capacity d <= 2 ^ 32;
  ready_block : forall d a, ready d -> 0 <= a < capacity d -> byte_array 512 (blocks d a);
  ready_read : forall d a, ready d -> 0 <= a < capacity d ->
    exists d', dev_read a 512 d = Some ((SD_SUCCESS, blocks d a), d') /\
      ready d' /\ capacity d' = capacity d /\
      (forall x, 0 <= x < capacity d -> blocks d' x = blocks d x);
  ready_write : forall d a bs, ready d -> 0 <= a < capacity d -> byte_array 512 bs ->
    exists d', dev_write a bs d = Some (SD_SUCCESS, d') /\
      ready d' /\ capacity d' = capacity d /\
      (forall x, 0 <= x < capacity d -> blocks d' x = if decide (x = a) then bs else blocks d x);
}.

Section DiskSpec.
Context `{BlockDevSpec}.

(** The contents of the card, and its size. *)
Definition blk (s : sys) (a : Z) : list Z := blocks (s_dev s) a.
Definition cap (s : sys) : Z := capacity (s_dev s).

Definition disk_ok (s : sys) : Prop :=
  ready (s_dev s) /\ block_sz (disk_global_info s) = 512.

Definition globals (s : sys) :=
  (disk_global_info s, fat_pinfo s, fat_open_files s, fat_initialized s,
   long_name16 s, long_name8 s).

(** The code went from [s] to [s'], leaving errno [e], the contents of the
    card [g] and the globals as they were. *)
Record disk_step (s : sys) (e : Z) (g : Z -> list Z) (s' : sys) : Prop := mk_disk_step {
  step_ok : disk_ok s';
  step_cap : cap s' = cap s;
  step_blk : forall x, 0 <= x < cap s -> blk s' x = g x;
  step_errno : s_errno s' = e;
  step_globals : globals s' = globals s;
}.

Lemma blk_bytes s a : disk_ok s -> 0 <= a < cap s -> byte_array 512 (blk s a).
Proof. intros [Hr _]. by apply ready_block. Qed.

Lemma disk_step_pinfo s e g s' : disk_step s e g s' -> fat_pinfo s' = fat_pinfo s.
Proof. intros Hs. pose proof (step_globals _ _ _ _ Hs) as HG. by injection HG. Qed.

Lemma disk_step_trans s e g s' e' g' s'' :
  disk_step s e g s' -> disk_step s' e' g' s'' -> disk_step s e' g' s''.
Proof.
  intros [] []. split; [done|congruence| |done|congruence].
  intros x Hx. apply step_blk1. rewrite step_cap0. lia.
Qed.

Lemma disk_step_ext s e g g' s' :
  disk_step s e g s' -> (forall x, 0 <= x < cap s -> g x = g' x) -> disk_step s e g' s'.
Proof. intros [] Hg. split; try done. intros x Hx. rewrite step_blk0 by done. by apply Hg. Qed.

Lemma disk_step_refl s : disk_ok s -> disk_step s (s_errno s) (blk s) s.
Proof. intros. by split. Qed.

Lemma disk_step_set_errno s e g s' e' :
  disk_step s e g s' ->
  disk_step s e' g (mk_sys _ (s_dev s') e' (disk_global_info s') (fat_pinfo s')
    (fat_open_files s') (fat_initialized s') (long_name16 s') (long_name8 s')).
Proof. intros []. split; done. Qed.

Lemma u32_addr s a : 0 <= a < cap s -> u32 a = a.
Proof. intros Ha. apply u32_small. pose proof (capacity_u32 (s_dev s)). unfold cap in *. lia. Qed.

Lemma wp_disk_read1 s a buf Q :
  disk_ok s -> 0 <= a < cap s -> (512 <= length buf)%nat ->
  (forall s', disk_step s 0 (blk s) s' -> Q (0, blit 0 (blk s a) buf) s') ->
  wp (disk_read a buf 1) s Q.
Proof.
  intros Hok Ha Hl HQ. unfold disk_read. change (Z.to_nat 1) with 1%nat. cbn [disk_read_from].
  destruct (ready_read (s_dev s) a (proj1 Hok) Ha) as (d' & Hd & Hr & Hc & Hb).
  pose proof (blk_bytes s a Hok Ha) as [Hlen _]. unfold blk in Hlen.
  wstep. wstep. unfold call_dev. repeat wstep.
  rewrite (proj2 Hok), Z.add_0_r, (u32_addr s) by done. rewrite Hd.
  repeat wstep. cbn [fst snd]. change (u32 (0 * 512)) with 0. apply wp_copy_to; [done|lia|].
  cbn [Z.eqb negb SD_SUCCESS]. repeat wstep. apply HQ.
  split; [split; [done | apply Hok] | done | done | done | done].
Qed.

Lemma wp_disk_write1 s a buf Q :
  disk_ok s -> 0 <= a < cap s -> (512 <= length buf)%nat -> byte_array 512 (slice buf 0 512) ->
  (forall s', disk_step s 0 (fun x => if decide (x = a) then slice buf 0 512 else blk s x) s' -> Q 0 s') ->
  wp (disk_write a buf 1) s Q.
Proof.
  intros Hok Ha Hl Hb HQ. unfold disk_write. change (Z.to_nat 1) with 1%nat. cbn [disk_write_from].
  destruct (ready_write (s_dev s) a _ (proj1 Hok) Ha Hb) as (d' & Hd & Hr & Hc & Hx).
  wstep. wstep. rewrite (proj2 Hok). change (u32 (0 * 512)) with 0.
  wstep. apply wp_copy_from; [done|done|lia|].
  wstep. unfold call_dev. repeat wstep. rewrite Z.add_0_r, (u32_addr s) by done. rewrite Hd.
  cbn [Z.eqb negb SD_SUCCESS]. repeat wstep. apply HQ.
  split; [split; [done | apply Hok] | done | done | done | done].
Qed.

End DiskSpec.

(** ** An executable card: a map of written blocks over a blank card. *)
Module RamDisk.

Record ram := mk_ram { r_size : Z; r_blocks : gmap Z (list Z) }.
Definition blank : list Z := replicate 512 0.
Definition r_get (d : ram) (a : Z) : list Z := default blank (r_blocks d !! a).
Definition r_ok (d : ram) (a : Z) : bool := (0 <=? a) && (a <? r_size d).

#[export] Instance ram_dev : BlockDev := {
  Dev := ram;
  dev_init d := Some (SD_SUCCESS, d);
  dev_block_sz _ := 512;
  dev_read a n d := Some
    (if r_ok d a then ((SD_SUCCESS, take (Z.to_nat n) (r_get d a)), d) else ((SD_BADRES, []), d));
  dev_write a bs d := Some
    (if r_ok d a then (SD_SUCCESS, mk_ram (r_size d) (<[a := bs]> (r_blocks d))) else (SD_BADRES, d));
}.

Definition ram_ready (d : ram) : Prop :=
  r_size d <= 2 ^ 32 /\ map_Forall (fun _ b => byte_array 512 b) (r_blocks d).

Lemma ram_get_bytes d a : ram_ready d -> byte_array 512 (r_get d a).
Proof.
  intros [_ Hd]. unfold r_get. destruct (r_blocks d !! a) eqn:E; [by apply (Hd a)|].
  split; [done|]. apply Forall_replicate. unfold is_byte; lia.
Qed.

#[export] Program Instance ram_spec : BlockDevSpec := {
  blocks := r_get;
  capacity d := Z.min (r_size d) (2 ^ 32);
  ready := ram_ready;
}.
Next Obligation. lia. Qed.
Next Obligation. intros. by apply ram_get_bytes. Qed.
Next Obligation.
  intros d a Hd Ha. exists d. split; [|done]. cbn. unfold r_ok. zdec.
  rewrite take_ge; [done|]. by rewrite (proj1 (ram_get_bytes d a Hd)).
Qed.
Next Obligation.
  intros d a bs Hd Ha Hb. eexists. split; [cbn; unfold r_ok; zdec; reflexivity|].
  split; [|split; [done|]].
  - split; [apply Hd|]. cbn. apply map_Forall_insert_2; [done|apply Hd].
  - intros x Hx. unfold r_get. cbn. destruct (decide (x = a)) as [->|Hne].
    + by rewrite lookup_insert_eq.
    + by rewrite lookup_insert_ne.
Qed.

End RamDisk.
