(* ===== verification/SdSpi.v ===== *)
(** SdSpi: the SD card driver over SPI, libsd/sd_spi.c.

    - [SpiHost] is the interface to the controller registers at PATMOS_IO_SD
      and to the CPU frequency.
    - [drv] is the state of the driver: controller and card, the last
      response [sd_res] and [sd_global_info].  Statements are [Sd A]: [None]
      is a wait for the controller that used up its polls.
    - [SdCardSpec] states what a card answers in SPI mode; [SimCard] is an
      executable card with that behaviour.
    - The driver over such a card implements the block device interface of
      SdDisk. *)

From stdpp Require Import base numbers list gmap.
From S2P Require Import Prelude SdDisk.

Class SpiHost := {
  Host : Type;
  rd_en : Host -> Z * Host;
  wr_data : Z -> Host -> Host;
  rd_data : Host -> Z * Host;
  wr_cs : Z -> Host -> Host;
  wr_clkdiv : Z -> Host -> Host;
  cpu_freq : Z;
  poll_limit : nat;
}.

Definition ACMD41_MAX_TRIES := 1000.
Definition SD_WRITE_MAX_WAIT := 1000000.
Definition SD_READ_MAX_WAIT := 1000000.
Definition SD_BUSY_MAX_WAIT := 1000000.
Definition SD_DATA_BEGIN_TOKEN := 0xFE.

(** [sd_res] is a union: [r1] is the first byte of [r7]. *)
Record drv `{SpiHost} := mk_drv {
  d_host : Host;
  sd_r7 : list Z;
  sd_block_sz : Z;
}.

Section Driver.
Context `{SpiHost}.

Definition Sd (A : Type) : Type := drv -> option (A * drv).
Definition sret {A} (a : A) : Sd A := fun d => Some (a, d).
Definition sbind {A B} (c : Sd A) (k : A -> Sd B) : Sd B :=
  fun d => match c d with Some (a, d') => k a d' | None => None end.
Definition on_host {A} (f : Host -> A * Host) : Sd A := fun d =>
  let '(a, h) := f (d_host d) in Some (a, mk_drv _ h (sd_r7 d) (sd_block_sz d)).
Definition host_do (f : Host -> Host) : Sd unit := fun d =>
  Some (tt, mk_drv _ (f (d_host d)) (sd_r7 d) (sd_block_sz d)).
Definition set_r7 (i v : Z) : Sd unit := fun d =>
  Some (tt, mk_drv _ (d_host d) (<[Z.to_nat i := v]> (sd_r7 d)) (sd_block_sz d)).
Definition get_r7 (i : Z) : Sd Z := fun d => Some (at_ (sd_r7 d) i, d).
Definition set_block_sz (v : Z) : Sd unit := fun d =>
  Some (tt, mk_drv _ (d_host d) (sd_r7 d) v).
End Driver.

Declare Scope sd_scope.
Delimit Scope sd_scope with sd.
Notation "x <- c ;; k" := (sbind c (fun x => k))
  (at level 100, c at next level, right associativity) : sd_scope.
Notation "c ;; k" := (sbind c (fun _ => k))
  (at level 100, right associativity) : sd_scope.

Section SdSpi.
Context `{SpiHost}.
Local Open Scope sd_scope.

(** The busy wait on the enable register. *)
Fixpoint wait_en (n : nat) : Sd unit :=
  match n with
  | O => fun _ => None
  | S n' => v <- on_host rd_en;; if negb (v =? 0) then wait_en n' else sret tt
  end.

Definition spi_send (dat : Z) : Sd Z :=
  wait_en poll_limit;;
  host_do (wr_data dat);;
  wait_en poll_limit;;
  v <- on_host rd_data;; sret (u8 v).

Definition spi_set_clockrate (rate : Z) : Sd Z :=
  let patmos_rate := cpu_freq in
  if negb (patmos_rate mod rate =? 0) then sret SD_CLK_DIVISOR
  else if patmos_rate / 2 <? rate then sret SD_CLK_HIGH
  else
    let clkdiv := patmos_rate / rate / 2 in
    wait_en poll_limit;;
    host_do (wr_clkdiv clkdiv);;
    sret SD_SUCCESS.

Definition spi_clear : Sd unit :=
  host_do (wr_cs 1);;
  spi_send 0xFF;;
  host_do (wr_cs 0).

(** The response loop of [sd_cmd]: the last byte received. *)
Fixpoint wait_response (n : nat) (response : Z) : Sd Z :=
  match n with
  | O => sret response
  | S n' =>
      response <- spi_send 0xFF;;
      if negb (response =? 0xFF) then sret response else wait_response n' response
  end.

Definition sd_cmd (cmd arg0 arg1 arg2 arg3 crc : Z) : Sd Z :=
  spi_clear;;
  spi_send (Z.lor cmd 0x40);;
  spi_send arg0;;
  spi_send arg1;;
  spi_send arg2;;
  spi_send arg3;;
  spi_send (Z.lor crc 1);;
  wait_response 10 0.

Fixpoint send_op_cond_tries (n : nat) (hcs : Z) : Sd Z :=
  match n with
  | O => sret SD_SENDOPCOND_UNABLE
  | S n' =>
      r <- sd_cmd 55 0 0 0 0 0xFF;; set_r7 0 r;;
      r <- sd_cmd 41 hcs 0 0 0 0xFF;; set_r7 0 r;;
      if r =? 0 then sret SD_SUCCESS
      else if negb (r =? 1) then sret SD_SENDOPCOND_BADRES
      else send_op_cond_tries n' hcs
  end.
Definition sd_send_op_cond_cmd (hcs : Z) : Sd Z :=
  let hcs := if hcs =? 0 then 0x00 else 0x40 in
  send_op_cond_tries (Z.to_nat ACMD41_MAX_TRIES) hcs.

(** A loop that sends 0xFF until the answer satisfies [stop_at]: true when
    it did, false when the loop reached its limit. *)
Fixpoint wait_until (stop_at : Z -> bool) (n : nat) : Sd bool :=
  match n with
  | O => sret false
  | S n' =>
      r <- spi_send 0xFF;; set_r7 0 r;;
      if stop_at r then sret true else wait_until stop_at n'
  end.

(** Reads [n] bytes. *)
Fixpoint read_bytes_spi (n : nat) : Sd (list Z) :=
  match n with
  | O => sret []
  | S n' => b <- spi_send 0xFF;; bs <- read_bytes_spi n';; sret (b :: bs)
  end.

(** The error and the bytes stored at the start of [buffer]. *)
Definition sd_read_single_block (addr block_sz : Z) : Sd (Z * list Z) :=
  r <- sd_cmd 17 (u8 (Z.shiftr addr 24)) (u8 (Z.shiftr addr 16)) (u8 (Z.shiftr addr 8)) (u8 addr) 0xFF;;
  set_r7 0 r;;
  if negb (r =? 0) then sret (SD_BADRES, [])
  else
    ok <- wait_until (fun r => r =? SD_DATA_BEGIN_TOKEN) (Z.to_nat SD_READ_MAX_WAIT);;
    if negb ok then sret (SD_TIMEOUT, [])
    else
      bytes <- read_bytes_spi (Z.to_nat block_sz);;
      spi_send 0xFF;;
      spi_send 0xFF;;
      sret (SD_SUCCESS, bytes).

Fixpoint send_bytes (bytes : list Z) : Sd unit :=
  match bytes with
  | [] => sret tt
  | b :: bytes' => spi_send b;; send_bytes bytes'
  end.

(** [bytes] are the [block_sz] bytes of [buffer]. *)
Definition sd_write_single_block (addr : Z) (bytes : list Z) : Sd Z :=
  r <- sd_cmd 24 (u8 (Z.shiftr addr 24)) (u8 (Z.shiftr addr 16)) (u8 (Z.shiftr addr 8)) (u8 addr) 0xFF;;
  set_r7 0 r;;
  if negb (r =? 0) then sret SD_BADRES
  else
    r <- spi_send SD_DATA_BEGIN_TOKEN;; set_r7 0 r;;
    send_bytes bytes;;
    ok <- wait_until (fun r => negb (r =? 0xFF)) (Z.to_nat SD_WRITE_MAX_WAIT);;
    if negb ok then sret SD_TIMEOUT
    else
      r <- get_r7 0;;
      let t := Z.land r 0x1F in
      if t =? 5 then
        ok <- wait_until (fun r => negb (r =? 0x00)) (Z.to_nat SD_BUSY_MAX_WAIT);;
        if negb ok then sret SD_TIMEOUT else sret SD_SUCCESS
      else if t =? 11 then sret SD_BADCRC
      else if t =? 13 then sret SD_WR
      else sret SD_BADRES.

(** Dummy bytes with the card not selected. *)
Fixpoint send_dummies (n : nat) : Sd unit :=
  match n with O => sret tt | S n' => spi_send 0xFF;; send_dummies n' end.

(** The four bytes of the R7 response behind the first. *)
Fixpoint read_r7 (n : nat) (i : Z) : Sd unit :=
  match n with
  | O => sret tt
  | S n' => v <- spi_send 0xFF;; set_r7 (1 + i) v;; read_r7 n' (i + 1)
  end.

Definition sd_init : Sd Z :=
  errsv <- spi_set_clockrate 400000;;
  if negb (errsv =? SD_SUCCESS) then sret errsv
  else
    host_do (wr_cs 1);;
    send_dummies 10;;
    host_do (wr_cs 0);;
    r <- sd_cmd 0 0 0 0 0 0x94;; set_r7 0 r;;
    if negb (r =? 1) then sret SD_GOIDLE
    else
      let volt_range := 0x01 in
      let check_pattern := 0xAA in
      r <- sd_cmd 8 0 0 volt_range check_pattern 0x86;; set_r7 0 r;;
      read_r7 4 0;;
      a0 <- get_r7 0;; a1 <- get_r7 1;; a2 <- get_r7 2;; a3 <- get_r7 3;; a4 <- get_r7 4;;
      if negb (a0 =? 0x01) || negb (a1 =? 0x00) || negb (a2 =? 0x00) ||
         negb (a3 =? volt_range) || negb (a4 =? check_pattern) then sret SD_SENDIFCOND_BADRES
      else
        e1 <- sd_send_op_cond_cmd 1;;
        errsv <- (if negb (e1 =? SD_SUCCESS) then sd_send_op_cond_cmd 0 else sret SD_SUCCESS);;
        if negb (errsv =? SD_SUCCESS) then sret errsv
        else
          r <- sd_cmd 16 0 0 0x02 0 0xFF;; set_r7 0 r;;
          if negb (r =? 0) then sret SD_BLKLEN_BADRES
          else
            set_block_sz 512;;
            errsv <- spi_set_clockrate 20000000;;
            if negb (errsv =? SD_SUCCESS) then sret errsv else sret SD_SUCCESS.

Definition sd_info : Sd Z := fun d => Some (sd_block_sz d, d).

(** The driver as the block device of sddisk.c. *)
#[export] Instance spi_dev : BlockDev := {
  Dev := drv;
  dev_init := sd_init;
  dev_block_sz := sd_block_sz;
  dev_read := sd_read_single_block;
  dev_write := sd_write_single_block;
}.

End SdSpi.

(** ** What controller and card promise *)

Section Runs.
Context `{SpiHost}.

(** The controller finishes a transfer within [n] polls. *)
Fixpoint settle (n : nat) (h : Host) : option Host :=
  match n with
  | O => None
  | S n' => let '(v, h') := rd_en h in if v =? 0 then Some h' else settle n' h'
  end.
End Runs.

(** [exch b h] is the exchange of a byte with the card. *)
Class SpiSpec `{SpiHost} := {
  exch : Z -> Host -> Z * Host;
  idle : Host -> Prop;
  idle_settles : forall h, idle h -> settle poll_limit h = Some h;
  idle_cs : forall v h, idle h -> idle (wr_cs v h);
  exch_spec : forall b h, idle h ->
    settle poll_limit (wr_data b h) = Some (snd (exch b h)) /\ idle (snd (exch b h)) /\
    exists v, rd_data (snd (exch b h)) = (v, snd (exch b h)) /\ u8 v = fst (exch b h);
}.

Section Exchange.
Context `{SpiSpec}.

Fixpoint run (ins : list Z) (h : Host) : list Z * Host :=
  match ins with
  | [] => ([], h)
  | b :: ins' =>
      let '(r, h1) := exch b h in
      let '(rs, h2) := run ins' h1 in (r :: rs, h2)
  end.

(** The card deselected, clocked and selected again. *)
Definition reselect (h : Host) : Host := wr_cs 0 (snd (exch 0xFF (wr_cs 1 h))).

(** The six bytes of a command with a 32-bit argument. *)
Definition frame (cmd a : Z) : list Z :=
  [Z.lor cmd 0x40; u8 (Z.shiftr a 24); u8 (Z.shiftr a 16); u8 (Z.shiftr a 8); u8 a; 0xFF].

End Exchange.

(** A card in SPI mode with blocks of 512 bytes.  It answers a read command
    with 0 after up to nine bytes of 0xFF, then with the start token, the
    block and two bytes of CRC; a write command with 0, the block with a
    data response, and then with zeros while it is busy. *)
Class SdCardSpec `{SpiSpec} := {
  card_blocks : Host -> Z -> list Z;
  card_size : Host -> Z;
  card_ready : Host -> Prop;
  card_idle : forall h, card_ready h -> idle h;
  card_size_u32 : forall h, card_size h <= 2 ^ 32;
  card_bytes : forall h a, card_ready h -> 0 <= a < card_size h -> byte_array 512 (card_blocks h a);
  card_read : forall h a, card_ready h -> 0 <= a < card_size h ->
    exists (n m : nat) o6 toks crc h', (n < 10)%nat /\ Z.of_nat m < SD_READ_MAX_WAIT /\
      length o6 = 6%nat /\ length toks = m /\ Forall (fun t => t <> SD_DATA_BEGIN_TOKEN) toks /\
      length crc = 2%nat /\
      run (frame 17 a ++ replicate (S n) 0xFF ++ replicate (S m) 0xFF ++ replicate 512 0xFF ++
             replicate 2 0xFF) (reselect h)
      = (o6 ++ (replicate n 0xFF ++ [0]) ++ (toks ++ [SD_DATA_BEGIN_TOKEN]) ++ card_blocks h a ++ crc, h') /\
      card_ready h' /\ card_size h' = card_size h /\
      (forall x, 0 <= x < card_size h -> card_blocks h' x = card_blocks h x);
  card_write : forall h a bs, card_ready h -> 0 <= a < card_size h -> byte_array 512 bs ->
    exists (n m k : nat) o6 odata resp last h', (n < 10)%nat /\ Z.of_nat m < SD_WRITE_MAX_WAIT /\
      Z.of_nat k < SD_BUSY_MAX_WAIT /\ length o6 = 6%nat /\ length odata = 513%nat /\
      resp <> 0xFF /\ Z.land resp 0x1F = 5 /\ last <> 0 /\
      run (frame 24 a ++ replicate (S n) 0xFF ++ (SD_DATA_BEGIN_TOKEN :: bs) ++
             replicate (S m) 0xFF ++ replicate (S k) 0xFF) (reselect h)
      = (o6 ++ (replicate n 0xFF ++ [0]) ++ odata ++ (replicate m 0xFF ++ [resp]) ++
           (replicate k 0 ++ [last]), h') /\
      card_ready h' /\ card_size h' = card_size h /\
      (forall x, 0 <= x < card_size h ->
         card_blocks h' x = if decide (x = a) then bs else card_blocks h x);
}.

(** ** The driver and the exchanges it makes *)

Section Refines.
Context `{SpiSpec}.

Definition at_host (d : drv) (h : Host) : drv := mk_drv _ h (sd_r7 d) (sd_block_sz d).

Lemma length_run ins : forall h, length (fst (run ins h)) = length ins.
Proof.
  induction ins as [|b ins IH]; intros h; cbn; [done|].
  destruct (exch b h) as [r h1]. specialize (IH h1). destruct (run ins h1). cbn in *. lia.
Qed.

Lemma run_idle ins : forall h, idle h -> idle (snd (run ins h)).
Proof.
  induction ins as [|b ins IH]; intros h Hi; cbn; [done|].
  destruct (exch_spec b h Hi) as (_ & Hi1 & _). destruct (exch b h) as [r h1].
  specialize (IH h1 Hi1). by destruct (run ins h1).
Qed.

Lemma run_idle_to ins h os h' : idle h -> run ins h = (os, h') -> idle h'.
Proof. intros Hi HR. pose proof (run_idle ins h Hi) as Hx. by rewrite HR in Hx. Qed.
Lemma reselect_idle h : idle h -> idle (reselect h).
Proof. intros Hi. unfold reselect. apply idle_cs, (exch_spec 0xFF _ (idle_cs 1 _ Hi)). Qed.

Lemma run_app a b h :
  run (a ++ b) h = (fst (run a h) ++ fst (run b (snd (run a h))), snd (run b (snd (run a h)))).
Proof.
  revert h. induction a as [|x a IH]; intros h; cbn; [by destruct (run b h)|].
  destruct (exch x h) as [r h1]. rewrite IH. destruct (run a h1) as [o h2]. done.
Qed.

Lemma run_split a b h oa ob h' :
  run (a ++ b) h = (oa ++ ob, h') -> length a = length oa ->
  exists h1, run a h = (oa, h1) /\ run b h1 = (ob, h').
Proof.
  rewrite run_app. intros [= Ho Hh] Hl. apply app_inj_1 in Ho as [Ha Hb]; [|by rewrite length_run].
  exists (snd (run a h)). split.
  - rewrite <- Ha. by destruct (run a h).
  - rewrite <- Hb, <- Hh. by destruct (run b (snd (run a h))).
Qed.

Lemma wait_en_settle n : forall d h, settle n (d_host d) = Some h -> wait_en n d = Some (tt, at_host d h).
Proof.
  induction n as [|n IH]; intros d h; cbn; [done|]. unfold sbind, on_host.
  destruct (rd_en (d_host d)) as [v h1]. destruct (v =? 0); cbn; [by intros [= ->]|].
  intros Hs. rewrite (IH _ h); [done|done].
Qed.

Lemma spi_send_exch b d r h : idle (d_host d) -> exch b (d_host d) = (r, h) ->
  spi_send b d = Some (r, at_host d h).
Proof.
  intros Hi He. destruct (exch_spec b (d_host d) Hi) as (Hs & _ & v & Hv & Hu). rewrite He in Hs, Hv, Hu.
  cbn in Hs, Hv, Hu. unfold spi_send, sbind. rewrite (wait_en_settle _ _ _ (idle_settles _ Hi)).
  unfold host_do at 1. cbn. erewrite wait_en_settle; [|exact Hs]. unfold on_host. cbn. rewrite Hv. cbn.
  unfold sret. rewrite Hu. done.
Qed.

Lemma run_cons b ins h r rs h' : run (b :: ins) h = (r :: rs, h') ->
  exists h1, exch b h = (r, h1) /\ run ins h1 = (rs, h').
Proof.
  cbn. destruct (exch b h) as [r1 h1]. destruct (run ins h1) as [rs1 h2] eqn:E.
  intros [= <- <- <-]. eauto.
Qed.

Lemma exch_idle b h r h1 : idle h -> exch b h = (r, h1) -> idle h1.
Proof. intros Hi He. destruct (exch_spec b h Hi) as (_ & Hi1 & _). by rewrite He in Hi1. Qed.

(** The first exchange of a run. *)
Ltac one_send HR :=
  let h := fresh "h" in let He := fresh "He" in
  apply run_cons in HR as (h & He & HR);
  erewrite spi_send_exch; [|eassumption|exact He]; cbn beta iota;
  match type of He with exch _ ?h0 = _ =>
    match goal with Hi : idle h0 |- _ => pose proof (exch_idle _ _ _ _ Hi He) end end.

Lemma wait_response_run N : forall n d r0 r h', idle (d_host d) -> (n < N)%nat -> r <> 0xFF ->
  run (replicate (S n) 0xFF) (d_host d) = (replicate n 0xFF ++ [r], h') ->
  wait_response N r0 d = Some (r, at_host d h').
Proof.
  induction N as [|N IH]; intros n d r0 r h' Hi Hn Hr HR; [lia|]. cbn [wait_response]. unfold sbind at 1.
  destruct n as [|n]; cbn [replicate app] in HR; one_send HR.
  - injection HR as <-. rewrite (proj2 (Z.eqb_neq _ _) Hr). done.
  - cbn. rewrite (IH n (at_host d h) 0xFF r h'); [done|done|lia|done|done].
Qed.

Lemma wait_until_run p N : forall toks d r h', idle (d_host d) -> (length toks < N)%nat ->
  Forall (fun t => p t = false) toks -> p r = true -> (0 < length (sd_r7 d))%nat ->
  run (replicate (S (length toks)) 0xFF) (d_host d) = (toks ++ [r], h') ->
  exists r7, wait_until p N d = Some (true, mk_drv _ h' r7 (sd_block_sz d)) /\
    length r7 = length (sd_r7 d) /\ at_ r7 0 = r.
Proof.
  induction N as [|N IH]; intros toks d r h' Hi Hn HF Hr Hl HR; [lia|]. cbn [wait_until]. unfold sbind at 1.
  destruct toks as [|t toks]; cbn [replicate app length] in HR; one_send HR.
  - injection HR as <-. unfold sbind, set_r7. cbn. rewrite Hr. eexists. split; [done|].
    rewrite length_insert. split; [done|]. unfold at_. by rewrite nth_lookup, list_lookup_insert_eq.
  - apply Forall_cons in HF as [Hp HF]. unfold sbind, set_r7. cbn [at_host d_host sd_r7 sd_block_sz]. rewrite Hp.
    destruct (IH toks (mk_drv _ h (<[Z.to_nat 0 := t]> (sd_r7 d)) (sd_block_sz d)) r h')
      as (r7 & Hw & Hl7 & Hat); cbn; rewrite ?length_insert; try done; [cbn in Hn; lia|].
    exists r7. cbn in Hl7. rewrite length_insert in Hl7. done.
Qed.

Lemma read_bytes_run n : forall d bs h', idle (d_host d) ->
  run (replicate n 0xFF) (d_host d) = (bs, h') -> read_bytes_spi n d = Some (bs, at_host d h').
Proof.
  induction n as [|n IH]; intros d bs h' Hi HR; cbn [read_bytes_spi].
  - injection HR as <- <-. by destruct d.
  - pose proof (length_run (replicate (S n) 0xFF) (d_host d)) as Hl. rewrite HR in Hl.
    destruct bs as [|b bs]; [done|]. cbn [replicate] in HR. unfold sbind at 1. one_send HR.
    unfold sbind. rewrite (IH (at_host d h) bs h'); done.
Qed.

Lemma send_bytes_run bs : forall d os h', idle (d_host d) ->
  run bs (d_host d) = (os, h') -> send_bytes bs d = Some (tt, at_host d h').
Proof.
  induction bs as [|b bs IH]; intros d os h' Hi HR; cbn [send_bytes].
  - injection HR as _ <-. by destruct d.
  - pose proof (length_run (b :: bs) (d_host d)) as Hl. rewrite HR in Hl.
    destruct os as [|o os]; [done|]. unfold sbind. one_send HR.
    rewrite (IH (at_host d h) os h'); done.
Qed.

(** A command: the frame and the wait for the response. *)
Lemma sd_cmd_run cmd a o6 n r d h' : idle (d_host d) -> length o6 = 6%nat -> (n < 10)%nat -> r <> 0xFF ->
  run (frame cmd a ++ replicate (S n) 0xFF) (reselect (d_host d)) = (o6 ++ (replicate n 0xFF ++ [r]), h') ->
  sd_cmd cmd (u8 (Z.shiftr a 24)) (u8 (Z.shiftr a 16)) (u8 (Z.shiftr a 8)) (u8 a) 0xFF d
  = Some (r, at_host d h').
Proof.
  intros Hi H6 Hn Hr HR. unfold sd_cmd, spi_clear.
  assert (idle (wr_cs 1 (d_host d))) as Hi1 by (by apply idle_cs).
  destruct (exch 0xFF (wr_cs 1 (d_host d))) as [r0 h0] eqn:E0.
  assert (idle (wr_cs 0 h0)) as Hi0 by (by eapply idle_cs, exch_idle).
  unfold reselect in HR. rewrite E0 in HR. cbn [snd] in HR.
  unfold sbind at 1 2 3 4. unfold host_do at 1. cbn beta iota.
  rewrite (spi_send_exch 0xFF (mk_drv _ (wr_cs 1 (d_host d)) (sd_r7 d) (sd_block_sz d)) r0 h0 Hi1 E0).
  unfold host_do at 1. cbn [at_host d_host sd_r7 sd_block_sz].
  destruct o6 as [|x1 [|x2 [|x3 [|x4 [|x5 [|x6 [|]]]]]]]; try done.
  unfold frame in HR. cbn [app] in HR. change (Z.lor 0xFF 1) with 0xFF.
  fold (at_host d (wr_cs 0 h0)).
  unfold sbind. do 6 one_send HR.
  erewrite (wait_response_run 10 n _ 0 r h'); [done|done|done|done|exact HR].
Qed.

Context {HC : SdCardSpec}.

Definition drv_ready (d : drv) : Prop := card_ready (d_host d) /\ length (sd_r7 d) = 5%nat.

Lemma sd_read_run d a : drv_ready d -> 0 <= a < card_size (d_host d) ->
  exists d', sd_read_single_block a 512 d = Some ((SD_SUCCESS, card_blocks (d_host d) a), d') /\
    drv_ready d' /\ card_size (d_host d') = card_size (d_host d) /\
    (forall x, 0 <= x < card_size (d_host d) -> card_blocks (d_host d') x = card_blocks (d_host d) x).
Proof.
  intros [Hr H7] Ha. pose proof (card_idle _ Hr) as Hi.
  destruct (card_read (d_host d) a Hr Ha) as
    (n & m & o6 & toks & crc & h' & Hn & Hm & Ho6 & Htl & HF & Hcrc & HR & Hr' & Hs' & Hb').
  pose proof (card_bytes _ a Hr Ha) as [Hlb _].
  rewrite app_assoc, (app_assoc o6) in HR.
  apply run_split in HR as (h1 & HR1 & HR); [|rewrite !length_app, !length_replicate; cbn; lia].
  apply run_split in HR as (h2 & HR2 & HR); [|rewrite length_app, length_replicate; cbn; lia].
  apply run_split in HR as (h3 & HR3 & HR4); [|by rewrite length_replicate].
  pose proof (run_idle_to _ _ _ _ (reselect_idle _ Hi) HR1) as Hi1.
  pose proof (run_idle_to _ _ _ _ Hi1 HR2) as Hi2. pose proof (run_idle_to _ _ _ _ Hi2 HR3) as Hi3.
  unfold sd_read_single_block. unfold sbind at 1.
  rewrite (sd_cmd_run 17 a o6 n 0 d h1 Hi Ho6 Hn ltac:(done) HR1). cbn beta iota.
  unfold sbind at 1. unfold set_r7. cbn [at_host d_host sd_r7 sd_block_sz negb Z.eqb].
  destruct (wait_until_run (fun r => r =? SD_DATA_BEGIN_TOKEN) (Z.to_nat SD_READ_MAX_WAIT) toks
    (mk_drv _ h1 (<[Z.to_nat 0 := 0]> (sd_r7 d)) (sd_block_sz d)) SD_DATA_BEGIN_TOKEN h2)
    as (r7 & Hw & Hl7 & _); cbn [d_host sd_r7 sd_block_sz]; try done.
  { lia. }
  { eapply Forall_impl; [exact HF|]. cbn. intros t Ht. by apply Z.eqb_neq. }
  { rewrite length_insert. lia. }
  { by rewrite Htl. }
  unfold sbind at 1. rewrite Hw. cbn [negb sd_block_sz]. change (Z.to_nat 512) with 512%nat.
  unfold sbind at 1. rewrite (read_bytes_run 512 (mk_drv _ h2 r7 (sd_block_sz d)) _ h3 Hi2 HR3).
  destruct crc as [|y1 [|y2 [|]]]; try done. unfold sbind. cbn [replicate] in HR4.
  apply run_cons in HR4 as (h4 & He4 & HR4). apply run_cons in HR4 as (h5 & He5 & HR5).
  injection HR5 as <-. pose proof (exch_idle _ _ _ _ Hi3 He4) as Hi4.
  erewrite spi_send_exch; [|exact Hi3|exact He4]. erewrite spi_send_exch; [|exact Hi4|exact He5].
  eexists. split; [reflexivity|]. cbn [at_host d_host].
  split; [split; [done|]|done]. cbn [at_host sd_r7] in *. rewrite Hl7, length_insert. done.
Qed.

Lemma sd_write_run d a bs : drv_ready d -> 0 <= a < card_size (d_host d) -> byte_array 512 bs ->
  exists d', sd_write_single_block a bs d = Some (SD_SUCCESS, d') /\
    drv_ready d' /\ card_size (d_host d') = card_size (d_host d) /\
    (forall x, 0 <= x < card_size (d_host d) ->
       card_blocks (d_host d') x = if decide (x = a) then bs else card_blocks (d_host d) x).
Proof.
  intros [Hr H7] Ha Hbs. pose proof (card_idle _ Hr) as Hi. pose proof (proj1 Hbs) as Hlbs.
  destruct (card_write (d_host d) a bs Hr Ha Hbs) as
    (n & m & k & o6 & od & resp & fin & h' & Hn & Hm & Hk & Ho6 & Hod & Hresp & Hland & Hfin & HR & Hr' & Hs' & Hb').
  rewrite app_assoc, (app_assoc o6) in HR.
  apply run_split in HR as (h1 & HR1 & HR); [|rewrite !length_app, !length_replicate; cbn; lia].
  apply run_split in HR as (h2 & HR2 & HR); [|cbn; lia].
  apply run_split in HR as (h3 & HR3 & HR4); [|rewrite length_app, !length_replicate; cbn; lia].
  pose proof (run_idle_to _ _ _ _ (reselect_idle _ Hi) HR1) as Hi1.
  pose proof (run_idle_to _ _ _ _ Hi1 HR2) as Hi2. pose proof (run_idle_to _ _ _ _ Hi2 HR3) as Hi3.
  unfold sd_write_single_block. unfold sbind at 1.
  rewrite (sd_cmd_run 24 a o6 n 0 d h1 Hi Ho6 Hn ltac:(done) HR1). cbn beta iota.
  unfold sbind at 1. unfold set_r7. cbn [at_host d_host sd_r7 sd_block_sz negb Z.eqb].
  destruct od as [|o1 od]; [done|]. apply run_cons in HR2 as (h1' & He & HR2).
  pose proof (exch_idle _ _ _ _ Hi1 He) as Hi1'. unfold sbind at 1.
  erewrite spi_send_exch; [|exact Hi1|exact He]. cbn [at_host d_host sd_r7 sd_block_sz].
  unfold sbind at 1. unfold sbind at 1. unfold at_host at 1 2 3. cbn [d_host sd_r7 sd_block_sz].
  set (d2 := mk_drv _ h1' (<[Z.to_nat 0 := o1]> (<[Z.to_nat 0 := 0]> (sd_r7 d))) (sd_block_sz d)). rewrite (send_bytes_run bs d2 od h2 Hi1' HR2).
  destruct (wait_until_run (fun r => negb (r =? 0xFF)) (Z.to_nat SD_WRITE_MAX_WAIT) (replicate m 0xFF)
    (at_host d2 h2) resp h3) as (r7 & Hw & Hl7 & Hat); try done.
  { rewrite length_replicate. lia. }
  { by apply Forall_replicate. }
  { by rewrite (proj2 (Z.eqb_neq _ _) Hresp). }
  { cbn. rewrite !length_insert. lia. }
  { by rewrite length_replicate. }
  unfold sbind at 1. rewrite Hw. cbn [negb]. unfold sbind at 1. unfold get_r7. cbn [sd_r7]. rewrite Hat, Hland. cbn [Z.eqb Pos.eqb].
  destruct (wait_until_run (fun r => negb (r =? 0)) (Z.to_nat SD_BUSY_MAX_WAIT) (replicate k 0)
    (mk_drv _ h3 r7 (sd_block_sz (at_host d2 h2))) fin h') as (r7' & Hw' & Hl7' & _); try done.
  { rewrite length_replicate. lia. }
  { by apply Forall_replicate. }
  { by rewrite (proj2 (Z.eqb_neq _ _) Hfin). }
  { cbn [sd_r7]. rewrite Hl7. cbn. rewrite !length_insert. lia. }
  { by rewrite length_replicate. }
  unfold sbind at 1. rewrite Hw'. cbn [negb]. eexists. split; [reflexivity|].
  split; [split; [done|]|done]. change (length r7' = 5%nat).
  rewrite Hl7'. change (length r7 = 5%nat). rewrite Hl7. cbn. by rewrite !length_insert.
Qed.

(** The driver discharges the promise of a working card to sddisk.c. *)
#[export] Instance spi_block_spec : BlockDevSpec := {
  blocks d := card_blocks (d_host d);
  capacity d := card_size (d_host d);
  ready := drv_ready;
  capacity_u32 d := card_size_u32 (d_host d);
  ready_block d a Hr := card_bytes (d_host d) a (proj1 Hr);
  ready_read := sd_read_run;
  ready_write := sd_write_run;
}.

(** C11: over a card that keeps to the SPI protocol the driver is a block
    device.  sd_read_single_block returns success and the block at the address
    and leaves every block as it was; sd_write_single_block returns success
    and changes exactly the block at the address; both leave driver and card
    ready for the next command. *)
Theorem sd_driver_correct d a bs :
  drv_ready d -> 0 <= a < card_size (d_host d) -> byte_array 512 bs ->
  (exists d', sd_read_single_block a 512 d = Some ((SD_SUCCESS, card_blocks (d_host d) a), d') /\
    drv_ready d' /\ card_size (d_host d') = card_size (d_host d) /\
    (forall x, 0 <= x < card_size (d_host d) -> card_blocks (d_host d') x = card_blocks (d_host d) x)) /\
  (exists d', sd_write_single_block a bs d = Some (SD_SUCCESS, d') /\
    drv_ready d' /\ card_size (d_host d') = card_size (d_host d) /\
    (forall x, 0 <= x < card_size (d_host d) ->
       card_blocks (d_host d') x = if decide (x = a) then bs else card_blocks (d_host d) x)).
Proof. intros Hr Ha Hb. split; [by apply sd_read_run|by apply sd_write_run]. Qed.

End Refines.

(** ** An executable card *)

Module SimCard.
Import RamDisk.

(** What the selected card does with the next byte: it collects a command,
    sends the bytes of an answer, waits for the start token of a block to
    write, or collects that block. *)
Inductive phase :=
| Cmd (acc : list Z)
| Out (q : list Z) (k : phase)
| WaitTok (a : Z)
| Data (a : Z) (acc : list Z).

Record card := mk_card { c_phase : phase; c_sel : bool; c_data : Z; c_ram : ram }.

Definition be32 (l : list Z) : Z :=
  ((at_ l 0 * 256 + at_ l 1) * 256 + at_ l 2) * 256 + at_ l 3.

Definition answer (cmd : list Z) (r : ram) : phase :=
  let a := be32 (drop 1 cmd) in
  let c := at_ cmd 0 - 0x40 in
  if (c =? 0) || (c =? 55) then Out [0xFF; 1] (Cmd [])
  else if c =? 8 then Out [0xFF; 1; 0; 0; at_ cmd 3; at_ cmd 4] (Cmd [])
  else if (c =? 41) || (c =? 16) then Out [0xFF; 0] (Cmd [])
  else if (c =? 17) && r_ok r a then
    Out ([0xFF; 0; 0xFF; SD_DATA_BEGIN_TOKEN] ++ r_get r a ++ [0; 0]) (Cmd [])
  else if (c =? 24) && r_ok r a then Out [0xFF; 0] (WaitTok a)
  else Out [0xFF; 4] (Cmd []).

(** The byte the card sends and its next phase and blocks. *)
Definition react (b : Z) (p : phase) (r : ram) : Z * phase * ram :=
  match p with
  | Cmd acc =>
      if (b =? 0xFF) && (length acc =? 0)%nat then (0xFF, p, r)
      else
        let acc' := acc ++ [b] in
        if (length acc' =? 6)%nat then (0xFF, answer acc' r, r) else (0xFF, Cmd acc', r)
  | Out [] k => (0xFF, k, r)
  | Out [x] k => (x, k, r)
  | Out (x :: q) k => (x, Out q k, r)
  | WaitTok a => if b =? SD_DATA_BEGIN_TOKEN then (0xFF, Data a [], r) else (0xFF, p, r)
  | Data a acc =>
      let acc' := acc ++ [b] in
      if (length acc' =? 512)%nat then
        (0xFF, Out [0xFF; 0xFF; 0xE5; 0; 0; 0xFF] (Cmd []), mk_ram (r_size r) (<[a := acc']> (r_blocks r)))
      else (0xFF, Data a acc', r)
  end.

Definition exchange (b : Z) (c : card) : Z * card :=
  if c_sel c then
    let '(x, p, r) := react b (c_phase c) (c_ram c) in (x, mk_card p true x r)
  else (0xFF, mk_card (c_phase c) false 0xFF (c_ram c)).

#[export] Instance sim_host : SpiHost := {
  Host := card;
  rd_en c := (0, c);
  wr_data b c := snd (exchange b c);
  rd_data c := (c_data c, c);
  wr_cs v c := mk_card (Cmd []) (v =? 0) (c_data c) (c_ram c);
  wr_clkdiv _ c := c;
  cpu_freq := 80000000;
  poll_limit := 1%nat;
}.

#[export] Program Instance sim_spi : SpiSpec := {
  exch b c := (u8 (fst (exchange b c)), snd (exchange b c));
  idle _ := True;
}.
Next Obligation. done. Qed.
Next Obligation. done. Qed.
Next Obligation.
  intros b c _. split; [done|]. split; [done|]. exists (c_data (snd (exchange b c))). split; [done|].
  unfold exchange. cbn. destruct (c_sel c); [|done]. by destruct (react b (c_phase c) (c_ram c)) as [[x p] r].
Qed.

Abbreviation sel p x r := (mk_card p true x r).

Lemma run_out q k x r : q <> [] -> Forall is_byte q ->
  run (replicate (length q) 0xFF) (sel (Out q k) x r) = (q, sel k (default 0 (last q)) r).
Proof.
  revert x. induction q as [|y q IH]; intros x Hne Hq; [done|]. apply Forall_cons in Hq as [Hy Hq].
  destruct q as [|z q].
  - cbn. by rewrite (u8_small y Hy).
  - change (length (y :: z :: q)) with (S (length (z :: q))). cbn [replicate run exch sim_spi].
    unfold exchange. cbn [c_sel c_phase c_ram react fst snd].
    rewrite IH by done. by rewrite (u8_small y Hy).
Qed.

Lemma run_data bs : forall a acc x r, (length acc + length bs = 512)%nat -> bs <> [] ->
  run bs (sel (Data a acc) x r) =
  (replicate (length bs) 0xFF, sel (Out [0xFF; 0xFF; 0xE5; 0; 0; 0xFF] (Cmd [])) 0xFF
     (mk_ram (r_size r) (<[a := acc ++ bs]> (r_blocks r)))).
Proof.
  induction bs as [|b bs IH]; intros a acc x r Hl Hne; [done|]. cbn [run exch sim_spi].
  unfold exchange. cbn [c_sel c_phase c_ram react]. rewrite length_app. cbn [length] in *.
  destruct bs as [|b2 bs].
  - cbn [length] in Hl. replace (length acc + 1)%nat with 512%nat by lia. done.
  - replace (length acc + 1 =? 512)%nat with false by (symmetry; apply Nat.eqb_neq; cbn in Hl; lia).
    cbn [fst snd]. rewrite IH; [|rewrite length_app; cbn in *; lia|done]. by rewrite <- app_assoc.
Qed.

Lemma be32_frame c a : 0 <= a < 2 ^ 32 -> be32 (drop 1 (frame c a)) = a.
Proof.
  intros Ha. change (be32 (drop 1 (frame c a))) with
    (((u8 (Z.shiftr a 24) * 256 + u8 (Z.shiftr a 16)) * 256 + u8 (Z.shiftr a 8)) * 256 + u8 a).
  unfold u8. rewrite !Z.shiftr_div_pow2 by lia.
  replace (2 ^ 24) with (2 ^ 8 * 2 ^ 8 * 2 ^ 8) by done. replace (2 ^ 16) with (2 ^ 8 * 2 ^ 8) by done.
  rewrite <- !Z.div_div by done. Z.div_mod_to_equations. lia.
Qed.

(** The six bytes of a command put the card in the phase of its answer. *)
Lemma run_cmd bs : forall acc x r, bs <> [] -> acc <> [] -> (length acc + length bs = 6)%nat ->
  run bs (sel (Cmd acc) x r) = (replicate (length bs) 0xFF, sel (answer (acc ++ bs) r) 0xFF r).
Proof.
  induction bs as [|b bs IH]; intros acc x r Hb Ha Hl; [done|]. cbn [run exch sim_spi length replicate].
  assert ((length acc =? 0)%nat = false) as Ha0 by (by destruct acc).
  unfold exchange. cbn [c_sel c_phase c_ram react]. rewrite Ha0, andb_false_r, length_app.
  cbn [length] in *. destruct bs as [|b2 bs].
  - cbn [length] in Hl. replace (length acc + 1)%nat with 6%nat by lia. done.
  - replace (length acc + 1 =? 6)%nat with false by (symmetry; apply Nat.eqb_neq; cbn in Hl; lia).
    cbn [fst snd]. rewrite IH; [|done|by destruct acc|rewrite length_app; cbn in *; lia]. by rewrite <- app_assoc.
Qed.

Lemma run_first b bs x r : b <> 0xFF -> length bs = 5%nat ->
  run (b :: bs) (sel (Cmd []) x r) = (replicate 6 0xFF, sel (answer (b :: bs) r) 0xFF r).
Proof.
  intros Hb Hl. cbn [run exch sim_spi]. unfold exchange.
  cbn [c_sel c_phase c_ram react length]. rewrite (proj2 (Z.eqb_neq _ _) Hb).
  cbn [andb app length Nat.eqb fst snd]. rewrite run_cmd; [|by destruct bs|done|cbn; lia]. by rewrite Hl.
Qed.

Lemma reselect_sim (c : card) : reselect c = sel (Cmd []) 0xFF (c_ram c).
Proof. done. Qed.

Lemma answer_read a r : 0 <= a < r_size r -> a < 2 ^ 32 -> answer (frame 17 a) r =
  Out ([0xFF; 0; 0xFF; SD_DATA_BEGIN_TOKEN] ++ r_get r a ++ [0; 0]) (Cmd []).
Proof. intros Ha Hb. unfold answer. rewrite be32_frame by lia. unfold r_ok. zdec. done. Qed.
Lemma answer_write a r : 0 <= a < r_size r -> a < 2 ^ 32 ->
  answer (frame 24 a) r = Out [0xFF; 0] (WaitTok a).
Proof. intros Ha Hb. unfold answer. rewrite be32_frame by lia. unfold r_ok. zdec. done. Qed.

(** The card answers a read with one byte of 0xFF, 0, one byte of 0xFF, the
    start token, the block and the CRC. *)
Lemma sim_read (c : card) a : ram_ready (c_ram c) -> 0 <= a < Z.min (r_size (c_ram c)) (2 ^ 32) ->
  run (frame 17 a ++ replicate (length ([0xFF; 0; 0xFF; SD_DATA_BEGIN_TOKEN] ++ r_get (c_ram c) a ++ [0; 0])) 0xFF)
    (reselect c)
  = (replicate 6 0xFF ++ [0xFF; 0; 0xFF; SD_DATA_BEGIN_TOKEN] ++ r_get (c_ram c) a ++ [0; 0],
     sel (Cmd []) 0 (c_ram c)).
Proof.
  intros Hr Ha. pose proof (ram_get_bytes _ a Hr) as [_ HF].
  rewrite run_app, reselect_sim. unfold frame at 1 2 3. rewrite run_first; [|done|done]. cbn [fst snd].
  fold (frame 17 a). rewrite answer_read by lia. rewrite run_out; [|done|].
  - cbn [fst snd]. by rewrite (app_assoc [_; _; _; _] (r_get _ _)), last_app, <- app_assoc.
  - repeat (apply Forall_cons; split; [unfold is_byte, SD_DATA_BEGIN_TOKEN; lia|]). apply Forall_app. split; [done|].
    repeat (apply Forall_cons; split; [unfold is_byte; lia|]). by apply Forall_nil.
Qed.

Lemma sim_write (c : card) a bs : ram_ready (c_ram c) -> 0 <= a < Z.min (r_size (c_ram c)) (2 ^ 32) ->
  byte_array 512 bs ->
  run (frame 24 a ++ replicate 2 0xFF ++ (SD_DATA_BEGIN_TOKEN :: bs) ++ replicate 6 0xFF) (reselect c)
  = (replicate 6 0xFF ++ [0xFF; 0] ++ replicate 513 0xFF ++ [0xFF; 0xFF; 0xE5; 0; 0; 0xFF],
     sel (Cmd []) 0xFF (mk_ram (r_size (c_ram c)) (<[a := bs]> (r_blocks (c_ram c))))).
Proof.
  intros Hr Ha [Hl _].
  rewrite run_app, reselect_sim. unfold frame at 1 2 3. rewrite run_first; [|done|done]. cbn [fst snd].
  fold (frame 24 a). rewrite answer_write by lia. rewrite (run_app (replicate 2 0xFF)).
  pose proof (run_out [0xFF; 0] (WaitTok a) 0xFF (c_ram c) ltac:(done)) as Ho. cbn [length] in Ho.
  rewrite Ho by (repeat (apply Forall_cons; split; [unfold is_byte; lia|]); by apply Forall_nil).
  cbn [fst snd]. rewrite run_app. cbn [run exch sim_spi]. unfold exchange.
  cbn [c_sel c_phase c_ram react Z.eqb Pos.eqb SD_DATA_BEGIN_TOKEN fst snd].
  rewrite (run_data bs a []); [|done|by destruct bs]. rewrite Hl. cbn [fst snd app].
  match goal with |- context [run (replicate 6 0xFF) (sel (Out ?q ?k) ?x ?r)] =>
    pose proof (run_out q k x r ltac:(done)) as Hq end. cbn [length] in Hq.
  rewrite Hq by (repeat (apply Forall_cons; split; [unfold is_byte; lia|]); by apply Forall_nil). done.
Qed.

#[export] Program Instance sim_card : SdCardSpec := {
  card_blocks c := r_get (c_ram c);
  card_size c := Z.min (r_size (c_ram c)) (2 ^ 32);
  card_ready c := ram_ready (c_ram c);
}.
Next Obligation. done. Qed.
Next Obligation. intros. cbn. lia. Qed.
Next Obligation. intros. by apply ram_get_bytes. Qed.
Next Obligation.
  intros c a Hr Ha. cbn in Hr, Ha. exists 1%nat, 1%nat, (replicate 6 0xFF), [0xFF], [0; 0]. eexists.
  do 6 (split; [first [done|lia|by apply Forall_singleton]|]).
  pose proof (sim_read c a Hr Ha) as E. rewrite !length_app, (proj1 (ram_get_bytes _ a Hr)) in E. by split; [exact E|].
Qed.
Next Obligation.
  intros c a bs Hr Ha Hb. cbn in Hr, Ha.
  exists 1%nat, 2%nat, 2%nat, (replicate 6 0xFF), (replicate 513 0xFF), 0xE5, 0xFF. eexists.
  do 8 (split; [first [done|lia]|]). split; [exact (sim_write c a bs Hr Ha Hb)|].
  destruct (ready_write (BlockDevSpec := ram_spec) (c_ram c) a bs Hr Ha Hb) as (r' & E & HR).
  cbn in E. unfold r_ok in E. revert E. zdec. intros [= <-]. exact HR.
Qed.

(** A selected card of 16 blocks. *)
Definition c0 : card := mk_card (Cmd []) true 0 (mk_ram 16 ∅).
Definition d0 : drv := mk_drv _ c0 (replicate 5 0) 0.

(** sd_init brings the card up and sets the block size. *)
Example sd_init_succeeds :
  option_map (fun '(e, d) => (e, sd_block_sz d)) (sd_init d0) = Some (SD_SUCCESS, 512).
Proof. vm_compute. reflexivity. Qed.

Lemma d0_ready : drv_ready d0.
Proof. split; [|done]. split; [cbn; lia|]. apply map_Forall_empty. Qed.

End SimCard.

Import SimCard.

Lemma sd_driver_correct_witness : exists d',
  sd_write_single_block 3 (replicate 512 7) SimCard.d0 = Some (SD_SUCCESS, d') /\
  card_blocks (d_host d') 3 = replicate 512 7.
Proof.
  destruct (sd_driver_correct SimCard.d0 3 (replicate 512 7) SimCard.d0_ready) as [_ (d' & E & _ & _ & Hb)].
  - cbn. lia.
  - split; [done|]. apply Forall_replicate. unfold is_byte. lia.
  - exists d'. split; [exact E|]. rewrite Hb by (cbn; lia). done.
Defined.
