(* ===== verification/FatTable.v ===== *)
(** FatTable: sectors, directory entry fields and the allocation table of
    the FAT32 library, libsd/fat32.c.

    The accessors of little-endian fields, loading the partition
    information, reading the table, and the two operations that change it:
    [fat_acquire_next_cluster] and [fat_free_cluster_chain].  Both loops of
    the former are bounded by the table; the loop of the latter follows the
    chain on the disk and has fuel. *)

From stdpp Require Import base numbers list gmap.
From S2P Require Import Prelude SdDisk.

(** What a run of the library depends on besides its state: the contents of
    uninitialised automatic arrays and the fuel of its unbounded loops. *)
Class FatEnv := {
  junk : Z -> Z;
  loop_fuel : nat;
}.

Definition FAT_SUCCESS := 0.
Definition FAT_FAIL := -1.
Definition PTABLE_BEGIN := 446.
Definition PTABLE_ENTRY_SIZE := 16.
Definition PTABLE_TYPE_OFFSET := 4.
Definition PTABLE_VOL_ADDR_OFFSET := 8.
Definition FAT_PARTITION_SIG_CHS := 0x0B.
Definition FAT_PARTITION_SIG_LBA := 0x0C.
Definition FAT_MAX_FILES := 16.
Definition FAT_MAX_SHORT_PATH := 81.
Definition FAT_MAX_LONG_PATH := 261.
Definition FAT_MAX_LONG_NAME := 255.
Definition FAT_FD_OFFSET := 3.
Definition FAT_DIR_ENTRY_FREE := 0xE5.
Definition FAT_DIR_ENTRY_LAST := 0x00.
Definition FAT_LAST_LONG := 0x40.
Definition FAT_TV_LAST (v : Z) : bool := 0x0FFFFFF8 <=? v.
Definition FAT_TV_BAD (v : Z) : bool := v =? 0x0FFFFFF7.
Definition FAT_TV_FREE (v : Z) : bool := v =? 0.
Definition FAT_DIR_ENTRY_WIDTH := 32.
Definition FAT_DIRECTORY := 0x10.
Definition FAT_ARCHIVE := 0x20.
Definition FAT_LONG_NAME_ENTRY := 0x0F.

Section FatTable.
Context `{BlockDev} {E : FatEnv}.
Local Open Scope fat_scope.

(** An automatic array of [n] elements before its first assignment. *)
Definition fresh (n : Z) : list Z := (fun i => u8 (junk i)) <$> seqZ 0 n.

Definition umin (a b : Z) : Z := if a <? b then a else b.

Definition fat_read_single_block (addr : Z) (buffer : list Z) : F (Z * list Z) :=
  r <- disk_read addr buffer 1;;
  if 0 =? fst r then fret (FAT_SUCCESS, snd r)
  else set_errno EIO;; fret (FAT_FAIL, snd r).

Definition fat_write_single_block (addr : Z) (buffer : list Z) : F Z :=
  r <- disk_write addr buffer 1;;
  if 0 =? r then fret FAT_SUCCESS
  else set_errno EIO;; fret FAT_FAIL.

(** The pointer [buf + off] is passed as [buf] and [off]. *)
Definition fat_get_uint32 (buf : list Z) (off : Z) : F Z :=
  b0 <- ld buf off;; b1 <- ld buf (off + 1);;
  b2 <- ld buf (off + 2);; b3 <- ld buf (off + 3);;
  fret (u32 (b0 + Z.shiftl b1 8 + Z.shiftl b2 16 + Z.shiftl b3 24)).
Definition fat_get_uint16 (buf : list Z) (off : Z) : F Z :=
  b0 <- ld buf off;; b1 <- ld buf (off + 1);;
  fret (u16 (b0 + Z.shiftl b1 8)).
Definition fat_get_uint8 (buf : list Z) (off : Z) : F Z := ld buf off.

Definition fat_set_uint32 (v : Z) (buf : list Z) (off : Z) : F (list Z) :=
  buf <- st buf off (u8 v);;
  buf <- st buf (off + 1) (u8 (Z.shiftr v 8));;
  buf <- st buf (off + 2) (u8 (Z.shiftr v 16));;
  st buf (off + 3) (u8 (Z.shiftr v 24)).
Definition fat_set_uint16 (v : Z) (buf : list Z) (off : Z) : F (list Z) :=
  buf <- st buf off (u8 v);;
  st buf (off + 1) (u8 (Z.shiftr (u16 v) 8)).
Definition fat_set_uint8 (v : Z) (buf : list Z) (off : Z) : F (list Z) :=
  st buf off (u8 v).

Definition fat_attrib_of_dir_entry (sector : list Z) (entry_idx : Z) : F Z :=
  ld sector (u32 (entry_idx * FAT_DIR_ENTRY_WIDTH + 11)).

Definition fat_first_sector_of_cluster (cluster : Z) : F Z :=
  p <- fget fat_pinfo;;
  fret (u32 (cluster_begin_addr p + (cluster - 2) * sectors_per_cluster p)).

Definition fat_cluster_of_dir_entry (sector : list Z) (entry_idx : Z) : F Z :=
  high <- fat_get_uint16 sector (u32 (entry_idx * FAT_DIR_ENTRY_WIDTH) + 0x14);;
  low <- fat_get_uint16 sector (u32 (entry_idx * FAT_DIR_ENTRY_WIDTH) + 0x1a);;
  fret (Z.lor low (u32 (Z.shiftl high 16))).

Definition fat_size_of_dir_entry (sector : list Z) (entry_idx : Z) : F Z :=
  fat_get_uint32 sector (u32 (entry_idx * FAT_DIR_ENTRY_WIDTH) + 0x1C).

(** ** Partition information *)

(** The fields of the volume ID sector and the ones derived from them. *)
Definition fat_read_volume_id (vol_begin : Z) (buffer : list Z) : F FatPartitionInfo :=
  bps <- fat_get_uint16 buffer 11;;
  spc <- fat_get_uint8 buffer 13;;
  nres <- fat_get_uint16 buffer 14;;
  nfats <- fat_get_uint8 buffer 16;;
  ndir <- fat_get_uint16 buffer 17;;
  ntotal <- fat_get_uint16 buffer 19;;
  media <- fat_get_uint8 buffer 21;;
  _ <- fat_get_uint16 buffer 22;;
  spf <- fat_get_uint32 buffer 0x24;;
  root <- fat_get_uint32 buffer 0x2C;;
  let fat_begin := u32 (vol_begin + nres) in
  let cluster_begin := u32 (fat_begin + nfats * spf) in
  fret (mk_pinfo vol_begin bps spc nres nfats ndir ntotal media spf root
          fat_begin cluster_begin (bps / FAT_DIR_ENTRY_WIDTH)
          (u32 (cluster_begin + (root - 2) * spc))).

(** The result and the partition information after the call: the caller's
    value where the code fails before assigning to it. *)
Definition fat_load_partition_info (idx : Z) (pinfo : FatPartitionInfo)
    : F (Z * FatPartitionInfo) :=
  r <- fat_read_single_block 0 (fresh 512);;
  let buffer := snd r in
  if negb (u8 (fst r) =? 0) then set_errno EIO;; fret (FAT_FAIL, pinfo)
  else if 4 <=? idx then set_errno EINVAL;; fret (FAT_FAIL, pinfo)
  else
    m0 <- ld buffer 510;;
    m1 <- (if negb (m0 =? 0x55) then ld buffer 511 else fret 0xAA);;
    if negb (m0 =? 0x55) && negb (m1 =? 0xAA) then set_errno EFAULT;; fret (FAT_FAIL, pinfo)
    else
      let pentry_begin := PTABLE_BEGIN + idx * PTABLE_ENTRY_SIZE in
      ptype <- fat_get_uint8 buffer (pentry_begin + PTABLE_TYPE_OFFSET);;
      if negb (ptype =? FAT_PARTITION_SIG_CHS) && negb (ptype =? FAT_PARTITION_SIG_LBA)
      then set_errno EBADF;; fret (FAT_FAIL, pinfo)
      else
        vol <- fat_get_uint32 buffer (pentry_begin + PTABLE_VOL_ADDR_OFFSET);;
        r <- fat_read_single_block vol buffer;;
        if negb (u8 (fst r) =? 0) then
          set_errno EIO;;
          fret (FAT_FAIL, mk_pinfo vol (bytes_per_sector pinfo) (sectors_per_cluster pinfo)
            (num_res_sectors pinfo) (num_fats pinfo) (num_dir_entries pinfo)
            (num_total_sectors pinfo) (media_desc_type pinfo) (sectors_per_fat pinfo)
            (root_dir_cluster pinfo) (fat_begin_addr pinfo) (cluster_begin_addr pinfo)
            (entries_per_sector pinfo) (root_dir_addr pinfo))
        else
          pinfo <- fat_read_volume_id vol (snd r);;
          set_errno 0;; fret (FAT_SUCCESS, pinfo).

Fixpoint load_first_partition_from (n : nat) (i : Z) (pinfo : FatPartitionInfo)
    : F (Z * FatPartitionInfo) :=
  match n with
  | O => fret (FAT_FAIL, pinfo)
  | S n' =>
      r <- fat_load_partition_info i pinfo;;
      if FAT_SUCCESS =? fst r then fret (FAT_SUCCESS, snd r)
      else load_first_partition_from n' (i + 1) (snd r)
  end.
Definition fat_load_first_partition_info (pinfo : FatPartitionInfo) : F (Z * FatPartitionInfo) :=
  load_first_partition_from 4 0 pinfo.

(** ** The table *)

(** The result and the value of [*tv] after the call. *)
Definition fat_get_table_value (cluster tv : Z) : F (Z * Z) :=
  p <- fget fat_pinfo;;
  let idx := u32 (cluster * 4) in
  let sec := u32 (fat_begin_addr p + idx / bytes_per_sector p) in
  let entry_idx := idx mod bytes_per_sector p in
  r <- fat_read_single_block sec (fresh (bytes_per_sector p));;
  if negb (0 =? fst r) then fret (FAT_FAIL, tv)
  else
    v <- fat_get_uint32 (snd r) entry_idx;;
    fret (FAT_SUCCESS, Z.land v 0x0FFFFFFF).

(** The inner loop of [fat_acquire_next_cluster]: [Some] is the result and
    [*cluster] of a return from inside the loop. *)
Fixpoint acquire_in_sector (n : nat) (j : Z) (link_to_new : bool)
    (cluster sec_off_start ent_idx_in_sec_start cur_sec_in_fat entries : Z)
    (orig_sec buf : list Z) : F (option (Z * Z)) :=
  match n with
  | O => fret None
  | S n' =>
      let continue := acquire_in_sector n' (j + 1) link_to_new cluster sec_off_start
        ent_idx_in_sec_start cur_sec_in_fat entries orig_sec buf in
      let cur_ent_in_sec := u32 (ent_idx_in_sec_start + j) mod entries in
      let cur_ent_in_fat := u32 (cur_sec_in_fat * entries + cur_ent_in_sec) in
      v <- fat_get_uint32 buf (4 * cur_ent_in_sec);;
      let tv := Z.land v 0x0FFFFFFF in
      if FAT_TV_BAD tv then continue
      else if FAT_TV_LAST tv then continue
      else if negb (FAT_TV_FREE tv) then continue
      else
        let next_cluster := cur_ent_in_fat in
        if next_cluster =? 0 then continue
        else
          p <- fget fat_pinfo;;
          let fat_start := fat_begin_addr p in
          let in_buf := sec_off_start =? cur_sec_in_fat in
          r <- (if link_to_new then
                  let mark_next_buf := if in_buf then buf else orig_sec in
                  mark_next_buf <- fat_set_uint32 next_cluster mark_next_buf
                                     (4 * ent_idx_in_sec_start);;
                  r <- fat_write_single_block (u32 (fat_start + sec_off_start)) mark_next_buf;;
                  fret (r, if in_buf then mark_next_buf else buf)
                else fret (FAT_SUCCESS, buf));;
          if negb (FAT_SUCCESS =? fst r) then fret (Some (FAT_FAIL, next_cluster))
          else
            buf <- fat_set_uint32 0x0FFFFFFF (snd r) (4 * cur_ent_in_sec);;
            r <- fat_write_single_block (u32 (fat_start + cur_sec_in_fat)) buf;;
            if negb (FAT_SUCCESS =? r) then fret (Some (FAT_FAIL, next_cluster))
            else fret (Some (FAT_SUCCESS, next_cluster))
  end.

(** The outer loop, over the sectors of the table. *)
Fixpoint acquire_in_fat (n : nat) (i : Z) (link_to_new : bool)
    (cluster sec_off_start ent_idx_in_sec_start entries : Z)
    (orig_sec buf : list Z) : F (Z * Z) :=
  match n with
  | O => set_errno ENOSPC;; fret (FAT_FAIL, cluster)
  | S n' =>
      p <- fget fat_pinfo;;
      let cur_sec_in_fat := u32 (sec_off_start + i) mod sectors_per_fat p in
      r <- fat_read_single_block (u32 (fat_begin_addr p + cur_sec_in_fat)) buf;;
      if negb (FAT_SUCCESS =? fst r) then fret (FAT_FAIL, cluster)
      else
        o <- acquire_in_sector (Z.to_nat entries) 0 link_to_new cluster sec_off_start
               ent_idx_in_sec_start cur_sec_in_fat entries orig_sec (snd r);;
        match o with
        | Some res => fret res
        | None => acquire_in_fat n' (i + 1) link_to_new cluster sec_off_start
                    ent_idx_in_sec_start entries orig_sec (snd r)
        end
  end.

(** The result and the value of [*cluster] after the call. *)
Definition fat_acquire_next_cluster (cluster : Z) (link_to_new : bool) : F (Z * Z) :=
  r <- fat_get_table_value cluster 0;;
  let tv := snd r in
  if negb (FAT_SUCCESS =? fst r) then fret (FAT_FAIL, cluster)
  else if FAT_TV_BAD tv then set_errno EBADF;; fret (FAT_FAIL, cluster)
  else if FAT_TV_FREE tv then set_errno EBADF;; fret (FAT_FAIL, cluster)
  else if negb (FAT_TV_LAST tv) then fret (FAT_SUCCESS, tv)
  else
    p <- fget fat_pinfo;;
    let secsz := bytes_per_sector p in
    let entries := secsz / 4 in
    let ent_idx_in_sec_start := cluster mod entries in
    let sec_off_start := cluster / entries in
    r <- fat_read_single_block (u32 (fat_begin_addr p + sec_off_start)) (fresh secsz);;
    if negb (FAT_SUCCESS =? fst r) then fret (FAT_FAIL, cluster)
    else
      acquire_in_fat (Z.to_nat (sectors_per_fat p)) 0 link_to_new cluster sec_off_start
        ent_idx_in_sec_start entries (snd r) (fresh secsz).

(** The loop of [fat_free_cluster_chain]. *)
Fixpoint free_cluster_chain_from (fuel : nat) (tv : Z) (buf : list Z) : F unit :=
  match fuel with
  | O => stop OutOfFuel
  | S fuel' =>
      p <- fget fat_pinfo;;
      let byteoff := u32 (tv * 4) in
      let sec := u32 (fat_begin_addr p + byteoff / bytes_per_sector p) in
      let byteoff_in_sec := byteoff mod bytes_per_sector p in
      r <- fat_read_single_block sec buf;;
      if negb (FAT_SUCCESS =? fst r) then fret tt
      else
        v <- fat_get_uint32 (snd r) byteoff_in_sec;;
        let tv := Z.land v 0x0FFFFFFF in
        if FAT_TV_BAD tv then set_errno EBADF
        else if FAT_TV_FREE tv then set_errno EBADF
        else
          buf <- fat_set_uint32 0 (snd r) byteoff_in_sec;;
          r <- fat_write_single_block sec buf;;
          if negb (FAT_SUCCESS =? r) then fret tt
          else if negb (FAT_TV_LAST tv) then free_cluster_chain_from fuel' tv buf
          else fret tt
  end.

Definition fat_free_cluster_chain (start_cluster : Z) : F Z :=
  p <- fget fat_pinfo;;
  set_errno 0;;
  free_cluster_chain_from loop_fuel start_cluster (fresh (bytes_per_sector p));;
  e <- fget s_errno;;
  fret (if e =? 0 then FAT_SUCCESS else FAT_FAIL).

End FatTable.

(** ** Little-endian fields *)

Definition le32 (b : list Z) (off : Z) : Z :=
  at_ b off + 2 ^ 8 * at_ b (off + 1) + 2 ^ 16 * at_ b (off + 2) + 2 ^ 24 * at_ b (off + 3).
Definition le16 (b : list Z) (off : Z) : Z := at_ b off + 2 ^ 8 * at_ b (off + 1).

Definition put (i v : Z) (b : list Z) : list Z := <[Z.to_nat i := v]> b.
Definition put16 (v : Z) (b : list Z) (off : Z) : list Z :=
  put (off + 1) (u8 (Z.shiftr (u16 v) 8)) (put off (u8 v) b).
Definition put32 (v : Z) (b : list Z) (off : Z) : list Z :=
  put (off + 3) (u8 (Z.shiftr v 24)) (put (off + 2) (u8 (Z.shiftr v 16))
    (put (off + 1) (u8 (Z.shiftr v 8)) (put off (u8 v) b))).

Lemma length_put i v b : length (put i v b) = length b.
Proof. apply length_insert. Qed.
Lemma length_put32 v b off : length (put32 v b off) = length b.
Proof. unfold put32. by rewrite !length_put. Qed.
Lemma length_put16 v b off : length (put16 v b off) = length b.
Proof. unfold put16. by rewrite !length_put. Qed.

Lemma at_put_eq i v b : 0 <= i < Z.of_nat (length b) -> at_ (put i v b) i = v.
Proof.
  intros Hi. unfold at_, put. rewrite nth_lookup, list_lookup_insert_eq by lia. done.
Qed.
Lemma at_put_ne i j v b : 0 <= i -> 0 <= j -> i <> j -> at_ (put i v b) j = at_ b j.
Proof. intros. unfold at_, put. rewrite !nth_lookup, list_lookup_insert_ne by lia. done. Qed.

Lemma put_bytes n i v b : byte_array n b -> is_byte v -> byte_array n (put i v b).
Proof. intros [Hl Hb] Hv. split; [by rewrite length_put|]. by apply Forall_insert. Qed.
Lemma u8_is_byte v : is_byte (u8 v).
Proof. apply u8_range. Qed.
#[export] Hint Resolve put_bytes u8_is_byte : word.
Lemma put32_bytes n v b off : byte_array n b -> byte_array n (put32 v b off).
Proof. intros. unfold put32. auto with word. Qed.
Lemma put16_bytes n v b off : byte_array n b -> byte_array n (put16 v b off).
Proof. intros. unfold put16. auto with word. Qed.
#[export] Hint Resolve put32_bytes put16_bytes : word.

(** Split the reads of a goal at the cells that were written. *)
Ltac puts := rewrite ?length_put, ?length_put32, ?length_put16 in *;
  repeat first
  [ rewrite at_put_eq by (rewrite ?length_put; lia)
  | rewrite at_put_ne by lia ].

Lemma at_put32_ne v b off j : 0 <= off -> 0 <= j -> j < off \/ off + 4 <= j ->
  at_ (put32 v b off) j = at_ b j.
Proof. intros. unfold put32. by puts. Qed.

Lemma le_word v : 0 <= v < 2 ^ 32 ->
  u8 v + 2 ^ 8 * u8 (Z.shiftr v 8) + 2 ^ 16 * u8 (Z.shiftr v 16) + 2 ^ 24 * u8 (Z.shiftr v 24) = v.
Proof.
  intros Hv. unfold u8. rewrite !Z.shiftr_div_pow2 by lia.
  change (2 ^ 16) with (2 ^ 8 * 2 ^ 8). change (2 ^ 24) with (2 ^ 8 * 2 ^ 8 * 2 ^ 8).
  rewrite <- !Z.div_div by lia. set (a := v / 2 ^ 8). set (b := a / 2 ^ 8). set (c := b / 2 ^ 8).
  pose proof (Z.div_mod v (2 ^ 8)). pose proof (Z.div_mod a (2 ^ 8)).
  pose proof (Z.div_mod b (2 ^ 8)).
  assert (0 <= c < 2 ^ 8).
  { unfold c, b, a. rewrite !Z.div_div by lia. split; [apply Z.div_pos | apply Z.div_lt_upper_bound]; lia. }
  rewrite (Z.mod_small c) by lia. subst a b c. lia.
Qed.

Lemma le32_put32 v b off : 0 <= v < 2 ^ 32 -> 0 <= off -> off + 4 <= Z.of_nat (length b) ->
  le32 (put32 v b off) off = v.
Proof. intros. unfold le32, put32. puts. by apply le_word. Qed.
Lemma le32_put32_ne v b off j : 0 <= off -> 0 <= j -> j + 4 <= off \/ off + 4 <= j ->
  le32 (put32 v b off) j = le32 b j.
Proof. intros. unfold le32. by rewrite !at_put32_ne by lia. Qed.

Lemma le16_put16 v b off : 0 <= v < 2 ^ 16 -> 0 <= off -> off + 2 <= Z.of_nat (length b) ->
  le16 (put16 v b off) off = v.
Proof.
  intros Hv H0 H1. unfold le16, put16. puts. rewrite u16_small by lia.
  unfold u8. rewrite Z.shiftr_div_pow2 by lia.
  pose proof (Z.div_mod v (2 ^ 8)).
  assert (0 <= v / 2 ^ 8 < 2 ^ 8) by (split; [apply Z.div_pos | apply Z.div_lt_upper_bound]; lia).
  rewrite (Z.mod_small (v / 2 ^ 8)) by lia. lia.
Qed.

Lemma le32_range n b off : byte_array n b -> 0 <= le32 b off < 2 ^ 32.
Proof.
  intros Hb. unfold le32. pose proof (byte_array_at n b off Hb).
  pose proof (byte_array_at n b (off + 1) Hb). pose proof (byte_array_at n b (off + 2) Hb).
  pose proof (byte_array_at n b (off + 3) Hb). unfold is_byte in *. lia.
Qed.

Section Fields.
Context `{BlockDev}.

Lemma wp_fat_get_uint32 n b off s Q :
  byte_array n b -> 0 <= off -> off + 4 <= Z.of_nat (length b) ->
  Q (le32 b off) s -> wp (fat_get_uint32 b off) s Q.
Proof.
  intros Hb H0 H1 HQ. unfold fat_get_uint32.
  repeat (wstep; apply wp_ld; [lia|]). wstep.
  rewrite !Z.shiftl_mul_pow2, u32_small by (try apply (le32_range n b off) in Hb; unfold le32 in *; lia).
  unfold le32 in HQ.
  replace (_ + _ * 2 ^ 8 + _ * 2 ^ 16 + _ * 2 ^ 24) with (at_ b off + 2 ^ 8 * at_ b (off + 1)
    + 2 ^ 16 * at_ b (off + 2) + 2 ^ 24 * at_ b (off + 3)) by lia. done.
Qed.

Lemma wp_fat_get_uint16 n b off s Q :
  byte_array n b -> 0 <= off -> off + 2 <= Z.of_nat (length b) ->
  Q (le16 b off) s -> wp (fat_get_uint16 b off) s Q.
Proof.
  intros Hb H0 H1 HQ. unfold fat_get_uint16.
  repeat (wstep; apply wp_ld; [lia|]). wstep.
  pose proof (byte_array_at n b off Hb). pose proof (byte_array_at n b (off + 1) Hb).
  unfold is_byte in *. rewrite Z.shiftl_mul_pow2, u16_small by lia.
  unfold le16 in HQ. rewrite (Z.mul_comm _ (2 ^ 8)). done.
Qed.

Lemma wp_fat_set_uint32 v b off s Q :
  0 <= off -> off + 4 <= Z.of_nat (length b) ->
  Q (put32 v b off) s -> wp (fat_set_uint32 v b off) s Q.
Proof.
  intros H0 H1 HQ. unfold fat_set_uint32.
  wstep; apply wp_st; [lia|]. repeat (wstep; apply wp_st; [rewrite ?length_insert; lia|]).
  apply wp_st; [rewrite ?length_insert; lia|]. exact HQ.
Qed.

Lemma wp_fat_set_uint16 v b off s Q :
  0 <= off -> off + 2 <= Z.of_nat (length b) ->
  Q (put16 v b off) s -> wp (fat_set_uint16 v b off) s Q.
Proof.
  intros H0 H1 HQ. unfold fat_set_uint16.
  wstep; apply wp_st; [lia|]. apply wp_st; [rewrite ?length_insert; lia|]. exact HQ.
Qed.

End Fields.

(** ** The table as a map from clusters to entries *)

Record vol_geom (p : FatPartitionInfo) (size : Z) : Prop := mk_vol_geom {
  geom_bps : bytes_per_sector p = 512;
  geom_spc : 0 < sectors_per_cluster p < 256;
  geom_spf : 0 < sectors_per_fat p < 2 ^ 21;
  geom_fat : 0 <= fat_begin_addr p;
  geom_data : fat_begin_addr p + sectors_per_fat p <= cluster_begin_addr p;
  geom_size : cluster_begin_addr p + 128 * sectors_per_fat p * sectors_per_cluster p <= size;
}.

(** The number of table entries, a table entry on the disk, its 28-bit
    value, and the contents of the disk after writing an entry. *)
Definition n_entries (p : FatPartitionInfo) : Z := 128 * sectors_per_fat p.
Definition is_cluster (p : FatPartitionInfo) (c : Z) : Prop := 0 <= c < n_entries p.
Definition entry_sec (p : FatPartitionInfo) (c : Z) : Z := fat_begin_addr p + c / 128.
Definition entry (p : FatPartitionInfo) (g : Z -> list Z) (c : Z) : Z :=
  le32 (g (entry_sec p c)) (4 * (c mod 128)).
Definition tval (p : FatPartitionInfo) (g : Z -> list Z) (c : Z) : Z :=
  Z.land (entry p g c) 0x0FFFFFFF.
Definition set_entry (p : FatPartitionInfo) (c v : Z) (g : Z -> list Z) (x : Z) : list Z :=
  if decide (x = entry_sec p c) then put32 v (g x) (4 * (c mod 128)) else g x.

(** The sectors of the table. *)
Definition in_table (p : FatPartitionInfo) (x : Z) : Prop :=
  fat_begin_addr p <= x < fat_begin_addr p + sectors_per_fat p.

Lemma tval_range p g c : 0 <= tval p g c < 2 ^ 28.
Proof. unfold tval. change 0x0FFFFFFF with (Z.ones 28). rewrite Z.land_ones by lia. apply Z.mod_pos_bound. lia. Qed.

Lemma entry_in_table p c : is_cluster p c -> in_table p (entry_sec p c).
Proof.
  unfold is_cluster, n_entries, in_table, entry_sec. intros.
  pose proof (Z.div_pos c 128). pose proof (Z.div_lt_upper_bound c 128 (sectors_per_fat p)). lia.
Qed.

Lemma entry_inj p c c' :
  entry_sec p c = entry_sec p c' -> c mod 128 = c' mod 128 -> c = c'.
Proof.
  unfold entry_sec. intros. rewrite (Z.div_mod c 128), (Z.div_mod c' 128) by lia. lia.
Qed.

Lemma entry_set p g c v c' :
  length (g (entry_sec p c)) = 512%nat -> 0 <= v < 2 ^ 32 ->
  entry p (set_entry p c v g) c' = if decide (c' = c) then v else entry p g c'.
Proof.
  intros Hl Hv. unfold entry, set_entry.
  pose proof (Z.mod_pos_bound c 128). pose proof (Z.mod_pos_bound c' 128).
  destruct (decide (c' = c)) as [->|Hne].
  - rewrite decide_True by done. apply le32_put32; [done|lia|]. rewrite Hl. lia.
  - destruct (decide (entry_sec p c' = entry_sec p c)) as [He|He]; [|done].
    rewrite He. apply le32_put32_ne; [lia..|].
    assert (c' mod 128 <> c mod 128) by (intros ?; by apply Hne, (entry_inj p)). lia.
Qed.

Lemma tval_set p g c v c' :
  length (g (entry_sec p c)) = 512%nat -> 0 <= v < 2 ^ 28 ->
  tval p (set_entry p c v g) c' = if decide (c' = c) then v else tval p g c'.
Proof.
  intros Hl Hv. unfold tval. rewrite entry_set by (done || lia).
  destruct (decide (c' = c)); [|done].
  change 0x0FFFFFFF with (Z.ones 28). rewrite Z.land_ones, Z.mod_small by lia. done.
Qed.

Lemma set_entry_outside p g c v x :
  is_cluster p c -> ~ in_table p x -> set_entry p c v g x = g x.
Proof.
  intros Hc Hx. unfold set_entry. rewrite decide_False; [done|].
  intros ->. by apply Hx, entry_in_table.
Qed.

Lemma length_set_entry p g c v x : length (set_entry p c v g x) = length (g x).
Proof. unfold set_entry. case_decide; [by rewrite length_put32|done]. Qed.

(** Table functions agree on disks that agree on the table. *)
Lemma entry_ext p g g' c : (forall x, in_table p x -> g x = g' x) ->
  is_cluster p c -> entry p g c = entry p g' c.
Proof. intros Hg Hc. unfold entry. rewrite Hg; [done|by apply entry_in_table]. Qed.

Lemma idx_div c : (c * 4) / 512 = c / 128.
Proof. replace 512 with (128 * 4) by done. apply Z.div_mul_cancel_r; lia. Qed.
Lemma idx_mod c : (c * 4) mod 512 = 4 * (c mod 128).
Proof. replace 512 with (128 * 4) by done. rewrite Z.mul_mod_distr_r by lia. lia. Qed.

Section Table.
Context `{BlockDevSpec} {E : FatEnv}.

Definition vol_ok (s : sys) : Prop := disk_ok s /\ vol_geom (fat_pinfo s) (cap s).

Lemma vol_ok_step s e g s' : vol_ok s -> disk_step s e g s' -> vol_ok s'.
Proof.
  intros [Hd Hg] Hs. split; [apply Hs|].
  by rewrite (disk_step_pinfo _ _ _ _ Hs), (step_cap _ _ _ _ Hs).
Qed.

Lemma length_fresh n : 0 <= n -> length (fresh n) = Z.to_nat n.
Proof. intros. unfold fresh. by rewrite length_fmap, length_seqZ. Qed.

Lemma geom_cap p size : vol_geom p size ->
  forall x, in_table p x -> 0 <= x < size.
Proof.
  intros [] x. unfold in_table. intros.
  assert (0 <= 128 * sectors_per_fat p * sectors_per_cluster p) by nia. lia.
Qed.

Lemma wp_fat_read_into s a buf Q :
  disk_ok s -> 0 <= a < cap s -> (512 <= length buf)%nat ->
  (forall s', disk_step s 0 (blk s) s' -> Q (FAT_SUCCESS, blit 0 (blk s a) buf) s') ->
  wp (fat_read_single_block a buf) s Q.
Proof.
  intros Hok Ha Hl HQ. unfold fat_read_single_block. wstep.
  apply wp_disk_read1; [done..|]. intros s' Hs. cbn [fst snd Z.eqb]. by apply HQ.
Qed.

Lemma wp_fat_read s a buf Q :
  disk_ok s -> 0 <= a < cap s -> length buf = 512%nat ->
  (forall s', disk_step s 0 (blk s) s' -> Q (FAT_SUCCESS, blk s a) s') ->
  wp (fat_read_single_block a buf) s Q.
Proof.
  intros Hok Ha Hl HQ. pose proof (blk_bytes s a Hok Ha) as [Hb _].
  apply wp_fat_read_into; [done|done|lia|]. rewrite blit_all by congruence. done.
Qed.

Lemma wp_fat_write_from s a buf Q :
  disk_ok s -> 0 <= a < cap s -> (512 <= length buf)%nat -> byte_array 512 (slice buf 0 512) ->
  (forall s', disk_step s 0 (fun x => if decide (x = a) then slice buf 0 512 else blk s x) s' ->
     Q FAT_SUCCESS s') ->
  wp (fat_write_single_block a buf) s Q.
Proof.
  intros Hok Ha Hl Hb HQ. unfold fat_write_single_block. wstep.
  apply wp_disk_write1; [done..|]. intros s' Hs. cbn [Z.eqb]. by apply HQ.
Qed.

Lemma wp_fat_write s a buf Q :
  disk_ok s -> 0 <= a < cap s -> byte_array 512 buf ->
  (forall s', disk_step s 0 (fun x => if decide (x = a) then buf else blk s x) s' ->
     Q FAT_SUCCESS s') ->
  wp (fat_write_single_block a buf) s Q.
Proof.
  intros Hok Ha Hl HQ. pose proof (slice_all buf 512) as Hs. rewrite (proj1 Hl) in Hs.
  apply wp_fat_write_from; rewrite ?Hs by done; [done..| |done|done]. destruct Hl as [-> _]. lia.
Qed.

(** Address arithmetic of the table code. *)
Lemma cluster_idx s c : vol_ok s -> is_cluster (fat_pinfo s) c -> u32 (c * 4) = c * 4.
Proof.
  intros [_ []]. unfold is_cluster, n_entries. intros. apply u32_small. lia.
Qed.
Lemma entry_sec_u32 s c : vol_ok s -> is_cluster (fat_pinfo s) c ->
  u32 (fat_begin_addr (fat_pinfo s) + c / 128) = entry_sec (fat_pinfo s) c /\
  0 <= entry_sec (fat_pinfo s) c < cap s.
Proof.
  intros [Hd Hg] Hc. pose proof (geom_cap _ _ Hg _ (entry_in_table _ _ Hc)).
  split; [|done]. by apply (u32_addr s).
Qed.
Lemma table_block s c : vol_ok s -> is_cluster (fat_pinfo s) c ->
  byte_array 512 (blk s (entry_sec (fat_pinfo s) c)).
Proof. intros Hv Hc. apply blk_bytes; [apply Hv|]. by apply entry_sec_u32. Qed.

Lemma wp_fat_get_table_value s c tv Q :
  vol_ok s -> is_cluster (fat_pinfo s) c ->
  (forall s', disk_step s 0 (blk s) s' -> Q (FAT_SUCCESS, tval (fat_pinfo s) (blk s) c) s') ->
  wp (fat_get_table_value c tv) s Q.
Proof.
  intros Hv Hc HQ. destruct (entry_sec_u32 s c Hv Hc) as [Hsec Hr].
  pose proof (table_block s c Hv Hc) as Hb. pose proof (Z.mod_pos_bound c 128).
  unfold fat_get_table_value. wstep. wstep.
  rewrite (cluster_idx s) by done. rewrite (geom_bps _ _ (proj2 Hv)), idx_div, idx_mod, Hsec.
  wstep. apply wp_fat_read; [apply Hv|done|by rewrite length_fresh|].
  intros s' Hs. cbn [fst snd negb Z.eqb FAT_SUCCESS].
  wstep. eapply wp_fat_get_uint32; [done|lia|destruct Hb as [-> _]; lia|].
  wstep. by apply HQ.
Qed.

(** ** Cluster chains *)

(** The chain that starts at [c] and runs through the clusters [l]. *)
Inductive chain (p : FatPartitionInfo) (g : Z -> list Z) : Z -> list Z -> Prop :=
| chain_last c :
    is_cluster p c -> FAT_TV_LAST (tval p g c) = true -> chain p g c [c]
| chain_next c l :
    is_cluster p c ->
    FAT_TV_LAST (tval p g c) = false -> FAT_TV_BAD (tval p g c) = false ->
    FAT_TV_FREE (tval p g c) = false ->
    chain p g (tval p g c) l -> chain p g c (c :: l).

Lemma chain_head p g c l : chain p g c l -> exists l', l = c :: l'.
Proof. intros []; eauto. Qed.

Lemma chain_clusters p g c l : chain p g c l -> Forall (is_cluster p) l.
Proof. induction 1; auto using List.Forall_cons, List.Forall_nil. Qed.

Lemma chain_det p g c l l' : chain p g c l -> chain p g c l' -> l = l'.
Proof.
  intros Hc. revert l'. induction Hc as [c Hi Hl|c l Hi Hl Hb Hf Hc IH]; intros l'.
  - inversion 1; [done|congruence].
  - inversion 1; [congruence|]. f_equal. by apply IH.
Qed.

Lemma chain_suffix p g c l1 d l2 : chain p g c (l1 ++ d :: l2) -> chain p g d (d :: l2).
Proof.
  revert c. induction l1 as [|x l1 IH]; intros c Hc.
  - destruct (chain_head _ _ _ _ Hc) as [l' [= <- _]]. done.
  - inversion Hc as [? ? ? Hx Hnil|? l Hi Hl Hb Hf Hc']; subst; [by destruct l1|]. by apply (IH _ Hc').
Qed.

(** A chain that ends visits no cluster twice. *)
Lemma chain_NoDup p g c l : chain p g c l -> NoDup l.
Proof.
  induction 1 as [c|c l Hi Hl Hb Hf Hc IH]; [apply NoDup_singleton|].
  apply NoDup_cons_2; [|done]. intros (l1 & l2 & ->)%list_elem_of_split.
  pose proof (chain_suffix _ _ _ _ _ _ Hc) as Hs.
  assert (chain p g c (c :: l1 ++ c :: l2)) as Hc2 by (by apply chain_next).
  pose proof (f_equal length (chain_det _ _ _ _ _ Hs Hc2)) as Hlen.
  cbn in Hlen. rewrite length_app in Hlen. cbn in Hlen. lia.
Qed.

Lemma chain_frame p g g' c l :
  (forall d, d ∈ l -> tval p g' d = tval p g d) -> chain p g c l -> chain p g' c l.
Proof.
  intros Hg Hc. induction Hc as [c|c l Hi Hl Hb Hf Hc IH].
  - constructor; [done|]. rewrite Hg; [done|by apply list_elem_of_singleton].
  - assert (tval p g' c = tval p g c) as He by (apply Hg; left).
    constructor; rewrite ?He; try done. apply IH. intros d Hd. apply Hg. by right.
Qed.

(** Clearing the entries of [l]. *)
Definition clear_entries (p : FatPartitionInfo) (l : list Z) (g : Z -> list Z) : Z -> list Z :=
  fold_left (fun g c => set_entry p c 0 g) l g.

Lemma length_clear p l g x : length (clear_entries p l g x) = length (g x).
Proof.
  revert g. induction l as [|c l IH]; intros g; cbn; [done|].
  unfold clear_entries in IH. by rewrite IH, length_set_entry.
Qed.

Lemma entry_clear p l g c :
  (forall d, d ∈ l -> length (g (entry_sec p d)) = 512%nat) ->
  entry p (clear_entries p l g) c = if decide (c ∈ l) then 0 else entry p g c.
Proof.
  revert g. induction l as [|d l IH]; intros g Hl; cbn; [done|].
  unfold clear_entries in IH. rewrite IH; clear IH.
  - rewrite entry_set by (lia || apply Hl; left).
    destruct (decide (c ∈ l)).
    + rewrite decide_True by (by right). done.
    + destruct (decide (c = d)) as [->|].
      * rewrite decide_True by left. done.
      * rewrite decide_False; [done|]. rewrite elem_of_cons. tauto.
  - intros x Hx. rewrite length_set_entry. apply Hl. by right.
Qed.

Lemma clear_outside p l g x :
  Forall (is_cluster p) l -> ~ in_table p x -> clear_entries p l g x = g x.
Proof.
  intros Hl Hx. revert g. induction Hl as [|c l Hc Hl IH]; intros g; cbn; [done|].
  unfold clear_entries in IH. rewrite IH. by apply set_entry_outside.
Qed.

Lemma clear_ext p l (g g' : Z -> list Z) (D : Z -> Prop) :
  (forall x, D x -> g x = g' x) ->
  forall x, D x -> clear_entries p l g x = clear_entries p l g' x.
Proof.
  revert g g'. induction l as [|c l IH]; intros g g' Hg x Hx; cbn; [by apply Hg|].
  apply IH; [|done]. intros y Hy. unfold set_entry. by rewrite Hg.
Qed.

(** The contents of the disk after writing back a table sector. *)
Lemma write_entry p g c v x :
  (if decide (x = entry_sec p c) then put32 v (g (entry_sec p c)) (4 * (c mod 128)) else g x)
  = set_entry p c v g x.
Proof. unfold set_entry. by destruct (decide (x = _)) as [->|]. Qed.

(** One round of the loop. *)
Lemma wp_free_round fuel c s buf Q :
  let p := fat_pinfo s in
  let v := tval p (blk s) c in
  vol_ok s -> is_cluster p c -> length buf = 512%nat ->
  (FAT_TV_BAD v || FAT_TV_FREE v = true ->
     forall s', disk_step s EBADF (blk s) s' -> Q tt s') ->
  (FAT_TV_BAD v || FAT_TV_FREE v = false ->
     forall s' buf', disk_step s 0 (set_entry p c 0 (blk s)) s' -> length buf' = 512%nat ->
       if FAT_TV_LAST v then Q tt s' else wp (free_cluster_chain_from fuel v buf') s' Q) ->
  wp (free_cluster_chain_from (S fuel) c buf) s Q.
Proof.
  intros p v Hv Hc Hl Herr Hstep. cbn [free_cluster_chain_from].
  destruct (entry_sec_u32 s c Hv Hc) as [Hsec Hr]. fold p in Hsec, Hr.
  pose proof (table_block s c Hv Hc) as Hb. fold p in Hb. pose proof (Z.mod_pos_bound c 128).
  wstep. wstep. rewrite (cluster_idx s) by done. fold p.
  rewrite (geom_bps p _ (proj2 Hv)), idx_div, idx_mod, Hsec.
  wstep. apply wp_fat_read; [apply Hv|done|done|]. intros s1 Hs1.
  cbn [fst snd negb Z.eqb FAT_SUCCESS].
  wstep. eapply wp_fat_get_uint32; [done|lia|destruct Hb as [-> _]; lia|].
  change (Z.land (le32 _ _) _) with v.
  destruct (FAT_TV_BAD v); [wstep; by apply Herr, (disk_step_set_errno _ 0)|].
  destruct (FAT_TV_FREE v); [wstep; by apply Herr, (disk_step_set_errno _ 0)|].
  wstep. apply wp_fat_set_uint32; [lia|destruct Hb as [-> _]; lia|].
  wstep. apply wp_fat_write; [apply Hs1|by rewrite (step_cap _ _ _ _ Hs1)|auto with word|].
  intros s2 Hs2. cbn [negb Z.eqb FAT_SUCCESS].
  specialize (Hstep eq_refl s2 (put32 0 (blk s (entry_sec p c)) (4 * (c mod 128)))).
  destruct (FAT_TV_LAST v); cbn [negb]; [wstep|]; apply Hstep;
    try (rewrite length_put32; by destruct Hb).
  all: eapply disk_step_ext; [by eapply disk_step_trans|]; intros x Hx; cbn;
    rewrite <- write_entry; case_decide; [done|]; by apply (step_blk _ _ _ _ Hs1).
Qed.

(** The table after a round. *)
Lemma tval_after_free s c e s' :
  vol_ok s -> is_cluster (fat_pinfo s) c ->
  disk_step s e (set_entry (fat_pinfo s) c 0 (blk s)) s' ->
  forall x, is_cluster (fat_pinfo s) x ->
    tval (fat_pinfo s) (blk s') x = if decide (x = c) then 0 else tval (fat_pinfo s) (blk s) x.
Proof.
  intros Hv Hc Hs x Hx. rewrite <- tval_set; [|by destruct (table_block s c Hv Hc)|lia].
  unfold tval. f_equal. apply entry_ext; [|done]. intros y Hy.
  apply (step_blk _ _ _ _ Hs). by apply (geom_cap _ _ (proj2 Hv)).
Qed.

Lemma wp_free_cluster_chain_from l : forall fuel c s buf Q,
  vol_ok s -> chain (fat_pinfo s) (blk s) c l -> (length l <= fuel)%nat ->
  length buf = 512%nat ->
  (forall s', disk_step s 0 (clear_entries (fat_pinfo s) l (blk s)) s' -> Q tt s') ->
  wp (free_cluster_chain_from fuel c buf) s Q.
Proof.
  induction l as [|c0 l IH]; intros fuel c s buf Q Hv Hch Hf Hl HQ; [inversion Hch|].
  destruct (chain_head _ _ _ _ Hch) as [? [= <- <-]].
  destruct fuel as [|fuel]; [cbn in Hf; lia|].
  pose proof (chain_NoDup _ _ _ _ Hch) as [Hnd _]%NoDup_cons.
  pose proof (chain_clusters _ _ _ _ Hch) as [Hc HF]%Forall_cons. rewrite Forall_forall in HF.
  apply wp_free_round; [done..| |].
  { intros Hbf. exfalso. revert Hbf. unfold FAT_TV_BAD, FAT_TV_FREE.
    inversion Hch as [? _ HL|? ? _ _ HB HFr]; revert HL || revert HB HFr;
      unfold FAT_TV_LAST, FAT_TV_BAD, FAT_TV_FREE; lia. }
  intros _ s' buf' Hs Hbuf.
  inversion Hch as [? _ HL Heq|? ? _ HL _ _ Hch']; subst; rewrite HL; [by apply HQ|].
  apply IH; [by eapply vol_ok_step| |cbn in Hf; lia|done|].
  - rewrite (disk_step_pinfo _ _ _ _ Hs). eapply chain_frame; [|exact Hch'].
    intros d Hd. rewrite (tval_after_free s c0 0 s') by auto.
    rewrite decide_False; [done|]. by intros ->.
  - intros s3 Hs3. apply HQ. rewrite (disk_step_pinfo _ _ _ _ Hs) in Hs3.
    eapply disk_step_ext; [by eapply disk_step_trans|]. intros x Hx.
    cbn. apply (clear_ext _ _ _ _ (fun x => 0 <= x < cap s)); [|done].
    intros y Hy. by apply (step_blk _ _ _ _ Hs).
Qed.

Lemma wp_fat_free_cluster_chain s c l Q :
  vol_ok s -> chain (fat_pinfo s) (blk s) c l -> (length l <= loop_fuel)%nat ->
  (forall s', disk_step s 0 (clear_entries (fat_pinfo s) l (blk s)) s' -> Q FAT_SUCCESS s') ->
  wp (fat_free_cluster_chain c) s Q.
Proof.
  intros Hv Hch Hf HQ. unfold fat_free_cluster_chain. wstep. wstep. wstep. wstep.
  rewrite (geom_bps _ _ (proj2 Hv)). wstep.
  set (s0 := mk_sys _ _ _ _ _ _ _ _ _).
  assert (disk_step s 0 (blk s) s0) as Hs0 by (apply disk_step_set_errno with (e := s_errno s), disk_step_refl, Hv).
  apply (wp_free_cluster_chain_from l loop_fuel c s0); [by eapply vol_ok_step|done|done|by rewrite length_fresh|].
  intros s' Hs'. wstep. wstep. wstep. rewrite (step_errno _ _ _ _ Hs'). apply HQ.
  by eapply disk_step_trans.
Qed.

(** ** Allocation *)

(** [c'] was free and is now the last cluster of a chain, linked from [c]. *)
Definition link_entries (p : FatPartitionInfo) (link : bool) (c c' : Z) (g : Z -> list Z)
    : Z -> list Z :=
  set_entry p c' 0x0FFFFFFF (if link then set_entry p c c' g else g).
Definition acquired (s : sys) (link : bool) (c c' : Z) (s' : sys) : Prop :=
  is_cluster (fat_pinfo s) c' /\ c' <> 0 /\ tval (fat_pinfo s) (blk s) c' = 0 /\
  disk_step s 0 (link_entries (fat_pinfo s) link c c' (blk s)) s'.
Definition not_free (p : FatPartitionInfo) (g : Z -> list Z) (c : Z) : Prop :=
  c = 0 \/ tval p g c <> 0.

Lemma sector_entry p sec e : 0 <= e < 128 ->
  entry_sec p (sec * 128 + e) = fat_begin_addr p + sec /\ (sec * 128 + e) mod 128 = e.
Proof.
  intros He. unfold entry_sec.
  rewrite Z.div_add_l, Z.div_small by lia. split; [lia|].
  rewrite Z.add_comm, Z.mod_add by lia. by apply Z.mod_small.
Qed.

Lemma link_entries_range s link c c' :
  vol_ok s -> is_cluster (fat_pinfo s) c -> is_cluster (fat_pinfo s) c' ->
  forall x, 0 <= x < cap s ->
    byte_array 512 (link_entries (fat_pinfo s) link c c' (blk s) x).
Proof.
  intros Hv Hc Hc' x Hx. pose proof (blk_bytes s x (proj1 Hv) Hx).
  unfold link_entries, set_entry. destruct link; repeat case_decide; auto with word.
Qed.

(** The tail of the allocation: both sectors are written back. *)
Lemma wp_link_and_mark s (link : bool) c sec e orig_sec Q :
  let p := fat_pinfo s in
  let c' := sec * 128 + e in
  let in_buf := c / 128 =? sec in
  vol_ok s -> s_errno s = 0 -> is_cluster p c -> is_cluster p c' -> 0 <= e < 128 ->
  orig_sec = blk s (entry_sec p c) ->
  (forall s', disk_step s 0 (link_entries p link c c' (blk s)) s' -> Q (Some (FAT_SUCCESS, c')) s') ->
  wp (fbind (if link then
          fbind (fat_set_uint32 c' (if in_buf then blk s (entry_sec p c') else orig_sec)
                   (4 * (c mod 128))) (fun mb =>
          fbind (fat_write_single_block (u32 (fat_begin_addr p + c / 128)) mb) (fun r =>
          fret (r, if in_buf then mb else blk s (entry_sec p c'))))
        else fret (FAT_SUCCESS, blk s (entry_sec p c')))
      (fun r => if negb (FAT_SUCCESS =? fst r) then fret (Some (FAT_FAIL, c'))
        else fbind (fat_set_uint32 0x0FFFFFFF (snd r) (4 * e)) (fun buf =>
          fbind (fat_write_single_block (u32 (fat_begin_addr p + sec)) buf) (fun r =>
          if negb (FAT_SUCCESS =? r) then fret (Some (FAT_FAIL, c'))
          else fret (Some (FAT_SUCCESS, c')))))) s Q.
Proof.
  intros p c' in_buf Hv He0 Hc Hc' He -> HQ.
  destruct (sector_entry p sec e He) as [Hsec' Hmod'].  fold c' in Hsec', Hmod'.
  destruct (entry_sec_u32 s c Hv Hc) as [Hsec Hr]. fold p in Hsec, Hr.
  destruct (entry_sec_u32 s c' Hv Hc') as [Hsec2 Hr2]. fold p in Hsec2, Hr2.
  pose proof (table_block s c Hv Hc) as Hb. pose proof (table_block s c' Hv Hc') as Hb'.
  fold p in Hb, Hb'. pose proof (Z.mod_pos_bound c 128).
  assert (u32 (fat_begin_addr p + sec) = entry_sec p c') as Hu
    by (rewrite <- Hsec'; by apply (u32_addr s)).
  rewrite Hsec, Hu.
  assert (forall s1 bf, disk_step s 0 (if link then set_entry p c c' (blk s) else blk s) s1 ->
    bf = (if link then set_entry p c c' (blk s) else blk s) (entry_sec p c') ->
    wp (fbind (fat_set_uint32 0x0FFFFFFF bf (4 * e)) (fun buf =>
          fbind (fat_write_single_block (entry_sec p c') buf) (fun r =>
          if negb (FAT_SUCCESS =? r) then fret (Some (FAT_FAIL, c'))
          else fret (Some (FAT_SUCCESS, c'))))) s1 Q) as Hmark.
  { intros s1 bf Hs1 Hbf.
    assert (byte_array 512 bf) as Hbb.
    { subst bf. unfold set_entry. destruct link; [case_decide|]; auto with word. }
    wstep. apply wp_fat_set_uint32; [lia|destruct Hbb as [-> _]; lia|].
    wstep. apply wp_fat_write; [apply Hs1|by rewrite (step_cap _ _ _ _ Hs1)|auto with word|].
    intros s2 Hs2. cbn [negb Z.eqb FAT_SUCCESS]. wstep. apply HQ.
    eapply disk_step_ext; [by eapply disk_step_trans|]. intros x Hx. cbn.
    unfold link_entries. rewrite <- write_entry, Hmod'. case_decide; [by rewrite Hbf|].
    by apply (step_blk _ _ _ _ Hs1). }
  wstep. destruct link.
  - assert ((if in_buf then blk s (entry_sec p c') else blk s (entry_sec p c))
      = blk s (entry_sec p c)) as ->.
    { unfold in_buf. destruct (Z.eqb_spec (c / 128) sec) as [Heq|]; [|done].
      f_equal. rewrite Hsec'. unfold entry_sec. by rewrite Heq. }
    wstep. apply wp_fat_set_uint32; [lia|destruct Hb as [-> _]; lia|].
    wstep. apply wp_fat_write; [apply Hv|done|auto with word|]. intros s1 Hs1.
    wstep. cbn [fst snd negb Z.eqb FAT_SUCCESS]. apply Hmark.
    + eapply disk_step_ext; [done|]. intros x Hx. cbn. by rewrite <- write_entry.
    + rewrite <- write_entry. unfold in_buf.
      destruct (Z.eqb_spec (c / 128) sec) as [Heq|Hne].
      * rewrite decide_True; [done|]. rewrite Hsec'. unfold entry_sec. by rewrite Heq.
      * rewrite decide_False; [done|]. rewrite Hsec'. unfold entry_sec. lia.
  - wstep. cbn [fst snd negb Z.eqb FAT_SUCCESS]. apply Hmark; [|done].
    rewrite <- He0. apply disk_step_refl, Hv.
Qed.

(** The entry the inner loop looks at in its round [j]. *)
Definition scan_ent (e0 j : Z) : Z := (e0 + j) mod 128.

Lemma wp_acquire_in_sector n : forall j s (link : bool) c sec orig_sec Q,
  let p := fat_pinfo s in
  vol_ok s -> s_errno s = 0 -> is_cluster p c -> 0 <= sec < sectors_per_fat p ->
  0 <= j -> j + Z.of_nat n = 128 -> orig_sec = blk s (entry_sec p c) ->
  ((forall k, j <= k < 128 ->
      not_free p (blk s) (sec * 128 + scan_ent (c mod 128) k)) -> Q None s) ->
  (forall c' s', acquired s link c c' s' -> Q (Some (FAT_SUCCESS, c')) s') ->
  wp (acquire_in_sector n j link c (c / 128) (c mod 128) sec 128 orig_sec
        (blk s (fat_begin_addr p + sec))) s Q.
Proof.
  induction n as [|n IH]; intros j s link c sec orig_sec Q p Hv He Hc Hsec Hj Hn Ho HN HS.
  { cbn [acquire_in_sector]. wstep. apply HN. lia. }
  cbn [acquire_in_sector]. pose proof (geom_spf _ _ (proj2 Hv)) as Hspf. fold p in Hspf.
  pose proof (Z.mod_pos_bound c 128). pose proof (Z.mod_pos_bound (c mod 128 + j) 128).
  rewrite (u32_small (c mod 128 + j)) by lia. fold (scan_ent (c mod 128) j) in *.
  set (e := scan_ent (c mod 128) j) in *. set (c' := sec * 128 + e).
  rewrite (u32_small c') by lia.
  assert (is_cluster p c') as Hc' by (unfold is_cluster, n_entries, c'; lia).
  destruct (sector_entry p sec e ltac:(lia)) as [Hsec' Hmod']. fold c' in Hsec', Hmod'.
  rewrite <- Hsec'. pose proof (table_block s c' Hv Hc') as Hb. fold p in Hb.
  wstep. eapply wp_fat_get_uint32; [done|lia|destruct Hb as [-> _]; lia|].
  replace (Z.land (le32 (blk s (entry_sec p c')) (4 * e)) 0x0FFFFFFF)
    with (tval p (blk s) c') by (unfold tval, entry; by rewrite Hmod').
  assert (not_free p (blk s) c' -> wp (acquire_in_sector n (j + 1) link c (c / 128) (c mod 128)
    sec 128 orig_sec (blk s (entry_sec p c'))) s Q) as Hcont.
  { intros Hnf. rewrite Hsec'. apply IH; try done; [lia..|]. intros Hk. apply HN.
    intros k ?. destruct (decide (k = j)) as [->|]; [done|]. apply Hk. lia. }
  destruct (FAT_TV_BAD _) eqn:Hbad.
  { apply Hcont. right. unfold FAT_TV_BAD in Hbad. lia. }
  destruct (FAT_TV_LAST _) eqn:Hlast.
  { apply Hcont. right. unfold FAT_TV_LAST in Hlast. lia. }
  destruct (FAT_TV_FREE _) eqn:Hfree; cbn [negb].
  2: { apply Hcont. right. unfold FAT_TV_FREE in Hfree. lia. }
  destruct (Z.eqb_spec c' 0) as [Hz|Hz].
  { apply Hcont. by left. }
  wstep. wstep. apply wp_link_and_mark; try done; [lia|]. intros s' Hs'. apply HS.
  split_and!; [done|done| |done]. unfold FAT_TV_FREE in Hfree. by apply Z.eqb_eq in Hfree.
Qed.

(** Every entry of a sector is looked at. *)
Lemma scan_covers p g sec e0 :
  0 <= e0 < 128 ->
  (forall k, 0 <= k < 128 -> not_free p g (sec * 128 + scan_ent e0 k)) ->
  forall c, c / 128 = sec -> not_free p g c.
Proof.
  intros He Hk c <-. pose proof (Z.mod_pos_bound (c mod 128 - e0) 128).
  specialize (Hk ((c mod 128 - e0) mod 128) ltac:(lia)). unfold scan_ent in Hk.
  rewrite Zplus_mod_idemp_r, Zplus_minus, Zmod_mod in Hk.
  rewrite (Z.div_mod c 128) by lia. by rewrite (Z.mul_comm 128).
Qed.

Lemma wp_acquire_in_fat n : forall i s (link : bool) c orig_sec buf Q,
  let p := fat_pinfo s in
  vol_ok s -> s_errno s = 0 -> is_cluster p c -> 0 <= i ->
  i + Z.of_nat n = sectors_per_fat p -> orig_sec = blk s (entry_sec p c) ->
  length buf = 512%nat ->
  (forall s', disk_step s ENOSPC (blk s) s' ->
     (forall k, i <= k < sectors_per_fat p ->
        forall d, d / 128 = (c / 128 + k) mod sectors_per_fat p -> not_free p (blk s) d) ->
     Q (FAT_FAIL, c) s') ->
  (forall c' s', acquired s link c c' s' -> Q (FAT_SUCCESS, c') s') ->
  wp (acquire_in_fat n i link c (c / 128) (c mod 128) 128 orig_sec buf) s Q.
Proof.
  induction n as [|n IH]; intros i s link c orig_sec buf Q p Hv He Hc Hi Hn Ho Hl HN HS.
  { cbn [acquire_in_fat]. wstep. wstep. wstep. apply HN.
    - apply disk_step_set_errno with (e := s_errno s), disk_step_refl, Hv.
    - lia. }
  pose proof (geom_spf _ _ (proj2 Hv)) as Hspf. fold p in Hspf.
  pose proof (entry_in_table _ _ Hc) as Ht. unfold in_table, entry_sec in Ht. fold p in Ht.
  cbn [acquire_in_fat]. wstep. wstep. fold p.
  rewrite (u32_small (c / 128 + i)) by lia.
  pose proof (Z.mod_pos_bound (c / 128 + i) (sectors_per_fat p) ltac:(lia)) as Hsec.
  set (sec := (c / 128 + i) mod sectors_per_fat p) in *.
  assert (0 <= fat_begin_addr p + sec < cap s) as Hr
    by (apply (geom_cap _ _ (proj2 Hv)); unfold in_table; fold p; lia).
  wstep. rewrite (u32_addr s) by done. apply wp_fat_read; [apply Hv|done|done|].
  intros s1 Hs1. cbn [fst snd negb Z.eqb FAT_SUCCESS]. wstep. change (Z.to_nat 128) with 128%nat.
  assert (fat_pinfo s1 = p) as Hp1 by apply (disk_step_pinfo _ _ _ _ Hs1).
  assert (forall x, 0 <= x < cap s -> blk s1 x = blk s x) as Hb1 by apply (step_blk _ _ _ _ Hs1).
  assert (forall d, is_cluster p d -> entry p (blk s1) d = entry p (blk s) d) as Hent.
  { intros d Hd. apply entry_ext; [|done]. intros x Hx. apply Hb1. by apply (geom_cap _ _ (proj2 Hv)). }
  assert (forall c' s', acquired s1 link c c' s' -> acquired s link c c' s') as Hacq.
  { unfold acquired. rewrite Hp1. intros c' s' (Hc' & Hz & Hf & Hs). split_and!; [done|done| |].
    - revert Hf. unfold tval. by rewrite Hent.
    - eapply disk_step_ext; [by eapply disk_step_trans|]. intros x Hx.
      unfold link_entries, set_entry. destruct link; by rewrite !Hb1. }
  rewrite <- Hb1 by done. rewrite <- Hp1. apply wp_acquire_in_sector; rewrite ?Hp1; try done.
  - by eapply vol_ok_step.
  - apply (step_errno _ _ _ _ Hs1).
  - rewrite Ho. symmetry. apply Hb1. by apply (entry_sec_u32 s c).
  - intros Hk. apply IH; rewrite ?Hp1; try done; [by eapply vol_ok_step|apply (step_errno _ _ _ _ Hs1)|lia|lia| | | |].
    + rewrite Ho. symmetry. apply Hb1. by apply (entry_sec_u32 s c).
    + rewrite Hb1 by done. apply (blk_bytes s); [apply Hv|done].
    + intros s' Hs' Hall. apply HN.
      { eapply disk_step_ext; [by eapply disk_step_trans|]. done. }
      intros k Hki d Hd. assert (is_cluster p d) as Hdc.
      { pose proof (Z.mod_pos_bound (c / 128 + k) (sectors_per_fat p) ltac:(lia)).
        pose proof (Z.div_mod d 128). pose proof (Z.mod_pos_bound d 128).
        unfold is_cluster, n_entries. lia. }
      enough (not_free p (blk s1) d) as Hnf
        by (revert Hnf; unfold not_free, tval; by rewrite Hent).
      destruct (decide (k = i)) as [->|]; [|apply (Hall k); [lia|done]].
      eapply (scan_covers p _ sec (c mod 128)); [apply Z.mod_pos_bound; lia|exact Hk|done].
    + intros c' s' Ha. by apply HS, Hacq.
  - intros c' s' Ha. wstep. by apply HS, Hacq.
Qed.

Lemma wp_fat_acquire_next_cluster s c (link : bool) Q :
  let p := fat_pinfo s in
  let v := tval p (blk s) c in
  vol_ok s -> is_cluster p c ->
  (FAT_TV_BAD v || FAT_TV_FREE v = true ->
     forall s', disk_step s EBADF (blk s) s' -> Q (FAT_FAIL, c) s') ->
  (FAT_TV_BAD v || FAT_TV_FREE v || FAT_TV_LAST v = false ->
     forall s', disk_step s 0 (blk s) s' -> Q (FAT_SUCCESS, v) s') ->
  (FAT_TV_LAST v = true -> forall c' s', acquired s link c c' s' -> Q (FAT_SUCCESS, c') s') ->
  (FAT_TV_LAST v = true -> (forall d, is_cluster p d -> not_free p (blk s) d) ->
     forall s', disk_step s ENOSPC (blk s) s' -> Q (FAT_FAIL, c) s') ->
  wp (fat_acquire_next_cluster c link) s Q.
Proof.
  intros p v Hv Hc Herr Hnext Hacq Hfull. unfold fat_acquire_next_cluster.
  wstep. apply wp_fat_get_table_value; [done..|]. intros s1 Hs1.
  cbn [fst snd negb Z.eqb FAT_SUCCESS]. fold p. fold v.
  destruct (FAT_TV_BAD v); [wstep; wstep; wstep; by apply Herr, (disk_step_set_errno _ 0)|].
  destruct (FAT_TV_FREE v); [wstep; wstep; wstep; by apply Herr, (disk_step_set_errno _ 0)|].
  destruct (FAT_TV_LAST v); cbn [negb]; [|wstep; by apply Hnext].
  wstep. wstep. rewrite (disk_step_pinfo _ _ _ _ Hs1). fold p.
  rewrite (geom_bps p _ (proj2 Hv)). change (512 / 4) with 128.
  destruct (entry_sec_u32 s c Hv Hc) as [Hsec Hr]. fold p in Hsec, Hr. rewrite Hsec.
  wstep. apply wp_fat_read; [apply Hs1|by rewrite (step_cap _ _ _ _ Hs1)|by rewrite length_fresh|].
  intros s2 Hs2. cbn [fst snd negb Z.eqb FAT_SUCCESS].
  assert (disk_step s 0 (blk s) s2) as Hs.
  { eapply disk_step_ext; [by eapply disk_step_trans|]. apply (step_blk _ _ _ _ Hs1). }
  assert (fat_pinfo s2 = p) as Hp2 by apply (disk_step_pinfo _ _ _ _ Hs).
  pose proof (geom_spf _ _ (proj2 Hv)) as Hspf. fold p in Hspf.
  pose proof (step_blk _ _ _ _ Hs) as Hb2.
  assert (forall d, is_cluster p d -> entry p (blk s2) d = entry p (blk s) d) as Hent.
  { intros d Hd. apply entry_ext; [|done]. intros x Hx. apply Hb2. by apply (geom_cap _ _ (proj2 Hv)). }
  apply wp_acquire_in_fat; rewrite ?Hp2; try done.
  - by eapply vol_ok_step.
  - apply (step_errno _ _ _ _ Hs).
  - lia.
  - rewrite Hb2 by done. by apply (step_blk _ _ _ _ Hs1).
  - intros s' Hs' Hall. apply Hfull; [done| |].
    + intros d Hd. enough (not_free p (blk s2) d) as Hnf
        by (revert Hnf; unfold not_free, tval; by rewrite Hent).
      assert (forall x, is_cluster p x -> 0 <= x / 128 < sectors_per_fat p) as Hdiv.
      { unfold is_cluster, n_entries. intros x ?.
        split; [apply Z.div_pos | apply Z.div_lt_upper_bound]; lia. }
      pose proof (Hdiv c Hc). pose proof (Hdiv d Hd).
      apply (Hall ((d / 128 - c / 128) mod sectors_per_fat p)); [apply Z.mod_pos_bound; lia|].
      rewrite Zplus_mod_idemp_r, Zplus_minus. by rewrite Z.mod_small.
    + eapply disk_step_ext; [by eapply disk_step_trans|]. done.
  - intros c' s' (Hc' & Hz & Hf & Hs'). apply Hacq; [done|]. rewrite Hp2 in Hc', Hf, Hs'.
    split_and!; [done|done| |].
    + revert Hf. unfold tval. by rewrite Hent.
    + eapply disk_step_ext; [by eapply disk_step_trans|]. intros x Hx.
      fold p. unfold link_entries, set_entry. destruct link; by rewrite !Hb2.
Qed.

End Table.

(** ** Termination of freeing *)

Section Terminates.
Context `{BlockDevSpec} {E : FatEnv}.

(** Every link of the table leads to an entry of the table. *)
Definition closed_table (p : FatPartitionInfo) (g : Z -> list Z) : Prop :=
  forall c, is_cluster p c -> FAT_TV_LAST (tval p g c) = false ->
    FAT_TV_BAD (tval p g c) = false -> is_cluster p (tval p g c).

(** The number of entries in use. *)
Definition used_entries (p : FatPartitionInfo) (g : Z -> list Z) : nat :=
  length (filter (fun c => tval p g c <> 0) (seqZ 0 (n_entries p))).

Lemma filter_remove (l : list Z) (P Q : Z -> Prop) `{!forall x, Decision (P x), !forall x, Decision (Q x)} c :
  c ∈ l -> P c -> ~ Q c -> (forall x, x ∈ l -> Q x -> P x) ->
  (length (filter Q l) < length (filter P l))%nat.
Proof.
  intros Hc HP HQ HQP. induction l as [|a l IH]; [by apply elem_of_nil in Hc|].
  assert (length (filter Q l) <= length (filter P l))%nat as Hle.
  { clear -HQP. assert (forall x, x ∈ l -> Q x -> P x) as HQ by (intros; apply HQP; [by right|done]).
    clear HQP. induction l as [|b l IH]; [done|]. rewrite !filter_cons.
    assert (length (filter Q l) <= length (filter P l))%nat
      by (apply IH; intros; apply HQ; [by right|done]).
    destruct (decide (Q b)) as [q|]; [rewrite decide_True by (apply HQ; [left|done]); cbn; lia|].
    case_decide; cbn; lia. }
  rewrite !filter_cons. apply elem_of_cons in Hc as [<-|Hc].
  - rewrite (decide_True (P := P c)), (decide_False (P := Q c)) by done. cbn. lia.
  - assert (length (filter Q l) < length (filter P l))%nat
      by (apply IH; [done|intros; apply HQP; [by right|done]]).
    destruct (decide (Q a)) as [q|].
    + rewrite (decide_True (P := P a)) by (apply HQP; [left|done]). cbn. lia.
    + case_decide; cbn; lia.
Qed.

Lemma used_entries_free p g g' c :
  is_cluster p c -> tval p g c <> 0 ->
  (forall x, is_cluster p x -> tval p g' x = if decide (x = c) then 0 else tval p g x) ->
  (used_entries p g' < used_entries p g)%nat.
Proof.
  intros Hc Hn Hg. unfold used_entries.
  apply (filter_remove _ _ _ c); [by apply elem_of_seqZ; unfold is_cluster in Hc|done| |].
  - rewrite Hg, decide_True by done. lia.
  - intros x Hx%elem_of_seqZ. rewrite Hg by (unfold is_cluster; lia). case_decide; [done|]. tauto.
Qed.

Lemma closed_free p g g' c :
  closed_table p g -> is_cluster p c ->
  (forall x, is_cluster p x -> tval p g' x = if decide (x = c) then 0 else tval p g x) ->
  closed_table p g'.
Proof.
  intros Hcl Hc Hg x Hx. rewrite Hg by done. case_decide; [|by apply Hcl].
  intros _ _. unfold is_cluster in *. lia.
Qed.
Lemma free_cluster_chain_from_ends n : forall fuel c s buf,
  vol_ok s -> is_cluster (fat_pinfo s) c -> closed_table (fat_pinfo s) (blk s) ->
  (used_entries (fat_pinfo s) (blk s) <= n)%nat -> (n < fuel)%nat -> length buf = 512%nat ->
  wp (free_cluster_chain_from fuel c buf) s (fun _ _ => True).
Proof.
  induction n as [n IH] using lt_wf_ind; intros fuel c s buf Hv Hc Hcl Hu Hf Hl.
  destruct fuel as [|fuel]; [lia|]. apply wp_free_round; [done..|].
  intros Hbf s' buf' Hs Hbuf. destruct (FAT_TV_LAST _) eqn:HL; [done|].
  apply orb_false_iff in Hbf as [HB HFr].
  pose proof (tval_after_free s c 0 s' Hv Hc Hs) as Ht.
  assert (used_entries (fat_pinfo s) (blk s') < used_entries (fat_pinfo s) (blk s))%nat as Hlt.
  { apply (used_entries_free _ _ _ c); [done| |done]. unfold FAT_TV_FREE in HFr. lia. }
  apply (IH (used_entries (fat_pinfo s) (blk s'))); rewrite ?(disk_step_pinfo _ _ _ _ Hs);
    [lia|by eapply vol_ok_step|by apply Hcl|by eapply closed_free|done|lia|done].
Qed.

End Terminates.

(** ** A small volume, to run the library on

    A card of 400 blocks: the table in block 2, one sector per cluster, the
    data area from block 3.  Cluster 2 is the root directory, 3 -> 4 -> 5
    is a file, 7 a chain of one cluster. *)
Module Mini.
Import RamDisk.

#[export] Instance env : FatEnv := { junk _ := 0xAA; loop_fuel := 300 }.

Definition table : list Z :=
  put32 0x0FFFFFFF (put32 0x0FFFFFFF (put32 5 (put32 4 (put32 0x0FFFFFFF
    (put32 0x0FFFFFFF (put32 0x0FFFFFF8 blank 0) 4) 8) 12) 16) 20) 28.
Definition pinfo : FatPartitionInfo := mk_pinfo 1 512 1 1 1 0 0 0xF8 1 2 2 3 16 3.
Definition closed_file : FatFile := mk_file 1 0 (mk_didx 0 0 0) 0 0 0.
Definition disk0 : ram := mk_ram 400 (<[2 := table]> ∅).
Definition sys_of (d : ram) : sys :=
  mk_sys _ d 0 (mk_DiskInfo 1 512) pinfo (replicate 16 closed_file) 1
    (replicate 255 0) (replicate 255 0).
Definition s0 : sys := sys_of disk0.

Lemma table_bytes : byte_array 512 table.
Proof. unfold table. repeat apply put32_bytes. split; [done|]. apply Forall_replicate. unfold is_byte; lia. Qed.
Lemma s0_ok : vol_ok s0.
Proof.
  split; [split; [|done]|].
  - split; [done|]. apply map_Forall_insert_2; [apply table_bytes|apply map_Forall_empty].
  - split; cbn; unfold cap; cbn; lia.
Qed.
Lemma s0_chain : chain (fat_pinfo s0) (blk s0) 3 [3; 4; 5].
Proof.
  apply chain_next; [by vm_compute|by vm_compute..|].
  apply chain_next; [by vm_compute|by vm_compute..|].
  apply chain_last; by vm_compute.
Qed.
End Mini.

Section Claims.
Context `{BlockDevSpec} {E : FatEnv}.

(** On a volume whose chain from cluster c runs through the clusters l,
    fat_free_cluster_chain returns success with errno 0, makes exactly the
    entries of l zero and changes nothing else on the disk, in the table or
    outside, and none of the globals. *)
Theorem fat_free_cluster_chain_correct s c l :
  vol_ok s -> chain (fat_pinfo s) (blk s) c l -> (length l <= loop_fuel)%nat ->
  exists s', fat_free_cluster_chain c s = Ret FAT_SUCCESS s' /\
    vol_ok s' /\ s_errno s' = 0 /\ globals s' = globals s /\
    (forall x, is_cluster (fat_pinfo s) x ->
       entry (fat_pinfo s) (blk s') x = if decide (x ∈ l) then 0 else entry (fat_pinfo s) (blk s) x) /\
    (forall x, 0 <= x < cap s -> ~ in_table (fat_pinfo s) x -> blk s' x = blk s x).
Proof.
  intros Hv Hch Hf.
  pose proof (wp_fat_free_cluster_chain s c l
    (fun r s' => r = FAT_SUCCESS /\ disk_step s 0 (clear_entries (fat_pinfo s) l (blk s)) s')
    Hv Hch Hf ltac:(done)) as (r & s' & Hrun & -> & Hs)%wp_returns.
  pose proof (chain_clusters _ _ _ _ Hch) as HF.
  exists s'. split_and!; [done|by eapply vol_ok_step|apply Hs|apply Hs| |].
  - intros x Hx. rewrite <- entry_clear.
    + apply entry_ext; [|done]. intros y Hy. apply Hs. by apply (geom_cap _ _ (proj2 Hv)).
    + intros d Hd. rewrite Forall_forall in HF. by apply table_block, HF.
  - intros x Hx Ht. rewrite (step_blk _ _ _ _ Hs) by done. by apply clear_outside.
Qed.

(** Fat_free_cluster_chain returns on every table whose links stay inside
    the table, also when they form a cycle: each round frees an entry in use,
    so fuel above the number of entries in use is enough. *)
Theorem fat_free_cluster_chain_returns s c :
  vol_ok s -> is_cluster (fat_pinfo s) c -> closed_table (fat_pinfo s) (blk s) ->
  (used_entries (fat_pinfo s) (blk s) < loop_fuel)%nat ->
  exists r s', fat_free_cluster_chain c s = Ret r s'.
Proof.
  intros Hv Hc Hcl Hu.
  enough (wp (fat_free_cluster_chain c) s (fun _ _ => True)) as (r & s' & Hr & _)%wp_returns
    by eauto.
  unfold fat_free_cluster_chain. do 4 wstep. rewrite (geom_bps _ _ (proj2 Hv)). wstep.
  eapply wp_mono.
  - eapply free_cluster_chain_from_ends; [..|exact Hu|by rewrite length_fresh].
    + by eapply vol_ok_step, (disk_step_set_errno s (s_errno s)), disk_step_refl, Hv.
    + done.
    + done.
    + done.
  - intros ? s' _. by repeat wstep.
Qed.

(** What [fat_acquire_next_cluster c link] leaves behind: the result [r], the
    cluster [c'] it hands out and the table of [s']. *)
Definition acquire_post (s : sys) (c : Z) (link : bool) (r c' : Z) (s' : sys) : Prop :=
  let p := fat_pinfo s in
  let v := tval p (blk s) c in
  let same := forall x, is_cluster p x -> entry p (blk s') x = entry p (blk s) x in
  vol_ok s' /\ globals s' = globals s /\
  (forall x, 0 <= x < cap s -> ~ in_table p x -> blk s' x = blk s x) /\
  if FAT_TV_BAD v || FAT_TV_FREE v then
    r = FAT_FAIL /\ c' = c /\ s_errno s' = EBADF /\ same
  else if negb (FAT_TV_LAST v) then
    r = FAT_SUCCESS /\ c' = v /\ s_errno s' = 0 /\ same
  else if decide (Exists (fun d => d <> 0 /\ tval p (blk s) d = 0) (seqZ 0 (n_entries p))) then
    r = FAT_SUCCESS /\ s_errno s' = 0 /\
    is_cluster p c' /\ c' <> 0 /\ tval p (blk s) c' = 0 /\
    (forall x, is_cluster p x -> entry p (blk s') x =
       if decide (x = c') then 0x0FFFFFFF
       else if decide (x = c) then (if link then c' else entry p (blk s) c)
       else entry p (blk s) x)
  else
    r = FAT_FAIL /\ c' = c /\ s_errno s' = ENOSPC /\ same.

Lemma table_unchanged s e s' :
  vol_ok s -> disk_step s e (blk s) s' ->
  vol_ok s' /\ globals s' = globals s /\
  (forall x, 0 <= x < cap s -> ~ in_table (fat_pinfo s) x -> blk s' x = blk s x) /\ s_errno s' = e /\
  (forall x, is_cluster (fat_pinfo s) x -> entry (fat_pinfo s) (blk s') x = entry (fat_pinfo s) (blk s) x).
Proof.
  intros Hv Hs. split_and!; [by eapply vol_ok_step|apply Hs| |apply Hs|].
  - intros x Hx _. by apply Hs.
  - intros x Hx. apply entry_ext; [|done]. intros y Hy. apply Hs. by apply (geom_cap _ _ (proj2 Hv)).
Qed.

(** C30: fat_acquire_next_cluster on a working block device, one whose blocks
    can all be read and written.  A cluster whose entry is bad or free gives
    EBADF; an entry with a successor gives the successor;
    neither changes the disk.  For the last cluster of a chain the call finds
    a free entry c' other than 0 if the table has one, marks it as last and,
    when asked to, links c to it, changing nothing else; with no free entry it
    fails with ENOSPC and changes nothing. *)
Theorem fat_acquire_next_cluster_correct s c (link : bool) :
  vol_ok s -> is_cluster (fat_pinfo s) c ->
  exists r c' s', fat_acquire_next_cluster c link s = Ret (r, c') s' /\
    acquire_post s c link r c' s'.
Proof.
  intros Hv Hc. set (p := fat_pinfo s). set (v := tval p (blk s) c).
  pose proof (table_unchanged s) as Hsame. fold p in Hsame.
  enough (wp (fat_acquire_next_cluster c link) s (fun rc s' =>
    acquire_post s c link rc.1 rc.2 s')) as ([r c'] & s' & Hrun & HQ)%wp_returns
    by (by exists r, c', s').
  unfold acquire_post. fold p. fold v.
  apply wp_fat_acquire_next_cluster; fold p; fold v; try done.
  - intros Hbf s' Hs'. rewrite Hbf. destruct (Hsame _ _ Hv Hs') as (?&?&?&?&?). by split_and!.
  - intros (Hbf & HL)%orb_false_iff s' Hs'. rewrite Hbf, HL.
    destruct (Hsame _ _ Hv Hs') as (?&?&?&?&?). by split_and!.
  - intros HL c' s' (Hc' & Hz & Hfree & Hs').
    assert (FAT_TV_BAD v || FAT_TV_FREE v = false) as ->
      by (revert HL; unfold FAT_TV_LAST, FAT_TV_BAD, FAT_TV_FREE; lia).
    rewrite HL. cbn [negb]. split_and!; [by eapply vol_ok_step|apply Hs'| |].
    { intros x Hx Ht. rewrite (step_blk _ _ _ _ Hs') by done. fold p. unfold link_entries.
      destruct link; by rewrite !set_entry_outside. }
    rewrite decide_True.
    2: { apply Exists_exists. exists c'. split; [|done]. apply elem_of_seqZ. unfold is_cluster in Hc'. fold p in Hc'. lia. }
    split_and!; try done; [apply Hs'|]. intros x Hx. cbn [snd].
    rewrite (entry_ext _ _ (link_entries p link c c' (blk s))); [|
      intros y Hy; apply Hs'; by apply (geom_cap _ _ (proj2 Hv))|done].
    pose proof (geom_spf _ _ (proj2 Hv)) as Hspf. fold p in Hspf.
    assert (0 <= c' < 2 ^ 32) by (revert Hc'; unfold is_cluster, n_entries; fold p; lia).
    unfold link_entries. rewrite entry_set; [| |lia].
    + destruct (decide (x = c')); [done|]. destruct link.
      * rewrite entry_set; [|by apply table_block|done]. done.
      * by destruct (decide (x = c)) as [->|].
    + destruct link; rewrite ?length_set_entry; by apply table_block.
  - intros HL Hall s' Hs'.
    assert (FAT_TV_BAD v || FAT_TV_FREE v = false) as ->
      by (revert HL; unfold FAT_TV_LAST, FAT_TV_BAD, FAT_TV_FREE; lia).
    rewrite HL. cbn [negb]. rewrite decide_False.
    + destruct (Hsame _ _ Hv Hs') as (?&?&?&?&?). by split_and!.
    + intros (d & Hd%elem_of_seqZ & Hd0 & Hdf)%Exists_exists.
      destruct (Hall d) as [?|?]; [unfold is_cluster; lia|done|done].
Qed.

End Claims.

Section Witnesses.
Import RamDisk Mini.

Definition link_ok (c : Z) : bool :=
  FAT_TV_LAST (tval pinfo (blk s0) c) || (tval pinfo (blk s0) c <? 128).
Lemma links_ok : forallb link_ok (seqZ 0 128) = true.
Proof. by vm_compute. Qed.
Lemma s0_closed : closed_table (fat_pinfo s0) (blk s0).
Proof.
  intros c Hc HL _. change (fat_pinfo s0) with pinfo in *.
  assert (link_ok c = true) as Hok.
  { apply (proj1 (forallb_forall link_ok (seqZ 0 128)) links_ok), list_elem_of_In, elem_of_seqZ.
    unfold is_cluster in Hc. change (n_entries pinfo) with 128 in Hc. lia. }
  unfold link_ok in Hok. rewrite HL in Hok. pose proof (tval_range pinfo (blk s0) c).
  unfold is_cluster. change (n_entries pinfo) with 128. cbn [orb] in Hok. lia.
Qed.

Lemma fat_free_cluster_chain_correct_witness :
  exists s', fat_free_cluster_chain 3 s0 = Ret FAT_SUCCESS s' /\
    vol_ok s' /\ s_errno s' = 0 /\ globals s' = globals s0 /\
    (forall x, is_cluster pinfo x ->
       entry pinfo (blk s') x = if decide (x ∈ [3; 4; 5]) then 0 else entry pinfo (blk s0) x) /\
    (forall x, 0 <= x < cap s0 -> ~ in_table pinfo x -> blk s' x = blk s0 x).
Proof.
  apply (fat_free_cluster_chain_correct s0 3 [3; 4; 5]);
    [apply s0_ok|apply s0_chain|cbn; lia].
Defined.

Lemma fat_free_cluster_chain_returns_witness :
  exists r s', fat_free_cluster_chain 3 s0 = Ret r s'.
Proof.
  apply (fat_free_cluster_chain_returns s0 3);
    [apply s0_ok|by vm_compute|apply s0_closed|apply Nat.ltb_lt; by vm_compute].
Defined.

Lemma fat_acquire_next_cluster_correct_witness :
  exists r c' s', fat_acquire_next_cluster 5 true s0 = Ret (r, c') s' /\
    acquire_post s0 5 true r c' s'.
Proof. apply (fat_acquire_next_cluster_correct s0 5 true); [apply s0_ok|by vm_compute]. Defined.

(** The run of that witness: cluster 6 is handed out and linked. *)
Example acquire_runs :
  match fat_acquire_next_cluster 5 true s0 with
  | Ret (r, c') s' => (r, c', tval pinfo (blk s') 5, tval pinfo (blk s') 6, s_errno s')
  | Crash _ => (0, 0, 0, 0, 0)
  end = (FAT_SUCCESS, 6, 6, 0x0FFFFFFF, 0).
Proof. by vm_compute. Qed.

End Witnesses.
