(* ===== verification/FatName.v ===== *)
(** FatName: names of directory entries and path resolution of the FAT32
    library, libsd/fat32.c.

    A path is the list of its characters with the terminating NUL.  The
    functions that take [uint8_t *sector] and [FatDirEntryIdx *idx] and
    update both return the new values after their result. *)

From stdpp Require Import base numbers list gmap.
From S2P Require Import Prelude SdDisk FatTable.

(** toupper (ctype.h) in the C locale. *)
Definition toupper (c : Z) : Z := if (97 <=? c) && (c <=? 122) then c - 32 else c.

Section FatName.
Context `{BlockDev} {E : FatEnv} {CM : CharModel}.
Local Open Scope fat_scope.

(** ** Long names *)

(** One of the three loops that collect characters of a long entry:
    [buf[pos + i] = buffer[off + i*2]] for [n] values of [i]. *)
Fixpoint collect_chars (n : nat) (i pos off : Z) (buffer buf : list Z) : F (list Z) :=
  match n with
  | O => fret buf
  | S n' =>
      v <- ld buffer (off + i * 2);;
      buf <- st buf (u32 (pos + i)) v;;
      collect_chars n' (i + 1) pos off buffer buf
  end.

Inductive ln_result := LnBroken | LnSuccess | LnMore.

(** The inner loop of [fat_get_long_name_uint16], from entry [index] to the
    end of the sector: how it ended, idx->index, pmin, c and the name. *)
Fixpoint long_name_entries (n : nat) (buffer : list Z) (index pmin pmax c : Z) (buf : list Z)
    : F (ln_result * Z * Z * Z * list Z) :=
  match n with
  | O => fret (LnMore, index, pmin, c, buf)
  | S n' =>
      let edx := u32 (index * FAT_DIR_ENTRY_WIDTH) in
      attrib <- ld buffer (edx + 11);;
      if negb (attrib =? FAT_LONG_NAME_ENTRY) then fret (LnBroken, index, pmin, c, buf)
      else
        let c := 0 in
        let pmin := u32 (pmin - 13) in
        buf <- collect_chars 5 0 (pmin + c) (edx + 1) buffer buf;;
        let c := c + 5 in
        buf <- collect_chars 6 0 (pmin + c) (edx + 14) buffer buf;;
        let c := c + 6 in
        buf <- collect_chars 2 0 (pmin + c) (edx + 28) buffer buf;;
        let c := c + 2 in
        let index := u32 (index + 1) in
        b <- ld buffer edx;;
        let order := if negb (Z.land b FAT_LAST_LONG =? 0) then Z.lxor b FAT_LAST_LONG else b in
        if order =? 1 then
          buf <- st buf (umin 255 pmax) 0;;
          fret (LnSuccess, index, pmin, c, buf)
        else long_name_entries n' buffer index pmin pmax c buf
  end.

(** The outer loop, over the sectors of the cluster. *)
Fixpoint long_name_sectors (fuel : nat) (sec_start entries : Z) (buffer : list Z)
    (idx : FatDirEntryIdx) (pmin pmax c : Z) (buf : list Z)
    : F (Z * list Z * FatDirEntryIdx * list Z) :=
  match fuel with
  | O => stop OutOfFuel
  | S fuel' =>
      r <- long_name_entries (Z.to_nat (entries - d_index idx)) buffer (d_index idx) pmin pmax c buf;;
      let '(res, index, pmin, c, buf) := r in
      let idx := mk_didx (d_cluster idx) (d_sector idx) index in
      match res with
      | LnBroken => fret (FAT_FAIL, buffer, idx, buf)
      | _ =>
          let success := match res with LnSuccess => true | _ => false end in
          if success && (index <? entries) then fret (FAT_SUCCESS, buffer, idx, buf)
          else
            p <- fget fat_pinfo;;
            if u32 (sectors_per_cluster p - 1) <=? d_sector idx then
              fret (FAT_FAIL, buffer, idx, buf)
            else
              let idx := mk_didx (d_cluster idx) (u32 (d_sector idx + 1)) 0 in
              r <- fat_read_single_block (u32 (sec_start + d_sector idx)) buffer;;
              let buffer := snd r in
              if negb (FAT_SUCCESS =? fst r) then fret (FAT_FAIL, buffer, idx, buf)
              else if (c <=? 255) && negb success then
                long_name_sectors fuel' sec_start entries buffer idx pmin pmax c buf
              else fret ((if success then FAT_SUCCESS else FAT_FAIL), buffer, idx, buf)
      end
  end.

(** The result, buffer, *idx and buf. *)
Definition fat_get_long_name_uint16 (buffer : list Z) (idx : FatDirEntryIdx) (buf : list Z)
    : F (Z * list Z * FatDirEntryIdx * list Z) :=
  p <- fget fat_pinfo;;
  let entries := bytes_per_sector p / 32 in
  sec_start <- fat_first_sector_of_cluster (d_cluster idx);;
  let edx := u32 (d_index idx * FAT_DIR_ENTRY_WIDTH) in
  b <- ld buffer edx;;
  if (0xE5 =? b) || (0x00 =? b) then fret (FAT_FAIL, buffer, idx, buf)
  else
    attrib <- fat_attrib_of_dir_entry buffer (d_index idx);;
    if negb (attrib =? FAT_LONG_NAME_ENTRY) || (Z.land b FAT_LAST_LONG =? 0) then
      fret (FAT_FAIL, buffer, idx, buf)
    else
      let order := Z.lxor b FAT_LAST_LONG in
      let pmax := order * 13 in
      long_name_sectors loop_fuel sec_start entries buffer idx pmax pmax 0 buf.

(** [long_name[i] = (uint8_t)long_name16[i]]. *)
Fixpoint narrow_name (n : nat) (i : Z) (name16 long_name : list Z) : F (list Z) :=
  match n with
  | O => fret long_name
  | S n' =>
      v <- ld name16 i;;
      long_name <- st long_name i (u8 v);;
      narrow_name n' (i + 1) name16 long_name
  end.

(** A loop that copies characters of the short name up to a space. *)
Fixpoint short_chars (n : nat) (i base k : Z) (short_name long_name : list Z)
    : F (Z * list Z) :=
  match n with
  | O => fret (k, long_name)
  | S n' =>
      v <- ld short_name (base + i);;
      if negb (v =? 0x20) then
        long_name <- st long_name k v;;
        short_chars n' (i + 1) base (k + 1) short_name long_name
      else fret (k, long_name)
  end.

(** fat_get_string: [sz] bytes of [buf + off]. *)
Definition fat_get_string (buf : list Z) (off sz : Z) : F (list Z) := copy_from buf off sz.

(** The result, buffer, *idx and long_name. *)
Definition fat_get_long_name_uint8 (buffer : list Z) (idx : FatDirEntryIdx) (long_name : list Z)
    : F (Z * list Z * FatDirEntryIdx * list Z) :=
  let edx := u32 (d_index idx * FAT_DIR_ENTRY_WIDTH) in
  b <- ld buffer edx;;
  if (0xE5 =? b) || (0x00 =? b) then fret (u32 FAT_FAIL, buffer, idx, long_name)
  else
    attrib <- fat_attrib_of_dir_entry buffer (d_index idx);;
    let has_long_name := (attrib =? FAT_LONG_NAME_ENTRY) && negb (Z.land b FAT_LAST_LONG =? 0) in
    if has_long_name then
      name16 <- fget long_name16;;
      r <- fat_get_long_name_uint16 buffer idx name16;;
      let '(res, buffer, idx, name16) := r in
      set_long_name16 name16;;
      if negb (FAT_SUCCESS =? res) then fret (u32 FAT_FAIL, buffer, idx, long_name)
      else
        long_name <- narrow_name 256 0 name16 long_name;;
        fret (FAT_SUCCESS, buffer, idx, long_name)
    else
      short_name <- fat_get_string buffer edx 11;;
      r <- short_chars 8 0 0 0 short_name long_name;;
      let '(k, long_name) := r in
      s8 <- ld short_name 8;;
      r <- (if negb (s8 =? 0x20) then
              long_name <- st long_name k 46;;
              short_chars 3 0 8 (k + 1) short_name long_name
            else fret (k, long_name));;
      let '(k, long_name) := r in
      long_name <- st long_name k 0;;
      fret (FAT_SUCCESS, buffer, idx, long_name).

(** ** Paths *)

Definition is_delim (c : Z) : bool :=
  (c =? 0) || (c =? 92) || (c =? 47) || (c =? 0x20).

Fixpoint next_path_delim_from (n : nat) (path : list Z) (next : Z) : F Z :=
  match n with
  | O => stop OutOfBounds
  | S n' =>
      c <- ld path next;;
      if is_delim c then fret next else next_path_delim_from n' path (next + 1)
  end.
(** A path of [n] characters is left after [n] rounds, by an access outside it. *)
Definition fat_idx_of_next_path_delim (path : list Z) (start : Z) : F Z :=
  next_path_delim_from (S (length path)) path start.

(** The character comparison of [fat_compare_entry_name]. *)
Fixpoint same_chars (n : nat) (k pmin : Z) (path name : list Z) : F bool :=
  match n with
  | O => fret true
  | S n' =>
      a <- ld name k;;
      b <- ld path (pmin + k);;
      if negb (toupper a =? toupper (to_char b)) then fret false
      else same_chars n' (k + 1) pmin path name
  end.

(** The result, sector and *cdidx. *)
Definition fat_compare_entry_name (path : list Z) (pmin pmax : Z) (sector : list Z)
    (cdidx : FatDirEntryIdx) : F (Z * list Z * FatDirEntryIdx) :=
  name8 <- fget long_name8;;
  r <- fat_get_long_name_uint8 sector cdidx name8;;
  let '(res, sector, cdidx, name8) := r in
  set_long_name8 name8;;
  if FAT_SUCCESS =? res then
    entry_len <- fat_idx_of_next_path_delim name8 0;;
    let part_len := pmax - pmin in
    if negb (entry_len =? part_len) then fret (FAT_FAIL, sector, cdidx)
    else
      same <- same_chars (Z.to_nat entry_len) 0 pmin path name8;;
      fret ((if (same : bool) then FAT_SUCCESS else FAT_FAIL), sector, cdidx)
  else fret (FAT_FAIL, sector, cdidx).

(** The loop over the entries of a sector, from [cdidx.index] on. *)
Fixpoint resolve_in_sector (fuel : nat) (path : list Z) (pmin pmax entries : Z)
    (sector : list Z) (cdidx : FatDirEntryIdx) : F (bool * list Z * FatDirEntryIdx) :=
  match fuel with
  | O => stop OutOfFuel
  | S fuel' =>
      if d_index cdidx <? entries then
        r <- fat_compare_entry_name path pmin pmax sector cdidx;;
        let '(res, sector, cdidx) := r in
        if FAT_SUCCESS =? res then fret (true, sector, cdidx)
        else resolve_in_sector fuel' path pmin pmax entries sector
               (mk_didx (d_cluster cdidx) (d_sector cdidx) (u32 (d_index cdidx + 1)))
      else fret (false, sector, cdidx)
  end.

(** The loop over the sectors of a cluster, from [cdidx.sector] on. *)
Fixpoint resolve_in_cluster (fuel : nat) (path : list Z) (pmin pmax entries start_sector : Z)
    (sector : list Z) (cdidx : FatDirEntryIdx) : F (bool * list Z * FatDirEntryIdx) :=
  match fuel with
  | O => stop OutOfFuel
  | S fuel' =>
      p <- fget fat_pinfo;;
      if d_sector cdidx <? sectors_per_cluster p then
        r <- fat_read_single_block (u32 (start_sector + d_sector cdidx)) sector;;
        r <- resolve_in_sector loop_fuel path pmin pmax entries (snd r)
               (mk_didx (d_cluster cdidx) (d_sector cdidx) 0);;
        let '(found, sector, cdidx) := r in
        if (found : bool) then fret (true, sector, cdidx)
        else resolve_in_cluster fuel' path pmin pmax entries start_sector sector
               (mk_didx (d_cluster cdidx) (u32 (d_sector cdidx + 1)) (d_index cdidx))
      else fret (false, sector, cdidx)
  end.

(** How the search of one directory ends: the function returns, the
    directory is exhausted, or the search goes on in a subdirectory. *)
Inductive dir_result :=
  | DirReturn (res : Z) (sector : list Z) (dir_idx : FatDirEntryIdx)
  | DirExhausted (sector : list Z) (cdidx : FatDirEntryIdx)
  | DirDescend (cluster : Z) (sector : list Z) (cdidx : FatDirEntryIdx).

(** The inner while loop: the clusters of one directory. *)
Fixpoint resolve_in_dir (fuel : nat) (path : list Z) (pmin pmax entries current_cluster : Z)
    (sector : list Z) (cdidx dir_idx : FatDirEntryIdx) : F dir_result :=
  match fuel with
  | O => stop OutOfFuel
  | S fuel' =>
      start_sector <- fat_first_sector_of_cluster current_cluster;;
      r <- resolve_in_cluster loop_fuel path pmin pmax entries start_sector sector
             (mk_didx current_cluster 0 (d_index cdidx));;
      let '(found, sector, cdidx) := r in
      if negb found then
        r <- fat_get_table_value current_cluster 0;;
        let tv := snd r in
        if negb (FAT_SUCCESS =? fst r) then fret (DirExhausted sector cdidx)
        else if FAT_TV_LAST tv then fret (DirExhausted sector cdidx)
        else if FAT_TV_BAD tv then fret (DirExhausted sector cdidx)
        else resolve_in_dir fuel' path pmin pmax entries tv sector cdidx dir_idx
      else
        attrib <- fat_attrib_of_dir_entry sector (d_index cdidx);;
        let isdir := Z.land FAT_DIRECTORY attrib in
        c <- ld path pmax;;
        if negb (0 =? c) then
          if isdir =? 0 then set_errno ENOTDIR;; fret (DirReturn FAT_FAIL sector dir_idx)
          else
            cluster <- fat_cluster_of_dir_entry sector (d_index cdidx);;
            fret (DirDescend cluster sector cdidx)
        else set_errno 0;; fret (DirReturn FAT_SUCCESS sector cdidx)
  end.

(** The outer while loop: the parts of the path. *)
Fixpoint resolve_parts (fuel : nat) (path : list Z) (pmin entries current_cluster : Z)
    (sector : list Z) (cdidx dir_idx : FatDirEntryIdx) : F (Z * list Z * FatDirEntryIdx) :=
  match fuel with
  | O => stop OutOfFuel
  | S fuel' =>
      pmax <- fat_idx_of_next_path_delim path pmin;;
      r <- resolve_in_dir loop_fuel path pmin pmax entries current_cluster sector cdidx dir_idx;;
      match r with
      | DirReturn res sector dir_idx => fret (res, sector, dir_idx)
      | DirExhausted sector cdidx => set_errno ENOENT;; fret (FAT_FAIL, sector, dir_idx)
      | DirDescend cluster sector cdidx =>
          resolve_parts fuel' path (pmax + 1) entries cluster sector cdidx dir_idx
      end
  end.

(** The result, sector and *dir_idx. *)
Definition fat_resolve_path (path : list Z) (sector : list Z) (dir_idx : FatDirEntryIdx)
    : F (Z * list Z * FatDirEntryIdx) :=
  p <- fget fat_pinfo;;
  resolve_parts (S (length path)) path 0 (bytes_per_sector p / FAT_DIR_ENTRY_WIDTH)
    (root_dir_cluster p) sector dir_idx dir_idx.

(** ** The arrays for long names *)

Lemma narrow_name_overruns n : forall i name16 long_name s,
  0 <= i <= Z.of_nat (length name16) -> Z.of_nat (length name16) < i + Z.of_nat n ->
  length long_name = length name16 -> narrow_name n i name16 long_name s = Crash OutOfBounds.
Proof.
  induction n as [|n IH]; intros i name16 long_name s Hi Hn Hl; [lia|]. cbn [narrow_name]. unfold fbind, ld, st. rewrite Hl.
  destruct (Z.ltb_spec i (Z.of_nat (length name16))); [|by rewrite andb_false_r].
  rewrite (proj2 (Z.leb_le 0 i)) by lia. cbn. apply IH; [lia|lia|by rewrite length_insert].
Qed.

(** The loop that narrows a long name copies 256 elements between arrays of
    255: for every entry with a long name that was read, fat_get_long_name_uint8
    reads and writes behind the end of both. *)
Theorem long_name_overruns buffer idx long_name s r s' :
  length long_name = 255%nat -> length (snd r) = 255%nat ->
  (exists b attrib, ld buffer (u32 (d_index idx * FAT_DIR_ENTRY_WIDTH)) s = Ret b s /\ b <> 0xE5 /\ b <> 0 /\
     fat_attrib_of_dir_entry buffer (d_index idx) s = Ret attrib s /\ attrib = FAT_LONG_NAME_ENTRY /\ Z.land b FAT_LAST_LONG <> 0) ->
  fat_get_long_name_uint16 buffer idx (long_name16 s) s = Ret r s' -> fst (fst (fst r)) = FAT_SUCCESS ->
  fat_get_long_name_uint8 buffer idx long_name s = Crash OutOfBounds.
Proof.
  intros Hl Hr (b & attrib & Hb & Hn1 & Hn2 & Ha & -> & Hlast) H16 Hres. unfold fat_get_long_name_uint8, fbind.
  rewrite Hb, (proj2 (Z.eqb_neq 0xE5 b)), (proj2 (Z.eqb_neq 0 b)) by done. cbn [orb]. rewrite Ha, Z.eqb_refl, (proj2 (Z.eqb_neq _ 0)) by done.
  cbn [andb negb]. unfold fget. rewrite H16. destruct r as [[[res buffer'] idx'] name16]. cbn in Hr, Hres. subst res.
  unfold set_long_name16, fmod. rewrite Z.eqb_refl. cbn [negb]. rewrite narrow_name_overruns; [done|lia|lia|congruence].
Qed.

End FatName.
