(* ===== verification/FatDir.v ===== *)
(** FatDir: creating and deleting directory entries, the functions
    fat_open_dir_entry, fat_create and fat_delete of libsd/fat32.c.

    The two long functions are split at their comments: isolating the file
    name, building the short name, searching the directory, writing the
    entries.  A definition's arguments are the locals the part uses, its
    result the locals the rest of the function needs. *)

From stdpp Require Import base numbers list gmap.
From S2P Require Import Prelude SdDisk FatTable FatName.

(** sprintf with %ld: the decimal digits of a number, and the NUL. *)
Fixpoint digits_from (fuel : nat) (n : Z) (acc : list Z) : list Z :=
  match fuel with
  | O => acc
  | S fuel' =>
      let acc := (48 + n mod 10) :: acc in
      if n / 10 =? 0 then acc else digits_from fuel' (n / 10) acc
  end.
Definition sprintf_ld (n : Z) : list Z :=
  (if n <? 0 then 45 :: digits_from 11 (- n) [] else digits_from 11 n []) ++ [0].

Section FatDir.
Context `{BlockDev} {E : FatEnv} {CM : CharModel}.
Local Open Scope fat_scope.

(** ** Open files *)

Fixpoint open_dir_entry_from (n : nat) (i : Z) (sector : list Z) (entry_idx : FatDirEntryIdx)
    : F Z :=
  match n with
  | O => fret (-1)
  | S n' =>
      files <- fget fat_open_files;;
      match files !! Z.to_nat i with
      | None => stop OutOfBounds
      | Some f =>
          if 0 =? f_free f then open_dir_entry_from n' (i + 1) sector entry_idx
          else
            start <- fat_cluster_of_dir_entry sector (d_index entry_idx);;
            size <- fat_size_of_dir_entry sector (d_index entry_idx);;
            set_open_files (<[Z.to_nat i := mk_file 0 0 entry_idx start start size]> files);;
            fret (i + FAT_FD_OFFSET)
      end
  end.
Definition fat_open_dir_entry (sector : list Z) (entry_idx : FatDirEntryIdx) : F Z :=
  open_dir_entry_from (Z.to_nat FAT_MAX_FILES) 0 sector entry_idx.

(** ** Isolate the file from the rest of the path *)

(** pmin and pmax of the last part of the path. *)
Fixpoint last_part_from (fuel : nat) (path : list Z) (pmin : Z) : F (Z * Z) :=
  match fuel with
  | O => stop OutOfFuel
  | S fuel' =>
      pmax <- fat_idx_of_next_path_delim path pmin;;
      delim <- ld path pmax;;
      if delim =? 0 then fret (pmin, pmax) else last_part_from fuel' path (pmax + 1)
  end.
Definition last_part (path : list Z) : F (Z * Z) := last_part_from (S (length path)) path 0.

(** [dir_path]: the first [pmin] characters with a NUL in place of the
    delimiter and a NUL after them.  The array has [pmin] elements: the
    cell after it is modelled as part of it; with [pmin] = 0 the access to
    [dir_path[-1]] is left out and the path is not used. *)
Definition parent_path (path : list Z) (pmin : Z) : list Z :=
  let dir_path := take (Z.to_nat pmin) path ++ [0] in
  if negb (at_ dir_path (pmin - 1) =? 0) then <[Z.to_nat (pmin - 1) := 0]> dir_path else dir_path.

(** The cluster of the parent directory, if it exists; sector and *pdir_idx. *)
Definition find_parent (path : list Z) (pmin : Z) (sector : list Z) (pdir_idx : FatDirEntryIdx)
    : F (bool * list Z * FatDirEntryIdx) :=
  if pmin =? 0 then
    p <- fget fat_pinfo;;
    fret (true, sector, mk_didx (root_dir_cluster p) (d_sector pdir_idx) (d_index pdir_idx))
  else
    r <- fat_resolve_path (parent_path path pmin) sector pdir_idx;;
    let '(res, sector, pdir_idx) := r in
    if FAT_SUCCESS =? res then
      cluster <- fat_cluster_of_dir_entry sector (d_index pdir_idx);;
      fret (true, sector, mk_didx cluster (d_sector pdir_idx) (d_index pdir_idx))
    else fret (false, sector, pdir_idx).

(** ** The short name *)

(** last_dot_idx: the loop runs from the end of the name and keeps the last
    dot it sees. *)
Fixpoint find_dot (n : nat) (i : Z) (path : list Z) (pmax last_dot_idx : Z) : F Z :=
  match n with
  | O => fret last_dot_idx
  | S n' =>
      c <- ld path (pmax - 1 - i);;
      find_dot n' (i + 1) path pmax (if c =? 46 then pmax - 1 - i else last_dot_idx)
  end.

(** Copies the name without spaces and periods. *)
Fixpoint copy_name (n : nat) (i : Z) (path : list Z) (pmin copied : Z) (fname_short : list Z)
    : F (list Z) :=
  match n with
  | O => fret fname_short
  | S n' =>
      c <- ld path (pmin + i);;
      if (copied <? 8) && negb (c =? 32) && negb (c =? 46) then
        fname_short <- st fname_short copied (to_char (toupper (to_char c)));;
        copy_name n' (i + 1) path pmin (copied + 1) fname_short
      else copy_name n' (i + 1) path pmin copied fname_short
  end.

(** Copies three characters after the dot. *)
Fixpoint copy_ext (n : nat) (i : Z) (path : list Z) (last_dot_idx : Z) (fname_short : list Z)
    : F (list Z) :=
  match n with
  | O => fret fname_short
  | S n' =>
      c <- ld path (last_dot_idx + 1 + i);;
      fname_short <- st fname_short (8 + i) (to_char (toupper (to_char c)));;
      copy_ext n' (i + 1) path last_dot_idx fname_short
  end.

Record name_info := mk_name_info {
  name_len_total : Z;
  name_len : Z;
  extension_len : Z;
  last_dot_idx : Z;
  req_entries : Z;
}.

Definition split_name (path : list Z) (pmin pmax : Z) : F name_info :=
  let total := pmax - pmin in
  dot <- find_dot (Z.to_nat total) 0 path pmax (-1);;
  let nl := if 0 <? dot then dot - pmin else total in
  let el := if 0 <? dot then total - nl - 1 else 0 in
  let req := if (8 <? nl) || (3 <? el)
             then 1 + total / 13 + (if negb (total mod 13 =? 0) then 1 else 0) else 1 in
  fret (mk_name_info total nl el dot req).

Definition make_short_name (path : list Z) (pmin : Z) (ni : name_info) : F (list Z) :=
  let fname_short := replicate 11 0x20 in
  fname_short <- copy_name (Z.to_nat (name_len ni)) 0 path pmin 0 fname_short;;
  if 0 <? last_dot_idx ni then copy_ext 3 0 path (last_dot_idx ni) fname_short
  else fret fname_short.

(** ** Searching a directory for free entries *)

Record search := mk_search {
  empty_entries_seen : Z;
  first_dir_idx : FatDirEntryIdx;
  target_dir_idx : FatDirEntryIdx;
  short_name_nums : list Z;
  done_searching : bool;
  reached_last : bool;
  found_index : bool;
}.

(** Compares a short name: the number of equal leading characters and the
    collision counts, incremented for each. *)
Fixpoint count_collisions (n : nat) (k : Z) (fname_short ent nums : list Z) : F (Z * list Z) :=
  match n with
  | O => fret (k, nums)
  | S n' =>
      a <- ld fname_short k;;
      b <- ld ent k;;
      if toupper a =? toupper b then
        v <- ld nums (k + 1);;
        nums <- st nums (k + 1) (u32 (v + 1));;
        count_collisions n' (k + 1) fname_short ent nums
      else fret (k, nums)
  end.

(** The entry [ent] of a loaded sector. *)
Definition entry_bytes (sector : list Z) (j : Z) : F (list Z) :=
  copy_from sector (FAT_DIR_ENTRY_WIDTH * j) FAT_DIR_ENTRY_WIDTH.

(** The loop over the entries of sector [i] of the cluster. *)
Fixpoint search_sector (n : nat) (j i current_cluster req : Z) (fname_short sector : list Z)
    (q : search) : F search :=
  match n with
  | O => fret q
  | S n' =>
      let next := search_sector n' (j + 1) i current_cluster req fname_short sector in
      ent <- entry_bytes sector j;;
      let e0 := at_ ent 0 in
      let last := reached_last q || (FAT_DIR_ENTRY_LAST =? e0) in
      if last || (e0 =? FAT_DIR_ENTRY_FREE) then
        let seen := u32 (empty_entries_seen q + 1) in
        let here := mk_didx current_cluster i j in
        let new := negb (found_index q) in
        let hit := new && (req <=? seen) in
        next (mk_search seen
                (if new && (seen =? 1) then here else first_dir_idx q)
                (if hit then here else target_dir_idx q)
                (short_name_nums q) (done_searching q) last (found_index q || hit))
      else
        let q0 nums done := mk_search 0 (first_dir_idx q) (target_dir_idx q) nums done last
                              (found_index q) in
        if negb (at_ ent 11 =? FAT_LONG_NAME_ENTRY) then
          v <- ld (short_name_nums q) 0;;
          nums <- st (short_name_nums q) 0 (u32 (v + 1));;
          r <- count_collisions 11 0 fname_short ent nums;;
          let '(k, nums) := r in
          if k =? 11 then set_errno EEXIST;; fret (q0 nums true)
          else next (q0 nums (done_searching q))
        else next (q0 (short_name_nums q) (done_searching q))
  end.

(** The loop over the sectors of the cluster. *)
Fixpoint search_cluster (n : nat) (i current_cluster start_sector entries req : Z)
    (fname_short sector : list Z) (q : search) : F (list Z * search) :=
  match n with
  | O => fret (sector, q)
  | S n' =>
      r <- fat_read_single_block (u32 (start_sector + i)) sector;;
      q <- search_sector (Z.to_nat entries) 0 i current_cluster req fname_short (snd r) q;;
      search_cluster n' (i + 1) current_cluster start_sector entries req fname_short (snd r) q
  end.

(** Marks the entries of the last sector from [index] on as free. *)
Fixpoint free_tail (n : nat) (j index : Z) (sector : list Z) : F (list Z) :=
  match n with
  | O => fret sector
  | S n' =>
      sector <- st sector (FAT_DIR_ENTRY_WIDTH * (index + j)) FAT_DIR_ENTRY_FREE;;
      free_tail n' (j + 1) index sector
  end.

(** The loop over the clusters of the directory. *)
Fixpoint search_dir (fuel : nat) (current_cluster entries req : Z)
    (fname_short sector : list Z) (q : search) : F (list Z * search) :=
  match fuel with
  | O => stop OutOfFuel
  | S fuel' =>
      if done_searching q then fret (sector, q)
      else
        p <- fget fat_pinfo;;
        start_sector <- fat_first_sector_of_cluster current_cluster;;
        r <- search_cluster (Z.to_nat (sectors_per_cluster p)) 0 current_cluster start_sector
               entries req fname_short sector q;;
        let '(sector, q) := r in
        if found_index q then fret (sector, q)
        else
          r <- fat_acquire_next_cluster current_cluster true;;
          if negb (FAT_SUCCESS =? fst r) then
            fret (sector, mk_search (empty_entries_seen q) (first_dir_idx q) (target_dir_idx q)
                    (short_name_nums q) true (reached_last q) (found_index q))
          else
            let q := mk_search 0 (first_dir_idx q) (target_dir_idx q)
                       (short_name_nums q) (done_searching q) (reached_last q) (found_index q) in
            if reached_last q then
              let f := first_dir_idx q in
              sector <- free_tail (Z.to_nat (u32 (entries - d_index f))) 0 (d_index f) sector;;
              if negb (d_sector f =? u32 (sectors_per_cluster p - 1)) then stop AssertFailed
              else
                w <- fat_write_single_block (u32 (start_sector + d_sector f)) sector;;
                if negb (FAT_SUCCESS =? w) then fret (sector, q)
                else search_dir fuel' (snd r) entries req fname_short sector q
            else search_dir fuel' (snd r) entries req fname_short sector q
  end.

(** ** Writing the entries *)

(** short_name_chars: how many characters of the short name are kept. *)
Fixpoint tail_chars (n : nat) (nums : list Z) (short_name_chars short_chars_max : Z) : F Z :=
  match n with
  | O => stop OutOfFuel
  | S n' =>
      if 0 <=? short_name_chars then
        v <- ld nums short_name_chars;;
        if short_chars_max <=? u32 (v + 1)
        then tail_chars n' nums (short_name_chars - 1) (u32 (short_chars_max * 10))
        else fret short_name_chars
      else fret short_name_chars
  end.

(** memcpy of a string into [fname_short], cell by cell. *)
Fixpoint st_string (bytes : list Z) (off : Z) (buf : list Z) : F (list Z) :=
  match bytes with
  | [] => fret buf
  | b :: bytes' => buf <- st buf off b;; st_string bytes' (off + 1) buf
  end.

Definition add_tail (path : list Z) (ni : name_info) (nums fname_short : list Z) : F (list Z) :=
  let chars := umin (name_len ni) (if 1 <? req_entries ni then 6 else 8) in
  chars <- tail_chars 12 nums chars 10;;
  if 1 <? req_entries ni then
    fname_short <- st fname_short chars 126;;
    v <- ld nums chars;;
    fname_short <- st_string (sprintf_ld (s32 (1 + v))) (chars + 1) fname_short;;
    if 0 <? last_dot_idx ni then copy_ext 3 0 path (last_dot_idx ni) fname_short
    else fret fname_short
  else fret fname_short.

Definition name_checksum (fname_short : list Z) : Z :=
  fold_left (fun checksum c => u8 (u8 (Z.shiftr checksum 1 + Z.shiftl checksum 7) + c))
    fname_short 0.

(** One of the three loops that write characters of a long entry. *)
Fixpoint write_chars (n : nat) (i : Z) (path : list Z) (pmax path_off off : Z) (sector : list Z)
    : F (Z * list Z) :=
  match n with
  | O => fret (path_off, sector)
  | S n' =>
      v <- (if pmax <? path_off then fret 0xFFFF
            else if path_off =? pmax then fret 0
            else c <- ld path path_off;; fret (u16 (to_char c)));;
      sector <- fat_set_uint16 v sector (off + 2 * i);;
      write_chars n' (i + 1) path pmax (u32 (path_off + 1)) off sector
  end.

(** A long entry at byte [ent] of the sector, with ordinal [ord]. *)
Definition write_long_entry (path : list Z) (pmax path_off ord checksum ent : Z) (sector : list Z)
    : F (Z * list Z) :=
  sector <- fat_set_uint8 ord sector (ent + 0);;
  sector <- fat_set_uint8 FAT_LONG_NAME_ENTRY sector (ent + 11);;
  sector <- fat_set_uint8 0 sector (ent + 12);;
  sector <- fat_set_uint8 checksum sector (ent + 13);;
  sector <- fat_set_uint16 0 sector (ent + 26);;
  r <- write_chars 5 0 path pmax path_off (ent + 1) sector;;
  let '(path_off, sector) := r in
  r <- write_chars 6 0 path pmax path_off (ent + 14) sector;;
  let '(path_off, sector) := r in
  r <- write_chars 2 0 path pmax path_off (ent + 28) sector;;
  let '(path_off, sector) := r in
  fret (u32 (path_off - 2 * 13), sector).

(** The short entry at byte [ent]. *)
Definition write_short_entry (fname_short : list Z) (isfile : bool) (new_cluster ent : Z)
    (sector : list Z) : F (list Z) :=
  sector <- copy_to sector ent (u8 <$> fname_short);;
  let attrib := Z.lor FAT_ARCHIVE (if isfile then 0 else FAT_DIRECTORY) in
  sector <- fat_set_uint8 attrib sector (ent + 11);;
  sector <- fat_set_uint8 0 sector (ent + 13);;
  sector <- fat_set_uint16 0 sector (ent + 14);;
  sector <- fat_set_uint16 0 sector (ent + 16);;
  sector <- fat_set_uint16 0 sector (ent + 18);;
  sector <- fat_set_uint16 0 sector (ent + 22);;
  sector <- fat_set_uint16 0 sector (ent + 24);;
  sector <- fat_set_uint16 (Z.shiftr new_cluster 16) sector (ent + 20);;
  sector <- fat_set_uint16 new_cluster sector (ent + 26);;
  fat_set_uint32 0 sector (ent + 28).

Record wr_state := mk_wr {
  wr_sector : list Z;
  wr_cluster : Z;
  wr_sec_off : Z;
  wr_sec_start : Z;
  wr_ent_off : Z;
  wr_path_off : Z;
  wr_pdir_cluster : Z;
  wr_fd : Z;
}.

(** Advances to the next entry of the directory: at the end of a sector it
    is written back and the next one is loaded. *)
Definition next_entry (entries : Z) (sector : list Z) (cluster sec_off sec_start ent_off : Z)
    : F (list Z * Z * Z * Z * Z) :=
  let ent_off := u32 (ent_off + 1) in
  if entries <=? ent_off then
    p <- fget fat_pinfo;;
    fat_write_single_block (u32 (sec_start + sec_off)) sector;;
    let sec_off := u32 (sec_off + 1) in
    r <- (if sectors_per_cluster p <=? sec_off then
            r <- fat_acquire_next_cluster cluster false;;
            if FAT_SUCCESS =? fst r then
              start <- fat_first_sector_of_cluster (snd r);;
              fret (snd r, 0, start)
            else fret (snd r, sec_off, sec_start)
          else fret (cluster, sec_off, sec_start));;
    let '(cluster, sec_off, sec_start) := r in
    r <- fat_read_single_block (u32 (sec_start + sec_off)) sector;;
    fret (snd r, cluster, sec_off, sec_start, 0)
  else fret (sector, cluster, sec_off, sec_start, ent_off).

(** The writing loop; [en] is the current entry number. *)
Fixpoint write_entries (fuel : nat) (en : Z) (path : list Z) (pmax entries checksum new_cluster : Z)
    (req : Z) (isfile last : bool) (fname_short : list Z) (target : FatDirEntryIdx)
    (w : wr_state) : F wr_state :=
  match fuel with
  | O => stop OutOfFuel
  | S fuel' =>
      e <- fget s_errno;;
      if negb ((en <=? req) && (e =? 0)) then fret w
      else
        let ent := FAT_DIR_ENTRY_WIDTH * wr_ent_off w in
        if en =? 0 then
          sector <- (if last then st (wr_sector w) ent FAT_DIR_ENTRY_LAST else fret (wr_sector w));;
          fat_write_single_block (u32 (wr_sec_start w + wr_sec_off w)) sector;;
          fret (mk_wr sector (wr_cluster w) (wr_sec_off w) (wr_sec_start w) (wr_ent_off w)
                  (wr_path_off w) (wr_pdir_cluster w) (wr_fd w))
        else
          w1 <- (if en =? 1 then
                   sector <- write_short_entry fname_short isfile new_cluster ent (wr_sector w);;
                   r <- (if isfile then
                           fd <- fat_open_dir_entry sector target;;
                           fret (wr_pdir_cluster w, fd)
                         else fret (new_cluster, wr_fd w));;
                   fret (sector, wr_path_off w, fst r, snd r)
                 else
                   let ord := en - 1 in
                   let ord := if ord =? req - 1 then Z.lor ord FAT_LAST_LONG else ord in
                   r <- write_long_entry path pmax (wr_path_off w) ord checksum ent (wr_sector w);;
                   fret (snd r, fst r, wr_pdir_cluster w, wr_fd w));;
          let '(sector, path_off, pdir, fd) := w1 in
          r <- next_entry entries sector (wr_cluster w) (wr_sec_off w) (wr_sec_start w) (wr_ent_off w);;
          let '(sector, cluster, sec_off, sec_start, ent_off) := r in
          write_entries fuel' (u32 (en - 1)) path pmax entries checksum new_cluster req isfile last
            fname_short target (mk_wr sector cluster sec_off sec_start ent_off path_off pdir fd)
  end.

(** The part of [fat_create] after the search: sector, *pdir_idx and *fd. *)
Definition create_entries (path : list Z) (pmin pmax : Z) (ni : name_info) (fname_short : list Z)
    (q : search) (sector : list Z) (pdir_idx : FatDirEntryIdx) (fd : Z) (isfile : bool)
    : F (list Z * FatDirEntryIdx * Z) :=
  p <- fget fat_pinfo;;
  let entries := bytes_per_sector p / FAT_DIR_ENTRY_WIDTH in
  let req := req_entries ni in
  fname_short <- add_tail path ni (short_name_nums q) fname_short;;
  let checksum := name_checksum fname_short in
  let first := first_dir_idx q in
  sec_start <- fat_first_sector_of_cluster (d_cluster first);;
  r <- fat_acquire_next_cluster (d_cluster (target_dir_idx q)) false;;
  let new_cluster := snd r in
  let total := name_len_total ni in
  let path_off := u32 (pmax + (13 - total mod 13) - 13) in
  let path_off := if total mod 13 =? 0 then u32 (path_off - 13) else path_off in
  r <- fat_read_single_block (u32 (sec_start + d_sector first)) sector;;
  w <- write_entries (Z.to_nat (req + 2)) req path pmax entries checksum new_cluster req isfile
         (reached_last q) fname_short (target_dir_idx q)
         (mk_wr (snd r) (d_cluster first) (d_sector first) sec_start (d_index first) path_off
            (d_cluster pdir_idx) fd);;
  fret (wr_sector w, mk_didx (wr_pdir_cluster w) (d_sector pdir_idx) (d_index pdir_idx), wr_fd w).

(** The errors between the search and the writing. *)
Definition create_checks (pmax : Z) (ni : name_info) (q : search) : F unit :=
  e <- fget s_errno;;
  if negb (e =? 0) then fret tt
  else if negb (found_index q) then set_errno ENOSPC
  else if (req_entries ni =? 1) && (FAT_MAX_SHORT_PATH <=? pmax) then set_errno ENAMETOOLONG
  else if (2 <=? req_entries ni) &&
          ((FAT_MAX_LONG_PATH <=? pmax) || (FAT_MAX_LONG_NAME <=? name_len_total ni))
  then set_errno ENAMETOOLONG
  else fret tt.

(** The result, *pdir_idx, sector and *fd. *)
Definition fat_create (path : list Z) (pdir_idx : FatDirEntryIdx) (sector : list Z) (fd : Z)
    (isfile : bool) : F (Z * FatDirEntryIdx * list Z * Z) :=
  set_errno 0;;
  r <- last_part path;;
  let '(pmin, pmax) := r in
  r <- find_parent path pmin sector pdir_idx;;
  let '(path_resolved, sector, pdir_idx) := r in
  r <- (if (path_resolved : bool) then
          let pdir_idx := mk_didx (d_cluster pdir_idx) 0 0 in
          p <- fget fat_pinfo;;
          ni <- split_name path pmin pmax;;
          fname_short <- make_short_name path pmin ni;;
          let entries := bytes_per_sector p / FAT_DIR_ENTRY_WIDTH in
          let q := mk_search 0 (mk_didx (d_cluster pdir_idx) 0 0)
                     (mk_didx (u32 (junk 0)) (u32 (junk 1)) (u32 (junk 2)))
                     (replicate 12 0) false false false in
          r <- search_dir loop_fuel (d_cluster pdir_idx) entries (req_entries ni) fname_short sector q;;
          let '(sector, q) := r in
          create_checks pmax ni q;;
          e <- fget s_errno;;
          if e =? 0 then create_entries path pmin pmax ni fname_short q sector pdir_idx fd isfile
          else fret (sector, pdir_idx, fd)
        else fret (sector, pdir_idx, fd));;
  let '(sector, pdir_idx, fd) := r in
  e <- fget s_errno;;
  fret ((if e =? 0 then FAT_SUCCESS else FAT_FAIL), pdir_idx, sector, fd).

(** ** Deleting *)

Record scan := mk_scan {
  sc_sector : list Z;
  sc_idx : FatDirEntryIdx;
  sc_empty_seen : Z;
  sc_target : FatDirEntryIdx;
  sc_first_empty : FatDirEntryIdx;
  sc_first_target : FatDirEntryIdx;
  sc_initial_cluster : Z;
  sc_found_entry : bool;
  sc_found_next : bool;
  sc_reached_last : bool;
}.

Definition sc_at (x : FatDirEntryIdx) (c : scan) : scan :=
  mk_scan (sc_sector c) x (sc_empty_seen c) (sc_target c) (sc_first_empty c) (sc_first_target c)
    (sc_initial_cluster c) (sc_found_entry c) (sc_found_next c) (sc_reached_last c).

(** The body of the loop over the entries of a sector. *)
Definition delete_scan_entry (path : list Z) (pmin pmax : Z) (c : scan) : F scan :=
  e0 <- ld (sc_sector c) (FAT_DIR_ENTRY_WIDTH * d_index (sc_idx c));;
  let last := sc_reached_last c || (FAT_DIR_ENTRY_LAST =? e0) in
  if e0 =? FAT_DIR_ENTRY_FREE then
    let seen := u32 (sc_empty_seen c + 1) in
    fret (mk_scan (sc_sector c) (sc_idx c) seen (sc_target c)
            (if seen =? 1 then sc_idx c else sc_first_empty c) (sc_first_target c)
            (sc_initial_cluster c) (sc_found_entry c) (sc_found_next c) last)
  else if negb (sc_found_entry c) then
    r <- fat_compare_entry_name path pmin pmax (sc_sector c) (sc_idx c);;
    let '(res, sector, cidx) := r in
    if FAT_SUCCESS =? res then
      cluster <- fat_cluster_of_dir_entry sector (d_index cidx);;
      fret (mk_scan sector cidx (sc_empty_seen c) cidx (sc_first_empty c) (sc_idx c)
              cluster true (sc_found_next c) last)
    else
      fret (mk_scan sector cidx 0 (sc_target c) (sc_first_empty c) (sc_idx c)
              (sc_initial_cluster c) (sc_found_entry c) (sc_found_next c) last)
  else
    fret (mk_scan (sc_sector c) (sc_idx c) (sc_empty_seen c) (sc_target c) (sc_first_empty c)
            (sc_first_target c) (sc_initial_cluster c) (sc_found_entry c) true last).

Definition sc_stop (c : scan) : bool := sc_found_next c || sc_reached_last c.

Fixpoint delete_scan_sector (fuel : nat) (path : list Z) (pmin pmax entries : Z) (c : scan) : F scan :=
  match fuel with
  | O => stop OutOfFuel
  | S fuel' =>
      let x := sc_idx c in
      if d_index x <? entries then
        c <- delete_scan_entry path pmin pmax c;;
        if sc_stop c then fret c
        else
          let x := sc_idx c in
          delete_scan_sector fuel' path pmin pmax entries
            (sc_at (mk_didx (d_cluster x) (d_sector x) (u32 (d_index x + 1))) c)
      else fret c
  end.

Fixpoint delete_scan_cluster (fuel : nat) (path : list Z) (pmin pmax entries start_sector : Z)
    (c : scan) : F scan :=
  match fuel with
  | O => stop OutOfFuel
  | S fuel' =>
      p <- fget fat_pinfo;;
      let x := sc_idx c in
      if d_sector x <? sectors_per_cluster p then
        r <- fat_read_single_block (u32 (start_sector + d_sector x)) (sc_sector c);;
        let c := mk_scan (snd r) (mk_didx (d_cluster x) (d_sector x) 0) (sc_empty_seen c)
                   (sc_target c) (sc_first_empty c) (sc_first_target c) (sc_initial_cluster c)
                   (sc_found_entry c) (sc_found_next c) (sc_reached_last c) in
        c <- delete_scan_sector loop_fuel path pmin pmax entries c;;
        if sc_stop c then fret c
        else
          let x := sc_idx c in
          delete_scan_cluster fuel' path pmin pmax entries start_sector
            (sc_at (mk_didx (d_cluster x) (u32 (d_sector x + 1)) (d_index x)) c)
      else fret c
  end.

Fixpoint delete_scan_dir (fuel : nat) (path : list Z) (pmin pmax entries : Z) (c : scan) : F scan :=
  match fuel with
  | O => stop OutOfFuel
  | S fuel' =>
      let x := sc_idx c in
      start_sector <- fat_first_sector_of_cluster (d_cluster x);;
      c <- delete_scan_cluster loop_fuel path pmin pmax entries start_sector
             (sc_at (mk_didx (d_cluster x) 0 (d_index x)) c);;
      if sc_reached_last c || (sc_found_entry c && sc_found_next c) then fret c
      else
        let x := sc_idx c in
        r <- fat_acquire_next_cluster (d_cluster x) false;;
        let c := sc_at (mk_didx (snd r) (d_sector x) (d_index x)) c in
        if negb (FAT_SUCCESS =? fst r) then fret c
        else delete_scan_dir fuel' path pmin pmax entries c
  end.

(** Marks the entries from the first to the target one. *)
Fixpoint mark_entries (fuel : nat) (mark entries : Z) (target : FatDirEntryIdx) (sector : list Z)
    (cluster sec_off sec_start ent_off : Z) : F (list Z) :=
  match fuel with
  | O => stop OutOfFuel
  | S fuel' =>
      e <- fget s_errno;;
      if negb (e =? 0) then fret sector
      else
        let done := (cluster =? d_cluster target) && (sec_off =? d_sector target) &&
                    (ent_off =? d_index target) in
        sector <- fat_set_uint8 mark sector (FAT_DIR_ENTRY_WIDTH * ent_off);;
        if done then
          fat_write_single_block (u32 (sec_start + sec_off)) sector;; fret sector
        else
          r <- next_entry entries sector cluster sec_off sec_start ent_off;;
          let '(sector, cluster, sec_off, sec_start, ent_off) := r in
          mark_entries fuel' mark entries target sector cluster sec_off sec_start ent_off
  end.

(** The part of [fat_delete] that updates the directory. *)
Definition delete_entries (entries : Z) (c : scan) : F (list Z) :=
  if sc_reached_last c && (0 <? sc_empty_seen c) then
    let x := sc_first_empty c in
    start <- fat_first_sector_of_cluster (d_cluster x);;
    let sec_addr := u32 (start + d_sector x) in
    r <- fat_read_single_block sec_addr (sc_sector c);;
    sector <- fat_set_uint8 FAT_DIR_ENTRY_LAST (snd r) (u32 (d_index x * FAT_DIR_ENTRY_WIDTH));;
    fat_write_single_block sec_addr sector;; fret sector
  else
    let x := sc_first_target c in
    sec_start <- fat_first_sector_of_cluster (d_cluster x);;
    let mark := if sc_reached_last c then FAT_DIR_ENTRY_LAST else FAT_DIR_ENTRY_FREE in
    r <- fat_read_single_block (u32 (sec_start + d_sector x)) (sc_sector c);;
    mark_entries loop_fuel mark entries (sc_target c) (snd r)
      (d_cluster x) (d_sector x) sec_start (d_index x).

(** The result and sector. *)
Definition fat_delete (path : list Z) (sector : list Z) : F (Z * list Z) :=
  set_errno 0;;
  r <- last_part path;;
  let '(pmin, pmax) := r in
  let no_idx := mk_didx (u32 (junk 0)) (u32 (junk 1)) (u32 (junk 2)) in
  r <- find_parent path pmin sector no_idx;;
  let '(path_resolved, sector, pdir_idx) := r in
  sector <-
    (if (path_resolved : bool) then
       p <- fget fat_pinfo;;
       let entries := bytes_per_sector p / FAT_DIR_ENTRY_WIDTH in
       let cluster := d_cluster pdir_idx in
       c <- delete_scan_dir loop_fuel path pmin pmax entries
              (mk_scan sector (mk_didx cluster 0 0) 0 no_idx (mk_didx cluster 0 0) no_idx 0
                 false false false);;
       e <- fget s_errno;;
       if negb (e =? 0) then fret (sc_sector c)
       else if negb (sc_found_entry c) then set_errno ENOENT;; fret (sc_sector c)
       else
         r <- (if sc_initial_cluster c =? 0 then fret FAT_SUCCESS
               else fat_free_cluster_chain (sc_initial_cluster c));;
         if FAT_SUCCESS =? r then delete_entries entries c else fret (sc_sector c)
     else fret sector);;
  e <- fget s_errno;;
  fret ((if e =? 0 then FAT_SUCCESS else FAT_FAIL), sector).

End FatDir.
