(* ===== verification/FatFs.v ===== *)
(** FatFs: the interface of the FAT32 library, libsd/fat32.c: fat_init,
    fat_open, fat_close, fat_write, fat_read, fat_lseek, fat_unlink,
    fat_creat, fat_mkdir and fat_rmdir.

    A file descriptor [fd] is the element [fd - FAT_FD_OFFSET] of
    [fat_open_files].  The user's buffer is the list of its bytes; a pointer
    [buf + n] into it is the list from [n] on. *)

From stdpp Require Import base numbers list gmap.
From S2P Require Import Prelude SdDisk FatTable FatName FatDir.

(** fcntl.h and stdio.h. *)
Definition O_WRONLY := 0x0001.
Definition O_APPEND := 0x0008.
Definition O_CREAT := 0x0200.
Definition O_TRUNC := 0x0400.
Definition O_EXCL := 0x0800.
Definition SEEK_SET := 0.
Definition SEEK_CUR := 1.
Definition SEEK_END := 2.

Section FatFs.
Context `{BlockDev} {E : FatEnv} {CM : CharModel}.
Local Open Scope fat_scope.

Definition any_idx : FatDirEntryIdx := mk_didx (u32 (junk 0)) (u32 (junk 1)) (u32 (junk 2)).

(** [f->...] for the open file [i], and an assignment to it. *)
Definition get_file (i : Z) : F FatFile :=
  files <- fget fat_open_files;;
  match files !! Z.to_nat i with Some f => fret f | None => stop OutOfBounds end.
Definition put_file (i : Z) (f : FatFile) : F unit :=
  files <- fget fat_open_files;;
  set_open_files (<[Z.to_nat i := f]> files).
Definition set_free (v : Z) (f : FatFile) : FatFile :=
  mk_file v (f_pos f) (f_dir_idx f) (f_start_cluster f) (f_current_cluster f) (f_size f).
Definition set_pos (v : Z) (f : FatFile) : FatFile :=
  mk_file (f_free f) v (f_dir_idx f) (f_start_cluster f) (f_current_cluster f) (f_size f).
Definition set_current (v : Z) (f : FatFile) : FatFile :=
  mk_file (f_free f) (f_pos f) (f_dir_idx f) (f_start_cluster f) v (f_size f).
Definition set_size (v : Z) (f : FatFile) : FatFile :=
  mk_file (f_free f) (f_pos f) (f_dir_idx f) (f_start_cluster f) (f_current_cluster f) v.

(** The checks that fat_close, fat_write, fat_read and fat_lseek begin
    with: the index of the open file, or the failure. *)
Definition check_fd (fd : Z) : F (option Z) :=
  set_errno 0;;
  init <- fget fat_initialized;;
  if init =? 0 then set_errno EPERM;; fret None
  else if (fd <? FAT_FD_OFFSET) || (FAT_FD_OFFSET + FAT_MAX_FILES <=? fd) then
    set_errno EINVAL;; fret None
  else
    f <- get_file (fd - FAT_FD_OFFSET);;
    if negb (f_free f =? 0) then set_errno EBADF;; fret None
    else fret (Some (fd - FAT_FD_OFFSET)).

Definition fat_init (pinfo : FatPartitionInfo) : F Z :=
  init <- fget fat_initialized;;
  if negb (init =? 0) then set_errno EPERM;; fret FAT_FAIL
  else
    set_fat_pinfo pinfo;;
    files <- fget fat_open_files;;
    set_open_files ((fun f => set_pos 0 (set_free 1 f)) <$> files);;
    set_fat_initialized 1;;
    set_errno 0;; fret FAT_SUCCESS.

Definition fat_close (fd : Z) : F Z :=
  o <- check_fd fd;;
  match o with
  | None => fret FAT_FAIL
  | Some i =>
      f <- get_file i;;
      put_file i (set_free 1 f);;
      set_errno 0;; fret FAT_SUCCESS
  end.

(** ** Seeking *)

(** The walk along the chain: the cluster it stops at, or None for the
    return of FAT_FAIL at the end of the chain. *)
Fixpoint seek_clusters (n : nat) (s_cluster : Z) : F (option Z) :=
  match n with
  | O => fret (Some s_cluster)
  | S n' =>
      r <- fat_get_table_value s_cluster 0;;
      let tv := snd r in
      if negb (FAT_SUCCESS =? fst r) then fret (Some s_cluster)
      else if FAT_TV_BAD tv then set_errno EAGAIN;; fret (Some s_cluster)
      else if FAT_TV_LAST tv then fret None
      else seek_clusters n' tv
  end.

Definition fat_lseek (fd pos whence : Z) : F Z :=
  o <- check_fd fd;;
  match o with
  | None => fret FAT_FAIL
  | Some i =>
      f <- get_file i;;
      let target :=
        if whence =? SEEK_SET then Some pos
        else if whence =? SEEK_CUR then Some (s32 (f_pos f + pos))
        else if whence =? SEEK_END then Some (s32 (f_size f + pos))
        else None in
      match target with
      | None => set_errno EINVAL;; fret FAT_FAIL
      | Some abs_pos =>
          if (abs_pos <? 0) || (f_size f <? abs_pos) then set_errno EPIPE;; fret FAT_FAIL
          else
            p <- fget fat_pinfo;;
            let bytes_per_cluster := u32 (bytes_per_sector p * sectors_per_cluster p) in
            let forward := f_pos f <? abs_pos in
            let clusters_to_search :=
              if forward
              then u32 (f_pos f mod bytes_per_cluster + u32 (abs_pos - f_pos f)) / bytes_per_cluster
              else abs_pos / bytes_per_cluster in
            let s_cluster := if forward then f_current_cluster f else f_start_cluster f in
            r <- seek_clusters (Z.to_nat clusters_to_search) s_cluster;;
            match r with
            | None => fret FAT_FAIL
            | Some s_cluster =>
                f <- get_file i;;
                put_file i (set_pos abs_pos (set_current s_cluster f));;
                set_errno 0;; fret abs_pos
            end
      end
  end.

(** ** Reading *)

(** The counter update after a transfer of [rdsz] bytes: secoff and secfirst
    for the next round, or None where the code leaves the loop with errno set. *)
Definition read_next (i sz byteoff rdsz secoff secfirst : Z) : F (option (Z * Z)) :=
  p <- fget fat_pinfo;;
  if (0 <? sz) && (bytes_per_sector p <=? u32 (byteoff + rdsz)) then
    let secoff := u32 (secoff + 1) in
    if sectors_per_cluster p <=? secoff then
      f <- get_file i;;
      r <- fat_get_table_value (f_current_cluster f) 0;;
      let tv := snd r in
      if negb (FAT_SUCCESS =? fst r) then set_errno ENOSPC;; fret None
      else if FAT_TV_BAD tv then set_errno EBADF;; fret None
      else if FAT_TV_LAST tv then set_errno EBADF;; fret None
      else if FAT_TV_FREE tv then set_errno EBADF;; fret None
      else
        put_file i (set_current tv f);;
        secfirst <- fat_first_sector_of_cluster tv;;
        fret (Some (0, secfirst))
    else fret (Some (secoff, secfirst))
  else fret (Some (secoff, secfirst)).

(** The transfer loop: bytes_read and the user's buffer. *)
Fixpoint read_loop (fuel : nat) (i : Z) (buf : list Z) (odd_buf : list Z)
    (sz bytes_read byteoff secoff secfirst : Z) : F (Z * list Z) :=
  match fuel with
  | O => stop OutOfFuel
  | S fuel' =>
      if negb (0 <? sz) then fret (bytes_read, buf)
      else
        p <- fget fat_pinfo;;
        let secsz := bytes_per_sector p in
        let rdsz := umin (u32 (secsz - byteoff)) sz in
        let sector := u32 (secfirst + secoff) in
        let odd := rdsz <? secsz in
        r <- fat_read_single_block sector (if odd then odd_buf else drop (Z.to_nat bytes_read) buf);;
        let buf := if odd then buf else take (Z.to_nat bytes_read) buf ++ snd r in
        let odd_buf := if odd then snd r else odd_buf in
        if negb (FAT_SUCCESS =? fst r) then fret (bytes_read, buf)
        else
          buf <- (if odd then
                    bytes <- copy_from odd_buf byteoff rdsz;;
                    copy_to buf bytes_read bytes
                  else fret buf);;
          let bytes_read := u32 (bytes_read + rdsz) in
          let sz := u32 (sz - rdsz) in
          next <- read_next i sz byteoff rdsz secoff secfirst;;
          match next with
          | None => fret (bytes_read, buf)
          | Some (secoff, secfirst) => read_loop fuel' i buf odd_buf sz bytes_read 0 secoff secfirst
          end
  end.

(** The result and the user's buffer. *)
Definition fat_read (fd : Z) (buf : list Z) (sz : Z) : F (Z * list Z) :=
  o <- check_fd fd;;
  match o with
  | None => fret (FAT_FAIL, buf)
  | Some i =>
      f <- get_file i;;
      let sz := if f_size f <? u32 (f_pos f + sz) then u32 (f_size f - f_pos f) else sz in
      p <- fget fat_pinfo;;
      let secsz := bytes_per_sector p in
      let secoff := (f_pos f / secsz) mod sectors_per_cluster p in
      secfirst <- fat_first_sector_of_cluster (f_current_cluster f);;
      let byteoff := f_pos f mod secsz in
      set_errno 0;;
      r <- read_loop (S (Z.to_nat sz)) i buf (fresh secsz) sz 0 byteoff secoff secfirst;;
      let '(bytes_read, buf) := r in
      f <- get_file i;;
      put_file i (set_pos (u32 (f_pos f + bytes_read)) f);;
      fret (s32 bytes_read, buf)
  end.

(** ** Writing *)

(** Writes [wrsz] bytes of the user's buffer to a sector: whether that
    succeeded, and odd_buf. *)
Definition write_piece (sector byteoff wrsz bytes_written : Z) (buf odd_buf : list Z)
    : F (bool * list Z) :=
  p <- fget fat_pinfo;;
  if wrsz <? bytes_per_sector p then
    r <- fat_read_single_block sector odd_buf;;
    if negb (FAT_SUCCESS =? fst r) then fret (false, snd r)
    else
      bytes <- copy_from buf bytes_written wrsz;;
      odd_buf <- copy_to (snd r) byteoff bytes;;
      w <- fat_write_single_block sector odd_buf;;
      fret (FAT_SUCCESS =? w, odd_buf)
  else
    w <- fat_write_single_block sector (drop (Z.to_nat bytes_written) buf);;
    fret (FAT_SUCCESS =? w, odd_buf).

(** The counter update: secoff and secfirst for the next round, or None
    where the code leaves the loop without disk space. *)
Definition write_next (i byteoff wrsz secoff secfirst : Z) : F (option (Z * Z)) :=
  p <- fget fat_pinfo;;
  if bytes_per_sector p <=? u32 (byteoff + wrsz) then
    let secoff := u32 (secoff + 1) in
    if sectors_per_cluster p <=? secoff then
      f <- get_file i;;
      r <- fat_acquire_next_cluster (f_current_cluster f) true;;
      put_file i (set_current (snd r) f);;
      if negb (FAT_SUCCESS =? fst r) then set_errno ENOSPC;; fret None
      else
        secfirst <- fat_first_sector_of_cluster (snd r);;
        fret (Some (0, secfirst))
    else fret (Some (secoff, secfirst))
  else fret (Some (secoff, secfirst)).

(** The transfer loop: bytes_written and odd_buf. *)
Fixpoint write_loop (fuel : nat) (i : Z) (buf odd_buf : list Z)
    (sz bytes_written byteoff secoff secfirst : Z) : F (Z * list Z) :=
  match fuel with
  | O => stop OutOfFuel
  | S fuel' =>
      if negb (0 <? sz) then fret (bytes_written, odd_buf)
      else
        p <- fget fat_pinfo;;
        let wrsz := umin (u32 (bytes_per_sector p - byteoff)) sz in
        let sector := u32 (secfirst + secoff) in
        r <- write_piece sector byteoff wrsz bytes_written buf odd_buf;;
        let '(ok, odd_buf) := r in
        if negb ok then fret (bytes_written, odd_buf)
        else
          let bytes_written := u32 (bytes_written + wrsz) in
          let sz := u32 (sz - wrsz) in
          next <- write_next i byteoff wrsz secoff secfirst;;
          match next with
          | None => fret (bytes_written, odd_buf)
          | Some (secoff, secfirst) => write_loop fuel' i buf odd_buf sz bytes_written 0 secoff secfirst
          end
  end.

(** Updates the size in the directory entry and in the open file. *)
Definition write_new_size (i new_size : Z) (odd_buf : list Z) : F unit :=
  f <- get_file i;;
  if f_size f <? new_size then
    start <- fat_first_sector_of_cluster (d_cluster (f_dir_idx f));;
    let sector := u32 (d_sector (f_dir_idx f) + start) in
    r <- fat_read_single_block sector odd_buf;;
    e <- fget s_errno;;
    if negb (e =? EIO) then
      odd_buf <- fat_set_uint32 new_size (snd r)
                   (u32 (d_index (f_dir_idx f) * FAT_DIR_ENTRY_WIDTH) + 0x1C);;
      fat_write_single_block sector odd_buf;;
      put_file i (set_size new_size f)
    else fret tt
  else fret tt.

Definition fat_write (fd : Z) (buf : list Z) (sz : Z) : F Z :=
  o <- check_fd fd;;
  match o with
  | None => fret FAT_FAIL
  | Some i =>
      f <- get_file i;;
      p <- fget fat_pinfo;;
      let secsz := bytes_per_sector p in
      let secoff := (f_pos f / secsz) mod sectors_per_cluster p in
      secfirst <- fat_first_sector_of_cluster (f_current_cluster f);;
      let byteoff := f_pos f mod secsz in
      set_errno 0;;
      r <- write_loop (S (Z.to_nat sz)) i buf (fresh secsz) sz 0 byteoff secoff secfirst;;
      let '(bytes_written, odd_buf) := r in
      f <- get_file i;;
      write_new_size i (u32 (f_pos f + bytes_written)) odd_buf;;
      f <- get_file i;;
      put_file i (set_pos (u32 (f_pos f + bytes_written)) f);;
      fret (s32 bytes_written)
  end.

(** ** Opening *)

(** O_TRUNC: frees the chain behind the first cluster and clears the size. *)
Definition truncate_file (i : Z) (sector : list Z) (dir_idx : FatDirEntryIdx) : F unit :=
  cluster <- fat_cluster_of_dir_entry sector (d_index dir_idx);;
  r <- fat_get_table_value cluster 0;;
  let next_tv := snd r in
  if (FAT_SUCCESS =? fst r) && negb (FAT_TV_BAD next_tv) && negb (FAT_TV_FREE next_tv) then
    r <- (if FAT_TV_LAST next_tv then fret FAT_SUCCESS else fat_free_cluster_chain next_tv);;
    if FAT_SUCCESS =? r then
      f <- get_file i;;
      put_file i (set_size 0 f);;
      sector <- fat_set_uint32 0 sector (28 + u32 (d_index dir_idx * FAT_DIR_ENTRY_WIDTH));;
      start <- fat_first_sector_of_cluster (d_cluster dir_idx);;
      fat_write_single_block (u32 (d_sector dir_idx + start)) sector;;
      fret tt
    else fret tt
  else fret tt.

(** The file exists: fd and target_pos. *)
Definition open_existing (oflag : Z) (sector : list Z) (dir_idx : FatDirEntryIdx) : F (Z * Z) :=
  if negb (Z.land (Z.land oflag O_CREAT) O_EXCL =? 0) then set_errno EEXIST;; fret (-1, 0)
  else
    fd <- fat_open_dir_entry sector dir_idx;;
    if fd <? 0 then set_errno EMFILE;; fret (fd, 0)
    else
      attrib <- fat_attrib_of_dir_entry sector (d_index dir_idx);;
      if negb (Z.land FAT_DIRECTORY attrib =? 0) then set_errno EISDIR;; fret (fd, 0)
      else
        let i := fd - FAT_FD_OFFSET in
        (if negb (Z.land oflag O_TRUNC =? 0) then truncate_file i sector dir_idx else fret tt);;
        f <- get_file i;;
        fret (fd, if negb (Z.land oflag O_APPEND =? 0) then f_size f else 0).

Definition fat_open (path : list Z) (oflag : Z) : F Z :=
  init <- fget fat_initialized;;
  if init =? 0 then set_errno EPERM;; fret FAT_FAIL
  else
    p <- fget fat_pinfo;;
    set_errno 0;;
    r <- fat_resolve_path path (fresh (bytes_per_sector p)) any_idx;;
    let '(res, sector, dir_idx) := r in
    r <- (if FAT_SUCCESS =? res then open_existing oflag sector dir_idx
          else if negb (Z.land oflag O_CREAT =? 0) then
            r <- fat_create path dir_idx sector (-1) true;;
            let '(_, _, _, fd) := r in fret (fd, 0)
          else fret (-1, 0));;
    let '(fd, target_pos) := r in
    e <- fget s_errno;;
    (if e =? 0 then fat_lseek fd (s32 target_pos) SEEK_SET;; fret tt else fret tt);;
    e <- fget s_errno;;
    if negb (e =? 0) && (0 <? fd) then fat_close fd;; fret (-1)
    else fret fd.

Definition fat_creat (path : list Z) : F Z :=
  init <- fget fat_initialized;;
  if init =? 0 then set_errno EPERM;; fret FAT_FAIL
  else fat_open path (Z.lor (Z.lor O_CREAT O_WRONLY) O_TRUNC).

(** ** Files and directories *)

(** Is the entry open anywhere? *)
Definition is_open_at (di : FatDirEntryIdx) (f : FatFile) : bool :=
  (f_free f =? 0) && (d_cluster (f_dir_idx f) =? d_cluster di) &&
  (d_sector (f_dir_idx f) =? d_sector di) && (d_index (f_dir_idx f) =? d_index di).

Definition fat_unlink (path : list Z) : F Z :=
  set_errno 0;;
  init <- fget fat_initialized;;
  if init =? 0 then set_errno EPERM;; fret FAT_FAIL
  else
    p <- fget fat_pinfo;;
    r <- fat_resolve_path path (fresh (bytes_per_sector p)) any_idx;;
    let '(res, buf, di) := r in
    if negb (0 =? res) then fret FAT_FAIL
    else
      files <- fget fat_open_files;;
      if existsb (is_open_at di) files then set_errno EBUSY;; fret FAT_FAIL
      else
        r <- fat_delete path buf;;
        fret (if negb (FAT_SUCCESS =? fst r) then -1 else 0).

Definition fat_mkdir (path : list Z) : F Z :=
  init <- fget fat_initialized;;
  if init =? 0 then set_errno EPERM;; fret FAT_FAIL
  else
    p <- fget fat_pinfo;;
    set_errno 0;;
    r <- fat_resolve_path path (fresh (bytes_per_sector p)) any_idx;;
    let '(res, sector, dir_idx) := r in
    if FAT_SUCCESS =? res then set_errno EEXIST;; fret FAT_FAIL
    else
      r <- fat_create path dir_idx sector 0 false;;
      let '(res, dir_idx, sector, fd) := r in
      if negb (FAT_SUCCESS =? res) then fret FAT_FAIL
      else if negb (fd =? 0) then stop AssertFailed
      else
        sec_addr <- fat_first_sector_of_cluster (d_cluster dir_idx);;
        r <- fat_read_single_block sec_addr sector;;
        (if FAT_SUCCESS =? fst r then
           sector <- st (snd r) 0 FAT_DIR_ENTRY_LAST;;
           fat_write_single_block sec_addr sector;; fret tt
         else set_errno EIO);;
        e <- fget s_errno;;
        fret (if e =? 0 then FAT_SUCCESS else FAT_FAIL).

(** The loop of [fat_rmdir] that looks for an entry in use: entstat. *)
Fixpoint rmdir_scan (fuel : nat) (cluster sec_start sec ent : Z) (chksector : list Z) : F Z :=
  match fuel with
  | O => stop OutOfFuel
  | S fuel' =>
      p <- fget fat_pinfo;;
      entstat <- fat_get_uint8 chksector (u32 (ent * FAT_DIR_ENTRY_WIDTH));;
      let continue cluster sec_start sec ent chksector :=
        e <- fget s_errno;;
        if (e =? 0) && (entstat =? FAT_DIR_ENTRY_FREE)
        then rmdir_scan fuel' cluster sec_start sec ent chksector
        else fret entstat in
      let ent := u32 (ent + 1) in
      if entries_per_sector p <=? ent then
        let sec := u32 (sec + 1) in
        r <- (if sectors_per_cluster p <=? sec then
                r <- fat_acquire_next_cluster cluster false;;
                if negb (FAT_SUCCESS =? fst r) then fret (false, snd r, sec_start, 0)
                else
                  start <- fat_first_sector_of_cluster (snd r);;
                  fret (true, snd r, start, 0)
              else fret (true, cluster, sec_start, sec));;
        let '(ok, cluster, sec_start, sec) := r in
        if negb ok then fret entstat
        else
          r <- fat_read_single_block (u32 (sec_start + sec)) chksector;;
          if negb (FAT_SUCCESS =? fst r) then fret entstat
          else continue cluster sec_start 0 0 (snd r)
      else continue cluster sec_start sec ent chksector
  end.

Definition fat_rmdir (path : list Z) : F Z :=
  init <- fget fat_initialized;;
  if init =? 0 then set_errno EPERM;; fret FAT_FAIL
  else
    p <- fget fat_pinfo;;
    set_errno 0;;
    r <- fat_resolve_path path (fresh (bytes_per_sector p)) any_idx;;
    let '(res, sector, dir_idx) := r in
    (if negb (FAT_SUCCESS =? res) then set_errno ENOENT
     else
       attrib <- fat_attrib_of_dir_entry sector (d_index dir_idx);;
       if Z.land attrib FAT_DIRECTORY =? 0 then set_errno ENOTDIR
       else
         cluster <- fat_cluster_of_dir_entry sector (d_index dir_idx);;
         sec_start <- fat_first_sector_of_cluster cluster;;
         r <- fat_read_single_block sec_start (fresh (bytes_per_sector p));;
         entstat <- rmdir_scan loop_fuel cluster sec_start 0 0 (snd r);;
         e <- fget s_errno;;
         if (e =? 0) && negb (entstat =? FAT_DIR_ENTRY_LAST) then set_errno ENOTEMPTY
         else if e =? 0 then fat_delete path sector;; fret tt
         else fret tt);;
    e <- fget s_errno;;
    fret (if e =? 0 then FAT_SUCCESS else FAT_FAIL).

End FatFs.
