(* ===== verification/FatIO.v ===== *)
(** FatIO: reading, writing and seeking in open files of the FAT32 library.

    The contents of a file are the bytes of the clusters of its chain:
    [file_bytes p g l o n] are the [n] bytes from offset [o] of the chain
    [l] on the disk [g].  The theorems show what fat_read, fat_lseek and
    fat_write do to them. *)

From stdpp Require Import base numbers list gmap.
From S2P Require Import Prelude SdDisk FatTable FatName FatDir FatFs.

(** ** The bytes of a file *)

Definition cluster_bytes (p : FatPartitionInfo) : Z := 512 * sectors_per_cluster p.
Definition cluster_sec (p : FatPartitionInfo) (c : Z) : Z :=
  cluster_begin_addr p + (c - 2) * sectors_per_cluster p.

(** The cluster that holds offset [o] of the chain [l], and its sector. *)
Definition cluster_of (l : list Z) (k : Z) : Z := nth (Z.to_nat k) l 0.
Definition sector_of (p : FatPartitionInfo) (l : list Z) (o : Z) : Z :=
  cluster_sec p (cluster_of l (o / cluster_bytes p)) + o mod cluster_bytes p / 512.
Definition file_byte (p : FatPartitionInfo) (g : Z -> list Z) (l : list Z) (o : Z) : Z :=
  at_ (g (sector_of p l o)) (o mod 512).
Definition file_bytes (p : FatPartitionInfo) (g : Z -> list Z) (l : list Z) (o n : Z) : list Z :=
  file_byte p g l <$> seqZ o n.

Lemma length_file_bytes p g l o n : length (file_bytes p g l o n) = Z.to_nat n.
Proof. unfold file_bytes. by rewrite length_fmap, length_seqZ. Qed.

Lemma seqZ_split o a b : 0 <= a -> 0 <= b -> seqZ o (a + b) = seqZ o a ++ seqZ (o + a) b.
Proof. intros. by apply seqZ_app. Qed.

Lemma file_bytes_app p g l o a b : 0 <= a -> 0 <= b ->
  file_bytes p g l o (a + b) = file_bytes p g l o a ++ file_bytes p g l (o + a) b.
Proof. intros. unfold file_bytes. by rewrite seqZ_split, fmap_app. Qed.

(** An offset from its cluster, sector and byte. *)
Lemma offset_parts spc k so bo :
  0 < spc -> 0 <= so < spc -> 0 <= bo < 512 ->
  let o := k * (512 * spc) + so * 512 + bo in
  o / (512 * spc) = k /\ o mod (512 * spc) / 512 = so /\ o mod 512 = bo.
Proof.
  intros Hs Hso Hbo o.
  assert (0 <= so * 512 + bo < 512 * spc) as Hr by nia.
  assert (o mod (512 * spc) = so * 512 + bo) as Hm.
  { symmetry. apply Z.mod_unique with k; [lia|]. unfold o. lia. }
  split_and!.
  - symmetry. apply Z.div_unique with (so * 512 + bo); unfold o; lia.
  - rewrite Hm, Z.div_add_l, Z.div_small by lia. lia.
  - symmetry. apply Z.mod_unique with (k * spc + so); unfold o; lia.
Qed.

(** A piece of a sector, as bytes of the file. *)
Lemma file_bytes_sector p g l k so bo n :
  0 < sectors_per_cluster p -> 0 <= so < sectors_per_cluster p -> 0 <= bo -> 0 <= n -> bo + n <= 512 ->
  length (g (cluster_sec p (cluster_of l k) + so)) = 512%nat ->
  file_bytes p g l (k * cluster_bytes p + so * 512 + bo) n =
  slice (g (cluster_sec p (cluster_of l k) + so)) bo n.
Proof.
  intros Hs Hso Hbo Hn Hle Hlen. apply list_eq. intros i. unfold file_bytes, slice.
  destruct (decide (Z.of_nat i < n)) as [Hi|Hi].
  - rewrite list_lookup_fmap, lookup_seqZ_lt by lia. cbn [fmap option_fmap option_map].
    rewrite lookup_take_lt by lia. rewrite lookup_drop.
    destruct (offset_parts (sectors_per_cluster p) k so (bo + Z.of_nat i)) as (H1 & H2 & H3); [lia..|].
    unfold file_byte, sector_of, cluster_bytes.
    replace (k * (512 * sectors_per_cluster p) + so * 512 + bo + Z.of_nat i)
      with (k * (512 * sectors_per_cluster p) + so * 512 + (bo + Z.of_nat i)) by lia.
    rewrite H1, H2, H3. unfold at_. rewrite nth_lookup.
    replace (Z.to_nat (bo + Z.of_nat i)) with (Z.to_nat bo + i)%nat by lia.
    destruct (lookup_lt_is_Some_2 (g (cluster_sec p (cluster_of l k) + so)) (Z.to_nat bo + i)) as [x ->]; [lia|].
    done.
  - rewrite !lookup_ge_None_2; [done| |].
    + rewrite length_take. lia.
    + rewrite length_fmap, length_seqZ. lia.
Qed.

Lemma blit_app off b1 b2 buf :
  0 <= off -> off + Z.of_nat (length b1 + length b2) <= Z.of_nat (length buf) ->
  blit (off + Z.of_nat (length b1)) b2 (blit off b1 buf) = blit off (b1 ++ b2) buf.
Proof.
  intros H0 H1. unfold blit. rewrite Z2Nat.inj_add, Nat2Z.id by lia.
  set (A := take (Z.to_nat off) buf). set (R := drop (Z.to_nat off + length b1) buf).
  assert (length A = Z.to_nat off) as HA by (unfold A; rewrite length_take; lia).
  rewrite (app_assoc A b1 R), take_app_length' by (rewrite length_app; lia).
  rewrite <- !app_assoc. do 2 f_equal. f_equal.
  rewrite drop_app_ge by (rewrite HA; lia). rewrite drop_app_ge by lia.
  unfold R. rewrite drop_drop, length_app, HA. f_equal. lia.
Qed.

Lemma blit_nil off buf : blit off [] buf = buf.
Proof. unfold blit. cbn. rewrite Nat.add_0_r. apply take_drop. Qed.

Lemma blit_drop off b buf :
  0 <= off <= Z.of_nat (length buf) ->
  take (Z.to_nat off) buf ++ blit 0 b (drop (Z.to_nat off) buf) = blit off b buf.
Proof.
  intros Ho. unfold blit. change (Z.to_nat 0) with 0%nat. rewrite take_0, Nat.add_0_l, drop_drop. done.
Qed.

(** ** Links of a chain *)

Section Links.
Context (p : FatPartitionInfo) (g : Z -> list Z).

Lemma chain_link c l k d d' :
  chain p g c l -> l !! k = Some d -> l !! S k = Some d' ->
  tval p g d = d' /\ FAT_TV_LAST d' = false /\ FAT_TV_BAD d' = false /\ FAT_TV_FREE d' = false.
Proof.
  intros Hc. revert k. induction Hc as [c|c l Hi Hl Hb Hf Hc IH]; intros k H1 H2; [done|].
  destruct k as [|k]; [|by apply (IH k)]. cbn in H1, H2. injection H1 as <-.
  destruct (chain_head _ _ _ _ Hc) as [l' ->]. cbn in H2. injection H2 as <-. done.
Qed.

Lemma chain_end c l d : chain p g c l -> last l = Some d -> FAT_TV_LAST (tval p g d) = true.
Proof.
  induction 1 as [c|c l Hi Hl Hb Hf Hc IH]; [by intros [= <-]|].
  destruct (chain_head _ _ _ _ Hc) as [l' ->]. apply IH.
Qed.

End Links.

Section IO.
Context `{BlockDevSpec} {E : FatEnv} {CM : CharModel}.

(** Like [disk_step], for code that also updates the open files to [fl]. *)
Definition others (s : sys) :=
  (disk_global_info s, fat_pinfo s, fat_initialized s, long_name16 s, long_name8 s).
Record fs_step (s : sys) (e : Z) (g : Z -> list Z) (fl : list FatFile) (s' : sys) : Prop := mk_fs_step {
  fs_ok : disk_ok s';
  fs_cap : cap s' = cap s;
  fs_blk : forall x, 0 <= x < cap s -> blk s' x = g x;
  fs_errno : s_errno s' = e;
  fs_others : others s' = others s;
  fs_files : fat_open_files s' = fl;
}.

Lemma fs_of_disk s e g s' : disk_step s e g s' -> fs_step s e g (fat_open_files s) s'.
Proof.
  intros [H1 H2 H3 H4 HG]. injection HG as G1 G2 G3 G4 G5 G6. split; try done.
  unfold others. congruence.
Qed.
Lemma fs_pinfo s e g fl s' : fs_step s e g fl s' -> fat_pinfo s' = fat_pinfo s.
Proof. intros Hs. pose proof (fs_others _ _ _ _ _ Hs) as HG. by injection HG. Qed.
Lemma fs_trans s e g fl s' e' g' fl' s'' :
  fs_step s e g fl s' -> fs_step s' e' g' fl' s'' -> fs_step s e' g' fl' s''.
Proof.
  intros [] []. split; [done|congruence| |done|congruence|done].
  intros x Hx. apply fs_blk1. rewrite fs_cap0. lia.
Qed.
Lemma fs_ext s e g g' fl s' :
  fs_step s e g fl s' -> (forall x, 0 <= x < cap s -> g x = g' x) -> fs_step s e g' fl s'.
Proof. intros [] Hg. split; try done. intros x Hx. rewrite fs_blk0 by done. by apply Hg. Qed.
Lemma fs_vol s e g fl s' : vol_ok s -> fs_step s e g fl s' -> vol_ok s'.
Proof.
  intros [Hd Hg] Hs. split; [apply Hs|].
  by rewrite (fs_pinfo _ _ _ _ _ Hs), (fs_cap _ _ _ _ _ Hs).
Qed.
Lemma fs_refl s : disk_ok s -> fs_step s (s_errno s) (blk s) (fat_open_files s) s.
Proof. intros. by split. Qed.
Lemma fs_set_errno s e g fl s' e' :
  fs_step s e g fl s' ->
  fs_step s e' g fl (mk_sys _ (s_dev s') e' (disk_global_info s') (fat_pinfo s')
    (fat_open_files s') (fat_initialized s') (long_name16 s') (long_name8 s')).
Proof. intros []. split; done. Qed.
Lemma fs_set_files s e g fl s' fl' :
  fs_step s e g fl s' ->
  fs_step s e g fl' (mk_sys _ (s_dev s') (s_errno s') (disk_global_info s') (fat_pinfo s')
    fl' (fat_initialized s') (long_name16 s') (long_name8 s')).
Proof. intros []. split; done. Qed.

Lemma wp_get_file s i f Q :
  fat_open_files s !! Z.to_nat i = Some f -> Q f s -> wp (get_file i) s Q.
Proof. intros Hf HQ. unfold get_file. wstep. wstep. by rewrite Hf. Qed.

(** ** Data sectors *)

Lemma data_sector s c so : vol_ok s -> is_cluster (fat_pinfo s) c -> 2 <= c ->
  0 <= so < sectors_per_cluster (fat_pinfo s) ->
  0 <= cluster_sec (fat_pinfo s) c + so < cap s /\
  ~ in_table (fat_pinfo s) (cluster_sec (fat_pinfo s) c + so).
Proof.
  intros [_ []] Hc H2 Hso. unfold is_cluster, n_entries, cluster_sec, in_table in *.
  assert ((c - 2) * sectors_per_cluster (fat_pinfo s) + so <
    128 * sectors_per_fat (fat_pinfo s) * sectors_per_cluster (fat_pinfo s)) by nia.
  assert (0 <= (c - 2) * sectors_per_cluster (fat_pinfo s)) by nia. lia.
Qed.

Lemma wp_first_sector s c Q : vol_ok s -> is_cluster (fat_pinfo s) c -> 2 <= c ->
  Q (cluster_sec (fat_pinfo s) c) s -> wp (fat_first_sector_of_cluster c) s Q.
Proof.
  intros Hv Hc H2 HQ. unfold fat_first_sector_of_cluster. wstep. wstep. wstep.
  fold (cluster_sec (fat_pinfo s) c). rewrite (u32_addr s); [done|].
  pose proof (data_sector s c 0 Hv Hc H2 ltac:(pose proof (geom_spc _ _ (proj2 Hv)); lia)). lia.
Qed.

(** A file chain: its clusters are data clusters. *)
Definition file_chain (p : FatPartitionInfo) (g : Z -> list Z) (c : Z) (l : list Z) : Prop :=
  chain p g c l /\ Forall (fun d => 2 <= d) l.

Lemma file_chain_at p g c l k : file_chain p g c l -> 0 <= k < Z.of_nat (length l) ->
  l !! Z.to_nat k = Some (cluster_of l k) /\ is_cluster p (cluster_of l k) /\ 2 <= cluster_of l k.
Proof.
  intros [Hc H2] Hk. destruct (lookup_lt_is_Some_2 l (Z.to_nat k)) as [d Hd]; [lia|].
  unfold cluster_of. rewrite nth_lookup, Hd. cbn.
  pose proof (chain_clusters _ _ _ _ Hc) as HF. rewrite Forall_lookup in HF, H2.
  split; [done|]. split; [by eapply HF|by eapply H2].
Qed.

(** Cluster [k] of a file leads to cluster [k + 1] or ends the chain. *)
Lemma chain_pos p g c0 l k : file_chain p g c0 l -> 0 <= k < Z.of_nat (length l) ->
  let c := cluster_of l k in let v := tval p g c in
  FAT_TV_BAD v || FAT_TV_FREE v = false /\
  (k + 1 < Z.of_nat (length l) /\ FAT_TV_LAST v = false /\ v = cluster_of l (k + 1) \/
   k + 1 = Z.of_nat (length l) /\ FAT_TV_LAST v = true /\ last l = Some c).
Proof.
  intros Hfc Hk c v. destruct (file_chain_at p g c0 l k Hfc Hk) as (Hlk & _).
  destruct (decide (k + 1 < Z.of_nat (length l))) as [Hin|Hout].
  - destruct (file_chain_at p g c0 l (k + 1) Hfc ltac:(lia)) as (Hlk1 & _).
    destruct (chain_link p g c0 l (Z.to_nat k) c (cluster_of l (k + 1)) (proj1 Hfc) Hlk)
      as (Ev & HL & HB & HF); [by rewrite <- Z2Nat.inj_succ by lia|]. subst v. rewrite Ev, HB, HF. auto.
  - assert (last l = Some c) as Hlast by (rewrite last_lookup; unfold c; rewrite <- Hlk; f_equal; lia).
    pose proof (chain_end p g c0 l c (proj1 Hfc) Hlast) as HL. split; [|right; split; [lia|done]].
    subst v. revert HL. unfold FAT_TV_LAST, FAT_TV_BAD, FAT_TV_FREE. lia.
Qed.

Lemma tval_agree s (g : Z -> list Z) c : vol_ok s -> is_cluster (fat_pinfo s) c ->
  (forall x, 0 <= x < cap s -> blk s x = g x) ->
  tval (fat_pinfo s) (blk s) c = tval (fat_pinfo s) g c.
Proof.
  intros Hv Hc Hg. unfold tval. f_equal. apply entry_ext; [|done].
  intros x Hx. apply Hg. by apply (geom_cap _ _ (proj2 Hv)).
Qed.

Lemma umin_min a b : umin a b = Z.min a b.
Proof. unfold umin. destruct (Z.ltb_spec a b); lia. Qed.

(** ** Reading *)

(** The position in the chain of the last byte of [n] bytes from [o]. *)
Definition last_cluster (p : FatPartitionInfo) (k o n : Z) : Z :=
  if 0 <? n then (o + n - 1) / cluster_bytes p else k.

Lemma last_cluster_in p k so bo n :
  0 < sectors_per_cluster p -> 0 <= so < sectors_per_cluster p -> 0 <= bo -> 0 < n -> bo + n <= 512 ->
  last_cluster p k (k * cluster_bytes p + so * 512 + bo) n = k.
Proof.
  intros. unfold last_cluster. zdec. unfold cluster_bytes.
  destruct (offset_parts (sectors_per_cluster p) k so (bo + n - 1)) as (Hd & _); [lia..|].
  rewrite <- Hd at 2. f_equal. lia.
Qed.

Lemma set_current_id f : set_current (f_current_cluster f) f = f.
Proof. by destruct f. Qed.
Lemma set_current_twice a b f : set_current a (set_current b f) = set_current a f.
Proof. done. Qed.

(** The position after [n] bytes that end inside or at the end of a sector. *)
Lemma wp_read_next (g : Z -> list Z) c0 l i s sz k so bo n f Q :
  let p := fat_pinfo s in
  let o := k * cluster_bytes p + so * 512 + bo in
  vol_ok s -> s_errno s = 0 -> (forall x, 0 <= x < cap s -> blk s x = g x) ->
  fat_open_files s !! Z.to_nat i = Some f ->
  file_chain p g c0 l -> 0 <= k < Z.of_nat (length l) -> f_current_cluster f = cluster_of l k ->
  0 <= so < sectors_per_cluster p -> 0 <= bo -> 0 < n -> bo + n <= 512 -> 0 <= sz ->
  (0 < sz -> bo + n = 512) -> o + n + sz <= Z.of_nat (length l) * cluster_bytes p ->
  (sz = 0 -> Q (Some (so, cluster_sec p (cluster_of l k))) s) ->
  (forall s' k' so', fs_step s 0 g (<[Z.to_nat i := set_current (cluster_of l k') f]>
                (fat_open_files s)) s' ->
     0 <= k' < Z.of_nat (length l) -> 0 <= so' < sectors_per_cluster p -> 0 < sz ->
     k' * cluster_bytes p + so' * 512 = o + n ->
     Q (Some (so', cluster_sec p (cluster_of l k'))) s') ->
  wp (read_next i sz bo n so (cluster_sec p (cluster_of l k))) s Q.
Proof.
  intros p o Hv He Hg Hf Hfc Hk Hcur Hso Hbo Hn Hle Hsz Hfull Hlen HQ0 HQ.
  pose proof (geom_spc _ _ (proj2 Hv)) as Hspc. fold p in Hspc.
  destruct (file_chain_at _ _ _ _ _ Hfc Hk) as (Hlk & Hck & H2k).
  unfold read_next. wstep. wstep. fold p. rewrite (geom_bps p _ (proj2 Hv)).
  rewrite (u32_small (bo + n)) by lia.
  destruct (Z.ltb_spec 0 sz) as [Hpos|]; cbn [andb]; [|wstep; apply HQ0; lia].
  specialize (Hfull Hpos). zdec.
  rewrite (u32_small (so + 1)) by lia.
  destruct (Z.leb_spec (sectors_per_cluster p) (so + 1)) as [Hend|Hin].
  - (* the next cluster of the chain *)
    assert (o + n = (k + 1) * cluster_bytes p) as Hon by (unfold o, cluster_bytes; nia).
    assert (0 <= k + 1 < Z.of_nat (length l)) as Hk1 by (unfold cluster_bytes in *; nia).
    destruct (file_chain_at _ _ _ _ _ Hfc Hk1) as (Hlk1 & Hck1 & H2k1).
    destruct (chain_link p g c0 l (Z.to_nat k) _ (cluster_of l (k + 1)) (proj1 Hfc) Hlk)
      as (Htv & HL & HB & HFr); [by rewrite <- Z2Nat.inj_succ by lia|].
    wstep. apply wp_get_file with f; [done|]. rewrite Hcur.
    wstep. apply wp_fat_get_table_value; [done..|]. intros s1 Hs1.
    cbn [fst snd negb Z.eqb FAT_SUCCESS].
    rewrite (tval_agree s g) by done. fold p. rewrite Htv, HB, HL, HFr.
    wstep. unfold put_file. wstep. wstep. wstep.
    set (s2 := mk_sys _ _ _ _ _ _ _ _ _).
    assert (fs_step s 0 (blk s) (<[Z.to_nat i := set_current (cluster_of l (k + 1)) f]>
      (fat_open_files s)) s2) as Hs2.
    { pose proof (fs_of_disk _ _ _ _ Hs1) as Hs1'. rewrite <- (fs_files _ _ _ _ _ Hs1').
      rewrite <- (fs_errno _ _ _ _ _ Hs1') at 1. rewrite <- (fs_errno _ _ _ _ _ Hs1') in Hs1'.
      by apply fs_set_files with (fl := fat_open_files s). }
    assert (fat_pinfo s2 = p) as Hp2 by apply (fs_pinfo _ _ _ _ _ Hs2).
    wstep. apply wp_first_sector; [by eapply fs_vol|by rewrite Hp2|done|].
    rewrite Hp2. wstep. apply HQ; try done; [by eapply fs_ext|lia|lia].
  - wstep. apply HQ; try done; [|lia|unfold o; lia].
    rewrite <- Hcur, set_current_id, list_insert_id by done. rewrite <- He.
    eapply fs_ext; [apply fs_refl, Hv|done].
Qed.

Lemma last_cluster_app p k k' so bo n m :
  let o := k * cluster_bytes p + so * 512 + bo in
  0 < n -> 0 < m -> 
  last_cluster p k o (n + m) = last_cluster p k' (o + n) m.
Proof. intros o Hn Hm. unfold last_cluster. zdec. f_equal. lia. Qed.

(** One round of the loop in fat_read: the bytes reach the buffer, through the
    sector buffer [odd] when they are less than a sector. *)
Lemma wp_read_piece s (g : Z -> list Z) a buf odd br bo n (K : list Z -> list Z -> F (Z * list Z)) Q :
  vol_ok s -> (forall x, 0 <= x < cap s -> blk s x = g x) -> 0 <= a < cap s ->
  0 <= bo -> 0 < n -> bo + n <= 512 -> 0 <= br -> br + n <= Z.of_nat (length buf) -> length odd = 512%nat ->
  (forall s1 odd1, disk_step s 0 (blk s) s1 -> length odd1 = 512%nat -> wp (K (blit br (slice (g a) bo n) buf) odd1) s1 Q) ->
  wp (fbind (fat_read_single_block a (if n <? 512 then odd else drop (Z.to_nat br) buf)) (fun r =>
      let buf := if n <? 512 then buf else take (Z.to_nat br) buf ++ snd r in
      let odd := if n <? 512 then snd r else odd in
      if negb (FAT_SUCCESS =? fst r) then fret (br, buf)
      else fbind (if n <? 512 then fbind (copy_from odd bo n) (fun bytes => copy_to buf br bytes) else fret buf)
             (fun buf => K buf odd))) s Q.
Proof.
  intros Hv Hg Ha Hbo Hn Hle Hbr Hbuf Hodd HK. pose proof (blk_bytes s a (proj1 Hv) Ha) as [Hla _].
  assert (length (slice (g a) bo n) = Z.to_nat n) as Hls by (apply length_slice; rewrite <- ?Hg by done; lia).
  wstep. destruct (Z.ltb_spec n 512) as [Hlt|Hge].
  - apply wp_fat_read; [apply Hv|done|done|]. intros s1 Hs1. cbn [fst snd negb Z.eqb FAT_SUCCESS]. wstep. wstep.
    apply wp_copy_from; [lia|lia|lia|]. rewrite Hg by done.
    apply wp_copy_to; [lia|lia|]. apply HK; [done|]. rewrite <- Hg by done. done.
  - assert (bo = 0 /\ n = 512) as [-> ->] by lia.
    apply wp_fat_read_into; [apply Hv|done|rewrite length_drop; lia|]. intros s1 Hs1.
    cbn [fst snd negb Z.eqb FAT_SUCCESS]. wstep. wstep. rewrite blit_drop, Hg by (done || lia).
    rewrite <- (slice_all (g a)) at 1 by (rewrite <- Hg, Hla by done; done). by apply HK.
Qed.

Lemma wp_read_loop (g : Z -> list Z) c0 l i fuel : forall s buf odd sz br k so bo f Q,
  let p := fat_pinfo s in
  let o := k * cluster_bytes p + so * 512 + bo in
  vol_ok s -> s_errno s = 0 -> (forall x, 0 <= x < cap s -> blk s x = g x) ->
  fat_open_files s !! Z.to_nat i = Some f ->
  file_chain p g c0 l -> 0 <= k < Z.of_nat (length l) -> f_current_cluster f = cluster_of l k ->
  0 <= so < sectors_per_cluster p -> 0 <= bo < 512 ->
  0 <= sz -> 0 <= br -> br + sz < 2 ^ 32 -> br + sz <= Z.of_nat (length buf) ->
  length odd = 512%nat -> o + sz <= Z.of_nat (length l) * cluster_bytes p ->
  sz < Z.of_nat fuel ->
  (forall s', fs_step s 0 g (<[Z.to_nat i := set_current (cluster_of l (last_cluster p k o sz)) f]>
                (fat_open_files s)) s' ->
     Q (br + sz, blit br (file_bytes p g l o sz) buf) s') ->
  wp (read_loop fuel i buf odd sz br bo so (cluster_sec p (cluster_of l k))) s Q.
Proof.
  induction fuel as [|fuel IH]; intros s buf odd sz br k so bo f Q p o
    Hv He Hg Hf Hfc Hk Hcur Hso Hbo Hsz Hbr Hw Hbuf Hodd Ho Hfuel HQ; [lia|].
  cbn [read_loop]. pose proof (geom_spc _ _ (proj2 Hv)) as Hspc. fold p in Hspc.
  destruct (file_chain_at _ _ _ _ _ Hfc Hk) as (Hlk & Hck & H2k).
  assert (fs_step s 0 g (<[Z.to_nat i := set_current (cluster_of l k) f]> (fat_open_files s)) s) as Hnow.
  { rewrite <- Hcur, set_current_id, list_insert_id by done. rewrite <- He.
    eapply fs_ext; [apply fs_refl, Hv|done]. }
  destruct (Z.ltb_spec 0 sz) as [Hpos|Hz]; cbn [negb].
  2: { assert (sz = 0) as -> by lia. wstep. rewrite Z.add_0_r in HQ.
    unfold file_bytes in HQ. cbn in HQ. rewrite blit_nil in HQ. by apply HQ. }
  wstep. wstep. fold p. rewrite (geom_bps p _ (proj2 Hv)).
  rewrite (u32_small (512 - bo)), umin_min by lia. set (n := Z.min (512 - bo) sz).
  destruct (data_sector s (cluster_of l k) so Hv Hck H2k Hso) as [Hr _]. fold p in Hr.
  rewrite (u32_addr s) by done. set (a := cluster_sec p (cluster_of l k) + so) in *.
  assert (file_bytes p g l o n = slice (g a) bo n) as Hpiece.
  { apply file_bytes_sector; try lia. rewrite <- Hg by done. by apply (blk_bytes s a (proj1 Hv)). }
  apply (wp_read_piece s g a buf odd br bo n (fun buf odd =>
    fbind (read_next i (u32 (sz - n)) bo n so (cluster_sec p (cluster_of l k))) (fun next =>
      match next with
      | None => fret (u32 (br + n), buf)
      | Some (so, sf) => read_loop fuel i buf odd (u32 (sz - n)) (u32 (br + n)) 0 so sf
      end))); try done; try lia.
  set (buf' := blit br (slice (g a) bo n) buf).
  assert (length buf' = length buf) as Hlb
    by (unfold buf'; rewrite <- Hpiece; apply length_blit; rewrite ?length_file_bytes; lia).
  intros s1 odd1 Hs1 Hodd1. rewrite !u32_small by lia.
  assert (fat_pinfo s1 = p) as Hp1 by apply (disk_step_pinfo _ _ _ _ Hs1).
  pose proof (fs_of_disk _ _ _ _ Hs1) as Hfs1.
  assert (forall x, 0 <= x < cap s1 -> blk s1 x = g x) as Hg1.
  { intros x. rewrite (step_cap _ _ _ _ Hs1). intros Hx. rewrite (step_blk _ _ _ _ Hs1) by done. by apply Hg. }
  pose proof (fs_files _ _ _ _ _ Hfs1) as Hfl1.
  wstep. rewrite <- Hp1. apply (wp_read_next g c0 l i s1 (sz - n) k so bo n f);
    rewrite ?Hp1, ?Hfl1; try done; [by eapply vol_ok_step|apply Hs1|lia..|fold o; lia| |].
  - intros Hdone. destruct fuel as [|fuel']; [lia|]. cbn [read_loop].
    replace (0 <? sz - n) with false by lia. cbn [negb]. wstep.
    assert (n = sz) as Hns by lia. rewrite Hns. unfold buf'. rewrite <- Hpiece, Hns. apply HQ.
    replace (last_cluster p k o sz) with k
      by (rewrite <- Hns; symmetry; apply last_cluster_in; lia).
    rewrite <- Hcur, set_current_id, list_insert_id by done. by eapply fs_ext.
  - intros s2 k' so' Hs2 Hk' Hso' Hmore Hpos'. rewrite (step_cap _ _ _ _ Hs1) in *.
    pose proof (fs_trans _ _ _ _ _ _ _ _ _ Hfs1 Hs2) as Hs02.
    assert (fat_pinfo s2 = p) as Hp2 by apply (fs_pinfo _ _ _ _ _ Hs02).
    pose proof (fs_files _ _ _ _ _ Hs02) as Hfl2.
    rewrite <- Hp2. eapply (IH s2 buf' odd1 (sz - n) (br + n) k' so' 0);
      rewrite ?Hp2, ?Hfl2; try done; try lia.
    + by eapply fs_vol.
    + apply Hs02.
    + intros x. rewrite (fs_cap _ _ _ _ _ Hs02). apply Hs02.
    + by rewrite list_lookup_insert_eq by (by apply lookup_lt_Some in Hf).
    + done.
    + intros s3 Hs3. rewrite list_insert_insert_eq, set_current_twice in Hs3.
      replace (k' * cluster_bytes p + so' * 512 + 0) with (o + n) in * by lia.
      replace (br + n + (sz - n)) with (br + sz) by lia.
      unfold buf'. rewrite <- Hpiece.
      replace (br + n) with (br + Z.of_nat (length (file_bytes p g l o n)))
        by (rewrite length_file_bytes; lia).
      rewrite blit_app by (rewrite ?length_file_bytes; lia).
      rewrite <- file_bytes_app by lia. replace (n + (sz - n)) with sz by lia.
      apply HQ. pose proof (last_cluster_app p k k' so bo n (sz - n)) as Hlc. cbn zeta in Hlc.
      fold o in Hlc. rewrite <- Hlc in Hs3 by lia.
      replace (n + (sz - n)) with sz in Hs3 by lia. by eapply fs_trans.
Qed.

(** ** Open file descriptors *)

(** [fd] is the open file [f]. *)
Definition open_file (s : sys) (fd : Z) (f : FatFile) : Prop :=
  fat_initialized s <> 0 /\ FAT_FD_OFFSET <= fd < FAT_FD_OFFSET + FAT_MAX_FILES /\
  fat_open_files s !! Z.to_nat (fd - FAT_FD_OFFSET) = Some f /\ f_free f = 0.

Lemma wp_check_fd s fd f Q :
  disk_ok s -> open_file s fd f ->
  (forall s', disk_step s 0 (blk s) s' -> Q (Some (fd - FAT_FD_OFFSET)) s') ->
  wp (check_fd fd) s Q.
Proof.
  intros Hd (Hi & Hr & Hf & Hfree) HQ. unfold check_fd. wstep. wstep. wstep. wstep.
  cbn [fat_initialized]. rewrite (proj2 (Z.eqb_neq _ _) Hi).
  replace ((fd <? FAT_FD_OFFSET) || (FAT_FD_OFFSET + FAT_MAX_FILES <=? fd)) with false by lia.
  wstep. apply wp_get_file with f; [done|]. rewrite Hfree. cbn [Z.eqb negb]. wstep.
  apply HQ. apply disk_step_set_errno with (e := s_errno s), disk_step_refl, Hd.
Qed.

(** The sector and byte of a position. *)
Lemma pos_parts spc pos : 0 < spc ->
  pos mod (512 * spc) = (pos / 512) mod spc * 512 + pos mod 512 /\
  0 <= (pos / 512) mod spc < spc /\ 0 <= pos mod 512 < 512.
Proof.
  intros Hs. rewrite Z.rem_mul_r by lia.
  pose proof (Z.mod_pos_bound (pos / 512) spc). pose proof (Z.mod_pos_bound pos 512). lia.
Qed.

(** fat_read from an open file whose current cluster is number [k] of its
    chain, which need not be the one of its position. *)
Lemma wp_fat_read_at s fd f l k buf sz Q :
  let p := fat_pinfo s in
  let n := Z.min sz (f_size f - f_pos f) in
  let o := k * cluster_bytes p + f_pos f mod cluster_bytes p in
  vol_ok s -> open_file s fd f -> file_chain p (blk s) (f_start_cluster f) l ->
  0 <= f_pos f <= f_size f -> f_size f < 2 ^ 32 -> 0 <= sz < 2 ^ 31 -> f_pos f + sz < 2 ^ 32 ->
  sz <= Z.of_nat (length buf) ->
  0 <= k < Z.of_nat (length l) -> f_current_cluster f = cluster_of l k ->
  o + n <= Z.of_nat (length l) * cluster_bytes p ->
  (forall s', fs_step s 0 (blk s)
     (<[Z.to_nat (fd - FAT_FD_OFFSET) :=
        set_pos (f_pos f + n) (set_current (cluster_of l (last_cluster p k o n)) f)]> (fat_open_files s)) s' ->
     Q (n, blit 0 (file_bytes p (blk s) l o n) buf) s') ->
  wp (fat_read fd buf sz) s Q.
Proof.
  intros p n o Hv Hop Hfc Hpos Hsize Hsz Hov Hbuf Hk Hcur Hfit HQ.
  pose proof (geom_spc _ _ (proj2 Hv)) as Hspc. fold p in Hspc.
  destruct (pos_parts (sectors_per_cluster p) (f_pos f) (proj1 Hspc)) as (Hpp & Hso & Hbo).
  unfold fat_read. wstep. apply wp_check_fd with f; [apply Hv|done|]. intros s1 Hs1.
  pose proof (fs_of_disk _ _ _ _ Hs1) as Hfs1. pose proof (fs_files _ _ _ _ _ Hfs1) as Hfl1.
  assert (fat_pinfo s1 = p) as Hp1 by apply (disk_step_pinfo _ _ _ _ Hs1).
  destruct Hop as (Hi & Hfd & Hf & Hfree).
  wstep. apply wp_get_file with f; [by rewrite Hfl1|].
  rewrite (u32_small (f_pos f + sz)) by lia.
  assert ((if f_size f <? f_pos f + sz then u32 (f_size f - f_pos f) else sz) = n) as ->.
  { unfold n. destruct (Z.ltb_spec (f_size f) (f_pos f + sz)); [rewrite u32_small by lia|]; lia. }
  wstep. wstep. rewrite Hp1, (geom_bps p _ (proj2 Hv)).
  destruct (file_chain_at _ _ _ _ _ Hfc Hk) as (Hlk & Hck & H2k).
  wstep. apply wp_first_sector; rewrite ?Hp1, ?Hcur; [by eapply vol_ok_step|done|done|].
  wstep. wstep. set (s2 := mk_sys _ _ _ _ _ _ _ _ _).
  assert (fs_step s 0 (blk s) (fat_open_files s) s2) as Hs2 by (by apply fs_set_errno with (e := 0)).
  assert (fat_pinfo s2 = p) as Hp2 by apply (fs_pinfo _ _ _ _ _ Hs2).
  wstep. rewrite <- Hp2.
  assert (k * cluster_bytes p + (f_pos f / 512) mod sectors_per_cluster p * 512 + f_pos f mod 512 = o) as Ho
    by (unfold o, cluster_bytes; lia).
  apply (wp_read_loop (blk s) (f_start_cluster f) l (fd - FAT_FD_OFFSET) _ s2 buf _ n 0 k _ _ f);
    rewrite ?Hp2, ?(fs_files _ _ _ _ _ Hs2), ?Ho; try done; try lia.
  - by eapply fs_vol.
  - intros x. rewrite (fs_cap _ _ _ _ _ Hs2). apply Hs2.
  - intros s3 Hs3. cbn beta iota. rewrite Z.add_0_l.
    pose proof (fs_trans _ _ _ _ _ _ _ _ _ Hs2 Hs3) as Hs03.
    pose proof (fs_files _ _ _ _ _ Hs03) as Hfl3.
    assert (Z.to_nat (fd - FAT_FD_OFFSET) < length (fat_open_files s))%nat as Hlt
      by (by apply lookup_lt_Some in Hf).
    wstep. eapply wp_get_file; [by rewrite Hfl3, list_lookup_insert_eq by done|].
    unfold put_file. wstep. wstep. wstep. wstep. wstep. rewrite Hfl3, list_insert_insert_eq.
    cbn [f_pos set_current]. rewrite u32_small, s32_small by lia. apply HQ.
    rewrite <- (fs_errno _ _ _ _ _ Hs03) at 1. rewrite <- (fs_errno _ _ _ _ _ Hs03) in Hs03.
    by eapply fs_set_files.
Qed.

(** An empty read. *)
Lemma wp_fat_read_none s fd f buf sz Q :
  vol_ok s -> open_file s fd f -> 0 <= f_pos f <= f_size f -> f_size f < 2 ^ 32 -> 0 <= sz ->
  f_pos f + sz < 2 ^ 32 -> sz = 0 \/ f_pos f = f_size f ->
  (forall s', fs_step s 0 (blk s) (<[Z.to_nat (fd - FAT_FD_OFFSET) := f]> (fat_open_files s)) s' ->
     Q (0, buf) s') ->
  wp (fat_read fd buf sz) s Q.
Proof.
  intros Hv Hop Hp0 Hsize Hsz Hov Hnone HQ.
  unfold fat_read. wstep. apply wp_check_fd with f; [apply Hv|done|]. intros s1 Hs1.
  pose proof (fs_of_disk _ _ _ _ Hs1) as Hfs1. pose proof (fs_files _ _ _ _ _ Hfs1) as Hfl1.
  destruct Hop as (Hi & Hfd & Hf & Hfree).
  wstep. apply wp_get_file with f; [by rewrite Hfl1|]. rewrite (u32_small (f_pos f + sz)) by lia.
  assert ((if f_size f <? f_pos f + sz then u32 (f_size f - f_pos f) else sz) <= 0 \/
          (if f_size f <? f_pos f + sz then u32 (f_size f - f_pos f) else sz) = 0) as Hn.
  { destruct (Z.ltb_spec (f_size f) (f_pos f + sz)) as [Hlt|]; [|lia].
    assert (f_size f - f_pos f = 0) as -> by lia. by right. }
  set (n := if f_size f <? f_pos f + sz then _ else sz) in *.
  wstep. wstep. wstep. unfold fat_first_sector_of_cluster. wstep. wstep. wstep. wstep. wstep. wstep.
  cbn [read_loop]. replace (0 <? n) with false by lia. cbn [negb]. wstep. cbn beta iota.
  wstep. apply wp_get_file with f; [by cbn; rewrite Hfl1|].
  unfold put_file. wstep. wstep. wstep. wstep. cbn [fat_open_files]. rewrite Z.add_0_r.
  assert (f_pos f < 2 ^ 32) by lia. rewrite u32_small by lia.
  replace (set_pos (f_pos f) f) with f by (by destruct f). change (s32 0) with 0. apply HQ.
  rewrite Hfl1. pose proof (fs_set_errno _ _ _ _ _ 0 Hfs1) as Hs2.
  exact (fs_set_files _ _ _ _ _ (<[Z.to_nat (fd - FAT_FD_OFFSET) := f]> (fat_open_files s)) Hs2).
Qed.

(** C31: fat_read on an open file whose current cluster is the one of its
    position returns the bytes of the file from there, the requested number or
    as many as are left before the end, stores exactly them at the start of the
    buffer, moves the position behind them and leaves the disk as it was.  The
    current cluster it leaves behind is the one of the last byte read. *)
Theorem fat_read_correct s fd f l buf sz :
  let p := fat_pinfo s in
  let n := Z.min sz (f_size f - f_pos f) in
  let c' := if 0 <? n then cluster_of l ((f_pos f + n - 1) / cluster_bytes p) else f_current_cluster f in
  vol_ok s -> open_file s fd f -> file_chain p (blk s) (f_start_cluster f) l ->
  0 <= f_pos f <= f_size f -> f_size f <= Z.of_nat (length l) * cluster_bytes p ->
  f_size f < 2 ^ 32 -> f_current_cluster f = cluster_of l (f_pos f / cluster_bytes p) ->
  0 <= sz < 2 ^ 31 -> f_pos f + sz < 2 ^ 32 -> sz <= Z.of_nat (length buf) ->
  exists s', fat_read fd buf sz s =
      Ret (n, file_bytes p (blk s) l (f_pos f) n ++ drop (Z.to_nat n) buf) s' /\
    fs_step s 0 (blk s) (<[Z.to_nat (fd - FAT_FD_OFFSET) := set_pos (f_pos f + n) (set_current c' f)]>
      (fat_open_files s)) s'.
Proof.
  intros p n c' Hv Hop Hfc Hpos Hfit Hsize Hcur Hsz Hov Hbuf.
  pose proof (geom_spc _ _ (proj2 Hv)) as Hspc. fold p in Hspc.
  enough (wp (fat_read fd buf sz) s (fun r s' =>
    r = (n, file_bytes p (blk s) l (f_pos f) n ++ drop (Z.to_nat n) buf) /\
    fs_step s 0 (blk s) (<[Z.to_nat (fd - FAT_FD_OFFSET) := set_pos (f_pos f + n) (set_current c' f)]>
      (fat_open_files s)) s')) as (r & s' & Hrun & -> & Hs)%wp_returns by eauto.
  destruct (decide (n = 0)) as [Hn|Hn].
  - apply wp_fat_read_none with f; try done; try lia. unfold c'. rewrite Hn. cbn.
    intros s' Hs'. split; [done|].
    rewrite Z.add_0_r. replace (set_pos (f_pos f) (set_current (f_current_cluster f) f)) with f
      by (by destruct f). done.
  - assert (0 < cluster_bytes p) by (unfold cluster_bytes; lia).
    assert (f_pos f / cluster_bytes p * cluster_bytes p + f_pos f mod cluster_bytes p = f_pos f) as Ho
      by (pose proof (Z.div_mod (f_pos f) (cluster_bytes p)); lia).
    assert (0 <= f_pos f / cluster_bytes p < Z.of_nat (length l)) as Hk.
    { split; [apply Z.div_pos; lia|apply Z.div_lt_upper_bound; lia]. }
    apply (wp_fat_read_at s fd f l (f_pos f / cluster_bytes p)); fold p; fold n; rewrite ?Ho; try done; [lia|].
    intros s' Hs'. split.
    + unfold blit. change (Z.to_nat 0) with 0%nat. rewrite take_0, length_file_bytes. done.
    + unfold last_cluster in Hs'. unfold c'. replace (0 <? n) with true in * by lia. done.
Qed.

(** What a step that leaves the blocks alone keeps of a file. *)
Lemma fs_chain s e fl s1 c0 l : vol_ok s -> fs_step s e (blk s) fl s1 ->
  file_chain (fat_pinfo s) (blk s) c0 l -> file_chain (fat_pinfo s) (blk s1) c0 l.
Proof.
  intros Hv Hs [Hc H2]. split; [|done]. eapply chain_frame; [|done]. intros d Hd.
  apply chain_clusters in Hc. rewrite Forall_forall in Hc. specialize (Hc d Hd).
  unfold tval. f_equal. apply entry_ext; [|done]. intros x Hx. apply Hs. by apply (geom_cap _ _ (proj2 Hv)).
Qed.
Lemma fs_bytes s e fl s1 c0 l o n : vol_ok s -> fs_step s e (blk s) fl s1 ->
  file_chain (fat_pinfo s) (blk s) c0 l -> 0 <= o -> o + n <= Z.of_nat (length l) * cluster_bytes (fat_pinfo s) ->
  file_bytes (fat_pinfo s) (blk s1) l o n = file_bytes (fat_pinfo s) (blk s) l o n.
Proof.
  intros Hv Hs Hfc Ho Hn. set (p := fat_pinfo s) in *. pose proof (geom_spc _ _ (proj2 Hv)) as Hspc. fold p in Hspc.
  set (cb := cluster_bytes p) in *. assert (0 < cb) by (unfold cb, cluster_bytes; lia).
  unfold file_bytes. apply list_fmap_ext. intros j x Hj. apply lookup_seqZ in Hj as [-> Hj].
  unfold file_byte, sector_of. fold cb. set (x := o + Z.of_nat j). f_equal. apply Hs.
  assert (0 <= x / cb < Z.of_nat (length l)) as Hk
    by (split; [apply Z.div_pos; lia|apply Z.div_lt_upper_bound; lia]).
  destruct (file_chain_at _ _ _ _ _ Hfc Hk) as (_ & Hck & H2k).
  apply data_sector; [done|done|done|]. pose proof (Z.mod_pos_bound x cb).
  split; [apply Z.div_pos; lia|apply Z.div_lt_upper_bound; [lia|]]. unfold cb, cluster_bytes in *. fold p. lia.
Qed.

(** A read after an operation that only moved the position to [q] and left
    the current cluster at number [k] of the chain. *)
Lemma wp_read_after s s1 fd f l k q buf sz (Q : Z * list Z -> sys -> Prop) :
  let p := fat_pinfo s in
  let n := Z.min sz (f_size f - q) in
  let o := k * cluster_bytes p + q mod cluster_bytes p in
  vol_ok s -> open_file s fd f -> file_chain p (blk s) (f_start_cluster f) l ->
  fs_step s 0 (blk s) (<[Z.to_nat (fd - FAT_FD_OFFSET) := set_pos q (set_current (cluster_of l k) f)]>
    (fat_open_files s)) s1 ->
  0 <= q <= f_size f -> f_size f < 2 ^ 32 -> 0 <= sz < 2 ^ 31 -> q + sz < 2 ^ 32 -> sz <= Z.of_nat (length buf) ->
  0 <= k < Z.of_nat (length l) -> o + n <= Z.of_nat (length l) * cluster_bytes p ->
  (forall s2, Q (n, blit 0 (file_bytes p (blk s) l o n) buf) s2) ->
  wp (fat_read fd buf sz) s1 Q.
Proof.
  intros p n o Hv (Hi & Hfd & Hf & Hfree) Hfc Hs Hq Hsize Hsz Hov Hbuf Hk Hfit HQ.
  pose proof (geom_spc _ _ (proj2 Hv)) as Hspc. fold p in Hspc.
  assert (0 < cluster_bytes p) as Hcb by (unfold cluster_bytes; lia).
  pose proof (fs_pinfo _ _ _ _ _ Hs) as Hp1. fold p in Hp1.
  pose proof (fs_others _ _ _ _ _ Hs) as Hoth. injection Hoth as _ _ Hinit _ _.
  apply (wp_fat_read_at s1 fd (set_pos q (set_current (cluster_of l k) f)) l k); rewrite ?Hp1;
    cbn [f_pos f_size f_start_cluster f_current_cluster set_pos set_current]; try done.
  - by eapply fs_vol.
  - split_and!; [by rewrite Hinit|lia|lia| |done].
    rewrite (fs_files _ _ _ _ _ Hs), list_lookup_insert_eq; [done|by apply lookup_lt_Some in Hf].
  - by eapply fs_chain.
  - intros s2 _. fold n o. assert (0 <= o).
    { unfold o. pose proof (Z.mod_pos_bound q (cluster_bytes p) ltac:(lia)). nia. }
    pose proof (fs_bytes _ _ _ _ _ _ o n Hv Hs Hfc) as Eb. fold p in Eb. rewrite Eb by done. apply HQ.
Qed.

(** A read that ends on a cluster boundary before the end of the file is
    followed by one that returns wrong bytes: since fat_read leaves the current
    cluster at the last byte read, the next fat_read delivers the cluster
    before its position once more. *)
Theorem fat_read_repeats_cluster s fd f l buf sz buf2 sz2 :
  let p := fat_pinfo s in
  let pos' := f_pos f + sz in
  let n2 := Z.min sz2 (f_size f - pos') in
  vol_ok s -> open_file s fd f -> file_chain p (blk s) (f_start_cluster f) l ->
  0 <= f_pos f -> 0 < sz < 2 ^ 31 -> pos' < f_size f -> pos' mod cluster_bytes p = 0 ->
  f_size f <= Z.of_nat (length l) * cluster_bytes p ->
  f_size f < 2 ^ 32 -> f_current_cluster f = cluster_of l (f_pos f / cluster_bytes p) ->
  sz <= Z.of_nat (length buf) -> 0 <= sz2 < 2 ^ 31 -> pos' + sz2 < 2 ^ 32 ->
  sz2 <= Z.of_nat (length buf2) ->
  exists s1 s2,
    fat_read fd buf sz s = Ret (sz, blit 0 (file_bytes p (blk s) l (f_pos f) sz) buf) s1 /\
    fat_read fd buf2 sz2 s1 =
      Ret (n2, blit 0 (file_bytes p (blk s) l (pos' - cluster_bytes p) n2) buf2) s2.
Proof.
  intros p pos' n2 Hv Hop Hfc Hpos Hsz Hlt Hb Hfit Hsize Hcur Hbuf Hsz2 Hov2 Hbuf2.
  pose proof (geom_spc _ _ (proj2 Hv)) as Hspc. fold p in Hspc.
  set (cb := cluster_bytes p) in *. assert (0 < cb) by (unfold cb, cluster_bytes; lia).
  assert (f_pos f / cb * cb + f_pos f mod cb = f_pos f) as Ho
    by (pose proof (Z.div_mod (f_pos f) cb); lia).
  assert (Z.min sz (f_size f - f_pos f) = sz) as Hmin by lia.
  assert (pos' = pos' / cb * cb) as Hp' by (pose proof (Z.div_mod pos' cb); lia).
  set (k2 := pos' / cb - 1).
  assert ((f_pos f + sz - 1) / cb = k2) as Hlc.
  { symmetry. apply Z.div_unique with (cb - 1); [lia|]. unfold k2. fold pos'. lia. }
  assert (0 < pos' / cb) by (apply Z.div_str_pos; split; [done|]; destruct (Z.le_gt_cases cb pos');
    [done|]; rewrite Z.mod_small in Hb by lia; lia).
  enough (wp (fat_read fd buf sz) s (fun r s1 =>
    r = (sz, blit 0 (file_bytes p (blk s) l (f_pos f) sz) buf) /\
    wp (fat_read fd buf2 sz2) s1 (fun r2 _ =>
      r2 = (n2, blit 0 (file_bytes p (blk s) l (pos' - cb) n2) buf2))))
    as (r & s1 & Hrun & -> & (r2 & s2 & Hrun2 & ->)%wp_returns)%wp_returns by eauto.
  apply (wp_fat_read_at s fd f l (f_pos f / cb)); fold p; fold cb; rewrite ?Hmin, ?Ho; try done; try lia.
  { split; [apply Z.div_pos; lia|apply Z.div_lt_upper_bound; lia]. }
  intros s1 Hs1. split; [done|].
  unfold last_cluster in Hs1. fold cb in Hs1. replace (0 <? sz) with true in Hs1 by lia. rewrite Hlc in Hs1.
  assert (k2 * cb + pos' mod cb = pos' - cb) as Ho2 by (unfold k2; lia).
  apply (wp_read_after s s1 fd f l k2 pos'); fold p; fold cb; rewrite ?Ho2; try done; try lia.
  split; [unfold k2; lia|]. apply (Z.mul_lt_mono_pos_r cb); [done|]. unfold k2. lia.
Qed.

(** ** Seeking *)

Lemma wp_seek_clusters (g : Z -> list Z) c0 l n : forall s k Q,
  let p := fat_pinfo s in
  vol_ok s -> s_errno s = 0 -> (forall x, 0 <= x < cap s -> blk s x = g x) ->
  file_chain p g c0 l -> 0 <= k < Z.of_nat (length l) ->
  (forall s', disk_step s 0 g s' ->
     Q (if k + Z.of_nat n <? Z.of_nat (length l) then Some (cluster_of l (k + Z.of_nat n)) else None) s') ->
  wp (seek_clusters n (cluster_of l k)) s Q.
Proof.
  induction n as [|n IH]; intros s k Q p Hv He Hg Hfc Hk HQ; cbn [seek_clusters].
  { wstep. change (Z.of_nat 0) with 0 in HQ. rewrite Z.add_0_r in HQ. replace (k <? Z.of_nat (length l)) with true in HQ by lia.
    apply HQ. rewrite <- He. eapply disk_step_ext; [apply disk_step_refl, Hv|done]. }
  destruct (file_chain_at _ _ _ _ _ Hfc Hk) as (Hlk & Hck & H2k).
  wstep. apply wp_fat_get_table_value; [done..|]. intros s1 Hs1.
  cbn [fst snd negb Z.eqb FAT_SUCCESS]. rewrite (tval_agree s g) by done. fold p.
  assert (disk_step s 0 g s1) as Hs1g by (by eapply disk_step_ext).
  destruct (decide (k + 1 < Z.of_nat (length l))) as [Hin|Hend].
  - destruct (file_chain_at p g c0 l (k + 1) Hfc ltac:(lia)) as (Hlk1 & _ & _).
    destruct (chain_link p g c0 l (Z.to_nat k) _ (cluster_of l (k + 1)) (proj1 Hfc) Hlk)
      as (Htv & HL & HB & HFr); [by rewrite <- Z2Nat.inj_succ by lia|].
    rewrite Htv, HB, HL. apply IH; rewrite ?(disk_step_pinfo _ _ _ _ Hs1); try done; try lia.
    + by eapply vol_ok_step.
    + apply Hs1.
    + intros x. rewrite (step_cap _ _ _ _ Hs1). apply Hs1g.
    + intros s2 Hs2. replace (k + 1 + Z.of_nat n) with (k + Z.of_nat (S n)) by lia.
      apply HQ. by eapply disk_step_trans.
  - assert (FAT_TV_LAST (tval p g (cluster_of l k)) = true) as HL.
    { eapply chain_end; [apply Hfc|]. rewrite last_lookup, <- Hlk. f_equal. lia. }
    assert (FAT_TV_BAD (tval p g (cluster_of l k)) = false) as HB
      by (revert HL; unfold FAT_TV_LAST, FAT_TV_BAD; lia).
    rewrite HB, HL. wstep.
    rewrite (proj2 (Z.ltb_ge (k + Z.of_nat (S n)) (Z.of_nat (length l)))) in HQ by lia. by apply HQ.
Qed.

(** The position fat_lseek aims at. *)
Definition seek_target (f : FatFile) (pos whence : Z) : Z :=
  if whence =? SEEK_SET then pos
  else if whence =? SEEK_CUR then f_pos f + pos else f_size f + pos.

(** The walk of fat_lseek from a position to another. *)
Lemma seek_distance cb pos t : 0 < cb -> 0 <= pos ->
  pos < t -> (pos mod cb + (t - pos)) / cb = t / cb - pos / cb.
Proof.
  intros Hcb Hpos Hlt. pose proof (Z.div_mod pos cb).
  replace (pos mod cb + (t - pos)) with (t + - (pos / cb) * cb) by lia.
  rewrite Z.div_add by lia. lia.
Qed.

(** The result [r] and state [s'] of seeking to [t] in the file [f]. *)
Definition seek_post (s : sys) (fd : Z) (f : FatFile) (l : list Z) (t r : Z) (s' : sys) : Prop :=
  let k := t / cluster_bytes (fat_pinfo s) in
  if (t <? 0) || (f_size f <? t) then
    r = FAT_FAIL /\ fs_step s EPIPE (blk s) (fat_open_files s) s'
  else if k <? Z.of_nat (length l) then
    r = t /\ fs_step s 0 (blk s) (<[Z.to_nat (fd - FAT_FD_OFFSET) :=
               set_pos t (set_current (cluster_of l k) f)]> (fat_open_files s)) s'
  else r = FAT_FAIL /\ fs_step s 0 (blk s) (fat_open_files s) s'.

(** Both directions walk from some cluster of the chain to number [t / cb]. *)
Lemma seek_start p (g : Z -> list Z) f l t : let cb := cluster_bytes p in let k := t / cb in
  0 < cb -> file_chain p g (f_start_cluster f) l -> 0 <= f_pos f <= f_size f -> f_size f <= Z.of_nat (length l) * cb ->
  f_size f < 2 ^ 31 -> (f_pos f < t -> f_current_cluster f = cluster_of l (f_pos f / cb)) -> 0 <= t <= f_size f ->
  exists k0 n, 0 <= k0 < Z.of_nat (length l) /\ k0 + Z.of_nat n = k /\
    (if f_pos f <? t then f_current_cluster f else f_start_cluster f) = cluster_of l k0 /\
    Z.to_nat (if f_pos f <? t then u32 (f_pos f mod cb + u32 (t - f_pos f)) / cb else t / cb) = n.
Proof.
  intros cb k Hcb Hfc Hpos Hfit Hsize Hcur Ht. pose proof (Z.mod_pos_bound (f_pos f) cb). pose proof (Z.mod_le (f_pos f) cb).
  assert (0 <= k) by (apply Z.div_pos; lia). destruct (Z.ltb_spec (f_pos f) t).
  - rewrite (u32_small (t - f_pos f)), u32_small, seek_distance by lia.
    pose proof (Z.div_le_mono (f_pos f) t cb). fold k.
    assert (0 <= f_pos f / cb < Z.of_nat (length l)) as Hkp
      by (split; [apply Z.div_pos; lia|apply Z.div_lt_upper_bound; lia]).
    exists (f_pos f / cb), (Z.to_nat (k - f_pos f / cb)). split_and!; try lia; auto.
  - exists 0, (Z.to_nat k). destruct (chain_head _ _ _ _ (proj1 Hfc)) as [l' ->].
    split_and!; try done; cbn [length]; lia.
Qed.

Lemma wp_fat_lseek s fd f l pos whence :
  let p := fat_pinfo s in
  let t := seek_target f pos whence in
  let k := t / cluster_bytes p in
  vol_ok s -> open_file s fd f -> file_chain p (blk s) (f_start_cluster f) l ->
  0 <= f_pos f <= f_size f -> f_size f <= Z.of_nat (length l) * cluster_bytes p ->
  f_size f < 2 ^ 31 -> (f_pos f < t -> f_current_cluster f = cluster_of l (f_pos f / cluster_bytes p)) ->
  whence = SEEK_SET \/ whence = SEEK_CUR \/ whence = SEEK_END -> - 2 ^ 31 <= t < 2 ^ 31 ->
  wp (fat_lseek fd pos whence) s (fun r s' => seek_post s fd f l t r s').
Proof.
  intros p t k Hv Hop Hfc Hpos Hfit Hsize Hcur Hwh Ht.
  pose proof (geom_spc _ _ (proj2 Hv)) as Hspc. fold p in Hspc.
  unfold seek_post. fold p. fold k. unfold fat_lseek. wstep. apply wp_check_fd with f; [apply Hv|done|]. intros s1 Hs1.
  pose proof (fs_of_disk _ _ _ _ Hs1) as Hfs1. pose proof (fs_files _ _ _ _ _ Hfs1) as Hfl1.
  assert (fat_pinfo s1 = p) as Hp1 by apply (disk_step_pinfo _ _ _ _ Hs1).
  destruct Hop as (Hi & Hfd & Hf & Hfree).
  wstep. apply wp_get_file with f; [by rewrite Hfl1|].
  assert ((if whence =? SEEK_SET then Some pos else if whence =? SEEK_CUR then Some (s32 (f_pos f + pos))
    else if whence =? SEEK_END then Some (s32 (f_size f + pos)) else None) = Some t) as ->.
  { unfold t, seek_target in *.
    destruct Hwh as [-> | [-> | ->]]; cbn in *; [done|by rewrite s32_small..]. }
  destruct ((t <? 0) || (f_size f <? t)) eqn:Hout.
  { wstep. wstep. wstep. split; [done|]. by eapply fs_set_errno. }
  apply orb_false_iff in Hout as [Ht0 Hts].
  wstep. wstep. rewrite Hp1, (geom_bps p _ (proj2 Hv)).
  rewrite (u32_small (512 * sectors_per_cluster p)) by lia. fold (cluster_bytes p).
  set (cb := cluster_bytes p) in *. assert (0 < cb) by (unfold cb, cluster_bytes; lia).
  destruct (seek_start p (blk s) f l t) as (k0 & n & Hk0 & Hkn & Ec & En); try done; [lia|].
  fold cb in Hkn, Ec, En. fold k in Hkn. rewrite Ec, En.
  wstep. apply (wp_seek_clusters (blk s) (f_start_cluster f)); rewrite ?Hp1; try done.
  - by eapply vol_ok_step.
  - apply Hs1.
  - intros x. rewrite (step_cap _ _ _ _ Hs1). apply Hs1.
  - intros s2 Hs2. rewrite Hkn. pose proof (fs_of_disk _ _ _ _ (disk_step_trans _ _ _ _ _ _ _ Hs1 Hs2)) as Hfs2.
    destruct (k <? Z.of_nat (length l)); [|by wstep].
    pose proof (fs_files _ _ _ _ _ Hfs2) as Hfl2.
    wstep. apply wp_get_file with f; [by rewrite Hfl2|].
    unfold put_file. wstep. wstep. wstep. wstep. wstep. wstep. split; [done|]. rewrite Hfl2.
    pose proof (fs_set_files _ _ _ _ _ (<[Z.to_nat (fd - FAT_FD_OFFSET) :=
      set_pos t (set_current (cluster_of l k) f)]> (fat_open_files s)) Hfs2) as Hs3.
    exact (fs_set_errno _ _ _ _ _ 0 Hs3).
Qed.

(** fat_lseek on an open file, relative to its start, its position or its
    end.  A target outside the file gives EPIPE and changes nothing.  Inside it
    the call returns the target, sets the position and makes the current
    cluster the one of the position.  A target at the end of the file where the
    chain has no further cluster makes the call fail with errno 0. *)
Theorem fat_lseek_correct s fd f l pos whence :
  let p := fat_pinfo s in
  let t := seek_target f pos whence in
  vol_ok s -> open_file s fd f -> file_chain p (blk s) (f_start_cluster f) l ->
  0 <= f_pos f <= f_size f -> f_size f <= Z.of_nat (length l) * cluster_bytes p ->
  f_size f < 2 ^ 31 -> (f_pos f < t -> f_current_cluster f = cluster_of l (f_pos f / cluster_bytes p)) ->
  whence = SEEK_SET \/ whence = SEEK_CUR \/ whence = SEEK_END -> - 2 ^ 31 <= t < 2 ^ 31 ->
  exists r s', fat_lseek fd pos whence s = Ret r s' /\ seek_post s fd f l t r s'.
Proof. intros. apply wp_returns. by apply wp_fat_lseek. Qed.

(** ** Descriptors that are not open *)

Definition with_errno (e : Z) (s : sys) : sys :=
  mk_sys _ (s_dev s) e (disk_global_info s) (fat_pinfo s) (fat_open_files s)
    (fat_initialized s) (long_name16 s) (long_name8 s).
Definition with_files (l : list FatFile) (s : sys) : sys :=
  mk_sys _ (s_dev s) (s_errno s) (disk_global_info s) (fat_pinfo s) l
    (fat_initialized s) (long_name16 s) (long_name8 s).

(** The error for a descriptor, if it cannot be used. *)
Definition fd_error (s : sys) (fd : Z) : option Z :=
  if fat_initialized s =? 0 then Some EPERM
  else if (fd <? FAT_FD_OFFSET) || (FAT_FD_OFFSET + FAT_MAX_FILES <=? fd) then Some EINVAL
  else match fat_open_files s !! Z.to_nat (fd - FAT_FD_OFFSET) with
       | Some f => if f_free f =? 0 then None else Some EBADF
       | None => None
       end.

Lemma check_fd_error s fd e : fd_error s fd = Some e -> check_fd fd s = Ret None (with_errno e s).
Proof.
  unfold fd_error, check_fd, get_file, fbind, set_errno, fmod, fget, fret. cbn [fat_initialized fat_open_files].
  destruct (fat_initialized s =? 0); [by intros [= <-]|].
  destruct (_ || _); [by intros [= <-]|].
  cbn [fat_open_files]. destruct (fat_open_files s !! _) as [f|]; [|done]. cbn beta iota.
  destruct (f_free f =? 0); [done|]. by intros [= <-].
Qed.

(** Fat_close, fat_read, fat_write and fat_lseek reject a descriptor that
    is not open: EPERM before fat_init, EINVAL outside 3 .. 18, EBADF for a
    closed one.  They return -1 and change nothing but errno. *)
Theorem bad_fd_rejected s fd e :
  fd_error s fd = Some e ->
  fat_close fd s = Ret FAT_FAIL (with_errno e s) /\
  (forall buf sz, fat_read fd buf sz s = Ret (FAT_FAIL, buf) (with_errno e s)) /\
  (forall buf sz, fat_write fd buf sz s = Ret FAT_FAIL (with_errno e s)) /\
  (forall pos whence, fat_lseek fd pos whence s = Ret FAT_FAIL (with_errno e s)).
Proof.
  intros He. apply check_fd_error in He.
  unfold fat_close, fat_read, fat_write, fat_lseek, fbind. rewrite He. done.
Qed.

(** The file an entry of a directory sector describes. *)
Definition dir_file (sector : list Z) (idx : FatDirEntryIdx) : FatFile :=
  let off := d_index idx * FAT_DIR_ENTRY_WIDTH in
  let start := Z.lor (le16 sector (off + 0x1a)) (Z.shiftl (le16 sector (off + 0x14)) 16) in
  mk_file 0 0 idx start start (le32 sector (off + 0x1C)).

Lemma le16_range n b off : byte_array n b -> 0 <= le16 b off < 2 ^ 16.
Proof.
  intros Hb. unfold le16. pose proof (byte_array_at n b off Hb).
  pose proof (byte_array_at n b (off + 1) Hb). unfold is_byte in *. lia.
Qed.

Lemma wp_dir_fields s sector idx (Q : Z -> Z -> sys -> Prop) :
  byte_array 512 sector -> 0 <= d_index idx < 16 ->
  Q (f_start_cluster (dir_file sector idx)) (f_size (dir_file sector idx)) s ->
  wp (fat_cluster_of_dir_entry sector (d_index idx)) s (fun c s =>
    wp (fat_size_of_dir_entry sector (d_index idx)) s (fun z s => Q c z s)).
Proof.
  intros Hb Hi HQ. pose proof (proj1 Hb) as Hl.
  unfold fat_cluster_of_dir_entry, fat_size_of_dir_entry, FAT_DIR_ENTRY_WIDTH.
  rewrite (u32_small (d_index idx * 32)) by lia.
  wstep. eapply wp_fat_get_uint16; [done|lia|rewrite Hl; lia|].
  wstep. eapply wp_fat_get_uint16; [done|lia|rewrite Hl; lia|].
  wstep. eapply wp_fat_get_uint32; [done|lia|rewrite Hl; lia|].
  pose proof (le16_range 512 sector (d_index idx * 32 + 20) Hb).
  rewrite u32_small; [done|]. rewrite Z.shiftl_mul_pow2 by lia. lia.
Qed.

Lemma open_dir_entry_from_spec n : forall i s sector idx,
  byte_array 512 sector -> 0 <= d_index idx < 16 -> 0 <= i ->
  (Z.to_nat i + n = length (fat_open_files s))%nat ->
  open_dir_entry_from n i sector idx s =
    match list_find (fun f => f_free f <> 0) (drop (Z.to_nat i) (fat_open_files s)) with
    | None => Ret (-1) s
    | Some (j, _) => Ret (i + Z.of_nat j + FAT_FD_OFFSET)
        (with_files (<[(Z.to_nat i + j)%nat := dir_file sector idx]> (fat_open_files s)) s)
    end.
Proof.
  induction n as [|n IH]; intros i s sector idx Hb Hi Hi0 Hn; cbn [open_dir_entry_from].
  { by rewrite drop_ge by lia. }
  destruct (lookup_lt_is_Some_2 (fat_open_files s) (Z.to_nat i)) as [f Hf]; [lia|].
  rewrite (drop_S _ f) by done. cbn [list_find]. unfold fbind at 1, fget at 1. rewrite Hf.
  destruct (Z.eqb_spec 0 (f_free f)) as [Hz|Hz].
  - rewrite decide_False by lia. rewrite IH; [|done|done|lia|lia].
    rewrite Z2Nat.inj_add by lia. change (Z.to_nat 1) with 1%nat. rewrite Nat.add_1_r.
    destruct (list_find _ _) as [[j y]|]; cbn; [|done]. f_equal; [lia|]. do 2 f_equal. lia.
  - rewrite decide_True by lia.
    pose proof (wp_dir_fields s sector idx (fun c z s' => s' = s /\ c = f_start_cluster (dir_file sector idx) /\
      z = f_size (dir_file sector idx)) Hb Hi ltac:(done)) as (c & s1 & Hr1 & (z & s2 & Hr2 & -> & -> & ->)%wp_returns)%wp_returns.
    unfold fbind. rewrite Hr1, Hr2. unfold set_open_files, fmod, fret, with_files.
    rewrite Nat.add_0_r. f_equal. lia.
Qed.

(** Fat_open_dir_entry takes the first free slot of the table of open
    files, for the start cluster and size the directory entry holds, at
    position 0, and leaves the other slots alone; with no free slot it
    returns -1 and changes nothing. *)
Theorem fat_open_dir_entry_correct s sector idx :
  byte_array 512 sector -> 0 <= d_index idx < 16 -> length (fat_open_files s) = 16%nat ->
  fat_open_dir_entry sector idx s =
    match list_find (fun f => f_free f <> 0) (fat_open_files s) with
    | None => Ret (-1) s
    | Some (j, _) => Ret (Z.of_nat j + FAT_FD_OFFSET)
        (with_files (<[j := dir_file sector idx]> (fat_open_files s)) s)
    end.
Proof.
  intros Hb Hi Hl. unfold fat_open_dir_entry. rewrite open_dir_entry_from_spec; [done|done|done|lia|by rewrite Hl].
Qed.

End IO.

(** ** On the small volume *)
Section Witnesses.
Import RamDisk Mini.
#[local] Instance cm : CharModel := false.

(** Descriptor 3 is a file of 1300 bytes in the chain 3, 4, 5. *)
Definition file3 (pos c : Z) : FatFile := mk_file 0 pos (mk_didx 2 0 0) 3 c 1300.
Definition s_open (pos c : Z) : sys := with_files (<[0%nat := file3 pos c]> (fat_open_files s0)) s0.

Lemma s_open_vol pos c : vol_ok (s_open pos c).
Proof. exact s0_ok. Qed.
Lemma s_open_chain pos c : file_chain (fat_pinfo (s_open pos c)) (blk (s_open pos c)) 3 [3; 4; 5].
Proof. split; [exact s0_chain|]. repeat constructor; lia. Qed.
Lemma s_open_file pos c : open_file (s_open pos c) 3 (file3 pos c).
Proof. split_and!; done. Qed.

Lemma fat_read_correct_witness :
  exists s', fat_read 3 (replicate 600 0) 600 (s_open 100 3) =
      Ret (600, file_bytes pinfo (blk s0) [3; 4; 5] 100 600 ++ drop (Z.to_nat 600) (replicate 600 0)) s' /\
    fs_step (s_open 100 3) 0 (blk s0) (<[0%nat := set_pos 700 (set_current 4 (file3 100 3))]>
      (fat_open_files (s_open 100 3))) s'.
Proof.
  apply (fat_read_correct (s_open 100 3) 3 (file3 100 3) [3; 4; 5] (replicate 600 0) 600);
    [apply s_open_vol|apply s_open_file|apply s_open_chain|
     split; [apply Z.leb_le|apply Z.leb_le]; by vm_compute|apply Z.leb_le; by vm_compute|
     apply Z.ltb_lt; by vm_compute|by vm_compute|lia|apply Z.ltb_lt; by vm_compute|
     rewrite length_replicate; lia].
Defined.

Lemma fat_read_repeats_cluster_witness :
  exists s1 s2,
    fat_read 3 (replicate 512 0) 512 (s_open 0 3) =
      Ret (512, blit 0 (file_bytes pinfo (blk s0) [3; 4; 5] 0 512) (replicate 512 0)) s1 /\
    fat_read 3 (replicate 512 0) 512 s1 =
      Ret (512, blit 0 (file_bytes pinfo (blk s0) [3; 4; 5] (0 + 512 - cluster_bytes pinfo) 512)
             (replicate 512 0)) s2.
Proof.
  apply (fat_read_repeats_cluster (s_open 0 3) 3 (file3 0 3) [3; 4; 5] (replicate 512 0) 512
    (replicate 512 0) 512);
    [apply s_open_vol|apply s_open_file|apply s_open_chain|cbn; lia|lia|cbn; lia|by vm_compute|
     apply Z.leb_le; by vm_compute|cbn; lia|by vm_compute|rewrite length_replicate; lia|lia|cbn; lia|
     rewrite length_replicate; lia].
Defined.

Lemma fat_lseek_correct_witness :
  exists r s', fat_lseek 3 (-76) SEEK_END (s_open 100 3) = Ret r s' /\
    seek_post (s_open 100 3) 3 (file3 100 3) [3; 4; 5] (seek_target (file3 100 3) (-76) SEEK_END) r s'.
Proof.
  apply (fat_lseek_correct (s_open 100 3) 3 (file3 100 3) [3; 4; 5] (-76) SEEK_END);
    [apply s_open_vol|apply s_open_file|apply s_open_chain|cbn; lia|apply Z.leb_le; by vm_compute|
     cbn; lia|by vm_compute|by right; right|
     split; [apply Z.leb_le|apply Z.ltb_lt]; by vm_compute].
Defined.

Lemma bad_fd_rejected_witness :
  fat_close 4 (s_open 0 3) = Ret FAT_FAIL (with_errno EBADF (s_open 0 3)) /\
  (forall buf sz, fat_read 4 buf sz (s_open 0 3) = Ret (FAT_FAIL, buf) (with_errno EBADF (s_open 0 3))) /\
  (forall buf sz, fat_write 4 buf sz (s_open 0 3) = Ret FAT_FAIL (with_errno EBADF (s_open 0 3))) /\
  (forall pos whence, fat_lseek 4 pos whence (s_open 0 3) = Ret FAT_FAIL (with_errno EBADF (s_open 0 3))).
Proof. apply (bad_fd_rejected (s_open 0 3) 4 EBADF). by vm_compute. Defined.

Lemma fat_open_dir_entry_correct_witness :
  fat_open_dir_entry blank (mk_didx 2 0 1) (s_open 0 3) =
    match list_find (fun f => f_free f <> 0) (fat_open_files (s_open 0 3)) with
    | None => Ret (-1) (s_open 0 3)
    | Some (j, _) => Ret (Z.of_nat j + FAT_FD_OFFSET)
        (with_files (<[j := dir_file blank (mk_didx 2 0 1)]> (fat_open_files (s_open 0 3))) (s_open 0 3))
    end.
Proof.
  apply (fat_open_dir_entry_correct (s_open 0 3) blank (mk_didx 2 0 1)); [|cbn; lia|done].
  split; [done|]. apply Forall_replicate. unfold is_byte; lia.
Defined.

End Witnesses.
