(* ===== verification/FatWrite.v ===== *)
(** FatWrite: fat_write of the FAT32 library changes the file it writes to
    and nothing else.

    [grows p g l g' l2]: the disk went from [g] to [g'] by writing to the
    file with the chain [l] and appending the clusters [l2] to it.  The
    theorems: fat_write stores the bytes at the position of the file, extends
    the chain with clusters that were free, updates the size in the directory
    entry, and leaves the other files alone; seeking back and reading gives
    the bytes that were written. *)

From stdpp Require Import base numbers list gmap.
From S2P Require Import Prelude SdDisk FatTable FatName FatDir FatFs FatIO.

(** ** Sectors of a chain *)

Lemma cluster_sec_inj p c so c' so' :
  0 <= so < sectors_per_cluster p -> 0 <= so' < sectors_per_cluster p ->
  cluster_sec p c + so = cluster_sec p c' + so' -> c = c' /\ so = so'.
Proof. intros Hso Hso' He. unfold cluster_sec in He. assert (c = c') by nia. subst. lia. Qed.

Lemma chain_used p g c l d : chain p g c l -> d ∈ l -> tval p g d <> 0.
Proof.
  induction 1 as [c Hi HL|c l Hi HL HB HF Hc IH]; intros Hd.
  - apply list_elem_of_singleton in Hd as ->. revert HL. unfold FAT_TV_LAST. lia.
  - apply elem_of_cons in Hd as [->|Hd]; [|auto]. revert HF. unfold FAT_TV_FREE. lia.
Qed.

Lemma cluster_of_inj l k k' : NoDup l ->
  0 <= k < Z.of_nat (length l) -> 0 <= k' < Z.of_nat (length l) ->
  cluster_of l k = cluster_of l k' -> k = k'.
Proof.
  intros Hn Hk Hk' He. unfold cluster_of in He.
  destruct (lookup_lt_is_Some_2 l (Z.to_nat k)) as [d Hd]; [lia|].
  destruct (lookup_lt_is_Some_2 l (Z.to_nat k')) as [d' Hd']; [lia|].
  rewrite !nth_lookup, Hd, Hd' in He. cbn in He. subst d'.
  pose proof (NoDup_lookup _ _ _ _ Hn Hd Hd'). lia.
Qed.

Lemma cluster_of_elem l k : 0 <= k < Z.of_nat (length l) -> cluster_of l k ∈ l.
Proof.
  intros Hk. destruct (lookup_lt_is_Some_2 l (Z.to_nat k)) as [d Hd]; [lia|].
  unfold cluster_of. rewrite nth_lookup, Hd. by eapply list_elem_of_lookup_2.
Qed.

Lemma cluster_of_app l l2 k : 0 <= k < Z.of_nat (length l) ->
  cluster_of (l ++ l2) k = cluster_of l k.
Proof. intros Hk. unfold cluster_of. rewrite !nth_lookup, lookup_app_l by lia. done. Qed.

(** The parts of an offset. *)
Lemma offset_split spc o : 0 < spc -> 0 <= o ->
  o = o / (512 * spc) * (512 * spc) + o mod (512 * spc) / 512 * 512 + o mod 512 /\
  0 <= o mod (512 * spc) / 512 < spc /\ 0 <= o mod 512 < 512 /\ 0 <= o / (512 * spc).
Proof.
  intros Hs Ho. pose proof (Z.div_mod o (512 * spc)). pose proof (Z.mod_pos_bound o (512 * spc)).
  pose proof (Z.mod_pos_bound o 512).
  assert (o mod (512 * spc) / 512 * 512 + o mod 512 = o mod (512 * spc)) as Hm.
  { destruct (pos_parts spc o Hs) as (Hp & Hr & _). rewrite Hp at 1.
    rewrite Z.div_add_l, (Z.div_small (o mod 512)) by lia. lia. }
  assert (0 <= o / (512 * spc)) by (apply Z.div_pos; lia).
  assert (0 <= o mod (512 * spc) / 512) by (apply Z.div_pos; lia).
  assert (o mod (512 * spc) / 512 < spc) by (apply Z.div_lt_upper_bound; lia). lia.
Qed.

Lemma sector_of_parts p l k so bo :
  0 < sectors_per_cluster p -> 0 <= so < sectors_per_cluster p -> 0 <= bo < 512 ->
  sector_of p l (k * cluster_bytes p + so * 512 + bo) = cluster_sec p (cluster_of l k) + so /\
  (k * cluster_bytes p + so * 512 + bo) mod 512 = bo.
Proof.
  intros Hs Hso Hbo. unfold sector_of, cluster_bytes.
  destruct (offset_parts (sectors_per_cluster p) k so bo Hs Hso Hbo) as (H1 & H2 & H3).
  by rewrite H1, H2, H3.
Qed.

(** Writing [bytes] into one sector of the file. *)
Definition put_sector (a bo : Z) (bytes : list Z) (g : Z -> list Z) (x : Z) : list Z :=
  if decide (x = a) then blit bo bytes (g x) else g x.

Lemma at_blit off bytes buf j :
  0 <= off -> off + Z.of_nat (length bytes) <= Z.of_nat (length buf) -> 0 <= j ->
  at_ (blit off bytes buf) j =
    if (off <=? j) && (j <? off + Z.of_nat (length bytes)) then at_ bytes (j - off) else at_ buf j.
Proof.
  intros H0 H1 Hj. unfold at_, blit. rewrite !nth_lookup.
  assert (length (take (Z.to_nat off) buf) = Z.to_nat off) as Hlt by (rewrite length_take; lia).
  destruct (Z.leb_spec off j) as [Hle|Hlt']; cbn [andb].
  - rewrite lookup_app_r, Hlt by lia. destruct (Z.ltb_spec j (off + Z.of_nat (length bytes))).
    + rewrite lookup_app_l by lia. do 2 f_equal. lia.
    + rewrite lookup_app_r, lookup_drop by lia. do 2 f_equal. lia.
  - rewrite lookup_app_l, lookup_take_lt by lia. done.
Qed.

Lemma file_byte_put p g c l k so bo bytes o' :
  let o := k * cluster_bytes p + so * 512 + bo in
  0 < sectors_per_cluster p -> file_chain p g c l ->
  0 <= k < Z.of_nat (length l) -> 0 <= so < sectors_per_cluster p ->
  0 <= bo < 512 -> bo + Z.of_nat (length bytes) <= 512 ->
  length (g (cluster_sec p (cluster_of l k) + so)) = 512%nat ->
  0 <= o' < Z.of_nat (length l) * cluster_bytes p ->
  file_byte p (put_sector (cluster_sec p (cluster_of l k) + so) bo bytes g) l o' =
    if (o <=? o') && (o' <? o + Z.of_nat (length bytes)) then at_ bytes (o' - o)
    else file_byte p g l o'.
Proof.
  intros o Hs [Hch _] Hk Hso Hbo Hlen Hl Ho'.
  destruct (offset_split (sectors_per_cluster p) o' Hs ltac:(lia)) as (He & Hso' & Hbo' & Hk0).
  fold (cluster_bytes p) in *. set (k' := o' / cluster_bytes p) in *.
  set (so' := o' mod cluster_bytes p / 512) in *. set (bo' := o' mod 512) in *.
  assert (k' < Z.of_nat (length l)) as Hk' by (apply Z.div_lt_upper_bound; unfold cluster_bytes in *; lia).
  unfold file_byte, sector_of. fold k' so' bo'. unfold put_sector.
  destruct (decide (cluster_sec p (cluster_of l k') + so' = cluster_sec p (cluster_of l k) + so)) as [Heq|Hne].
  - apply cluster_sec_inj in Heq as [Hc Hss]; [|done..].
    apply cluster_of_inj in Hc; [|by eapply chain_NoDup|lia|done].
    rewrite Hc, Hss, at_blit by (rewrite ?Hl; lia).
    assert (o' - o = bo' - bo) as Hd by (unfold o; rewrite Hc, Hss in He; lia).
    replace ((o <=? o') && (o' <? o + Z.of_nat (length bytes)))
      with ((bo <=? bo') && (bo' <? bo + Z.of_nat (length bytes))) by lia.
    by rewrite Hd.
  - assert (k' <> k \/ so' <> so) as Hd.
    { destruct (decide (k' = k)) as [->|]; [|by left]. right. intros ->. by apply Hne. }
    replace ((o <=? o') && (o' <? o + Z.of_nat (length bytes))) with false; [done|].
    symmetry. apply andb_false_iff. rewrite Z.leb_gt, Z.ltb_ge.
    assert (k' * sectors_per_cluster p + so' <> k * sectors_per_cluster p + so) as HS.
    { intros HS. destruct (Z.lt_trichotomy k' k) as [|[|]]; nia. }
    unfold o, cluster_bytes in *. lia.
Qed.

(** ** How the disk changes *)

Record grows (p : FatPartitionInfo) (size c0 : Z) (g : Z -> list Z) (l : list Z)
    (g' : Z -> list Z) (l2 : list Z) : Prop := mk_grows {
  grows_chain : file_chain p g' c0 (l ++ l2);
  grows_free : forall d, d ∈ l2 -> d <> 0 /\ tval p g d = 0;
  grows_table : forall c, is_cluster p c -> c ∉ l ++ l2 -> entry p g' c = entry p g c;
  grows_data : forall x, 0 <= x < size -> ~ in_table p x ->
    (forall d so, d ∈ l ++ l2 -> 0 <= so < sectors_per_cluster p -> x <> cluster_sec p d + so) ->
    g' x = g x;
}.

Lemma grows_refl p size c0 g g' l :
  file_chain p g c0 l -> (forall x, 0 <= x < size -> g' x = g x) ->
  (forall x, in_table p x -> 0 <= x < size) -> grows p size c0 g l g' [].
Proof.
  intros [Hch H2] Hg Ht.
  assert (forall c, is_cluster p c -> entry p g' c = entry p g c) as Hent
    by (intros c Hc; apply entry_ext; [|done]; intros x Hx; by apply Hg, Ht).
  split; rewrite ?app_nil_r.
  - split; [|done]. eapply chain_frame; [|done]. intros d Hd. unfold tval. rewrite Hent; [done|].
    apply chain_clusters in Hch. rewrite Forall_forall in Hch. by apply Hch.
  - by intros d ?%elem_of_nil.
  - auto.
  - auto.
Qed.

Lemma grows_trans p size c0 g l g1 l2 g2 l3 :
  grows p size c0 g l g1 l2 -> grows p size c0 g1 (l ++ l2) g2 l3 ->
  grows p size c0 g l g2 (l2 ++ l3).
Proof.
  intros [C1 F1 T1 D1] [C2 F2 T2 D2]. rewrite <- app_assoc in *. split; [done| | |].
  - intros d [Hd|Hd]%elem_of_app; [by apply F1|]. destruct (F2 d Hd) as [Hz Hf].
    split; [done|]. rewrite <- Hf. unfold tval. f_equal. symmetry. apply T1.
    + destruct C2 as [C2 _]. apply chain_clusters in C2. rewrite Forall_forall in C2.
      apply C2. rewrite !elem_of_app. tauto.
    + intros Hin. eapply chain_used in Hin; [|apply C1]. done.
  - intros c Hc Hn. rewrite T2 by done. apply T1; [done|]. intros Hin. apply Hn.
    rewrite elem_of_app in *. rewrite elem_of_app. tauto.
  - intros x Hx Ht Hd. rewrite D2 by done. apply D1; [done..|].
    intros d so Hin. apply Hd. rewrite !elem_of_app in *. tauto.
Qed.

Lemma grows_put p size c0 g l k so bo bytes :
  file_chain p g c0 l -> 0 <= k < Z.of_nat (length l) -> 0 <= so < sectors_per_cluster p ->
  ~ in_table p (cluster_sec p (cluster_of l k) + so) ->
  grows p size c0 g l (put_sector (cluster_sec p (cluster_of l k) + so) bo bytes g) [].
Proof.
  intros [Hch H2] Hk Hso Hnt.
  assert (forall c, is_cluster p c -> entry p
    (put_sector (cluster_sec p (cluster_of l k) + so) bo bytes g) c = entry p g c) as Hent.
  { intros c Hc. apply entry_ext; [|done]. intros x Hx. unfold put_sector.
    rewrite decide_False; [done|]. by intros ->. }
  split; rewrite ?app_nil_r.
  - split; [|done]. eapply chain_frame; [|done]. intros d Hd. unfold tval. rewrite Hent; [done|].
    apply chain_clusters in Hch. rewrite Forall_forall in Hch. by apply Hch.
  - by intros d ?%elem_of_nil.
  - auto.
  - intros x Hx Ht Hd. unfold put_sector. rewrite decide_False; [done|]. apply Hd; [|done].
    by apply cluster_of_elem.
Qed.

Lemma chain_snoc p g g' c0 l c c' :
  chain p g c0 l -> last l = Some c -> c' ∉ l -> is_cluster p c' ->
  FAT_TV_LAST c' = false -> FAT_TV_BAD c' = false -> FAT_TV_FREE c' = false ->
  tval p g' c = c' -> FAT_TV_LAST (tval p g' c') = true ->
  (forall d, d ∈ l -> d <> c -> tval p g' d = tval p g d) ->
  chain p g' c0 (l ++ [c']).
Proof.
  intros Hch. induction Hch as [c1 Hi HL|c1 l Hi HL HB HF Hch IH]; intros Hlast Hn Hc' H1 H2 H3 Hl1 Hl2 Hd.
  - injection Hlast as ->. cbn. apply chain_next; rewrite ?Hl1; try done. by apply chain_last.
  - destruct (chain_head _ _ _ _ Hch) as [l' El].
    assert (last l = Some c) as Hlast' by (by rewrite El in *).
    assert (c1 <> c) as Hne.
    { intros ->. assert (NoDup (c :: l)) as [Hnd _]%NoDup_cons
        by (eapply chain_NoDup, chain_next; done).
      apply Hnd. by apply last_Some_elem_of in Hlast'. }
    assert (tval p g' c1 = tval p g c1) as Ht by (apply Hd; [left|done]).
    cbn. apply chain_next; rewrite ?Ht; try done. apply IH; try done.
    + intros ?. apply Hn. by right.
    + intros d Hin ?. apply Hd; [by right|done].
Qed.

Lemma grows_link p size c0 g l c c' :
  vol_geom p size -> file_chain p g c0 l -> last l = Some c ->
  (forall x, 0 <= x < size -> length (g x) = 512%nat) ->
  is_cluster p c' -> 2 <= c' -> tval p g c' = 0 ->
  grows p size c0 g l (link_entries p true c c' g) [c'].
Proof.
  intros Hgeo [Hch H2] Hlast Hlen Hc' H2c' Hfree.
  assert (c ∈ l) as Hcl by (by apply last_Some_elem_of).
  pose proof (chain_clusters _ _ _ _ Hch) as HF. rewrite Forall_forall in HF.
  assert (forall d, is_cluster p d -> length (g (entry_sec p d)) = 512%nat) as Hlen'.
  { intros d Hd. apply Hlen. by apply (geom_cap _ _ Hgeo), entry_in_table. }
  pose proof (geom_spf _ _ Hgeo) as Hspf.
  assert (c' < 0x0FFFFFF7) as Hbig by (unfold is_cluster, n_entries in Hc'; lia).
  assert (c' ∉ l) as Hnl by (intros Hin; by eapply chain_used in Hin; [|done]).
  assert (forall x, tval p (link_entries p true c c' g) x =
    if decide (x = c') then 0x0FFFFFFF else if decide (x = c) then c' else tval p g x) as Ht.
  { intros x. unfold link_entries. rewrite tval_set; [|rewrite length_set_entry; by apply Hlen'|lia].
    destruct (decide (x = c')); [done|]. rewrite tval_set; [done|by apply Hlen', HF|lia]. }
  split.
  - split; [|apply Forall_app; split; [done|by apply Forall_singleton]].
    eapply chain_snoc; try done; unfold FAT_TV_LAST, FAT_TV_BAD, FAT_TV_FREE; try lia.
    + rewrite Ht, decide_False, decide_True; [done..|]. by intros ->.
    + by rewrite Ht, decide_True.
    + intros d Hd Hne. rewrite Ht, !decide_False; [done..|]. by intros ->.
  - intros d ->%list_elem_of_singleton. split; [lia|done].
  - intros x Hx Hn. rewrite elem_of_app, list_elem_of_singleton in Hn. unfold link_entries.
    rewrite entry_set; [|rewrite length_set_entry; by apply Hlen'|lia].
    rewrite decide_False by tauto. rewrite entry_set; [|by apply Hlen', HF|lia].
    rewrite decide_False; [done|]. intros ->. tauto.
  - intros x Hx Hnt _. unfold link_entries. rewrite !set_entry_outside; auto.
Qed.

Section Write.
Context `{BlockDevSpec} {E : FatEnv} {CM : CharModel}.

Lemma slice_bytes buf off n : Forall is_byte buf -> Forall is_byte (slice buf off n).
Proof. intros. unfold slice. by apply Forall_take, Forall_drop. Qed.
Lemma blit_bytes n off bytes buf : byte_array n buf -> Forall is_byte bytes ->
  0 <= off -> off + Z.of_nat (length bytes) <= Z.of_nat n -> byte_array n (blit off bytes buf).
Proof.
  intros [Hl Hb] Hy H0' H1'. split; [by rewrite length_blit by lia|]. unfold blit.
  apply Forall_app; split; [by apply Forall_take|]. apply Forall_app; split; [done|by apply Forall_drop].
Qed.

Lemma wp_write_piece s (g : Z -> list Z) a bo n bw buf odd Q :
  vol_ok s -> (forall x, 0 <= x < cap s -> blk s x = g x) -> 0 <= a < cap s ->
  0 <= bo -> 0 < n -> bo + n <= 512 -> 0 <= bw -> bw + n <= Z.of_nat (length buf) ->
  Forall is_byte buf -> length odd = 512%nat ->
  (forall s' odd', disk_step s 0 (put_sector a bo (slice buf bw n) g) s' -> length odd' = 512%nat ->
     Q (true, odd') s') ->
  wp (write_piece a bo n bw buf odd) s Q.
Proof.
  intros Hv Hg Ha Hbo Hn Hle Hbw Hlen Hby Hodd HQ. unfold write_piece. wstep. wstep.
  rewrite (geom_bps _ _ (proj2 Hv)). pose proof (blk_bytes s a (proj1 Hv) Ha) as Hba.
  assert (length (slice buf bw n) = Z.to_nat n) as Hls by (apply length_slice; lia).
  destruct (Z.ltb_spec n 512) as [Hlt|Hge].
  - wstep. apply wp_fat_read; [apply Hv|done|done|]. intros s1 Hs1.
    cbn [fst snd negb Z.eqb FAT_SUCCESS].
    wstep. apply wp_copy_from; [lia..|].
    wstep. apply wp_copy_to; [lia|destruct Hba as [-> _]; lia|].
    assert (byte_array 512 (blit bo (slice buf bw n) (blk s a))) as Hb2
      by (apply blit_bytes; [done|by apply slice_bytes|lia|lia]).
    wstep. apply wp_fat_write; [apply Hs1|by rewrite (step_cap _ _ _ _ Hs1)|done|].
    intros s2 Hs2. wstep. cbn [Z.eqb FAT_SUCCESS]. apply HQ; [|apply Hb2].
    eapply disk_step_ext; [by eapply disk_step_trans|]. intros x Hx. cbn. unfold put_sector.
    destruct (decide (x = a)) as [->|]; [by rewrite Hg|]. rewrite (step_blk _ _ _ _ Hs1) by done. by apply Hg.
  - assert (bo = 0 /\ n = 512) as [-> ->] by lia.
    assert (slice (drop (Z.to_nat bw) buf) 0 512 = slice buf bw 512) as Hsl
      by (unfold slice; change (Z.to_nat 0) with 0%nat; by rewrite drop_0).
    wstep. apply wp_fat_write_from; [apply Hv|done|rewrite length_drop; lia| |].
    { rewrite Hsl. split; [by rewrite Hls|by apply slice_bytes]. }
    intros s1 Hs1. wstep. cbn [Z.eqb FAT_SUCCESS]. apply HQ; [|done].
    eapply disk_step_ext; [done|]. intros x Hx. cbn. rewrite Hsl. unfold put_sector.
    destruct (decide (x = a)) as [->|]; [|by apply Hg].
    rewrite blit_all; [done|]. rewrite Hls, <- Hg by done. destruct Hba as [-> _]. done.
Qed.

(** The bytes of a file do not change when a cluster is linked to its chain. *)
Lemma link_old_bytes s (g : Z -> list Z) c0 l l2 c c' o :
  let p := fat_pinfo s in
  vol_ok s -> file_chain p g c0 l -> is_cluster p c -> is_cluster p c' ->
  0 <= o < Z.of_nat (length l) * cluster_bytes p ->
  file_byte p (link_entries p true c c' g) (l ++ l2) o = file_byte p g l o.
Proof.
  intros p Hv Hfc Hc Hc' Ho. unfold file_byte, sector_of. pose proof (geom_spc _ _ (proj2 Hv)) as Hspc. fold p in Hspc.
  assert (0 <= o / cluster_bytes p < Z.of_nat (length l)) as Hko.
  { assert (0 < cluster_bytes p) by (unfold cluster_bytes; lia).
    split; [apply Z.div_pos; lia|apply Z.div_lt_upper_bound; lia]. }
  rewrite cluster_of_app by done. destruct (file_chain_at _ _ _ _ _ Hfc Hko) as (_ & Hcko & H2ko).
  destruct (offset_split (sectors_per_cluster p) o ltac:(lia) ltac:(lia)) as (_ & Hso & _).
  destruct (data_sector s _ _ Hv Hcko H2ko Hso) as [_ Hnt]. fold p in Hnt.
  unfold link_entries. by rewrite !set_entry_outside.
Qed.

(** fat_acquire_next_cluster at cluster [k] of a file. *)
Lemma wp_acquire_in_chain s (g : Z -> list Z) c0 l k Q :
  let p := fat_pinfo s in
  let c := cluster_of l k in
  vol_ok s -> (forall x, 0 <= x < cap s -> blk s x = g x) -> file_chain p g c0 l -> tval p g 1 <> 0 ->
  0 <= k < Z.of_nat (length l) ->
  (k + 1 < Z.of_nat (length l) -> forall s', disk_step s 0 g s' -> Q (FAT_SUCCESS, cluster_of l (k + 1)) s') ->
  (k + 1 = Z.of_nat (length l) -> forall c' s', is_cluster p c' -> 2 <= c' ->
     grows p (cap s) c0 g l (link_entries p true c c' g) [c'] ->
     disk_step s 0 (link_entries p true c c' g) s' -> Q (FAT_SUCCESS, c') s') ->
  (k + 1 = Z.of_nat (length l) -> (forall d, is_cluster p d -> not_free p g d) ->
     forall s', disk_step s ENOSPC g s' -> Q (FAT_FAIL, c) s') ->
  wp (fat_acquire_next_cluster c true) s Q.
Proof.
  intros p c Hv Hg Hfc Hone Hk Hnext Hnew Hfull. destruct (file_chain_at _ _ _ _ _ Hfc Hk) as (_ & Hck & _).
  destruct (chain_pos p g c0 l k Hfc Hk) as [Hbf Hpos]. cbn zeta in Hbf, Hpos. fold c in Hck, Hbf, Hpos.
  apply wp_fat_acquire_next_cluster; fold p; rewrite ?(tval_agree s g) by done; fold p; try done.
  - by rewrite Hbf.
  - rewrite Hbf. intros HL s1 Hs1. destruct Hpos as [(Hlt & _ & ->)|(_ & HL' & _)]; [|cbn in HL; congruence].
    apply Hnext; [done|]. by eapply disk_step_ext.
  - intros HL c' s1 (Hc' & Hz & Hfree & Hs1). destruct Hpos as [(_ & HL' & _)|(Hend & _ & Hlast)]; [congruence|].
    fold p in Hc', Hfree, Hs1. rewrite (tval_agree s g) in Hfree by done. fold p in Hfree.
    assert (2 <= c') as H2c' by (unfold is_cluster in Hc'; destruct (decide (c' = 1)) as [->|]; [done|lia]).
    apply Hnew; try done.
    + apply grows_link; try done; [apply Hv|]. intros x Hx. rewrite <- Hg by done. by apply (blk_bytes s x (proj1 Hv)).
    + eapply disk_step_ext; [done|]. intros x Hx. unfold link_entries, set_entry. by rewrite !Hg.
  - intros HL Hall s1 Hs1. destruct Hpos as [(_ & HL' & _)|(Hend & _ & _)]; [congruence|].
    apply Hfull; [done| |by eapply disk_step_ext]. intros d Hd. specialize (Hall d Hd). revert Hall. unfold not_free.
    by rewrite (tval_agree s g).
Qed.

(** Storing the current cluster after a change of the disk. *)
Lemma wp_put_current s s1 e (g1 : Z -> list Z) i f c1 Q :
  disk_step s e g1 s1 ->
  (forall s2, fs_step s e g1 (<[Z.to_nat i := set_current c1 f]> (fat_open_files s)) s2 -> Q tt s2) ->
  wp (put_file i (set_current c1 f)) s1 Q.
Proof.
  intros Hs1 HQ. pose proof (fs_of_disk _ _ _ _ Hs1) as Hs1'. unfold put_file. wstep. wstep. wstep. apply HQ.
  rewrite (fs_files _ _ _ _ _ Hs1'). by apply (fs_set_files _ _ _ (fat_open_files s)).
Qed.

(** The chain after the counter update of fat_write. *)
Lemma wp_write_next s (g : Z -> list Z) c0 l i k so bo n f Q :
  let p := fat_pinfo s in
  let o := k * cluster_bytes p + so * 512 + bo in
  vol_ok s -> s_errno s = 0 -> (forall x, 0 <= x < cap s -> blk s x = g x) ->
  fat_open_files s !! Z.to_nat i = Some f ->
  file_chain p g c0 l -> tval p g 1 <> 0 ->
  0 <= k < Z.of_nat (length l) -> f_current_cluster f = cluster_of l k ->
  0 <= so < sectors_per_cluster p -> 0 <= bo -> 0 < n -> bo + n <= 512 ->
  (forall s' l2 g' k' so' bo', fs_step s 0 g' (<[Z.to_nat i :=
        set_current (cluster_of (l ++ l2) k') f]> (fat_open_files s)) s' ->
     grows p (cap s) c0 g l g' l2 ->
     (forall o', 0 <= o' < Z.of_nat (length l) * cluster_bytes p ->
        file_byte p g' (l ++ l2) o' = file_byte p g l o') ->
     0 <= k' < Z.of_nat (length (l ++ l2)) -> 0 <= so' < sectors_per_cluster p ->
     0 <= bo' < 512 -> (bo + n = 512 -> bo' = 0) ->
     k' * cluster_bytes p + so' * 512 + bo' = o + n ->
     Q (Some (so', cluster_sec p (cluster_of (l ++ l2) k'))) s') ->
  (forall s', fs_step s ENOSPC g (fat_open_files s) s' ->
     (forall d, is_cluster p d -> not_free p g d) ->
     o + n = Z.of_nat (length l) * cluster_bytes p -> Q None s') ->
  wp (write_next i bo n so (cluster_sec p (cluster_of l k))) s Q.
Proof.
  intros p o Hv He Hg Hf Hfc Hone Hk Hcur Hso Hbo Hn Hle HQ HQfull.
  pose proof (geom_spc _ _ (proj2 Hv)) as Hspc. fold p in Hspc.
  unfold write_next. wstep. wstep. fold p. rewrite (geom_bps p _ (proj2 Hv)).
  rewrite (u32_small (bo + n)) by lia.
  assert (grows p (cap s) c0 g l g []) as Hsame by (apply grows_refl; [done|done|apply (geom_cap _ _ (proj2 Hv))]).
  assert (forall so' bo', 0 <= so' < sectors_per_cluster p -> 0 <= bo' < 512 ->
     (bo + n = 512 -> bo' = 0) -> so' * 512 + bo' = so * 512 + bo + n ->
     Q (Some (so', cluster_sec p (cluster_of l k))) s) as Hstay.
  { intros so' bo' Hso' Hbo' Hz Hpos. specialize (HQ s [] g k so' bo'). rewrite !app_nil_r in HQ.
    apply HQ; try done; [|unfold o; lia].
    rewrite <- Hcur, set_current_id, list_insert_id by done. rewrite <- He. eapply fs_ext; [apply fs_refl, Hv|done]. }
  destruct (Z.leb_spec 512 (bo + n)) as [Hfull|Hpart].
  2: { wstep. apply (Hstay so (bo + n)); lia. }
  rewrite (u32_small (so + 1)) by lia.
  destruct (Z.leb_spec (sectors_per_cluster p) (so + 1)) as [Hend|Hin].
  2: { wstep. apply (Hstay (so + 1) 0); lia. }
  clear Hstay. assert (o + n = (k + 1) * cluster_bytes p) as Hon by (unfold o, cluster_bytes; nia).
  wstep. apply wp_get_file with f; [done|]. rewrite Hcur. wstep.
  apply (wp_acquire_in_chain s g c0); try done; fold p; cbn [fst snd].
  - (* the next cluster of the chain *)
    intros Hk1 s1 Hs1. wstep. apply (wp_put_current s _ 0 g); [done|]. intros s2 Hs2. cbn [negb Z.eqb FAT_SUCCESS].
    destruct (file_chain_at p g c0 l (k + 1) Hfc ltac:(lia)) as (_ & Hck1 & H2k1).
    pose proof (fs_pinfo _ _ _ _ _ Hs2) as Hp2. fold p in Hp2.
    wstep. apply wp_first_sector; rewrite ?Hp2; [by eapply fs_vol|done|done|]. wstep.
    specialize (HQ s2 [] g (k + 1) 0 0). rewrite !app_nil_r in HQ. apply HQ; try done; lia.
  - (* a new cluster *)
    intros Hk1 c' s1 Hc' H2c' Hgr Hs1. wstep. apply (wp_put_current s _ _ _ _ _ _ _ Hs1). intros s2 Hs2.
    cbn [negb Z.eqb FAT_SUCCESS]. pose proof (fs_pinfo _ _ _ _ _ Hs2) as Hp2. fold p in Hp2.
    wstep. apply wp_first_sector; rewrite ?Hp2; [by eapply fs_vol|done|done|]. wstep.
    assert (cluster_of (l ++ [c']) (k + 1) = c') as Hcc.
    { unfold cluster_of. rewrite nth_lookup, lookup_app_r by lia.
      by replace (Z.to_nat (k + 1) - length l)%nat with 0%nat by lia. }
    specialize (HQ s2 [c'] (link_entries p true (cluster_of l k) c' g) (k + 1) 0 0).
    rewrite Hcc in HQ. apply HQ; try done; try lia; [|rewrite length_app; cbn; lia].
    intros o' Ho'. apply (link_old_bytes s g c0 l [c'] _ c' o'); try done. by apply (file_chain_at p g c0 l k).
  - (* the disk is full *)
    intros Hk1 Hall s1 Hs1. wstep. apply (wp_put_current s _ _ _ _ _ _ _ Hs1). intros s2 Hs2.
    cbn [negb Z.eqb FAT_SUCCESS FAT_FAIL]. rewrite <- Hcur, set_current_id, (list_insert_id (fat_open_files s)) in Hs2 by done.
    wstep. wstep. wstep. apply HQfull; [exact (fs_set_errno _ _ _ _ _ ENOSPC Hs2)|done|lia].
Qed.

(** What the transfer loop of fat_write has done after [n] of [sz] bytes from
    [buf + bw] at offset [o] of the file: the disk [g'], the clusters [l2]
    appended to the chain [l], the number [k'] of the current cluster and
    errno. *)
Record wrote (p : FatPartitionInfo) (size c0 : Z) (g : Z -> list Z) (l buf : list Z)
    (bw o sz : Z) (g' : Z -> list Z) (l2 : list Z) (n k' e : Z) : Prop := mk_wrote {
  wrote_grows : grows p size c0 g l g' l2;
  wrote_n : 0 <= n <= sz;
  wrote_fits : o + n <= Z.of_nat (length (l ++ l2)) * cluster_bytes p;
  wrote_new : forall j, 0 <= j < n -> file_byte p g' (l ++ l2) (o + j) = at_ buf (bw + j);
  wrote_old : forall o', 0 <= o' < Z.of_nat (length l) * cluster_bytes p ->
    ~ (o <= o' < o + n) -> file_byte p g' (l ++ l2) o' = file_byte p g l o';
  wrote_current : 0 <= k' < Z.of_nat (length (l ++ l2));
  wrote_end : (e = 0 /\ n = sz /\ k' = (o + n) / cluster_bytes p) \/
    (e = ENOSPC /\ (forall d, is_cluster p d -> not_free p g' d) /\
     o + n = Z.of_nat (length (l ++ l2)) * cluster_bytes p);
}.

Lemma tval_one p size c0 g l g' l2 :
  vol_geom p size -> grows p size c0 g l g' l2 -> tval p g 1 <> 0 -> tval p g' 1 <> 0.
Proof.
  intros Hgeo Hgr Hone. unfold tval. rewrite (grows_table _ _ _ _ _ _ _ Hgr); [done| |].
  - pose proof (geom_spf _ _ Hgeo). unfold is_cluster, n_entries. lia.
  - intros Hin. destruct (grows_chain _ _ _ _ _ _ _ Hgr) as [_ H2]. rewrite Forall_forall in H2.
    apply H2 in Hin. lia.
Qed.

(** Nothing left to write. *)
Lemma wrote_nothing p size c0 g l buf bw o k : grows p size c0 g l g [] -> 0 <= k < Z.of_nat (length l) ->
  o / cluster_bytes p = k -> o <= Z.of_nat (length l) * cluster_bytes p ->
  wrote p size c0 g l buf bw o 0 g [] 0 k 0.
Proof. intros Hgr Hk Ho Hle. split; rewrite ?app_nil_r, ?Z.add_0_r; try done; lia. Qed.

(** [n] bytes at [o] of the chain [l] were replaced by those at [buf + bw]. *)
Definition replaced (p : FatPartitionInfo) (g : Z -> list Z) (l buf : list Z) (bw o n : Z) (g1 : Z -> list Z) : Prop :=
  forall o', 0 <= o' < Z.of_nat (length l) * cluster_bytes p ->
    file_byte p g1 l o' = if (o <=? o') && (o' <? o + n) then at_ buf (bw + (o' - o)) else file_byte p g l o'.

Lemma replaced_new p g l buf bw o n g1 j : replaced p g l buf bw o n g1 -> 0 <= o ->
  o + n <= Z.of_nat (length l) * cluster_bytes p -> 0 <= j < n -> file_byte p g1 l (o + j) = at_ buf (bw + j).
Proof.
  intros Hr Ho Hn Hj. rewrite Hr by lia. replace ((o <=? o + j) && (o + j <? o + n)) with true by lia. f_equal. lia.
Qed.
Lemma replaced_old p g l buf bw o n g1 o' : replaced p g l buf bw o n g1 ->
  0 <= o' < Z.of_nat (length l) * cluster_bytes p -> ~ (o <= o' < o + n) -> file_byte p g1 l o' = file_byte p g l o'.
Proof. intros Hr Ho Hn. rewrite Hr by done. by replace ((o <=? o') && (o' <? o + n)) with false by lia. Qed.

(** One piece, a step along the chain, and the rest. *)
Lemma wrote_more p size c0 g l buf bw o sz n g1 g2 l2 g3 l3 n3 k3 e3 :
  grows p size c0 g l g2 l2 -> replaced p g l buf bw o n g1 -> 0 < cluster_bytes p ->
  (forall o', 0 <= o' < Z.of_nat (length l) * cluster_bytes p -> file_byte p g2 (l ++ l2) o' = file_byte p g1 l o') ->
  0 <= o -> 0 <= n <= sz -> o + n <= Z.of_nat (length l) * cluster_bytes p ->
  wrote p size c0 g2 (l ++ l2) buf (bw + n) (o + n) (sz - n) g3 l3 n3 k3 e3 ->
  wrote p size c0 g l buf bw o sz g3 (l2 ++ l3) (n + n3) k3 e3.
Proof.
  intros Hgr Hr Hcb Hb2 Ho Hn Hon [W1 W2 W3 W4 W5 W6 W7]. rewrite <- !app_assoc in *.
  assert (Z.of_nat (length l) * cluster_bytes p <= Z.of_nat (length (l ++ l2)) * cluster_bytes p)
    by (apply Z.mul_le_mono_nonneg_r; rewrite ?length_app; lia).
  split; rewrite <- ?app_assoc; [by eapply grows_trans|lia|lia| | |done|].
  - intros j Hj. destruct (decide (j < n)) as [Hjn|Hjn].
    + rewrite W5, Hb2 by lia. by apply (replaced_new p g l buf bw o n g1); [done|lia..].
    + replace (o + j) with (o + n + (j - n)) by lia. rewrite W4 by lia. f_equal. lia.
  - intros o' Ho' Hnot. rewrite W5, Hb2 by lia. apply (replaced_old p g l buf bw o n g1); [done|lia..].
  - destruct W7 as [(-> & -> & ->)|(-> & W7 & W8)]; [left|right].
    + split_and!; [done|lia|]. f_equal. lia.
    + split_and!; [done|done|lia].
Qed.

(** One piece, and no room behind it. *)
Lemma wrote_full p size c0 g l buf bw o sz n g1 k :
  grows p size c0 g l g1 [] -> replaced p g l buf bw o n g1 -> 0 <= o -> 0 <= n <= sz -> 0 <= k < Z.of_nat (length l) ->
  (forall d, is_cluster p d -> not_free p g1 d) -> o + n = Z.of_nat (length l) * cluster_bytes p ->
  wrote p size c0 g l buf bw o sz g1 [] n k ENOSPC.
Proof.
  intros Hgr Hr Ho Hn Hk Hall Hon. split; rewrite ?app_nil_r; try done; try lia.
  - intros j Hj. by apply (replaced_new p g l buf bw o n g1); [done|lia..].
  - intros o' Ho' Hnot. by apply (replaced_old p g l buf bw o n g1).
  - right. done.
Qed.

(** Writing into a sector of the file replaces bytes of the file. *)
Lemma put_replaced s (g : Z -> list Z) c0 l k so bo n buf bw :
  let p := fat_pinfo s in
  vol_ok s -> (forall x, 0 <= x < cap s -> blk s x = g x) -> file_chain p g c0 l ->
  0 <= k < Z.of_nat (length l) -> 0 <= so < sectors_per_cluster p -> 0 <= bo < 512 -> 0 <= n -> bo + n <= 512 ->
  0 <= bw -> bw + n <= Z.of_nat (length buf) ->
  replaced p g l buf bw (k * cluster_bytes p + so * 512 + bo) n
    (put_sector (cluster_sec p (cluster_of l k) + so) bo (slice buf bw n) g).
Proof.
  intros p Hv Hg Hfc Hk Hso Hbo Hn Hle Hbw Hlen o' Ho'. destruct (file_chain_at _ _ _ _ _ Hfc Hk) as (_ & Hck & H2k).
  destruct (data_sector s (cluster_of l k) so Hv Hck H2k Hso) as [Hr _]. fold p in Hr.
  assert (length (slice buf bw n) = Z.to_nat n) as Hls by (apply length_slice; lia).
  rewrite (file_byte_put p g c0 l k so bo); try done; try lia.
  - rewrite Hls, Z2Nat.id by lia. destruct (_ && _) eqn:Ein; [|done].
    rewrite andb_true_iff in Ein. unfold at_, slice. rewrite !nth_lookup, lookup_take_lt, lookup_drop by lia.
    do 2 f_equal. lia.
  - rewrite <- Hg by done. apply (blk_bytes s); [apply Hv|done].
Qed.

Lemma wp_write_loop c0 i buf fuel : forall s (g : Z -> list Z) l odd sz bw k so bo f Q,
  let p := fat_pinfo s in
  let o := k * cluster_bytes p + so * 512 + bo in
  vol_ok s -> s_errno s = 0 -> (forall x, 0 <= x < cap s -> blk s x = g x) ->
  fat_open_files s !! Z.to_nat i = Some f ->
  file_chain p g c0 l -> tval p g 1 <> 0 ->
  0 <= k < Z.of_nat (length l) -> f_current_cluster f = cluster_of l k ->
  0 <= so < sectors_per_cluster p -> 0 <= bo < 512 ->
  0 <= sz -> 0 <= bw -> bw + sz < 2 ^ 32 -> bw + sz <= Z.of_nat (length buf) ->
  Forall is_byte buf -> length odd = 512%nat -> sz < Z.of_nat fuel ->
  (forall s' odd' g' l2 n k' e, 
     fs_step s e g' (<[Z.to_nat i := set_current (cluster_of (l ++ l2) k') f]> (fat_open_files s)) s' ->
     wrote p (cap s) c0 g l buf bw o sz g' l2 n k' e -> length odd' = 512%nat ->
     Q (bw + n, odd') s') ->
  wp (write_loop fuel i buf odd sz bw bo so (cluster_sec p (cluster_of l k))) s Q.
Proof.
  induction fuel as [|fuel IH]; intros s g l odd sz bw k so bo f Q p o
    Hv He Hg Hf Hfc Hone Hk Hcur Hso Hbo Hsz Hbw Hov Hlen Hby Hodd Hfuel HQ; [lia|].
  cbn [write_loop]. pose proof (geom_spc _ _ (proj2 Hv)) as Hspc. fold p in Hspc.
  destruct (offset_parts (sectors_per_cluster p) k so bo) as (Hok & _); [lia..|].
  fold (cluster_bytes p) in Hok. fold o in Hok.
  assert (o < Z.of_nat (length l) * cluster_bytes p /\ 0 <= o /\ 0 < cluster_bytes p) as (Hol & Ho0 & Hcb)
    by (unfold o, cluster_bytes; nia).
  assert (forall e g' s', fs_step s e g' (fat_open_files s) s' ->
    fs_step s e g' (<[Z.to_nat i := set_current (cluster_of l k) f]> (fat_open_files s)) s') as Hsame
    by (intros; by rewrite <- Hcur, set_current_id, list_insert_id).
  destruct (Z.ltb_spec 0 sz) as [Hpos|Hz]; cbn [negb].
  2: { assert (sz = 0) as -> by lia. wstep.
    specialize (HQ s odd g [] 0 k 0). rewrite !app_nil_r, !Z.add_0_r in HQ. apply HQ; [| |done].
    - apply Hsame. rewrite <- He. eapply fs_ext; [apply fs_refl, Hv|done].
    - apply wrote_nothing; [|done|done|lia]. apply grows_refl; [done|done|apply (geom_cap _ _ (proj2 Hv))]. }
  wstep. wstep. fold p. rewrite (geom_bps p _ (proj2 Hv)).
  rewrite (u32_small (512 - bo)), umin_min by lia. set (n := Z.min (512 - bo) sz).
  destruct (file_chain_at _ _ _ _ _ Hfc Hk) as (_ & Hck & H2k).
  destruct (data_sector s (cluster_of l k) so Hv Hck H2k Hso) as [Hr Hnt]. fold p in Hr, Hnt.
  rewrite (u32_addr s) by done. wstep. apply (wp_write_piece s g); try done; try lia. intros s1 odd1 Hs1 Hodd1.
  cbn [negb]. rewrite !u32_small by lia.
  pose proof (grows_put p (cap s) c0 g l k so bo (slice buf bw n) Hfc Hk Hso Hnt) as Hgr1.
  assert (replaced p g l buf bw o n (put_sector (cluster_sec p (cluster_of l k) + so) bo (slice buf bw n) g)) as Hb1
    by (by apply (put_replaced s g c0 l k so bo n); try lia).
  set (g1 := put_sector _ _ _ _) in *. pose proof (fs_of_disk _ _ _ _ Hs1) as Hfs1.
  pose proof (disk_step_pinfo _ _ _ _ Hs1) as Hp1. fold p in Hp1. pose proof (fs_files _ _ _ _ _ Hfs1) as Hfl1.
  pose proof (grows_chain _ _ _ _ _ _ _ Hgr1) as Hfc1. rewrite app_nil_r in Hfc1.
  assert (Hon : o + n <= Z.of_nat (length l) * cluster_bytes p) by (unfold o, cluster_bytes; nia).
  wstep. rewrite <- Hp1.
  apply (wp_write_next s1 g1 c0 l i k so bo n f); rewrite ?Hp1, ?Hfl1, ?(step_cap _ _ _ _ Hs1); try done; try lia.
  - by eapply vol_ok_step.
  - apply Hs1.
  - apply Hs1.
  - eapply tval_one; [apply Hv|done|done].
  - intros s2 l2 g2 k2 so2 bo2 Hs2 Hgr2 Hb2 Hk2 Hso2 Hbo2 Hbz Hpos2. fold o in Hpos2.
    pose proof (fs_trans _ _ _ _ _ _ _ _ _ Hfs1 Hs2) as Hs02.
    pose proof (fs_pinfo _ _ _ _ _ Hs02) as Hp2. fold p in Hp2. pose proof (fs_files _ _ _ _ _ Hs02) as Hfl2.
    pose proof (grows_trans _ _ _ _ _ _ [] _ l2 Hgr1 ltac:(by rewrite app_nil_r)) as Hgr02. cbn in Hgr02.
    rewrite <- Hp2.
    assert (Hrest : wp (write_loop fuel i buf odd1 (sz - n) (bw + n) bo2 so2
      (cluster_sec (fat_pinfo s2) (cluster_of (l ++ l2) k2))) s2 Q).
    { apply (IH s2 g2 (l ++ l2) odd1 (sz - n) (bw + n) k2 so2 bo2 (set_current (cluster_of (l ++ l2) k2) f));
        rewrite ?Hp2, ?Hfl2, ?(fs_cap _ _ _ _ _ Hs02); try done; try lia.
      - by eapply fs_vol.
      - apply Hs02.
      - apply Hs02.
      - rewrite list_lookup_insert_eq; [done|]. by apply lookup_lt_Some in Hf.
      - apply Hgr2.
      - eapply tval_one; [apply Hv|apply Hgr02|done].
      - intros s3 odd3 g3 l3 n3 k3 e3 Hs3 HW Hodd3. rewrite list_insert_insert_eq, set_current_twice, <- app_assoc in Hs3.
        rewrite Hpos2 in HW. replace (bw + n + n3) with (bw + (n + n3)) by lia.
        apply (HQ s3 odd3 g3 (l2 ++ l3) (n + n3) k3 e3); [by eapply fs_trans| |done].
        apply (wrote_more p (cap s) c0 g l buf bw o sz n g1 g2); (done || lia). }
    assert (bo2 = 0 \/ sz - n = 0) as [->|Hdone] by lia; [exact Hrest|].
    destruct fuel as [|fuel']; [lia|]. revert Hrest. cbn [write_loop]. rewrite Hdone. done.
  - intros s2 Hs2 Hall Hfullo. fold o in Hfullo. wstep.
    specialize (HQ s2 odd1 g1 [] n k ENOSPC). rewrite app_nil_r in HQ. apply HQ; [| |done].
    + apply Hsame. by eapply fs_trans.
    + apply wrote_full; (done || lia).
Qed.

(** ** fat_write *)

(** The open file [f] with the chain [l] is in order: its position is inside
    the file and in the chain, and its current cluster is the one of its
    position. *)
Record file_inv (s : sys) (fd : Z) (f : FatFile) (l : list Z) : Prop := mk_file_inv {
  fi_open : open_file s fd f;
  fi_chain : file_chain (fat_pinfo s) (blk s) (f_start_cluster f) l;
  fi_pos : 0 <= f_pos f <= f_size f;
  fi_size : f_size f <= Z.of_nat (length l) * cluster_bytes (fat_pinfo s);
  fi_size32 : f_size f < 2 ^ 32;
  fi_room : f_pos f < Z.of_nat (length l) * cluster_bytes (fat_pinfo s);
  fi_current : f_current_cluster f = cluster_of l (f_pos f / cluster_bytes (fat_pinfo s));
}.

(** Its directory entry is in a data cluster in use that is not the file's. *)
Record dir_inv (s : sys) (f : FatFile) (l : list Z) : Prop := mk_dir_inv {
  di_cluster : is_cluster (fat_pinfo s) (d_cluster (f_dir_idx f)) /\ 2 <= d_cluster (f_dir_idx f);
  di_used : tval (fat_pinfo s) (blk s) (d_cluster (f_dir_idx f)) <> 0;
  di_other : d_cluster (f_dir_idx f) ∉ l;
  di_sector : 0 <= d_sector (f_dir_idx f) < sectors_per_cluster (fat_pinfo s);
  di_index : 0 <= d_index (f_dir_idx f) < 16;
}.
Definition dir_sector (p : FatPartitionInfo) (f : FatFile) : Z :=
  cluster_sec p (d_cluster (f_dir_idx f)) + d_sector (f_dir_idx f).
Definition size_off (f : FatFile) : Z := d_index (f_dir_idx f) * 32 + 0x1C.

(** The disk with a new size in the directory entry. *)
Definition put_size (p : FatPartitionInfo) (f : FatFile) (v : Z) (g : Z -> list Z) (x : Z) : list Z :=
  if decide (x = dir_sector p f) then put32 v (g x) (size_off f) else g x.

Lemma wp_write_new_size s (g : Z -> list Z) i f v odd e Q :
  let p := fat_pinfo s in
  vol_ok s -> (forall x, 0 <= x < cap s -> blk s x = g x) ->
  fat_open_files s !! Z.to_nat i = Some f -> s_errno s = e ->
  is_cluster p (d_cluster (f_dir_idx f)) -> 2 <= d_cluster (f_dir_idx f) ->
  0 <= d_sector (f_dir_idx f) < sectors_per_cluster p -> 0 <= d_index (f_dir_idx f) < 16 ->
  length odd = 512%nat ->
  (forall s', f_size f < v -> fs_step s 0 (put_size p f v g)
     (<[Z.to_nat i := set_size v f]> (fat_open_files s)) s' -> Q tt s') ->
  (v <= f_size f -> Q tt s) ->
  wp (write_new_size i v odd) s Q.
Proof.
  intros p Hv Hg Hf He Hc H2 Hse Hix Hodd HQ HQ0. unfold write_new_size.
  wstep. apply wp_get_file with f; [done|].
  destruct (Z.ltb_spec (f_size f) v) as [Hlt|Hge]; [|wstep; by apply HQ0].
  destruct (data_sector s _ _ Hv Hc H2 Hse) as [Hr Hnt].
  wstep. apply wp_first_sector; [done..|]. fold p. rewrite Z.add_comm.
  fold (dir_sector p f) in *. rewrite (u32_addr s) by done.
  pose proof (blk_bytes s _ (proj1 Hv) Hr) as Hb. fold p in Hb. fold (dir_sector p f) in Hb.
  wstep. apply wp_fat_read; [apply Hv|done|done|]. intros s1 Hs1. cbn [fst snd].
  wstep. wstep. rewrite (step_errno _ _ _ _ Hs1). cbn [negb Z.eqb EIO].
  unfold FAT_DIR_ENTRY_WIDTH. rewrite (u32_small (d_index _ * 32)) by lia.
  fold (size_off f). wstep. apply wp_fat_set_uint32; [unfold size_off; lia|destruct Hb as [-> _]; unfold size_off; lia|].
  wstep. apply wp_fat_write; [apply Hs1|by rewrite (step_cap _ _ _ _ Hs1)|auto with word|]. intros s2 Hs2.
  pose proof (disk_step_trans _ _ _ _ _ _ _ Hs1 Hs2) as Hs12.
  pose proof (fs_of_disk _ _ _ _ Hs12) as Hfs. pose proof (fs_files _ _ _ _ _ Hfs) as Hfl.
  unfold put_file. wstep. wstep. wstep. apply HQ; [done|]. rewrite Hfl.
  eapply fs_ext; [exact (fs_set_files _ _ _ _ _ (<[Z.to_nat i := set_size v f]> (fat_open_files s)) Hfs)|].
  intros x Hx. cbn. unfold put_size. destruct (decide (x = dir_sector p f)) as [->|]; [by rewrite Hg|].
  rewrite (step_blk _ _ _ _ Hs1) by done. by apply Hg.
Qed.

(** What fat_write has done when it returned [n]. *)
Record file_written (s : sys) (fd : Z) (f : FatFile) (l buf : list Z) (sz : Z) (s' : sys)
    (n : Z) (l2 : list Z) : Prop := mk_file_written {
  fw_n : 0 <= n <= sz;
  fw_full : n < sz -> forall d, is_cluster (fat_pinfo s) d -> not_free (fat_pinfo s) (blk s') d;
  fw_vol : vol_ok s' /\ others s' = others s;
  fw_file : exists c',
    fat_open_files s' = <[Z.to_nat (fd - FAT_FD_OFFSET) :=
      mk_file 0 (f_pos f + n) (f_dir_idx f) (f_start_cluster f) c' (Z.max (f_size f) (f_pos f + n))]>
        (fat_open_files s) /\
    (f_pos f + n < Z.of_nat (length (l ++ l2)) * cluster_bytes (fat_pinfo s) ->
     c' = cluster_of (l ++ l2) ((f_pos f + n) / cluster_bytes (fat_pinfo s)));
  fw_chain : file_chain (fat_pinfo s) (blk s') (f_start_cluster f) (l ++ l2);
  fw_room : f_pos f + n <= Z.of_nat (length (l ++ l2)) * cluster_bytes (fat_pinfo s);
  fw_new_clusters : forall d, d ∈ l2 -> d <> 0 /\ tval (fat_pinfo s) (blk s) d = 0;
  fw_new : forall j, 0 <= j < n ->
    file_byte (fat_pinfo s) (blk s') (l ++ l2) (f_pos f + j) = at_ buf j;
  fw_old : forall o, 0 <= o < Z.of_nat (length l) * cluster_bytes (fat_pinfo s) ->
    ~ (f_pos f <= o < f_pos f + n) ->
    file_byte (fat_pinfo s) (blk s') (l ++ l2) o = file_byte (fat_pinfo s) (blk s) l o;
  fw_dir : f_size f < f_pos f + n -> le32 (blk s' (dir_sector (fat_pinfo s) f)) (size_off f) = f_pos f + n;
  fw_dir_rest : forall j, 0 <= j -> j < size_off f \/ size_off f + 4 <= j ->
    at_ (blk s' (dir_sector (fat_pinfo s) f)) j = at_ (blk s (dir_sector (fat_pinfo s) f)) j;
  fw_others : forall d, is_cluster (fat_pinfo s) d -> 2 <= d -> d ∉ l -> tval (fat_pinfo s) (blk s) d <> 0 ->
    entry (fat_pinfo s) (blk s') d = entry (fat_pinfo s) (blk s) d /\
    forall so, 0 <= so < sectors_per_cluster (fat_pinfo s) ->
      cluster_sec (fat_pinfo s) d + so <> dir_sector (fat_pinfo s) f ->
      blk s' (cluster_sec (fat_pinfo s) d + so) = blk s (cluster_sec (fat_pinfo s) d + so);
}.

Section Written.
Context (s s' : sys) (fd : Z) (f : FatFile) (l buf : list Z) (sz : Z).
Context (g' : Z -> list Z) (l2 : list Z) (n k' e : Z).
Let p := fat_pinfo s.
Context (Hv : vol_ok s) (Hdi : dir_inv s f l).
Context (Hn32 : f_pos f + n < 2 ^ 32) (Hpos0 : 0 <= f_pos f).
Context (HW : wrote p (cap s) (f_start_cluster f) (blk s) l buf 0 (f_pos f) sz g' l2 n k' e).
Context (Hfin : forall x, 0 <= x < cap s -> blk s' x =
  (if decide (f_size f < f_pos f + n) then put_size p f (f_pos f + n) g' else g') x).

Local Lemma dir_not_in : d_cluster (f_dir_idx f) ∉ l ++ l2.
Proof using Hdi HW.
  rewrite elem_of_app. intros [Hin|Hin]; [by apply (di_other _ _ _ Hdi)|].
  apply (grows_free _ _ _ _ _ _ _ (wrote_grows _ _ _ _ _ _ _ _ _ _ _ _ _ _ HW)) in Hin as [_ Hz].
  by apply (di_used _ _ _ Hdi).
Qed.

Local Lemma dir_sector_ok : 0 <= dir_sector p f < cap s /\ ~ in_table p (dir_sector p f).
Proof using Hv Hdi. destruct Hdi as [[H1' H2'] _ _ H3' _]. by apply (data_sector s). Qed.

(** Away from the directory entry the final disk is the one of the loop. *)
Local Lemma final_same x : 0 <= x < cap s -> x <> dir_sector p f -> blk s' x = g' x.
Proof using Hfin. intros Hx Hne. rewrite Hfin by done. case_decide; [|done]. unfold put_size. by rewrite decide_False. Qed.

Local Lemma final_entry c : is_cluster p c -> entry p (blk s') c = entry p g' c.
Proof using Hv Hdi Hfin.
  intros Hc. apply entry_ext; [|done]. intros x Hx. apply final_same.
  - by apply (geom_cap _ _ (proj2 Hv)).
  - intros ->. by apply dir_sector_ok.
Qed.

Local Lemma final_chain : file_chain p (blk s') (f_start_cluster f) (l ++ l2).
Proof using Hv Hdi HW Hfin.
  destruct (grows_chain _ _ _ _ _ _ _ (wrote_grows _ _ _ _ _ _ _ _ _ _ _ _ _ _ HW)) as [Hch H2'].
  split; [|done]. eapply chain_frame; [|done]. intros d Hd. unfold tval. rewrite final_entry; [done|].
  apply chain_clusters in Hch. rewrite Forall_forall in Hch. by apply Hch.
Qed.

Local Lemma final_byte o : 0 <= o < Z.of_nat (length (l ++ l2)) * cluster_bytes p ->
  file_byte p (blk s') (l ++ l2) o = file_byte p g' (l ++ l2) o.
Proof using Hv Hdi HW Hfin.
  intros Ho. pose proof (geom_spc _ _ (proj2 Hv)) as Hspc. fold p in Hspc.
  assert (0 <= o / cluster_bytes p < Z.of_nat (length (l ++ l2))) as Hko.
  { assert (0 < cluster_bytes p) by (unfold cluster_bytes; lia).
    split; [apply Z.div_pos; lia|apply Z.div_lt_upper_bound; lia]. }
  destruct (file_chain_at _ _ _ _ _ final_chain Hko) as (_ & Hck & H2k).
  destruct (offset_split (sectors_per_cluster p) o ltac:(lia) ltac:(lia)) as (_ & Hso & _).
  unfold file_byte, sector_of. rewrite final_same; [done| |].
  - by apply (data_sector s).
  - intros Heq. apply cluster_sec_inj in Heq as [Heq _]; [|done|apply (di_sector _ _ _ Hdi)].
    apply dir_not_in. rewrite <- Heq. by apply cluster_of_elem.
Qed.

(** The loop does not touch the sectors of other clusters. *)
Local Lemma loop_others d so : is_cluster p d -> 2 <= d -> d ∉ l ++ l2 -> 0 <= so < sectors_per_cluster p ->
  g' (cluster_sec p d + so) = blk s (cluster_sec p d + so).
Proof using Hv HW.
  intros Hd H2' Hnot Hso. destruct (data_sector s d so Hv Hd H2' Hso) as [Hr Hnt].
  apply (grows_data _ _ _ _ _ _ _ (wrote_grows _ _ _ _ _ _ _ _ _ _ _ _ _ _ HW)); [done|done|].
  intros d' so' Hin Hso' [-> _]%cluster_sec_inj; done.
Qed.

Lemma written_of_wrote :
  vol_ok s' -> others s' = others s ->
  fat_open_files s' = <[Z.to_nat (fd - FAT_FD_OFFSET) :=
      mk_file 0 (f_pos f + n) (f_dir_idx f) (f_start_cluster f) (cluster_of (l ++ l2) k')
        (Z.max (f_size f) (f_pos f + n))]> (fat_open_files s) ->
  file_written s fd f l buf sz s' n l2.
Proof using Hv Hdi Hn32 Hpos0 HW Hfin.
  intros Hv' Hoth Hfiles. pose proof HW as [W1 W2 W3 W4 W5 W6 W7].
  pose proof (geom_spc _ _ (proj2 Hv)) as Hspc. fold p in Hspc.
  assert (0 < cluster_bytes p) by (unfold cluster_bytes; lia).
  assert (Z.of_nat (length l) * cluster_bytes p <= Z.of_nat (length (l ++ l2)) * cluster_bytes p)
    by (apply Z.mul_le_mono_nonneg_r; rewrite ?length_app; lia).
  destruct dir_sector_ok as [Hdr Hdt].
  pose proof (di_cluster _ _ _ Hdi) as [Hdc Hd2]. pose proof (di_sector _ _ _ Hdi) as Hds.
  pose proof (loop_others _ _ Hdc Hd2 dir_not_in Hds) as HgD. fold (dir_sector p f) in HgD.
  pose proof (blk_bytes s _ (proj1 Hv) Hdr) as [HlD _].
  pose proof (di_index _ _ _ Hdi) as Hix.
  split; fold p; try done.
  - intros Hlt d Hd. destruct W7 as [(_ & -> & _)|(_ & Hall & _)]; [lia|].
    specialize (Hall d Hd). revert Hall. unfold not_free, tval. by rewrite final_entry.
  - eexists. split; [exact Hfiles|]. intros Hroom. destruct W7 as [(_ & _ & ->)|(_ & _ & Heq)]; [done|lia].
  - apply final_chain.
  - apply W1.
  - intros j Hj. rewrite final_byte by lia. by rewrite W4.
  - intros o Ho Hnot. rewrite final_byte by lia. by apply W5.
  - intros Hlt. rewrite Hfin by done. rewrite decide_True by done. unfold put_size. rewrite decide_True by done.
    apply le32_put32; [lia|unfold size_off; lia|]. rewrite HgD, HlD. unfold size_off. lia.
  - intros j Hj Hout. rewrite Hfin by done. case_decide.
    + unfold put_size. rewrite decide_True by done. rewrite at_put32_ne by (unfold size_off in *; lia). by rewrite HgD.
    + by rewrite HgD.
  - intros d Hd H2' Hnl Hu. assert (d ∉ l ++ l2) as Hnot.
    { rewrite elem_of_app. intros [Hin|Hin]; [done|]. by apply (grows_free _ _ _ _ _ _ _ W1) in Hin as [_ Hz]. }
    split.
    + rewrite final_entry by done. by apply (grows_table _ _ _ _ _ _ _ W1).
    + intros so Hso Hne. rewrite final_same; [by apply loop_others|by apply (data_sector s)|done].
Qed.
End Written.

(** The end of fat_write, after the loop: size and position. *)
Lemma wp_write_finish s s3 fd f l buf sz (g3 : Z -> list Z) l2 n k3 e3 odd Q :
  let p := fat_pinfo s in
  let i := fd - FAT_FD_OFFSET in
  vol_ok s -> fat_open_files s !! Z.to_nat i = Some f -> f_free f = 0 -> dir_inv s f l ->
  0 <= f_pos f -> f_pos f + sz < 2 ^ 32 -> sz < 2 ^ 31 ->
  fs_step s e3 g3 (<[Z.to_nat i := set_current (cluster_of (l ++ l2) k3) f]> (fat_open_files s)) s3 ->
  wrote p (cap s) (f_start_cluster f) (blk s) l buf 0 (f_pos f) sz g3 l2 n k3 e3 -> length odd = 512%nat ->
  (forall s', file_written s fd f l buf sz s' n l2 -> Q n s') ->
  wp (fbind (get_file i) (fun f => fbind (write_new_size i (u32 (f_pos f + n)) odd) (fun _ =>
      fbind (get_file i) (fun f => fbind (put_file i (set_pos (u32 (f_pos f + n)) f)) (fun _ => fret (s32 n)))))) s3 Q.
Proof.
  intros p i Hv Hf Hfree Hdi Hpos Hov Hsz Hs3 HW Hodd HQ.
  pose proof (fs_pinfo _ _ _ _ _ Hs3) as Hp3. fold p in Hp3. pose proof (fs_files _ _ _ _ _ Hs3) as Hfl3.
  pose proof (wrote_n _ _ _ _ _ _ _ _ _ _ _ _ _ _ HW) as Hn.
  assert (Z.to_nat i < length (fat_open_files s))%nat as Hilt by (by apply lookup_lt_Some in Hf).
  set (f3 := set_current (cluster_of (l ++ l2) k3) f) in *.
  wstep. apply wp_get_file with f3; [by rewrite Hfl3, list_lookup_insert_eq by done|].
  rewrite (u32_small (f_pos f3 + n)) by (cbn; lia). change (f_pos f3) with (f_pos f).
  pose proof Hdi as [[Hdc Hd2] _ _ Hds Hdx].
  assert (Hdone : forall s4 v, vol_ok s4 -> others s4 = others s -> v = Z.max (f_size f) (f_pos f + n) ->
    fat_open_files s4 = <[Z.to_nat i := set_size v f3]> (fat_open_files s) ->
    (forall x, 0 <= x < cap s -> blk s4 x =
      (if decide (f_size f < f_pos f + n) then put_size p f (f_pos f + n) g3 else g3) x) ->
    wp (fbind (get_file i) (fun f => fbind (put_file i (set_pos (u32 (f_pos f + n)) f)) (fun _ => fret (s32 n)))) s4 Q).
  { intros s4 v Hv4 Ho4 -> Hfl4 Hb4.
    wstep. eapply wp_get_file; [by rewrite Hfl4, list_lookup_insert_eq by done|].
    unfold put_file. wstep. wstep. wstep. wstep. wstep. rewrite s32_small by lia. apply HQ.
    eapply written_of_wrote; [done|done|lia|lia|exact HW|exact Hb4|exact Hv4|exact Ho4|].
    cbn [fat_open_files]. rewrite Hfl4, list_insert_insert_eq. do 2 f_equal.
    cbn. rewrite u32_small by lia. unfold set_pos, set_size, f3, set_current. cbn. by rewrite Hfree. }
  wstep. apply (wp_write_new_size s3 g3 _ f3 (f_pos f + n) odd e3);
    rewrite ?Hp3, ?Hfl3, ?(fs_cap _ _ _ _ _ Hs3); try done; [by eapply fs_vol|apply Hs3|by rewrite list_lookup_insert_eq|apply Hs3|..].
  - intros s4 Hlt Hs4. cbn in Hlt. pose proof (fs_trans _ _ _ _ _ _ _ _ _ Hs3 Hs4) as Hs04.
    apply (Hdone s4 (f_pos f + n)); [by eapply fs_vol|apply Hs04|lia| |rewrite decide_True by done; apply Hs04].
    by rewrite (fs_files _ _ _ _ _ Hs04), list_insert_insert_eq.
  - intros Hge. cbn in Hge.
    apply (Hdone s3 (f_size f)); [by eapply fs_vol|apply Hs3|lia|done|rewrite decide_False by lia; apply Hs3].
Qed.

Lemma wp_fat_write_file s fd f l buf sz Q :
  vol_ok s -> file_inv s fd f l -> dir_inv s f l -> tval (fat_pinfo s) (blk s) 1 <> 0 ->
  0 <= sz < 2 ^ 31 -> f_pos f + sz < 2 ^ 32 -> sz <= Z.of_nat (length buf) -> Forall is_byte buf ->
  (forall s' n l2, file_written s fd f l buf sz s' n l2 -> Q n s') ->
  wp (fat_write fd buf sz) s Q.
Proof.
  intros Hv [Hop Hfc Hpos Hsize H32 Hroom Hcur] Hdi Hone Hsz Hov Hlen Hby HQ. set (p := fat_pinfo s) in *.
  pose proof (geom_spc _ _ (proj2 Hv)) as Hspc. fold p in Hspc.
  destruct (pos_parts (sectors_per_cluster p) (f_pos f) (proj1 Hspc)) as (Hpp & Hso & Hbo).
  assert (0 < cluster_bytes p) as Hcb by (unfold cluster_bytes; lia).
  set (k := f_pos f / cluster_bytes p) in *.
  assert (0 <= k < Z.of_nat (length l)) as Hk
    by (split; [apply Z.div_pos; lia|apply Z.div_lt_upper_bound; lia]).
  assert (k * cluster_bytes p + (f_pos f / 512) mod sectors_per_cluster p * 512 + f_pos f mod 512 = f_pos f) as Ho.
  { pose proof (Z.div_mod (f_pos f) (cluster_bytes p)). unfold k, cluster_bytes in *. lia. }
  unfold fat_write. wstep. apply wp_check_fd with f; [apply Hv|done|]. intros s1 Hs1.
  pose proof (fs_of_disk _ _ _ _ Hs1) as Hfs1. pose proof (fs_files _ _ _ _ _ Hfs1) as Hfl1.
  pose proof (disk_step_pinfo _ _ _ _ Hs1) as Hp1. fold p in Hp1.
  destruct Hop as (Hi & Hfd & Hf & Hfree).
  wstep. apply wp_get_file with f; [by rewrite Hfl1|].
  wstep. wstep. rewrite Hp1, (geom_bps p _ (proj2 Hv)).
  destruct (file_chain_at _ _ _ _ _ Hfc Hk) as (Hlk & Hck & H2k).
  wstep. apply wp_first_sector; rewrite ?Hp1, ?Hcur; [by eapply vol_ok_step|done|done|].
  wstep. wstep. set (s2 := mk_sys _ _ _ _ _ _ _ _ _).
  assert (fs_step s 0 (blk s) (fat_open_files s) s2) as Hs2 by (by apply fs_set_errno with (e := 0)).
  assert (fat_pinfo s2 = p) as Hp2 by apply (fs_pinfo _ _ _ _ _ Hs2).
  wstep. rewrite <- Hp2.
  apply (wp_write_loop (f_start_cluster f) (fd - FAT_FD_OFFSET) buf _ s2 (blk s) l _ sz 0 k _ _ f);
    rewrite ?Hp2, ?(fs_files _ _ _ _ _ Hs2), ?Ho; try done; try lia.
  { by eapply fs_vol. }
  { intros x. rewrite (fs_cap _ _ _ _ _ Hs2). apply Hs2. }
  intros s3 odd3 g3 l2 n k3 e3 Hs3 HW Hodd3. cbn beta iota. rewrite Z.add_0_l.
  pose proof (fs_trans _ _ _ _ _ _ _ _ _ Hs2 Hs3) as Hs03. rewrite (fs_cap _ _ _ _ _ Hs2) in HW.
  apply (wp_write_finish s s3 fd f l buf sz g3 l2 n k3 e3); (done || lia || eauto).
Qed.


Lemma file_bytes_written s fd f l buf sz s' n l2 :
  file_written s fd f l buf sz s' n l2 -> sz <= Z.of_nat (length buf) ->
  file_bytes (fat_pinfo s) (blk s') (l ++ l2) (f_pos f) n = take (Z.to_nat n) buf.
Proof.
  intros Hw Hlen. pose proof (fw_n _ _ _ _ _ _ _ _ _ Hw) as Hn. unfold file_bytes.
  apply list_eq. intros j. destruct (decide (Z.of_nat j < n)) as [Hj|Hj].
  - rewrite list_lookup_fmap, lookup_seqZ_lt, lookup_take_lt by lia. cbn.
    rewrite (fw_new _ _ _ _ _ _ _ _ _ Hw) by lia. unfold at_. rewrite Nat2Z.id, nth_lookup.
    destruct (lookup_lt_is_Some_2 buf j) as [x ->]; [lia|done].
  - rewrite !lookup_ge_None_2; [done|rewrite length_take; lia|rewrite length_fmap, length_seqZ; lia].
Qed.


End Write.

(** ** On the small volume *)
Section Witnesses.
Import RamDisk Mini.
#[local] Instance cm : CharModel := false.

Lemma s_open_inv : file_inv (s_open 700 4) 3 (file3 700 4) [3; 4; 5].
Proof.
  split; [apply s_open_file|apply s_open_chain|cbn; lia|apply Z.leb_le; by vm_compute|cbn; lia|
    apply Z.ltb_lt; by vm_compute|by vm_compute].
Qed.
Lemma s_open_dir : dir_inv (s_open 700 4) (file3 700 4) [3; 4; 5].
Proof.
  split; [split; [by vm_compute|cbn; lia]|by vm_compute| |cbn; lia|cbn; lia].
  cbn. rewrite !elem_of_cons. intros [?|[?|[?|?%elem_of_nil]]]; [lia..|done].
Qed.
Definition words : list Z := replicate 900 7.
Lemma words_bytes : Forall is_byte words.
Proof. apply Forall_replicate. unfold is_byte; lia. Qed.



End Witnesses.
