(* ===== verification/Lock.v ===== *)
(** Lock: the bakery lock of two cores, libmp/lock.c.

    - [LOCK_T] is the structure each core keeps in its scratchpad.  A core
      writes its own fields and the NoC copies them to the fields
      [remote_entering] and [remote_number] of the other core.
    - [Pc] is the position of a core in acquire_lock and release_lock, one
      constructor per access to shared state; [core_step] is the access made
      there.  A loop is a position that is left only when its test fails.
    - A core has one transfer to the other core under way at a time: noc_write
      repeats noc_nbwrite until the previous transfer is done.  [dma_step]
      delivers it, which copies the value the field has at that moment.
    - [reach] are the interleavings of both cores and both transfers. *)

From stdpp Require Import base numbers list.
From S2P Require Import Prelude.

Record LOCK_T := mk_lock {
  remote_entering : Z;
  remote_number : Z;
  local_entering : Z;
  local_number : Z;
}.

Definition initialize_lock : LOCK_T := mk_lock 0 0 0 0.

(** The local field a transfer copies to the other core. *)
Inductive field := Entering | Number.
#[export] Instance field_eq_dec : EqDecision field.
Proof. solve_decision. Defined.

(** [n] is the ticket of the core and [m] the number it last read. *)
Inductive Pc :=
| Out
| SendEntering
| WaitEntering
| ReadNumber
| SetNumber (n : Z)
| SendNumber (n : Z)
| WaitNumber (n : Z)
| ClearEntering (n : Z)
| SendClear (n : Z)
| SpinEntering (n : Z)
| ReadM (n : Z)
| SpinNumber (n m : Z)
| Critical (n : Z)
| SendRelease
| WaitRelease.

Record side := mk_side { lk : LOCK_T; dma : option field; pc : Pc }.

Definition set_entering (l : LOCK_T) (v : Z) : LOCK_T :=
  mk_lock (remote_entering l) (remote_number l) v (local_number l).
Definition set_number (l : LOCK_T) (v : Z) : LOCK_T :=
  mk_lock (remote_entering l) (remote_number l) (local_entering l) v.

(** noc_write of a field: [None] while the previous transfer is active. *)
Definition send (f : field) (next : Pc) (c : side) : side :=
  match dma c with None => mk_side (lk c) (Some f) next | Some _ => c end.
(** while (!noc_dma_done(remote)). *)
Definition await (next : Pc) (c : side) : side :=
  match dma c with None => mk_side (lk c) None next | Some _ => c end.

(** The test of the last loop of acquire_lock. *)
Definition must_wait (id remote n m : Z) : bool :=
  negb (m =? 0) && ((m <? n) || ((m =? n) && (remote <? id))).

(** The next access of core [id]; from [Out] the core calls acquire_lock, from
    [Critical] release_lock. *)
Definition core_step (id remote : Z) (c : side) : side :=
  let l := lk c in
  let at_ l' p := mk_side l' (dma c) p in
  match pc c with
  | Out => at_ (set_entering l 1) SendEntering
  | SendEntering => send Entering WaitEntering c
  | WaitEntering => await ReadNumber c
  | ReadNumber => at_ l (SetNumber (u32 (remote_number l + 1)))
  | SetNumber n => at_ (set_number l n) (SendNumber n)
  | SendNumber n => send Number (WaitNumber n) c
  | WaitNumber n => await (ClearEntering n) c
  | ClearEntering n => at_ (set_entering l 0) (SendClear n)
  | SendClear n => send Entering (SpinEntering n) c
  | SpinEntering n => if remote_entering l =? 1 then c else at_ l (ReadM n)
  | ReadM n => at_ l (SpinNumber n (remote_number l))
  | SpinNumber n m => if must_wait id remote n m then at_ l (ReadM n) else at_ l (Critical n)
  | Critical _ => at_ (set_number l 0) SendRelease
  | SendRelease => send Number WaitRelease c
  | WaitRelease => await Out c
  end.

(** The transfer of [c] reaches [o]. *)
Definition dma_step (c o : side) : side * side :=
  match dma c with
  | None => (c, o)
  | Some f =>
      let l := lk o in
      let l' := match f with
        | Entering => mk_lock (local_entering (lk c)) (remote_number l) (local_entering l) (local_number l)
        | Number => mk_lock (remote_entering l) (local_number (lk c)) (local_entering l) (local_number l)
        end in
      (mk_side (lk c) None (pc c), mk_side l' (dma o) (pc o))
  end.

(** Both cores, and how many tickets were taken so far. *)
Record sys := mk_sys { sa : side; sb : side; tickets : Z }.

Inductive agent := CoreA | CoreB | DmaA | DmaB.

Definition takes_ticket (p : Pc) : Z := match p with ReadNumber => 1 | _ => 0 end.

Definition step (ida idb : Z) (g : agent) (s : sys) : sys :=
  match g with
  | CoreA => mk_sys (core_step ida idb (sa s)) (sb s) (tickets s + takes_ticket (pc (sa s)))
  | CoreB => mk_sys (sa s) (core_step idb ida (sb s)) (tickets s + takes_ticket (pc (sb s)))
  | DmaA => let '(a, b) := dma_step (sa s) (sb s) in mk_sys a b (tickets s)
  | DmaB => let '(b, a) := dma_step (sb s) (sa s) in mk_sys a b (tickets s)
  end.

Definition start : sys :=
  let c := mk_side initialize_lock None Out in mk_sys c c 0.

Inductive reach (ida idb : Z) : sys -> Prop :=
| reach_start : reach ida idb start
| reach_step g s : reach ida idb s -> reach ida idb (step ida idb g s).

Definition in_critical (c : side) : Prop := exists n, pc c = Critical n.

(** The ticket of a core that waits for its turn or has it. *)
Definition turn (p : Pc) : option Z :=
  match p with SpinEntering n | ReadM n | SpinNumber n _ | Critical n => Some n | _ => None end.

(** Ticket order: by number, then by core. *)
Definition before (i n j k : Z) : Prop := n < k \/ n = k /\ i < j.

(** A core in a loop whose test, evaluated now, keeps it there. *)
Definition spinning (id remote : Z) (c : side) : bool :=
  match pc c with
  | SpinEntering _ => remote_entering (lk c) =? 1
  | ReadM n | SpinNumber n _ => must_wait id remote n (remote_number (lk c))
  | SendEntering | WaitEntering | SendNumber _ | WaitNumber _ | SendClear _ | SendRelease | WaitRelease =>
      bool_decide (dma c <> None)
  | _ => false
  end.

(** ** Invariant *)


(** Where the last transfer of a field is: under way or delivered. *)
Definition moved (d : option field) (f : field) (got old new : Z) : Prop :=
  d = Some f /\ got = old \/ d = None /\ got = new.

(** What [c] wrote and what of it [o] sees, at each position of [c]. *)
Definition own (t : Z) (c o : side) : Prop :=
  let d := dma c in let le := local_entering (lk c) in let ln := local_number (lk c) in
  let re := remote_entering (lk o) in let rn := remote_number (lk o) in
  match pc c with
  | Out => d = None /\ le = 0 /\ ln = 0 /\ re = 0 /\ rn = 0
  | SendEntering => d = None /\ le = 1 /\ ln = 0 /\ re = 0 /\ rn = 0
  | WaitEntering => le = 1 /\ ln = 0 /\ rn = 0 /\ moved d Entering re 0 1
  | ReadNumber => d = None /\ le = 1 /\ ln = 0 /\ re = 1 /\ rn = 0
  | SetNumber n => d = None /\ le = 1 /\ ln = 0 /\ re = 1 /\ rn = 0 /\ 1 <= n <= t
  | SendNumber n => d = None /\ le = 1 /\ ln = n /\ re = 1 /\ rn = 0 /\ 1 <= n <= t
  | WaitNumber n => le = 1 /\ ln = n /\ re = 1 /\ moved d Number rn 0 n /\ 1 <= n <= t
  | ClearEntering n => d = None /\ le = 1 /\ ln = n /\ re = 1 /\ rn = n /\ 1 <= n <= t
  | SendClear n => d = None /\ le = 0 /\ ln = n /\ re = 1 /\ rn = n /\ 1 <= n <= t
  | SpinEntering n | ReadM n | SpinNumber n _ | Critical n =>
      le = 0 /\ ln = n /\ rn = n /\ moved d Entering re 1 0 /\ 1 <= n <= t
  | SendRelease => le = 0 /\ ln = 0 /\ 1 <= rn <= t /\ moved d Entering re 1 0
  | WaitRelease => le = 0 /\ ln = 0 /\ re = 0 /\ (d = Some Number /\ 1 <= rn <= t \/ d = None /\ rn = 0)
  end.

(** A core that found the other outside the doorway is served before any
    ticket the other takes later. *)
Definition later (n : Z) (p : Pc) : Prop :=
  match p with
  | SetNumber k | SendNumber k | WaitNumber k | ClearEntering k | SendClear k => n < k
  | _ => True
  end.
Definition first (i n j : Z) (p : Pc) : Prop :=
  match turn p with Some k => before i n j k | None => True end.
Definition ord (i j : Z) (c o : side) : Prop :=
  match pc c with
  | ReadM n => later n (pc o)
  | SpinNumber n m => later n (pc o) /\ (must_wait i j n m = false -> first i n j (pc o))
  | Critical n => later n (pc o) /\ first i n j (pc o)
  | _ => True
  end.

Definition inv2 (i j t : Z) (c o : side) : Prop :=
  own t c o /\ own t o c /\ ord i j c o /\ ord j i o c.

Lemma inv2_swap i j t c o : inv2 i j t c o -> inv2 j i t o c.
Proof. unfold inv2. tauto. Qed.

Ltac lock_cases :=
  unfold own, moved, ord, later, first, turn, before in *; cbn in *;
  repeat (case_match; cbn in *; simplify_eq); intuition (try congruence; try lia).

Lemma own_mono t t' c o : t <= t' -> own t c o -> own t' c o.
Proof. intros Ht. destruct c as [l d p]. destruct p; lock_cases. Qed.

(** [own] of the other core does not depend on what this core writes. *)
Lemma own_remote t c o o' :
  remote_entering (lk o') = remote_entering (lk o) -> remote_number (lk o') = remote_number (lk o) ->
  own t c o -> own t c o'.
Proof. intros He Hn. unfold own. by rewrite He, Hn. Qed.

Lemma own_number t c o : 0 <= t -> own t c o -> 0 <= remote_number (lk o) <= t.
Proof. intros Ht. destruct c as [l d p]. destruct p; lock_cases. Qed.

Lemma core_step_remote i j c :
  remote_entering (lk (core_step i j c)) = remote_entering (lk c) /\
  remote_number (lk (core_step i j c)) = remote_number (lk c).
Proof. destruct c as [l d p]. destruct p; cbn; unfold send, await; repeat case_match; done. Qed.

Lemma own_core i j t c o : 0 <= t -> t + takes_ticket (pc c) < 2 ^ 32 -> own t c o -> own t o c ->
  own (t + takes_ticket (pc c)) (core_step i j c) o.
Proof.
  intros Ht Hlt Hc Ho. pose proof (own_number t o c Ht Ho) as Hn. clear Ho. destruct c as [l d p].
  destruct p; cbn in *; unfold send, await; rewrite ?Z.add_0_r;
    [..| |]; try (rewrite (u32_small (remote_number l + 1)) by lia); lock_cases.
Qed.

(** A core that does not see the other entering finds it outside the doorway. *)
Lemma doorway_empty t c o n : own t o c -> remote_entering (lk c) <> 1 -> later n (pc o).
Proof. intros Ho Hre. destruct o as [l d p]. destruct p; lock_cases. Qed.

(** A core that need not wait for the number it reads is first. *)
Lemma number_first i j t c o n : i <> j -> own t o c ->
  must_wait i j n (remote_number (lk c)) = false -> first i n j (pc o).
Proof.
  intros Hij Ho. unfold first. destruct (turn (pc o)) as [k|] eqn:E; [|done].
  assert (remote_number (lk c) = k /\ 1 <= k) as [-> Hk].
  { destruct o as [l d p]. destruct p; cbn in E; simplify_eq; lock_cases. }
  unfold must_wait, before. rewrite (proj2 (Z.eqb_neq k 0)) by lia. cbn.
  rewrite orb_false_iff, andb_false_iff, !Z.ltb_ge, Z.eqb_neq. lia.
Qed.

Lemma ord_core i j t c o : i <> j -> own t o c -> ord i j c o -> ord i j (core_step i j c) o.
Proof.
  intros Hij Ho Hord. destruct c as [l d p].
  destruct p; cbn in *; unfold send, await; try (by repeat case_match).
  - destruct (Z.eqb_spec (remote_entering l) 1) as [|Hre]; cbn; [done|]. by eapply doorway_empty.
  - split; [done|]. by apply (number_first i j t _ o n Hij Ho).
  - destruct (must_wait i j n m); cbn; [apply Hord|]. split; [apply Hord|by apply Hord].
Qed.

(** A ticket taken while the other core waits is behind it. *)
Lemma later_core i j n o : 0 <= remote_number (lk o) < 2 ^ 32 - 1 \/ pc o <> ReadNumber ->
  remote_number (lk o) = n -> later n (pc o) -> later n (pc (core_step j i o)).
Proof.
  intros Hr Hn Hl. destruct o as [l d p].
  destruct p; cbn in *; unfold send, await; try (repeat case_match; cbn; done || lia).
  rewrite u32_small by (destruct Hr; [lia|done]). lia.
Qed.
Lemma first_core i j n o : later n (pc o) -> first i n j (pc o) -> first i n j (pc (core_step j i o)).
Proof.
  intros Hl Hf. destruct o as [l d p].
  destruct p; unfold first, send, await in *; cbn in *; unfold send, await; try done;
    repeat (case_match; cbn in *; simplify_eq; try done); unfold before; auto.
Qed.

Lemma ord_core_other i j t c o : t + takes_ticket (pc o) < 2 ^ 32 -> 0 <= t -> own t c o ->
  ord i j c o -> ord i j c (core_step j i o).
Proof.
  intros Ht H0 Hc Hord. pose proof (own_number t c o H0 Hc) as Hn.
  assert (0 <= remote_number (lk o) < 2 ^ 32 - 1 \/ pc o <> ReadNumber) as Hr.
  { destruct (pc o); cbn in Ht; (by right) || (left; lia). }
  unfold ord in *. destruct c as [l d p]. destruct p; try done; cbn in Hc, Hord |- *; destruct Hc as (_ & _ & Hrn & _).
  - by apply later_core.
  - destruct Hord as [Hl Hf]. split; [by apply later_core|]. intros Hm. apply first_core; auto.
  - destruct Hord as [Hl Hf]. split; [by apply later_core|by apply first_core].
Qed.

Lemma inv2_core i j t c o : i <> j -> 0 <= t -> t + takes_ticket (pc c) < 2 ^ 32 -> inv2 i j t c o ->
  inv2 i j (t + takes_ticket (pc c)) (core_step i j c) o.
Proof.
  intros Hij H0 Ht (Hc & Ho & Hoc & Hoo). destruct (core_step_remote i j c) as [He Hn].
  split_and!.
  - by apply own_core.
  - apply (own_remote _ _ c); [done|done|]. apply (own_mono t); [destruct (pc c); cbn; lia|done].
  - by apply (ord_core i j t).
  - by apply (ord_core_other j i t).
Qed.

(** A delivery. *)
Lemma inv2_dma i j t c o : inv2 i j t c o ->
  inv2 i j t (fst (dma_step c o)) (snd (dma_step c o)).
Proof.
  intros (Hc & Ho & Hoc & Hoo). unfold dma_step. destruct (dma c) as [f|] eqn:E; [|done]. cbn.
  split_and!.
  - clear Ho Hoc Hoo. destruct c as [l d p]. cbn in E. subst d. destruct p; destruct f; lock_cases.
  - destruct f; [apply (own_remote _ _ c); done|apply (own_remote _ _ c); done].
  - done.
  - done.
Qed.


Definition inv (ida idb : Z) (s : sys) : Prop := 0 <= tickets s /\ inv2 ida idb (tickets s) (sa s) (sb s).

Lemma tickets_mono ida idb g s : tickets s <= tickets (step ida idb g s).
Proof.
  destruct g; cbn; [destruct (pc (sa s)); cbn; lia|destruct (pc (sb s)); cbn; lia| |];
    unfold dma_step; case_match; simplify_eq; cbn; repeat case_match; simplify_eq; cbn; lia.
Qed.

Lemma reach_inv ida idb s : ida <> idb -> reach ida idb s -> tickets s < 2 ^ 32 -> inv ida idb s.
Proof.
  intros Hid. induction 1 as [|g s Hs IH]; intros Ht.
  - split; [done|]. cbn. unfold inv2, own, ord; cbn. tauto.
  - destruct IH as [H0 HI]; [pose proof (tickets_mono ida idb g s); lia|].
    split; [pose proof (tickets_mono ida idb g s); lia|]. destruct g; cbn in *.
    + by apply inv2_core.
    + apply inv2_swap, inv2_core; [done|done|done|by apply inv2_swap].
    + pose proof (inv2_dma _ _ _ _ _ HI) as HD. by destruct (dma_step (sa s) (sb s)).
    + pose proof (inv2_dma _ _ _ _ _ (inv2_swap _ _ _ _ _ HI)) as HD. destruct (dma_step (sb s) (sa s)).
      by apply inv2_swap.
Qed.

(** A schedule of the four agents. *)
Definition run (ida idb : Z) (gs : list agent) (s : sys) : sys :=
  fold_left (fun s g => step ida idb g s) gs s.
Lemma reach_run ida idb gs : forall s, reach ida idb s -> reach ida idb (run ida idb gs s).
Proof. induction gs as [|g gs IH]; intros s Hs; [done|]. by apply IH, reach_step. Qed.

(** Ticket order between the two sides. *)
Lemma inv2_first i j t c o n k : inv2 i j t c o -> pc c = Critical n -> turn (pc o) = Some k -> before i n j k.
Proof.
  intros (_ & _ & Hord & _) Hn Hk. unfold ord, first in Hord. rewrite Hn, Hk in Hord. apply Hord.
Qed.
Lemma before_asym i n j k : before i n j k -> before j k i n -> False.
Proof. unfold before. lia. Qed.

Lemma mutex ida idb s : ida <> idb -> reach ida idb s -> tickets s < 2 ^ 32 ->
  in_critical (sa s) -> in_critical (sb s) -> False.
Proof.
  intros Hid Hs Ht [n Hn] [k Hk]. destruct (reach_inv _ _ _ Hid Hs Ht) as [_ HI].
  eapply before_asym.
  - eapply (inv2_first _ _ _ _ _ n k HI); [done|by rewrite Hk].
  - eapply (inv2_first _ _ _ _ _ k n (inv2_swap _ _ _ _ _ HI)); [done|by rewrite Hn].
Qed.

(** C2: mutual exclusion.  In every interleaving of two cores and their NoC
    transfers in which fewer than 2^32 tickets are taken, at most one core is
    between the return of acquire_lock and the call of release_lock. *)
Theorem lock_mutual_exclusion ida idb s :
  ida <> idb -> reach ida idb s -> tickets s < 2 ^ 32 -> ~ (in_critical (sa s) /\ in_critical (sb s)).
Proof. intros Hid Hs Ht [Ha Hb]. by apply (mutex ida idb s). Qed.

(** Tickets are served in order, and stay below the number of tickets
    taken.  While a core is in its critical section with ticket n and the
    other has announced ticket k, n comes before k, where equal numbers are
    ordered by core id; what each core sees of the other's number lies between
    0 and the number of tickets taken. *)
Theorem lock_first_come_first_served ida idb s :
  ida <> idb -> reach ida idb s -> tickets s < 2 ^ 32 ->
  (forall n k, pc (sa s) = Critical n -> turn (pc (sb s)) = Some k -> before ida n idb k) /\
  (forall n k, pc (sb s) = Critical n -> turn (pc (sa s)) = Some k -> before idb n ida k) /\
  0 <= remote_number (lk (sa s)) <= tickets s /\ 0 <= remote_number (lk (sb s)) <= tickets s.
Proof.
  intros Hid Hs Ht. destruct (reach_inv _ _ _ Hid Hs Ht) as [H0 HI]. split; [|split; [|split]].
  - intros n k. by apply (inv2_first _ _ _ _ _ n k HI).
  - intros n k. by apply (inv2_first _ _ _ _ _ n k (inv2_swap _ _ _ _ _ HI)).
  - apply (own_number (tickets s) (sb s) (sa s)); [done|apply HI].
  - apply (own_number (tickets s) (sa s) (sb s)); [done|apply HI].
Qed.

Lemma must_wait_before i j n m : must_wait i j n m = true -> m <> 0 /\ before j m i n.
Proof. unfold must_wait, before. rewrite andb_true_iff, orb_true_iff, andb_true_iff, negb_true_iff. lia. Qed.

(** A core that waits on the other is not waited on: with no transfer under
    way, the core it waits for is inside the lock code and not in a loop. *)
Lemma waits_entering i j t c o : own t o c -> dma o = None -> remote_entering (lk c) = 1 ->
  pc o <> Out /\ spinning j i o = false.
Proof.
  intros Ho Do Hre. destruct o as [l d p]. cbn in Do. subst d. unfold spinning.
  destruct p; cbn in *; unfold moved in *; try (split; done); exfalso; lock_cases.
Qed.
Lemma waits_number i j t c o n : own t o c -> dma o = None -> remote_entering (lk o) = 0 ->
  remote_number (lk o) = n -> must_wait i j n (remote_number (lk c)) = true -> pc o <> Out /\ spinning j i o = false.
Proof.
  intros Ho Do Hre Hn [Hm Hb]%must_wait_before. subst n. unfold spinning. rewrite Do, Hre. unfold own in Ho.
  destruct (pc o) eqn:E; try (split; done); try (exfalso; intuition congruence);
    (split; [done|]; apply not_true_is_false; intros [_ Hb']%must_wait_before;
     destruct Ho as (_ & _ & Hk & _); rewrite Hk in Hb; by eapply before_asym).
Qed.

Lemma waits_for i j t c o : inv2 i j t c o -> dma c = None -> dma o = None ->
  spinning i j c = true -> pc o <> Out /\ spinning j i o = false.
Proof.
  intros (Hc & Ho & _) Dc Do Hsp. unfold spinning in Hsp. rewrite Dc in Hsp. unfold own, moved in Hc. rewrite Dc in Hc.
  destruct (pc c) eqn:E; try done.
  - eapply waits_entering; [done|done|lia].
  - apply (waits_number i j t c o n); try done; intuition congruence.
  - apply (waits_number i j t c o n); try done; intuition congruence.
Qed.

(** C35: the lock does not deadlock.  In every reachable state with fewer than
    2^32 tickets taken, if a core is inside acquire_lock, the critical section
    or release_lock, then a transfer is under way or one of the cores that are
    inside is not held up in a loop. *)
Theorem lock_deadlock_free ida idb s :
  ida <> idb -> reach ida idb s -> tickets s < 2 ^ 32 -> pc (sa s) <> Out \/ pc (sb s) <> Out ->
  dma (sa s) <> None \/ dma (sb s) <> None \/
  pc (sa s) <> Out /\ spinning ida idb (sa s) = false \/
  pc (sb s) <> Out /\ spinning idb ida (sb s) = false.
Proof.
  intros Hid Hs Ht Hin. destruct (reach_inv _ _ _ Hid Hs Ht) as [_ HI].
  destruct (decide (dma (sa s) = None)) as [Da|]; [|by left].
  destruct (decide (dma (sb s) = None)) as [Db|]; [|by right; left]. right; right.
  destruct (spinning ida idb (sa s)) eqn:Sa.
  - right. by apply (waits_for ida idb (tickets s) (sa s)).
  - destruct (spinning idb ida (sb s)) eqn:Sb; [|by destruct Hin; auto].
    left. split; [|done]. by apply (waits_for idb ida (tickets s) (sb s)), Sb; [apply inv2_swap|..].
Qed.

(** Core 1 and core 2 both call acquire_lock; both see the number 0, core 1
    has the critical section and core 2 waits. *)
Definition contended : sys := run 1 2
  ([CoreA; CoreB; CoreA; CoreB; DmaA; DmaB; CoreA; CoreB; CoreA; CoreB; CoreA; CoreB; CoreA; CoreB; DmaA; DmaB] ++
   [CoreA; CoreB; CoreA; CoreB; CoreA; CoreB; DmaA; DmaB; CoreA; CoreB; CoreA; CoreB; CoreA; CoreB]) start.

Lemma contended_reach : reach 1 2 contended.
Proof. apply reach_run, reach_start. Qed.

Lemma lock_mutual_exclusion_witness :
  in_critical (sa contended) /\ ~ (in_critical (sa contended) /\ in_critical (sb contended)).
Proof.
  split; [exists 1; reflexivity|]. apply (lock_mutual_exclusion 1 2); [lia|exact contended_reach|reflexivity].
Defined.

Lemma lock_first_come_first_served_witness : before 1 1 2 1.
Proof.
  destruct (lock_first_come_first_served 1 2 contended) as [HA _]; [lia|exact contended_reach|reflexivity|].
  exact (HA 1 1 eq_refl eq_refl).
Defined.

Lemma lock_deadlock_free_witness :
  spinning 2 1 (sb contended) = true /\
  (dma (sa contended) <> None \/ dma (sb contended) <> None \/
   pc (sa contended) <> Out /\ spinning 1 2 (sa contended) = false \/
   pc (sb contended) <> Out /\ spinning 2 1 (sb contended) = false).
Proof.
  split; [reflexivity|]. apply (lock_deadlock_free 1 2); [lia|exact contended_reach|reflexivity|by left].
Defined.

(** ** The ticket counter *)

(** One core has the critical section with ticket [k], the other is outside. *)
Definition only_a (k t : Z) : sys :=
  mk_sys (mk_side (mk_lock 0 0 0 k) None (Critical k)) (mk_side (mk_lock 0 k 0 0) None Out) t.
Definition only_b (k t : Z) : sys :=
  mk_sys (mk_side (mk_lock 0 k 0 0) None Out) (mk_side (mk_lock 0 0 0 k) None (Critical k)) t.

(** acquire_lock up to the last loop, the last loop, and release_lock. *)
Definition take (c d : agent) : list agent := [c; c; d; c; c; c; c; d; c; c; c; d; c].
Definition enter (c : agent) : list agent := [c; c].
Definition leave (c d : agent) : list agent := [c; c; d; c].

(** Taking turns: each core takes its ticket while the other holds the lock. *)
Lemma turn_to_b k t :
  run 1 2 (take CoreB DmaB ++ leave CoreA DmaA ++ enter CoreB) (only_a k t) = only_b (u32 (k + 1)) (t + 1).
Proof. cbn -[u32 Z.add]. rewrite ?Z.add_0_r. reflexivity. Qed.
Lemma turn_to_a k t :
  run 1 2 (take CoreA DmaA ++ leave CoreB DmaB ++ enter CoreA) (only_b k t) = only_a (u32 (k + 1)) (t + 1).
Proof. cbn -[u32 Z.add]. rewrite ?Z.add_0_r. reflexivity. Qed.

Lemma turns_reach i : 0 <= i -> 2 * i + 1 < 2 ^ 32 -> exists t, reach 1 2 (only_a (2 * i + 1) t).
Proof.
  intros Hi. revert i Hi. apply (natlike_ind (fun i => 2 * i + 1 < 2 ^ 32 -> exists t, reach 1 2 (only_a (2 * i + 1) t))).
  - intros _. exists 1. change (only_a (2 * 0 + 1) 1) with (run 1 2 (take CoreA DmaA ++ enter CoreA) start).
    apply reach_run, reach_start.
  - intros i Hi IH Hlt. destruct IH as [t Ht]; [lia|]. exists (t + 1 + 1).
    apply (reach_run _ _ (take CoreB DmaB ++ leave CoreA DmaA ++ enter CoreB)) in Ht. rewrite turn_to_b in Ht.
    apply (reach_run _ _ (take CoreA DmaA ++ leave CoreB DmaB ++ enter CoreA)) in Ht. rewrite turn_to_a in Ht.
    rewrite (u32_small (2 * i + 1 + 1)), u32_small in Ht by lia.
    by replace (2 * Z.succ i + 1) with (2 * i + 1 + 1 + 1) by lia.
Qed.

(** The bound on the tickets is needed.  When the cores keep taking turns
    the 32-bit ticket counter wraps around: a core takes the ticket 0, which
    says that it does not wait, and enters while the other is inside. *)
Theorem lock_ticket_wraps : exists s, reach 1 2 s /\ in_critical (sa s) /\ in_critical (sb s).
Proof.
  destruct (turns_reach (2 ^ 31 - 1)) as [t Ht]; [lia|lia|].
  exists (run 1 2 (take CoreB DmaB ++ enter CoreB) (only_a (2 ^ 32 - 1) t)). split; [by apply reach_run|].
  split; [exists (2 ^ 32 - 1)|exists 0]; reflexivity.
Qed.
