(* ===== verification/Noc.v ===== *)
(** Noc: the network-on-chip driver, libnoc/noc.c and libnoc/coreset.h.

    - [noc] is what one core sees of the network: its communication
      scratchpad and the DMA table of its network interface, both word by
      word, with addresses relative to NOC_SPM_BASE and NOC_DMA_BASE.
    - [hw_move] moves one word of a transfer that was set up in the DMA table:
      it is the network between two cores, as far as the driver relies on it.
    - A loop that waits for the network runs with fuel and lets the network
      make progress, [hw], before every attempt.
    - [coreset_t] is one word (CORESET_SIZE is 32). *)

From stdpp Require Import base numbers list gmap functions.
From S2P Require Import Prelude.

(** The address of the network interface, from machine/patmos.h. *)
Class ArgoBase := { PATMOS_IO_ARGO : Z }.

(** ** Sets of cores *)

Module Coreset.

Definition coreset_t := Z.
Definition ELEMBITS := 32.
Definition coreset_clearall : coreset_t := 0.
(** 1 << k as a 32-bit word. *)
Definition bit (core : Z) : Z := u32 (Z.shiftl 1 (core mod ELEMBITS)).
Definition coreset_add (core : Z) (s : coreset_t) : coreset_t := Z.lor s (bit core).
Definition coreset_remove (core : Z) (s : coreset_t) : coreset_t := Z.land s (u32 (Z.lnot (bit core))).
Definition coreset_contains (core : Z) (s : coreset_t) : Z := s32 (Z.land s (bit core)).
Definition coreset_empty (s : coreset_t) : Z := if negb (s =? 0) then 0 else 1.

End Coreset.
Import Coreset.

(** ** The DMA table *)

Definition DATA_PKT_TYPE := 0.
Definition CONFIG_PKT_TYPE := 1.
Definition DATA_IRQ_PKT_TYPE := 2.
Definition IRQ_PKT_TYPE := 3.
Definition NOC_PTR_WIDTH := 14.
Definition NOC_ACTIVE_BIT := 0x80000000.
Definition NOC_SPM_BASE `{ArgoBase} := PATMOS_IO_ARGO + 0x4000000.

Record noc := mk_noc { spm : Z -> Z; dma_tab : Z -> Z }.
Definition set_tab (i v : Z) (n : noc) : noc := mk_noc (spm n) (<[i := v]> (dma_tab n)).

Definition k_noc_dma_done (dma_id : Z) (n : noc) : Z :=
  let status := dma_tab n (u32 (Z.shiftl dma_id 1) + 1) in
  if negb (Z.land status NOC_ACTIVE_BIT =? 0) then 0 else 1.

Definition k_noc_dma_clear (dma_id : Z) (n : noc) : noc :=
  set_tab (u32 (Z.shiftl dma_id 1)) 0 (set_tab (u32 (Z.shiftl dma_id 1) + 1) 0 n).

(** [write_ptr], [read_ptr] and [size] are unsigned short, [pkt_type] is
    unsigned char: the callers' values are cut to that width. *)
Definition k_noc_dma_write (dma_id write_ptr read_ptr size pkt_type : Z) (n : noc) : Z * noc :=
  let write_ptr := u16 write_ptr in let read_ptr := u16 read_ptr in
  let size := u16 size in let pkt_type := u8 pkt_type in
  if k_noc_dma_done dma_id n =? 0 then (0, n)
  else if 3 <? pkt_type then (0, n)
  else
    let n := set_tab (u32 (Z.shiftl dma_id 1)) (Z.lor (Z.shiftl pkt_type NOC_PTR_WIDTH) write_ptr) n in
    let n := set_tab (u32 (Z.shiftl dma_id 1) + 1)
               (u32 (Z.lor (Z.lor NOC_ACTIVE_BIT (Z.shiftl size NOC_PTR_WIDTH)) read_ptr)) n in
    (1, n).

Definition noc_dma_write := k_noc_dma_write.
Definition noc_dma_done := k_noc_dma_done.
Definition noc_dma_clear := k_noc_dma_clear.

(** From bytes to words. *)
Definition W (x : Z) : Z := u32 (x + 3) / 4.

Definition noc_conf `{ArgoBase} (dma_id dst src size : Z) (n : noc) : Z * noc :=
  let wp := u32 (dst - NOC_SPM_BASE) in
  let rp := u32 (src - NOC_SPM_BASE) in
  noc_dma_write dma_id (W wp) (W rp) (W size) CONFIG_PKT_TYPE n.

Definition noc_irq `{ArgoBase} (dma_id dst src : Z) (n : noc) : Z * noc :=
  let wp := u32 (dst - NOC_SPM_BASE) in
  let rp := u32 (src - NOC_SPM_BASE) in
  noc_dma_write dma_id (W wp) (W rp) 1 IRQ_PKT_TYPE n.

Definition noc_nbwrite `{ArgoBase} (dma_id dst src size irq_enable : Z) (n : noc) : Z * noc :=
  let send pkt_type :=
    let wp := u32 (dst - NOC_SPM_BASE) in
    let rp := u32 (src - NOC_SPM_BASE) in
    noc_dma_write dma_id (W wp) (W rp) (W size) pkt_type n in
  if irq_enable =? 1 then send DATA_IRQ_PKT_TYPE
  else if irq_enable =? 0 then send DATA_PKT_TYPE
  else (0, n).

Section Waiting.
Context `{ArgoBase}.
(** What the network does before an attempt, the id of the core and the
    number of cores of the platform (NOC_CORES). *)
Context (hw : noc -> noc) (cpuid NOC_CORES : Z).

(** [None]: the loop used up its fuel. *)
Fixpoint noc_write (fuel : nat) (dma_id dst src size irq_enable : Z) (n : noc) : option noc :=
  match fuel with
  | O => None
  | S fuel' =>
      let '(r, n') := noc_nbwrite dma_id dst src size irq_enable (hw n) in
      if r =? 0 then noc_write fuel' dma_id dst src size irq_enable n' else Some n'
  end.

Fixpoint wait_done (fuel : nat) (dma_id : Z) (n : noc) : option noc :=
  match fuel with
  | O => None
  | S fuel' => let n := hw n in if noc_dma_done dma_id n =? 0 then wait_done fuel' dma_id n else Some n
  end.

(** One pass over the receivers: the cores that were served, and whether
    none was refused. *)
Fixpoint multisend_pass (rcv : list (Z * Z)) (src size irq_enable : Z) (sent : coreset_t) (done : bool) (n : noc)
    : coreset_t * bool * noc :=
  match rcv with
  | [] => (sent, done, n)
  | (dma_id, dst) :: rcv' =>
      if coreset_contains dma_id sent =? 0 then
        let '(r, n') := noc_nbwrite dma_id dst src size irq_enable (hw n) in
        if negb (r =? 0) then multisend_pass rcv' src size irq_enable (coreset_add dma_id sent) done n'
        else multisend_pass rcv' src size irq_enable sent false n'
      else multisend_pass rcv' src size irq_enable sent done n
  end.
Fixpoint multisend_loop (fuel : nat) (rcv : list (Z * Z)) (src size irq_enable : Z) (sent : coreset_t) (n : noc)
    : option noc :=
  match fuel with
  | O => None
  | S fuel' =>
      let '(sent, done, n) := multisend_pass rcv src size irq_enable sent true n in
      if done : bool then Some n else multisend_loop fuel' rcv src size irq_enable sent n
  end.
(** [rcv] pairs the arrays dma_id and dst. *)
Definition noc_multisend (fuel : nat) (rcv : list (Z * Z)) (src size irq_enable : Z) (n : noc) : option noc :=
  multisend_loop fuel rcv src size irq_enable coreset_clearall n.

Fixpoint multisend_cs_from (fuel : nat) (k : nat) (i index : Z) (receivers : coreset_t) (dst : list Z)
    (offset src size irq_enable : Z) (n : noc) : option noc :=
  match k with
  | O => Some n
  | S k' =>
      if negb (coreset_contains i receivers =? 0) then
        match (if negb (i =? cpuid)
               then noc_write fuel i (u32 (at_ dst index + offset)) src size irq_enable n else Some n) with
        | Some n => multisend_cs_from fuel k' (i + 1) (index + 1) receivers dst offset src size irq_enable n
        | None => None
        end
      else multisend_cs_from fuel k' (i + 1) index receivers dst offset src size irq_enable n
  end.
Definition noc_multisend_cs (fuel : nat) (receivers : coreset_t) (dst : list Z) (offset src size irq_enable : Z)
    (n : noc) : option noc :=
  multisend_cs_from fuel (Z.to_nat NOC_CORES) 0 0 receivers dst offset src size irq_enable n.

Fixpoint wait_dma_from (fuel k : nat) (i : Z) (receivers : coreset_t) (n : noc) : option noc :=
  match k with
  | O => Some n
  | S k' =>
      match (if negb (coreset_contains i receivers =? 0) && negb (i =? cpuid)
             then wait_done fuel i n else Some n) with
      | Some n => wait_dma_from fuel k' (i + 1) receivers n
      | None => None
      end
  end.
Definition noc_wait_dma (fuel : nat) (receivers : coreset_t) (n : noc) : option noc :=
  wait_dma_from fuel (Z.to_nat NOC_CORES) 0 receivers n.

End Waiting.

(** ** The scratchpad by byte address *)

Section Words.
Context `{ArgoBase}.
Definition ldw (a : Z) (n : noc) : Z := spm n ((a - NOC_SPM_BASE) / 4).
Definition stw (a v : Z) (n : noc) : noc := mk_noc (<[(a - NOC_SPM_BASE) / 4 := v]> (spm n)) (dma_tab n).
(** The address of word [w]. *)
Definition adr (w : Z) : Z := NOC_SPM_BASE + 4 * w.
Lemma adr_word w : (adr w - NOC_SPM_BASE) / 4 = w.
Proof. unfold adr. replace (NOC_SPM_BASE + 4 * w - NOC_SPM_BASE) with (w * 4) by lia. by apply Z.div_mul. Qed.
Lemma adr_add w i : adr w + 4 * i = adr (w + i).
Proof. unfold adr. lia. Qed.
Lemma ldw_adr w n : ldw (adr w) n = spm n w.
Proof. unfold ldw. by rewrite adr_word. Qed.
Lemma stw_adr w v n : stw (adr w) v n = mk_noc (<[w := v]> (spm n)) (dma_tab n).
Proof. unfold stw. by rewrite adr_word. Qed.
End Words.

(** ** Transfers *)

(** A transfer under way: destination, source and words left. *)
Record xfer := mk_xfer { x_dst : Z; x_src : Z; x_left : Z }.

Definition w0 (id : Z) (n : noc) : Z := dma_tab n (u32 (Z.shiftl id 1)).
Definition w1 (id : Z) (n : noc) : Z := dma_tab n (u32 (Z.shiftl id 1) + 1).

(** The fields of an active entry. *)
Definition xfer_of (id : Z) (n : noc) : option xfer :=
  if Z.testbit (w1 id n) 31
  then Some (mk_xfer (w0 id n mod 2 ^ 14) (w1 id n mod 2 ^ 14) (w1 id n / 2 ^ 14 mod 2 ^ 17))
  else None.

(** The network moves the next word of the transfer from [c] to [o], and
    marks the entry as done with the last word. *)
Definition hw_move (id : Z) (c o : noc) : noc * noc :=
  match xfer_of id c with
  | None => (c, o)
  | Some x =>
      let o' := if x_left x =? 0 then o else mk_noc (<[x_dst x := spm c (x_src x)]> (spm o)) (dma_tab o) in
      let c' :=
        if x_left x <=? 1 then set_tab (u32 (Z.shiftl id 1) + 1) 0 c
        else set_tab (u32 (Z.shiftl id 1)) (w0 id c + 1)
               (set_tab (u32 (Z.shiftl id 1) + 1) (w1 id c + 1 - 2 ^ 14) c) in
      (c', o')
  end.

Lemma xfer_spm id f n : xfer_of id (mk_noc f (dma_tab n)) = xfer_of id n.
Proof. done. Qed.
Lemma xfer_tab id n n' : dma_tab n' = dma_tab n -> xfer_of id n' = xfer_of id n.
Proof. intros E. unfold xfer_of, w0, w1. by rewrite E. Qed.
Lemma hw_move_none id c o : xfer_of id c = None -> hw_move id c o = (c, o).
Proof. intros E. unfold hw_move. by rewrite E. Qed.

Lemma done_xfer id n : (noc_dma_done id n =? 0) = match xfer_of id n with Some _ => true | None => false end.
Proof.
  unfold noc_dma_done, k_noc_dma_done, xfer_of, w1, NOC_ACTIVE_BIT.
  set (w := dma_tab n _). replace (Z.land w 0x80000000 =? 0) with (negb (Z.testbit w 31)).
  - by destruct (Z.testbit w 31).
  - symmetry. destruct (Z.testbit w 31) eqn:E; cbn.
    + apply Z.eqb_neq. intros Hz. apply (f_equal (fun x => Z.testbit x 31)) in Hz.
      rewrite Z.land_spec, E in Hz. done.
    + apply Z.eqb_eq, Z.bits_inj'. intros k Hk. rewrite Z.land_spec, Z.bits_0.
      change 0x80000000 with (2 ^ 31). rewrite Z.pow2_bits_eqb by lia.
      destruct (Z.eqb_spec 31 k) as [<-|]; [by rewrite E|by rewrite andb_false_r].
Qed.

(** The words that k_noc_dma_write stores. *)
Lemma entry_word1 size rp : 0 <= size < 2 ^ 16 -> 0 <= rp < 2 ^ 14 ->
  u32 (Z.lor (Z.lor NOC_ACTIVE_BIT (Z.shiftl size NOC_PTR_WIDTH)) rp) = 2 ^ 31 + size * 2 ^ 14 + rp.
Proof.
  intros Hs Hr. unfold NOC_ACTIVE_BIT, NOC_PTR_WIDTH.
  rewrite <- Z.lor_assoc, lor_shift by lia. change 0x80000000 with (Z.shiftl 1 31).
  rewrite lor_shift by lia. rewrite u32_small; lia.
Qed.
Lemma entry_word0 pkt wp : 0 <= wp < 2 ^ 14 -> Z.lor (Z.shiftl pkt NOC_PTR_WIDTH) wp = pkt * 2 ^ 14 + wp.
Proof. intros Hw. unfold NOC_PTR_WIDTH. by rewrite lor_shift. Qed.

(** An active entry is determined by its fields. *)
Lemma fields_of w : exists h l r, w = 2 ^ 31 * h + 2 ^ 14 * l + r /\ 0 <= l < 2 ^ 17 /\ 0 <= r < 2 ^ 14 /\
  w mod 2 ^ 14 = r /\ w / 2 ^ 14 mod 2 ^ 17 = l /\ Z.testbit w 31 = Z.odd h.
Proof.
  exists (w / 2 ^ 31), (w / 2 ^ 14 mod 2 ^ 17), (w mod 2 ^ 14).
  split; [|split; [|split; [|split; [|split]]]]; try done; try (apply Z.mod_pos_bound; lia).
  - replace (2 ^ 31) with (2 ^ 14 * 2 ^ 17) by done. rewrite <- Z.div_div by lia.
    pose proof (Z.div_mod w (2 ^ 14) ltac:(lia)). pose proof (Z.div_mod (w / 2 ^ 14) (2 ^ 17) ltac:(lia)). lia.
  - by rewrite <- Z.bit0_odd, Z.div_pow2_bits.
Qed.
Lemma fields_eq h l r : 0 <= l < 2 ^ 17 -> 0 <= r < 2 ^ 14 ->
  let w := 2 ^ 31 * h + 2 ^ 14 * l + r in
  w mod 2 ^ 14 = r /\ w / 2 ^ 14 mod 2 ^ 17 = l /\ Z.testbit w 31 = Z.odd h.
Proof.
  intros Hl Hr w. destruct (fields_of w) as (h' & l' & r' & E & Hl' & Hr' & -> & -> & ->).
  assert (h' = h /\ l' = l /\ r' = r) as (-> & -> & ->) by (subst w; lia). done.
Qed.

(** Entries of different cores do not overlap. *)
Lemma entry_index id : 0 <= id < 2 ^ 31 -> u32 (Z.shiftl id 1) = 2 * id.
Proof. intros Hi. rewrite Z.shiftl_mul_pow2 by lia. rewrite u32_small; lia. Qed.

Lemma xfer_other id id' n i v : 0 <= id < 2 ^ 31 -> 0 <= id' < 2 ^ 31 -> id <> id' ->
  i = u32 (Z.shiftl id 1) \/ i = u32 (Z.shiftl id 1) + 1 ->
  xfer_of id' (set_tab i v n) = xfer_of id' n.
Proof.
  intros Hi Hi' Hne Hx. unfold xfer_of, w0, w1, set_tab. cbn [dma_tab]. rewrite !entry_index in * by done.
  rewrite !fn_lookup_insert_ne by lia. done.
Qed.

(** Bytes of the scratchpad, 2^14 words of four bytes. *)
Definition spm_word `{ArgoBase} (a w : Z) : Prop := a = NOC_SPM_BASE + 4 * w /\ 0 <= w < 2 ^ 14.

Lemma spm_word_adr `{ArgoBase} w : 0 <= w < 2 ^ 14 -> spm_word (adr w) w.
Proof. done. Qed.

Lemma W_addr `{ArgoBase} a w : spm_word a w -> W (u32 (a - NOC_SPM_BASE)) = w.
Proof.
  intros [-> Hw]. unfold W. replace (NOC_SPM_BASE + 4 * w - NOC_SPM_BASE) with (4 * w) by lia.
  rewrite (u32_small (4 * w)), u32_small by lia. Z.div_mod_to_equations. lia.
Qed.

Definition nb_post (id dst src words : Z) (n : noc) (r : Z) (n' : noc) : Prop :=
  match xfer_of id n with
  | Some _ => r = 0 /\ n' = n
  | None =>
      r = 1 /\ spm n' = spm n /\ xfer_of id n' = Some (mk_xfer dst src words) /\
      forall id', 0 <= id' < 2 ^ 31 -> id' <> id -> xfer_of id' n' = xfer_of id' n
  end.

Lemma dma_write_spec id wp rp size pkt n :
  0 <= id < 2 ^ 31 -> 0 <= wp < 2 ^ 14 -> 0 <= rp < 2 ^ 14 -> 0 <= size < 2 ^ 16 -> 0 <= pkt <= 3 ->
  nb_post id wp rp size n (fst (noc_dma_write id wp rp size pkt n)) (snd (noc_dma_write id wp rp size pkt n)).
Proof.
  intros Hi Hw Hr Hs Hp. unfold noc_dma_write, k_noc_dma_write, nb_post.
  change k_noc_dma_done with noc_dma_done. rewrite done_xfer.
  destruct (xfer_of id n) as [x|] eqn:E; [done|].
  rewrite (u16_small wp), (u16_small rp), (u16_small size), (u8_small pkt) by lia.
  rewrite (proj2 (Z.ltb_ge 3 pkt)) by lia. rewrite entry_word0, entry_word1 by lia. cbn [fst snd].
  split; [done|]. split; [done|]. split.
  - unfold xfer_of, w0, w1, set_tab. cbn [dma_tab]. rewrite fn_lookup_insert, fn_lookup_insert_ne by lia.
    rewrite fn_lookup_insert. destruct (fields_eq 1 size rp ltac:(lia) Hr) as (E1 & E2 & E3).
    replace (2 ^ 31 + size * 2 ^ 14 + rp) with (2 ^ 31 * 1 + 2 ^ 14 * size + rp) by lia.
    rewrite E1, E2, E3. cbn [Z.odd]. f_equal. f_equal. rewrite Z.add_comm, Z.mod_add, Z.mod_small by lia. done.
  - intros id' Hi' Hne. rewrite !(xfer_other id) by auto. done.
Qed.

Lemma nbwrite_spec `{ArgoBase} id dst src size irq n wd ws :
  0 <= id < 2 ^ 31 -> spm_word dst wd -> spm_word src ws -> 0 <= size <= 2 ^ 18 - 4 ->
  let '(r, n') := noc_nbwrite id dst src size irq n in
  if (irq =? 0) || (irq =? 1) then nb_post id wd ws ((size + 3) / 4) n r n'
  else r = 0 /\ n' = n.
Proof.
  intros Hi Hd Hs Hz. unfold noc_nbwrite. rewrite (W_addr _ _ Hd), (W_addr _ _ Hs).
  assert (W size = (size + 3) / 4) as -> by (unfold W; by rewrite u32_small by lia).
  assert (0 <= (size + 3) / 4 < 2 ^ 16) as Hw by (Z.div_mod_to_equations; lia).
  pose proof (dma_write_spec id wd ws ((size + 3) / 4)) as HP.
  destruct Hd as [_ Hd], Hs as [_ Hs].
  destruct (Z.eqb_spec irq 1) as [->|]; [|destruct (Z.eqb_spec irq 0) as [->|]].
  - specialize (HP DATA_IRQ_PKT_TYPE n Hi Hd Hs Hw ltac:(done)).
    by destruct (noc_dma_write id wd ws ((size + 3) / 4) DATA_IRQ_PKT_TYPE n).
  - specialize (HP DATA_PKT_TYPE n Hi Hd Hs Hw ltac:(done)).
    by destruct (noc_dma_write id wd ws ((size + 3) / 4) DATA_PKT_TYPE n).
  - done.
Qed.

(** Noc_nbwrite starts a transfer or does nothing.  For word-aligned
    addresses in the 64 KB of the scratchpad that the 14-bit pointers reach,
    and a size that is rounded up to words, it returns 0 and leaves the DMA
    table as it is when the previous transfer to that core is still active or
    irq_enable is neither 0 nor 1; otherwise it returns 1 and the entry of the
    core, and no other, holds the transfer with exactly these addresses and
    size. *)
Theorem noc_nbwrite_correct `{ArgoBase} id dst src size irq n wd ws :
  0 <= id < 2 ^ 31 -> spm_word dst wd -> spm_word src ws -> 0 <= size <= 2 ^ 18 - 4 ->
  let '(r, n') := noc_nbwrite id dst src size irq n in
  if (irq =? 0) || (irq =? 1) then nb_post id wd ws ((size + 3) / 4) n r n'
  else r = 0 /\ n' = n.
Proof. apply nbwrite_spec. Qed.

Lemma w0_set id v n : w0 id (set_tab (u32 (Z.shiftl id 1)) v n) = v.
Proof. apply fn_lookup_insert. Qed.
Lemma w1_set id v n : w1 id (set_tab (u32 (Z.shiftl id 1) + 1) v n) = v.
Proof. apply fn_lookup_insert. Qed.
Lemma w1_set0 id v n : w1 id (set_tab (u32 (Z.shiftl id 1)) v n) = w1 id n.
Proof. unfold w1, set_tab. cbn [dma_tab]. by rewrite fn_lookup_insert_ne by lia. Qed.

(** The network makes progress with every move. *)
Lemma hw_move_xfer id c o x : 0 <= id < 2 ^ 31 -> xfer_of id c = Some x -> 0 < x_left x ->
  x_dst x + x_left x <= 2 ^ 14 -> x_src x + x_left x <= 2 ^ 14 ->
  let '(c', o') := hw_move id c o in
  spm c' = spm c /\ dma_tab o' = dma_tab o /\ spm o' = <[x_dst x := spm c (x_src x)]> (spm o) /\
  xfer_of id c' = (if x_left x =? 1 then None else Some (mk_xfer (x_dst x + 1) (x_src x + 1) (x_left x - 1))).
Proof.
  intros Hi Hx Hl Hd Hs. unfold hw_move. rewrite Hx.
  rewrite (proj2 (Z.eqb_neq (x_left x) 0)) by lia. split; [by destruct (x_left x <=? 1)|].
  split; [done|]. split; [done|]. unfold xfer_of in Hx. destruct (Z.testbit (w1 id c) 31) eqn:Eb; [|done].
  injection Hx as <-. cbn [x_dst x_src x_left] in *.
  destruct (fields_of (w1 id c)) as (h & l & r & E & Hlr & Hr & Er & El & Eh). rewrite Er, El, Eb in *.
  destruct (Z.leb_spec l 1) as [Hle|Hgt].
  - rewrite (proj2 (Z.eqb_eq l 1)) by lia. unfold xfer_of. by rewrite w1_set.
  - rewrite (proj2 (Z.eqb_neq l 1)) by lia. unfold xfer_of. rewrite w1_set0, w1_set, w0_set.
    destruct (fields_eq h (l - 1) (r + 1) ltac:(lia) ltac:(lia)) as (F1 & F2 & F3).
    replace (w1 id c + 1 - 2 ^ 14) with (2 ^ 31 * h + 2 ^ 14 * (l - 1) + (r + 1)) by lia.
    rewrite F1, F2, F3, <- Eh. do 2 f_equal.
    pose proof (Z.mod_pos_bound (w0 id c) (2 ^ 14) ltac:(lia)).
    rewrite <- Z.add_mod_idemp_l by lia. apply Z.mod_small. lia.
Qed.

(** ** Sets of cores as sets *)

Lemma testbit_bit core i : 0 <= core < 32 -> 0 <= i < 32 -> Z.testbit (bit core) i = bool_decide (i = core).
Proof.
  intros Hc Hi. unfold bit, ELEMBITS. rewrite Z.mod_small, Z.shiftl_1_l by lia. unfold u32.
  rewrite Z.mod_small by (split; [lia|apply Z.pow_lt_mono_r; lia]). rewrite Z.pow2_bits_eqb by lia.
  destruct (Z.eqb_spec core i); case_bool_decide; congruence.
Qed.

(** The cores of a set. *)
Definition members (s : coreset_t) : gset Z := list_to_set (filter (fun i => Z.testbit s i = true) (seqZ 0 32)).
Lemma elem_of_members s i : i ∈ members s <-> 0 <= i < 32 /\ Z.testbit s i = true.
Proof. unfold members. rewrite elem_of_list_to_set, list_elem_of_filter, elem_of_seqZ. naive_solver lia. Qed.

Definition coreset_ok (s : coreset_t) : Prop := 0 <= s < 2 ^ 32.

Lemma word_bits s i : coreset_ok s -> 32 <= i -> Z.testbit s i = false.
Proof. intros Hs Hi. unfold coreset_ok in Hs. rewrite <- (u32_small s) by lia. unfold u32. by rewrite Z.mod_pow2_bits_high by lia. Qed.
Lemma word_ok s : 0 <= s -> (forall i, 32 <= i -> Z.testbit s i = false) -> coreset_ok s.
Proof.
  intros H0 Hb. split; [done|]. destruct (Z.eq_dec s 0) as [->|]; [done|].
  apply Z.log2_lt_pow2; [lia|]. apply Z.lt_nge. intros Hl. pose proof (Z.bit_log2 s ltac:(lia)) as Hx.
  rewrite Hb in Hx by done. done.
Qed.

Lemma bit_ok core : coreset_ok (bit core).
Proof. unfold coreset_ok, bit. apply u32_range. Qed.
Lemma word_zero s : coreset_ok s -> s = 0 <-> members s = ∅.
Proof.
  intros Hs. split; [intros ->; apply set_eq; intros i; rewrite elem_of_members, Z.bits_0; set_solver|].
  intros Hm. apply Z.bits_inj'. intros i Hi. rewrite Z.bits_0.
  destruct (decide (i < 32)) as [Hlt|]; [|apply word_bits; [done|lia]].
  apply not_true_is_false. intros Ht. assert (i ∈ members s) by (by apply elem_of_members). set_solver.
Qed.
Lemma add_ok core s : coreset_ok s -> coreset_ok (coreset_add core s).
Proof.
  intros Hs. apply word_ok; [apply Z.lor_nonneg; split; [apply Hs|apply bit_ok]|].
  intros i Hi. unfold coreset_add. by rewrite Z.lor_spec, !word_bits by (done || apply bit_ok).
Qed.
Lemma remove_ok core s : coreset_ok s -> coreset_ok (coreset_remove core s).
Proof.
  intros Hs. apply word_ok; [apply Z.land_nonneg; left; apply Hs|].
  intros i Hi. unfold coreset_remove. by rewrite Z.land_spec, word_bits.
Qed.
Lemma add_members core s : 0 <= core < 32 -> members (coreset_add core s) = {[core]} ∪ members s.
Proof.
  intros Hc. apply set_eq. intros i. rewrite elem_of_union, elem_of_singleton, !elem_of_members.
  unfold coreset_add. rewrite Z.lor_spec, orb_true_iff.
  split; [intros [Hi [?|Hb]]; [by right|left]|intros [->|[Hi Hb]]; [split; [done|right]|by split; [|left]]].
  - rewrite testbit_bit in Hb by done. by apply bool_decide_eq_true in Hb.
  - rewrite testbit_bit by done. by apply bool_decide_eq_true.
Qed.
Lemma remove_members core s : 0 <= core < 32 -> members (coreset_remove core s) = members s ∖ {[core]}.
Proof.
  intros Hc. apply set_eq. intros i. rewrite elem_of_difference, elem_of_singleton, !elem_of_members.
  unfold coreset_remove. rewrite Z.land_spec, andb_true_iff.
  assert (0 <= i < 32 -> Z.testbit (u32 (Z.lnot (bit core))) i = negb (bool_decide (i = core))) as Hb.
  { intros Hi. unfold u32. rewrite Z.mod_pow2_bits_low, Z.lnot_spec, testbit_bit by lia. done. }
  split.
  - intros [Hi [Hs Hx]]. rewrite Hb in Hx by done. apply negb_true_iff, bool_decide_eq_false in Hx. done.
  - intros [[Hi Hs] Hx]. rewrite Hb by done. by rewrite bool_decide_eq_false_2.
Qed.
Lemma contains_members core s : 0 <= core < 32 -> coreset_contains core s <> 0 <-> core ∈ members s.
Proof.
  intros Hc. unfold coreset_contains. rewrite elem_of_members.
  assert (bit core = 2 ^ core) as ->.
  { unfold bit, ELEMBITS. rewrite Z.mod_small, Z.shiftl_1_l by lia. apply u32_small.
    split; [lia|]. change 4294967296 with (2 ^ 32). apply Z.pow_lt_mono_r; lia. }
  assert (Z.land s (2 ^ core) = if Z.testbit s core then 2 ^ core else 0) as ->.
  { apply Z.bits_inj'. intros i Hi. rewrite Z.land_spec, Z.pow2_bits_eqb by lia.
    destruct (Z.eqb_spec core i) as [<-|]; destruct (Z.testbit s core) eqn:E;
      rewrite ?andb_true_r, ?andb_false_r, ?Z.bits_0, ?Z.pow2_bits_true, ?Z.pow2_bits_false by lia; done. }
  destruct (Z.testbit s core); [|naive_solver]. split; [done|]. intros _.
  assert (0 < 2 ^ core <= 2 ^ 31) by (split; [lia|apply Z.pow_le_mono_r; lia]).
  unfold s32, sext. rewrite Z.mod_small by lia. case_match; lia.
Qed.

(** Coreset_t implements sets of cores.  For core numbers below 32,
    adding, removing, testing for membership and for emptiness are the set
    operations on the members. *)
Theorem coreset_refines_set core s : 0 <= core < 32 -> coreset_ok s ->
  members coreset_clearall = ∅ /\
  coreset_ok (coreset_add core s) /\ members (coreset_add core s) = {[core]} ∪ members s /\
  coreset_ok (coreset_remove core s) /\ members (coreset_remove core s) = members s ∖ {[core]} /\
  (coreset_contains core s <> 0 <-> core ∈ members s) /\
  (coreset_empty s <> 0 <-> members s = ∅).
Proof.
  intros Hc Hs. split; [by apply word_zero|]. split; [by apply add_ok|]. split; [by apply add_members|].
  split; [by apply remove_ok|]. split; [by apply remove_members|]. split; [by apply contains_members|].
  rewrite <- word_zero by done. unfold coreset_empty. destruct (Z.eqb_spec s 0); cbn; naive_solver.
Qed.
Lemma coreset_refines_set_witness : members (coreset_add 31 (coreset_add 3 coreset_clearall)) = {[31]} ∪ ({[3]} ∪ ∅).
Proof.
  destruct (coreset_refines_set 3 coreset_clearall) as (E0 & Hok & E1 & _); [lia|split; done|].
  destruct (coreset_refines_set 31 (coreset_add 3 coreset_clearall)) as (_ & _ & E2 & _); [lia|exact Hok|].
  rewrite E2, E1, E0. reflexivity.
Defined.

(** A transfer of three words to core 5. *)
Lemma noc_nbwrite_correct_witness :
  let base := {| PATMOS_IO_ARGO := 0xE0000000 |} in
  let n0 := mk_noc (fun _ => 0) (fun _ => 0) in
  let '(r, n) := @noc_nbwrite base 5 0xE4000010 0xE4000020 12 0 n0 in
  r = 1 /\ xfer_of 5 n = Some (mk_xfer 4 8 3).
Proof.
  intros base n0.
  pose proof (@noc_nbwrite_correct base 5 0xE4000010 0xE4000020 12 0 n0 4 8 ltac:(lia)
    ltac:(split; [reflexivity|lia]) ltac:(split; [reflexivity|lia]) ltac:(lia)) as HN.
  destruct (@noc_nbwrite base 5 0xE4000010 0xE4000020 12 0 n0) as [r n].
  destruct HN as (Hr & _ & Hx & _). split; [exact Hr|exact Hx].
Defined.
