(* ===== verification/MemSize.v ===== *)
(** MemSize: how the library finds the size of a memory, find_mem_size of
    libnoc/noc.c and test_spm_size of libmp/utils.c.

    A memory of [words] words answers at every address: it repeats itself.
    Both functions store a pattern in word 0 and look for the power of two at
    which a store to that address shows up there. *)

From stdpp Require Import base numbers list functions.
From S2P Require Import Prelude.

Section MemSize.
Context (words : Z).

Definition rd (m : Z -> Z) (a : Z) : Z := m (a mod words).
Definition wr (m : Z -> Z) (a v : Z) : Z -> Z := <[a mod words := v]> m.

Definition PATTERN := 0xFFEEDDCC.

(** [j] iterations are left; [bad] is the value returned when word 0 changed
    to anything else. *)
Fixpoint size_loop (bad : Z) (j : nat) (i init : Z) (m : Z -> Z) : Z * (Z -> Z) :=
  match j with
  | O => (-1, wr m 0 init)
  | S j' =>
      let tmp := rd m i in
      let m := wr m i 0 in
      if rd m 0 =? 0 then (i * 4, wr (wr m i tmp) 0 init)
      else
        let i := Z.shiftl i 1 in
        if negb (rd m 0 =? PATTERN) then (bad, wr (wr m i tmp) 0 init)
        else size_loop bad j' i init (wr m i tmp)
  end.

Definition find_mem_size (m : Z -> Z) : Z * (Z -> Z) :=
  let init := rd m 0 in size_loop (-1) 28 2 init (wr m 0 PATTERN).

Definition test_spm_size (m : Z -> Z) : Z * (Z -> Z) :=
  let init := rd m 0 in size_loop (-2) 28 2 init (wr m 0 PATTERN).

End MemSize.

(** ** The size found and the words lost *)

Section Search.
Context (k : Z) (Hk : 1 <= k <= 28).
Abbreviation words := (2 ^ k).

Lemma words_pos : 0 < words.
Proof. lia. Qed.

Lemma rd_wr_wrap m a b v : rd words (wr words m b v) a = if decide (a mod words = b mod words) then v else rd words m a.
Proof.
  unfold rd, wr. destruct (decide (a mod words = b mod words)) as [->|Hne].
  - by rewrite fn_lookup_insert.
  - by rewrite fn_lookup_insert_ne.
Qed.

(** [a] is 2^x for an x from 1 below e. *)
Definition probed (e a : Z) : bool := existsb (fun x => a =? 2 ^ x) (seqZ 1 (e - 1)).
Lemma probed_spec e a : probed e a = true <-> exists x, 1 <= x < e /\ a = 2 ^ x.
Proof.
  unfold probed. rewrite existsb_exists. split.
  - intros (x & Hx & E). apply list_elem_of_In, elem_of_seqZ in Hx. exists x. lia.
  - intros (x & Hx & ->). exists x. split; [apply list_elem_of_In, elem_of_seqZ; lia|apply Z.eqb_refl].
Qed.

(** The memory before the test of address 2^e: the pattern is in word 0, the
    addresses tested before hold 0, and word 2 has moved on to 2^e. *)
Definition searching (m0 : Z -> Z) (e : Z) (m : Z -> Z) : Prop :=
  (forall a, 0 < a < words -> rd words m a =
     if probed e a then 0 else if decide (a = 2 ^ e) then rd words m0 2 else rd words m0 a) /\
  (e < k -> rd words m 0 = PATTERN).

Definition found (m0 : Z -> Z) (m : Z -> Z) : Prop :=
  forall a, 0 <= a < words -> rd words m a = if probed k a then 0 else rd words m0 a.

Lemma probed_succ e a : 1 <= e -> probed (e + 1) a = probed e a || (a =? 2 ^ e).
Proof.
  intros He. apply eq_true_iff_eq. rewrite orb_true_iff, !probed_spec, Z.eqb_eq. split.
  - intros (x & Hx & ->). destruct (decide (x = e)) as [->|]; [by right|left]. exists x. split; [lia|done].
  - intros [(x & Hx & ->)| ->]; [exists x|exists e]; (split; [lia|done]).
Qed.
Lemma probed_range e a : probed e a = true -> 0 < a < 2 ^ e.
Proof. intros (x & Hx & ->)%probed_spec. split; [lia|]. apply Z.pow_lt_mono_r; lia. Qed.

Lemma pow_mod e : 1 <= e <= k -> 2 ^ e mod words = if decide (e = k) then 0 else 2 ^ e.
Proof.
  intros He. destruct (decide (e = k)) as [->|]; [apply Z.mod_same; lia|].
  apply Z.mod_small. split; [lia|]. apply Z.pow_lt_mono_r; lia.
Qed.

(** An address that is not the size yet. *)
Lemma search_step m0 e m bad j init : 1 <= e < k -> searching m0 e m ->
  let m' := wr words (wr words m (2 ^ e) 0) (2 ^ (e + 1)) (rd words m0 2) in
  size_loop words bad (S j) (2 ^ e) init m = size_loop words bad j (2 ^ (e + 1)) init m' /\ searching m0 (e + 1) m'.
Proof.
  intros He [Hm Hp] m'. assert (2 ^ e < words) as Hlt by (apply Z.pow_lt_mono_r; lia).
  assert (1 < 2 ^ e) as He1 by (apply Z.pow_gt_1; lia).
  assert (rd words m (2 ^ e) = rd words m0 2) as Htmp.
  { rewrite Hm by lia. rewrite decide_True by done.
    destruct (probed e (2 ^ e)) eqn:E; [|done]. apply probed_range in E. lia. }
  assert (rd words (wr words m (2 ^ e) 0) 0 = PATTERN) as Hpat.
  { rewrite rd_wr_wrap, Z.mod_0_l, Z.mod_small by lia. rewrite decide_False by lia. apply Hp. lia. }
  split.
  - cbn [size_loop]. rewrite Htmp, Hpat. change (PATTERN =? 0) with false. change (PATTERN =? PATTERN) with true.
    cbn [negb]. replace (Z.shiftl (2 ^ e) 1) with (2 ^ (e + 1)); [done|].
    rewrite Z.shiftl_mul_pow2, Z.pow_add_r by lia. done.
  - assert (0 < 2 ^ (e + 1)) as Hpos by lia. split.
    + intros a Ha. subst m'. rewrite !rd_wr_wrap, (Z.mod_small a), (Z.mod_small (2 ^ e)), Hm, probed_succ, (pow_mod (e + 1)) by lia.
      assert (probed e a = true -> a < 2 ^ e) as Hpr by (intros Hx; apply probed_range in Hx; lia).
      assert (2 ^ (e + 1) = 2 * 2 ^ e) as H2 by (rewrite Z.add_comm; apply Z.pow_add_r; lia).
      assert (e + 1 = k -> a < 2 ^ (e + 1)) as Hend by (intros ->; lia).
      repeat case_decide; destruct (probed e a); cbn; try (specialize (Hpr eq_refl)); zdec; try lia; done.
    + intros Hlt'. subst m'. rewrite rd_wr_wrap, Hpat, (pow_mod (e + 1)), Z.mod_0_l by lia.
      repeat case_decide; lia || done.
Qed.

(** The address that is the size. *)
Lemma search_end m0 m bad j : searching m0 k m ->
  let '(r, m') := size_loop words bad (S j) (2 ^ k) (rd words m0 0) m in r = 4 * words /\ found m0 m'.
Proof.
  intros [Hm _]. cbn [size_loop]. assert (rd words (wr words m (2 ^ k) 0) 0 = 0) as ->.
  { rewrite rd_wr_wrap, Z.mod_same, Z.mod_0_l by lia. by rewrite decide_True. }
  change (0 =? 0) with true. cbn [Z.eqb]. split; [lia|]. intros a Ha. rewrite !rd_wr_wrap, Z.mod_same, Z.mod_0_l by lia.
  rewrite (Z.mod_small a) by lia. case_decide as Ea.
  - subst a. destruct (probed k 0) eqn:E; [|done]. apply probed_range in E. lia.
  - rewrite Hm by lia. destruct (probed k a); [done|]. rewrite decide_False by lia. done.
Qed.

Lemma search_from m0 bad : forall n e m, 1 <= e <= k -> k - e < Z.of_nat n -> searching m0 e m ->
  let '(r, m') := size_loop words bad n (2 ^ e) (rd words m0 0) m in r = 4 * words /\ found m0 m'.
Proof.
  induction n as [|n IH]; intros e m He Hn Hs; [lia|].
  destruct (decide (e = k)) as [->|]; [by apply search_end|].
  destruct (search_step m0 e m bad n (rd words m0 0)) as [-> Hs']; [lia|done|]. apply IH; [lia|lia|done].
Qed.

Lemma search_start m0 : searching m0 1 (wr words m0 0 PATTERN).
Proof.
  split.
  - intros a Ha. rewrite rd_wr_wrap, Z.mod_0_l, (Z.mod_small a) by lia. rewrite decide_False by lia.
    change (probed 1 a) with false. cbv iota. by case_decide as E; [rewrite E|].
  - intros _. rewrite rd_wr_wrap. by rewrite decide_True.
Qed.

(** Both functions return the size of the memory in bytes, for every
    memory of 2^k words with k from 1 to 28.  They restore word 0 and most
    others, but not the words at 2, 4, 8, ... below the size, which they leave
    at 0. *)
Theorem mem_size_found m0 :
  (let '(r, m) := find_mem_size words m0 in r = 4 * words /\ found m0 m) /\
  (let '(r, m) := test_spm_size words m0 in r = 4 * words /\ found m0 m).
Proof.
  split; apply (search_from m0 _ 28 1); (lia || apply search_start).
Qed.

End Search.

Lemma mem_size_found_witness :
  fst (test_spm_size (2 ^ 4) (fun a => a + 5)) = 64 /\
  rd (2 ^ 4) (snd (test_spm_size (2 ^ 4) (fun a => a + 5))) 2 = 0.
Proof.
  destruct (mem_size_found 4 ltac:(lia) (fun a => a + 5)) as [_ Ht].
  destruct (test_spm_size (2 ^ 4) (fun a => a + 5)) as [r m]. destruct Ht as [-> Hf].
  split; [reflexivity|]. exact (Hf 2 ltac:(lia)).
Defined.
