(* ===== verification/Queuing.v ===== *)
(** Queuing: the queuing ports of libmp/queuing.c.

    - [qpd_t] is the port descriptor; the fields of the source and of the sink
      are kept side by side.  Addresses are byte addresses.
    - Each operation gets the descriptor and what the core sees of the network
      ([Noc.noc]) and returns its result with both.
    - The operations with a timeout poll: [env] adds the cycle counter, [tick] is what
      happens before each access to it, and fuel bounds the polls. *)

From stdpp Require Import base numbers list functions.
From S2P Require Import Prelude Noc.

Definition FLAG_SIZE := 4.
Definition FLAG_VALID := 0xFFFFFFFF.
Definition FLAG_INVALID := 0.
Definition NUM_WRITE_BUF := 2.
Definition MAX_CHANNELS := 256.
(** WALIGN: rounds up to words. *)
Definition WALIGN (x : Z) : Z := Z.land (u32 (x + 3)) (u32 (Z.lnot 3)).

Inductive direction_t := SOURCE | SINK.

Record qpd_t := mk_qpd {
  direction_type : direction_t;
  remote : Z;
  recv_addr : Z;
  send_recv_count : Z;
  buf_size : Z;
  num_buf : Z;
  write_buf : Z;
  shadow_write_buf : Z;
  send_count : Z;
  send_ptr : Z;
  read_buf : Z;
  recv_count : Z;
  recv_ptr : Z;
}.

Section Ops.
Context `{ArgoBase}.

(** The sender's part of the descriptor after a message. *)
Definition sent_msg (q : qpd_t) : qpd_t :=
  mk_qpd (direction_type q) (remote q) (recv_addr q) (send_recv_count q) (buf_size q) (num_buf q)
    (shadow_write_buf q) (write_buf q) (u32 (send_count q + 1))
    (if send_ptr q =? u32 (num_buf q - 1) then 0 else u32 (send_ptr q + 1))
    (read_buf q) (recv_count q) (recv_ptr q).

Definition mp_nbsend (q : qpd_t) (n : noc) : Z * qpd_t * noc :=
  let rmt_addr_offset := u32 ((buf_size q + FLAG_SIZE) * send_ptr q) in
  let calc_rmt_addr := u32 (recv_addr q + rmt_addr_offset) in
  let n := stw (write_buf q + buf_size q) FLAG_VALID n in
  if u32 (send_count q - ldw (send_recv_count q) n) =? num_buf q then (0, q, n)
  else
    let '(r, n) := noc_nbwrite (remote q) calc_rmt_addr (write_buf q) (u32 (buf_size q + FLAG_SIZE)) 1 n in
    if r =? 0 then (0, q, n) else (1, sent_msg q, n).

(** The receiver's part of the descriptor after a message at [buf]. *)
Definition got_msg (q : qpd_t) (buf : Z) : qpd_t :=
  mk_qpd (direction_type q) (remote q) (recv_addr q) (send_recv_count q) (buf_size q) (num_buf q)
    (write_buf q) (shadow_write_buf q) (send_count q) (send_ptr q)
    buf (recv_count q) (if recv_ptr q =? u32 (num_buf q - 1) then 0 else u32 (recv_ptr q + 1)).

Definition mp_nbrecv (q : qpd_t) (n : noc) : Z * qpd_t * noc :=
  let locl_addr_offset := u32 ((buf_size q + FLAG_SIZE) * recv_ptr q) in
  let calc_locl_addr := u32 (recv_addr q + locl_addr_offset) in
  let recv_flag := calc_locl_addr + buf_size q in
  if ldw recv_flag n =? FLAG_INVALID then (0, q, n)
  else (1, got_msg q calc_locl_addr, stw recv_flag FLAG_INVALID n).

(** sizeof(qpd_ptr->send_recv_count): the size of a pointer. *)
Definition PTR_SIZE := 4.

Definition mp_nback (q : qpd_t) (n : noc) : Z * noc :=
  if noc_dma_done (remote q) n =? 0 then (0, n)
  else
    let n := stw (recv_count q) (u32 (ldw (recv_count q) n + 1)) n in
    let '(success, n) := noc_nbwrite (remote q) (send_recv_count q) (recv_count q) PTR_SIZE 1 n in
    if success =? 0 then (success, stw (recv_count q) (u32 (ldw (recv_count q) n - 1)) n)
    else (success, n).

(** ** Operations with a timeout *)

Record env := mk_env { e_noc : noc; e_cycles : Z }.
Definition upd_noc {A} (f : noc -> A * noc) (e : env) : A * env :=
  let '(a, n) := f (e_noc e) in (a, mk_env n (e_cycles e)).

Section Timeout.
(** What the network and the clock do before an access, and the cycles of a
    microsecond. *)
Context (tick : env -> env) (mhz : Z).

Definition get_cpu_usecs (e : env) : Z * env := let e := tick e in (e_cycles e / mhz, e).

(** while (retval == 0 && (time_cycles == 0 || get_cpu_usecs() < timeout))
    retval = op(); with the state [S] that [op] works on. *)
Fixpoint poll {S : Type} (fuel : nat) (time_cycles timeout : Z) (op : S -> env -> Z * S * env) (s : S) (e : env)
    : option (Z * S * env) :=
  match fuel with
  | O => None
  | Datatypes.S fuel' =>
      let '(go, e) := if time_cycles =? 0 then (true, tick e)
                      else let '(t, e) := get_cpu_usecs e in (t <? timeout, e) in
      if go : bool then
        let '(retval, s, e) := op s e in
        if retval =? 0 then poll fuel' time_cycles timeout op s e else Some (retval, s, e)
      else Some (0, s, e)
  end.

Definition mp_send (fuel : nat) (q : qpd_t) (time_cycles : Z) (e : env) : option (Z * qpd_t * env) :=
  let '(t, e) := get_cpu_usecs e in
  poll fuel time_cycles (u64 (t + time_cycles))
    (fun q e => let '(r, q, n) := mp_nbsend q (e_noc e) in (r, q, mk_env n (e_cycles e))) q e.

Definition mp_recv (fuel : nat) (q : qpd_t) (time_cycles : Z) (e : env) : option (Z * qpd_t * env) :=
  let '(t, e) := get_cpu_usecs e in
  poll fuel time_cycles (u64 (t + time_cycles))
    (fun q e => let '(r, q, n) := mp_nbrecv q (e_noc e) in (r, q, mk_env n (e_cycles e))) q e.

Definition mp_ack_n (fuel : nat) (q : qpd_t) (time_cycles num_acks : Z) (e : env) : option (Z * env) :=
  let '(t, e) := get_cpu_usecs e in
  let timeout := u64 (t + time_cycles) in
  match poll fuel time_cycles timeout (fun _ e => (noc_dma_done (remote q) (e_noc e), tt, e)) tt e with
  | None => None
  | Some (retval, _, e) =>
      if retval =? 0 then Some (retval, e)
      else
        let n := e_noc e in
        let e := mk_env (stw (recv_count q) (u32 (ldw (recv_count q) n + num_acks)) n) (e_cycles e) in
        match poll fuel time_cycles timeout
                (fun _ e => let '(r, e) := upd_noc (noc_nbwrite (remote q) (send_recv_count q) (recv_count q)
                                                      PTR_SIZE 1) e in (r, tt, e)) tt e with
        | None => None
        | Some (retval, _, e) =>
            if retval =? 0 then
              let n := e_noc e in
              Some (retval, mk_env (stw (recv_count q) (u32 (ldw (recv_count q) n - num_acks)) n) (e_cycles e))
            else Some (retval, e)
        end
  end.

Definition mp_ack (fuel : nat) (q : qpd_t) (time_cycles : Z) (e : env) : option (Z * env) :=
  mp_ack_n fuel q time_cycles 1 e.

End Timeout.

(** ** The operations with a timeout return *)

Section Clock.
Context (tick : env -> env) (mhz : Z).
(** The cycle counter moves on between two accesses. *)
Context (Hmhz : 0 < mhz) (Htick : forall e, e_cycles e < e_cycles (tick e)).

Definition timed_out (timeout : Z) (e : env) : Prop := timeout <= e_cycles e / mhz.

Lemma poll_returns {S : Type} (op : S -> env -> Z * S * env) time_usecs timeout :
  time_usecs <> 0 -> (forall s e, e_cycles (snd (op s e)) = e_cycles e) ->
  forall fuel s e, (0 < fuel)%nat -> mhz * timeout <= e_cycles e + Z.of_nat fuel ->
  exists r s' e', poll tick mhz fuel time_usecs timeout op s e = Some (r, s', e') /\ e_cycles e <= e_cycles e' /\
    (r = 0 -> timed_out timeout e').
Proof.
  intros Ht Hop. induction fuel as [|fuel IH]; intros s e H0 Hf; [lia|]. cbn [poll].
  rewrite (proj2 (Z.eqb_neq time_usecs 0)) by done. cbn [get_cpu_usecs]. pose proof (Htick e) as Hlt.
  destruct (Z.ltb_spec (e_cycles (tick e) / mhz) timeout) as [Hgo|Hend].
  - pose proof (Hop s (tick e)) as Hc. destruct (op s (tick e)) as [[r s1] e1]. cbn in Hc.
    destruct (Z.eqb_spec r 0) as [->|Hr]; [|exists r, s1, e1; split; [done|]; split; [lia|done]].
    assert (e_cycles e1 < mhz * timeout) as Hdl.
    { rewrite Hc. pose proof (Z.div_mod (e_cycles (tick e)) mhz ltac:(lia)).
      pose proof (Z.mod_pos_bound (e_cycles (tick e)) mhz Hmhz). nia. }
    destruct (IH s1 e1 ltac:(lia) ltac:(lia)) as (r & s' & e' & -> & Hle & Ho). exists r, s', e'.
    split; [done|]. split; [lia|done].
  - exists 0, s, (tick e). split; [done|]. split; [lia|done].
Qed.

(** The deadline of a call at [e], and polls that suffice to reach it. *)
Definition deadline (time_usecs : Z) (e : env) : Z := e_cycles (tick e) / mhz + time_usecs.
Definition enough (fuel : nat) (time_usecs : Z) : Prop := mhz * time_usecs < Z.of_nat fuel.

Lemma enough_polls fuel time_usecs e : 0 < time_usecs -> enough fuel time_usecs ->
  (0 < fuel)%nat /\ mhz * deadline time_usecs e <= e_cycles (tick e) + Z.of_nat fuel.
Proof.
  intros Ht Hf. unfold enough, deadline in *. pose proof (Z.mul_div_le (e_cycles (tick e)) mhz Hmhz).
  split; [nia|]. rewrite Z.mul_add_distr_l. lia.
Qed.

Lemma op_returns {S : Type} (op : S -> env -> Z * S * env) fuel (q : S) time_usecs e :
  0 < time_usecs -> enough fuel time_usecs -> 0 <= deadline time_usecs e < 2 ^ 64 ->
  (forall s e, e_cycles (snd (op s e)) = e_cycles e) -> exists r q' e',
  (let '(t, e) := get_cpu_usecs tick mhz e in poll tick mhz fuel time_usecs (u64 (t + time_usecs)) op q e) = Some (r, q', e') /\
  (r = 0 -> timed_out (deadline time_usecs e) e').
Proof.
  intros Ht Hf Hd Hop. destruct (enough_polls fuel time_usecs e Ht Hf) as [H0 Hle]. cbn [get_cpu_usecs].
  fold (deadline time_usecs e). rewrite u64_small by lia.
  destruct (poll_returns op time_usecs (deadline time_usecs e) ltac:(lia) Hop fuel q (tick e) H0 Hle)
    as (r & q' & e' & -> & _ & Ho). eauto.
Qed.

Lemma ack_returns fuel q time_usecs num_acks e : 0 < time_usecs -> enough fuel time_usecs ->
  0 <= deadline time_usecs e < 2 ^ 64 -> exists r e', mp_ack_n tick mhz fuel q time_usecs num_acks e = Some (r, e') /\
    (r = 0 -> timed_out (deadline time_usecs e) e').
Proof.
  intros Ht Hf Hd. destruct (enough_polls fuel time_usecs e Ht Hf) as [H0 Hle].
  unfold mp_ack_n. cbn [get_cpu_usecs]. fold (deadline time_usecs e). rewrite u64_small by lia.
  match goal with |- context [poll tick mhz fuel _ _ ?op tt (tick e)] =>
    destruct (poll_returns op time_usecs (deadline time_usecs e) ltac:(lia) ltac:(done) fuel tt (tick e) H0 Hle)
      as (r & [] & e1 & -> & Hc & Ho) end.
  destruct (Z.eqb_spec r 0) as [->|Hr]; [eauto|].
  match goal with |- context [poll tick mhz fuel _ _ ?op tt ?e2] =>
    destruct (poll_returns op time_usecs (deadline time_usecs e) ltac:(lia)
      ltac:(intros ? ?; unfold upd_noc; by destruct (noc_nbwrite _ _ _ _ _ _)) fuel tt e2 H0 ltac:(cbn; lia))
      as (r2 & [] & e3 & -> & Hc2 & Ho2) end.
  destruct (Z.eqb_spec r2 0) as [->|Hr2]; [|eauto]. eexists _, _. split; [reflexivity|]. exact Ho2.
Qed.
End Clock.

(** C36: the operations with a timeout return.  Where the cycle counter moves
    on with every access, mp_send, mp_recv and mp_ack_n with a non-zero time
    return after at most as many polls as the time has cycles, and they return 0
    only when the time is over. *)
Theorem queuing_timeouts_return (tick : env -> env) mhz fuel q time_usecs num_acks e :
  0 < mhz -> (forall e, e_cycles e < e_cycles (tick e)) -> 0 < time_usecs < 2 ^ 32 ->
  mhz * time_usecs < Z.of_nat fuel -> 0 <= e_cycles (tick e) / mhz < 2 ^ 64 - 2 ^ 32 ->
  let late r e' := r = 0 -> e_cycles (tick e) / mhz + time_usecs <= e_cycles e' / mhz in
  (exists r q' e', mp_send tick mhz fuel q time_usecs e = Some (r, q', e') /\ late r e') /\
  (exists r q' e', mp_recv tick mhz fuel q time_usecs e = Some (r, q', e') /\ late r e') /\
  (exists r e', mp_ack_n tick mhz fuel q time_usecs num_acks e = Some (r, e') /\ late r e').
Proof.
  intros Hm Htk Ht Hf Hc late.
  assert (0 <= deadline tick mhz time_usecs e < 2 ^ 64) as Hd by (unfold deadline; lia). split; [|split].
  - apply (op_returns tick mhz Hm Htk); [lia|done|done|]. intros q1 e1. by destruct (mp_nbsend q1 (e_noc e1)) as [[? ?] ?].
  - apply (op_returns tick mhz Hm Htk); [lia|done|done|]. intros q1 e1. by destruct (mp_nbrecv q1 (e_noc e1)) as [[? ?] ?].
  - apply (ack_returns tick mhz); (done || lia).
Qed.
End Ops.

(** A port whose receive buffers are full: mp_send gives up after 10
    microseconds. *)
Lemma queuing_timeouts_return_witness : exists q' e',
  @mp_send {| PATMOS_IO_ARGO := 0xE0000000 |} (fun e => mk_env (e_noc e) (e_cycles e + 7)) 80 801
    (mk_qpd SOURCE 1 0xE4000000 0xE4000010 4 1 0xE4000000 0xE4000008 1 0 0 0 0) 10
    (mk_env (mk_noc (fun _ => 0) (fun _ => 0)) 0) = Some (0, q', e') /\ 10 <= e_cycles e' / 80.
Proof.
  destruct (@queuing_timeouts_return {| PATMOS_IO_ARGO := 0xE0000000 |} (fun e => mk_env (e_noc e) (e_cycles e + 7)) 80 801
    (mk_qpd SOURCE 1 0xE4000000 0xE4000010 4 1 0xE4000000 0xE4000008 1 0 0 0 0) 10 1
    (mk_env (mk_noc (fun _ => 0) (fun _ => 0)) 0)) as [(r & q' & e' & E & Ho) _];
    [lia|intros e; cbn; lia|lia|lia|vm_compute; split; congruence|].
  assert (r = 0) as ->. { vm_compute in E. congruence. }
  exists q', e'. split; [exact E|]. cbn in Ho. apply Ho. reflexivity.
Defined.
