(* ===== verification/QueueFifo.v ===== *)
(** QueueFifo: a queuing channel between two cores, libmp/queuing.c over
    libnoc.

    - [qsys] is the source port and its core, the sink port and its core, and
      three values that only the specification uses: the messages sent, and
      how many were received and acknowledged.
    - [qstep] are the events: the application fills the write buffer, calls
      mp_nbsend, mp_nbrecv or mp_nback, and the network moves one word in one
      of the directions.  The application acknowledges only what it received.
    - [qinv] is the invariant; the channel is a bounded FIFO queue. *)

From stdpp Require Import base numbers list functions.
From S2P Require Import Prelude Noc Queuing.

Record qsys := mk_qsys {
  qs : qpd_t; ns : noc;
  qr : qpd_t; nr : noc;
  sent : list (list Z);
  nrecv : Z;
  nack : Z;
}.

Inductive event := Fill (i v : Z) | Send | Recv | Ack | MoveData | MoveAck.

Section Channel.
Context `{ArgoBase}.
(** The cores of source and sink; word addresses of the write buffers at the
    source and of the receive buffers at the sink; words of a message, and
    number of receive buffers. *)
Context (cs cr A R b nb : Z).

Definition stride : Z := b + 1.
(** send_recv_count at the source, recv_count at the sink. *)
Definition Cs : Z := A + 2 * stride.
Definition Cr : Z := R + stride * nb.
(** The receive buffer of message [i]. *)
Definition buf (i : Z) : Z := R + stride * (i mod nb).

(** The [b] words at word address [w]. *)
Definition words_at (n : noc) (w : Z) : list Z := map (fun i => spm n (w + i)) (seqZ 0 b).

Definition qstep (ev : event) (s : qsys) : qsys :=
  match ev with
  | Fill i v =>
      if (0 <=? i) && (i <? b) then
        mk_qsys (qs s) (stw (write_buf (qs s) + 4 * i) v (ns s)) (qr s) (nr s) (sent s) (nrecv s) (nack s)
      else s
  | Send =>
      let msg := words_at (ns s) ((write_buf (qs s) - NOC_SPM_BASE) / 4) in
      let '(r, q, n) := mp_nbsend (qs s) (ns s) in
      mk_qsys q n (qr s) (nr s) (if r =? 0 then sent s else sent s ++ [msg]) (nrecv s) (nack s)
  | Recv =>
      let '(r, q, n) := mp_nbrecv (qr s) (nr s) in
      mk_qsys (qs s) (ns s) q n (sent s) (nrecv s + r) (nack s)
  | Ack =>
      if nack s <? nrecv s then
        let '(r, n) := mp_nback (qr s) (nr s) in
        mk_qsys (qs s) (ns s) (qr s) n (sent s) (nrecv s) (nack s + r)
      else s
  | MoveData =>
      let '(n1, n2) := hw_move cr (ns s) (nr s) in
      mk_qsys (qs s) n1 (qr s) n2 (sent s) (nrecv s) (nack s)
  | MoveAck =>
      let '(n2, n1) := hw_move cs (nr s) (ns s) in
      mk_qsys (qs s) n1 (qr s) n2 (sent s) (nrecv s) (nack s)
  end.

(** The ports after [S] messages sent and [N] received; the write buffers swap
    with every message.  Fields of the other direction are those of [q]. *)
Definition src_port (wb sb S : Z) (q : qpd_t) : qpd_t :=
  mk_qpd SOURCE cr (adr R) (adr Cs) (4 * b) nb (adr wb) (adr sb) (u32 S) (S mod nb)
    (read_buf q) (recv_count q) (recv_ptr q).
Definition snk_port (N : Z) (q : qpd_t) : qpd_t :=
  mk_qpd SINK cs (adr R) (adr Cs) (4 * b) nb (write_buf q) (shadow_write_buf q) (send_count q) (send_ptr q)
    (read_buf q) (adr Cr) (N mod nb).

(** A channel whose ports were created and connected. *)
Record chan_init (s : qsys) : Prop := {
  init_qs : qs s = src_port A (A + stride) 0 (qs s);
  init_qr : qr s = snk_port 0 (qr s);
  init_sent : sent s = [] /\ nrecv s = 0 /\ nack s = 0;
  init_counts : spm (ns s) Cs = 0 /\ spm (nr s) Cr = 0;
  init_flags : forall j, 0 <= j < nb -> spm (nr s) (R + stride * j + b) = FLAG_INVALID;
  init_idle : xfer_of cr (ns s) = None /\ xfer_of cs (nr s) = None;
}.

Inductive qreach (s0 : qsys) : qsys -> Prop :=
| qreach_start : qreach s0 s0
| qreach_step ev s : qreach s0 s -> qreach s0 (qstep ev s).

(** Word [w] of message [i]. *)
Definition msg (s : qsys) (i w : Z) : Z := at_ (nth (Z.to_nat i) (sent s) []) w.
Definition nsent (s : qsys) : Z := Z.of_nat (length (sent s)).

(** ** Invariant *)

(** The sender's view [k] of the acknowledgements, and the number [d] of
    messages that arrived completely. *)
Record qinv (s : qsys) (k d : Z) : Prop := {
  i_qs : exists wb sb, qs s = src_port wb sb (nsent s) (qs s) /\
    (wb = A /\ sb = A + stride \/ wb = A + stride /\ sb = A) /\
    (xfer_of cr (ns s) = None /\ d = nsent s \/
     exists p, 0 <= p <= b /\ d + 1 = nsent s /\
       xfer_of cr (ns s) = Some (mk_xfer (buf d + p) (sb + p) (stride - p)) /\
       (forall w, 0 <= w < p -> spm (nr s) (buf d + w) = msg s d w) /\
       (forall w, 0 <= w < b -> spm (ns s) (sb + w) = msg s d w) /\
       spm (ns s) (sb + b) = FLAG_VALID);
  i_qr : qr s = snk_port (nrecv s) (qr s);
  i_order : 0 <= k <= nack s /\ nack s <= nrecv s <= d /\ d <= nsent s /\ nsent s <= k + nb;
  i_ack : spm (ns s) Cs = u32 k /\ spm (nr s) Cr = u32 (nack s) /\
    (xfer_of cs (nr s) = None /\ k = nack s \/ xfer_of cs (nr s) = Some (mk_xfer Cs Cr 1));
  i_data : forall i w, k <= i < d -> 0 <= w < b -> spm (nr s) (buf i + w) = msg s i w;
  i_valid : forall i, nrecv s <= i < d -> spm (nr s) (buf i + b) = FLAG_VALID;
  i_invalid : forall j, 0 <= j < nb -> (forall i, nrecv s <= i < d -> i mod nb <> j) ->
    spm (nr s) (R + stride * j + b) = FLAG_INVALID;
}.

(** The channel fits in the scratchpads. *)
Record chan_ok : Prop := {
  ok_base : 0 <= NOC_SPM_BASE /\ NOC_SPM_BASE + 2 ^ 16 <= 2 ^ 32;
  ok_ids : 0 <= cs < 2 ^ 31 /\ 0 <= cr < 2 ^ 31;
  ok_b : 0 <= b;
  ok_nb : 0 < nb;
  ok_src : 0 <= A /\ Cs < 2 ^ 14;
  ok_snk : 0 <= R /\ Cr < 2 ^ 14;
}.

Context (Hok : chan_ok).

Lemma stride_pos : 0 < stride /\ stride = b + 1.
Proof. destruct Hok. unfold stride. lia. Qed.
Lemma nb_small : 0 < nb < 2 ^ 14.
Proof. destruct Hok as [_ _ Hb Hnb _ Hr]. unfold Cr, stride in Hr. nia. Qed.

(** Receive buffers: disjoint and below the counter. *)
Lemma slot_range i : 0 <= i mod nb < nb.
Proof. apply Z.mod_pos_bound. apply nb_small. Qed.
Lemma buf_range i : R <= buf i /\ buf i + stride <= Cr.
Proof. pose proof (slot_range i). pose proof stride_pos. unfold buf, Cr. nia. Qed.
Lemma slot_inj i j : - nb < i - j < nb -> i mod nb = j mod nb -> i = j.
Proof.
  intros Hd E. pose proof nb_small. pose proof (Z.div_mod i nb ltac:(lia)). pose proof (Z.div_mod j nb ltac:(lia)).
  assert (i / nb = j / nb) by nia. nia.
Qed.
Lemma buf_eq j j' w w' : 0 <= w < stride -> 0 <= w' < stride ->
  R + stride * j + w = R + stride * j' + w' -> j = j' /\ w = w'.
Proof.
  intros Hw Hw' E. apply (Z.div_mod_unique stride); lia.
Qed.

Lemma dest_adr i : u32 (adr R + u32 ((4 * b + FLAG_SIZE) * (i mod nb))) = adr (buf i).
Proof.
  pose proof (slot_range i). pose proof stride_pos. pose proof (buf_range i) as Hb. destruct Hok as [Hbase _ _ _ _ Hr].
  assert ((4 * b + FLAG_SIZE) * (i mod nb) = 4 * (buf i - R)) as -> by (unfold buf, FLAG_SIZE; nia).
  rewrite (u32_small (4 * (buf i - R))) by lia. rewrite u32_small; unfold adr; lia.
Qed.

Lemma next_slot i : 0 <= i ->
  (if i mod nb =? u32 (nb - 1) then 0 else u32 (i mod nb + 1)) = (i + 1) mod nb.
Proof.
  intros Hi. pose proof (slot_range i). pose proof nb_small. rewrite (u32_small (nb - 1)) by lia.
  destruct (Z.eqb_spec (i mod nb) (nb - 1)) as [E|E].
  - apply (Z.mod_unique_pos _ _ (i / nb + 1)); [lia|]. pose proof (Z.div_mod i nb ltac:(lia)). nia.
  - rewrite u32_small by lia. apply (Z.mod_unique_pos _ _ (i / nb)); [lia|].
    pose proof (Z.div_mod i nb ltac:(lia)). nia.
Qed.

Lemma nsent_app s m : nsent (mk_qsys (qs s) (ns s) (qr s) (nr s) (sent s ++ [m]) (nrecv s) (nack s)) = nsent s + 1.
Proof. unfold nsent. cbn. rewrite length_app. cbn. lia. Qed.

(** A word of the source outside what the channel reads there. *)
Lemma inv_fill s k d w v : qinv s k d -> w <> Cs ->
  (forall wb sb, write_buf (qs s) = adr wb -> shadow_write_buf (qs s) = adr sb ->
     (wb = A /\ sb = A + stride \/ wb = A + stride /\ sb = A) -> w < sb \/ sb + stride <= w) ->
  qinv (mk_qsys (qs s) (mk_noc (<[w := v]> (spm (ns s))) (dma_tab (ns s))) (qr s) (nr s) (sent s) (nrecv s) (nack s)) k d.
Proof.
  intros [(wb & sb & Eq & Hwb & Hx) Iqr Iord Iack Id Iv Ii] Hc Hw. pose proof stride_pos as [_ Hst].
  assert (w < sb \/ sb + stride <= w) as Hout by (eapply Hw; [by rewrite Eq|by rewrite Eq|done]).
  constructor; cbn; try done.
  - exists wb, sb. split; [done|]. split; [done|]. destruct Hx as [Hx|(p & Hp & Hd & Hx & Hr & Hs & Hf)]; [by left|right].
    exists p. split; [done|]. split; [done|]. split; [done|]. split; [done|]. split.
    + intros x Hxw. rewrite fn_lookup_insert_ne by lia. by apply Hs.
    + rewrite fn_lookup_insert_ne by lia. done.
  - rewrite fn_lookup_insert_ne by done. done.
Qed.

Lemma u32_diff x y : 0 <= x - y < 2 ^ 32 -> u32 (u32 x - u32 y) = x - y.
Proof. intros Hd. unfold u32. rewrite <- Zminus_mod. by apply Z.mod_small. Qed.
Lemma u32_succ x : u32 (u32 x + 1) = u32 (x + 1).
Proof. by rewrite u32_add_l. Qed.

Lemma size_words : (u32 (4 * b + FLAG_SIZE) + 3) / 4 = stride /\ 0 <= u32 (4 * b + FLAG_SIZE) <= 2 ^ 18 - 4.
Proof.
  pose proof stride_pos. destruct Hok as [_ _ Hb _ Hs _]. unfold Cs, FLAG_SIZE in *. rewrite u32_small by lia.
  split; [|lia]. replace (4 * b + 4 + 3) with (3 + stride * 4) by lia. rewrite Z.div_add by lia. done.
Qed.

Lemma nth_snoc (l : list (list Z)) m i : 0 <= i -> i < Z.of_nat (length l) ->
  nth (Z.to_nat i) (l ++ [m]) [] = nth (Z.to_nat i) l [].
Proof. intros Hi Hl. apply app_nth1. lia. Qed.
Lemma nth_snoc_last (l : list (list Z)) m : nth (Z.to_nat (Z.of_nat (length l))) (l ++ [m]) [] = m.
Proof. rewrite Nat2Z.id, app_nth2 by lia. by rewrite Nat.sub_diag. Qed.
Lemma words_at_nth n w i : 0 <= i < b -> at_ (words_at n w) i = spm n (w + i).
Proof.
  intros Hi. unfold at_, words_at. rewrite (nth_indep _ 0 (spm n (w + 0))) by (rewrite length_map, length_seqZ; lia).
  rewrite (map_nth (fun i => spm n (w + i))). f_equal. f_equal.
  rewrite nth_lookup, lookup_seqZ_lt by lia. cbn. lia.
Qed.

(** A message that is handed to the network. *)
Lemma inv_sent s k d wb sb n' :
  qinv s k d -> qs s = src_port wb sb (nsent s) (qs s) ->
  (wb = A /\ sb = A + stride \/ wb = A + stride /\ sb = A) ->
  nsent s < k + nb -> d = nsent s ->
  spm n' = spm (ns s) -> xfer_of cr n' = Some (mk_xfer (buf (nsent s)) wb stride) ->
  spm (ns s) (wb + b) = FLAG_VALID ->
  qinv (mk_qsys (sent_msg (qs s)) n' (qr s) (nr s) (sent s ++ [words_at (ns s) wb]) (nrecv s) (nack s)) k d.
Proof.
  intros [_ Iqr Iord Iack Id Iv Ii] Eq Hwb Hroom Hd Hspm Hx Hf.
  assert (nsent s = Z.of_nat (length (sent s))) as Hns by done.
  assert (Z.of_nat (length (sent s ++ [words_at (ns s) wb])) = nsent s + 1) as Hlen by (rewrite length_app; cbn; lia).
  constructor; cbn; try done.
  - exists sb, wb. unfold nsent; cbn. rewrite !Hlen. split; [|split; [tauto|right; exists 0]].
    + rewrite Eq. unfold sent_msg, src_port. cbn. rewrite next_slot by lia. by rewrite u32_succ.
    + split; [destruct Hok; lia|]. split; [lia|]. rewrite !Z.add_0_r, Z.sub_0_r, Hx, Hd. split; [done|].
      split; [lia|]. rewrite Hspm. split; [|done]. intros w Hw. unfold msg. cbn. rewrite Hns, nth_snoc_last.
      symmetry. by apply (words_at_nth (ns s) wb).
  - unfold nsent; cbn. lia.
  - by rewrite Hspm.
  - intros i w Hi Hw. unfold msg. cbn. rewrite nth_snoc by lia. by apply Id.
Qed.

Lemma nbsend_run q n wb sb S k : q = src_port wb sb S q ->
  (wb = A \/ wb = A + stride) -> spm n Cs = u32 k -> 0 <= S - k <= nb ->
  let n1 := mk_noc (<[wb + b := FLAG_VALID]> (spm n)) (dma_tab n) in
  (S - k = nb \/ xfer_of cr n <> None) /\ mp_nbsend q n = (0, q, n1) \/
  S - k < nb /\ xfer_of cr n = None /\ exists n', mp_nbsend q n = (1, sent_msg q, n') /\ spm n' = spm n1 /\
    xfer_of cr n' = Some (mk_xfer (buf S) wb stride).
Proof.
  intros Eq Hwb Hk Hd n1. pose proof stride_pos as [Hst Est]. pose proof nb_small as Hnb.
  pose proof (buf_range S) as Hbuf. destruct Hok as [_ [_ Hcr] Hb _ Hsrc Hsnk]. unfold Cs in Hsrc.
  assert (mp_nbsend q n =
    if u32 (u32 S - spm n1 Cs) =? nb then (0, q, n1)
    else let '(r, n2) := noc_nbwrite cr (adr (buf S)) (adr wb) (u32 (4 * b + FLAG_SIZE)) 1 n1 in
         if r =? 0 then (0, q, n2) else (1, sent_msg q, n2)) as ->.
  { rewrite Eq. unfold mp_nbsend, src_port. cbn [remote recv_addr send_recv_count buf_size num_buf write_buf send_count send_ptr].
    rewrite dest_adr, adr_add, stw_adr. fold n1. by rewrite ldw_adr. }
  assert (spm n1 Cs = u32 k) as ->.
  { subst n1. cbn. rewrite fn_lookup_insert_ne; [done|]. unfold Cs. lia. }
  rewrite u32_diff by lia. destruct (Z.eqb_spec (S - k) nb) as [|Hne]; [left; tauto|].
  pose proof (nbwrite_spec cr (adr (buf S)) (adr wb) (u32 (4 * b + FLAG_SIZE)) 1 n1 (buf S) wb Hcr) as HN.
  destruct size_words as [Ew Hw]. rewrite Ew in HN.
  destruct (noc_nbwrite cr (adr (buf S)) (adr wb) (u32 (4 * b + FLAG_SIZE)) 1 n1) as [r n2].
  specialize (HN ltac:(apply spm_word_adr; lia) ltac:(apply spm_word_adr; lia) Hw). cbn [Z.eqb orb Pos.eqb] in HN.
  unfold nb_post in HN. change (xfer_of cr n1) with (xfer_of cr n) in HN.
  destruct (xfer_of cr n) as [x|] eqn:Ex.
  - destruct HN as [-> ->]. left. split; [by right|done].
  - destruct HN as (-> & Hs & Hx & _). right. split; [lia|]. split; [done|]. by exists n2.
Qed.

Lemma inv_send s k d : qinv s k d -> qinv (qstep Send s) k d.
Proof.
  intros HI. pose proof HI as [(wb & sb & Eq & Hwb & Hx) _ Iord Iack _ _ _]. pose proof stride_pos as [Hst Est].
  destruct Hok as [_ _ Hb _ Hsrc _]. unfold Cs in Hsrc.
  set (n1 := mk_noc (<[wb + b := FLAG_VALID]> (spm (ns s))) (dma_tab (ns s))).
  assert (qinv (mk_qsys (qs s) n1 (qr s) (nr s) (sent s) (nrecv s) (nack s)) k d) as HI1.
  { apply inv_fill; [done|unfold Cs; lia|]. intros wb' sb' E1 E2 _. rewrite Eq in E1, E2. cbn in E1, E2.
    unfold adr in E1, E2. lia. }
  cbn [qstep]. rewrite (f_equal write_buf Eq). cbn [src_port write_buf]. rewrite adr_word.
  destruct (nbsend_run (qs s) (ns s) wb sb (nsent s) k) as [[_ E]|(Hlt & Hn & n' & E & Hs & Hx')].
  - exact Eq.
  - tauto.
  - apply Iack.
  - lia.
  - rewrite E. exact HI1.
  - rewrite E. cbn [Z.eqb].
    replace (words_at (ns s) wb) with (words_at n1 wb).
    + apply (inv_sent (mk_qsys (qs s) n1 (qr s) (nr s) (sent s) (nrecv s) (nack s)) k d wb sb n'); try done; cbn.
      * change (nsent _) with (nsent s). lia.
      * change (nsent _) with (nsent s). destruct Hx as [[_ ?]|(p & _ & _ & Hx & _)]; [done|congruence].
      * apply fn_lookup_insert.
    + unfold words_at. apply map_ext_in. intros i Hi%list_elem_of_In%elem_of_seqZ. cbn.
      by rewrite fn_lookup_insert_ne by lia.
Qed.

Lemma nbrecv_run q n N : q = snk_port N q ->
  mp_nbrecv q n = if spm n (buf N + b) =? FLAG_INVALID then (0, q, n)
    else (1, got_msg q (adr (buf N)), mk_noc (<[buf N + b := FLAG_INVALID]> (spm n)) (dma_tab n)).
Proof.
  intros Eq. rewrite Eq. unfold mp_nbrecv, snk_port. cbn [remote recv_addr buf_size recv_ptr].
  by rewrite dest_adr, adr_add, ldw_adr, stw_adr.
Qed.

(** The flag of the next message says whether it arrived. *)
Lemma next_flag s k d : qinv s k d ->
  (spm (nr s) (buf (nrecv s) + b) =? FLAG_INVALID) = negb (nrecv s <? d).
Proof.
  intros [_ _ Iord _ _ Iv Ii]. destruct (Z.ltb_spec (nrecv s) d).
  - by rewrite Iv by lia.
  - unfold buf. rewrite Ii; [done|apply slot_range|lia].
Qed.

(** A store to the sink that hits no word the invariant speaks of. *)
Ltac buf_ne :=
  rewrite fn_lookup_insert_ne;
  [|first [intros E; unfold buf in E; apply buf_eq in E as [E ?]; [|lia|lia]; try lia; try (apply slot_inj in E; lia)
          |unfold buf, Cr; lia]].

Lemma inv_recv s k d : qinv s k d -> qinv (qstep Recv s) k d.
Proof.
  intros HI. pose proof (next_flag s k d HI) as Hflag. pose proof stride_pos as [Hst Est]. pose proof nb_small as Hnb.
  destruct HI as [(wb & sb & Eq & Hwb & Hx) Iqr Iord Iack Id Iv Ii].
  cbn [qstep]. rewrite (nbrecv_run _ _ _ Iqr), Hflag. destruct (Z.ltb_spec (nrecv s) d) as [Hlt|Hge]; cbn [negb].
  2:{ rewrite Z.add_0_r. by constructor; [exists wb, sb|..]. }
  pose proof (buf_range (nrecv s)) as HbN. assert (0 <= b) as Hb by lia.
  constructor; cbn.
  - exists wb, sb. split; [done|]. split; [done|].
    destruct Hx as [Hx|(p & Hp & Hd & Hx & Hr & Hs & Hf)]; [by left|right]. exists p.
    do 3 (split; [done|]). split; [|done]. intros w Hw. etrans; [|by apply Hr]. by buf_ne.
  - rewrite Iqr. unfold got_msg, snk_port. cbn. by rewrite next_slot by lia.
  - unfold nsent in *. cbn. lia.
  - destruct Iack as (Ia & Ib & Ic). split; [done|]. split; [|exact Ic].
    rewrite fn_lookup_insert_ne by lia. done.
  - intros i w Hi Hw. etrans; [|by apply Id]. by buf_ne.
  - intros i Hi. rewrite <- (Iv i) by lia. buf_ne. done.
  - intros j Hj Hno. destruct (decide (j = nrecv s mod nb)) as [->|Hne]; [by apply fn_lookup_insert|].
    buf_ne. apply Ii; [done|]. intros i Hi Ei.
    destruct (decide (i = nrecv s)) as [->|]; [congruence|]. apply (Hno i); [lia|done].
Qed.

Lemma nback_run q n N : q = snk_port N q ->
  (xfer_of cs n <> None /\ mp_nback q n = (0, n)) \/
  (xfer_of cs n = None /\ exists n', mp_nback q n = (1, n') /\ spm n' = <[Cr := u32 (spm n Cr + 1)]> (spm n) /\
     xfer_of cs n' = Some (mk_xfer Cs Cr 1)).
Proof.
  intros Eq. pose proof stride_pos as [Hst _]. destruct Hok as [_ [Hcs _] _ Hnb Hsrc Hsnk].
  rewrite Eq. unfold mp_nback, snk_port. cbn [remote recv_count send_recv_count].
  rewrite done_xfer. destruct (xfer_of cs n) as [x|] eqn:Ex; [by left|]. right. split; [done|].
  rewrite ldw_adr, stw_adr. set (n1 := mk_noc _ _).
  pose proof (nbwrite_spec cs (adr Cs) (adr Cr) PTR_SIZE 1 n1 Cs Cr Hcs) as HN.
  destruct (noc_nbwrite cs (adr Cs) (adr Cr) PTR_SIZE 1 n1) as [r n2].
  assert (0 <= Cr) by (unfold Cr; nia). assert (0 <= Cs) by (unfold Cs; lia).
  specialize (HN ltac:(apply spm_word_adr; lia) ltac:(apply spm_word_adr; lia) ltac:(done)). cbn [Z.eqb orb Pos.eqb] in HN.
  unfold nb_post in HN. change (xfer_of cs n1) with (xfer_of cs n) in HN. rewrite Ex in HN.
  destruct HN as (-> & Hs & Hx & _). by exists n2.
Qed.

Lemma inv_ack s k d : qinv s k d -> exists k', qinv (qstep Ack s) k' d.
Proof.
  intros HI. exists k. cbn [qstep]. destruct (Z.ltb_spec (nack s) (nrecv s)) as [Hlt|]; [|done].
  pose proof stride_pos as [Hst Est]. pose proof nb_small as Hnb.
  destruct HI as [(wb & sb & Eq & Hwb & Hx) Iqr Iord (Ia & Ib & Ic) Id Iv Ii].
  destruct (nback_run _ (nr s) _ Iqr) as [[_ E]|(Hn & n' & E & Hs & Hx')]; rewrite E.
  { rewrite Z.add_0_r. by constructor; [exists wb, sb|..]. }
  assert (forall i w, 0 <= w < stride -> spm n' (buf i + w) = spm (nr s) (buf i + w)) as Hsame.
  { intros i w Hw. rewrite Hs. pose proof (buf_range i). by rewrite fn_lookup_insert_ne by lia. }
  constructor; cbn.
  - exists wb, sb. split; [done|]. split; [done|].
    destruct Hx as [Hx|(p & Hp & Hd & Hx & Hr & Hss & Hf)]; [by left|right]. exists p.
    do 3 (split; [done|]). split; [|done]. intros w Hw. rewrite Hsame by lia. by apply Hr.
  - done.
  - unfold nsent in *. cbn. lia.
  - split; [done|]. split; [|by right]. rewrite Hs, fn_lookup_insert, Ib. apply u32_succ.
  - intros i w Hi Hw. rewrite Hsame by lia. by apply Id.
  - intros i Hi. rewrite Hsame by lia. by apply Iv.
  - intros j Hj Hno. rewrite Hs, fn_lookup_insert_ne; [by apply Ii|]. unfold Cr. nia.
Qed.

Lemma inv_move_ack s k d : qinv s k d -> exists k', qinv (qstep MoveAck s) k' d.
Proof.
  intros HI. pose proof HI as [(wb & sb & Eq & Hwb & Hx) Iqr Iord (Ia & Ib & Ic) Id Iv Ii].
  pose proof stride_pos as [Hst Est]. pose proof nb_small as Hnb. cbn [qstep].
  destruct Ic as [[Hn _]|Hx']; [rewrite hw_move_none by done; exists k; by destruct s|].
  destruct Hok as [_ [Hcs _] Hb _ Hsrc Hsnk].
  pose proof (hw_move_xfer cs (nr s) (ns s) _ Hcs Hx') as HM. cbn [x_left x_dst x_src] in HM.
  destruct (hw_move cs (nr s) (ns s)) as [n2 n1].
  destruct HM as (H2 & Ht & H1 & Hxn); [lia|lia|lia|]. exists (nack s).
  constructor; cbn.
  - exists wb, sb. split; [done|]. split; [done|]. rewrite (xfer_tab cr _ _ Ht).
    destruct Hx as [Hx|(p & Hp & Hd & Hx & Hr & Hss & Hf)]; [by left|right]. exists p.
    do 3 (split; [done|]). rewrite H2. split; [done|]. unfold Cs in H1. rewrite H1.
    split; [intros w Hw|]; rewrite fn_lookup_insert_ne by lia; [by apply Hss|done].
  - done.
  - unfold nsent in *. cbn. lia.
  - rewrite H1, H2, fn_lookup_insert, Ib. split; [done|]. split; [done|]. left. done.
  - intros i w Hi Hw. rewrite H2. apply Id; lia.
  - by rewrite H2.
  - by rewrite H2.
Qed.

(** The next word of a message in flight; the flag completes it. *)
Lemma inv_word s k d n1 n2 wb sb p :
  qinv s k d -> qs s = src_port wb sb (nsent s) (qs s) -> (wb = A /\ sb = A + stride \/ wb = A + stride /\ sb = A) ->
  0 <= p < b -> d + 1 = nsent s ->
  (forall w, 0 <= w < p -> spm (nr s) (buf d + w) = msg s d w) ->
  (forall w, 0 <= w < b -> spm (ns s) (sb + w) = msg s d w) -> spm (ns s) (sb + b) = FLAG_VALID ->
  spm n1 = spm (ns s) -> dma_tab n2 = dma_tab (nr s) -> spm n2 = <[buf d + p := spm (ns s) (sb + p)]> (spm (nr s)) ->
  xfer_of cr n1 = Some (mk_xfer (buf d + (p + 1)) (sb + (p + 1)) (stride - (p + 1))) ->
  qinv (mk_qsys (qs s) n1 (qr s) n2 (sent s) (nrecv s) (nack s)) k d.
Proof.
  intros [_ Iqr Iord (Ia & Ib & Ic) Id Iv Ii] Eq Hwb Hp Hd Hr Hs Hf E1 Et E2 Hx.
  pose proof stride_pos as [Hst Est]. pose proof nb_small as Hnb. pose proof (buf_range d) as Hbd.
  constructor; cbn; rewrite ?E1, ?E2; try done.
  - exists wb, sb. split; [done|]. split; [done|]. right. exists (p + 1). split; [lia|]. do 2 (split; [done|]).
    split; [|done]. intros w Hw. destruct (decide (w = p)) as [->|].
    + rewrite fn_lookup_insert. apply Hs. lia.
    + etrans; [|apply Hr; lia]. by buf_ne.
  - rewrite (xfer_tab cs _ _ Et). rewrite fn_lookup_insert_ne by lia. done.
  - intros i w Hi Hw. etrans; [|by apply Id]. by buf_ne.
  - intros i Hi. rewrite <- (Iv i) by lia. by buf_ne.
  - intros j Hj Hno. buf_ne. by apply Ii.
Qed.

Lemma inv_last s k d n1 n2 sb :
  qinv s k d -> (forall w, 0 <= w < b -> spm (nr s) (buf d + w) = msg s d w) -> spm (ns s) (sb + b) = FLAG_VALID ->
  d + 1 = nsent s ->
  spm n1 = spm (ns s) -> dma_tab n2 = dma_tab (nr s) -> spm n2 = <[buf d + b := spm (ns s) (sb + b)]> (spm (nr s)) ->
  xfer_of cr n1 = None ->
  qinv (mk_qsys (qs s) n1 (qr s) n2 (sent s) (nrecv s) (nack s)) k (d + 1).
Proof.
  intros [(wb & sb' & Eq & Hwb & _) Iqr Iord (Ia & Ib & Ic) Id Iv Ii] Hr Hf Hd E1 Et E2 Hx.
  pose proof stride_pos as [Hst Est]. pose proof nb_small as Hnb. pose proof (buf_range d) as Hbd.
  assert (0 <= b) as Hb0 by (destruct Hok; lia).
  constructor; cbn; rewrite ?E1, ?E2; try done.
  - exists wb, sb'. split; [done|]. split; [done|]. by left.
  - unfold nsent in *. cbn. lia.
  - rewrite (xfer_tab cs _ _ Et). rewrite fn_lookup_insert_ne by lia. done.
  - intros i w Hi Hw. destruct (decide (i = d)) as [->|].
    + etrans; [|by apply Hr]. by buf_ne.
    + etrans; [|apply Id; lia]. by buf_ne.
  - intros i Hi. destruct (decide (i = d)) as [->|]; [by rewrite fn_lookup_insert|].
    rewrite <- (Iv i) by lia. by buf_ne.
  - intros j Hj Hno. pose proof (Hno d ltac:(lia)) as Hjd. buf_ne. apply Ii; [done|]. intros i Hi. apply Hno. lia.
Qed.

Lemma inv_move_data s k d : qinv s k d -> exists d', qinv (qstep MoveData s) k d'.
Proof.
  intros HI. pose proof HI as [(wb & sb & Eq & Hwb & Hx) _ Iord _ _ _ _].
  pose proof stride_pos as [Hst Est]. pose proof nb_small as Hnb. cbn [qstep].
  destruct Hx as [[Hn _]|(p & Hp & Hd & Hx & Hr & Hs & Hf)]; [rewrite hw_move_none by done; exists d; by destruct s|].
  pose proof (buf_range d) as Hbd. assert (0 <= cr < 2 ^ 31) as Hcr by (destruct Hok; lia).
  pose proof (hw_move_xfer cr (ns s) (nr s) _ Hcr Hx) as HM. cbn [x_left x_dst x_src] in HM.
  destruct (hw_move cr (ns s) (nr s)) as [n1 n2].
  destruct HM as (E1 & Et & E2 & Hxn); [lia|destruct Hok; lia|destruct Hok; unfold Cs in *; lia|].
  destruct (decide (p = b)) as [->|Hpb].
  - exists (d + 1). rewrite (proj2 (Z.eqb_eq (stride - b) 1)) in Hxn by lia. by apply (inv_last s k d n1 n2 sb).
  - exists d. rewrite (proj2 (Z.eqb_neq (stride - p) 1)) in Hxn by lia.
    apply (inv_word s k d n1 n2 wb sb p); try done; [lia|]. rewrite Hxn. do 2 f_equal; lia.
Qed.

Lemma inv_init s : chan_init s -> qinv s 0 0.
Proof.
  intros [E1 E2 (Es & En & Ek) [Hc1 Hc2] Hf [Hx1 Hx2]]. pose proof nb_small.
  assert (nsent s = 0) as Ens by (unfold nsent; by rewrite Es).
  constructor; rewrite ?Ens, ?En, ?Ek; try done; try lia.
  - exists A, (A + stride). split; [done|]. split; [by left|by left].
  - split; [done|]. split; [done|]. by left.
  - intros j Hj _. by apply Hf.
Qed.

Lemma inv_step ev s k d : qinv s k d -> exists k' d', qinv (qstep ev s) k' d'.
Proof.
  intros HI. destruct ev.
  - exists k, d. cbn [qstep]. destruct ((0 <=? i) && (i <? b)) eqn:Ei; [|done].
    destruct HI as [(wb & sb & Eq & Hwb & Hx) I2 I3 I4 I5 I6 I7] eqn:EHI.
    apply andb_true_iff in Ei. rewrite (f_equal write_buf Eq). cbn [src_port write_buf]. rewrite adr_add, stw_adr.
    pose proof stride_pos. apply inv_fill; [done|unfold Cs; lia|].
    intros wb' sb' F1 F2 _. rewrite Eq in F1, F2. cbn in F1, F2. unfold adr in F1, F2. lia.
  - exists k, d. by apply inv_send.
  - exists k, d. by apply inv_recv.
  - destruct (inv_ack s k d HI) as [k' Hk]. by exists k', d.
  - destruct (inv_move_data s k d HI) as [d' Hd]. by exists k, d'.
  - destruct (inv_move_ack s k d HI) as [k' Hk]. by exists k', d.
Qed.

Lemma reach_qinv s0 s : chan_init s0 -> qreach s0 s -> exists k d, qinv s k d.
Proof.
  intros Hi. induction 1 as [|ev s Hs (k & d & HI)]; [exists 0, 0; by apply inv_init|]. by apply (inv_step ev s k d).
Qed.

(** Messages have [b] words. *)
Lemma length_words n w : length (words_at n w) = Z.to_nat b.
Proof. unfold words_at. by rewrite length_map, length_seqZ. Qed.
Lemma reach_lengths s0 s : chan_init s0 -> qreach s0 s -> Forall (fun m => length m = Z.to_nat b) (sent s).
Proof.
  intros [_ _ [Hs _] _ _ _]. induction 1 as [|ev s _ IH]; [by rewrite Hs|].
  destruct ev; cbn [qstep]; repeat case_match; cbn [sent]; try done.
  apply Forall_app. split; [done|]. apply Forall_singleton, length_words.
Qed.
Lemma words_eq n a l : length l = Z.to_nat b -> (forall w, 0 <= w < b -> spm n (a + w) = at_ l w) -> words_at n a = l.
Proof.
  intros Hl Hw. apply (nth_ext _ _ 0 0); [by rewrite length_words|]. intros i Hi. rewrite length_words in Hi.
  pose proof (Hw (Z.of_nat i) ltac:(lia)) as E. rewrite <- words_at_nth in E by lia. unfold at_ in E.
  by rewrite Nat2Z.id in E.
Qed.
Lemma message_at s0 s n i : chan_init s0 -> qreach s0 s -> 0 <= i < nsent s ->
  (forall w, 0 <= w < b -> spm n (buf i + w) = msg s i w) ->
  words_at n (buf i) = nth (Z.to_nat i) (sent s) [].
Proof.
  intros Hi Hr Hn Hw. apply words_eq; [|exact Hw]. pose proof (reach_lengths _ _ Hi Hr) as HF.
  rewrite Forall_forall in HF. apply HF, nth_In. unfold nsent in Hn. lia.
Qed.

(** What mp_nbrecv does in a reachable state. *)
Definition recv_post (s : qsys) (r : Z) (q : qpd_t) (n : noc) : Prop :=
  r = 1 /\ nrecv s < nsent s /\
    words_at n ((read_buf q - NOC_SPM_BASE) / 4) = nth (Z.to_nat (nrecv s)) (sent s) [] \/
  r = 0 /\ q = qr s /\ n = nr s /\ (xfer_of cr (ns s) = None -> nrecv s = nsent s).

Lemma recv_ok s0 s : chan_init s0 -> qreach s0 s ->
  let '(r, q, n) := mp_nbrecv (qr s) (nr s) in recv_post s r q n.
Proof.
  intros Hi Hr. destruct (reach_qinv s0 s Hi Hr) as (k & d & HI). pose proof (next_flag s k d HI) as Hflag.
  destruct HI as [(wb & sb & Eq & Hwb & Hx) Iqr Iord Iack Id Iv Ii]. pose proof stride_pos as [Hst Est].
  rewrite (nbrecv_run _ _ _ Iqr), Hflag. destruct (Z.ltb_spec (nrecv s) d) as [Hlt|Hge]; cbn [negb].
  - left. split; [done|]. split; [lia|]. cbn [got_msg read_buf]. rewrite adr_word.
    apply (message_at s0); [done|done|lia|]. intros w Hw. etrans; [|apply (Id (nrecv s)); lia]. cbn [spm]. by buf_ne.
  - right. do 3 (split; [done|]). intros Hn. destruct Hx as [[_ ->]|(p & _ & _ & Hx & _)]; [lia|congruence].
Qed.

End Channel.

(** C1: a queuing channel is a FIFO queue.  In every interleaving of the two
    applications and the word-by-word transfers of the network, a successful
    mp_nbrecv delivers exactly the next message that was sent, complete and in
    order; it reports that there is none only when none arrived, and with no
    transfer under way that means that every message sent was received.  A
    message that was received keeps its buffer until it is acknowledged. *)
Theorem queue_is_fifo `{ArgoBase} cs cr A R b nb s0 s :
  chan_ok cs cr A R b nb -> chan_init cs cr A R b nb s0 -> qreach cs cr b s0 s ->
  (let '(r, q, n) := mp_nbrecv (qr s) (nr s) in recv_post cr b s r q n) /\
  (forall i, nack s <= i < nrecv s -> words_at b (nr s) (buf R b nb i) = nth (Z.to_nat i) (sent s) []).
Proof.
  intros Hok Hi Hr. split; [by eapply recv_ok|].
  destruct (reach_qinv cs cr A R b nb Hok s0 s Hi Hr) as (k & d & [_ _ Iord _ Id _ _]). intros i Hn.
  eapply message_at; try done; [lia|]. intros w Hw. apply Id; lia.
Qed.

(** Flow control.  The messages that were sent and not acknowledged never
    exceed the number of receive buffers, and when no transfer is under way
    mp_nbsend succeeds exactly when there are fewer; the counters may wrap
    around, they are 32 bits wide. *)
Theorem queue_flow_control `{ArgoBase} cs cr A R b nb s0 s :
  chan_ok cs cr A R b nb -> chan_init cs cr A R b nb s0 -> qreach cs cr b s0 s ->
  nack s <= nrecv s <= nsent s /\ nsent s <= nack s + nb /\
  (xfer_of cr (ns s) = None -> xfer_of cs (nr s) = None ->
     fst (fst (mp_nbsend (qs s) (ns s))) = if nsent s <? nack s + nb then 1 else 0).
Proof.
  intros Hok Hi Hr.
  destruct (reach_qinv cs cr A R b nb Hok s0 s Hi Hr) as (k & d & [(wb & sb & Eq & Hwb & Hx) _ Iord Iack _ _ _]).
  split; [lia|]. split; [lia|]. intros Hn1 Hn2. destruct Iack as (Hk & _ & [[_ ->]|Hx']); [|congruence].
  destruct (nbsend_run cs cr A R b nb Hok (qs s) (ns s) wb sb (nsent s) (nack s) Eq) as [[Hc E]|(Hlt & _ & n' & E & _)];
    [tauto|done|lia| |]; rewrite E; cbn.
  - destruct Hc as [Hc|]; [|done]. zdec. done.
  - zdec. done.
Qed.

(** ** An example channel: one word per message, two buffers *)

Module Demo.
#[export] Instance base : ArgoBase := { PATMOS_IO_ARGO := 0xE0000000 }.
Definition blank : noc := mk_noc (fun _ => 0) (fun _ => 0).
Definition q0 : qpd_t := mk_qpd SOURCE 0 0 0 0 0 0 0 0 0 0 0 0.
Definition start : qsys :=
  mk_qsys (src_port 1 0 0 1 2 0 2 0 q0) blank (snk_port 0 0 0 1 2 0 q0) blank [] 0 0.
Definition run (evs : list event) : qsys := fold_left (fun s ev => qstep 0 1 1 ev s) evs start.
Definition two_sent : qsys := run [Fill 0 42; Send; MoveData; MoveData; Fill 0 43; Send; MoveData; MoveData].

Lemma demo_ok : chan_ok 0 1 0 0 1 2.
Proof. constructor; vm_compute; intuition congruence. Qed.
Lemma demo_init : chan_init 0 1 0 0 1 2 start.
Proof. by constructor. Qed.
Lemma demo_reach evs : forall s, qreach 0 1 1 start s -> qreach 0 1 1 start (fold_left (fun s ev => qstep 0 1 1 ev s) evs s).
Proof. induction evs as [|ev evs IH]; intros s Hs; [done|]. by apply IH, qreach_step. Qed.
Lemma two_sent_reach : qreach 0 1 1 start two_sent.
Proof. apply demo_reach, qreach_start. Qed.
End Demo.
Import Demo.

Lemma queue_is_fifo_witness :
  let '(r, q, n) := mp_nbrecv (qr two_sent) (nr two_sent) in
  r = 1 /\ words_at 1 n ((read_buf q - NOC_SPM_BASE) / 4) = [42].
Proof.
  destruct (queue_is_fifo 0 1 0 0 1 2 start two_sent demo_ok demo_init two_sent_reach) as [HR _].
  destruct (mp_nbrecv (qr two_sent) (nr two_sent)) as [[r q] n] eqn:E.
  destruct HR as [(-> & _ & HR)|(-> & _)]; [split; [reflexivity|exact HR]|].
  apply (f_equal (fun x => fst (fst x))) in E. vm_compute in E. discriminate E.
Defined.

Lemma queue_flow_control_witness : fst (fst (mp_nbsend (qs two_sent) (ns two_sent))) = 0.
Proof.
  destruct (queue_flow_control 0 1 0 0 1 2 start two_sent demo_ok demo_init two_sent_reach) as (_ & _ & HS).
  rewrite HS; reflexivity.
Defined.
