(* ===== verification/Mp.v ===== *)
(** Mp: memory management and port creation of libmp, libmp/mp.c,
    libmp/utils.c, mp_create_qport of libmp/queuing.c, mp_create_sport of
    libmp/sampling.c and initialize_lock of libmp/lock.c.

    - [mp_world] is the state shared by the cores: the allocation pointers and
      sizes of the scratchpads, the channel table [chan_info], the scratchpads
      and, by core and address, the descriptors and locks stored in them.
    - Functions take the id of the calling core.  A NULL pointer is 0.
    - mp_init_ports waits for the other end of a channel; [None] is a wait
      that the current world does not end. *)

From stdpp Require Import base numbers list functions.
From S2P Require Import Prelude Noc MemSize Queuing.

Inductive port_t := SAMPLING | QUEUING.

(** The source and sink descriptor pointers are unions of qpd_t and spd_t. *)
Record chan_info_t := mk_chan {
  port_type : port_t;
  src_id : Z;
  sink_id : Z;
  src_addr : Z;
  sink_addr : Z;
  src_lock : Z;
  sink_lock : Z;
  src_ptr : Z;
  sink_ptr : Z;
}.

(** spd_t without its union, which the network reads and writes: the words
    [SPD_NEWEST] and [SPD_NEXT] of the descriptor are kept in the scratchpad. *)
Record spd_t := mk_spd {
  s_direction : direction_t;
  s_remote : Z;
  remote_spd : Z;
  read_bufs : Z;
  read_shm_buf : Z;
  sample_size : Z;
  s_lock : Z;
}.

(** The fields of LOCK_T that connect it to the other core. *)
Record lock_ref := mk_lref { remote_cpuid : Z; remote_ptr : Z }.

Record mp_world := mk_mpw {
  spm_alloc : Z -> Z;
  spm_size : Z -> Z;
  chan_info : Z -> chan_info_t;
  nocs : Z -> noc;
  qpds : Z -> Z -> qpd_t;
  spds : Z -> Z -> spd_t;
  locks : Z -> Z -> lock_ref;
}.

Definition with_alloc f w := mk_mpw f (spm_size w) (chan_info w) (nocs w) (qpds w) (spds w) (locks w).
Definition with_size f w := mk_mpw (spm_alloc w) f (chan_info w) (nocs w) (qpds w) (spds w) (locks w).
Definition with_chan (i : Z) (g : chan_info_t -> chan_info_t) w :=
  mk_mpw (spm_alloc w) (spm_size w) (<[i := g (chan_info w i)]> (chan_info w)) (nocs w) (qpds w) (spds w) (locks w).
Definition with_noc (c : Z) (g : noc -> noc) w :=
  mk_mpw (spm_alloc w) (spm_size w) (chan_info w) (<[c := g (nocs w c)]> (nocs w)) (qpds w) (spds w) (locks w).
Definition with_qpd (c p : Z) (g : qpd_t -> qpd_t) w :=
  mk_mpw (spm_alloc w) (spm_size w) (chan_info w) (nocs w) (<[c := <[p := g (qpds w c p)]> (qpds w c)]> (qpds w))
    (spds w) (locks w).
Definition with_spd (c p : Z) (g : spd_t -> spd_t) w :=
  mk_mpw (spm_alloc w) (spm_size w) (chan_info w) (nocs w) (qpds w)
    (<[c := <[p := g (spds w c p)]> (spds w c)]> (spds w)) (locks w).
Definition with_lock (c p : Z) (g : lock_ref -> lock_ref) w :=
  mk_mpw (spm_alloc w) (spm_size w) (chan_info w) (nocs w) (qpds w) (spds w)
    (<[c := <[p := g (locks w c p)]> (locks w c)]> (locks w)).

Section Mp.
Context `{ArgoBase} {CM : CharModel}.

Definition NULL := 0.
(** Sizes of the structures with 32-bit pointers. *)
Definition SIZEOF_qpd_t := 40.
Definition SIZEOF_spd_t := 40.
Definition SIZEOF_LOCK_T := 24.
Definition BARRIER_SIZE := 4.
(** Offsets of the union of spd_t: newest (and reading), next. *)
Definition SPD_NEWEST := 32.
Definition SPD_NEXT := 36.

(** The limit is a sum of an integer and a pointer to 4-byte words: C adds
    four times the integer. *)
Definition mp_alloc (cpuid size : Z) (w : mp_world) : Z * mp_world :=
  let w_size := WALIGN size in
  let mem_ptr := spm_alloc w cpuid in
  let new_addr := u32 (mem_ptr + w_size) in
  if new_addr <? NOC_SPM_BASE then (NULL, w)
  else if u32 (NOC_SPM_BASE + 4 * spm_size w cpuid) <? new_addr then (NULL, w)
  else (mem_ptr, with_alloc (<[cpuid := new_addr]> (spm_alloc w)) w).

(** mp_init of one core whose scratchpad has [words] words; [None] is the
    call of abort. *)
Definition mp_init (cpuid words : Z) (w : mp_world) : option mp_world :=
  let clear c := mk_chan (port_type c) (-1) (-1) NULL NULL (src_lock c) (sink_lock c) NULL NULL in
  let w := if cpuid =? 0 then
             mk_mpw (spm_alloc w) (spm_size w)
               (fun i => if (0 <=? i) && (i <? MAX_CHANNELS) then clear (chan_info w i) else chan_info w i)
               (nocs w) (qpds w) (spds w) (locks w)
           else w in
  let '(size, m) := test_spm_size words (spm (nocs w cpuid)) in
  let w := with_noc cpuid (fun n => mk_noc m (dma_tab n)) w in
  if (size =? -1) || (size =? -2) then None
  else
    let w := with_size (<[cpuid := size]> (spm_size w)) w in
    let w := with_alloc (<[cpuid := NOC_SPM_BASE]> (spm_alloc w)) w in
    let '(spm_zero, w) := mp_alloc cpuid BARRIER_SIZE w in
    Some (with_noc cpuid (stw spm_zero 0) w).

Definition mp_send_alloc_size (q : qpd_t) : Z :=
  u32 ((buf_size q + FLAG_SIZE) * NUM_WRITE_BUF + WALIGN 4).
Definition mp_recv_alloc_size (q : qpd_t) : Z :=
  u32 ((buf_size q + FLAG_SIZE) * num_buf q + WALIGN 4).

(** The flag words of the receive buffers. *)
Fixpoint clear_flags (k : nat) (i recv buf_size : Z) (n : noc) : noc :=
  match k with
  | O => n
  | S k' => clear_flags k' (i + 1) recv buf_size (stw (recv + (buf_size + FLAG_SIZE) * i + buf_size) 0 n)
  end.

Definition mp_create_qport (cpuid chan_id : Z) (direction : direction_t) (msg_size num_buf : Z) (w : mp_world)
    : Z * mp_world :=
  if MAX_CHANNELS <=? chan_id then (NULL, w)
  else
    let '(qpd_ptr, w) := mp_alloc cpuid SIZEOF_qpd_t w in
    if qpd_ptr =? NULL then (NULL, w)
    else
      let w := with_qpd cpuid qpd_ptr (fun q => mk_qpd direction (remote q) (recv_addr q) (send_recv_count q)
                 (WALIGN msg_size) num_buf (write_buf q) (shadow_write_buf q) (send_count q) (send_ptr q)
                 (read_buf q) (recv_count q) (recv_ptr q)) w in
      let w := with_chan chan_id (fun c => mk_chan QUEUING (src_id c) (sink_id c) (src_addr c) (sink_addr c)
                 (src_lock c) (sink_lock c) (src_ptr c) (sink_ptr c)) w in
      let q := qpds w cpuid qpd_ptr in
      match direction with
      | SOURCE =>
          let '(send_addr, w) := mp_alloc cpuid (mp_send_alloc_size q) w in
          if send_addr =? NULL then (NULL, w)
          else
            let count := u32 (send_addr + u32 ((buf_size q + FLAG_SIZE) * NUM_WRITE_BUF)) in
            let w := with_chan chan_id (fun c => mk_chan (port_type c) (to_char cpuid) (sink_id c) count (sink_addr c)
                       (src_lock c) (sink_lock c) qpd_ptr (sink_ptr c)) w in
            let w := with_noc cpuid (stw count 0) w in
            let w := with_qpd cpuid qpd_ptr (fun q => mk_qpd (direction_type q) (remote q) (recv_addr q) count
                       (buf_size q) (Queuing.num_buf q) send_addr (u32 (send_addr + (buf_size q + FLAG_SIZE))) 0 0
                       (read_buf q) (recv_count q) (recv_ptr q)) w in
            (qpd_ptr, w)
      | SINK =>
          let '(recv, w) := mp_alloc cpuid (mp_recv_alloc_size q) w in
          let w := with_chan chan_id (fun c => mk_chan (port_type c) (src_id c) (to_char cpuid) (src_addr c) recv
                     (src_lock c) (sink_lock c) (src_ptr c) qpd_ptr) w in
          let w := with_qpd cpuid qpd_ptr (fun q => mk_qpd (direction_type q) (remote q) recv (send_recv_count q)
                     (buf_size q) (Queuing.num_buf q) (write_buf q) (shadow_write_buf q) (send_count q) (send_ptr q)
                     (read_buf q) (recv_count q) (recv_ptr q)) w in
          if recv =? NULL then (NULL, w)
          else
            let count := u32 (recv + u32 ((buf_size q + FLAG_SIZE) * num_buf)) in
            let w := with_qpd cpuid qpd_ptr (fun q => mk_qpd (direction_type q) (remote q) recv (send_recv_count q)
                       (buf_size q) (Queuing.num_buf q) (write_buf q) (shadow_write_buf q) (send_count q) (send_ptr q)
                       recv count 0) w in
            let w := with_noc cpuid (stw count 0) w in
            let w := with_noc cpuid (clear_flags (Z.to_nat (Queuing.num_buf q)) 0 recv (buf_size q)) w in
            (qpd_ptr, w)
      end.

(** initialize_lock: the entering and number words are zero (Lock.v). *)
Definition initialize_lock (cpuid remote : Z) (w : mp_world) : Z * mp_world :=
  let '(lock, w) := mp_alloc cpuid SIZEOF_LOCK_T w in
  let w := with_noc cpuid (fun n => stw (lock + 12) 0 (stw (lock + 8) 0 (stw (lock + 4) 0 (stw lock 0 n)))) w in
  let w := with_lock cpuid lock (fun l => mk_lref (u8 remote) (remote_ptr l)) w in
  (lock, w).

(** mp_create_sport of the default implementation, DOUBLE_NOC. *)
Definition mp_create_sport (cpuid chan_id : Z) (direction : direction_t) (size : Z) (w : mp_world) : Z * mp_world :=
  if MAX_CHANNELS <=? chan_id then (NULL, w)
  else
    let '(spd_ptr, w) := mp_alloc cpuid SIZEOF_spd_t w in
    if spd_ptr =? NULL then (NULL, w)
    else
      let w := with_spd cpuid spd_ptr (fun p => mk_spd direction (s_remote p) (remote_spd p) (read_bufs p)
                 (read_shm_buf p) (WALIGN size) (s_lock p)) w in
      let '(lock, w) := initialize_lock cpuid 0 w in
      let w := with_spd cpuid spd_ptr (fun p => mk_spd (s_direction p) (s_remote p) (remote_spd p) (read_bufs p)
                 (read_shm_buf p) (sample_size p) lock) w in
      if lock =? NULL then (NULL, w)
      else
        let w := with_chan chan_id (fun c => mk_chan SAMPLING (src_id c) (sink_id c) (src_addr c) (sink_addr c)
                   (src_lock c) (sink_lock c) (src_ptr c) (sink_ptr c)) w in
        match direction with
        | SOURCE =>
            let w := with_noc cpuid (stw (spd_ptr + SPD_NEXT) 0) w in
            let w := with_chan chan_id (fun c => mk_chan (port_type c) (to_char cpuid) (sink_id c) (src_addr c)
                       (sink_addr c) lock (sink_lock c) spd_ptr (sink_ptr c)) w in
            (spd_ptr, w)
        | SINK =>
            let '(bufs, w) := mp_alloc cpuid (u32 (WALIGN size * 2)) w in
            let w := with_spd cpuid spd_ptr (fun p => mk_spd (s_direction p) (s_remote p) (remote_spd p) bufs
                       (read_shm_buf p) (sample_size p) (s_lock p)) w in
            let w := with_noc cpuid (stw (spd_ptr + SPD_NEWEST) (u32 (-1))) w in
            let w := with_chan chan_id (fun c => mk_chan (port_type c) (src_id c) (sink_id c) (src_addr c) bufs
                       (src_lock c) lock (src_ptr c) spd_ptr) w in
            if bufs =? NULL then (NULL, w)
            else
              (spd_ptr, with_chan chan_id (fun c => mk_chan (port_type c) (src_id c) (to_char cpuid) (src_addr c)
                          (sink_addr c) (src_lock c) (sink_lock c) (src_ptr c) (sink_ptr c)) w)
        end.

(** ** Connecting the ports *)

(** What the source and the sink of channel [c] copy into their descriptors. *)
Definition init_source (cpuid : Z) (c : chan_info_t) (w : mp_world) : mp_world :=
  match port_type c with
  | QUEUING =>
      with_qpd cpuid (src_ptr c) (fun q => mk_qpd (direction_type q) (to_char (sink_id c)) (sink_addr c)
        (send_recv_count q) (buf_size q) (num_buf q) (write_buf q) (shadow_write_buf q) (send_count q) (send_ptr q)
        (read_buf q) (recv_count q) (recv_ptr q)) w
  | SAMPLING =>
      let w := with_lock cpuid (s_lock (spds w cpuid (src_ptr c)))
                 (fun _ => mk_lref (u8 (sink_id c)) (sink_lock c)) w in
      with_spd cpuid (src_ptr c) (fun p => mk_spd (s_direction p) (to_char (sink_id c)) (sink_ptr c) (sink_addr c)
        (read_shm_buf p) (sample_size p) (s_lock p)) w
  end.
Definition init_sink (cpuid : Z) (c : chan_info_t) (w : mp_world) : mp_world :=
  match port_type c with
  | QUEUING =>
      with_qpd cpuid (sink_ptr c) (fun q => mk_qpd (direction_type q) (to_char (src_id c)) (recv_addr q)
        (src_addr c) (buf_size q) (num_buf q) (write_buf q) (shadow_write_buf q) (send_count q) (send_ptr q)
        (read_buf q) (recv_count q) (recv_ptr q)) w
  | SAMPLING =>
      let w := with_lock cpuid (s_lock (spds w cpuid (sink_ptr c)))
                 (fun _ => mk_lref (u8 (src_id c)) (src_lock c)) w in
      with_spd cpuid (sink_ptr c) (fun p => mk_spd (s_direction p) (to_char (src_id c)) (src_ptr c) (read_bufs p)
        (src_addr c) (sample_size p) (s_lock p)) w
  end.

Definition init_port (cpuid chan_id : Z) (w : mp_world) : option mp_world :=
  let c := chan_info w chan_id in
  if src_id c =? cpuid then
    if sink_id c =? -1 then None else Some (init_source cpuid c w)
  else if sink_id c =? cpuid then
    if src_id c =? -1 then None else Some (init_sink cpuid c w)
  else Some w.

Fixpoint init_ports_from (k : nat) (cpuid chan_id : Z) (w : mp_world) : option mp_world :=
  match k with
  | O => Some w
  | S k' => match init_port cpuid chan_id w with
            | Some w => init_ports_from k' cpuid (chan_id + 1) w
            | None => None
            end
  end.
(** The result is 1 when the function returns. *)
Definition mp_init_ports (cpuid : Z) (w : mp_world) : option (Z * mp_world) :=
  match init_ports_from (Z.to_nat MAX_CHANNELS) cpuid 0 w with Some w => Some (1, w) | None => None end.

End Mp.
