(* ===== verification/MpPorts.v ===== *)
(** MpPorts: properties of the allocation and of port creation (Mp.v).

    Areas allocated on a core are aligned and disjoint; creating the two ports
    of a queuing channel and connecting them gives a channel in the initial
    state of QueueFifo. *)

From stdpp Require Import base numbers functions list.
From S2P Require Import Prelude Noc MemSize Queuing QueueFifo Mp.

Lemma WALIGN_words x : 0 <= x < 2 ^ 32 - 3 -> WALIGN x = 4 * ((x + 3) / 4).
Proof. apply align_4. Qed.
Lemma WALIGN_mult k : 0 <= k < 2 ^ 29 -> WALIGN (4 * k) = 4 * k.
Proof. intros Hk. rewrite WALIGN_words by lia. Z.div_mod_to_equations. lia. Qed.

Section Alloc.
Context `{ArgoBase}.

(** The allocation pointer of a core: a word below the limit of mp_alloc, which
    is four times as far as the scratchpad is long. *)
Record heap_ok (cpuid : Z) (w : mp_world) : Prop := {
  h_base : 0 < NOC_SPM_BASE /\ 0 <= spm_size w cpuid /\ NOC_SPM_BASE + 4 * spm_size w cpuid < 2 ^ 32;
  h_ptr : NOC_SPM_BASE <= spm_alloc w cpuid <= NOC_SPM_BASE + 4 * spm_size w cpuid;
  h_align : (spm_alloc w cpuid - NOC_SPM_BASE) mod 4 = 0;
}.

Lemma mp_alloc_run cpuid size w : heap_ok cpuid w -> 0 <= size < 2 ^ 32 - 3 ->
  spm_alloc w cpuid + WALIGN size < 2 ^ 32 ->
  mp_alloc cpuid size w =
    if spm_alloc w cpuid + WALIGN size <=? NOC_SPM_BASE + 4 * spm_size w cpuid
    then (spm_alloc w cpuid, with_alloc (<[cpuid := spm_alloc w cpuid + WALIGN size]> (spm_alloc w)) w)
    else (NULL, w).
Proof.
  intros [Hb Hp Ha] Hs Hlt. unfold mp_alloc. assert (0 <= WALIGN size) by (rewrite WALIGN_words by lia; Z.div_mod_to_equations; lia).
  rewrite (u32_small (spm_alloc w cpuid + WALIGN size)), (u32_small (NOC_SPM_BASE + _)) by lia.
  rewrite (proj2 (Z.ltb_ge _ NOC_SPM_BASE)) by lia.
  destruct (Z.leb_spec (spm_alloc w cpuid + WALIGN size) (NOC_SPM_BASE + 4 * spm_size w cpuid)); zdec; done.
Qed.

(** A sequence of requests of one core: the areas that were granted. *)
Fixpoint alloc_all (cpuid : Z) (rs : list Z) (w : mp_world) : list (Z * Z) * mp_world :=
  match rs with
  | [] => ([], w)
  | r :: rs' =>
      let '(p, w) := mp_alloc cpuid r w in
      let '(ps, w) := alloc_all cpuid rs' w in
      ((if p =? NULL then [] else [(p, r)]) ++ ps, w)
  end.

Definition area_in (lo hi : Z) (a : Z * Z) : Prop :=
  lo <= fst a /\ fst a + WALIGN (snd a) <= hi /\ (fst a - NOC_SPM_BASE) mod 4 = 0.
Definition apart (a b : Z * Z) : Prop := fst a + WALIGN (snd a) <= fst b.

Lemma alloc_all_areas cpuid rs : forall w, heap_ok cpuid w ->
  Forall (fun r => 0 <= r /\ NOC_SPM_BASE + 4 * spm_size w cpuid + WALIGN r < 2 ^ 32 /\ r < 2 ^ 32 - 3) rs ->
  let '(ps, w') := alloc_all cpuid rs w in
  Forall (area_in (spm_alloc w cpuid) (NOC_SPM_BASE + 4 * spm_size w cpuid)) ps /\ ForallOrdPairs apart ps /\
  heap_ok cpuid w'.
Proof.
  induction rs as [|r rs IH]; intros w Hh Hrs; cbn [alloc_all]; [by split; [|split; [constructor|]]|].
  apply Forall_cons in Hrs as [(Hr0 & Hr1 & Hr2) Hrs]. pose proof Hh as [Hb Hp Ha].
  rewrite mp_alloc_run by (done || lia).
  assert (0 <= WALIGN r /\ WALIGN r mod 4 = 0) as [HW HWm].
  { rewrite WALIGN_words by lia. split; [Z.div_mod_to_equations; lia|]. by rewrite Z.mul_comm, Z.mod_mul. }
  destruct (Z.leb_spec (spm_alloc w cpuid + WALIGN r) (NOC_SPM_BASE + 4 * spm_size w cpuid)) as [Hle|Hgt].
  2:{ specialize (IH w Hh Hrs). by destruct (alloc_all cpuid rs w). }
  set (w1 := with_alloc _ w).
  assert (spm_alloc w1 cpuid = spm_alloc w cpuid + WALIGN r) as E1 by apply fn_lookup_insert.
  assert (spm_size w1 = spm_size w) as E2 by done.
  assert (heap_ok cpuid w1) as Hh1.
  { constructor; rewrite ?E1, ?E2; [done|lia|].
    replace (spm_alloc w cpuid + WALIGN r - NOC_SPM_BASE) with (spm_alloc w cpuid - NOC_SPM_BASE + WALIGN r) by lia.
    rewrite Zplus_mod, Ha, HWm. done. }
  specialize (IH w1 Hh1). rewrite E1, E2 in IH. specialize (IH Hrs).
  destruct (alloc_all cpuid rs w1) as [ps w2]. destruct IH as (HF & HP & Hw2).
  rewrite (proj2 (Z.eqb_neq (spm_alloc w cpuid) NULL)) by (unfold NULL; lia). cbn [app].
  split; [|split; [|done]].
  - constructor; [split; cbn; lia|]. eapply Forall_impl; [exact HF|]. intros a (? & ? & ?). unfold area_in. lia.
  - constructor; [|done]. eapply Forall_impl; [exact HF|]. intros a (? & ? & ?). unfold apart. cbn. lia.
Qed.

(** Areas of a scratchpad do not overlap.  For every sequence of requests
    of a core, the areas that mp_alloc grants are word-aligned, lie behind one
    another without overlap, and end before the limit the function computes,
    which is four times the size of the scratchpad behind its base, because it
    adds the size in bytes to a pointer to words; a request is granted exactly
    when it ends before that limit. *)
Theorem mp_alloc_disjoint cpuid rs w : heap_ok cpuid w ->
  Forall (fun r => 0 <= r /\ NOC_SPM_BASE + 4 * spm_size w cpuid + WALIGN r < 2 ^ 32 /\ r < 2 ^ 32 - 3) rs ->
  Forall (area_in (spm_alloc w cpuid) (NOC_SPM_BASE + 4 * spm_size w cpuid)) (fst (alloc_all cpuid rs w)) /\
  ForallOrdPairs apart (fst (alloc_all cpuid rs w)) /\
  Forall (fun r => fst (mp_alloc cpuid r w) =
    if spm_alloc w cpuid + WALIGN r <=? NOC_SPM_BASE + 4 * spm_size w cpuid then spm_alloc w cpuid else NULL) rs.
Proof.
  intros Hh Hrs. pose proof (alloc_all_areas cpuid rs w Hh Hrs) as HA. destruct (alloc_all cpuid rs w).
  split; [apply HA|]. split; [apply HA|]. eapply Forall_impl; [exact Hrs|]. intros r (H0 & H1 & H2).
  destruct Hh as [Hb Hp Ha]. rewrite mp_alloc_run by (done || lia). by case_match.
Qed.

End Alloc.

Lemma to_char_small {CM : CharModel} x : 0 <= x < 128 -> to_char x = x.
Proof.
  intros Hx. unfold to_char, s8, u8, sext. destruct char_signed; rewrite Z.mod_small by lia; [|done].
  change (8 - 1) with 7. by rewrite (proj2 (Z.ltb_lt x (2 ^ 7))) by lia.
Qed.

Section Ports.
Context `{ArgoBase} {CM : CharModel}.

(** Ten words of descriptor, then the buffers. *)
Definition after_desc (p : Z) : Z := p + 10.

(** Room for the port of a core whose allocation pointer is at word [p] and
    whose buffers take [len] words: they end within the scratchpad, whose
    length in bytes is spm_size (the limit of mp_alloc is four times that). *)
Record room (cpuid p len : Z) (w : mp_world) : Prop := {
  r_heap : heap_ok cpuid w;
  r_ptr : spm_alloc w cpuid = adr p;
  r_fit : 0 <= p /\ 0 <= len /\ after_desc p + len <= 2 ^ 14 /\
          adr (after_desc p + len) <= NOC_SPM_BASE + spm_size w cpuid;
  r_base : NOC_SPM_BASE + 2 ^ 16 <= 2 ^ 32;
}.

Lemma alloc_words cpuid p k w : heap_ok cpuid w -> spm_alloc w cpuid = adr p -> 0 <= p -> 0 <= k -> p + k <= 2 ^ 14 ->
  adr (p + k) <= NOC_SPM_BASE + 4 * spm_size w cpuid ->
  mp_alloc cpuid (4 * k) w = (adr p, with_alloc (<[cpuid := adr (p + k)]> (spm_alloc w)) w).
Proof.
  intros Hh Hp H0 Hk Hle Hfit. pose proof Hh as [Hb _ _]. unfold adr in *.
  rewrite mp_alloc_run; [|done|lia|rewrite WALIGN_mult by lia; lia]. rewrite WALIGN_mult by lia. rewrite Hp. zdec.
  by replace (NOC_SPM_BASE + 4 * p + 4 * k) with (NOC_SPM_BASE + 4 * (p + k)) by lia.
Qed.

Lemma adr_not_null cpuid p w : heap_ok cpuid w -> 0 <= p -> (adr p =? NULL) = false.
Proof. intros [Hb _ _] Hp. apply Z.eqb_neq. unfold adr, NULL. lia. Qed.

Lemma heap_alloc cpuid p w : heap_ok cpuid w -> 0 <= p -> adr p <= NOC_SPM_BASE + 4 * spm_size w cpuid ->
  heap_ok cpuid (with_alloc (<[cpuid := adr p]> (spm_alloc w)) w).
Proof.
  intros [Hb Hp Ha] H0 Hle. constructor; cbn; rewrite ?fn_lookup_insert; [done|unfold adr in *; lia|].
  unfold adr. replace (NOC_SPM_BASE + 4 * p - NOC_SPM_BASE) with (p * 4) by lia. by rewrite Z.mod_mul.
Qed.

(** The channel entry and the descriptor that a source leaves. *)
Definition src_chan (cs p b : Z) (c : chan_info_t) : chan_info_t :=
  mk_chan QUEUING cs (sink_id c) (adr (Cs (after_desc p) b)) (sink_addr c) (src_lock c) (sink_lock c) (adr p) (sink_ptr c).
Definition src_desc (p b nb : Z) (q : qpd_t) : qpd_t :=
  mk_qpd SOURCE (remote q) (recv_addr q) (adr (Cs (after_desc p) b)) (4 * b) nb
    (adr (after_desc p)) (adr (after_desc p + stride b)) 0 0 (read_buf q) (recv_count q) (recv_ptr q).

Lemma create_source cs c p msize b nb w : 0 <= cs < 128 -> 0 <= c < MAX_CHANNELS -> 0 <= msize < 2 ^ 16 ->
  b = (msize + 3) / 4 -> room cs p (2 * stride b + 1) w -> exists w',
  mp_create_qport cs c SOURCE msize nb w = (adr p, w') /\
  (forall o, o <> cs -> spm_alloc w' o = spm_alloc w o /\ qpds w' o = qpds w o /\ nocs w' o = nocs w o) /\
  spm_size w' = spm_size w /\ chan_info w' c = src_chan cs p b (chan_info w c) /\
  (forall i, i <> c -> chan_info w' i = chan_info w i) /\
  qpds w' cs (adr p) = src_desc p b nb (qpds w cs (adr p)) /\
  nocs w' cs = mk_noc (<[Cs (after_desc p) b := 0]> (spm (nocs w cs))) (dma_tab (nocs w cs)).
Proof.
  intros Hcs Hc Hm Eb [Hh Hp (H0 & Hl & H14 & Hfit) Hbase]. pose proof Hh as [Hb0 _ _].
  assert (Hlim : adr (after_desc p + (2 * stride b + 1)) <= NOC_SPM_BASE + 4 * spm_size w cs) by lia.
  assert (0 <= b /\ 4 * b <= msize + 3) as [Hb Hb4] by (subst b; Z.div_mod_to_equations; lia).
  unfold mp_create_qport. rewrite (proj2 (Z.leb_gt MAX_CHANNELS c)) by lia.
  change SIZEOF_qpd_t with (4 * 10). unfold after_desc, stride in *.
  rewrite (alloc_words cs p 10 w Hh Hp) by (done || lia || (unfold adr in *; lia)).
  rewrite (adr_not_null cs p w Hh H0). cbn [qpds with_qpd with_chan].
  rewrite fn_lookup_insert. cbn [qpds with_alloc]. rewrite fn_lookup_insert. cbn [buf_size].
  rewrite WALIGN_words, <- Eb by lia.
  match goal with |- context [mp_alloc cs (mp_send_alloc_size ?q) ?w'] => set (w1 := w');
    assert (mp_send_alloc_size q = 4 * (2 * (b + 1) + 1)) as -> end.
  { unfold mp_send_alloc_size, FLAG_SIZE, NUM_WRITE_BUF. cbn [buf_size]. change (WALIGN 4) with 4. rewrite u32_small; lia. }
  assert (heap_ok cs w1) as Hh1.
  { destruct (heap_alloc cs (p + 10) w Hh) as [? ? ?]; [lia|unfold adr in *; lia|]. by constructor. }
  rewrite (alloc_words cs (p + 10) (2 * (b + 1) + 1) w1 Hh1 (fn_lookup_insert _ _ _)) by (done || lia).
  rewrite (adr_not_null cs (p + 10) w Hh) by lia. unfold FLAG_SIZE, NUM_WRITE_BUF.
  replace (u32 (adr (p + 10) + u32 ((4 * b + 4) * 2))) with (adr (p + 10 + 2 * (b + 1)))
    by (rewrite (u32_small ((4 * b + 4) * 2)), u32_small by (unfold adr in *; lia); unfold adr; lia).
  eexists. split; [reflexivity|]. clear Hh1. subst w1. cbn. rewrite !fn_lookup_insert. cbn.
  unfold src_chan, src_desc, Cs, stride, after_desc. cbn. rewrite to_char_small by lia.
  split; [|split; [|split; [|split; [|split]]]].
  - intros o Ho. rewrite !fn_lookup_insert_ne by done. done.
  - done.
  - done.
  - intros i Hi. rewrite !fn_lookup_insert_ne by done. done.
  - f_equal.
    rewrite u32_small by (unfold adr in *; lia). unfold adr. lia.
  - by rewrite stw_adr.
Qed.

(** The channel entry and the descriptor that a sink leaves. *)
Definition snk_chan (cr p : Z) (c : chan_info_t) : chan_info_t :=
  mk_chan QUEUING (src_id c) cr (src_addr c) (adr (after_desc p)) (src_lock c) (sink_lock c) (src_ptr c) (adr p).
Definition snk_desc (p b nb : Z) (q : qpd_t) : qpd_t :=
  mk_qpd SINK (remote q) (adr (after_desc p)) (send_recv_count q) (4 * b) nb (write_buf q) (shadow_write_buf q)
    (send_count q) (send_ptr q) (adr (after_desc p)) (adr (Cr (after_desc p) b nb)) 0.

Lemma clear_flags_spec r b : 0 <= b -> forall k i n, 0 <= i ->
  let n' := clear_flags k i (adr r) (4 * b) n in
  dma_tab n' = dma_tab n /\
  (forall j, i <= j < i + Z.of_nat k -> spm n' (r + stride b * j + b) = 0) /\
  (forall a, (forall j, i <= j < i + Z.of_nat k -> a <> r + stride b * j + b) -> spm n' a = spm n a).
Proof.
  intros Hb. induction k as [|k IH]; intros i n Hi; cbn [clear_flags]; [split; [done|]; split; [lia|done]|].
  assert (adr r + (4 * b + FLAG_SIZE) * i + 4 * b = adr (r + stride b * i + b)) as -> by (unfold adr, FLAG_SIZE, stride; lia).
  rewrite stw_adr. set (n1 := mk_noc _ _). destruct (IH (i + 1) n1 ltac:(lia)) as (Ht & Hz & Ho).
  split; [done|]. split.
  - intros j Hj. destruct (decide (j = i)) as [->|]; [|apply Hz; lia].
    rewrite Ho by (intros j' Hj' E; unfold stride in E; nia). subst n1. cbn. apply fn_lookup_insert.
  - intros a Ha. rewrite Ho by (intros j Hj; apply Ha; lia). subst n1. cbn.
    rewrite fn_lookup_insert_ne; [done|]. intros E. apply (Ha i); [lia|done].
Qed.

Lemma create_sink cr c p msize b nb w : 0 <= cr < 128 -> 0 <= c < MAX_CHANNELS -> 0 <= msize < 2 ^ 16 ->
  b = (msize + 3) / 4 -> 0 < nb -> room cr p (stride b * nb + 1) w -> exists w',
  mp_create_qport cr c SINK msize nb w = (adr p, w') /\
  (forall o, o <> cr -> spm_alloc w' o = spm_alloc w o /\ qpds w' o = qpds w o /\ nocs w' o = nocs w o) /\
  spm_size w' = spm_size w /\ chan_info w' c = snk_chan cr p (chan_info w c) /\
  (forall i, i <> c -> chan_info w' i = chan_info w i) /\
  qpds w' cr (adr p) = snk_desc p b nb (qpds w cr (adr p)) /\
  dma_tab (nocs w' cr) = dma_tab (nocs w cr) /\
  spm (nocs w' cr) (Cr (after_desc p) b nb) = 0 /\
  (forall j, 0 <= j < nb -> spm (nocs w' cr) (after_desc p + stride b * j + b) = FLAG_INVALID).
Proof.
  intros Hcr Hc Hm Eb Hnb [Hh Hp (H0 & Hl & H14 & Hfit) Hbase]. pose proof Hh as [Hb0 _ _].
  assert (Hlim : adr (after_desc p + (stride b * nb + 1)) <= NOC_SPM_BASE + 4 * spm_size w cr) by lia.
  assert (0 <= b /\ 4 * b <= msize + 3) as [Hb Hb4] by (subst b; Z.div_mod_to_equations; lia).
  unfold mp_create_qport. rewrite (proj2 (Z.leb_gt MAX_CHANNELS c)) by lia.
  change SIZEOF_qpd_t with (4 * 10). unfold after_desc, Cr, stride in *.
  assert (0 <= (b + 1) * nb) as Hbn by nia.
  rewrite (alloc_words cr p 10 w Hh Hp) by (done || lia || (unfold adr in *; lia)).
  rewrite (adr_not_null cr p w Hh H0). cbn [qpds with_qpd with_chan].
  rewrite fn_lookup_insert. cbn [qpds with_alloc]. rewrite fn_lookup_insert. cbn [buf_size num_buf].
  rewrite WALIGN_words, <- Eb by lia.
  match goal with |- context [mp_alloc cr (mp_recv_alloc_size ?q) ?w'] => set (w1 := w');
    assert (mp_recv_alloc_size q = 4 * ((b + 1) * nb + 1)) as -> end.
  { unfold mp_recv_alloc_size, FLAG_SIZE. cbn [buf_size num_buf]. change (WALIGN 4) with 4. rewrite u32_small; lia. }
  assert (heap_ok cr w1) as Hh1.
  { destruct (heap_alloc cr (p + 10) w Hh) as [? ? ?]; [lia|unfold adr in *; lia|]. by constructor. }
  rewrite (alloc_words cr (p + 10) ((b + 1) * nb + 1) w1 Hh1 (fn_lookup_insert _ _ _)) by (done || lia).
  rewrite (adr_not_null cr (p + 10) w Hh) by lia. unfold FLAG_SIZE.
  replace (u32 (adr (p + 10) + u32 ((4 * b + 4) * nb))) with (adr (p + 10 + (b + 1) * nb))
    by (rewrite (u32_small ((4 * b + 4) * nb)), u32_small by (unfold adr in *; lia); unfold adr; lia).
  eexists. split; [reflexivity|]. clear Hh1. subst w1. cbn. rewrite !fn_lookup_insert. cbn.
  unfold snk_chan, snk_desc, Cr, stride, after_desc. cbn. rewrite to_char_small by lia. rewrite stw_adr.
  match goal with |- context [clear_flags _ _ _ _ ?n] =>
    destruct (clear_flags_spec (p + 10) b Hb (Z.to_nat nb) 0 n ltac:(lia)) as (Ht & Hz & Ho) end.
  split; [|split; [|split; [|split; [|split; [|split; [|split]]]]]].
  - intros o Hne. rewrite !fn_lookup_insert_ne by done. done.
  - done.
  - done.
  - intros i Hi. rewrite !fn_lookup_insert_ne by done. done.
  - done.
  - by rewrite Ht.
  - rewrite Ho; [apply fn_lookup_insert|]. intros j Hj. unfold stride. nia.
  - intros j Hj. apply Hz. lia.
Qed.

(** mp_init_ports of a core that is at one end of channel [c] only. *)
Lemma init_port_other cpuid i w : src_id (chan_info w i) <> cpuid -> sink_id (chan_info w i) <> cpuid ->
  init_port cpuid i w = Some w.
Proof. intros Hs Hk. unfold init_port. by rewrite (proj2 (Z.eqb_neq _ _) Hs), (proj2 (Z.eqb_neq _ _) Hk). Qed.

Lemma init_port_chan cpuid i w w' : init_port cpuid i w = Some w' -> chan_info w' = chan_info w.
Proof.
  unfold init_port, init_source, init_sink. intros E.
  repeat (case_match; simplify_eq; try done).
Qed.

Lemma init_ports_one cpuid c k : forall from w,
  (forall i, i <> c -> src_id (chan_info w i) <> cpuid /\ sink_id (chan_info w i) <> cpuid) ->
  init_ports_from k cpuid from w =
    if (from <=? c) && (c <? from + Z.of_nat k) then init_port cpuid c w else Some w.
Proof.
  induction k as [|k IH]; intros from w Ho; cbn [init_ports_from].
  - by destruct (Z.leb_spec from c); zdec.
  - destruct (decide (from = c)) as [->|Hne].
    + zdec. destruct (init_port cpuid c w) as [w'|] eqn:E; [|done].
      rewrite IH by (by rewrite (init_port_chan _ _ _ _ E)). by zdec.
    + rewrite init_port_other by (apply Ho; done). rewrite IH by done.
      destruct (Z.leb_spec from c); zdec; [|done]. destruct (Z.ltb_spec c (from + Z.of_nat (S k))); zdec; done.
Qed.

Lemma mp_init_ports_one cpuid c w : 0 <= c < MAX_CHANNELS ->
  (forall i, i <> c -> src_id (chan_info w i) <> cpuid /\ sink_id (chan_info w i) <> cpuid) ->
  mp_init_ports cpuid w = option_map (fun w => (1, w)) (init_port cpuid c w).
Proof.
  intros Hc Ho. unfold mp_init_ports. rewrite (init_ports_one cpuid c) by done. unfold MAX_CHANNELS in *.
  rewrite Z2Nat.id by lia. zdec. by destruct (init_port cpuid c w).
Qed.

(** Both cores create their port of channel [c], then both connect. *)
Definition connect (cs cr c msize nb : Z) (w : mp_world) : option (Z * Z * mp_world) :=
  let '(ps, w) := mp_create_qport cs c SOURCE msize nb w in
  let '(pr, w) := mp_create_qport cr c SINK msize nb w in
  match mp_init_ports cs w with
  | Some (_, w) => match mp_init_ports cr w with Some (_, w) => Some (ps, pr, w) | None => None end
  | None => None
  end.

(** The world before: room for both ports, no other channel of these cores,
    no transfer under way. *)
Record connect_pre (cs cr c p r msize nb : Z) (w : mp_world) : Prop := {
  pre_cores : 0 <= cs < 128 /\ 0 <= cr < 128 /\ cs <> cr;
  pre_chan : 0 <= c < MAX_CHANNELS /\ 0 <= msize < 2 ^ 16 /\ 0 < nb;
  pre_src : room cs p (2 * stride ((msize + 3) / 4) + 1) w;
  pre_snk : room cr r (stride ((msize + 3) / 4) * nb + 1) w;
  pre_other : forall i, i <> c -> forall x, x = cs \/ x = cr ->
    src_id (chan_info w i) <> x /\ sink_id (chan_info w i) <> x;
  pre_idle : xfer_of cr (nocs w cs) = None /\ xfer_of cs (nocs w cr) = None;
}.

(** C29: creating and connecting the ports gives a working channel.  When the
    source and the sink core call mp_create_qport for the same channel with the
    same sizes and both call mp_init_ports, and the memory of their scratchpads has
    room for the descriptors and buffers, both get a descriptor, no call waits
    forever, and the two ports are a queuing channel in its initial state, with
    the buffers behind the descriptors and inside the scratchpads. *)
Theorem qport_channel_ready cs cr c p r msize nb w : connect_pre cs cr c p r msize nb w ->
  let b := (msize + 3) / 4 in
  exists w', connect cs cr c msize nb w = Some (adr p, adr r, w') /\
  chan_ok cs cr (after_desc p) (after_desc r) b nb /\
  chan_init cs cr (after_desc p) (after_desc r) b nb
    (mk_qsys (qpds w' cs (adr p)) (nocs w' cs) (qpds w' cr (adr r)) (nocs w' cr) [] 0 0).
Proof.
  intros [(Hcs & Hcr & Hne) (Hc & Hm & Hnb) Hsrc Hsnk Hoth [Hi1 Hi2]] b.
  change ((msize + 3) / 4) with b in Hsrc, Hsnk.
  destruct (create_source cs c p msize b nb w Hcs Hc Hm eq_refl Hsrc) as (w1 & E1 & O1 & S1 & C1 & CO1 & Q1 & N1).
  assert (room cr r (stride b * nb + 1) w1) as Hsnk1.
  { destruct (O1 cr ltac:(done)) as (Ea & _ & _). destruct Hsnk as [[? ? ?] ? ? ?].
    constructor; [constructor|..]; rewrite ?Ea, ?S1; done. }
  destruct (create_sink cr c r msize b nb w1 Hcr Hc Hm eq_refl Hnb Hsnk1)
    as (w2 & E2 & O2 & S2 & C2 & CO2 & Q2 & T2 & Z2 & F2).
  unfold connect. rewrite E1, E2. rewrite C1 in C2.
  assert (forall i, i <> c -> forall x, x = cs \/ x = cr ->
    src_id (chan_info w2 i) <> x /\ sink_id (chan_info w2 i) <> x) as Ho2.
  { intros i Hi x Hx. rewrite CO2, CO1 by done. by apply Hoth. }
  rewrite (mp_init_ports_one cs c w2 Hc) by auto. unfold init_port at 1. rewrite C2. cbn [snk_chan src_chan src_id sink_id].
  rewrite Z.eqb_refl, (proj2 (Z.eqb_neq cr (-1))) by lia. unfold init_source.
  cbn [option_map snk_chan src_chan port_type src_ptr sink_id sink_addr]. set (w3 := with_qpd cs _ _ w2).
  rewrite (mp_init_ports_one cr c w3 Hc) by (change (chan_info w3) with (chan_info w2); auto). unfold init_port.
  change (chan_info w3) with (chan_info w2). rewrite C2. cbn [snk_chan src_chan src_id sink_id].
  rewrite (proj2 (Z.eqb_neq cs cr)), Z.eqb_refl, (proj2 (Z.eqb_neq cs (-1))) by lia. unfold init_sink.
  cbn [option_map snk_chan src_chan port_type sink_ptr src_id src_addr]. rewrite !to_char_small by done.
  eexists. split; [reflexivity|]. destruct Hsrc as [[? _ _] _ ? ?], Hsnk as [[? _ _] _ ? ?].
  assert (0 <= b) by (subst b; Z.div_mod_to_equations; lia).
  split; [constructor; unfold Cs, Cr, after_desc in *; lia|].
  destruct (O2 cs Hne) as (_ & Eq2 & En2). destruct (O1 cr ltac:(done)) as (_ & Eq1 & En1).
  constructor; cbn.
  - rewrite fn_lookup_insert_ne, !fn_lookup_insert by done. rewrite Eq2, Q1.
    unfold src_port. cbn. by rewrite to_char_small, Z.mod_0_l by lia.
  - rewrite fn_lookup_insert. rewrite fn_lookup_insert. rewrite fn_lookup_insert_ne by done. rewrite Q2.
    unfold snk_port. cbn. by rewrite ?to_char_small, Z.mod_0_l by lia.
  - done.
  - rewrite En2, N1. cbn. by rewrite fn_lookup_insert.
  - done.
  - rewrite En2, N1. split; [done|]. unfold xfer_of, Noc.w0, Noc.w1 in *. rewrite T2, En1. done.
Qed.

End Ports.

(** ** An example: two cores with scratchpads of 4 KB *)

Module Start.
Import Demo.
#[export] Instance char_model : CharModel := true.
Definition no_chan : chan_info_t := mk_chan QUEUING (-1) (-1) 0 0 0 0 0 0.
Definition w0 : mp_world :=
  mk_mpw (fun _ => NOC_SPM_BASE) (fun _ => 4096) (fun _ => no_chan) (fun _ => blank) (fun _ _ => q0)
    (fun _ _ => mk_spd SOURCE 0 0 0 0 0 0) (fun _ _ => mk_lref 0 0).
Lemma w0_heap c : heap_ok c w0.
Proof. constructor; vm_compute; intuition congruence. Qed.
Lemma w0_room c len : 0 <= len <= 1000 -> room c 0 len w0.
Proof.
  intros Hl. constructor; [apply w0_heap|reflexivity| |vm_compute; congruence].
  unfold after_desc, adr. cbn. change NOC_SPM_BASE with 0xE4000000. lia.
Qed.
Lemma w0_pre : connect_pre 1 2 7 0 0 30 3 w0.
Proof.
  constructor; try (unfold MAX_CHANNELS; lia); try (apply w0_room; vm_compute; intuition congruence).
  - intros i _ x Hx. cbn. lia.
  - split; reflexivity.
Qed.
End Start.
Import Demo Start.

(** Also a request of 16000 bytes is granted, on a scratchpad of 4096. *)
Lemma mp_alloc_disjoint_witness :
  ForallOrdPairs apart (fst (alloc_all 3 [10; 16000; 7] w0)) /\ fst (mp_alloc 3 16000 w0) = NOC_SPM_BASE.
Proof.
  destruct (mp_alloc_disjoint 3 [10; 16000; 7] w0 (w0_heap 3)) as (_ & HP & HG).
  - repeat (constructor; [vm_compute; intuition congruence|]). constructor.
  - split; [exact HP|]. apply Forall_cons in HG as [_ HG]. apply Forall_cons in HG as [HG _]. rewrite HG. reflexivity.
Defined.

Lemma qport_channel_ready_witness : exists w',
  connect 1 2 7 30 3 w0 = Some (adr 0, adr 0, w') /\
  chan_init 1 2 10 10 8 3 (mk_qsys (qpds w' 1 (adr 0)) (nocs w' 1) (qpds w' 2 (adr 0)) (nocs w' 2) [] 0 0).
Proof.
  destruct (qport_channel_ready 1 2 7 0 0 30 3 w0 w0_pre) as (w' & E & _ & Hi).
  exists w'. split; [exact E|exact Hi].
Defined.
