(* ===== verification/Sampling.v ===== *)
(** Sampling: the sampling ports of libmp/sampling.c, implementation
    DOUBLE_NOC (the default).

    - The writer sends a sample into the one of two buffers at the reader that
      is not the newest, then tells the reader under the lock that this buffer
      is the newest.  The reader copies the newest buffer under the lock.
    - [WPc] and [RPc] are the positions of the cores in mp_write and mp_read,
      one per access to shared state; between them run the steps of
      acquire_lock and release_lock (Lock.v).  [smp] is the argument of the
      call, the address of the sample.
    - [ssys] is the state of both cores, the lock and the network; [log] lists
      the samples written and read, in the order of the critical sections.
    - The channel behaves as an atomic register. *)

From stdpp Require Import base numbers list functions.
From S2P Require Import Prelude Lock Noc Queuing QueueFifo Mp.

Inductive WPc :=
| WIdle
| WSend (smp : Z)
| WWait (smp : Z)
| WLock (smp : Z)
| WPublish (smp : Z)
| WWaitPublish (smp : Z)
| WUnlock.

(** [src] is the buffer that is copied, [i] the number of words copied. *)
Inductive RPc :=
| RIdle
| RLock (smp : Z)
| RNewest (smp : Z)
| RCopy (smp src i : Z)
| RUnlock.

Inductive reg_op := Wrote (v : list Z) | Got (v : list Z).

Record ssys := mk_ssys {
  lks : Lock.sys;
  wn : noc; rn : noc;
  wpc : WPc; rpc : RPc;
  log : list reg_op;
}.

(** The cores make a step, the network moves a word of the sample or of the
    lock, the applications store words and call mp_write and mp_read. *)
Inductive sevent :=
| StepW | StepR | MoveSample | MoveLockW | MoveLockR
| StoreW (w v : Z) | StoreR (w v : Z) | CallWrite (w : Z) | CallRead (w : Z).

Section Ports.
Context `{ArgoBase}.
(** The cores; descriptors of the writer's and reader's port, and the word
    addresses of the descriptors. *)
Context (cw cr : Z) (dw dr : spd_t) (P Q : Z).

Definition lock_step (g : agent) (s : ssys) : ssys :=
  mk_ssys (Lock.step cw cr g (lks s)) (wn s) (rn s) (wpc s) (rpc s) (log s).
Definition goto_w (p : WPc) (s : ssys) : ssys := mk_ssys (lks s) (wn s) (rn s) p (rpc s) (log s).
Definition goto_r (p : RPc) (s : ssys) : ssys := mk_ssys (lks s) (wn s) (rn s) (wpc s) p (log s).
Definition logged (o : reg_op) (s : ssys) : ssys :=
  mk_ssys (lks s) (wn s) (rn s) (wpc s) (rpc s) (log s ++ [o]).

(** One attempt of the loop in noc_write: the entry of the remote core in the
    DMA table may still be used by a transfer of the lock. *)
Definition try_write (dst src size : Z) (next : WPc) (s : ssys) : ssys :=
  match dma (sa (lks s)) with
  | Some _ => s
  | None =>
      let '(r, n) := noc_nbwrite (s_remote dw) dst src size 0 (wn s) in
      if r =? 0 then s else mk_ssys (lks s) n (rn s) next (rpc s) (log s)
  end.
(** while (!noc_dma_done(sport->remote)). *)
Definition dma_finished (s : ssys) : bool :=
  negb (noc_dma_done (s_remote dw) (wn s) =? 0) && bool_decide (dma (sa (lks s)) = None).

Definition is_critical (c : side) : bool := match pc c with Critical _ => true | _ => false end.
Definition is_out (c : side) : bool := match pc c with Out => true | _ => false end.

Definition spd_next : Z := adr P + SPD_NEXT.
(** (unsigned int)read_bufs + next * sample_size *)
Definition write_dest (n : noc) : Z := u32 (read_bufs dw + u32 (ldw spd_next n * sample_size dw)).
Definition sample_words : Z := u32 (Z.quot (s32 (sample_size dr) + 4 - 1) 4).
Definition words (n : noc) (smp : Z) : list Z := words_at sample_words n ((smp - NOC_SPM_BASE) / 4).

(** mp_write and mp_write_cs. *)
Definition write_step (s : ssys) : ssys :=
  match wpc s with
  | WIdle => s
  | WSend smp => try_write (write_dest (wn s)) smp (sample_size dw) (WWait smp) s
  | WWait smp => if dma_finished s then goto_w (WLock smp) s else s
  | WLock smp => if is_critical (sa (lks s)) then goto_w (WPublish smp) s else lock_step CoreA s
  | WPublish smp => try_write (remote_spd dw + SPD_NEWEST) spd_next 4 (WWaitPublish smp) s
  | WWaitPublish smp =>
      if dma_finished s then logged (Wrote (words (wn s) smp)) (goto_w WUnlock (lock_step CoreA s)) else s
  | WUnlock =>
      if is_out (sa (lks s)) then
        let n := stw spd_next (Z.lxor (ldw spd_next (wn s)) 1) (wn s) in
        mk_ssys (lks s) n (rn s) WIdle (rpc s) (log s)
      else lock_step CoreA s
  end.

(** mp_read, mp_read_cs and mem_copy. *)
Definition read_step (s : ssys) : ssys :=
  match rpc s with
  | RIdle => s
  | RLock smp => if is_critical (sb (lks s)) then goto_r (RNewest smp) s else lock_step CoreB s
  | RNewest smp =>
      let newest := s32 (ldw (adr Q + SPD_NEWEST) (rn s)) in
      goto_r (RCopy smp (u32 (read_bufs dr + u32 (newest * sample_size dr))) 0) s
  | RCopy smp src i =>
      if i <? sample_words then
        mk_ssys (lks s) (wn s) (stw (smp + 4 * i) (ldw (src + 4 * i) (rn s)) (rn s)) (wpc s)
          (RCopy smp src (i + 1)) (log s)
      else logged (Got (words (rn s) smp)) (goto_r RUnlock (lock_step CoreB s))
  | RUnlock => if is_out (sb (lks s)) then goto_r RIdle s else lock_step CoreB s
  end.

(** The buffers at the reader, and the words of a sample. *)
Context (B b : Z).

(** Where the applications may keep samples: not in the memory of the ports. *)
Definition src_ok (w : Z) : bool :=
  (0 <=? w) && (w + b <=? 2 ^ 14) && ((w + b <=? P + 9) || (P + 9 <? w)).
Definition dst_ok (w : Z) : bool :=
  (0 <=? w) && (w + b <=? 2 ^ 14) && ((w + b <=? B) || (B + 2 * b <=? w)) && ((w + b <=? Q + 8) || (Q + 8 <? w)).

Definition sstep (ev : sevent) (s : ssys) : ssys :=
  match ev with
  | StepW => write_step s
  | StepR => read_step s
  | MoveSample => let '(n1, n2) := hw_move cr (wn s) (rn s) in mk_ssys (lks s) n1 n2 (wpc s) (rpc s) (log s)
  | MoveLockW => lock_step DmaA s
  | MoveLockR => lock_step DmaB s
  | StoreW w v =>
      match wpc s with
      | WIdle => if w =? P + 9 then s else mk_ssys (lks s) (stw (adr w) v (wn s)) (rn s) (wpc s) (rpc s) (log s)
      | _ => s
      end
  | StoreR w v =>
      match rpc s with
      | RIdle => if ((B <=? w) && (w <? B + 2 * b)) || (w =? Q + 8) then s
                 else mk_ssys (lks s) (wn s) (stw (adr w) v (rn s)) (wpc s) (rpc s) (log s)
      | _ => s
      end
  | CallWrite w => match wpc s with WIdle => if src_ok w then goto_w (WSend (adr w)) s else s | _ => s end
  | CallRead w => match rpc s with RIdle => if dst_ok w then goto_r (RLock (adr w)) s else s | _ => s end
  end.

Inductive sreach (s0 : ssys) : ssys -> Prop :=
| sreach_start : sreach s0 s0
| sreach_step ev s : sreach s0 s -> sreach s0 (sstep ev s).

(** Ports that were created and connected, and their memory. *)
Record sport_ok : Prop := {
  sok_base : 0 <= NOC_SPM_BASE /\ NOC_SPM_BASE + 2 ^ 16 <= 2 ^ 32;
  sok_ids : 0 <= cw < 2 ^ 31 /\ 0 <= cr < 2 ^ 31 /\ cw <> cr;
  sok_b : 0 < b;
  sok_src : 0 <= P /\ P + 9 < 2 ^ 14;
  sok_snk : 0 <= Q /\ Q + 8 < B /\ B + 2 * b <= 2 ^ 14;
  sok_w : s_remote dw = cr /\ remote_spd dw = adr Q /\ read_bufs dw = adr B /\ sample_size dw = 4 * b;
  sok_r : read_bufs dr = adr B /\ sample_size dr = 4 * b;
}.

Record sport_init (s : ssys) : Prop := {
  sin_lock : lks s = Lock.start;
  sin_next : spm (wn s) (P + 9) = 0;
  sin_newest : spm (rn s) (Q + 8) = u32 (-1);
  sin_idle : xfer_of cr (wn s) = None /\ wpc s = WIdle /\ rpc s = RIdle /\ log s = [];
}.
End Ports.

(** ** The register *)

(** The value after a history, and the histories of an atomic register: what
    is read is the value last written. *)
Definition cur (l : list reg_op) : option (list Z) :=
  fold_left (fun c o => match o with Wrote v => Some v | Got _ => c end) l None.
#[global] Arguments cur : simpl never.
Definition legal (l : list reg_op) : Prop :=
  forall l1 l2 v u, l = l1 ++ Got v :: l2 -> cur l1 = Some u -> v = u.

Lemma cur_wrote l v : cur (l ++ [Wrote v]) = Some v.
Proof. unfold cur. by rewrite fold_left_app. Qed.
Lemma cur_got l v : cur (l ++ [Got v]) = cur l.
Proof. unfold cur. by rewrite fold_left_app. Qed.
Lemma legal_wrote l v : legal l -> legal (l ++ [Wrote v]).
Proof.
  intros Hl l1 l2 x u E Hu. destruct l2 as [|o l2 _] using rev_ind.
  - by apply app_inj_tail in E as [_ E].
  - rewrite app_comm_cons, app_assoc in E. apply app_inj_tail in E as [-> _]. by apply (Hl l1 l2).
Qed.
Lemma legal_got l v : legal l -> (forall u, cur l = Some u -> v = u) -> legal (l ++ [Got v]).
Proof.
  intros Hl Hv l1 l2 x u E Hu. destruct l2 as [|o l2 _] using rev_ind.
  - apply app_inj_tail in E as [-> [= ->]]. by apply Hv.
  - rewrite app_comm_cons, app_assoc in E. apply app_inj_tail in E as [-> _]. by apply (Hl l1 l2).
Qed.

(** ** Invariant *)

Section Inv.
Context `{ArgoBase} (cw cr : Z) (dw dr : spd_t) (P Q B b : Z).
Context (Hok : sport_ok cw cr dw dr P Q B b).

Definition nx (s : ssys) : Z := spm (wn s) (P + 9).
Definition newest (s : ssys) : Z := spm (rn s) (Q + 8).

(** The register's value is in buffer [v], and the reader knows. *)
Definition holds (s : ssys) (v : Z) : Prop :=
  match cur (log s) with
  | None => newest s = u32 (-1)
  | Some l => newest s = v /\ words_at b (rn s) (B + b * v) = l
  end.
(** The first [p] words of the sample arrived in the next buffer. *)
Definition arrived (s : ssys) (w p : Z) : Prop :=
  forall j, 0 <= j < p -> spm (rn s) (B + b * nx s + j) = spm (wn s) (w + j).
Definition idle (s : ssys) : Prop := xfer_of cr (wn s) = None.
Definition sample_at (smp : Z) (Phi : Z -> Prop) : Prop :=
  exists w, smp = adr w /\ src_ok P b w = true /\ Phi w.

Definition w_inv (s : ssys) : Prop :=
  match wpc s with
  | WIdle => idle s /\ holds s (1 - nx s)
  | WSend smp => idle s /\ holds s (1 - nx s) /\ sample_at smp (fun _ => True)
  | WWait smp => holds s (1 - nx s) /\ sample_at smp (fun w =>
      idle s /\ arrived s w b \/
      exists p, 0 <= p < b /\ xfer_of cr (wn s) = Some (mk_xfer (B + b * nx s + p) (w + p) (b - p)) /\ arrived s w p)
  | WLock smp => idle s /\ holds s (1 - nx s) /\ sample_at smp (fun w => arrived s w b)
  | WPublish smp =>
      in_critical (sa (lks s)) /\ idle s /\ holds s (1 - nx s) /\ sample_at smp (fun w => arrived s w b)
  | WWaitPublish smp =>
      in_critical (sa (lks s)) /\ sample_at smp (fun w => arrived s w b) /\
      (xfer_of cr (wn s) = Some (mk_xfer (Q + 8) (P + 9) 1) /\ holds s (1 - nx s) \/ idle s /\ newest s = nx s)
  | WUnlock => idle s /\ holds s (nx s) /\ cur (log s) <> None
  end.

Definition copied (s : ssys) (w v i : Z) : Prop :=
  forall j, 0 <= j < i -> spm (rn s) (w + j) = spm (rn s) (B + b * v + j).

Definition r_inv (s : ssys) : Prop :=
  match rpc s with
  | RIdle | RUnlock => True
  | RLock smp => exists w, smp = adr w /\ dst_ok Q B b w = true
  | RNewest smp => in_critical (sb (lks s)) /\ exists w, smp = adr w /\ dst_ok Q B b w = true
  | RCopy smp src i =>
      in_critical (sb (lks s)) /\ 0 <= i <= b /\ exists w, smp = adr w /\ dst_ok Q B b w = true /\
      (cur (log s) <> None -> src = adr (B + b * newest s) /\ copied s w (newest s) i)
  end.

Record sinv (s : ssys) : Prop := {
  i_lock : reach cw cr (lks s);
  i_next : nx s = 0 \/ nx s = 1;
  i_w : w_inv s;
  i_r : r_inv s;
  i_legal : legal (log s);
}.

Lemma src_ok_spec w : src_ok P b w = true -> 0 <= w /\ w + b <= 2 ^ 14 /\ (w + b <= P + 9 \/ P + 9 < w).
Proof. unfold src_ok. rewrite !andb_true_iff, orb_true_iff. lia. Qed.
Lemma dst_ok_spec w : dst_ok Q B b w = true ->
  0 <= w /\ w + b <= 2 ^ 14 /\ (w + b <= B \/ B + 2 * b <= w) /\ (w + b <= Q + 8 \/ Q + 8 < w).
Proof. unfold dst_ok. rewrite !andb_true_iff, !orb_true_iff. lia. Qed.

(** The addresses the code computes. *)
Lemma spd_next_adr : spd_next P = adr (P + 9).
Proof. unfold spd_next, SPD_NEXT, adr. lia. Qed.
Lemma newest_adr x : x = adr Q -> x + SPD_NEWEST = adr (Q + 8).
Proof. intros ->. unfold SPD_NEWEST, adr. lia. Qed.
Lemma sample_words_b : sample_words dr = b.
Proof.
  destruct Hok as [_ _ Hb _ Hs _ [_ Hd]]. unfold sample_words. rewrite Hd. unfold s32, sext.
  rewrite Z.mod_small by lia. rewrite (proj2 (Z.ltb_lt _ _)) by lia. rewrite Z.quot_div_nonneg by lia.
  rewrite u32_small; Z.div_mod_to_equations; lia.
Qed.
Lemma words_b n w : words dr n (adr w) = words_at b n w.
Proof. unfold words. by rewrite sample_words_b, adr_word. Qed.
Lemma buffer_adr v base : base = adr B -> v = 0 \/ v = 1 ->
  u32 (base + u32 (v * (4 * b))) = adr (B + b * v).
Proof.
  intros -> Hv. destruct Hok as [Hbase _ Hb _ Hs _ _]. unfold adr.
  rewrite (u32_small (v * (4 * b))) by nia. rewrite u32_small by nia. nia.
Qed.

Lemma words_at_eq n n' w w' :
  (forall j, 0 <= j < b -> spm n (w + j) = spm n' (w' + j)) -> words_at b n w = words_at b n' w'.
Proof. intros E. unfold words_at. apply map_ext_in. intros j Hj%list_elem_of_In%elem_of_seqZ. apply E. lia. Qed.

Lemma sample_mono smp (Phi Psi : Z -> Prop) : (forall w, Phi w -> Psi w) -> sample_at smp Phi -> sample_at smp Psi.
Proof. intros Hi (w & E & Hw & HP). exists w. auto. Qed.

(** ** What the steps of one core leave alone *)

Lemma r_inv_same s s' : rn s' = rn s -> rpc s' = rpc s -> cur (log s') = cur (log s) ->
  (in_critical (sb (lks s)) -> in_critical (sb (lks s'))) -> r_inv s -> r_inv s'.
Proof.
  intros En Ep El Hc. unfold r_inv, copied, newest. rewrite En, Ep, El. by destruct (rpc s); naive_solver.
Qed.

(** The memory of the channel at the reader. *)
Definition chan_mem (a : Z) : Prop := B <= a < B + 2 * b \/ a = Q + 8.

Lemma w_inv_same s s' : nx s = 0 \/ nx s = 1 -> wn s' = wn s -> wpc s' = wpc s -> cur (log s') = cur (log s) ->
  (in_critical (sa (lks s)) -> in_critical (sa (lks s'))) ->
  (forall a, chan_mem a -> spm (rn s') a = spm (rn s) a) -> w_inv s -> w_inv s'.
Proof.
  intros Hx En Ep El Hc Hm. destruct Hok as [_ _ Hb _ _ _ _].
  assert (newest s' = newest s) as Enew by (by apply Hm; right).
  assert (nx s' = nx s) as Enx by (unfold nx; by rewrite En).
  assert (forall v j, v = 0 \/ v = 1 -> 0 <= j < b -> spm (rn s') (B + b * v + j) = spm (rn s) (B + b * v + j)) as Ebuf.
  { intros v j Hv Hj. apply Hm. left. nia. }
  assert (forall v, v = 0 \/ v = 1 -> holds s v -> holds s' v) as Hh.
  { intros v Hv. unfold holds. rewrite El, Enew. destruct (cur (log s)); [|done]. intros [-> <-]. split; [done|].
    apply words_at_eq. auto. }
  assert (forall w p, p <= b -> arrived s w p -> arrived s' w p) as Ha.
  { intros w p Hp Har j Hj. rewrite Enx, En, Ebuf by (done || lia). by apply Har. }
  pose proof (Hh (1 - nx s) ltac:(lia)) as Hh1. pose proof (Hh (nx s) Hx) as Hh2.
  assert (forall smp, sample_at smp (fun w => arrived s w b) -> sample_at smp (fun w => arrived s' w b)) as Hs.
  { intros smp. apply sample_mono. intros w. by apply Ha. }
  unfold w_inv, idle in *. rewrite Ep, En, El, Enx, Enew. destruct (wpc s); [naive_solver..| |naive_solver|naive_solver|naive_solver|naive_solver].
  intros [Hhold Hsmp]. split; [auto|]. revert Hsmp. apply sample_mono. intros w [[Hi Har]|(p & Hp & Hf & Har)]; [left; auto with lia|right].
  exists p. split; [done|]. split; [done|]. apply Ha; [lia|done].
Qed.

(** ** Steps of the lock *)

Lemma step_a_other l : sb (Lock.step cw cr CoreA l) = sb l.
Proof. done. Qed.
Lemma step_b_other l : sa (Lock.step cw cr CoreB l) = sa l.
Proof. done. Qed.
Lemma step_dma_pc g l : g = DmaA \/ g = DmaB ->
  pc (sa (Lock.step cw cr g l)) = pc (sa l) /\ pc (sb (Lock.step cw cr g l)) = pc (sb l).
Proof.
  intros [-> | ->]; cbn; unfold dma_step; repeat case_match; simplify_eq; done.
Qed.

Lemma is_critical_spec c : is_critical c = true -> in_critical c.
Proof. unfold is_critical, in_critical. destruct (pc c); try done. eauto. Qed.

Lemma inv_lock_dma g s : g = DmaA \/ g = DmaB -> sinv s -> sinv (lock_step cw cr g s).
Proof.
  intros Hg [Il In Iw Ir Ig]. destruct (step_dma_pc g (lks s) Hg) as [Ea Eb].
  assert (in_critical (sa (lks s)) -> in_critical (sa (Lock.step cw cr g (lks s)))) as Ha
    by (unfold in_critical; by rewrite Ea).
  assert (in_critical (sb (lks s)) -> in_critical (sb (Lock.step cw cr g (lks s)))) as Hb
    by (unfold in_critical; by rewrite Eb).
  constructor; [by apply reach_step|done|by apply (w_inv_same s)|by apply (r_inv_same s)|done].
Qed.

(** A step of a core in acquire_lock or release_lock. *)
Lemma inv_lock_w s : (forall smp, wpc s <> WPublish smp /\ wpc s <> WWaitPublish smp) ->
  sinv s -> sinv (lock_step cw cr CoreA s).
Proof.
  intros Hp [Il In Iw Ir Ig]. constructor; [by apply reach_step|done| |by apply (r_inv_same s)|done].
  unfold w_inv in *. cbn. destruct (wpc s); naive_solver.
Qed.
Lemma inv_lock_r s : match rpc s with RNewest _ | RCopy _ _ _ => False | _ => True end ->
  sinv s -> sinv (lock_step cw cr CoreB s).
Proof.
  intros Hp [Il In Iw Ir Ig]. constructor; [by apply reach_step|done|by apply (w_inv_same s)| |done].
  unfold r_inv in *. cbn. by destruct (rpc s).
Qed.

(** ** mp_write *)

Lemma try_write_run dst src size next s wd ws : spm_word dst wd -> spm_word src ws -> 0 <= size <= 2 ^ 18 - 4 ->
  idle s -> try_write dw dst src size next s = s \/
  exists n, try_write dw dst src size next s = mk_ssys (lks s) n (rn s) next (rpc s) (log s) /\
    spm n = spm (wn s) /\ xfer_of cr n = Some (mk_xfer wd ws ((size + 3) / 4)).
Proof.
  intros Hd Hs Hz Hi. destruct Hok as [_ [_ [Hcr _]] _ _ _ [Er _] _]. unfold try_write. rewrite Er.
  destruct (dma (sa (lks s))); [by left|].
  pose proof (nbwrite_spec cr dst src size 0 (wn s) wd ws Hcr Hd Hs Hz) as HN.
  destruct (noc_nbwrite cr dst src size 0 (wn s)) as [r n]. cbn [Z.eqb orb] in HN. unfold nb_post in HN.
  rewrite Hi in HN. destruct HN as (-> & Hspm & Hx & _). right. exists n. done.
Qed.

Lemma finished_idle s : dma_finished dw s = true -> idle s.
Proof.
  unfold dma_finished, idle. rewrite andb_true_iff. intros [Hd _]. destruct Hok as [_ _ _ _ _ [Er _] _]. rewrite Er in Hd.
  rewrite done_xfer in Hd. by destruct (xfer_of cr (wn s)).
Qed.

Lemma inv_send_sample s smp : wpc s = WSend smp -> sinv s -> sinv (write_step cw cr dw dr P s).
Proof.
  intros Ew HI. pose proof HI as [Il In Iw Ir Ig]. unfold write_step. rewrite Ew. unfold w_inv in Iw. rewrite Ew in Iw.
  destruct Iw as (Hi & Hh & w & -> & Hw & _). pose proof (src_ok_spec w Hw) as Hr.
  pose proof Hok as [Hbase _ Hb Hp Hq (_ & _ & Eb & Es) _].
  assert (write_dest dw P (wn s) = adr (B + b * nx s)) as ->.
  { unfold write_dest. rewrite spd_next_adr, ldw_adr, Es. by apply buffer_adr. }
  destruct (try_write_run (adr (B + b * nx s)) (adr w) (sample_size dw) (WWait (adr w)) s (B + b * nx s) w)
    as [->|(n & -> & Hspm & Hx)]; [apply spm_word_adr; nia|apply spm_word_adr; lia|lia|done|done|].
  assert (forall s', wn s' = n -> rn s' = rn s -> nx s' = nx s) as Hnx by (intros s' <- _; unfold nx; by rewrite Hspm).
  constructor; [done|unfold nx; cbn; by rewrite Hspm| |by apply (r_inv_same s)|done].
  unfold w_inv. cbn. unfold holds. rewrite (Hnx (mk_ssys _ _ _ _ _ _) eq_refl eq_refl). split; [exact Hh|].
  exists w. split; [done|]. split; [done|]. right. exists 0. split; [lia|]. split; [|intros j Hj; lia].
  rewrite Es in Hx. replace ((4 * b + 3) / 4) with b in Hx by (Z.div_mod_to_equations; lia).
  by rewrite !Z.add_0_r, Z.sub_0_r.
Qed.

Lemma inv_publish s smp : wpc s = WPublish smp -> sinv s -> sinv (write_step cw cr dw dr P s).
Proof.
  intros Ew HI. pose proof HI as [Il In Iw Ir Ig]. unfold write_step. rewrite Ew. unfold w_inv in Iw. rewrite Ew in Iw.
  destruct Iw as (Hc & Hi & Hh & Hs). pose proof Hok as [Hbase _ Hb Hp Hq (_ & Eq & _ & _) _].
  rewrite (newest_adr _ Eq), spd_next_adr.
  destruct (try_write_run (adr (Q + 8)) (adr (P + 9)) 4 (WWaitPublish smp) s (Q + 8) (P + 9))
    as [->|(n & -> & Hspm & Hx)]; [apply spm_word_adr; lia|apply spm_word_adr; lia|lia|done|done|].
  constructor; [done|unfold nx; cbn; by rewrite Hspm| |by apply (r_inv_same s)|done].
  unfold w_inv, holds, nx in *. cbn. rewrite Hspm. split; [done|]. split; [|left; done].
  revert Hs. apply sample_mono. intros w Har. unfold arrived, nx in *. cbn. by rewrite Hspm.
Qed.

(** The reader is outside its critical section while the writer is inside. *)
Lemma reader_out s : tickets (lks s) < 2 ^ 32 -> sinv s -> in_critical (sa (lks s)) ->
  match rpc s with RNewest _ | RCopy _ _ _ => False | _ => True end.
Proof.
  intros Ht [Il _ _ Ir _] Ha. destruct Hok as [_ (_ & _ & Hne) _ _ _ _ _]. unfold r_inv in Ir.
  destruct (rpc s); [done|done| | |done]; destruct Ir as [Hb _]; by apply (Lock.mutex cw cr (lks s)).
Qed.
Lemma r_inv_outside s s' : match rpc s with RNewest _ | RCopy _ _ _ => False | _ => True end ->
  rpc s' = rpc s -> r_inv s -> r_inv s'.
Proof. intros Ho E. unfold r_inv. rewrite E. by destruct (rpc s). Qed.

Lemma inv_written s smp : tickets (lks s) < 2 ^ 32 -> wpc s = WWaitPublish smp -> sinv s ->
  sinv (write_step cw cr dw dr P s).
Proof.
  intros Ht Ew HI. pose proof HI as [Il In Iw Ir Ig]. unfold write_step. rewrite Ew.
  destruct (dma_finished dw s) eqn:Ef; [|done]. apply finished_idle in Ef. unfold w_inv in Iw. rewrite Ew in Iw.
  destruct Iw as (Hc & (w & -> & Hw & Har) & Hx). destruct Hx as [[Hx _]|[_ Hn]]; [unfold idle in Ef; congruence|].
  constructor; [by apply reach_step|done| | |by apply legal_wrote].
  - unfold w_inv, holds. cbn. rewrite cur_wrote, words_b. split; [done|]. split; [|done]. split; [done|].
    apply words_at_eq. exact Har.
  - apply (r_inv_outside s); [by apply reader_out|done|done].
Qed.

Lemma inv_flip s : wpc s = WUnlock -> is_out (sa (lks s)) = true -> sinv s -> sinv (write_step cw cr dw dr P s).
Proof.
  intros Ew Eo HI. pose proof HI as [Il In Iw Ir Ig]. unfold write_step. rewrite Ew, Eo. unfold w_inv in Iw. rewrite Ew in Iw.
  destruct Iw as (Hi & Hh & Hw). rewrite spd_next_adr, ldw_adr, stw_adr. fold (nx s).
  assert (Z.lxor (nx s) 1 = 1 - nx s) as -> by (destruct In as [-> | ->]; done).
  constructor; [done|unfold nx in *; cbn; rewrite fn_lookup_insert; lia| |by apply (r_inv_same s)|done].
  unfold w_inv, holds, nx in *. cbn. rewrite fn_lookup_insert. split; [done|].
  destruct (cur (log s)); [|done]. by replace (1 - (1 - spm (wn s) (P + 9))) with (spm (wn s) (P + 9)) by lia.
Qed.

Lemma inv_write s : tickets (lks s) < 2 ^ 32 -> sinv s -> sinv (write_step cw cr dw dr P s).
Proof.
  intros Ht HI. destruct (wpc s) as [|smp|smp|smp|smp|smp|] eqn:Ew.
  - unfold write_step. by rewrite Ew.
  - by apply (inv_send_sample s smp).
  - pose proof HI as [Il In Iw Ir Ig]. unfold write_step. rewrite Ew. destruct (dma_finished dw s) eqn:Ef; [|done].
    apply finished_idle in Ef. unfold w_inv in Iw. rewrite Ew in Iw. destruct Iw as [Hh Hs].
    constructor; [done|done| |by apply (r_inv_same s)|done]. split; [done|]. split; [done|].
    revert Hs. apply sample_mono. intros w [[_ Har]|(p & _ & Hx & _)]; [done|]. unfold idle in Ef. congruence.
  - unfold write_step. rewrite Ew. destruct (is_critical (sa (lks s))) eqn:Ec.
    + destruct HI as [Il In Iw Ir Ig]. unfold w_inv in Iw. rewrite Ew in Iw.
      constructor; [done|done| |by apply (r_inv_same s)|done]. split; [by apply is_critical_spec|done].
    + apply inv_lock_w; [by rewrite Ew|done].
  - by apply (inv_publish s smp).
  - by apply (inv_written s smp).
  - destruct (is_out (sa (lks s))) eqn:Eo; [by apply inv_flip|]. unfold write_step. rewrite Ew, Eo.
    apply inv_lock_w; [by rewrite Ew|done].
Qed.

(** ** mp_read *)

(** While the reader is in its critical section the newest buffer holds the
    value of the register. *)
Lemma reader_holds s l : tickets (lks s) < 2 ^ 32 -> sinv s -> in_critical (sb (lks s)) -> cur (log s) = Some l ->
  (newest s = 0 \/ newest s = 1) /\ words_at b (rn s) (B + b * newest s) = l.
Proof.
  intros Ht [Il In Iw _ _] Hb El. destruct Hok as [_ (_ & _ & Hne) _ _ _ _ _].
  assert (in_critical (sa (lks s)) -> False) as Ha by (intros Ha; by apply (Lock.mutex cw cr (lks s))).
  assert (forall v, v = 0 \/ v = 1 -> holds s v ->
    (newest s = 0 \/ newest s = 1) /\ words_at b (rn s) (B + b * newest s) = l) as Hv.
  { intros v Hv. unfold holds. rewrite El. intros [-> <-]. auto. }
  unfold w_inv in Iw. destruct (wpc s); destruct Iw as (Hx & Hy).
  - apply (Hv (1 - nx s)); [lia|done].
  - apply (Hv (1 - nx s)); [lia|apply Hy].
  - apply (Hv (1 - nx s)); [lia|done].
  - apply (Hv (1 - nx s)); [lia|apply Hy].
  - done.
  - done.
  - apply (Hv (nx s)); [done|apply Hy].
Qed.

Lemma inv_read_newest s smp : tickets (lks s) < 2 ^ 32 -> rpc s = RNewest smp -> sinv s ->
  sinv (read_step cw cr dr Q s).
Proof.
  intros Ht Er HI. pose proof HI as [Il In Iw Ir Ig]. unfold read_step. rewrite Er. unfold r_inv in Ir. rewrite Er in Ir.
  destruct Ir as (Hb & w & -> & Hw). constructor; [done|done|by apply (w_inv_same s)| |done].
  unfold r_inv. cbn. split; [done|]. pose proof Hok as [_ _ Hpos _ _ _ [Eb Es]]. split; [lia|]. exists w. split; [done|].
  split; [done|]. intros Hcur. split; [|intros j Hj; lia]. destruct (cur (log s)) as [l|] eqn:El; [|done].
  destruct (reader_holds s l Ht HI Hb El) as [Hv _]. rewrite (newest_adr _ eq_refl), ldw_adr, Es. fold (newest s).
  assert (s32 (newest s) = newest s) as -> by (destruct Hv as [-> | ->]; done). by apply buffer_adr.
Qed.

Lemma copy_complete s smp src l : tickets (lks s) < 2 ^ 32 -> sinv s -> rpc s = RCopy smp src b ->
  cur (log s) = Some l -> words dr (rn s) smp = l.
Proof.
  intros Ht HI Er El. pose proof HI as [_ _ _ Ir _]. unfold r_inv in Ir. rewrite Er in Ir.
  destruct Ir as (Hb & _ & w & -> & _ & Hcp). destruct Hcp as [_ Hc]; [by rewrite El|].
  destruct (reader_holds s l Ht HI Hb El) as [_ <-]. rewrite words_b. by apply words_at_eq.
Qed.

Lemma inv_copy s smp src i : tickets (lks s) < 2 ^ 32 -> rpc s = RCopy smp src i -> sinv s ->
  sinv (read_step cw cr dr Q s).
Proof.
  intros Ht Er HI. pose proof HI as [Il In Iw Ir Ig]. unfold read_step. rewrite Er, sample_words_b. unfold r_inv in Ir. rewrite Er in Ir.
  destruct Ir as (Hb & Hi & w & -> & Hw & Hcp). pose proof (dst_ok_spec w Hw) as Hd.
  pose proof Hok as [_ _ Hpos _ Hq _ _]. destruct (Z.ltb_spec i b) as [Hlt|Hge].
  - rewrite !adr_add, stw_adr. constructor; [done|done| | |done].
    + apply (w_inv_same s); try done. intros a Ha. cbn. rewrite fn_lookup_insert_ne; [done|]. unfold chan_mem in Ha. lia.
    + unfold r_inv. cbn. split; [done|]. split; [lia|]. exists w. split; [done|]. split; [done|]. intros Hcur.
      destruct (cur (log s)) as [l|] eqn:El; [|done]. destruct (Hcp Hcur) as [-> Hc].
      destruct (reader_holds s l Ht HI Hb El) as [Hv _]. rewrite adr_add, ldw_adr. unfold newest in *. cbn.
      rewrite fn_lookup_insert_ne by lia. split; [done|]. intros j Hj. cbn.
      rewrite (fn_lookup_insert_ne _ _ (B + b * _ + j)) by nia. destruct (decide (j = i)) as [->|].
      * by rewrite fn_lookup_insert.
      * rewrite fn_lookup_insert_ne by lia. apply Hc. lia.
  - constructor; [by apply reach_step|done| |done|].
    + apply (w_inv_same s); try done. cbn. apply cur_got.
    + cbn. apply legal_got; [done|]. intros l. apply (copy_complete s _ src); [done|done|].
      by replace b with i by lia.
Qed.

Lemma inv_read s : tickets (lks s) < 2 ^ 32 -> sinv s -> sinv (read_step cw cr dr Q s).
Proof.
  intros Ht HI. destruct (rpc s) as [|smp|smp|smp src i|] eqn:Er.
  - unfold read_step. by rewrite Er.
  - unfold read_step. rewrite Er. destruct (is_critical (sb (lks s))) eqn:Ec.
    + destruct HI as [Il In Iw Ir Ig]. constructor; [done|done|by apply (w_inv_same s)| |done].
      unfold r_inv in *. rewrite Er in Ir. split; [by apply is_critical_spec|done].
    + apply inv_lock_r; [by rewrite Er|done].
  - by apply (inv_read_newest s smp).
  - by apply (inv_copy s smp src i).
  - unfold read_step. rewrite Er. destruct (is_out (sb (lks s))) eqn:Eo.
    + destruct HI as [Il In Iw Ir Ig]. by constructor; [done|done|by apply (w_inv_same s)| |done].
    + apply inv_lock_r; [by rewrite Er|done].
Qed.

(** ** The network and the applications *)

Lemma inv_idle_move s : idle s -> sinv s -> sinv (sstep cw cr dw dr P Q B b MoveSample s).
Proof. intros Hi HI. cbn. rewrite hw_move_none by done. by destruct s. Qed.

(** The words of the next buffer belong to the writer. *)
Lemma r_inv_next s s' x v : tickets (lks s) < 2 ^ 32 -> sinv s -> holds s (1 - nx s) -> B + b * nx s <= x < B + b * nx s + b ->
  lks s' = lks s -> rpc s' = rpc s -> log s' = log s -> spm (rn s') = <[x := v]> (spm (rn s)) -> r_inv s'.
Proof.
  intros Ht HI Hh Hx El Ep Eg Em. pose proof HI as [_ In _ Ir _]. unfold r_inv in *. rewrite El, Ep, Eg.
  pose proof Hok as [_ _ Hpos _ Hq _ _].
  destruct (rpc s) as [|smp|smp|smp src i|]; try done. destruct Ir as (Hb & Hi & w & -> & Hw & Hcp).
  split; [done|]. split; [done|]. exists w. split; [done|]. split; [done|]. intros Hcur.
  destruct (Hcp Hcur) as [-> Hc]. unfold holds in Hh. destruct (cur (log s)) as [l|] eqn:E; [|done]. destruct Hh as [Hn _].
  pose proof (dst_ok_spec w Hw) as Hd.
  assert (newest s' = newest s) as -> by (unfold newest; rewrite Em; apply fn_lookup_insert_ne; nia).
  split; [done|]. intros j Hj. rewrite Em, !fn_lookup_insert_ne by (rewrite ?Hn; nia). by apply Hc.
Qed.

Lemma inv_move_word s smp : tickets (lks s) < 2 ^ 32 -> wpc s = WWait smp -> sinv s ->
  sinv (sstep cw cr dw dr P Q B b MoveSample s).
Proof.
  intros Ht Ew HI. pose proof HI as [Il In Iw Ir Ig]. unfold w_inv in Iw. rewrite Ew in Iw.
  destruct Iw as (Hh & w & -> & Hw & [[Hi _]|(p & Hp & Hx & Har)]); [by apply inv_idle_move|].
  pose proof Hok as [_ (_ & Hcr & _) Hpos Hq0 Hq _ _]. pose proof (src_ok_spec w Hw) as Hs.
  pose proof (hw_move_xfer cr (wn s) (rn s) _ Hcr Hx) as HM. cbn [sstep]. destruct (hw_move cr (wn s) (rn s)) as [n1 n2].
  cbn [x_dst x_src x_left] in HM. destruct HM as (E1 & E2 & E3 & Ex); [lia|nia|lia|].
  set (s' := mk_ssys _ _ _ _ _ _).
  assert (nx s' = nx s) as Enx by (unfold nx; subst s'; cbn; by rewrite E1).
  assert (arrived s' w (p + 1)) as Har'.
  { intros j Hj. rewrite Enx. subst s'. cbn. rewrite E1, E3. destruct (decide (j = p)) as [->|].
    - by rewrite fn_lookup_insert.
    - rewrite fn_lookup_insert_ne by lia. apply Har. lia. }
  constructor; [done|by rewrite Enx| |by apply (r_inv_next s _ (B + b * nx s + p) (spm (wn s) (w + p))); try done; lia|done].
  unfold w_inv. rewrite Enx. subst s'. cbn [wpc]. rewrite Ew. split.
  - unfold holds, newest in *. cbn. destruct (cur (log s)); rewrite E3, fn_lookup_insert_ne by nia; [|done].
    destruct Hh as [-> <-]. split; [done|]. apply words_at_eq. intros j Hj. rewrite E3, fn_lookup_insert_ne by nia. done.
  - exists w. split; [done|]. split; [done|]. unfold idle. cbn [wn]. rewrite Ex. destruct (Z.eqb_spec (b - p) 1) as [E|E].
    + left. split; [done|]. by replace b with (p + 1) at 1 by lia.
    + right. exists (p + 1). split; [lia|]. split; [|done]. do 2 f_equal; lia.
Qed.

Lemma inv_move_publish s smp : tickets (lks s) < 2 ^ 32 -> wpc s = WWaitPublish smp -> sinv s ->
  sinv (sstep cw cr dw dr P Q B b MoveSample s).
Proof.
  intros Ht Ew HI. pose proof HI as [Il In Iw Ir Ig]. unfold w_inv in Iw. rewrite Ew in Iw.
  destruct Iw as (Hc & (w & -> & Hw & Har) & [[Hx Hh]|[Hi _]]); [|by apply inv_idle_move].
  pose proof Hok as [_ (_ & Hcr & _) Hpos Hq0 Hq _ _].
  pose proof (hw_move_xfer cr (wn s) (rn s) _ Hcr Hx) as HM. cbn [sstep]. destruct (hw_move cr (wn s) (rn s)) as [n1 n2].
  cbn [x_dst x_src x_left] in HM. destruct HM as (E1 & E2 & E3 & Ex); [lia|lia|lia|].
  constructor; [done|unfold nx; cbn; by rewrite E1| |apply (r_inv_outside s); [by apply reader_out|done|done]|done].
  unfold w_inv. cbn [wpc]. rewrite Ew. split; [done|]. split.
  - exists w. split; [done|]. split; [done|]. intros j Hj. unfold nx in *. cbn. rewrite E1, E3, fn_lookup_insert_ne by nia.
    by apply Har.
  - right. split; [done|]. unfold newest, nx. cbn. by rewrite E1, E3, fn_lookup_insert.
Qed.

Lemma inv_move s : tickets (lks s) < 2 ^ 32 -> sinv s -> sinv (sstep cw cr dw dr P Q B b MoveSample s).
Proof.
  intros Ht HI. pose proof (i_w s HI) as Iw. unfold w_inv in Iw.
  destruct (wpc s) as [|smp|smp|smp|smp|smp|] eqn:Ew; try (apply inv_idle_move; [tauto|done]).
  - by apply (inv_move_word s smp).
  - by apply (inv_move_publish s smp).
Qed.

Lemma inv_store_w s w v : wpc s = WIdle -> w <> P + 9 -> sinv s ->
  sinv (mk_ssys (lks s) (stw (adr w) v (wn s)) (rn s) (wpc s) (rpc s) (log s)).
Proof.
  intros Ew Hne [Il In Iw Ir Ig]. rewrite stw_adr.
  constructor; [done| | |by apply (r_inv_same s)|done]; unfold w_inv, holds, nx in *; cbn; rewrite ?Ew in *;
    rewrite fn_lookup_insert_ne by done; done.
Qed.
Lemma inv_store_r s w v : rpc s = RIdle -> ~ chan_mem w -> sinv s ->
  sinv (mk_ssys (lks s) (wn s) (stw (adr w) v (rn s)) (wpc s) (rpc s) (log s)).
Proof.
  intros Er Hne [Il In Iw Ir Ig]. rewrite stw_adr. constructor; [done|done| |by unfold r_inv; cbn; rewrite Er|done].
  apply (w_inv_same s); try done. intros a Ha. cbn. rewrite fn_lookup_insert_ne; [done|]. by intros ->.
Qed.

Lemma inv_sstep ev s : tickets (lks s) < 2 ^ 32 -> sinv s -> sinv (sstep cw cr dw dr P Q B b ev s).
Proof.
  intros Ht HI. destruct ev as [| | | | |w v|w v|w|w].
  - by apply inv_write.
  - by apply inv_read.
  - by apply inv_move.
  - apply inv_lock_dma; auto.
  - apply inv_lock_dma; auto.
  - cbn. destruct (wpc s) eqn:Ew; try done. destruct (Z.eqb_spec w (P + 9)); [done|]. rewrite <- Ew. by apply inv_store_w.
  - cbn. destruct (rpc s) eqn:Er; try done. destruct (_ || _) eqn:E; [done|]. rewrite <- Er. apply inv_store_r; [done| |done].
    unfold chan_mem. rewrite orb_false_iff, andb_false_iff in E. lia.
  - cbn. destruct (wpc s) eqn:Ew; try done. destruct (src_ok P b w) eqn:E; [|done].
    destruct HI as [Il In Iw Ir Ig]. constructor; [done|done| |by apply (r_inv_same s)|done].
    unfold w_inv in *. rewrite Ew in Iw. cbn. split; [apply Iw|]. split; [apply Iw|]. by exists w.
  - cbn. destruct (rpc s) eqn:Er; try done. destruct (dst_ok Q B b w) eqn:E; [|done].
    destruct HI as [Il In Iw Ir Ig]. constructor; [done|done|by apply (w_inv_same s)| |done]. by exists w.
Qed.

Lemma sstep_tickets ev s : tickets (lks s) <= tickets (lks (sstep cw cr dw dr P Q B b ev s)).
Proof.
  assert (forall g, tickets (lks s) <= tickets (Lock.step cw cr g (lks s))) as Hm by (intros g; apply tickets_mono).
  destruct ev; cbn -[Lock.step]; try apply Hm; unfold write_step, read_step, try_write, goto_w, goto_r, logged, lock_step;
    repeat (case_match; cbn -[Lock.step]); try apply Hm; lia.
Qed.

Lemma sreach_inv s0 s : sport_init cr P Q s0 -> sreach cw cr dw dr P Q B b s0 s -> tickets (lks s) < 2 ^ 32 -> sinv s.
Proof.
  intros [El En Ew (Hi & Epw & Epr & Eg)]. induction 1 as [|ev s Hs IH]; intros Ht.
  - constructor.
    + rewrite El. apply reach_start.
    + by left.
    + unfold w_inv, holds. rewrite Epw, Eg. done.
    + unfold r_inv. by rewrite Epr.
    + rewrite Eg. intros l1 l2 v u E. by destruct l1.
  - pose proof (sstep_tickets ev s). apply inv_sstep; [lia|apply IH; lia].
Qed.

(** Before the first publication the reader finds -1. *)
Lemma reader_none s : tickets (lks s) < 2 ^ 32 -> sinv s -> in_critical (sb (lks s)) -> cur (log s) = None ->
  newest s = u32 (-1).
Proof.
  intros Ht [Il In Iw _ _] Hb El. destruct Hok as [_ (_ & _ & Hne) _ _ _ _ _].
  assert (in_critical (sa (lks s)) -> False) as Ha by (intros Ha; by apply (Lock.mutex cw cr (lks s))).
  unfold w_inv, holds in Iw. rewrite El in Iw. by destruct (wpc s); naive_solver.
Qed.
End Inv.

(** C6: a sampling channel is an atomic register.  Two cores run mp_write and
    mp_read on connected ports, with the lock, and the network moves single
    words, in any interleaving in which fewer than 2^32 lock tickets are taken.
    Then in the order of the critical sections every mp_read delivers exactly
    the sample of the last mp_write before it: never an older one, and never
    one mixed from two samples.  That sample is in the caller's memory when the
    copy is complete. *)
Theorem sampling_atomic_register `{ArgoBase} cw cr dw dr P Q B b s0 s :
  sport_ok cw cr dw dr P Q B b -> sport_init cr P Q s0 -> sreach cw cr dw dr P Q B b s0 s ->
  tickets (lks s) < 2 ^ 32 ->
  (forall h1 h2 v u, log s = h1 ++ Got v :: h2 -> cur h1 = Some u -> v = u) /\
  (forall smp src u, rpc s = RCopy smp src b -> cur (log s) = Some u -> words dr (rn s) smp = u).
Proof.
  intros Hok Hi Hs Ht. pose proof (sreach_inv cw cr dw dr P Q B b Hok s0 s Hi Hs Ht) as HI.
  split; [apply (i_legal _ _ _ _ _ _ _ HI)|]. intros smp src u Er El.
  by apply (copy_complete cw cr dw dr P Q B b Hok s smp src u).
Qed.

(** mp_read before the first mp_write.  The reader finds -1 as the newest
    buffer and copies from the address one sample below the buffers, memory
    that does not belong to the channel; mp_read returns 1 as usual. *)
Theorem sampling_read_before_write `{ArgoBase} cw cr dw dr P Q B b s0 s smp :
  sport_ok cw cr dw dr P Q B b -> sport_init cr P Q s0 -> sreach cw cr dw dr P Q B b s0 s ->
  tickets (lks s) < 2 ^ 32 -> rpc s = RNewest smp -> cur (log s) = None ->
  rpc (read_step cw cr dr Q s) = RCopy smp (u32 (adr (B - b))) 0.
Proof.
  intros Hok Hi Hs Ht Er El. pose proof (sreach_inv cw cr dw dr P Q B b Hok s0 s Hi Hs Ht) as HI.
  pose proof (i_r _ _ _ _ _ _ _ HI) as Ir. unfold r_inv in Ir. rewrite Er in Ir. destruct Ir as [Hb _].
  pose proof (reader_none cw cr dw dr P Q B b Hok s Ht HI Hb El) as Hn. unfold newest in Hn.
  unfold read_step. rewrite Er. cbn [rpc goto_r]. destruct Hok as [_ _ Hpos _ Hq _ [-> ->]].
  rewrite (newest_adr Q _ eq_refl), ldw_adr, Hn. change (s32 (u32 (-1))) with (-1). f_equal.
  rewrite u32_add_r. f_equal. unfold adr. lia.
Qed.

(** ** An example *)

Module SDemo.
Import Demo.
Definition dw : spd_t := mk_spd SOURCE 2 (adr 0) (adr 16) 0 8 (adr 10).
Definition dr : spd_t := mk_spd SINK 1 (adr 0) (adr 16) 0 8 (adr 10).
Definition begin : ssys :=
  mk_ssys Lock.start blank (stw (adr 8) (u32 (-1)) blank) WIdle RIdle [].
Definition srun (evs : list sevent) (s : ssys) : ssys := fold_left (fun s ev => sstep 1 2 dw dr 0 0 16 2 ev s) evs s.
Definition rep (n : nat) (l : list sevent) : list sevent := mjoin (replicate n l).

Lemma demo_sport_ok : sport_ok 1 2 dw dr 0 0 16 2.
Proof. constructor; vm_compute; intuition congruence. Qed.
Lemma demo_sport_init : sport_init 2 0 0 begin.
Proof. constructor; try reflexivity. repeat split. Qed.
Lemma srun_reach evs : forall s, sreach 1 2 dw dr 0 0 16 2 begin s -> sreach 1 2 dw dr 0 0 16 2 begin (srun evs s).
Proof. induction evs as [|ev evs IH]; intros s Hs; [done|]. by apply IH, sreach_step. Qed.

(** A sample is written while the reader starts to read: the reader is ahead
    in the lock and reads the older sample. *)
Definition calls : list sevent :=
  [StoreW 20 7; StoreW 21 8; CallWrite 20] ++ rep 40 [StepW; MoveSample; MoveLockW] ++
  [StoreW 21 9; CallWrite 20; CallRead 40] ++ rep 40 [StepR; MoveLockR] ++ [CallRead 42] ++
  rep 40 [StepW; StepR; MoveLockR; MoveLockW; MoveSample].
Definition both : ssys := srun calls begin.
Definition early : ssys := srun ([CallRead 40] ++ rep 13 [StepR; MoveLockR]) begin.
End SDemo.
Import Demo SDemo.

Lemma both_reach : sreach 1 2 dw dr 0 0 16 2 begin both.
Proof. apply srun_reach, sreach_start. Qed.

Lemma sampling_atomic_register_witness :
  log both = [Wrote [7; 8]; Got [7; 8]; Got [7; 8]; Wrote [7; 9]] /\ [7; 8] = [7; 8].
Proof.
  split; [reflexivity|].
  destruct (sampling_atomic_register 1 2 dw dr 0 0 16 2 begin both demo_sport_ok demo_sport_init both_reach) as [HA _];
    [reflexivity|].
  exact (HA [Wrote [7; 8]; Got [7; 8]] [Wrote [7; 9]] [7; 8] [7; 8] eq_refl eq_refl).
Defined.

Lemma sampling_read_before_write_witness : exists s, rpc s = RCopy (adr 40) (adr 14) 0.
Proof.
  exists (read_step 1 2 dr 0 early).
  refine (sampling_read_before_write 1 2 dw dr 0 0 16 2 begin early (adr 40) demo_sport_ok demo_sport_init _ _ _ _).
  - apply srun_reach, sreach_start.
  - reflexivity.
  - reflexivity.
  - reflexivity.
Defined.
