(* ===== verification/SportPorts.v ===== *)
(** SportPorts: creating and connecting the ports of a sampling channel.

    mp_create_sport on both cores and mp_init_ports (Mp.v) give ports in the
    initial state of Sampling.v, with their locks linked to each other. *)

From stdpp Require Import base numbers list functions.
From S2P Require Import Prelude Lock Noc Queuing QueueFifo Mp MpPorts Sampling.

Section Ports.
Context `{ArgoBase} {CM : CharModel}.

(** Behind the descriptor: six words of lock, then the buffers of a sink. *)
Definition lock_at (p : Z) : Z := after_desc p.
Definition bufs_at (p : Z) : Z := after_desc p + 6.

(** The words of a lock that initialize_lock clears, as Lock.v has them. *)
Definition lock_of (n : noc) (l : Z) : LOCK_T :=
  mk_lock (spm n l) (spm n (l + 1)) (spm n (l + 2)) (spm n (l + 3)).

Lemma init_lock_run cpuid p remote w : heap_ok cpuid w -> spm_alloc w cpuid = adr p -> 0 <= p -> p + 6 <= 2 ^ 14 ->
  adr (p + 6) <= NOC_SPM_BASE + 4 * spm_size w cpuid -> 0 <= remote < 128 -> exists n',
  Mp.initialize_lock cpuid remote w =
    (adr p, with_lock cpuid (adr p) (fun l => mk_lref remote (remote_ptr l))
              (with_noc cpuid (fun _ => n') (with_alloc (<[cpuid := adr (p + 6)]> (spm_alloc w)) w))) /\
  dma_tab n' = dma_tab (nocs w cpuid) /\ lock_of n' p = Lock.initialize_lock /\
  (forall a, a < p \/ p + 4 <= a -> spm n' a = spm (nocs w cpuid) a).
Proof.
  intros Hh Hp H0 H14 Hlim Hr. unfold Mp.initialize_lock. change SIZEOF_LOCK_T with (4 * 6).
  rewrite (alloc_words cpuid p 6 w Hh Hp) by (done || lia).
  change (adr p + 12) with (adr p + 4 * 3). change (adr p + 8) with (adr p + 4 * 2). change (adr p + 4) with (adr p + 4 * 1).
  rewrite u8_small by lia. unfold with_noc. cbn [nocs with_alloc]. rewrite !adr_add, !stw_adr. cbn [spm dma_tab].
  eexists (mk_noc _ _). split; [reflexivity|]. split; [done|]. cbn. split.
  - unfold lock_of. cbn. rewrite fn_lookup_insert.
    rewrite (fn_lookup_insert_ne _ (p + 3)), (fn_lookup_insert_ne _ (p + 3)), (fn_lookup_insert_ne _ (p + 3)) by lia.
    rewrite fn_lookup_insert, (fn_lookup_insert_ne _ (p + 2)), (fn_lookup_insert_ne _ (p + 2)) by lia.
    by rewrite fn_lookup_insert, (fn_lookup_insert_ne _ (p + 1)), fn_lookup_insert by lia.
  - intros a Ha. by rewrite !fn_lookup_insert_ne by lia.
Qed.

(** What creating a port leaves at other cores and channels. *)
Record only_core (cpuid c : Z) (w w' : mp_world) : Prop := {
  oc_core : forall o, o <> cpuid -> spm_alloc w' o = spm_alloc w o /\ spds w' o = spds w o /\
    locks w' o = locks w o /\ nocs w' o = nocs w o;
  oc_size : spm_size w' = spm_size w;
  oc_chan : forall i, i <> c -> chan_info w' i = chan_info w i;
  oc_dma : dma_tab (nocs w' cpuid) = dma_tab (nocs w cpuid);
}.

Ltac created := constructor; cbn; rewrite ?fn_lookup_insert; cbn;
  [intros ? ?; by rewrite ?fn_lookup_insert_ne by done|done|intros ? ?; by rewrite ?fn_lookup_insert_ne by done|done].

Lemma sport_words msize b : 0 <= msize < 2 ^ 16 -> b = (msize + 3) / 4 -> WALIGN msize = 4 * b /\ 0 <= b /\ 4 * b <= msize + 3.
Proof. intros Hm ->. rewrite WALIGN_words by lia. split; [done|]. Z.div_mod_to_equations. lia. Qed.

Lemma create_sport_source cs c p msize b w : 0 <= cs < 128 -> 0 <= c < MAX_CHANNELS -> 0 <= msize < 2 ^ 16 ->
  b = (msize + 3) / 4 -> room cs p 6 w -> exists w',
  mp_create_sport cs c SOURCE msize w = (adr p, w') /\ only_core cs c w w' /\
  chan_info w' c = (let k := chan_info w c in
    mk_chan SAMPLING cs (sink_id k) (src_addr k) (sink_addr k) (adr (lock_at p)) (sink_lock k) (adr p) (sink_ptr k)) /\
  spds w' cs (adr p) = (let d := spds w cs (adr p) in
    mk_spd SOURCE (s_remote d) (remote_spd d) (read_bufs d) (read_shm_buf d) (4 * b) (adr (lock_at p))) /\
  spm (nocs w' cs) (p + 9) = 0 /\ lock_of (nocs w' cs) (lock_at p) = Lock.initialize_lock.
Proof.
  intros Hcs Hc Hm Eb [Hh Hp (H0 & Hl & H14 & Hlim) Hbase]. destruct (sport_words msize b Hm Eb) as (EW & Hb & Hb4).
  unfold mp_create_sport. rewrite (proj2 (Z.leb_gt MAX_CHANNELS c)) by lia. change SIZEOF_spd_t with (4 * 10).
  unfold lock_at, after_desc in *. rewrite (alloc_words cs p 10 w Hh Hp) by (done || lia || (unfold adr in *; lia)).
  rewrite (adr_not_null cs p w Hh H0), EW. set (w1 := with_spd _ _ _ _).
  assert (heap_ok cs w1) as Hh1.
  { destruct (heap_alloc cs (p + 10) w Hh) as [? ? ?]; [lia|unfold adr in *; lia|]. by constructor. }
  destruct (init_lock_run cs (p + 10) 0 w1 Hh1 (fn_lookup_insert _ _ _)) as (n' & -> & Hd & Hk & Ho);
    [lia|lia|unfold adr in *; cbn; lia|lia|].
  rewrite (adr_not_null cs (p + 10) w Hh) by lia.
  change (adr p + SPD_NEXT) with (adr p + 4 * 9). rewrite adr_add. unfold with_noc. rewrite stw_adr.
  eexists. split; [reflexivity|]. clear Hh1. rewrite to_char_small by lia. split; [created|].
  cbn. do 3 (rewrite ?fn_lookup_insert; cbn).
  split; [done|]. split; [done|]. split; [done|].
  unfold lock_of in *. cbn. by rewrite !fn_lookup_insert_ne by lia.
Qed.

Lemma create_sport_sink cr c p msize b w : 0 <= cr < 128 -> 0 <= c < MAX_CHANNELS -> 0 <= msize < 2 ^ 16 ->
  b = (msize + 3) / 4 -> room cr p (6 + 2 * b) w -> exists w',
  mp_create_sport cr c SINK msize w = (adr p, w') /\ only_core cr c w w' /\
  chan_info w' c = (let k := chan_info w c in
    mk_chan SAMPLING (src_id k) cr (src_addr k) (adr (bufs_at p)) (src_lock k) (adr (lock_at p)) (src_ptr k) (adr p)) /\
  spds w' cr (adr p) = (let d := spds w cr (adr p) in
    mk_spd SINK (s_remote d) (remote_spd d) (adr (bufs_at p)) (read_shm_buf d) (4 * b) (adr (lock_at p))) /\
  spm (nocs w' cr) (p + 8) = u32 (-1) /\ lock_of (nocs w' cr) (lock_at p) = Lock.initialize_lock.
Proof.
  intros Hcr Hc Hm Eb [Hh Hp (H0 & Hl & H14 & Hlim) Hbase]. destruct (sport_words msize b Hm Eb) as (EW & Hb & Hb4).
  unfold mp_create_sport. rewrite (proj2 (Z.leb_gt MAX_CHANNELS c)) by lia. change SIZEOF_spd_t with (4 * 10).
  unfold lock_at, bufs_at, after_desc in *. rewrite (alloc_words cr p 10 w Hh Hp) by (done || lia || (unfold adr in *; lia)).
  rewrite (adr_not_null cr p w Hh H0), EW. set (w1 := with_spd _ _ _ _).
  assert (heap_ok cr w1) as Hh1.
  { destruct (heap_alloc cr (p + 10) w Hh) as [? ? ?]; [lia|unfold adr in *; lia|]. by constructor. }
  destruct (init_lock_run cr (p + 10) 0 w1 Hh1 (fn_lookup_insert _ _ _)) as (n' & -> & Hd & Hk & Ho);
    [lia|lia|unfold adr in *; cbn; lia|lia|].
  rewrite (adr_not_null cr (p + 10) w Hh) by lia. rewrite u32_small by lia.
  replace (4 * b * 2) with (4 * (2 * b)) by lia. set (w2 := with_chan c _ _).
  assert (heap_ok cr w2) as Hh2.
  { destruct (heap_alloc cr (p + 10 + 6) w Hh) as [? Hx ?]; [lia|unfold adr in *; lia|].
    constructor; [done|subst w2 w1; cbn in *; rewrite !fn_lookup_insert in *; done|].
    subst w2 w1; cbn in *; rewrite !fn_lookup_insert in *; done. }
  rewrite (alloc_words cr (p + 10 + 6) (2 * b) w2 Hh2);
    [|subst w2 w1; cbn; by rewrite !fn_lookup_insert|lia|lia|lia|
      change (spm_size w2) with (spm_size w); unfold adr in *; lia].
  rewrite (adr_not_null cr (p + 10 + 6) w Hh) by lia.
  change (adr p + SPD_NEWEST) with (adr p + 4 * 8). rewrite adr_add. unfold with_noc. rewrite stw_adr.
  eexists. split; [reflexivity|]. clear Hh1 Hh2. subst w2 w1. rewrite to_char_small by lia. split; [created|].
  cbn. do 3 (rewrite ?fn_lookup_insert; cbn).
  split; [done|]. split; [done|]. split; [done|].
  unfold lock_of in *. cbn. by rewrite !fn_lookup_insert_ne by lia.
Qed.

(** Both cores create their port of channel [c], then both connect. *)
Definition connect_sampling (cs cr c msize : Z) (w : mp_world) : option (Z * Z * mp_world) :=
  let '(ps, w) := mp_create_sport cs c SOURCE msize w in
  let '(pr, w) := mp_create_sport cr c SINK msize w in
  match mp_init_ports cs w with
  | Some (_, w) => match mp_init_ports cr w with Some (_, w) => Some (ps, pr, w) | None => None end
  | None => None
  end.

Record sconnect_pre (cs cr c p r msize : Z) (w : mp_world) : Prop := {
  spre_cores : 0 <= cs < 128 /\ 0 <= cr < 128 /\ cs <> cr;
  spre_chan : 0 <= c < MAX_CHANNELS /\ 0 < msize < 2 ^ 16;
  spre_src : room cs p 6 w;
  spre_snk : room cr r (6 + 2 * ((msize + 3) / 4)) w;
  spre_other : forall i, i <> c -> forall x, x = cs \/ x = cr ->
    src_id (chan_info w i) <> x /\ sink_id (chan_info w i) <> x;
  spre_idle : xfer_of cr (nocs w cs) = None;
}.

(** The two connections of a channel whose both ends are created. *)
Lemma init_ports_pair cs cr c k w : 0 <= c < MAX_CHANNELS -> cs <> cr -> 0 <= cs < 128 -> 0 <= cr < 128 ->
  chan_info w c = k -> src_id k = cs -> sink_id k = cr ->
  (forall i, i <> c -> forall x, x = cs \/ x = cr -> src_id (chan_info w i) <> x /\ sink_id (chan_info w i) <> x) ->
  mp_init_ports cs w = Some (1, init_source cs k w) /\
  mp_init_ports cr (init_source cs k w) = Some (1, init_sink cr k (init_source cs k w)).
Proof.
  intros Hc Hne Hcs Hcr Ek Es Er Ho.
  assert (chan_info (init_source cs k w) = chan_info w) as Ew by (unfold init_source; by destruct (port_type k)).
  rewrite (mp_init_ports_one cs c w Hc) by auto.
  rewrite (mp_init_ports_one cr c _ Hc) by (rewrite Ew; auto). unfold init_port. rewrite Ew, Ek, Es, Er. by zdec.
Qed.

(** Creating and connecting sampling ports gives a working channel.  When
    the writer's and the reader's core call mp_create_sport for the same channel
    and both call mp_init_ports, and their scratchpads have room, both get a
    descriptor, no call waits forever, the ports are a sampling channel in its
    initial state, and the two locks are free and refer to each other. *)
Theorem sport_channel_ready cs cr c p r msize w : sconnect_pre cs cr c p r msize w ->
  let b := (msize + 3) / 4 in
  exists w', connect_sampling cs cr c msize w = Some (adr p, adr r, w') /\
  sport_ok cs cr (spds w' cs (adr p)) (spds w' cr (adr r)) p r (bufs_at r) b /\
  sport_init cr p r (mk_ssys Lock.start (nocs w' cs) (nocs w' cr) WIdle RIdle []) /\
  lock_of (nocs w' cs) (lock_at p) = Lock.initialize_lock /\ lock_of (nocs w' cr) (lock_at r) = Lock.initialize_lock /\
  locks w' cs (adr (lock_at p)) = mk_lref cr (adr (lock_at r)) /\
  locks w' cr (adr (lock_at r)) = mk_lref cs (adr (lock_at p)).
Proof.
  intros [(Hcs & Hcr & Hne) (Hc & Hm) Hsrc Hsnk Hoth Hi] b. change ((msize + 3) / 4) with b in Hsnk.
  destruct (create_sport_source cs c p msize b w Hcs Hc ltac:(lia) eq_refl Hsrc) as (w1 & E1 & [O1 S1 CO1 T1] & C1 & D1 & N1 & L1).
  destruct (O1 cr ltac:(done)) as (Ea & Es1 & El1 & En1).
  assert (room cr r (6 + 2 * b) w1) as Hsnk1.
  { destruct Hsnk as [[? ? ?] ? ? ?]. constructor; [constructor|..]; rewrite ?Ea, ?S1; done. }
  destruct (create_sport_sink cr c r msize b w1 Hcr Hc ltac:(lia) eq_refl Hsnk1) as (w2 & E2 & [O2 S2 CO2 T2] & C2 & D2 & N2 & L2).
  destruct (O2 cs Hne) as (_ & Es2 & El2 & En2). unfold connect_sampling. rewrite E1, E2. rewrite C1 in C2. cbn in C2.
  destruct (init_ports_pair cs cr c _ w2 Hc Hne Hcs Hcr C2 eq_refl eq_refl) as [-> ->].
  { intros i Hi' x Hx. rewrite CO2, CO1 by done. by apply Hoth. }
  eexists. split; [reflexivity|]. unfold init_source, init_sink. cbn. rewrite !to_char_small, !u8_small by lia.
  repeat (rewrite ?fn_lookup_insert; rewrite ?(fn_lookup_insert_ne _ cs cr), ?(fn_lookup_insert_ne _ cr cs) by done; cbn).
  rewrite Es2, En2, D1, D2. cbn. destruct Hsrc as [[? _ _] _ ? ?], Hsnk as [[? _ _] _ ? ?].
  assert (0 < b) by (subst b; Z.div_mod_to_equations; lia).
  split; [constructor; cbn; unfold bufs_at, after_desc in *; repeat split; done || lia|].
  split; [|rewrite ?fn_lookup_insert; auto].
  constructor; cbn; [done|done|done|]. unfold xfer_of, Noc.w0, Noc.w1 in *. by rewrite T1.
Qed.
End Ports.

Import Demo Start.
Lemma w0_spre : sconnect_pre 1 2 7 0 0 30 w0.
Proof.
  constructor; try (unfold MAX_CHANNELS; lia); try (apply w0_room; vm_compute; intuition congruence).
  - intros i _ x Hx. cbn. lia.
  - reflexivity.
Qed.
Lemma sport_channel_ready_witness : exists w',
  connect_sampling 1 2 7 30 w0 = Some (adr 0, adr 0, w') /\
  sport_init 2 0 0 (mk_ssys Lock.start (nocs w' 1) (nocs w' 2) WIdle RIdle []).
Proof.
  destruct (sport_channel_ready 1 2 7 0 0 30 w0 w0_spre) as (w' & E & _ & Hi & _).
  exists w'. split; [exact E|exact Hi].
Defined.
