(* ===== verification/Decompress.v ===== *)
(** Decompress: the LZSS decoder of the boot loader, bootloader/decompress.c.

    - [ByteSource] is where get_byte of download.c takes its bytes from: the
      serial line ([Line]; uart_read waits for the next byte, and [None] means
      that none ever arrives) or the decoder over another source
      ([Compressed]).
    - Specification: a compressed file is a sequence of tokens, literal bytes
      and copies of earlier output; [expand] is the output they stand for,
      without any buffer, and [encode] the bytes of the file.  The decoder,
      called once per byte, delivers the expansion. *)

From stdpp Require Import base numbers list.
From S2P Require Import Prelude.

Class ByteSource := {
  src : Type;
  get_byte : src -> option (Z * src);
}.
(** The source returns the bytes [l], one per call, and is then [s']. *)
Fixpoint delivers `{ByteSource} (s : src) (l : list Z) (s' : src) : Prop :=
  match l with [] => s' = s | b :: l => exists s1, get_byte s = Some (b, s1) /\ delivers s1 l s' end.

Lemma delivers_app `{ByteSource} s l1 l2 s' :
  delivers s (l1 ++ l2) s' <-> exists s1, delivers s l1 s1 /\ delivers s1 l2 s'.
Proof.
  revert s. induction l1 as [|b l1 IH]; intros s; cbn; [split; [by exists s|by intros (? & -> & ?)]|].
  split.
  - intros (s1 & E & (s2 & ? & ?)%IH). exists s2. eauto.
  - intros (s2 & (s1 & E & ?) & ?). exists s1. split; [done|]. apply IH. eauto.
Qed.

(** uart_read. *)
Definition Line : ByteSource := {| src := list Z; get_byte l := match l with [] => None | b :: l => Some (b, l) end |}.

(** ** The decoder *)

Definition INDEX_BITS := 10.
Definition LENGTH_BITS := 16 - INDEX_BITS.
Definition THRESHOLD := 2.
Definition N := Z.shiftl 1 INDEX_BITS.
Definition F := Z.shiftl 1 LENGTH_BITS + THRESHOLD.

Record lz := mk_lz { text_buf : list Z; write_pos : Z; read_pos : Z; flags : Z }.

Definition text_at (t : list Z) (p : Z) : Z := at_ t p.
(** text_buf[write_pos++] = c; write_pos &= N - 1; *)
Definition put (c : Z) (d : lz) : lz :=
  mk_lz (<[Z.to_nat (write_pos d) := u8 c]> (text_buf d)) (Z.land (u32 (write_pos d + 1)) (N - 1)) (read_pos d) (flags d).

(** [old] are the globals at the call. *)
Definition decompress_init (old : lz) : lz :=
  let d := for_up (Z.to_nat (N - F)) 0 1
             (fun i t => <[Z.to_nat i := 32]> t) (text_buf old) in
  mk_lz d (N - F) (N - F) 0.

Definition copy_text (i j : Z) (d : lz) : lz :=
  for_up (Z.to_nat (j + 1)) i 1 (fun k d => put (text_at (text_buf d) (Z.land k (N - 1))) d) d.

Section Decoder.
Context `{ByteSource}.

Definition next_flags (d : lz) (s : src) : option (lz * src) :=
  let f := Z.shiftr (flags d) 1 in
  if Z.land f 0x100 =? 0 then
    match get_byte s with
    | Some (c, s) => Some (mk_lz (text_buf d) (write_pos d) (read_pos d) (u32 (Z.lor c 0xFF00)), s)
    | None => None
    end
  else Some (mk_lz (text_buf d) (write_pos d) (read_pos d) f, s).

Definition read_token (d : lz) (s : src) : option (lz * src) :=
  if negb (Z.land (flags d) 1 =? 0) then
    match get_byte s with Some (c, s) => Some (put c d, s) | None => None end
  else
    match get_byte s with
    | Some (i, s) =>
        match get_byte s with
        | Some (j, s) =>
            let i := Z.lor i (Z.shiftl (Z.land (Z.land j (Z.shiftl 0xff LENGTH_BITS)) 0xff) (8 - LENGTH_BITS)) in
            let j := Z.land j (Z.shiftl 1 LENGTH_BITS - 1) + THRESHOLD in
            Some (copy_text i j d, s)
        | None => None
        end
    | None => None
    end.

Definition decompress_get_byte (d : lz) (s : src) : option (Z * (lz * src)) :=
  match (if read_pos d =? write_pos d then
           match next_flags d s with Some (d, s) => read_token d s | None => None end
         else Some (d, s)) with
  | Some (d, s) =>
      Some (text_at (text_buf d) (read_pos d),
            (mk_lz (text_buf d) (write_pos d) (Z.land (u32 (read_pos d + 1)) (N - 1)) (flags d), s))
  | None => None
  end.

Definition Compressed : ByteSource :=
  {| src := lz * src; get_byte := fun p => decompress_get_byte (fst p) (snd p) |}.
End Decoder.

(** ** What a compressed file stands for *)

(** A copy starts at index [i] of a window of N bytes and has [n] bytes. *)
Inductive token := Lit (b : Z) | Copy (i n : Z).

(** The byte of the output [h] that a window of N bytes shows at index [p]:
    the last one at a position that is [p] modulo N, and 0 when there is none. *)
Definition window (h : list Z) (p : Z) : Z :=
  let n := Z.of_nat (length h) in
  let q := n - 1 - (n - 1 - p) mod N in
  if 0 <=? q then at_ h q else 0.

Fixpoint copies (k : nat) (i : Z) (h : list Z) : list Z :=
  match k with O => h | S k => copies k (i + 1) (h ++ [window h i]) end.
Definition expand_token (h : list Z) (t : token) : list Z :=
  match t with Lit b => h ++ [b] | Copy i n => copies (Z.to_nat n) i h end.
Definition expand (h : list Z) (ts : list token) : list Z := fold_left expand_token ts h.
(** Before the first byte the window holds spaces. *)
Definition spaces : list Z := replicate (Z.to_nat (N - F)) 32.
Definition expansion (ts : list token) : list Z := drop (Z.to_nat (N - F)) (expand spaces ts).

Definition token_ok (t : token) : Prop :=
  match t with Lit b => is_byte b | Copy i n => 0 <= i < N /\ THRESHOLD < n <= F end.

#[export] Instance token_ok_dec t : Decision (token_ok t).
Proof. destruct t; unfold token_ok, is_byte; apply _. Defined.

Definition is_lit (t : token) : bool := match t with Lit _ => true | Copy _ _ => false end.
Definition token_bytes (t : token) : list Z :=
  match t with Lit b => [b] | Copy i n => [i mod 256; 64 * (i / 256) + (n - 3)] end.
(** One bit for each of eight tokens, 1 for a literal. *)
Fixpoint flag_byte (k : nat) (ts : list token) : Z :=
  match k, ts with
  | S k, t :: ts => (if is_lit t then 1 else 0) + 2 * flag_byte k ts
  | _, _ => 0
  end.
(** [k] tokens are left that the last flag byte describes. *)
Fixpoint encode (k : nat) (ts : list token) : list Z :=
  match ts with
  | [] => []
  | t :: ts' =>
      match k with
      | O => flag_byte 8 ts :: token_bytes t ++ encode 7 ts'
      | S k => token_bytes t ++ encode k ts'
      end
  end.

(** ** The window and the buffer *)

Lemma N_val : N = 1024.
Proof. reflexivity. Qed.
Lemma F_val : F = 66.
Proof. reflexivity. Qed.

Lemma at_app_l h x q : 0 <= q < Z.of_nat (length h) -> at_ (h ++ x) q = at_ h q.
Proof. intros Hq. unfold at_. rewrite app_nth1 by lia. done. Qed.
Lemma at_app_r h b : at_ (h ++ [b]) (Z.of_nat (length h)) = b.
Proof. unfold at_. rewrite Nat2Z.id, app_nth2, Nat.sub_diag by lia. done. Qed.

Lemma window_app h b p : 0 <= p < N ->
  window (h ++ [b]) p = if decide (p = Z.of_nat (length h) mod N) then b else window h p.
Proof.
  intros Hp. unfold window. rewrite length_app, N_val in *. cbn [length]. set (n := Z.of_nat (length h)).
  replace (Z.of_nat (length h + 1)) with (n + 1) by lia. replace (n + 1 - 1) with n by lia.
  pose proof (Z.div_mod n 1024 ltac:(lia)) as En. pose proof (Z.mod_pos_bound n 1024 ltac:(lia)) as Hn.
  destruct (decide (p = n mod 1024)) as [->|Hne].
  - replace ((n - n mod 1024) mod 1024) with 0 by (symmetry; replace (n - n mod 1024) with (n / 1024 * 1024) by lia; apply Z.mod_mul; lia).
    rewrite Z.sub_0_r, (proj2 (Z.leb_le 0 n)) by lia. apply at_app_r.
  - pose proof (Z.div_mod (n - p) 1024 ltac:(lia)) as Em. pose proof (Z.mod_pos_bound (n - p) 1024 ltac:(lia)) as Hm.
    assert ((n - p) mod 1024 <> 0) by (intros E0; apply Hne; apply (Z.mod_unique n 1024 ((n - p) / 1024)); lia).
    replace ((n - 1 - p) mod 1024) with ((n - p) mod 1024 - 1)
      by (apply (Z.mod_unique _ 1024 ((n - p) / 1024)); lia).
    replace (n - 1 - ((n - p) mod 1024 - 1)) with (n - (n - p) mod 1024) by lia.
    destruct (Z.leb_spec 0 (n - (n - p) mod 1024)); [|done]. apply at_app_l. lia.
Qed.

Lemma window_recent h r : 0 <= r < Z.of_nat (length h) -> Z.of_nat (length h) - r <= N -> window h (r mod N) = at_ h r.
Proof.
  intros Hr Hn. unfold window. set (n := Z.of_nat (length h)) in *.
  replace ((n - 1 - r mod N) mod N) with (n - 1 - r).
  - replace (n - 1 - (n - 1 - r)) with r by lia. by rewrite (proj2 (Z.leb_le 0 r)) by lia.
  - rewrite Zminus_mod_idemp_r. symmetry. apply Z.mod_small. lia.
Qed.

(** The buffer shows the window of the output [h]. *)
Record shows (d : lz) (h : list Z) : Prop := {
  sh_len : Z.of_nat (length (text_buf d)) = N;
  sh_pos : write_pos d = Z.of_nat (length h) mod N;
  sh_text p : 0 <= p < N -> text_at (text_buf d) p = window h p;
}.

Lemma land_N x : Z.land x (N - 1) = x mod N.
Proof. rewrite N_val. change (1024 - 1) with (Z.ones 10). by rewrite Z.land_ones. Qed.
Lemma u32_mod_N x : u32 x mod N = x mod N.
Proof. unfold u32. rewrite N_val. change (2 ^ 32) with (1024 * 4194304). rewrite Z.rem_mul_r by lia. by rewrite (Z.mul_comm 1024), Z.mod_add, Z.mod_mod by lia. Qed.

Lemma put_shows d h b : shows d h -> is_byte b -> shows (put b d) (h ++ [b]) /\ read_pos (put b d) = read_pos d /\ flags (put b d) = flags d.
Proof.
  intros [Hl Hp Ht] Hb. split; [|done]. pose proof (Z.mod_pos_bound (Z.of_nat (length h)) N ltac:(rewrite N_val; lia)).
  constructor; cbn [put text_buf write_pos].
  - by rewrite length_insert.
  - rewrite land_N, u32_mod_N, Hp, length_app. cbn [length]. rewrite Zplus_mod_idemp_l. f_equal. lia.
  - intros p Hpn. rewrite window_app, <- Hp by done. unfold text_at, at_. rewrite !nth_lookup. case_decide as E.
    + subst p. rewrite list_lookup_insert_eq by lia. cbn. by apply u8_small.
    + rewrite list_lookup_insert_ne by lia. rewrite <- nth_lookup. by apply Ht.
Qed.

Lemma window_byte h p : Forall is_byte h -> is_byte (window h p).
Proof.
  intros Hh. unfold window. case_match; [|unfold is_byte; lia]. by apply (byte_array_at (length h)).
Qed.

Lemma window_mod h p : window h (p mod N) = window h p.
Proof. unfold window. by rewrite Zminus_mod_idemp_r. Qed.

Lemma copy_shows k : forall i d h, shows d h -> Forall is_byte h ->
  let d' := for_up k i 1 (fun k d => put (text_at (text_buf d) (Z.land k (N - 1))) d) d in
  shows d' (copies k i h) /\ read_pos d' = read_pos d /\ flags d' = flags d /\ Forall is_byte (copies k i h).
Proof.
  induction k as [|k IH]; intros i d h Hd Hh; [done|]. cbn [for_up copies].
  assert (0 <= i mod N < N) as Hi by (apply Z.mod_pos_bound; rewrite N_val; lia).
  rewrite land_N, (sh_text _ _ Hd), window_mod by done.
  destruct (put_shows d h (window h i) Hd ltac:(by apply window_byte)) as (Hs & Hr & Hf).
  destruct (IH (i + 1) _ _ Hs) as (Hs' & Hr' & Hf' & Hb); [apply Forall_app; split; [done|]; constructor; [by apply window_byte|done]|].
  split; [done|]. split; [congruence|]. split; [congruence|done].
Qed.

Lemma copies_prefix k : forall i h, exists x, copies k i h = h ++ x /\ length x = k.
Proof.
  induction k as [|k IH]; intros i h; cbn [copies]; [exists []; by rewrite app_nil_r|].
  destruct (IH (i + 1) (h ++ [window h i])) as (x & -> & Hx). exists (window h i :: x). rewrite <- app_assoc. cbn. by rewrite Hx.
Qed.

Lemma expand_token_prefix h t : token_ok t -> exists x, expand_token h t = h ++ x /\ 0 < Z.of_nat (length x) <= F.
Proof.
  rewrite F_val. destruct t as [b|i n]; intros Ht; cbn in *; [exists [b]; cbn; split; [done|lia]|].
  rewrite N_val, F_val in Ht. unfold THRESHOLD in Ht. destruct (copies_prefix (Z.to_nat n) i h) as (x & -> & Hx). exists x. split; [done|lia].
Qed.

(** ** Flags *)

(** [k] tokens are left that the flags describe; the next shift gives the flag
    of the first. *)
Definition flags_ok (f : Z) (k : nat) (ts : list token) : Prop :=
  0 <= f /\ (forall m, 0 <= m -> Z.testbit f (9 + m) = (m <? Z.of_nat k)) /\
  (forall m t, (m < k)%nat -> ts !! m = Some t -> Z.testbit f (1 + Z.of_nat m) = is_lit t).

Lemma flag_byte_bit ts : forall k m t, (m < k)%nat -> ts !! m = Some t -> Z.testbit (flag_byte k ts) (Z.of_nat m) = is_lit t.
Proof.
  induction ts as [|t0 ts IH]; intros [|k] m t Hm Ht; try done; [lia|]. cbn [flag_byte].
  destruct m as [|m]; cbn in Ht.
  - injection Ht as ->. change (Z.of_nat 0) with 0.
    destruct (is_lit t); [rewrite Z.add_comm; apply Z.testbit_odd_0|]. rewrite Z.add_0_l. apply Z.testbit_even_0.
  - replace (Z.of_nat (S m)) with (Z.succ (Z.of_nat m)) by lia. rewrite <- (IH k m t) by (done || lia).
    destruct (is_lit t0); [rewrite Z.add_comm; apply Z.testbit_odd_succ; lia|]. rewrite Z.add_0_l. apply Z.testbit_even_succ. lia.
Qed.
Lemma flag_byte_range k ts : 0 <= flag_byte k ts < 2 ^ Z.of_nat k.
Proof.
  revert ts. induction k as [|k IH]; intros [|t ts]; cbn [flag_byte]; try (split; [lia|]; apply Z.pow_pos_nonneg; lia).
  specialize (IH ts). rewrite Nat2Z.inj_succ, Z.pow_succ_r by lia. destruct (is_lit t); lia.
Qed.

Lemma land_bit x n : 0 <= n -> (Z.land x (2 ^ n) =? 0) = negb (Z.testbit x n).
Proof.
  intros Hn. assert (Z.land x (2 ^ n) = if Z.testbit x n then 2 ^ n else 0) as ->.
  - apply Z.bits_inj'. intros i Hi. rewrite Z.land_spec, Z.pow2_bits_eqb by lia. destruct (Z.eqb_spec n i) as [->|].
    + rewrite andb_true_r. destruct (Z.testbit x i); [|by rewrite Z.bits_0]. by rewrite Z.pow2_bits_true.
    + rewrite andb_false_r. destruct (Z.testbit x n); [|by rewrite Z.bits_0]. by rewrite Z.pow2_bits_false.
  - destruct (Z.testbit x n); [|done]. apply Z.eqb_neq. pose proof (Z.pow_pos_nonneg 2 n). lia.
Qed.

(** Flags after the shift, with [k] tokens left behind the one they describe. *)
Definition shifted_ok (f : Z) (t : token) (k : nat) (ts : list token) : Prop :=
  (Z.land f 1 =? 0) = negb (is_lit t) /\ flags_ok f k ts.

Lemma shift_ok f k t ts : flags_ok f (S k) (t :: ts) ->
  (Z.land (Z.shiftr f 1) 0x100 =? 0) = false /\ shifted_ok (Z.shiftr f 1) t k ts.
Proof.
  intros (H0 & Hc & Hl). split; [|split; [|split; [|split]]].
  - change 0x100 with (2 ^ 8). rewrite land_bit, Z.shiftr_spec by lia. change (8 + 1) with (9 + 0). by rewrite Hc.
  - change 1 with (2 ^ 0) at 2. rewrite land_bit, Z.shiftr_spec by lia. f_equal. apply (Hl 0%nat); [lia|done].
  - by apply Z.shiftr_nonneg.
  - intros m Hm. rewrite Z.shiftr_spec by lia. replace (9 + m + 1) with (9 + (m + 1)) by lia. rewrite Hc by lia.
    apply eq_true_iff_eq. rewrite !Z.ltb_lt. lia.
  - intros m t' Hm Ht. rewrite Z.shiftr_spec by lia. replace (1 + Z.of_nat m + 1) with (1 + Z.of_nat (S m)) by lia.
    apply Hl; [lia|done].
Qed.

Lemma ff00_bit i : 0 <= i -> Z.testbit 0xFF00 i = (8 <=? i) && (i <? 16).
Proof.
  intros Hi. change 0xFF00 with (Z.shiftl (Z.ones 8) 8). destruct (Z.leb_spec 8 i).
  - rewrite Z.shiftl_spec_high, Z.testbit_ones by lia. apply eq_true_iff_eq. rewrite !andb_true_iff, Z.leb_le, !Z.ltb_lt. lia.
  - by rewrite Z.shiftl_spec_low by lia.
Qed.

Lemma reload_bit c i : 0 <= c < 256 -> 0 <= i ->
  Z.testbit (u32 (Z.lor c 0xFF00)) i = Z.testbit c i || ((8 <=? i) && (i <? 16)).
Proof.
  intros Hc Hi. unfold u32. destruct (Z.ltb_spec i 32).
  - by rewrite Z.mod_pow2_bits_low, Z.lor_spec, ff00_bit by lia.
  - rewrite Z.mod_pow2_bits_high by lia. rewrite (proj2 (Z.ltb_ge i 16)), andb_false_r, orb_false_r by lia.
    symmetry. destruct (Z.eq_dec c 0) as [->|]; [apply Z.bits_0|]. apply Z.bits_above_log2; [lia|]. apply Z.log2_lt_pow2; [lia|].
    pose proof (Z.pow_le_mono_r 2 8 i). lia.
Qed.

Lemma small_bit c i : 0 <= c < 256 -> 8 <= i -> Z.testbit c i = false.
Proof.
  intros Hc Hi. destruct (Z.eq_dec c 0) as [->|]; [apply Z.bits_0|]. apply Z.bits_above_log2; [lia|]. apply Z.log2_lt_pow2; [lia|].
  pose proof (Z.pow_le_mono_r 2 8 i). lia.
Qed.

Lemma reload_ok t ts : shifted_ok (u32 (Z.lor (flag_byte 8 (t :: ts)) 0xFF00)) t 7 ts.
Proof.
  pose proof (flag_byte_range 8 (t :: ts)) as Hc. pose proof (flag_byte_bit (t :: ts) 8) as Hb.
  set (c := flag_byte 8 (t :: ts)) in *. change (2 ^ Z.of_nat 8) with 256 in Hc. split; [|split; [|split]].
  - change 1 with (2 ^ 0). rewrite land_bit, reload_bit by lia. rewrite orb_false_r. f_equal. apply (Hb 0%nat); [lia|done].
  - apply u32_range.
  - intros m Hm. rewrite reload_bit, small_bit by lia. apply eq_true_iff_eq. cbn [orb].
    rewrite andb_true_iff, Z.leb_le, !Z.ltb_lt. lia.
  - intros m t' Hm Ht. rewrite reload_bit, (proj2 (Z.leb_gt 8 _)) by lia. cbn [andb]. rewrite orb_false_r.
    replace (1 + Z.of_nat m) with (Z.of_nat (S m)) by lia. apply Hb; [lia|done].
Qed.

(** ** Decoding *)

Section Decodes.
Context {B : ByteSource}.

(** Everything decoded was returned, and [k] tokens are left that the flags
    describe. *)
Record ready (d : lz) (h : list Z) (k : nat) (ts : list token) : Prop := {
  rd_shows : shows d h;
  rd_read : read_pos d = write_pos d;
  rd_flags : flags_ok (flags d) k ts;
  rd_bytes : Forall is_byte h;
}.

Lemma copy_code i n : 0 <= i < N -> THRESHOLD < n <= F ->
  let j := 64 * (i / 256) + (n - 3) in
  Z.lor (i mod 256) (Z.shiftl (Z.land (Z.land j (Z.shiftl 0xff LENGTH_BITS)) 0xff) (8 - LENGTH_BITS)) = i /\
  Z.land j (Z.shiftl 1 LENGTH_BITS - 1) + THRESHOLD = n - 1.
Proof.
  intros Hi Hn j. rewrite N_val in Hi. rewrite F_val in Hn. unfold THRESHOLD in *. assert (0 <= i / 256 < 4) as Hq by (Z.div_mod_to_equations; lia).
  change LENGTH_BITS with 6. change (8 - 6) with 2. change (Z.shiftl 1 6 - 1) with (Z.ones 6). split.
  - rewrite <- Z.land_assoc. change (Z.land (Z.shiftl 255 6) 255) with (Z.shiftl (Z.ones 2) 6).
    assert (Z.land j (Z.shiftl (Z.ones 2) 6) = Z.shiftl (i / 256) 6) as ->.
    { replace j with (Z.lor (Z.shiftl (i / 256) 6) (n - 3)) by (rewrite lor_shift by lia; lia).
      rewrite Z.land_lor_distr_l. rewrite <- Z.shiftl_land, Z.land_ones, Z.mod_small by lia.
      apply Z.bits_inj'. intros m Hm. rewrite Z.lor_spec, Z.land_spec. destruct (Z.ltb_spec m 6).
      - rewrite !Z.shiftl_spec_low by lia. by rewrite andb_false_r.
      - assert (Z.testbit (n - 3) m = false) as ->; [|by rewrite orb_false_r].
        rewrite <- (Z.mod_small (n - 3) (2 ^ 6)) by lia. apply Z.mod_pow2_bits_high. lia. }
    rewrite Z.shiftl_shiftl, Z.lor_comm by lia. change (6 + 2) with 8. rewrite lor_shift by (pose proof (Z.mod_pos_bound i 256); lia).
    pose proof (Z.div_mod i 256). lia.
  - rewrite Z.land_ones by lia. replace (j mod 2 ^ 6) with (n - 3); [lia|]. subst j. apply (Z.mod_unique _ _ (i / 256)); lia.
Qed.

(** The bytes that are read before the first byte of a token is returned. *)
Lemma refill_run d h k t ts s s' : ready d h k (t :: ts) -> token_ok t ->
  delivers s (match k with O => [flag_byte 8 (t :: ts)] | S _ => [] end ++ token_bytes t) s' ->
  exists d', (match next_flags d s with Some (d, s) => read_token d s | None => None end) = Some (d', s') /\
    shows d' (expand_token h t) /\ read_pos d' = read_pos d /\ flags_ok (flags d') (match k with O => 7 | S k' => k' end%nat) ts /\
    Forall is_byte (expand_token h t).
Proof.
  intros [Hs Hr Hf Hb] Ht Hd.
  assert (exists d1 s1, next_flags d s = Some (d1, s1) /\ delivers s1 (token_bytes t) s' /\ shows d1 h /\ read_pos d1 = read_pos d /\
    shifted_ok (flags d1) t (match k with O => 7 | S k' => k' end%nat) ts) as (d1 & s1 & E1 & Hd1 & Hs1 & Hr1 & [Hbit Hf1]).
  { unfold next_flags. destruct k as [|k].
    - destruct Hd as (s1 & Hg & Hd1). assert ((Z.land (Z.shiftr (flags d) 1) 256 =? 0) = true) as ->.
      { change 256 with (2 ^ 8). rewrite land_bit, Z.shiftr_spec by lia. change (8 + 1) with (9 + 0). by rewrite (proj1 (proj2 Hf)). }
      rewrite Hg. eexists _, s1. split; [done|]. split; [done|]. split; [by destruct Hs|]. split; [done|]. apply reload_ok.
    - destruct (shift_ok _ _ _ _ Hf) as [-> Hsh]. eexists _, s. split; [done|]. split; [done|]. by split; [destruct Hs|]. }
  rewrite E1. unfold read_token. rewrite Hbit, negb_involutive. destruct t as [b|i n]; cbn [is_lit token_bytes delivers] in *.
  - destruct Hd1 as (s2 & -> & ->). destruct (put_shows d1 h b Hs1 Ht) as (Hs2 & Hr2 & Hf2). exists (put b d1).
    split; [done|]. split; [done|]. split; [congruence|]. rewrite Hf2. split; [done|]. apply Forall_app. split; [done|]. by constructor.
  - destruct Hd1 as (s2 & -> & s3 & -> & ->). destruct Ht as [Hi Hn]. destruct (copy_code i n Hi Hn) as [-> ->].
    unfold copy_text. replace (n - 1 + 1) with n by lia. destruct (copy_shows (Z.to_nat n) i d1 h Hs1 Hb) as (Hs2 & Hr2 & Hf2 & Hb2).
    eexists. split; [done|]. split; [done|]. split; [congruence|]. by rewrite Hf2.
Qed.

Lemma read_run d h r : shows d h -> read_pos d = r mod N -> 0 <= r < Z.of_nat (length h) -> Z.of_nat (length h) - r <= F ->
  text_at (text_buf d) (read_pos d) = at_ h r /\
  let d' := mk_lz (text_buf d) (write_pos d) (Z.land (u32 (read_pos d + 1)) (N - 1)) (flags d) in
  shows d' h /\ read_pos d' = (r + 1) mod N /\ read_pos d <> write_pos d.
Proof.
  intros Hs Hr Hb Hn. pose proof F_val. pose proof N_val. rewrite Hr. split; [|split; [|split]].
  - rewrite (sh_text _ _ Hs) by (apply Z.mod_pos_bound; lia). apply window_recent; lia.
  - by destruct Hs.
  - cbn. rewrite land_N, u32_mod_N. by rewrite Zplus_mod_idemp_l.
  - rewrite (sh_pos _ _ Hs). intros E. apply (f_equal (fun x => (x - r mod N) mod N)) in E.
    rewrite Z.sub_diag, <- Zminus_mod, Z.mod_0_l, Z.mod_small in E by lia. lia.
Qed.

(** The rest of a token: nothing is read from the source. *)
Lemma drain_run s x : forall d pre, shows d (pre ++ x) -> read_pos d = Z.of_nat (length pre) mod N -> Z.of_nat (length x) <= F ->
  exists d', @delivers (@Compressed B) (d, s) x (d', s) /\ shows d' (pre ++ x) /\ read_pos d' = write_pos d' /\ flags d' = flags d.
Proof.
  induction x as [|b x IH]; intros d pre Hs Hr Hx; cbn [delivers length] in *.
  - exists d. split; [done|]. split; [done|]. split; [|done]. by rewrite Hr, (sh_pos _ _ Hs), app_nil_r.
  - destruct (read_run d (pre ++ b :: x) (Z.of_nat (length pre)) Hs Hr) as (Hb & Hs' & Hr' & Hne);
      rewrite ?length_app; cbn [length]; try lia.
    destruct (IH (mk_lz (text_buf d) (write_pos d) (Z.land (u32 (read_pos d + 1)) (N - 1)) (flags d)) (pre ++ [b]))
      as (d' & Hd & Hs2 & Hr2 & Hf); [by rewrite <- app_assoc|rewrite Hr', length_app; f_equal; cbn; lia|lia|].
    exists d'. rewrite <- app_assoc in Hs2. split; [|done]. eexists. split; [|exact Hd].
    cbn. unfold decompress_get_byte. rewrite (proj2 (Z.eqb_neq _ _)) by done. rewrite Hb. do 3 f_equal.
    unfold at_. by rewrite Nat2Z.id, nth_lookup, lookup_app_r, Nat.sub_diag by lia.
Qed.

Lemma token_run d h k t ts s s' : ready d h k (t :: ts) -> token_ok t ->
  delivers s (match k with O => [flag_byte 8 (t :: ts)] | S _ => [] end ++ token_bytes t) s' ->
  exists d', @delivers (@Compressed B) (d, s) (drop (length h) (expand_token h t)) (d', s') /\
    ready d' (expand_token h t) (match k with O => 7 | S k' => k' end)%nat ts.
Proof.
  intros Hrd Ht Hd. destruct (refill_run d h k t ts s s' Hrd Ht Hd) as (d1 & E1 & Hs1 & Hr1 & Hf1 & Hb1).
  destruct (expand_token_prefix h t Ht) as (x & Ex & Hx). rewrite Ex in *. rewrite drop_app_length.
  destruct Hrd as [Hs Hr Hf Hb]. destruct x as [|b x]; [cbn in Hx; lia|]. cbn [length] in Hx.
  rewrite Hr, (sh_pos _ _ Hs) in Hr1.
  destruct (read_run d1 (h ++ b :: x) (Z.of_nat (length h)) Hs1 Hr1) as (Hbv & Hs' & Hr' & _);
    rewrite ?length_app; cbn [length]; try lia.
  destruct (drain_run s' x (mk_lz (text_buf d1) (write_pos d1) (Z.land (u32 (read_pos d1 + 1)) (N - 1)) (flags d1)) (h ++ [b]))
    as (d' & Hdel & Hs2 & Hr2 & Hf2); [by rewrite <- app_assoc|rewrite Hr', length_app; f_equal; cbn; lia|lia|].
  rewrite <- app_assoc in Hs2. exists d'. split.
  - eexists. split; [|exact Hdel]. cbn. unfold decompress_get_byte. rewrite (proj2 (Z.eqb_eq _ _)) by done. rewrite E1, Hbv.
    do 2 f_equal. unfold at_. by rewrite Nat2Z.id, nth_lookup, lookup_app_r, Nat.sub_diag by lia.
  - constructor; try done. by rewrite Hf2.
Qed.

Lemma tokens_run ts : forall d h k s s', ready d h k ts -> Forall token_ok ts -> delivers s (encode k ts) s' ->
  exists d', @delivers (@Compressed B) (d, s) (drop (length h) (expand h ts)) (d', s').
Proof.
  induction ts as [|t ts IH]; intros d h k s s' Hr Ht Hd.
  - cbn in *. subst s'. exists d. by rewrite drop_all.
  - apply Forall_cons in Ht as [Ht Hts].
    assert (exists s1, delivers s (match k with O => [flag_byte 8 (t :: ts)] | S _ => [] end ++ token_bytes t) s1 /\
      delivers s1 (encode (match k with O => 7 | S k' => k' end)%nat ts) s') as (s1 & Hd1 & Hd2).
    { apply delivers_app. destruct k; cbn [encode] in Hd; [|done]. by rewrite <- app_assoc. }
    destruct (token_run d h k t ts s s1 Hr Ht Hd1) as (d1 & Hdel & Hr1).
    destruct (IH _ _ _ _ _ Hr1 Hts Hd2) as (d2 & Hdel2). exists d2. change (expand h (t :: ts)) with (expand (expand_token h t) ts).
    destruct (expand_token_prefix h t Ht) as (x & Ex & _).
    assert (exists y, expand (expand_token h t) ts = expand_token h t ++ y) as (y & Ey).
    { clear -Hts. generalize (expand_token h t) as g. induction ts as [|u us IH]; intros g; [exists []; by rewrite app_nil_r|].
      apply Forall_cons in Hts as [Hu Hus]. destruct (IH Hus (expand_token g u)) as (y & E).
      destruct (expand_token_prefix g u Hu) as (z & Ez & _). exists (z ++ y). cbn. rewrite app_assoc, <- Ez. exact E. }
    rewrite Ey in *. rewrite drop_app_length in Hdel2. rewrite Ex in *. rewrite drop_app_length in Hdel.
    rewrite <- app_assoc, drop_app_length. apply delivers_app. eauto.
Qed.
End Decodes.

(** Globals are 0 when the boot loader starts. *)
Definition cleared : lz := mk_lz (replicate (Z.to_nat N) 0) 0 0 0.

Lemma init_ready ts : ready (decompress_init cleared) spaces 0 ts.
Proof.
  constructor.
  - constructor; [vm_compute; reflexivity|vm_compute; reflexivity|]. rewrite N_val. intros p Hp.
    assert (text_buf (decompress_init cleared) = spaces ++ replicate 66 0) as -> by (vm_compute; reflexivity).
    unfold text_at, window, at_, spaces. rewrite length_replicate. change (Z.to_nat (N - F)) with 958%nat. rewrite !nth_lookup, N_val.
    change (Z.of_nat 958 - 1) with 957. destruct (Z.ltb_spec p 958).
    + rewrite (Z.mod_small (957 - p)) by lia. replace (957 - (957 - p)) with p by lia. rewrite (proj2 (Z.leb_le 0 p)) by lia.
      by rewrite lookup_app_l by (rewrite length_replicate; lia).
    + rewrite <- (Z_mod_plus_full _ 1), Z.mod_small by lia. rewrite (proj2 (Z.leb_gt 0 _)) by lia.
      rewrite lookup_app_r, lookup_replicate_2 by (rewrite length_replicate; lia). done.
  - reflexivity.
  - split; [done|]. split; [|lia]. intros m Hm. cbn [flags decompress_init]. rewrite Z.bits_0. symmetry. apply Z.ltb_ge. lia.
  - apply Forall_replicate. unfold is_byte. lia.
Qed.

(** Over any source that delivers the bytes of a compressed file, the decoder
    delivers its expansion. *)
Lemma decoder_delivers {B : ByteSource} ts (s s' : src) : Forall token_ok ts -> delivers s (encode 0 ts) s' ->
  exists d', @delivers (@Compressed B) (decompress_init cleared, s) (expansion ts) (d', s').
Proof.
  intros Ht Hd. pose proof (tokens_run ts _ _ _ _ _ (init_ready ts) Ht Hd) as Hr. exact Hr.
Qed.

Lemma line_delivers l rest : @delivers Line (l ++ rest) l rest.
Proof. induction l as [|b l IH]; cbn; [done|]. by exists (l ++ rest). Qed.

(** Decompression.  For every sequence of literals and copies, when the
    serial line carries its encoding, calls of decompress_get_byte return the
    bytes of its expansion, in order and one per call, and have then read
    exactly the encoding: the ring buffer of 1024 bytes with its read and write
    positions, the masks and the flag register implement the expansion, which
    is defined on the whole output without a buffer. *)
Theorem decompress_correct ts rest : Forall token_ok ts ->
  exists d', @delivers (@Compressed Line) (decompress_init cleared, encode 0 ts ++ rest) (expansion ts) (d', rest).
Proof. intros Ht. apply (decoder_delivers (B := Line)); [done|apply line_delivers]. Qed.

(** Ten tokens, a copy that overlaps its own output and one of the spaces. *)
Lemma decompress_correct_witness :
  let ts := [Lit 97; Lit 98; Copy 958 7; Copy 0 3; Lit 99; Lit 100; Lit 101; Lit 102; Lit 103; Copy 960 66] in
  take 18 (expansion ts) = [97; 98; 97; 98; 97; 98; 97; 98; 97; 32; 32; 32; 99; 100; 101; 102; 103; 97] /\
  exists d', @delivers (@Compressed Line) (decompress_init cleared, encode 0 ts ++ [5]) (expansion ts) (d', [5]).
Proof.
  intros ts. split; [vm_compute; reflexivity|]. apply (decompress_correct ts [5]). apply (bool_decide_unpack _). vm_compute. reflexivity.
Defined.
