(* ===== verification/Download.v ===== *)
(** Download: the boot loader receives a program, bootloader/download.c.

    - The host sends packets: a size, a CRC of four bytes and the data.  The
      data of all packets is the entry point, the number of sections and, for
      every section, file size, offset, memory size and contents.
    - [sections] is the part of the local variables that the data goes into,
      and the main memory, an array of words ([MEM]); [packet] are those for the
      packet.  [download] runs over any [ByteSource], as get_byte does in the
      configurations of boot.h, and collects what put_byte sends.
    - [None]: the loop that clears the rest of a section never ends. *)

From stdpp Require Import base numbers functions list.
From S2P Require Import Prelude Decompress.

(** enum state. *)
Inductive dl_state :=
| STATE_ENTRYPOINT | STATE_SECTION_NUMBER | STATE_SECTION_FILESIZE | STATE_SECTION_OFFSET
| STATE_SECTION_MEMSIZE | STATE_SECTION_DATA.
#[export] Instance dl_state_eq_dec : EqDecision dl_state.
Proof. solve_decision. Defined.
(** current_state++ below STATE_SECTION_DATA. *)
Definition next_state (s : dl_state) : dl_state :=
  match s with
  | STATE_ENTRYPOINT => STATE_SECTION_NUMBER
  | STATE_SECTION_NUMBER => STATE_SECTION_FILESIZE
  | STATE_SECTION_FILESIZE => STATE_SECTION_OFFSET
  | STATE_SECTION_OFFSET => STATE_SECTION_MEMSIZE
  | _ => STATE_SECTION_DATA
  end.

Record sections := mk_sections {
  entrypoint : Z; section_number : Z; section_count : Z;
  section_filesize : Z; section_offset : Z; section_memsize : Z; section_byte_count : Z;
  integer : Z; current_state : dl_state;
  MEM : Z -> Z;
}.
Record packet := mk_packet {
  packet_byte_count : Z; packet_size : Z; calculated_crc : Z; received_crc : Z; }.

Definition CRC_LENGTH := 4.
Definition poly := 0xEDB88320.

(** The variables at the start. *)
Definition sections0 (m : Z -> Z) : sections := mk_sections 0 0xFFFFFFFF 0 0 0 0 0 0 STATE_ENTRYPOINT m.
Definition packet0 : packet := mk_packet 0 0 0 0xFFFFFFFF.

(** *** The checksum *)

Definition crc_bit (c : Z) : Z :=
  if 0 <? Z.land c 1 then Z.lxor (Z.shiftr c 1) poly else Z.shiftr c 1.
Definition crc_byte (c data : Z) : Z := for_up 8 0 1 (fun _ c => crc_bit c) (Z.lxor c data).

(** *** A byte of data *)

Definition set_word (n : Z) (d : sections) : sections :=
  mk_sections (entrypoint d) (section_number d) (section_count d) (section_filesize d) (section_offset d)
    (section_memsize d) (section_byte_count d) n (current_state d) (MEM d).
Definition set_count (n : Z) (d : sections) : sections :=
  mk_sections (entrypoint d) (section_number d) (section_count d) (section_filesize d) (section_offset d)
    (section_memsize d) n (integer d) (current_state d) (MEM d).
Definition store (a v : Z) (d : sections) : sections :=
  mk_sections (entrypoint d) (section_number d) (section_count d) (section_filesize d) (section_offset d)
    (section_memsize d) (section_byte_count d) (integer d) (current_state d) (<[a := v]> (MEM d)).

(** The switch, section_byte_count = 0 and current_state++. *)
Definition header_word (d : sections) : sections :=
  let n := integer d in
  let '(e, num, fs, off, ms) :=
    match current_state d with
    | STATE_ENTRYPOINT => (n, section_number d, section_filesize d, section_offset d, section_memsize d)
    | STATE_SECTION_NUMBER => (entrypoint d, n, section_filesize d, section_offset d, section_memsize d)
    | STATE_SECTION_FILESIZE => (entrypoint d, section_number d, n, section_offset d, section_memsize d)
    | STATE_SECTION_OFFSET => (entrypoint d, section_number d, section_filesize d, n, section_memsize d)
    | STATE_SECTION_MEMSIZE => (entrypoint d, section_number d, section_filesize d, section_offset d, n)
    | STATE_SECTION_DATA => (entrypoint d, section_number d, section_filesize d, section_offset d, section_memsize d)
    end in
  mk_sections e num (section_count d) fs off ms 0 n (next_state (current_state d)) (MEM d).

(** The loop that fills up a section with zeros. *)
Fixpoint zero_fill (fuel : nat) (d : sections) : option sections :=
  if section_byte_count d <? section_memsize d then
    match fuel with
    | O => None
    | S f => zero_fill f (set_count (u32 (section_byte_count d + 4))
               (store (u32 (section_offset d + section_byte_count d) / 4) 0 d))
    end
  else Some d.

(** The end of a section. *)
Definition section_end (d : sections) : option sections :=
  let d := set_count (Z.land (u32 (section_byte_count d + 3)) (u32 (Z.lnot 3))) d in
  match zero_fill (S (Z.to_nat (section_memsize d / 4))) d with
  | None => None
  | Some d =>
      Some (mk_sections (entrypoint d) (section_number d) (u32 (section_count d + 1)) (section_filesize d)
              (section_offset d) (section_memsize d) 0 (integer d) STATE_SECTION_FILESIZE (MEM d))
  end.

Definition payload_byte (data : Z) (d : sections) : option sections :=
  let d := set_word (Z.lor (integer d) (u32 (Z.shiftl data ((3 - section_byte_count d mod 4) * 8)))) d in
  let d := set_count (u32 (section_byte_count d + 1)) d in
  let d :=
    if decide (current_state d = STATE_SECTION_DATA)
    then store (u32 (section_offset d + section_byte_count d - 1) / 4) (integer d) d
    else if section_byte_count d =? 4 then header_word d else d in
  match (if bool_decide (current_state d = STATE_SECTION_DATA) && (section_byte_count d =? section_filesize d)
         then section_end d else Some d) with
  | None => None
  | Some d => Some (if section_byte_count d mod 4 =? 0 then set_word 0 d else d)
  end.

(** *** A byte of a packet *)

(** [Some e] as second component: download returns [e], where 0 is NULL.  The
    last component is what put_byte sends. *)
Definition packet_byte (data : Z) (d : sections) (p : packet) : option (sections * packet * option Z * list Z) :=
  if packet_size p =? 0 then Some (d, mk_packet 0 (u32 data) 0xFFFFFFFF 0, None, [])
  else
    match
      (if packet_byte_count p <? CRC_LENGTH then
         Some (d, mk_packet (packet_byte_count p) (packet_size p) (calculated_crc p)
                    (Z.lor (u32 (Z.shiftl (received_crc p) 8)) (u32 data)))
       else if packet_byte_count p <? u32 (packet_size p + CRC_LENGTH) then
         match payload_byte data d with
         | None => None
         | Some d => Some (d, mk_packet (packet_byte_count p) (packet_size p) (crc_byte (calculated_crc p) data) (received_crc p))
         end
       else Some (d, p))
    with
    | None => None
    | Some (d, p) =>
        let n := u32 (packet_byte_count p + 1) in
        if n =? u32 (packet_size p + CRC_LENGTH) then
          let crc := Z.lxor (calculated_crc p) 0xFFFFFFFF in
          let p := mk_packet n 0 crc (received_crc p) in
          if negb (crc =? received_crc p) then Some (d, p, Some 0, [u8 crc])
          else if section_count d =? section_number d then Some (d, p, Some (entrypoint d), [u8 crc])
          else Some (d, p, None, [u8 crc])
        else Some (d, mk_packet n (packet_size p) (calculated_crc p) (received_crc p), None, [])
    end.

(** What download returns, the memory, the bytes sent and the rest of the
    source. *)
Fixpoint download_loop `{ByteSource} (fuel : nat) (d : sections) (p : packet) (s : src) : option (Z * (Z -> Z) * list Z * src) :=
  match fuel with
  | O => None
  | S f =>
      match get_byte s with
      | None => None
      | Some (data, s) =>
          match packet_byte data d p with
          | None => None
          | Some (d, _, Some e, out) => Some (e, MEM d, out, s)
          | Some (d, p, None, out) =>
              match download_loop f d p s with
              | Some (e, m, out', s) => Some (e, m, out ++ out', s)
              | None => None
              end
          end
      end
  end.
Definition download `{ByteSource} (fuel : nat) (m : Z -> Z) (s : src) : option (Z * (Z -> Z) * list Z * src) :=
  download_loop fuel (sections0 m) packet0 s.

(** ** Programs *)

Record section := mk_section { s_offset : Z; s_memsize : Z; s_data : list Z }.
Record image := mk_image { i_entry : Z; i_sections : list section }.

Definition section_bytes (s : section) : list Z :=
  be 4 (Z.of_nat (length (s_data s))) ++ be 4 (s_offset s) ++ be 4 (s_memsize s) ++ s_data s.
Definition image_bytes (i : image) : list Z :=
  be 4 (i_entry i) ++ be 4 (Z.of_nat (length (i_sections i))) ++ concat (map section_bytes (i_sections i)).

Definition crc32 (l : list Z) : Z := Z.lxor (fold_left crc_byte l 0xFFFFFFFF) 0xFFFFFFFF.
Definition packet_bytes (c : list Z) : list Z := Z.of_nat (length c) :: be 4 (crc32 c) ++ c.

(** A word of a section: four bytes, the last ones 0 at the end. *)
Definition word_of (l : list Z) : Z := num l * 256 ^ (4 - Z.of_nat (length l)).
Definition section_word (l : list Z) (k : Z) : Z := word_of (take 4 (drop (Z.to_nat (4 * k)) l)).
Definition words_of (n : Z) : Z := (n + 3) / 4.
(** The memory with a section: its contents, then zeros. *)
Definition load_section (m : Z -> Z) (s : section) (a : Z) : Z :=
  let o := s_offset s / 4 in
  if (o <=? a) && (a <? o + words_of (Z.max (Z.of_nat (length (s_data s))) (s_memsize s)))
  then section_word (s_data s) (a - o) else m a.
Definition load (m : Z -> Z) (i : image) : Z -> Z := fold_left load_section (i_sections i) m.

Record section_ok (s : section) : Prop := {
  so_data : Forall is_byte (s_data s);
  so_offset : 0 <= s_offset s /\ s_offset s mod 4 = 0;
  so_memsize : 0 <= s_memsize s;
  so_fits : s_offset s + Z.of_nat (length (s_data s)) + s_memsize s <= 2 ^ 32 - 4;
}.
Record image_ok (i : image) : Prop := {
  io_entry : 0 <= i_entry i < 2 ^ 32;
  io_sections : Forall section_ok (i_sections i);
  io_number : Z.of_nat (length (i_sections i)) < 2 ^ 32;
}.

(** The checksum of the usual test string. *)
Example crc32_check : crc32 [49; 50; 51; 52; 53; 54; 55; 56; 57] = 0xCBF43926.
Proof. vm_compute. reflexivity. Qed.
