(* ===== verification/DownloadRun.v ===== *)
(** DownloadRun: theorems on the download of a program (Download.v). *)

From stdpp Require Import base numbers functions list.
From S2P Require Import Prelude Decompress Download.

(** ** Runs over data *)

Fixpoint payloads (l : list Z) (d : sections) : option sections :=
  match l with [] => Some d | b :: l => match payload_byte b d with Some d => payloads l d | None => None end end.

(** Not all sections are complete. *)
Definition live (d : sections) : Prop := section_count d <> section_number d.

(** From [d] the bytes [l] lead to [d'], and before each of them the program was
    not complete. *)
Fixpoint qrun (d : sections) (l : list Z) (d' : sections) : Prop :=
  match l with [] => d' = d | b :: l => live d /\ exists d1, payload_byte b d = Some d1 /\ qrun d1 l d' end.

Lemma qrun_app d l1 l2 d' : qrun d (l1 ++ l2) d' <-> exists d1, qrun d l1 d1 /\ qrun d1 l2 d'.
Proof.
  revert d. induction l1 as [|b l1 IH]; intros d; cbn; [split; [by exists d|by intros (? & -> & ?)]|]. split.
  - intros (Hl & d1 & E & (d2 & ? & ?)%IH). exists d2. eauto.
  - intros (d2 & (Hl & d1 & E & ?) & ?). split; [done|]. exists d1. split; [done|]. apply IH. eauto.
Qed.
Lemma qrun_payloads l : forall d d', qrun d l d' -> payloads l d = Some d'.
Proof. induction l as [|b l IH]; intros d d'; cbn; [by intros ->|]. intros (_ & d1 & -> & H). auto. Qed.
Lemma payloads_app l1 l2 : forall d, payloads (l1 ++ l2) d = match payloads l1 d with Some d => payloads l2 d | None => None end.
Proof. induction l1 as [|b l1 IH]; intros d; cbn; [done|]. by destruct (payload_byte b d). Qed.

Lemma fn_insert_at {A} (f : Z -> A) a v b : (<[a := v]> f : Z -> A) b = if decide (a = b) then v else f b.
Proof. case_decide as E; [by rewrite E, fn_lookup_insert|by rewrite fn_lookup_insert_ne]. Qed.

(** ** Words *)

Lemma word_of_nil : word_of [] = 0.
Proof. reflexivity. Qed.
Lemma num_range l : Forall is_byte l -> 0 <= num l < 256 ^ Z.of_nat (length l).
Proof.
  induction l as [|b l IH] using rev_ind; intros Hl; [done|]. rewrite Forall_app, Forall_singleton in Hl. destruct Hl as [Hl Hb].
  rewrite num_snoc, length_app. cbn [length]. specialize (IH Hl). unfold is_byte in Hb.
  replace (Z.of_nat (length l + 1)) with (Z.succ (Z.of_nat (length l))) by lia. rewrite Z.pow_succ_r by lia. lia.
Qed.

Lemma word_step l b : Forall is_byte l -> is_byte b -> (length l < 4)%nat ->
  Z.lor (word_of l) (u32 (Z.shiftl b ((3 - Z.of_nat (length l)) * 8))) = word_of (l ++ [b]).
Proof.
  intros Hl Hb Hn. unfold is_byte in Hb. unfold word_of. rewrite num_snoc, length_app. cbn [length].
  set (r := Z.of_nat (length l)). assert (0 <= r <= 3) by lia.
  replace (4 - Z.of_nat (length l + 1)) with (3 - r) by lia. replace (4 - r) with (3 - r + 1) by lia.
  replace 256 with (2 ^ 8) by done. rewrite <- !Z.pow_mul_r by lia. set (k := 8 * (3 - r)). replace ((3 - r) * 8) with k by lia.
  replace (8 * (3 - r + 1)) with (k + 8) by lia. assert (0 < 2 ^ k) by (apply Z.pow_pos_nonneg; lia).
  assert (b * 2 ^ k < 2 ^ (k + 8)) by (rewrite Z.pow_add_r by lia; nia).
  assert (2 ^ (k + 8) <= 2 ^ 32) by (apply Z.pow_le_mono_r; lia).
  rewrite (Z.shiftl_mul_pow2 b) by lia. rewrite u32_small by nia. rewrite <- (Z.shiftl_mul_pow2 (num l)) by lia.
  rewrite lor_shift by nia. rewrite Z.pow_add_r by lia. ring.
Qed.

Ltac all_bytes := repeat (apply List.Forall_cons; [assumption|]); apply List.Forall_nil.

(** *** Header words *)

Record word_start (d : sections) : Prop := {
  st_count : section_byte_count d = 0; st_int : integer d = 0; }.

Lemma header_byte d l b : current_state d <> STATE_SECTION_DATA -> Forall is_byte l -> is_byte b -> (length l < 3)%nat ->
  payload_byte b (set_count (Z.of_nat (length l)) (set_word (word_of l) d)) =
  Some (set_count (Z.of_nat (length (l ++ [b]))) (set_word (word_of (l ++ [b])) d)).
Proof.
  intros Hs Hl Hb Hn. unfold payload_byte. cbn [integer section_byte_count set_count set_word current_state].
  rewrite (Z.mod_small (Z.of_nat (length l))), word_step by (done || lia). rewrite (u32_small (Z.of_nat (length l) + 1)) by lia.
  rewrite decide_False by done. rewrite (proj2 (Z.eqb_neq _ 4)) by lia.
  rewrite bool_decide_false by done. cbn [andb section_byte_count set_count set_word]. rewrite (Z.mod_small (Z.of_nat (length l) + 1)), (proj2 (Z.eqb_neq (Z.of_nat (length l) + 1) 0)) by lia.
  rewrite length_app. cbn [length]. by replace (Z.of_nat (length l + 1)) with (Z.of_nat (length l) + 1) by lia.
Qed.

(** After the fourth byte. *)
Definition word_done (w : Z) (d : sections) : option sections :=
  let h := header_word (set_count 4 (set_word w d)) in
  match (if bool_decide (current_state h = STATE_SECTION_DATA) && (0 =? section_filesize h) then section_end h else Some h) with
  | Some d => Some (set_word 0 d)
  | None => None
  end.

Lemma section_end_count d d' : section_end d = Some d' -> section_byte_count d' = 0.
Proof. unfold section_end. case_match; [|done]. by intros [= <-]. Qed.

Lemma word_run w d d' : current_state d <> STATE_SECTION_DATA -> word_start d -> live d -> 0 <= w < 2 ^ 32 ->
  word_done w d = Some d' -> qrun d (be 4 w) d'.
Proof.
  intros Hs [Hc Hi] Hlive Hw Hd.
  assert (d = set_count 0 (set_word (word_of []) d)) as E by (rewrite word_of_nil, <- Hc at 1; rewrite <- Hi at 1; by destruct d).
  pose proof (be_is_bytes 4 w) as Hb. assert (word_of (be 4 w) = w) as Ew.
  { unfold word_of. rewrite be_length, num_be by done. change (4 - Z.of_nat 4) with 0. lia. }
  destruct (be 4 w) as [|b0 [|b1 [|b2 [|b3 [|]]]]] eqn:Eb; try (apply (f_equal length) in Eb; rewrite be_length in Eb; done).
  rewrite !Forall_cons in Hb. destruct Hb as (B0 & B1 & B2 & B3 & _).
  assert (forall x, payload_byte x d = payload_byte x (set_count (Z.of_nat (length ([] : list Z))) (set_word (word_of []) d))) as E0
    by (intros x; cbn [length]; change (Z.of_nat 0) with 0; by rewrite <- E).
  split; [done|]. eexists. split; [rewrite E0; apply (header_byte d []); (done || cbn; lia)|].
  split; [done|]. eexists. split; [apply (header_byte d [b0]); (done || (cbn; lia) || all_bytes)|].
  split; [done|]. eexists. split; [apply (header_byte d [b0; b1]); (done || (cbn; lia) || all_bytes)|].
  split; [done|]. exists d'. split; [|done].
  unfold payload_byte. cbn [integer section_byte_count set_count set_word current_state length app].
  rewrite (Z.mod_small (Z.of_nat 3)) by lia. rewrite (word_step [b0; b1; b2]) by (done || (cbn; lia) || all_bytes).
  cbn [app]. rewrite Ew. change (u32 (Z.of_nat 3 + 1)) with 4. rewrite decide_False by done. rewrite Z.eqb_refl. revert Hd.
  unfold word_done. set (h := header_word (set_count 4 (set_word w d))).
  assert (section_byte_count h = 0) as Hh by (subst h; unfold header_word; cbn; by destruct (current_state d)).
  match goal with |- context [header_word ?x] => lazymatch x with set_count _ _ => change (header_word x) with h end end.
  rewrite Hh. destruct (bool_decide (current_state h = STATE_SECTION_DATA) && (0 =? section_filesize h)); [|intros [= <-]; by rewrite Hh].
  destruct (section_end h) as [d1|] eqn:Ee; [|done]. intros [= <-]. by rewrite (section_end_count _ _ Ee).
Qed.

(** *** The end of a section *)

(** The variables that the end of a section does not change. *)
Record same_section (d d' : sections) : Prop := {
  ss_entry : entrypoint d' = entrypoint d; ss_number : section_number d' = section_number d;
  ss_count : section_count d' = section_count d; ss_file : section_filesize d' = section_filesize d;
  ss_offset : section_offset d' = section_offset d; ss_mem : section_memsize d' = section_memsize d;
}.

Lemma zero_fill_run fuel : forall d k, section_byte_count d = 4 * k -> 0 <= k -> 0 <= section_offset d -> section_offset d mod 4 = 0 ->
  section_offset d + section_memsize d <= 2 ^ 32 - 4 -> words_of (section_memsize d) - k <= Z.of_nat fuel ->
  let o := section_offset d / 4 in
  exists d', zero_fill fuel d = Some d' /\ same_section d d' /\
    forall a, MEM d' a = if bool_decide (o + k <= a < o + words_of (section_memsize d)) then 0 else MEM d a.
Proof.
  induction fuel as [|fuel IH]; intros d k Hc Hk Ho Ha Hm Hf o; unfold words_of in *; cbn [zero_fill]; rewrite Hc;
    (destruct (Z.ltb_spec (4 * k) (section_memsize d)) as [Hlt|Hge];
     [|exists d; split; [done|]; split; [by constructor|]; intros a; rewrite bool_decide_false; [done|]; Z.div_mod_to_equations; lia]).
  - exfalso. Z.div_mod_to_equations. lia.
  - rewrite !u32_small by lia.
    assert ((section_offset d + 4 * k) / 4 = o + k) as Hw by (subst o; Z.div_mod_to_equations; lia). rewrite Hw.
    destruct (IH (set_count (4 * k + 4) (store (o + k) 0 d)) (k + 1)) as (d' & E & [] & HM); cbn; try lia.
    cbn in *. exists d'. split; [done|]. split; [by constructor|]. intros a. rewrite HM. fold o. rewrite fn_insert_at.
    repeat case_bool_decide; repeat case_decide; try done; exfalso; Z.div_mod_to_equations; lia.
Qed.

(** A section of which [n] bytes were received. *)
Lemma section_end_run d : let n := section_filesize d in let o := section_offset d / 4 in
  section_byte_count d = n -> 0 <= n -> 0 <= section_offset d -> section_offset d mod 4 = 0 -> 0 <= section_memsize d ->
  section_offset d + n + section_memsize d <= 2 ^ 32 - 4 ->
  exists d', section_end d = Some d' /\ entrypoint d' = entrypoint d /\ section_number d' = section_number d /\
    section_count d' = u32 (section_count d + 1) /\ section_byte_count d' = 0 /\ current_state d' = STATE_SECTION_FILESIZE /\
    forall a, MEM d' a = if bool_decide (o + words_of n <= a < o + words_of (section_memsize d)) then 0 else MEM d a.
Proof.
  intros n o Hc Hn Ho Ha Hm Hf. unfold section_end. rewrite Hc, align_4 by lia. fold (words_of n).
  assert (0 <= words_of n) by (unfold words_of; Z.div_mod_to_equations; lia).
  destruct (zero_fill_run (S (Z.to_nat (section_memsize d / 4))) (set_count (4 * words_of n) d) (words_of n)) as (d' & E & [] & HM);
    cbn; try lia.
  { unfold words_of in *. Z.div_mod_to_equations. lia. }
  cbn in E, HM |- *. rewrite E. eexists. split; [done|]. cbn in *. split_and!; try congruence. exact HM.
Qed.

(** *** Contents of a section *)

Lemma take_word (l : list Z) (j k : Z) : 0 <= k -> 4 * k + 4 <= j -> section_word (take (Z.to_nat j) l) k = section_word l k.
Proof.
  intros Hk Hj. unfold section_word. f_equal. rewrite skipn_firstn_comm, take_take. f_equal. lia.
Qed.

(** [j] bytes of [s] were received; [m] is the memory before the section. *)
Record in_data (d : sections) (s : section) (m : Z -> Z) (j : Z) : Prop := {
  id_state : current_state d = STATE_SECTION_DATA;
  id_file : section_filesize d = Z.of_nat (length (s_data s));
  id_offset : section_offset d = s_offset s;
  id_mem : section_memsize d = s_memsize s;
  id_count : section_byte_count d = j;
  id_int : integer d = section_word (take (Z.to_nat j) (s_data s)) (j / 4);
  id_MEM a : MEM d a = let o := s_offset s / 4 in
    if bool_decide (o <= a < o + words_of j) then section_word (take (Z.to_nat j) (s_data s)) (a - o) else m a;
}.

(** A section that is complete. *)
Record section_done (d : sections) (s : section) (m : Z -> Z) (e n c : Z) : Prop := {
  sd_entry : entrypoint d = e; sd_number : section_number d = n; sd_count : section_count d = u32 (c + 1);
  sd_start : word_start d; sd_state : current_state d = STATE_SECTION_FILESIZE;
  sd_MEM a : MEM d a = load_section m s a;
}.

Lemma section_complete d s m : section_ok s -> current_state d = STATE_SECTION_DATA ->
  section_filesize d = Z.of_nat (length (s_data s)) -> section_offset d = s_offset s -> section_memsize d = s_memsize s ->
  section_byte_count d = section_filesize d ->
  (forall a, MEM d a = let o := s_offset s / 4 in
     if bool_decide (o <= a < o + words_of (Z.of_nat (length (s_data s)))) then section_word (s_data s) (a - o) else m a) ->
  exists d', section_end d = Some d' /\ section_byte_count d' = 0 /\
    section_done (set_word 0 d') s m (entrypoint d) (section_number d) (section_count d).
Proof.
  intros [Hd [Ho Ha] Hm Hf] Hst Hfs Hof Hms Hc HM.
  destruct (section_end_run d) as (d' & E & He & Hn & Hcn & Hb & Hs & HM'); rewrite ?Hof, ?Hms, ?Hc, ?Hfs; try lia; try done.
  exists d'. split; [done|]. split; [done|]. constructor; cbn; try done. intros a. rewrite HM', HM, Hof, Hms, Hfs. cbv zeta.
  unfold load_section. set (o := s_offset s / 4). set (n := Z.of_nat (length (s_data s))).
  assert (words_of (Z.max n (s_memsize s)) = Z.max (words_of n) (words_of (s_memsize s))) as ->
    by (unfold words_of; Z.div_mod_to_equations; lia).
  destruct (bool_decide_reflect (o + words_of n <= a < o + words_of (s_memsize s))) as [H1|H1].
  - rewrite (proj2 (Z.leb_le _ _)), (proj2 (Z.ltb_lt _ _)) by (unfold words_of in *; Z.div_mod_to_equations; lia).
    cbn [andb]. unfold section_word. rewrite drop_ge; [done|]. unfold words_of in *. Z.div_mod_to_equations. lia.
  - assert (0 <= words_of n) by (unfold words_of; Z.div_mod_to_equations; lia).
    destruct (bool_decide_reflect (o <= a < o + words_of n)) as [H2|H2].
    + by rewrite (proj2 (Z.leb_le _ _)), (proj2 (Z.ltb_lt _ _)) by lia.
    + destruct (Z.leb_spec o a), (Z.ltb_spec a (o + Z.max (words_of n) (words_of (s_memsize s)))); try done. lia.
Qed.

(** The word that is being assembled. *)
Lemma tail_word (l : list Z) (j : Z) b : 0 <= j -> l !! Z.to_nat j = Some b -> Forall is_byte l ->
  let t := drop (Z.to_nat (4 * (j / 4))) (take (Z.to_nat j) l) in
  section_word (take (Z.to_nat j) l) (j / 4) = word_of t /\ Z.of_nat (length t) = j mod 4 /\ Forall is_byte t /\
  section_word (take (Z.to_nat (j + 1)) l) (j / 4) = word_of (t ++ [b]).
Proof.
  intros Hj Hb Hl t. pose proof (lookup_lt_Some _ _ _ Hb).
  assert (Z.of_nat (length t) = j mod 4) as Hlen
    by (subst t; rewrite length_drop, length_take; Z.div_mod_to_equations; lia).
  pose proof (Z.mod_pos_bound j 4 ltac:(lia)).
  split; [|split; [done|split]].
  - unfold section_word. fold t. by rewrite (take_ge t) by lia.
  - subst t. by apply Forall_drop, Forall_take.
  - unfold section_word. replace (Z.to_nat (j + 1)) with (S (Z.to_nat j)) by lia. rewrite (take_S_r _ _ b Hb).
    rewrite drop_app_le by (rewrite length_take; Z.div_mod_to_equations; lia). fold t.
    by rewrite (take_ge (t ++ [b])) by (rewrite length_app; cbn; lia).
Qed.

Lemma data_byte d s m j b : in_data d s m j -> section_ok s -> 0 <= j -> s_data s !! Z.to_nat j = Some b ->
  exists d', payload_byte b d = Some d' /\
    if decide (j + 1 = Z.of_nat (length (s_data s)))
    then section_done d' s m (entrypoint d) (section_number d) (section_count d)
    else in_data d' s m (j + 1) /\ entrypoint d' = entrypoint d /\ section_number d' = section_number d /\ section_count d' = section_count d.
Proof.
  intros [Hst Hfs Hof Hms Hc Hi HM] Hok Hj Hb. pose proof (lookup_lt_Some _ _ _ Hb) as Hlt.
  destruct Hok as [Hby [Ho Ha] Hm Hfit] eqn:Eok. destruct (tail_word _ _ _ Hj Hb Hby) as (T1 & T2 & T3 & T4).
  assert (is_byte b) as Hbb by (by apply (Forall_lookup_1 _ _ _ _ Hby Hb)).
  set (t := drop (Z.to_nat (4 * (j / 4))) (take (Z.to_nat j) (s_data s))) in *.
  unfold payload_byte. cbn [set_word set_count section_byte_count integer current_state section_offset].
  pose proof (Z.mod_pos_bound j 4 ltac:(lia)).
  rewrite Hc, Hi, T1, <- T2, word_step, <- T4 by (done || lia). rewrite (u32_small (j + 1)) by lia.
  rewrite decide_True by done. rewrite Hof. replace (s_offset s + (j + 1) - 1) with (s_offset s + j) by lia. rewrite (u32_small (s_offset s + j)) by lia.
  assert ((s_offset s + j) / 4 = s_offset s / 4 + j / 4) as -> by (clear -Ha Hj Ho; Z.div_mod_to_equations; lia).
  set (o := s_offset s / 4) in *. set (v := section_word (take (Z.to_nat (j + 1)) (s_data s)) (j / 4)).
  set (d1 := store (o + j / 4) v (set_count (j + 1) (set_word v d))).
  assert (forall a, MEM d1 a = if bool_decide (o <= a < o + words_of (j + 1))
    then section_word (take (Z.to_nat (j + 1)) (s_data s)) (a - o) else m a) as HM1.
  { intros a. subst d1. cbn [MEM store set_count set_word]. rewrite fn_insert_at, HM. cbv zeta. fold o.
    assert (words_of (j + 1) = j / 4 + 1) as -> by (unfold words_of; Z.div_mod_to_equations; lia).
    destruct (decide (o + j / 4 = a)) as [<-|Hne].
    - rewrite bool_decide_true by (Z.div_mod_to_equations; lia). subst v. f_equal. lia.
    - destruct (bool_decide_reflect (o <= a < o + words_of j)) as [H1|H1].
      + assert (a - o < j / 4) by (unfold words_of in H1; Z.div_mod_to_equations; lia).
        rewrite bool_decide_true by lia. by rewrite !take_word by (Z.div_mod_to_equations; lia).
      + rewrite bool_decide_false; [done|]. unfold words_of in H1. Z.div_mod_to_equations. lia. }
  change (section_byte_count d1) with (j + 1). change (section_filesize d1) with (section_filesize d).
  rewrite (bool_decide_true _ Hst), Hfs. cbn [andb]. case_decide as Ej.
  - rewrite (proj2 (Z.eqb_eq _ _)) by done.
    destruct (section_complete d1 s m) as (d' & E & Hb0 & Hd); try done; [cbn; congruence|intros a; rewrite HM1, Ej, Nat2Z.id; cbv zeta; by rewrite firstn_all|].
    exists (set_word 0 d'). rewrite E, Hb0. split; [done|]. exact Hd.
  - rewrite (proj2 (Z.eqb_neq _ _)) by done. eexists. split; [done|]. change (section_byte_count d1) with (j + 1).
    split; [|by case_match].
    destruct (Z.eqb_spec ((j + 1) mod 4) 0) as [E0|E0].
    + constructor; try done. cbn [integer set_word]. unfold section_word. rewrite drop_ge; [done|].
      rewrite length_take. Z.div_mod_to_equations. lia.
    + constructor; try done. subst d1 v. cbn [integer store set_count set_word]. f_equal. Z.div_mod_to_equations. lia.
Qed.

Lemma data_run s m k : section_ok s -> forall d j, in_data d s m j -> 0 <= j -> live d ->
  Z.of_nat (S k) = Z.of_nat (length (s_data s)) - j ->
  exists d', qrun d (drop (Z.to_nat j) (s_data s)) d' /\ section_done d' s m (entrypoint d) (section_number d) (section_count d).
Proof.
  intros Hok. induction k as [|k IH]; intros d j Hd Hj Hl Hk;
    (destruct (lookup_lt_is_Some_2 (s_data s) (Z.to_nat j)) as [b Hb]; [lia|]);
    (destruct (data_byte d s m j b Hd Hok Hj Hb) as (d1 & E & H1)); rewrite (drop_S _ b) by done; cbn [qrun].
  - rewrite decide_True in H1 by lia. exists d1. split; [|done]. split; [done|]. exists d1. split; [done|].
    by rewrite drop_ge by lia.
  - rewrite decide_False in H1 by lia. destruct H1 as (H1 & He & Hn & Hc).
    destruct (IH d1 (j + 1)) as (d' & Hq & Hs); [done|lia|unfold live; congruence|lia|].
    exists d'. rewrite He, Hn, Hc in Hs. split; [|done]. split; [done|]. exists d1. split; [done|].
    by replace (S (Z.to_nat j)) with (Z.to_nat (j + 1)) by lia.
Qed.

(** *** A section *)

Definition section_start (d : sections) : Prop := word_start d /\ current_state d = STATE_SECTION_FILESIZE.

Lemma section_run s d : section_ok s -> section_start d -> live d ->
  exists d', qrun d (section_bytes s) d' /\ section_done d' s (MEM d) (entrypoint d) (section_number d) (section_count d).
Proof.
  intros Hok [Hs Hst] Hl. pose proof Hok as [Hby [Ho Ha] Hm Hf]. set (n := Z.of_nat (length (s_data s))) in *.
  set (d1 := mk_sections (entrypoint d) (section_number d) (section_count d) n (section_offset d) (section_memsize d) 0 0
    STATE_SECTION_OFFSET (MEM d)).
  set (d2 := mk_sections (entrypoint d) (section_number d) (section_count d) n (s_offset s) (section_memsize d) 0 0
    STATE_SECTION_MEMSIZE (MEM d)).
  set (d3 := mk_sections (entrypoint d) (section_number d) (section_count d) n (s_offset s) (s_memsize s) 0 (s_memsize s)
    STATE_SECTION_DATA (MEM d)).
  assert (qrun d (be 4 n) d1) as Q1.
  { apply word_run; [congruence|done|done|lia|]. unfold word_done, header_word. cbn. by rewrite Hst. }
  assert (qrun d1 (be 4 (s_offset s)) d2) as Q2 by (by apply word_run; [|constructor| |lia|]).
  assert (forall d4, word_done (s_memsize s) d2 = Some d4 -> qrun d2 (be 4 (s_memsize s)) d4) as Q3
    by (intros d4 E; by apply word_run; [|constructor| |lia|]).
  assert (exists d4, qrun d2 (be 4 (s_memsize s) ++ s_data s) d4 /\
    section_done d4 s (MEM d) (entrypoint d) (section_number d) (section_count d)) as (d4 & Q4 & H4).
  2:{ exists d4. split; [|done]. unfold section_bytes. rewrite qrun_app. exists d1. split; [done|]. rewrite qrun_app. by exists d2. }
  change (word_done (s_memsize s) d2) with
    (match (if 0 =? n then section_end d3 else Some d3) with Some d => Some (set_word 0 d) | None => None end) in Q3.
  assert (forall a, MEM d a = if bool_decide (s_offset s / 4 <= a < s_offset s / 4 + words_of 0)
    then section_word [] (a - s_offset s / 4) else MEM d a) as HM0
    by (intros a; rewrite bool_decide_false; [done|]; change (words_of 0) with 0; lia).
  destruct (Z.eqb_spec 0 n) as [E0|E0].
  - assert (s_data s = []) as El by (apply length_zero_iff_nil; lia).
    destruct (section_complete d3 s (MEM d)) as (d' & E & _ & Hd); try done; [by intros a; rewrite El; apply HM0|].
    exists (set_word 0 d'). rewrite El, app_nil_r. split; [|exact Hd]. apply Q3. by rewrite E.
  - destruct (data_run s (MEM d) (Z.to_nat (n - 1)) Hok (set_word 0 d3) 0) as (d4 & Hq & Hd); [|done|done|lia|].
    { constructor; try done. }
    exists d4. split; [|exact Hd]. rewrite qrun_app. exists (set_word 0 d3). split; [by apply Q3|]. exact Hq.
Qed.

(** ** Programs *)

Lemma load_ext l : forall m m' a, (forall x, m x = m' x) -> fold_left load_section l m a = fold_left load_section l m' a.
Proof.
  induction l as [|s l IH]; intros m m' a E; cbn; [done|]. apply IH. intros x. unfold load_section. by rewrite E.
Qed.

Lemma sections_run l : forall d, Forall section_ok l -> section_start d -> 0 <= section_count d ->
  section_count d + Z.of_nat (length l) = section_number d -> section_number d < 2 ^ 32 ->
  exists d', qrun d (concat (map section_bytes l)) d' /\ entrypoint d' = entrypoint d /\ section_count d' = section_number d' /\
    forall a, MEM d' a = fold_left load_section l (MEM d) a.
Proof.
  induction l as [|s l IH]; intros d Hl Hs Hc Hn Hu; cbn [concat map length fold_left] in *.
  - exists d. split; [done|]. split; [done|]. split; [lia|done].
  - apply Forall_cons in Hl as [Hok Hl]. destruct (section_run s d Hok Hs) as (d1 & Q1 & [E1 E2 E3 E4 E5 E6]); [unfold live; lia|].
    rewrite u32_small in E3 by lia.
    destruct (IH d1 Hl) as (d2 & Q2 & F1 & F2 & F3); [by split|lia..|].
    exists d2. rewrite qrun_app. split; [by exists d1|]. split; [congruence|]. split; [done|].
    intros a. rewrite F3. by apply load_ext.
Qed.

Lemma image_run i m : image_ok i ->
  exists d', qrun (sections0 m) (image_bytes i) d' /\ entrypoint d' = i_entry i /\ section_count d' = section_number d' /\
    forall a, MEM d' a = load m i a.
Proof.
  intros [He Hs Hn]. set (n := Z.of_nat (length (i_sections i))) in *.
  set (d1 := mk_sections (i_entry i) 0xFFFFFFFF 0 0 0 0 0 0 STATE_SECTION_NUMBER m).
  set (d2 := mk_sections (i_entry i) n 0 0 0 0 0 0 STATE_SECTION_FILESIZE m).
  destruct (sections_run (i_sections i) d2) as (d' & Q & E1 & E2 & E3); [done|by split; [constructor|]|done|done|done|].
  exists d'. split; [|done]. unfold image_bytes. rewrite qrun_app. exists d1. split.
  - by apply word_run; [|constructor| | |].
  - rewrite qrun_app. exists d2. split; [|done]. by apply word_run; [|constructor| |lia|].
Qed.

(** ** Packets *)

Lemma lxor_range a b k : 0 <= k -> 0 <= a < 2 ^ k -> 0 <= b < 2 ^ k -> 0 <= Z.lxor a b < 2 ^ k.
Proof.
  intros Hk Ha Hb. assert (0 <= Z.lxor a b) as H0 by (rewrite Z.lxor_nonneg; lia). split; [done|].
  destruct (decide (Z.lxor a b = 0)) as [->|Hne]; [by apply Z.pow_pos_nonneg|]. apply Z.log2_lt_pow2; [lia|].
  pose proof (Z.log2_lxor a b ltac:(lia) ltac:(lia)) as Hl.
  assert (forall x, 0 <= x < 2 ^ k -> x <> 0 -> Z.log2 x < k) as Hx by (intros x ? ?; apply Z.log2_lt_pow2; lia).
  destruct (decide (a = 0)) as [->|Ha0]; [rewrite Z.lxor_0_l in *; auto|].
  destruct (decide (b = 0)) as [->|Hb0]; [rewrite Z.lxor_0_r in *; auto|].
  pose proof (Hx a Ha Ha0). pose proof (Hx b Hb Hb0). lia.
Qed.

Lemma crc_bit_range c : 0 <= c < 2 ^ 32 -> 0 <= crc_bit c < 2 ^ 32.
Proof.
  intros Hc. assert (0 <= Z.shiftr c 1 < 2 ^ 32) by (rewrite Z.shiftr_div_pow2 by lia; Z.div_mod_to_equations; lia).
  unfold crc_bit. case_match; [|done]. apply lxor_range; [lia|done|done].
Qed.
Lemma crc_byte_range c b : 0 <= c < 2 ^ 32 -> is_byte b -> 0 <= crc_byte c b < 2 ^ 32.
Proof.
  intros Hc Hb. unfold crc_byte, is_byte in *. assert (0 <= Z.lxor c b < 2 ^ 32) as H by (apply lxor_range; lia).
  revert H. generalize (Z.lxor c b). intros x Hx. cbn. by repeat apply crc_bit_range.
Qed.
Lemma crc32_range l : Forall is_byte l -> 0 <= crc32 l < 2 ^ 32.
Proof.
  intros Hl. apply lxor_range; [lia| |done]. assert (0 <= 0xFFFFFFFF < 2 ^ 32) as H by done. revert H. generalize 0xFFFFFFFF.
  induction Hl as [|b l Hb Hl IH]; intros c Hc; [done|]. cbn. apply IH. by apply crc_byte_range.
Qed.

Lemma packet_length c : length (packet_bytes c) = (5 + length c)%nat.
Proof. unfold packet_bytes. cbn [length]. by rewrite length_app, be_length. Qed.

Section Packets.
Context `{ByteSource}.

Lemma loop_step f d p s b s1 d' p' : get_byte s = Some (b, s1) -> packet_byte b d p = Some (d', p', None, []) ->
  download_loop (S f) d p s = download_loop f d' p' s1.
Proof. intros E1 E2. cbn. rewrite E1, E2. by destruct (download_loop f d' p' s1) as [[[[]]]|]. Qed.

Lemma crc_field d n crc b k l : Forall is_byte l -> is_byte b -> length l = k -> (k < 4)%nat -> 0 < n < 256 ->
  packet_byte b d (mk_packet (Z.of_nat k) n crc (num l)) = Some (d, mk_packet (Z.of_nat (S k)) n crc (num (l ++ [b])), None, []).
Proof.
  intros Hl Hb Hk H4 Hn. unfold packet_byte, CRC_LENGTH. cbn [packet_size packet_byte_count received_crc calculated_crc].
  rewrite (proj2 (Z.eqb_neq n 0)), (proj2 (Z.ltb_lt _ 4)) by lia. cbn [packet_size packet_byte_count received_crc calculated_crc].
  pose proof (num_range l Hl) as Hr. unfold is_byte in Hb. rewrite Hk in Hr.
  assert (256 ^ Z.of_nat k <= 256 ^ 3) by (apply Z.pow_le_mono_r; lia).
  rewrite (u32_small (Z.of_nat k + 1)), (u32_small (n + 4)), (proj2 (Z.eqb_neq _ (n + 4))) by lia.
  rewrite (u32_small b), (u32_small (Z.shiftl _ _)) by (rewrite ?Z.shiftl_mul_pow2 by lia; lia).
  rewrite lor_shift by lia. rewrite num_snoc. do 5 f_equal; lia.
Qed.

(** The size and the CRC. *)
Lemma packet_header c v f d p s s' : packet_size p = 0 -> (0 < length c < 256)%nat -> 0 <= v < 2 ^ 32 ->
  delivers s (Z.of_nat (length c) :: be 4 v ++ c) s' ->
  exists s1, download_loop (5 + f) d p s = download_loop f d (mk_packet 4 (Z.of_nat (length c)) 0xFFFFFFFF v) s1 /\ delivers s1 c s'.
Proof.
  intros Hp Hn Hv (s0 & G0 & (s5 & Hd & Hc)%delivers_app). exists s5. split; [|done].
  pose proof (be_is_bytes 4 v) as Hb. rewrite <- (num_be 4 v) by done.
  destruct (be 4 v) as [|b0 [|b1 [|b2 [|b3 [|]]]]] eqn:Eb; try (apply (f_equal length) in Eb; rewrite be_length in Eb; done).
  rewrite !Forall_cons in Hb. destruct Hb as (B0 & B1 & B2 & B3 & _).
  destruct Hd as (s1 & G1 & s2 & G2 & s3 & G3 & s4 & G4 & ->). cbn [Nat.add].
  erewrite loop_step; [|exact G0|unfold packet_byte; rewrite Hp, Z.eqb_refl, (u32_small (Z.of_nat _)) by lia; reflexivity].
  erewrite loop_step; [|exact G1|apply (crc_field _ _ _ _ 0 []); (done || (cbn; lia) || all_bytes)].
  erewrite loop_step; [|exact G2|apply (crc_field _ _ _ _ 1 [b0]); (done || (cbn; lia) || all_bytes)].
  erewrite loop_step; [|exact G3|apply (crc_field _ _ _ _ 2 [b0; b1]); (done || (cbn; lia) || all_bytes)].
  erewrite loop_step; [|exact G4|apply (crc_field _ _ _ _ 3 [b0; b1; b2]); (done || (cbn; lia) || all_bytes)].
  done.
Qed.

(** The end of a packet with the CRC [v]. *)
Definition packet_end (f : nat) (crc v : Z) (d : sections) (n : Z) (s : src) : option (Z * (Z -> Z) * list Z * src) :=
  if crc =? v then
    if section_count d =? section_number d then Some (entrypoint d, MEM d, [u8 crc], s)
    else match download_loop f d (mk_packet n 0 crc v) s with
         | Some (e, m, out, s) => Some (e, m, u8 crc :: out, s) | None => None end
  else Some (0, MEM d, [u8 crc], s).

Lemma packet_data c : forall k n crc v f d d' s s', c <> [] -> 4 <= k -> k + Z.of_nat (length c) = n + 4 -> 0 < n < 256 ->
  payloads c d = Some d' -> delivers s c s' ->
  download_loop (length c + f) d (mk_packet k n crc v) s =
  packet_end f (Z.lxor (fold_left crc_byte c crc) 0xFFFFFFFF) v d' (n + 4) s'.
Proof.
  induction c as [|b c IH]; intros k n crc v f d d' s s' Hne Hk Hl Hn Hp Hd; [done|]. cbn [payloads delivers length] in Hp, Hd, Hl.
  destruct (payload_byte b d) as [d1|] eqn:Eb; [|done]. destruct Hd as (s1 & G & Hd). cbn [length Nat.add fold_left].
  assert (packet_byte b d (mk_packet k n crc v) =
    if k + 1 =? n + 4 then
      let x := Z.lxor (crc_byte crc b) 0xFFFFFFFF in let p := mk_packet (k + 1) 0 x v in
      if negb (x =? v) then Some (d1, p, Some 0, [u8 x])
      else if section_count d1 =? section_number d1 then Some (d1, p, Some (entrypoint d1), [u8 x]) else Some (d1, p, None, [u8 x])
    else Some (d1, mk_packet (k + 1) n (crc_byte crc b) v, None, [])) as Ep.
  { unfold packet_byte, CRC_LENGTH. cbn [packet_size packet_byte_count received_crc calculated_crc].
    rewrite (proj2 (Z.eqb_neq n 0)), (proj2 (Z.ltb_ge k 4)), (u32_small (n + 4)), (proj2 (Z.ltb_lt k (n + 4))), Eb by lia.
    cbn [packet_size packet_byte_count received_crc calculated_crc]. by rewrite (u32_small (k + 1)), (u32_small (n + 4)) by lia. }
  destruct c as [|b' c].
  - cbn in Hp, Hd, Hl. injection Hp as ->. subst s1. rewrite (proj2 (Z.eqb_eq (k + 1) (n + 4))) in Ep by lia.
    cbn [download_loop length Nat.add fold_left]. rewrite G, Ep. cbv zeta. unfold packet_end.
    replace (k + 1) with (n + 4) by lia. match goal with |- context [if negb (?x =? v) then _ else _] => destruct (x =? v) end; cbn [negb]; by repeat case_match.
  - rewrite (proj2 (Z.eqb_neq (k + 1) (n + 4))) in Ep by (cbn in Hl; lia).
    erewrite loop_step by (exact G || exact Ep). apply IH; (done || lia).
Qed.

(** A packet. *)
Lemma packet_run c v f d d' p s s' : packet_size p = 0 -> (0 < length c < 256)%nat -> 0 <= v < 2 ^ 32 ->
  delivers s (Z.of_nat (length c) :: be 4 v ++ c) s' -> payloads c d = Some d' ->
  download_loop (5 + length c + f) d p s = packet_end f (crc32 c) v d' (Z.of_nat (length c) + 4) s'.
Proof.
  intros Hp Hc Hv Hd Hpay. destruct (packet_header c v (length c + f) d p s s') as (s1 & E & Hd1); [done..|].
  rewrite <- Nat.add_assoc, E. apply packet_data; try done; [|lia..]. intros ->. cbn in Hc. lia.
Qed.

Definition chunk_ok (c : list Z) : Prop := (0 < length c < 256)%nat /\ Forall is_byte c.

#[export] Instance chunk_ok_dec c : Decision (chunk_ok c).
Proof. unfold chunk_ok, is_byte. apply _. Defined.

(** Packets that do not complete the program. *)
Lemma packets_run chunks : forall f d d' p s s' rest, packet_size p = 0 -> Forall chunk_ok chunks -> rest <> [] ->
  qrun d (concat chunks) d' -> (exists d'', qrun d' rest d'') -> delivers s (concat (map packet_bytes chunks)) s' ->
  exists p', packet_size p' = 0 /\
    download_loop (length (concat (map packet_bytes chunks)) + f) d p s =
    match download_loop f d' p' s' with
    | Some (e, m, out, s) => Some (e, m, map (fun c => u8 (crc32 c)) chunks ++ out, s) | None => None end.
Proof.
  induction chunks as [|c chunks IH]; intros f d d' p s s' rest Hp Hc Hr Hq Hl Hd; cbn [map concat] in *.
  - cbn in Hq, Hd. subst. exists p. split; [done|]. cbn. by destruct (download_loop f d p s) as [[[[]]]|].
  - apply Forall_cons in Hc as [[Hn Hb] Hc]. apply qrun_app in Hq as (d1 & Q1 & Q2). apply delivers_app in Hd as (s1 & D1 & D2).
    pose proof (crc32_range c Hb) as Hv.
    destruct (IH f d1 d' (mk_packet (Z.of_nat (length c) + 4) 0 (crc32 c) (crc32 c)) s1 s' rest) as (p' & Hp' & E); try done.
    exists p'. split; [done|]. rewrite length_app, packet_length.
    rewrite <- Nat.add_assoc.
    erewrite packet_run by (done || by apply qrun_payloads). unfold packet_end. rewrite Z.eqb_refl.
    assert (live d1) as Hlive.
    { destruct (concat chunks) as [|x y]; [|by destruct Q2]. cbn in Q2. subst d1. destruct rest, Hl as [? Hl]; [done|]. by destruct Hl. }
    rewrite (proj2 (Z.eqb_neq _ _)) by done. rewrite E. by destruct (download_loop f d' p' s') as [[[[]]]|].
Qed.

End Packets.

(** ** The theorems *)

Section Theorems.
Context `{ByteSource}.

(** The data of the packets is the program. *)
Record sends (chunks : list (list Z)) (i : image) : Prop := {
  se_ok : image_ok i; se_chunks : Forall chunk_ok chunks; se_data : concat chunks = image_bytes i; }.

Lemma download_run i m chunks s s' fuel : sends chunks i -> delivers s (concat (map packet_bytes chunks)) s' ->
  (length (concat (map packet_bytes chunks)) <= fuel)%nat ->
  exists m', download fuel m s = Some (i_entry i, m', map (fun c => u8 (crc32 c)) chunks, s') /\ forall a, m' a = load m i a.
Proof.
  intros [Hi Hc He] Hd Hf. destruct (image_run i m Hi) as (d' & Q & E1 & E2 & E3). rewrite <- He in Q.
  destruct chunks as [|c chunks _] using rev_ind; [apply (f_equal length) in He; unfold image_bytes in He; rewrite length_app in He; done|].
  rewrite map_app, concat_app in *. cbn [map concat] in *. rewrite app_nil_r in *. apply Forall_app in Hc as [Hc [[Hn Hb] _]%Forall_cons].
  apply qrun_app in Q as (d1 & Q1 & Q2). apply delivers_app in Hd as (s1 & D1 & D2). rewrite length_app, packet_length in Hf.
  set (n := length (concat (map packet_bytes chunks))) in *.
  set (f := (fuel - n - (5 + length c))%nat). replace fuel with (n + (5 + length c + f))%nat by lia. unfold download.
  destruct (packets_run chunks (5 + length c + f) (sections0 m) d1 packet0 s s1 c) as (p' & Hp' & E); eauto; [intros ->; cbn in Hn; lia|].
  fold n in E. rewrite E.
  rewrite (packet_run c (crc32 c) f d1 d' p' s1 s') by (done || (by apply qrun_payloads) || by apply crc32_range). unfold packet_end.
  rewrite Z.eqb_refl, E2, Z.eqb_refl. exists (MEM d'). by rewrite E1.
Qed.

(** Download.  However the program is cut into packets of 1 to 255 bytes,
    when the source delivers the packets (size, CRC, data), download reads
    exactly them, acknowledges each with the low byte of its CRC, returns the
    entry point, and has put every section into memory: its contents as
    big-endian words, the last one filled up with zeros, then zeros up to the
    memory size; nothing else has changed. *)
Theorem download_correct i m chunks s s' fuel : sends chunks i -> delivers s (concat (map packet_bytes chunks)) s' ->
  (length (concat (map packet_bytes chunks)) <= fuel)%nat ->
  exists m', download fuel m s = Some (i_entry i, m', map (fun c => u8 (crc32 c)) chunks, s') /\ forall a, m' a = load m i a.
Proof. apply download_run. Qed.

(** C37: a packet whose CRC does not match.  After any number of good packets
    whose data is a proper prefix of the image of a program, a packet with arbitrary data and a CRC
    field that is not its CRC ends the download: it returns NULL, having
    acknowledged every packet, the bad one with the CRC calculated for it.
    [payloads] says that the data does not make the loop that clears memory
    endless; it is in memory already, since the check comes last. *)
Theorem download_rejects i m chunks rest c v d' s s' fuel :
  image_ok i -> Forall chunk_ok chunks -> concat chunks ++ rest = image_bytes i -> rest <> [] ->
  chunk_ok c -> 0 <= v < 2 ^ 32 -> v <> crc32 c ->
  payloads (concat chunks ++ c) (sections0 m) = Some d' ->
  delivers s (concat (map packet_bytes chunks) ++ Z.of_nat (length c) :: be 4 v ++ c) s' ->
  (length (concat (map packet_bytes chunks)) + (5 + length c) <= fuel)%nat ->
  download fuel m s = Some (0, MEM d', map (fun c => u8 (crc32 c)) chunks ++ [u8 (crc32 c)], s').
Proof.
  intros Hi Hc He Hr [Hn Hb] Hv Hne Hp Hd Hf. destruct (image_run i m Hi) as (de & Q & _). rewrite <- He in Q.
  apply qrun_app in Q as (d1 & Q1 & Q2). apply delivers_app in Hd as (s1 & D1 & D2).
  rewrite payloads_app, (qrun_payloads _ _ _ Q1) in Hp. set (n := length (concat (map packet_bytes chunks))) in *.
  set (f := (fuel - n - (5 + length c))%nat). replace fuel with (n + (5 + length c + f))%nat by lia. unfold download.
  destruct (packets_run chunks (5 + length c + f) (sections0 m) d1 packet0 s s1 rest) as (p' & Hp' & E); eauto.
  fold n in E. rewrite E.
  rewrite (packet_run c v f d1 d' p' s1 s') by done. unfold packet_end. by rewrite (proj2 (Z.eqb_neq _ _)).
Qed.

End Theorems.

(** A program of two sections, one of them with an incomplete word and an area
    to be cleared, in packets that end inside words. *)
Module Small.
Definition prog : image := mk_image 0x20004 [mk_section 0x20000 12 [1; 2; 3; 4; 5; 6]; mk_section 0x30000 0 []].
Definition cuts : list (list Z) :=
  let b := image_bytes prog in [take 7 b; take 15 (drop 7 b); drop 22 b].
Definition first : list Z := take 7 (image_bytes prog).

Lemma prog_ok : image_ok prog.
Proof.
  constructor; [done| |done]. repeat apply List.Forall_cons; [| |apply List.Forall_nil]; (constructor; [|done..]);
    apply (bool_decide_unpack _); vm_compute; reflexivity.
Qed.
Lemma cuts_ok : Forall chunk_ok cuts.
Proof. apply (bool_decide_unpack _). vm_compute. reflexivity. Qed.
End Small.

Lemma download_correct_witness : exists m',
  @download Line 100 (fun _ => 7) (concat (map packet_bytes Small.cuts) ++ [9]) = Some (0x20004, m', [34; 186; 233], [9]) /\
  map m' [0x7FFF; 0x8000; 0x8001; 0x8002; 0x8003; 0xC000] = [7; 0x01020304; 0x05060000; 0; 7; 7].
Proof.
  destruct (@download_correct Line Small.prog (fun _ => 7) Small.cuts (concat (map packet_bytes Small.cuts) ++ [9]) [9] 100)
    as (m' & E & HM); [by constructor; [apply Small.prog_ok|apply Small.cuts_ok|]|apply line_delivers|apply (bool_decide_unpack _); vm_compute; reflexivity|].
  exists m'. split; [exact E|]. cbn [map]. rewrite !HM. vm_compute. reflexivity.
Defined.

(** The first packet is good, the second has a wrong CRC. *)
Lemma download_rejects_witness : exists d',
  @download Line 100 (fun _ => 7) (packet_bytes Small.first ++ [2; 0; 0; 0; 1; 8; 9] ++ [5]) = Some (0, MEM d', [34; 83], [5]).
Proof.
  destruct (payloads (concat [Small.first] ++ [8; 9]) (sections0 (fun _ => 7))) as [d'|] eqn:E; [|vm_compute in E; discriminate].
  exists d'. apply (@download_rejects Line Small.prog (fun _ => 7) [Small.first] (drop 7 (image_bytes Small.prog)) [8; 9] 1).
  - apply Small.prog_ok.
  - apply (bool_decide_unpack _). vm_compute. reflexivity.
  - vm_compute. reflexivity.
  - vm_compute. discriminate.
  - apply (bool_decide_unpack _). vm_compute. reflexivity.
  - lia.
  - vm_compute. discriminate.
  - exact E.
  - apply (line_delivers (packet_bytes Small.first ++ [2; 0; 0; 0; 1; 8; 9]) [5]).
  - apply (bool_decide_unpack _). vm_compute. reflexivity.
Defined.

(** C19: a compressed program over the serial line.  When the bytes of the
    packets are the expansion of some literals and copies and the line carries
    their encoding, download on top of decompress_get_byte loads the program
    and leaves the line after the encoding. *)
Theorem download_compressed i m chunks ts rest fuel : sends chunks i -> Forall token_ok ts ->
  expansion ts = concat (map packet_bytes chunks) -> (length (expansion ts) <= fuel)%nat ->
  exists m' d', @download (@Compressed Line) fuel m (decompress_init cleared, encode 0 ts ++ rest) =
    Some (i_entry i, m', map (fun c => u8 (crc32 c)) chunks, (d', rest)) /\ forall a, m' a = load m i a.
Proof.
  intros Hs Ht Ex Hf. destruct (decoder_delivers (B := Line) ts (encode 0 ts ++ rest) rest Ht) as (d' & Hd); [apply line_delivers|].
  rewrite Ex in *. destruct (@download_run (@Compressed Line) i m chunks _ _ fuel Hs Hd Hf) as (m' & E & HM). by exists m', d'.
Qed.

(** The zeros at the end are copies that overlap their own output. *)
Lemma download_compressed_witness :
  let ts := map Lit (take 42 (concat (map packet_bytes Small.cuts))) ++ [Copy 999 4; Lit 3; Lit 0; Copy 1005 5] in exists m' d',
  @download (@Compressed Line) 100 (fun _ => 7) (decompress_init cleared, encode 0 ts ++ [5]) = Some (0x20004, m', [34; 186; 233], (d', [5])) /\
  m' 0x8000 = 0x01020304.
Proof.
  intros ts.
  destruct (download_compressed Small.prog (fun _ => 7) Small.cuts ts [5] 100) as (m' & d' & E & HM).
  - by constructor; [apply Small.prog_ok|apply Small.cuts_ok|].
  - apply (bool_decide_unpack _). vm_compute. reflexivity.
  - vm_compute. reflexivity.
  - apply (bool_decide_unpack _). vm_compute. reflexivity.
  - exists m', d'. split; [exact E|]. by rewrite HM.
Defined.
