(* ===== verification/Boot.v ===== *)
(** Boot: the boot loader of a multicore, bootloader/bootloader.c.

    - Every core runs main; core 0 is the master.  They meet in the structure
      boot_info in shared memory: the status and the entry point of the master
      and a [slave_info] per core.
    - [mpc] and [spc] are the positions of the master and of a slave in main, one
      constructor per access to shared memory; [master_step] and [slave_step i]
      are the accesses made there.  A loop that waits is a position that is left
      only when its test fails.  The test of the entry point and its call are
      one step, and so is the copy to the I-SPM.  After the application has returned, main calls
      _start and begins again: a new round.
    - download (Download.v) and the application are parameters, by round: the
      entry point and the memory image, and what the application returns on a
      core.  The application is one that does not write boot_info.
    - [step] are all interleavings.  main relies on time in three places, which
      [timely] states; [tstep] are the interleavings in which they hold. *)

From stdpp Require Import base numbers functions relations list.
From S2P Require Import Prelude.

(** boot_info and the status values are declared in machine/boot.h of the C
    library; these are the fields and values that main uses. *)
Inductive status := STATUS_NULL | STATUS_BOOT | STATUS_INIT | STATUS_RETURN | STATUS_OTHER (v : Z).
#[export] Instance status_eq_dec : EqDecision status.
Proof. solve_decision. Defined.

Record slave_info := mk_slave { s_status : status; return_val : Z; param : Z; funcpoint : Z }.
Definition set_status (v : status) (x : slave_info) : slave_info := mk_slave v (return_val x) (param x) (funcpoint x).
Definition set_return (v : Z) (x : slave_info) : slave_info := mk_slave (s_status x) v (param x) (funcpoint x).
(** The four writes that clear an entry. *)
Definition clear_field (k : nat) (x : slave_info) : slave_info :=
  match k with
  | 0%nat => set_status STATUS_NULL x
  | 1%nat => set_return (-1) x
  | 2%nat => mk_slave (s_status x) (return_val x) 0 (funcpoint x)
  | _ => mk_slave (s_status x) (return_val x) (param x) 0
  end.

Inductive mpc :=
| M_status | M_entry | M_clear (i : Z) (k : nat) | M_boot (i : Z) | M_download | M_ispm | M_init | M_started (i : Z)
| M_call | M_app | M_store | M_wait (i : Z) | M_wait_ret (i : Z) | M_exit | M_return | M_left (i : Z) | M_back.
Inductive spc :=
| S_status | S_entry | S_clear (k : nat) | S_boot | S_test | S_init | S_ispm | S_ack
| S_call | S_app | S_store | S_return | S_rtest | S_null | S_back.

#[export] Instance mpc_eq_dec : EqDecision mpc.
Proof. solve_decision. Defined.
#[export] Instance spc_eq_dec : EqDecision spc.
Proof. solve_decision. Defined.

(** [retval] is the local variable of each core, [ispm] its instruction
    scratchpad, [out] what was written to the serial line.  [calls] are the
    calls of the application in this round, core and entry point, and [rounds]
    those of the rounds that ended. *)
Record sys := mk_sys {
  m_status : status; entrypoint : Z; slave : Z -> slave_info; mem : Z -> Z;
  ispm : Z -> Z -> Z; retval : Z -> Z; master : mpc; slaves : Z -> spc; out : list Z;
  calls : list (Z * Z); rounds : list (list (Z * Z)) }.

Section Boot.
Context (cpucnt ispm_size : Z) (entry : nat -> Z) (image : nat -> Z -> Z) (app : nat -> Z -> Z).

Definition round (s : sys) : nat := length (rounds s).

Definition mgo (pc : mpc) (s : sys) : sys :=
  mk_sys (m_status s) (entrypoint s) (slave s) (mem s) (ispm s) (retval s) pc (slaves s) (out s) (calls s) (rounds s).
Definition sgo (i : Z) (pc : spc) (s : sys) : sys :=
  mk_sys (m_status s) (entrypoint s) (slave s) (mem s) (ispm s) (retval s) (master s) (<[i := pc]> (slaves s)) (out s) (calls s) (rounds s).
Definition put_status (v : status) (s : sys) : sys :=
  mk_sys v (entrypoint s) (slave s) (mem s) (ispm s) (retval s) (master s) (slaves s) (out s) (calls s) (rounds s).
Definition put_entry (e : Z) (s : sys) : sys :=
  mk_sys (m_status s) e (slave s) (mem s) (ispm s) (retval s) (master s) (slaves s) (out s) (calls s) (rounds s).
Definition put_mem (m : Z -> Z) (s : sys) : sys :=
  mk_sys (m_status s) (entrypoint s) (slave s) m (ispm s) (retval s) (master s) (slaves s) (out s) (calls s) (rounds s).
Definition put_slave (i : Z) (f : slave_info -> slave_info) (s : sys) : sys :=
  mk_sys (m_status s) (entrypoint s) (<[i := f (slave s i)]> (slave s)) (mem s) (ispm s) (retval s) (master s) (slaves s) (out s) (calls s) (rounds s).
Definition put_retval (i v : Z) (s : sys) : sys :=
  mk_sys (m_status s) (entrypoint s) (slave s) (mem s) (ispm s) (<[i := v]> (retval s)) (master s) (slaves s) (out s) (calls s) (rounds s).
Definition put_ispm (i : Z) (f : Z -> Z) (s : sys) : sys :=
  mk_sys (m_status s) (entrypoint s) (slave s) (mem s) (<[i := f]> (ispm s)) (retval s) (master s) (slaves s) (out s) (calls s) (rounds s).
Definition put_call (i : Z) (s : sys) : sys :=
  mk_sys (m_status s) (entrypoint s) (slave s) (mem s) (ispm s) (retval s) (master s) (slaves s) (out s) (calls s ++ [(i, entrypoint s)]) (rounds s).
(** The exit code is printed and the round ends. *)
Definition put_exit (s : sys) : sys :=
  mk_sys (m_status s) (entrypoint s) (slave s) (mem s) (ispm s) (retval s) (master s) (slaves s)
    (out s ++ [0; 120; Z.land (retval s 0) 255]) [] (rounds s ++ [calls s]).

(** The copy into the I-SPM, by words. *)
Definition base : Z := 2 ^ 16 / 4.
Definition copy_ispm (m spm : Z -> Z) : Z -> Z :=
  for_up (Z.to_nat (ispm_size / 4)) 0 1 (fun i (spm : Z -> Z) => <[base + i := m (base + i)]> spm) spm.

Definition master_step (s : sys) : sys :=
  match master s with
  | M_status => mgo M_entry (put_status STATUS_NULL s)
  | M_entry => mgo (M_clear 0 0) (put_entry 0 s)
  | M_clear i k =>
      mgo (if (k <? 3)%nat then M_clear i (S k) else if i + 1 <? cpucnt then M_clear (i + 1) 0 else M_boot 0)
        (put_slave i (clear_field k) s)
  | M_boot i => mgo (if i + 1 <? 16 then M_boot (i + 1) else M_download) (put_status STATUS_BOOT s)
  | M_download => mgo M_ispm (put_entry (entry (round s)) (put_mem (image (round s)) s))
  | M_ispm => mgo M_init (put_ispm 0 (copy_ispm (mem s) (ispm s 0)) s)
  | M_init => mgo (M_started 1) (put_status STATUS_INIT s)
  | M_started i =>
      if i <? cpucnt then
        if decide (s_status (slave s i) = STATUS_INIT) then mgo (M_started (i + 1)) s else s
      else mgo M_call s
  | M_call =>
      if entrypoint s =? 0 then mgo (M_wait 1) (put_retval 0 (-1) s) else mgo M_app (put_call 0 s)
  | M_app => mgo M_store (put_retval 0 (app (round s) 0) s)
  | M_store => mgo (M_wait 1) (put_slave 0 (set_return (retval s 0)) s)
  | M_wait i =>
      if i <? cpucnt then
        if decide (s_status (slave s i) = STATUS_NULL) then mgo (M_wait (i + 1)) s else mgo (M_wait_ret i) s
      else mgo M_exit s
  | M_wait_ret i => if decide (s_status (slave s i) = STATUS_RETURN) then mgo (M_wait (i + 1)) s else s
  | M_exit => mgo M_return (put_exit s)
  | M_return => mgo (M_left 1) (put_status STATUS_RETURN s)
  | M_left i =>
      if i <? cpucnt then
        if decide (s_status (slave s i) = STATUS_RETURN) then s else mgo (M_left (i + 1)) s
      else mgo M_back s
  | M_back => mgo M_status s
  end.

Definition slave_step (i : Z) (s : sys) : sys :=
  match slaves s i with
  | S_status => sgo i S_entry (put_status STATUS_NULL s)
  | S_entry => sgo i (S_clear 0) (put_entry 0 s)
  | S_clear k => sgo i (if (k <? 3)%nat then S_clear (S k) else S_boot) (put_slave i (clear_field k) s)
  | S_boot => sgo i S_test (put_slave i (set_status STATUS_BOOT) s)
  | S_test => if decide (m_status s = STATUS_BOOT) then sgo i S_init s else sgo i S_boot s
  | S_init => if decide (m_status s = STATUS_INIT) then sgo i S_ispm s else s
  | S_ispm => sgo i S_ack (put_ispm i (copy_ispm (mem s) (ispm s i)) s)
  | S_ack => sgo i S_call (put_slave i (set_status STATUS_INIT) s)
  | S_call =>
      if entrypoint s =? 0 then sgo i S_return (put_retval i (-1) s) else sgo i S_app (put_call i s)
  | S_app => sgo i S_store (put_retval i (app (round s) i) s)
  | S_store => sgo i S_return (put_slave i (set_return (retval s i)) s)
  | S_return => sgo i S_rtest (put_slave i (set_status STATUS_RETURN) s)
  | S_rtest => if decide (m_status s = STATUS_RETURN) then sgo i S_null s else sgo i S_return s
  | S_null => sgo i S_back (put_slave i (set_status STATUS_NULL) s)
  | S_back => sgo i S_status s
  end.

(** A step of core [c]. *)
Definition core_step (c : Z) (s : sys) : sys := if c =? 0 then master_step s else slave_step c s.
Definition step (s s' : sys) : Prop := exists c, 0 <= c < cpucnt /\ s' = core_step c s.

(** Memory and scratchpads at power-up are arbitrary. *)
Definition started (s : sys) : Prop :=
  master s = M_status /\ (forall i, slaves s i = S_status) /\ out s = [] /\ calls s = [] /\ rounds s = [].

(** ** What main relies on *)

Definition is_slave (i : Z) : Prop := 1 <= i < cpucnt.
(** Core 0 is before the download. *)
Definition in_start (p : mpc) : bool :=
  match p with M_status | M_entry | M_clear _ _ | M_boot _ => true | _ => false end.
(** The application of core 0 has returned. *)
Definition app_done (p : mpc) : bool :=
  match p with M_store | M_wait _ | M_wait_ret _ | M_exit | M_return | M_left _ => true | _ => false end.
(** Core 0 has seen that slave [c] started: it has left the loop that waits for
    it. *)
Definition start_seen (c : Z) (p : mpc) : bool :=
  match p with M_started j => c <? j | M_call | M_app => true | _ => app_done p end.
(** A slave has overwritten what was left of the master's fields. *)
Definition past_clear (p : spc) : bool :=
  match p with S_clear _ | S_boot | S_test | S_init => true | _ => false end.

(** The assumptions on time for the next step of core [c]:
    - the sixteen writes of STATUS_BOOT "give the slaves some time to boot": the
      slaves have cleared the fields of the master before the last of them;
    - the slaves have seen STATUS_BOOT before the download is complete;
    - the application does not return on a slave before core 0 has seen that the
      slave started;
    - a slave that starts again, after its delay, does not overtake the master. *)
Definition timely (c : Z) (s : sys) : Prop :=
  if c =? 0 then
    match master s with
    | M_boot 15 => forall i, is_slave i -> past_clear (slaves s i) = true
    | M_download => forall i, is_slave i -> slaves s i = S_init
    | _ => True
    end
  else
    match slaves s c with
    | S_app => start_seen c (master s) = true
    | S_status => in_start (master s) = true
    | _ => True
    end.
Definition tstep (s s' : sys) : Prop := exists c, 0 <= c < cpucnt /\ timely c s /\ s' = core_step c s.

(** ** The invariant *)

Definition nb (v : status) : bool := match v with STATUS_NULL | STATUS_BOOT => true | _ => false end.
Definition is_init (v : status) : bool := match v with STATUS_INIT => true | _ => false end.
Definition is_ret (v : status) : bool := match v with STATUS_RETURN => true | _ => false end.
(** The slaves below are known to have returned. *)
Definition returned (p : mpc) : Z :=
  match p with M_call | M_app | M_store => 0 | M_wait j | M_wait_ret j => j | _ => cpucnt end.
(** Where slave [i] can be and what its status can be, by the position of the
    master. *)
Definition slave_ok (p : mpc) (i : Z) (q : spc) (v ms : status) : bool :=
  match p with
  | M_back => match q with S_back | S_status => true | _ => false end
  | M_status | M_entry | M_clear _ _ | M_boot _ =>
      match q with
      | S_back | S_status => true
      | S_entry | S_clear 0 => nb ms
      | S_clear _ | S_boot | S_test | S_init => nb ms && nb v
      | _ => false
      end
  | M_download => match q with S_clear 0 => true | S_clear _ | S_boot | S_test | S_init => nb v | _ => false end
  | M_ispm | M_init => match q with S_init => nb v | _ => false end
  | M_started j =>
      match q with
      | S_init | S_ispm | S_ack => (j <=? i) && nb v
      | S_call | S_app => is_init v
      | S_store => (i <? j) && is_init v
      | S_return => (i <? j) && (is_init v || is_ret v)
      | S_rtest => (i <? j) && is_ret v
      | _ => false
      end
  | M_call | M_app | M_store | M_wait _ | M_wait_ret _ | M_exit | M_return =>
      match q with
      | S_call | S_app | S_store => (returned p <=? i) && is_init v
      | S_return => ((returned p <=? i) && is_init v) || is_ret v
      | S_rtest => is_ret v
      | _ => false
      end
  | M_left j =>
      match q with S_return | S_rtest | S_null => (j <=? i) && is_ret v | S_back | S_status => bool_decide (v = STATUS_NULL) | _ => false end
  end.

(** The program is in memory. *)
Definition loaded (p : mpc) : bool :=
  match p with M_ispm | M_init | M_started _ | M_call | M_app | M_store | M_wait _ | M_wait_ret _ | M_exit => true | _ => false end.
Definition m_called (p : mpc) : bool := match p with M_app | M_store | M_wait _ | M_wait_ret _ | M_exit => true | _ => false end.
Definition s_called (q : spc) : bool := match q with S_app | S_store | S_return | S_rtest => true | _ => false end.
Definition ispm_has (m spm : Z -> Z) : Prop := forall a, base <= a < base + ispm_size / 4 -> spm a = m a.

Definition master_ok (s : sys) : Prop :=
  match master s with
  | M_boot i => 0 <= i <= 15
  | M_download | M_ispm | M_init => m_status s = STATUS_BOOT
  | M_started _ | M_call | M_app | M_store | M_wait _ | M_wait_ret _ | M_exit | M_return => m_status s = STATUS_INIT
  | M_left _ => m_status s = STATUS_RETURN
  | _ => True
  end.
Definition loaded_ok (s : sys) : Prop := loaded (master s) = true ->
  entrypoint s = entry (round s) /\ mem s = image (round s) /\
  (master s <> M_ispm -> ispm_has (mem s) (ispm s 0)) /\
  (app_done (master s) = true -> retval s 0 = app (round s) 0).
(** The core is in the list of calls. *)
Definition has_called (s : sys) (j : Z) : Prop :=
  loaded (master s) = true /\ (j = 0 /\ m_called (master s) = true \/ is_slave j /\ s_called (slaves s j) = true).
Definition calls_ok (s : sys) : Prop :=
  NoDup (calls s) /\ forall j e, (j, e) ∈ calls s <-> e = entry (round s) /\ has_called s j.
Definition rounds_ok (s : sys) : Prop :=
  (forall k cs, rounds s !! k = Some cs -> cs ≡ₚ map (fun i => (i, entry k)) (seqZ 0 cpucnt)) /\
  out s = flat_map (fun k => [0; 120; Z.land (app k 0) 255]) (seq 0 (round s)).

(** The loops over the slaves begin with slave 1. *)
Definition index_ok (p : mpc) : Prop :=
  match p with M_started j | M_wait j | M_left j => 1 <= j | M_wait_ret j => 1 <= j < cpucnt | _ => True end.

Record Inv (s : sys) : Prop := {
  inv_master : master_ok s;
  inv_index : index_ok (master s);
  inv_slave i : is_slave i -> slave_ok (master s) i (slaves s i) (s_status (slave s i)) (m_status s) = true;
  inv_loaded : loaded_ok s;
  inv_ispm i : is_slave i -> slaves s i = S_ack \/ slaves s i = S_call \/ slaves s i = S_app -> ispm_has (mem s) (ispm s i);
  inv_calls : calls_ok s;
  inv_rounds : rounds_ok s;
}.

Hypothesis cpucnt_pos : 0 < cpucnt.
Hypothesis entry_set : forall k, entry k <> 0.

(** Case analysis on the tests of the goal and its hypotheses. *)
Ltac bools := repeat match goal with
  | H : _ && _ = true |- _ => apply andb_true_iff in H as [? ?]
  | H : (_ <=? _) = true |- _ => apply Z.leb_le in H
  | H : (_ <? _) = true |- _ => apply Z.ltb_lt in H
  | |- _ && _ = true => apply andb_true_iff; split
  | |- (_ <=? _) = true => apply Z.leb_le
  | |- (_ <? _) = true => apply Z.ltb_lt
  end.

Ltac by_cases q v := destruct q; try done; cbn in *; destruct v; cbn in *;
  rewrite ?andb_true_r, ?andb_false_r, ?orb_true_r, ?orb_false_r in *; bools; try done; try lia.
Ltac proj := cbn [mgo sgo put_status put_entry put_mem put_slave put_retval put_ispm put_call put_exit
  m_status entrypoint slave mem ispm retval master slaves out calls rounds] in *.

Lemma slave_ok_start p i q v ms ms' : in_start p = true -> nb ms' = true -> slave_ok p i q v ms = true -> slave_ok p i q v ms' = true.
Proof. intros Hp Hn. destruct p; try done; cbn; rewrite Hn; destruct q as [| |[|?]| | | | | | | | | | | |]; cbn; try done; by intros [_ ?]%andb_true_iff. Qed.

(** The entry of a slave after the master has cleared a field. *)
Lemma slave_ok_clear p i q k x ms : in_start p = true -> slave_ok p i q (s_status x) ms = true ->
  slave_ok p i q (s_status (clear_field k x)) ms = true.
Proof.
  intros Hp. destruct k as [|[|[|?]]]; try done. destruct p; try done; cbn; destruct q as [| |[|?]| | | | | | | | | | | |]; cbn; try done;
    intros [-> _]%andb_true_iff; done.
Qed.
Lemma slave_ok_in_start p p' i q v ms : in_start p = true -> in_start p' = true -> slave_ok p i q v ms = slave_ok p' i q v ms.
Proof. destruct p; try done; destruct p'; done. Qed.

Lemma status_fn i j (f : slave_info -> slave_info) (g : Z -> slave_info) :
  s_status (<[i := f (g i)]> g j) = if decide (i = j) then s_status (f (g j)) else s_status (g j).
Proof. case_decide as E; [subst j; by rewrite fn_lookup_insert|by rewrite fn_lookup_insert_ne]. Qed.

Lemma master_slave_ok s i : Inv s -> timely 0 s -> is_slave i ->
  slave_ok (master (master_step s)) i (slaves s i) (s_status (slave (master_step s) i)) (m_status (master_step s)) = true.
Proof.
  intros HI Ht Hi. pose proof (inv_slave s HI i Hi) as H. pose proof (inv_master s HI) as Hm. unfold timely in Ht. cbn [Z.eqb] in Ht.
  unfold is_slave in *. unfold master_step, master_ok in *.
  destruct (master s) as [| |j k|j| | | |j| | | |j|j| | |j|] eqn:Ep.
  - proj. by apply (slave_ok_start _ _ _ _ (m_status s)).
  - done.
  - proj. rewrite status_fn. 
    rewrite (slave_ok_in_start _ (M_clear j k)) by (done || by destruct (k <? 3)%nat, (j + 1 <? cpucnt)).
    case_decide; [by apply slave_ok_clear|done].
  - proj. destruct (Z.ltb_spec (j + 1) 16).
    + by apply (slave_ok_start _ _ _ _ (m_status s)).
    + replace j with 15 in * by lia. specialize (Ht i Hi). cbn in *. destruct (slaves s i) as [| |[|?]| | | | | | | | | | | |]; try done; by apply andb_true_iff in H as [_ H].
  - cbn. specialize (Ht i Hi). rewrite Ht in *. done.
  - done.
  - cbn in *. destruct (slaves s i); try done. bools; [lia|done].
  - destruct (Z.ltb_spec j cpucnt).
    + case_decide as Ev; cbn in *; [|by rewrite Ep]. destruct (decide (j = i)) as [->|]; [rewrite Ev in *|]; by_cases (slaves s i) (s_status (slave s i)).
    + cbn in *. by_cases (slaves s i) (s_status (slave s i)).
  - destruct (entrypoint s =? 0); cbn in *; by_cases (slaves s i) (s_status (slave s i)).
  - cbn in *. by_cases (slaves s i) (s_status (slave s i)).
  - cbn in *. rewrite fn_lookup_insert_ne by lia. by_cases (slaves s i) (s_status (slave s i)).
  - destruct (Z.ltb_spec j cpucnt).
    + case_decide as Ev; [|done]. cbn in *. destruct (decide (j = i)) as [->|]; [rewrite Ev in *|]; by_cases (slaves s i) (s_status (slave s i)).
    + cbn in *. by_cases (slaves s i) (s_status (slave s i)).
  - case_decide as Ev; [|cbn; by rewrite Ep]. cbn in *. destruct (decide (j = i)) as [->|]; [rewrite Ev in *|]; by_cases (slaves s i) (s_status (slave s i)).
  - done.
  - cbn in *. by_cases (slaves s i) (s_status (slave s i)).
  - destruct (Z.ltb_spec j cpucnt).
    + case_decide as Ev; cbn in *; [by rewrite Ep|]. destruct (decide (j = i)) as [->|]; by_cases (slaves s i) (s_status (slave s i)).
    + cbn in *. by_cases (slaves s i) (s_status (slave s i)).
  - cbn in *. by_cases (slaves s i) (s_status (slave s i)).
Qed.

Lemma slave_step_other s i j : i <> j -> slaves (slave_step i s) j = slaves s j /\ slave (slave_step i s) j = slave s j /\ ispm (slave_step i s) j = ispm s j.
Proof. intros Hne. unfold slave_step. destruct (slaves s i); repeat case_match; proj; by rewrite ?fn_lookup_insert_ne by done. Qed.
Lemma slave_step_master s i : master (slave_step i s) = master s /\ rounds (slave_step i s) = rounds s /\ out (slave_step i s) = out s /\ mem (slave_step i s) = mem s.
Proof. unfold slave_step. destruct (slaves s i); repeat case_match; done. Qed.
Lemma slave_step_status s i : m_status (slave_step i s) = match slaves s i with S_status => STATUS_NULL | _ => m_status s end.
Proof. unfold slave_step. destruct (slaves s i); repeat case_match; done. Qed.

(** A slave's own step. *)
Lemma slave_own_ok s i : Inv s -> timely i s -> is_slave i ->
  slave_ok (master s) i (slaves (slave_step i s) i) (s_status (slave (slave_step i s) i)) (m_status (slave_step i s)) = true.
Proof.
  intros HI Ht Hi. pose proof (inv_slave s HI i Hi) as H. pose proof (inv_master s HI) as Hm. pose proof (inv_loaded s HI) as Hl. unfold timely in Ht.
  unfold is_slave in Hi. rewrite (proj2 (Z.eqb_neq i 0)) in Ht by lia. unfold slave_step, master_ok, loaded_ok in *.
  destruct (slaves s i) as [| |k| | | | | | | | | | | |] eqn:Eq.
  - proj. rewrite fn_lookup_insert. by destruct (master s).
  - proj. rewrite fn_lookup_insert. by destruct (master s).
  - proj. rewrite !fn_lookup_insert. destruct k as [|[|[|k]]]; destruct (master s); try done; cbn in *; by_cases (m_status s) (s_status (slave s i)).
  - proj. rewrite !fn_lookup_insert. destruct (master s); try done; cbn in *; by_cases (m_status s) (s_status (slave s i)).
  - case_decide as Em; proj; rewrite !fn_lookup_insert; destruct (master s); try done; by_cases (m_status s) (s_status (slave s i)).
  - case_decide as Em; proj; rewrite ?fn_lookup_insert, ?Eq; destruct (master s); try done; by_cases (m_status s) (s_status (slave s i)).
  - proj. rewrite !fn_lookup_insert. destruct (master s); done.
  - proj. rewrite !fn_lookup_insert. destruct (master s); done.
  - destruct (Z.eqb_spec (entrypoint s) 0) as [E0|_]; proj; rewrite !fn_lookup_insert; destruct (master s); try done; try (cbn in H; bools; lia);
      destruct (Hl eq_refl) as [He _]; destruct (entry_set (round s)); congruence.
  - proj. rewrite !fn_lookup_insert. destruct (master s); try done; cbn in *; by_cases (m_status s) (s_status (slave s i)).
  - proj. rewrite !fn_lookup_insert. destruct (master s); try done; cbn in *; by_cases (m_status s) (s_status (slave s i)).
  - proj. rewrite !fn_lookup_insert. destruct (master s); try done; cbn in *; by_cases (m_status s) (s_status (slave s i)).
  - case_decide as Em; proj; rewrite !fn_lookup_insert; destruct (master s); try done; cbn in *; by_cases (m_status s) (s_status (slave s i)).
  - proj. rewrite !fn_lookup_insert. destruct (master s); try done.
  - proj. rewrite !fn_lookup_insert. destruct (master s); try done.
Qed.

(** ** Calls *)

Lemma calls_ok_same s s' : calls s' = calls s -> round s' = round s -> (forall j, has_called s' j <-> has_called s j) -> calls_ok s -> calls_ok s'.
Proof. unfold calls_ok. intros -> -> Hc [Hn H]. split; [done|]. intros j e. by rewrite H, Hc. Qed.
Lemma calls_ok_none s : calls s = [] -> (forall j, ~ has_called s j) -> calls_ok s.
Proof. unfold calls_ok. intros -> Hc. split; [constructor|]. intros j e. rewrite elem_of_nil. naive_solver. Qed.
Lemma calls_ok_add s s' i : calls s' = calls s ++ [(i, entry (round s))] -> round s' = round s ->
  ~ has_called s i -> (forall j, has_called s' j <-> has_called s j \/ j = i) -> calls_ok s -> calls_ok s'.
Proof.
  unfold calls_ok. intros -> -> Hi Hc [Hn H]. split.
  - apply NoDup_app. split_and!; [done| |apply NoDup_singleton]. intros [j e] Hj%H Hin%list_elem_of_singleton. naive_solver.
  - intros j e. rewrite elem_of_app, list_elem_of_singleton, H, Hc. naive_solver.
Qed.

(** Where the master or a slave is not at a call, the list stays. *)
Lemma master_calls_same s : Inv s -> master s <> M_call -> master s <> M_exit -> calls_ok (master_step s).
Proof.
  intros HI Hne1 Hne2. apply (calls_ok_same s); [| | |apply HI].
  - unfold master_step. destruct (master s); repeat case_match; done.
  - unfold master_step. destruct (master s); repeat case_match; done.
  - intros j. unfold has_called. pose proof (inv_slave s HI j) as Hs.
    assert (Hq : slaves (master_step s) = slaves s) by (unfold master_step; destruct (master s); repeat case_match; done). rewrite Hq.
    unfold master_step. destruct (master s) as [| |? k|j'| | | |j'| | | |j'|j'| | |j'|] eqn:Ep; try done; try (repeat case_match; proj; by rewrite ?Ep).
    proj. cbn. split; [|by intros [? _]]. intros [_ [[_ ?]|[Hj Hc]]]; [done|]. specialize (Hs Hj). by destruct (slaves s j).
Qed.
(** At the exit every core has called. *)
Lemma exit_all_called s j : Inv s -> master s = M_exit -> 0 <= j < cpucnt -> has_called s j.
Proof.
  intros HI Ep Hj. unfold has_called. rewrite Ep. split; [done|]. destruct (decide (j = 0)); [by left|]. right.
  assert (Hs : is_slave j) by (unfold is_slave; lia). split; [done|]. pose proof (inv_slave s HI j Hs) as H. rewrite Ep in H. cbn in H.
  by_cases (slaves s j) (s_status (slave s j)).
Qed.
Lemma has_called_core s j : has_called s j -> 0 <= j < cpucnt.
Proof. unfold has_called, is_slave. intros [_ [[-> _]|[? _]]]; lia. Qed.
Lemma master_calls s : Inv s -> calls_ok (master_step s).
Proof.
  intros HI. destruct (decide (master s = M_call \/ master s = M_exit)) as [[Ep|Ep]|Hn]; [| |apply master_calls_same; naive_solver].
  - destruct (inv_loaded s HI) as [He _]; [by rewrite Ep|]. unfold master_step. rewrite Ep.
    rewrite (proj2 (Z.eqb_neq (entrypoint s) 0)) by (rewrite He; apply entry_set).
    apply (calls_ok_add s _ 0); [by rewrite <- He|done| | |apply HI].
    + unfold has_called, is_slave. rewrite Ep. intros [_ [[_ ?]|[? _]]]; [done|lia].
    + intros j. unfold has_called. rewrite Ep. proj. cbn. naive_solver.
  - unfold master_step. rewrite Ep. apply calls_ok_none; [done|]. intros j [Hl _]. done.
Qed.
Lemma master_rounds s : Inv s -> rounds_ok (master_step s).
Proof.
  intros HI. pose proof (inv_rounds s HI) as [Hr Ho]. destruct (decide (master s = M_exit)) as [Ep|Hn].
  - unfold master_step. rewrite Ep. unfold rounds_ok, round. proj. rewrite length_app. cbn [length]. rewrite Nat.add_1_r, seq_S, flat_map_app. split.
    + intros k cs [[_ Hk]|[Hk <-]]%lookup_snoc_Some; [by apply Hr|]. subst k. destruct (inv_calls s HI) as [Hn Hc].
      apply NoDup_Permutation; [done| |].
      * apply NoDup_fmap_2; [|apply NoDup_seqZ]. intros ? ? E. by injection E.
      * intros [j e]. rewrite Hc. split.
        -- intros [-> Hj%has_called_core]. apply list_elem_of_fmap. exists j. split; [done|]. apply elem_of_seqZ. lia.
        -- intros (j' & E & Hj)%list_elem_of_fmap. injection E as -> ->. apply elem_of_seqZ in Hj. split; [done|]. apply exit_all_called; [done|done|lia].
    + rewrite Ho. destruct (inv_loaded s HI) as (_ & _ & _ & Hv); [by rewrite Ep|]. rewrite Hv by (by rewrite Ep). done.
  - assert (E : rounds (master_step s) = rounds s /\ out (master_step s) = out s) by (unfold master_step; destruct (master s); repeat case_match; done).
    destruct E as [E1 E2]. unfold rounds_ok, round in *. by rewrite E1, E2.
Qed.

Lemma slave_calls s i : Inv s -> is_slave i -> timely i s -> calls_ok (slave_step i s).
Proof.
  intros HI Hi Ht. pose proof (inv_slave s HI i Hi) as Hs. pose proof (inv_master s HI) as Hm. pose proof (inv_loaded s HI) as Hl.
  pose proof (inv_calls s HI) as Hcs.
  assert (Ho : forall j, j <> i -> slaves (slave_step i s) j = slaves s j) by (intros j ?; by apply slave_step_other).
  destruct (slave_step_master s i) as (Ep & Er & _). unfold loaded_ok in Hl.
  destruct (decide (slaves s i = S_call)) as [Eq|Hne].
  - assert (Hload : loaded (master s) = true) by (rewrite Eq in Hs; destruct (master s); try done; cbn in Hs; bools; unfold is_slave in Hi; lia).
    destruct (Hl Hload) as [He _]. unfold slave_step in *. rewrite Eq in *. rewrite (proj2 (Z.eqb_neq (entrypoint s) 0)) in * by (rewrite He; apply entry_set).
    apply (calls_ok_add s _ i); [by rewrite <- He|done| | |done].
    + unfold has_called. rewrite Eq. unfold is_slave in *. intros [_ [[? _]|[_ ?]]]; [lia|done].
    + intros j. unfold has_called. proj. destruct (decide (j = i)) as [->|Hj]; [rewrite fn_lookup_insert; cbn; naive_solver|].
      rewrite fn_lookup_insert_ne by done. naive_solver.
  - apply (calls_ok_same s); [unfold slave_step; destruct (slaves s i); repeat case_match; done|by unfold round; rewrite Er| |done].
    intros j. unfold has_called. rewrite Ep. destruct (decide (j = i)) as [->|Hj]; [|by rewrite Ho].
    destruct (loaded (master s)) eqn:Hload; [|naive_solver].
    assert (E : s_called (slaves (slave_step i s) i) = s_called (slaves s i)); [|by rewrite E].
    unfold slave_step, master_ok in *. destruct (slaves s i) as [| |k| | | | | | | | | | | |] eqn:Eq; try done;
      try (case_decide as Ed; [rewrite Ed in Hm|]); proj; rewrite ?fn_lookup_insert, ?Eq; try done.
    + by destruct (k <? 3)%nat.
    + by destruct (master s).
Qed.

(** ** The invariant holds *)

Lemma copy_ispm_has m spm : ispm_has m (copy_ispm m spm).
Proof.
  unfold ispm_has, copy_ispm. set (n := Z.to_nat (ispm_size / 4)). intros a Ha.
  enough (G : forall a, base <= a < base + (0 + 1 * Z.of_nat n) -> for_up n 0 1 (fun i (spm : Z -> Z) => <[base + i := m (base + i)]> spm) spm a = m a)
    by (apply G; lia).
  apply (for_up_inv (fun k (f : Z -> Z) => forall a, base <= a < base + k -> f a = m a)); [lia|].
  intros k f Hk IH b Hb. destruct (decide (base + (0 + 1 * k) = b)) as [->|]; [by rewrite fn_lookup_insert|].
  rewrite fn_lookup_insert_ne by done. apply IH. lia.
Qed.

Lemma master_keeps_master s : master_ok s -> master_ok (master_step s).
Proof.
  unfold master_ok, master_step. destruct (master s) as [| |j k|j| | | |j| | | |j|j| | |j|] eqn:Ep; intros Hm; try done.
  - proj. destruct (k <? 3)%nat; [done|]. by destruct (j + 1 <? cpucnt).
  - proj. destruct (Z.ltb_spec (j + 1) 16); [lia|done].
  - destruct (j <? cpucnt); [case_decide|]; proj; by rewrite ?Ep.
  - by destruct (entrypoint s =? 0).
  - destruct (j <? cpucnt); [case_decide|]; proj; by rewrite ?Ep.
  - case_decide; proj; by rewrite ?Ep.
  - destruct (j <? cpucnt); [case_decide|]; proj; by rewrite ?Ep.
Qed.
Lemma master_index s : index_ok (master s) -> index_ok (master (master_step s)).
Proof.
  unfold index_ok, master_step. destruct (master s) as [| |j k|j| | | |j| | | |j|j| | |j|] eqn:Ep; intros Hj; try done.
  - proj. destruct (k <? 3)%nat; [done|]. by destruct (j + 1 <? cpucnt).
  - proj. by destruct (j + 1 <? 16).
  - destruct (j <? cpucnt); [case_decide|]; proj; rewrite ?Ep; try done; lia.
  - by destruct (entrypoint s =? 0).
  - destruct (Z.ltb_spec j cpucnt); [case_decide|]; proj; rewrite ?Ep; try done; lia.
  - case_decide; proj; rewrite ?Ep; try done; lia.
  - destruct (j <? cpucnt); [case_decide|]; proj; rewrite ?Ep; try done; lia.
Qed.
Lemma slave_keeps_master s i : Inv s -> is_slave i -> timely i s -> master_ok (slave_step i s).
Proof.
  intros HI Hi Ht. unfold master_ok. destruct (slave_step_master s i) as (-> & _). rewrite slave_step_status. pose proof (inv_master s HI) as Hm.
  unfold timely in Ht. unfold is_slave in Hi. rewrite (proj2 (Z.eqb_neq i 0)) in Ht by lia. unfold master_ok in Hm. destruct (slaves s i); try done. by destruct (master s).
Qed.

Lemma master_loaded s : loaded_ok s -> loaded_ok (master_step s).
Proof.
  unfold loaded_ok, master_step. destruct (master s) as [| |? k|j| | | |j| | | |j|j| | |j|] eqn:Ep; intros Hl; try done;
    try (destruct (Hl eq_refl) as (He & Hm & Hi & Hv)); try (repeat case_match; proj; rewrite ?Ep; try done; intros _; split_and!; try done; intros; by apply Hi).
  - intros _. split_and!; try done. proj. rewrite fn_lookup_insert. intros _. apply copy_ispm_has.
  - rewrite (proj2 (Z.eqb_neq (entrypoint s) 0)) by (rewrite He; apply entry_set). intros _. proj. split_and!; try done; intros; by apply Hi.
Qed.
Lemma slave_loaded s i : Inv s -> is_slave i -> loaded_ok (slave_step i s).
Proof.
  intros HI Hi. pose proof (inv_loaded s HI) as Hl. pose proof (inv_slave s HI i Hi) as Hs. unfold loaded_ok, round in *.
  destruct (slave_step_master s i) as (-> & -> & _ & ->). intros Hp. specialize (Hl Hp).
  assert (E : entrypoint (slave_step i s) = entrypoint s).
  { unfold slave_step. destruct (slaves s i); repeat case_match; try done. by destruct (master s). }
  assert (Er : retval (slave_step i s) 0 = retval s 0).
  { unfold slave_step, is_slave in *. destruct (slaves s i); repeat case_match; proj; rewrite ?fn_lookup_insert_ne by lia; done. }
  rewrite E, Er. unfold is_slave in Hi. destruct (slave_step_other s i 0 ltac:(lia)) as (_ & _ & ->). done.
Qed.
Lemma master_ispm s i : Inv s -> is_slave i -> slaves (master_step s) i = S_ack \/ slaves (master_step s) i = S_call \/ slaves (master_step s) i = S_app ->
  ispm_has (mem (master_step s)) (ispm (master_step s) i).
Proof.
  intros HI Hi. pose proof (inv_ispm s HI i Hi) as H. pose proof (inv_slave s HI i Hi) as Hs. unfold is_slave in Hi. unfold master_step.
  destruct (master s) eqn:Ep; repeat case_match; proj; try done.
  - intros Hq. destruct Hq as [E|[E|E]]; by rewrite E in Hs.
  - by rewrite fn_lookup_insert_ne by lia.
Qed.
Lemma slave_ispm s i j : Inv s -> is_slave i -> is_slave j -> slaves (slave_step i s) j = S_ack \/ slaves (slave_step i s) j = S_call \/ slaves (slave_step i s) j = S_app ->
  ispm_has (mem (slave_step i s)) (ispm (slave_step i s) j).
Proof.
  intros HI Hi Hj. destruct (slave_step_master s i) as (_ & _ & _ & ->). pose proof (inv_ispm s HI j Hj) as H.
  destruct (decide (i = j)) as [->|Hne]; [|by destruct (slave_step_other s i j Hne) as (-> & _ & ->)].
  unfold slave_step. destruct (slaves s j) as [| |k| | | | | | | | | | | |] eqn:Eq; repeat case_match; proj; rewrite ?fn_lookup_insert, ?Eq; intros Hq;
    try (apply copy_ispm_has); try (apply H; naive_solver); destruct Hq as [E|[E|E]]; try done.
Qed.

Lemma started_inv s : started s -> Inv s.
Proof.
  intros (Em & Es & Eo & Ec & Er). split.
  - unfold master_ok. by rewrite Em.
  - by rewrite Em.
  - intros i _. by rewrite Em, Es.
  - intros Hl. by rewrite Em in Hl.
  - intros i _. rewrite Es. naive_solver.
  - apply calls_ok_none; [done|]. unfold has_called. rewrite Em. by intros j [? _].
  - split; [by rewrite Er|]. unfold round. by rewrite Er.
Qed.
Lemma tstep_inv s s' : Inv s -> tstep s s' -> Inv s'.
Proof.
  intros HI (c & Hc & Ht & ->). unfold core_step. destruct (Z.eqb_spec c 0) as [->|Hne].
  - split; [apply master_keeps_master, HI|apply master_index, HI|intros i Hi|apply master_loaded, HI|by intros; apply master_ispm|by apply master_calls|by apply master_rounds].
    replace (slaves (master_step s)) with (slaves s); [by apply master_slave_ok|]. unfold master_step. destruct (master s); repeat case_match; done.
  - assert (Hi : is_slave c) by (unfold is_slave; lia).
    split; [by apply slave_keeps_master| |intros j Hj|by apply slave_loaded|by intros; apply slave_ispm|by apply slave_calls|].
    + destruct (slave_step_master s c) as (-> & _). apply HI.
    + destruct (slave_step_master s c) as (-> & _). destruct (decide (c = j)) as [->|Hcj]; [by apply slave_own_ok|].
      destruct (slave_step_other s c j Hcj) as (-> & -> & _). rewrite slave_step_status. pose proof (inv_slave s HI j Hj) as H.
      unfold timely in Ht. rewrite (proj2 (Z.eqb_neq c 0)) in Ht by done. destruct (slaves s c); try done.
      by apply (slave_ok_start _ _ _ _ (m_status s)).
    + destruct (slave_step_master s c) as (_ & Er & Eo & _). pose proof (inv_rounds s HI) as H. unfold rounds_ok, round in *. by rewrite Er, Eo.
Qed.
Lemma boot_reach_inv s0 s : started s0 -> rtc tstep s0 s -> Inv s.
Proof. intros H0%started_inv Hr. induction Hr; eauto using tstep_inv. Qed.

Lemma slave_app_loaded s i : Inv s -> is_slave i -> slaves s i = S_app -> loaded (master s) = true.
Proof.
  intros HI Hi Eq. pose proof (inv_slave s HI i Hi) as Hs. rewrite Eq in Hs. unfold is_slave in Hi.
  destruct (master s); try done; cbn in Hs; bools; lia.
Qed.

(** ** Progress *)

(** The steps a core is from the end of the round. *)
Definition mrank (p : mpc) : Z :=
  let n := cpucnt in let left i := Z.max 0 (n - i) in
  match p with
  | M_exit => 0 | M_wait i => 1 + 2 * left i | M_wait_ret i => 2 * left i
  | M_store => 2 * n + 2 | M_app => 2 * n + 3 | M_call => 2 * n + 4 | M_started i => 2 * n + 5 + left i
  | M_init => 3 * n + 6 | M_ispm => 3 * n + 7 | M_download => 3 * n + 8 | M_boot i => 3 * n + 9 + Z.max 0 (16 - i)
  | M_clear i k => 3 * n + 30 + 4 * left (i + 1) + Z.max 0 (3 - Z.of_nat k)
  | M_entry => 7 * n + 34 | M_status => 7 * n + 35 | M_back => 7 * n + 36
  | M_left i => 7 * n + 37 + left i | M_return => 8 * n + 38
  end.
Definition leaving (p : mpc) : bool := match p with M_return | M_left _ => true | _ => false end.
Definition srank (l : bool) (q : spc) : Z :=
  match q with
  | S_return => if l then 21 else 2 | S_rtest => if l then 20 else 1
  | S_null => 19 | S_back => 18 | S_status => 17 | S_entry => 16 | S_clear k => 12 + Z.max 0 (3 - Z.of_nat k)
  | S_boot => 11 | S_test => 10 | S_init => 9 | S_ispm => 8 | S_ack => 7 | S_call => 6 | S_app => 5 | S_store => 4
  end.
Definition total (f : Z -> Z) (l : list Z) : Z := foldr (fun i a => f i + a) 0 l.
Definition measure (s : sys) : Z := mrank (master s) + total (fun i => srank (leaving (master s)) (slaves s i)) (seqZ 1 (cpucnt - 1)).

Lemma total_le f f' l : (forall j, j ∈ l -> f' j <= f j) -> total f' l <= total f l.
Proof.
  induction l as [|x l IH]; intros H; cbn; [lia|]. pose proof (H x ltac:(left)). enough (total f' l <= total f l) by (unfold total in *; lia).
  apply IH. intros j Hj. apply H. by right.
Qed.
Lemma total_lt f f' l i : (forall j, j ∈ l -> f' j <= f j) -> i ∈ l -> f' i < f i -> total f' l < total f l.
Proof.
  intros H Hi Hlt. induction l as [|x l IH]; [by apply elem_of_nil in Hi|]. cbn. pose proof (H x ltac:(left)).
  assert (Hl : forall j, j ∈ l -> f' j <= f j) by (intros j Hj; apply H; by right). pose proof (total_le f f' l Hl).
  apply elem_of_cons in Hi as [->|Hi]; [unfold total in *; lia|]. specialize (IH Hl Hi). unfold total in *. lia.
Qed.
Lemma total_pos f l : (forall j, 0 <= f j) -> 0 <= total f l.
Proof. intros H. induction l as [|x l IH]; cbn; [lia|]. specialize (H x). unfold total in *. lia. Qed.
Lemma measure_pos s : 0 <= measure s.
Proof.
  unfold measure. assert (0 <= mrank (master s)) by (unfold mrank; destruct (master s); lia).
  enough (0 <= total (fun i => srank (leaving (master s)) (slaves s i)) (seqZ 1 (cpucnt - 1))) by lia.
  apply total_pos. intros j. unfold srank. repeat case_match; lia.
Qed.
Lemma elem_slaves i : i ∈ seqZ 1 (cpucnt - 1) <-> is_slave i.
Proof. unfold is_slave. rewrite elem_of_seqZ. lia. Qed.

(** A step of core [c] that leads on. *)
Definition helps (c : Z) (s : sys) : Prop :=
  0 <= c < cpucnt /\ timely c s /\
  (round (core_step c s) = S (round s) \/ round (core_step c s) = round s /\ measure (core_step c s) < measure s).

Lemma slave_helps s i : is_slave i -> timely i s ->
  srank (leaving (master s)) (slaves (slave_step i s) i) < srank (leaving (master s)) (slaves s i) -> helps i s.
Proof.
  intros Hi Ht Hr. unfold helps, core_step. pose proof Hi as Hi'. unfold is_slave in Hi'. rewrite (proj2 (Z.eqb_neq i 0)) by lia.
  split; [lia|]. split; [done|]. right. destruct (slave_step_master s i) as (Em & Er & _). unfold round, measure. rewrite Er, Em. split; [done|].
  apply Z.add_lt_mono_l. apply (total_lt _ _ _ i); [|by apply elem_slaves|done]. intros j _.
  destruct (decide (i = j)) as [->|Hne]; [lia|]. destruct (slave_step_other s i j Hne) as (-> & _). lia.
Qed.
Lemma master_helps s : Inv s -> timely 0 s -> (master s <> M_exit -> mrank (master (master_step s)) < mrank (master s)) -> helps 0 s.
Proof.
  intros HI Ht Hr. unfold helps. change (core_step 0 s) with (master_step s). split; [lia|]. split; [done|].
  destruct (decide (master s = M_exit)) as [Ep|Hn].
  - left. unfold master_step, round. rewrite Ep. proj. rewrite length_app. cbn. lia.
  - specialize (Hr Hn). right.
    assert (Hs : slaves (master_step s) = slaves s /\ rounds (master_step s) = rounds s) by (unfold master_step; destruct (master s); repeat case_match; done).
    destruct Hs as [Es Er]. unfold round, measure. rewrite Er, Es. split; [done|]. apply Z.add_lt_le_mono; [done|]. apply total_le. intros j _.
    enough (leaving (master (master_step s)) = true -> leaving (master s) = true)
      by (unfold srank; destruct (slaves s j); try lia; destruct (leaving (master (master_step s))), (leaving (master s)); try lia; naive_solver).
    unfold master_step. destruct (master s) eqn:Ep; repeat case_match; proj; rewrite ?Ep; try done.
Qed.

Lemma all_or_some (f : spc -> bool) s :
  (forall i, is_slave i -> f (slaves s i) = true) \/ exists i, is_slave i /\ f (slaves s i) = false.
Proof.
  destruct (decide (Forall (fun i => f (slaves s i) = true) (seqZ 1 (cpucnt - 1)))) as [H|H].
  - left. intros i Hi. rewrite Forall_forall in H. apply H. by apply elem_slaves.
  - right. apply not_Forall_Exists, Exists_exists in H as (i & Hi & Hf); [|apply _]. exists i. split; [by apply elem_slaves|]. by apply not_true_iff_false.
Qed.

(** A slave at the start goes on, whatever the master does. *)
Definition at_start (q : spc) : bool := match q with S_back | S_status | S_entry | S_clear _ | S_boot => true | _ => false end.
Lemma start_helps s i : is_slave i -> at_start (slaves s i) = true -> (slaves s i = S_status -> in_start (master s) = true) -> helps i s.
Proof.
  intros Hi Hq Hst. unfold is_slave in Hi. apply slave_helps; [done| |].
  - unfold timely. rewrite (proj2 (Z.eqb_neq i 0)) by lia. destruct (slaves s i); try done. by apply Hst.
  - unfold slave_step. destruct (slaves s i) as [| |k| | | | | | | | | | | |] eqn:Eq; try done; proj; rewrite fn_lookup_insert; cbn [srank]; try lia.
    destruct (Nat.ltb_spec k 3); cbn [srank]; lia.
Qed.

(** The next step, by the position of the master. *)
Lemma progress_start s : Inv s -> in_start (master s) = true -> exists c, helps c s.
Proof.
  intros HI Hp. destruct (all_or_some (fun q => negb (at_start q)) s) as [Hall|(i & Hi & Hq)].
  - exists 0. apply master_helps; [done| |].
    + assert (Hq : forall i, is_slave i -> past_clear (slaves s i) = true).
      { intros i Hi. specialize (Hall i Hi). pose proof (inv_slave s HI i Hi) as Hs. destruct (master s); try done; by destruct (slaves s i). }
      unfold timely. cbn [Z.eqb]. destruct (master s) as [| | |j| | | | | | | | | | | | |]; try done. by repeat case_match.
    + intros _. pose proof (inv_master s HI) as Hm. unfold master_ok in Hm. unfold master_step.
      destruct (master s) as [| |j k|j| | | | | | | | | | | | |] eqn:Ep; try done; proj; cbn [mrank]; try lia.
      * destruct (Nat.ltb_spec k 3); cbn [mrank]; [lia|]. destruct (Z.ltb_spec (j + 1) cpucnt); cbn [mrank]; lia.
      * destruct (Z.ltb_spec (j + 1) 16); cbn [mrank]; lia.
  - exists i. apply start_helps; [done|by apply negb_false_iff|done].
Qed.
Lemma progress_download s : Inv s -> master s = M_download -> exists c, helps c s.
Proof.
  intros HI Ep. pose proof (inv_master s HI) as Hm. unfold master_ok in Hm. rewrite Ep in Hm.
  destruct (all_or_some (fun q => bool_decide (q = S_init)) s) as [Hall|(i & Hi & Hq)].
  - exists 0. apply master_helps; [done| |].
    + unfold timely. cbn [Z.eqb]. rewrite Ep. intros i Hi. by apply (bool_decide_eq_true_1 _ (Hall i Hi)).
    + intros _. unfold master_step. rewrite Ep. cbn. lia.
  - exists i. apply bool_decide_eq_false in Hq. pose proof (inv_slave s HI i Hi) as Hs. rewrite Ep in Hs. unfold is_slave in Hi.
    destruct (slaves s i) eqn:Eq; try done; try (apply start_helps; [done|by rewrite Eq|by rewrite Eq]).
    apply slave_helps; [done|unfold timely; rewrite (proj2 (Z.eqb_neq i 0)) by lia; by rewrite Eq|].
    unfold slave_step. rewrite Eq, decide_True by done. proj. rewrite fn_lookup_insert. cbn. lia.
Qed.
(** A slave the master waits for goes on. *)
Lemma waited_helps s i : Inv s -> is_slave i ->
  match master s with
  | M_started j => j = i /\ s_status (slave s i) <> STATUS_INIT
  | M_wait_ret _ => s_status (slave s i) <> STATUS_RETURN
  | M_left _ => s_status (slave s i) = STATUS_RETURN
  | _ => False
  end -> helps i s.
Proof.
  intros HI Hi Hw. pose proof (inv_master s HI) as Hm. pose proof (inv_slave s HI i Hi) as Hs. pose proof (inv_loaded s HI) as Hl. unfold is_slave in Hi.
  unfold master_ok, loaded_ok in *. apply slave_helps; [done| |].
  - unfold timely. rewrite (proj2 (Z.eqb_neq i 0)) by lia. destruct (slaves s i); try done; destruct (master s); try done.
    all: cbn in Hs; destruct (s_status (slave s i)); naive_solver.
  - unfold slave_step. destruct (master s) as [| | | | | | |j| | | | |j| | |j|] eqn:Ep; try done; cbn [loaded] in Hl; cbn [slave_ok leaving] in *.
    + destruct Hw as [-> Hw]. rewrite Z.ltb_irrefl in Hs. destruct (slaves s i) eqn:Eq; try done; try (by destruct (s_status (slave s i))).
      all: rewrite ?decide_True by done; proj; rewrite fn_lookup_insert; cbn; lia.
    + destruct (slaves s i) eqn:Eq; try done; try (by destruct (s_status (slave s i))).
      2-4: proj; rewrite fn_lookup_insert; cbn; lia.
      destruct (Hl eq_refl) as [He _]. rewrite (proj2 (Z.eqb_neq (entrypoint s) 0)) by (rewrite He; apply entry_set).
      proj; rewrite fn_lookup_insert; cbn; lia.
    + destruct (slaves s i) eqn:Eq; try done; try (by rewrite Hw in Hs).
      all: rewrite ?decide_True by done; proj; rewrite fn_lookup_insert; cbn; lia.
Qed.
(** The master goes on where no assumption on time applies to it. *)
Lemma move_helps s p : Inv s -> master s = p -> in_start p = false -> p <> M_download ->
  (p <> M_exit -> mrank (master (master_step s)) < mrank p) -> exists c, helps c s.
Proof.
  intros HI Ep Hp Hd Hr. exists 0. apply master_helps; [done| |by rewrite Ep].
  unfold timely. cbn [Z.eqb]. rewrite Ep. by destruct p.
Qed.
Lemma progress s : Inv s -> exists c, helps c s.
Proof.
  intros HI. pose proof (inv_index s HI) as Hi. assert (Hj : forall j, 1 <= j -> j < cpucnt -> is_slave j) by (unfold is_slave; lia).
  destruct (master s) as [| |j k|j| | | |j| | | |j|j| | |j|] eqn:Ep;
    try (apply progress_start; [done|by rewrite Ep]); try (by apply progress_download); cbn [index_ok] in Hi.
  - apply (move_helps s _ HI Ep); try done. intros _. unfold master_step. rewrite Ep. proj. cbn [mrank]. lia.
  - apply (move_helps s _ HI Ep); try done. intros _. unfold master_step. rewrite Ep. proj. cbn [mrank]. lia.
  - destruct (Z.ltb_spec j cpucnt); [destruct (decide (s_status (slave s j) = STATUS_INIT))|].
    2: exists j; apply waited_helps; [done|by apply Hj|by rewrite Ep].
    all: apply (move_helps s _ HI Ep); try done; intros _; unfold master_step; rewrite Ep.
    + rewrite (proj2 (Z.ltb_lt j cpucnt)), decide_True by done. proj. cbn [mrank]. lia.
    + rewrite (proj2 (Z.ltb_ge j cpucnt)) by done. proj. cbn [mrank]. lia.
  - apply (move_helps s _ HI Ep); try done. intros _. unfold master_step. rewrite Ep. destruct (entrypoint s =? 0); proj; cbn [mrank]; lia.
  - apply (move_helps s _ HI Ep); try done. intros _. unfold master_step. rewrite Ep. proj. cbn [mrank]. lia.
  - apply (move_helps s _ HI Ep); try done. intros _. unfold master_step. rewrite Ep. proj. cbn [mrank]. lia.
  - apply (move_helps s _ HI Ep); try done. intros _. unfold master_step. rewrite Ep.
    destruct (Z.ltb_spec j cpucnt); [case_decide|]; proj; cbn [mrank]; lia.
  - destruct (decide (s_status (slave s j) = STATUS_RETURN)); [|exists j; apply waited_helps; [done|apply Hj; lia|by rewrite Ep]].
    apply (move_helps s _ HI Ep); try done. intros _. unfold master_step. rewrite Ep, decide_True by done. proj. cbn [mrank]. lia.
  - apply (move_helps s _ HI Ep); done.
  - apply (move_helps s _ HI Ep); try done. intros _. unfold master_step. rewrite Ep. proj. cbn [mrank]. lia.
  - destruct (Z.ltb_spec j cpucnt); [destruct (decide (s_status (slave s j) = STATUS_RETURN))|].
    1: exists j; apply waited_helps; [done|by apply Hj|by rewrite Ep].
    all: apply (move_helps s _ HI Ep); try done; intros _; unfold master_step; rewrite Ep.
    + rewrite (proj2 (Z.ltb_lt j cpucnt)), decide_False by done. proj. cbn [mrank]. lia.
    + rewrite (proj2 (Z.ltb_ge j cpucnt)) by done. proj. cbn [mrank]. lia.
  - apply (move_helps s _ HI Ep); try done. intros _. unfold master_step. rewrite Ep. proj. cbn [mrank]. lia.
Qed.

(** ** The theorems *)

(** A slave that has acknowledged the start. *)
Definition acknowledged (q : spc) (v : status) : Prop :=
  (q = S_call \/ q = S_app \/ q = S_store \/ q = S_return \/ q = S_rtest) /\ (v = STATUS_INIT \/ v = STATUS_RETURN).

(** C13: the boot loader starts the program on every core.  Every download
    delivers a program, with an entry point that is not NULL.  Under the three
    assumptions on time ([timely]: the slaves are through with clearing before
    core 0 has written STATUS_BOOT for the last time and have seen it before the
    download is complete; the application does not return on a slave before core
    0 has seen the slave start; a slave does not begin again before core 0
    does), and whatever is left in memory from before, in every such
    interleaving of the cores:
    - in each round that ended, the entry point of that round's download was
      called on every core exactly once, and the code printed is what the
      application returned on core 0;
    - a core is in the application only with the entry point of this round's
      download, and with the program in its instruction scratchpad;
    - core 0 is in the application only when every other core has acknowledged
      the start (the others do not wait for each other). *)
Theorem boot_correct s0 s : started s0 -> rtc tstep s0 s ->
  (forall k cs, rounds s !! k = Some cs -> cs ≡ₚ map (fun i => (i, entry k)) (seqZ 0 cpucnt)) /\
  out s = flat_map (fun k => [0; 120; Z.land (app k 0) 255]) (seq 0 (round s)) /\
  (master s = M_app -> entrypoint s = entry (round s) /\ ispm_has (image (round s)) (ispm s 0) /\
     forall i, is_slave i -> acknowledged (slaves s i) (s_status (slave s i))) /\
  (forall i, is_slave i -> slaves s i = S_app -> entrypoint s = entry (round s) /\ ispm_has (image (round s)) (ispm s i)).
Proof.
  intros H0 Hr. pose proof (boot_reach_inv s0 s H0 Hr) as HI. destruct (inv_rounds s HI) as [Hrs Ho]. split_and!; try done.
  - intros Ep. destruct (inv_loaded s HI) as (He & Hm & Hi & _); [by rewrite Ep|]. rewrite <- Hm. split_and!; [done|by apply Hi; rewrite Ep|].
    intros i Hsl. pose proof (inv_slave s HI i Hsl) as Hs. rewrite Ep in Hs. cbn in Hs.
    unfold acknowledged. destruct (slaves s i); try done; destruct (s_status (slave s i)); cbn in Hs; rewrite ?andb_false_r in Hs; try done; tauto.
  - intros i Hsl Eq. destruct (inv_loaded s HI (slave_app_loaded s i HI Hsl Eq)) as (He & Hm & _). rewrite <- Hm. split; [done|].
    apply inv_ispm; [done|done|naive_solver].
Qed.

(** C14: a round can always be completed.  With programs whose entry point is
    not NULL and under the assumptions on time, from every state that the cores
    can reach there is a continuation that keeps to them and completes the
    round: every core has run the application and its exit code is printed. *)
Theorem boot_completes s0 s : started s0 -> rtc tstep s0 s -> exists s', rtc tstep s s' /\ round s' = S (round s).
Proof.
  intros H0 Hr. pose proof (boot_reach_inv s0 s H0 Hr) as HI. clear H0 Hr s0. remember (Z.to_nat (measure s)) as n eqn:En. revert s En HI.
  induction (lt_wf n) as [n _ IH]. intros s -> HI. destruct (progress s HI) as (c & Hc & Ht & Hh).
  assert (Hs : tstep s (core_step c s)) by (by exists c). destruct Hh as [Hd|[Hs' Hlt]]; [exists (core_step c s); eauto using rtc_once|].
  pose proof (measure_pos (core_step c s)).
  destruct (IH (Z.to_nat (measure (core_step c s))) ltac:(lia) (core_step c s) eq_refl (tstep_inv _ _ HI Hs)) as (s' & Hr & E).
  exists s'. split; [by eapply rtc_l|congruence].
Qed.
End Boot.

(** ** Runs *)

Section Run.
Context (cpucnt ispm_size : Z) (entry : nat -> Z) (image : nat -> Z -> Z) (app : nat -> Z -> Z).
Notation tstep := (tstep cpucnt ispm_size entry image app).
Notation step := (step cpucnt ispm_size entry image app).
Notation core_step := (core_step cpucnt ispm_size entry image app).

Definition timelyb (c : Z) (s : sys) : bool :=
  if c =? 0 then
    match master s with
    | M_boot 15 => forallb (fun i => past_clear (slaves s i)) (seqZ 1 (cpucnt - 1))
    | M_download => forallb (fun i => bool_decide (slaves s i = S_init)) (seqZ 1 (cpucnt - 1))
    | _ => true
    end
  else match slaves s c with S_app => start_seen c (master s) | S_status => in_start (master s) | _ => true end.
(** The cores of [sched] take their steps in turn. *)
Fixpoint run (sched : list Z) (s : sys) : sys :=
  match sched with [] => s | c :: sched => run sched (core_step c s) end.
Fixpoint timely_run (sched : list Z) (s : sys) : bool :=
  match sched with [] => true | c :: sched => (0 <=? c) && (c <? cpucnt) && timelyb c s && timely_run sched (core_step c s) end.

Lemma timelyb_timely c s : timelyb c s = true -> timely cpucnt c s.
Proof.
  unfold timelyb, timely. destruct (c =? 0); [|by destruct (slaves s c)].
  assert (Hs : forall i, is_slave cpucnt i -> In i (seqZ 1 (cpucnt - 1))) by (intros i Hi; apply list_elem_of_In, elem_of_seqZ; unfold is_slave in Hi; lia).
  intros Hb; repeat case_match; try done; rewrite forallb_forall in Hb; intros c2 Hc; [by apply Hb, Hs|]. by apply (bool_decide_eq_true_1 _ (Hb c2 (Hs c2 Hc))).
Qed.
Lemma timely_run_rtc sched : forall s, timely_run sched s = true -> rtc tstep s (run sched s).
Proof.
  induction sched as [|c sched IH]; intros s H; [done|]. cbn in H. apply andb_true_iff in H as [H H2]. apply andb_true_iff in H as [H H1].
  apply andb_true_iff in H as [Ha Hb]. apply Z.leb_le in Ha. apply Z.ltb_lt in Hb.
  eapply rtc_l; [|by apply IH]. exists c. split; [done|]. split; [by apply timelyb_timely|done].
Qed.
Lemma run_rtc sched : Forall (fun c => 0 <= c < cpucnt) sched -> forall s, rtc step s (run sched s).
Proof. induction 1 as [|c sched Hc _ IH]; intros s; [done|]. eapply rtc_l; [|apply IH]. by exists c. Qed.
End Run.

(** Memory that is 0, all cores at the start of main. *)
Definition cold : sys :=
  mk_sys STATUS_NULL 0 (fun _ => mk_slave STATUS_NULL 0 0 0) (fun _ => 0) (fun _ _ => 0) (fun _ => 0) M_status (fun _ => S_status) [] [] [].
Lemma cold_started : started cold.
Proof. by split_and!. Qed.

(** One round of three cores, in which slave 1 returns before core 0 calls the
    application. *)
Definition times (n : nat) (c : Z) : list Z := repeat c n.
Definition round3 : list Z :=
  times 29 0 ++ times 7 1 ++ times 7 2 ++ times 1 0 ++ [1; 2] ++ times 3 0 ++ times 4 1 ++ times 4 2 ++ times 1 0 ++
  times 3 1 ++ times 5 0 ++ times 3 2 ++ times 6 0.
Definition entry3 (_ : nat) : Z := 131072.
Definition image3 (k : nat) (a : Z) : Z := a + Z.of_nat k.
Definition app3 (_ : nat) (c : Z) : Z := 7 + c.
Notation run3 := (run 3 64 entry3 image3 app3).

Lemma boot_correct_witness :
  let s := run3 round3 cold in
  (forall k cs, rounds s !! k = Some cs -> cs ≡ₚ map (fun i => (i, entry3 k)) (seqZ 0 3)) /\
  out s = flat_map (fun k => [0; 120; Z.land (app3 k 0) 255]) (seq 0 (round s)) /\ round s = 1%nat /\ out s = [0; 120; 7].
Proof.
  intros s. destruct (boot_correct 3 64 entry3 image3 app3 ltac:(lia) ltac:(done) cold s) as (H1 & H2 & _).
  - apply cold_started.
  - apply timely_run_rtc. vm_compute. reflexivity.
  - split; [exact H1|]. split; [exact H2|]. split; vm_compute; reflexivity.
Defined.
Lemma boot_completes_witness :
  let s := run3 (round3 ++ [0; 1; 1]) cold in
  exists s', rtc (tstep 3 64 entry3 image3 app3) s s' /\ round s' = S (round s).
Proof.
  intros s. apply (boot_completes 3 64 entry3 image3 app3 ltac:(lia) ltac:(done) cold s).
  - apply cold_started.
  - apply timely_run_rtc. vm_compute. reflexivity.
Defined.

(** ** Without the assumptions *)

(** A slave that is late overwrites STATUS_BOOT after the last of its sixteen
    writes. *)
Definition late2 : list Z := times 26 0 ++ times 7 1 ++ times 3 0.

(** The assumption on the start is needed.  When a slave clears the fields of
    the master after the master's last write of STATUS_BOOT, it waits for
    STATUS_BOOT and the master for its acknowledgement, and neither leaves its
    loop again. *)
Theorem boot_race_hangs size entry image app :
  exists s, rtc (step 2 size entry image app) cold s /\
    forall s', rtc (step 2 size entry image app) s s' -> master s' = M_started 1 /\ (slaves s' 1 = S_boot \/ slaves s' 1 = S_test) /\ calls s' = [].
Proof.
  exists (run 2 size entry image app late2 cold). split; [apply run_rtc; repeat constructor; lia|].
  set (stuck s := master s = M_started 1 /\ m_status s = STATUS_INIT /\ nb (s_status (slave s 1)) = true /\ (slaves s 1 = S_boot \/ slaves s 1 = S_test) /\ calls s = []).
  assert (Hstep : forall s s', stuck s -> step 2 size entry image app s s' -> stuck s').
  { intros s s' (Em & Es & En & Eq & Ec) (c & Hc & ->). unfold core_step. destruct (Z.eqb_spec c 0) as [->|].
    - unfold master_step. rewrite Em. cbn [Z.ltb Z.compare]. rewrite decide_False by (intros E; by rewrite E in En). by unfold stuck.
    - replace c with 1 in * by lia. unfold slave_step. destruct Eq as [E|E]; rewrite E.
      + unfold stuck. cbn. rewrite !fn_lookup_insert. naive_solver.
      + rewrite decide_False by congruence. unfold stuck. cbn. rewrite !fn_lookup_insert. naive_solver. }
  intros s' Hr. enough (G : stuck s') by (destruct G; naive_solver).
  assert (H0 : stuck (run 2 size entry image app late2 cold)).
  { unfold stuck. split_and!; try (vm_compute; reflexivity). right. vm_compute. reflexivity. }
  induction Hr; eauto.
Qed.
