(* ===== verification/Tasks.v ===== *)
(** Tasks: the linked lists of the task schedulers,
    apps/ttscheduling/tt_minimal_scheduler.c and
    apps/rmscheduling/rm_minimal_scheduler.c.

    - Both schedulers keep their tasks in a list of nodes in allocated memory,
      with a head and a tail pointer, and have the same functions on it, which
      differ in the field that the list is ordered by.  [queue] has the nodes by
      address (0 is NULL); malloc returns the next address ([brk]).
    - [None]: an access through a pointer that is not a node.
    - Specification: a queue stands for a list of nodes ([holds]);
      sortedinsert, enqueue and dequeue are insertion at its place, at the end
      and removal at the front. *)

From stdpp Require Import base numbers gmap sorting list.
From S2P Require Import Prelude.

Definition NULL := 0.

Section Queue.
Context {T : Type}.
Record node := mk_node { n_task : T; n_next : Z }.
Record queue := mk_queue { nodes : gmap Z node; brk : Z; head : Z; tail : Z; task_count : Z }.

Definition set_nodes (h : gmap Z node) (q : queue) : queue := mk_queue h (brk q) (head q) (tail q) (task_count q).
(** p->next = x *)
Definition set_next (p x : Z) (q : queue) : option queue :=
  match nodes q !! p with Some n => Some (set_nodes (<[p := mk_node (n_task n) x]> (nodes q)) q) | None => None end.
(** p->task = t *)
Definition set_task (p : Z) (t : T) (q : queue) : option queue :=
  match nodes q !! p with Some n => Some (set_nodes (<[p := mk_node t (n_next n)]> (nodes q)) q) | None => None end.
Definition set_ends (hd tl n : Z) (q : queue) : queue := mk_queue (nodes q) (brk q) hd tl n.

Definition create_node (t : T) (q : queue) : Z * queue :=
  (brk q, mk_queue (<[brk q := mk_node t NULL]> (nodes q)) (brk q + 1) (head q) (tail q) (task_count q)).

Definition enqueue (t : T) (q : queue) : option queue :=
  let '(temp, q) := create_node t q in
  let n := u32 (task_count q + 1) in
  if tail q =? NULL then Some (set_ends temp temp n q)
  else
    match set_next (tail q) temp q with
    | Some q => Some (set_ends (head q) temp n q)
    | None => None
    end.

(** The loop that locates the node before the point of insertion. *)
Fixpoint locate (fuel : nat) (key : T -> Z) (k : Z) (q : queue) (current : Z) : option Z :=
  match nodes q !! current with
  | None => None
  | Some c =>
      if n_next c =? NULL then Some current
      else
        match nodes q !! n_next c with
        | None => None
        | Some x => if key (n_task x) <? k then match fuel with O => None | S f => locate f key k q (n_next c) end else Some current
        end
  end.

Definition sortedinsert (key : T -> Z) (new_node : Z) (q : queue) : option queue :=
  match nodes q !! new_node with
  | None => None
  | Some nw =>
      let k := key (n_task nw) in
      let at_head := match set_next new_node (head q) q with
                     | Some q => Some (set_ends new_node (tail q) (u32 (task_count q + 1)) q) | None => None end in
      if head q =? NULL then at_head
      else
        match nodes q !! head q with
        | None => None
        | Some hd =>
            if k <=? key (n_task hd) then at_head
            else
              match locate (size (nodes q)) key k q (head q) with
              | None => None
              | Some current =>
                  match nodes q !! current with
                  | None => None
                  | Some c =>
                      match set_next new_node (n_next c) q with
                      | None => None
                      | Some q =>
                          match set_next current new_node q with
                          | Some q => Some (set_ends (head q) (tail q) (u32 (task_count q + 1)) q)
                          | None => None
                          end
                      end
                  end
              end
        end
  end.

(** Returns the node, or NULL. *)
Definition dequeue (q : queue) : option (Z * queue) :=
  if head q =? NULL then Some (NULL, q)
  else
    match nodes q !! head q with
    | None => None
    | Some n => Some (head q, set_ends (n_next n) (if n_next n =? NULL then NULL else tail q) (u32 (task_count q - 1)) q)
    end.

(** The loop over the nodes: the first one whose time [key] has come, or NULL. *)
Fixpoint find_due (fuel : nat) (key : T -> Z) (current_time : Z) (q : queue) (node_itr : Z) : option Z :=
  if node_itr =? NULL then Some NULL
  else
    match nodes q !! node_itr with
    | None => None
    | Some n =>
        if key (n_task n) <=? current_time then Some node_itr
        else match fuel with O => None | S f => find_due f key current_time q (n_next n) end
    end.

(** ** Lists *)

Fixpoint is_list (h : gmap Z node) (p : Z) (l : list (Z * T)) : Prop :=
  match l with
  | [] => p = NULL
  | (a, t) :: l => p = a /\ exists nx, h !! a = Some (mk_node t nx) /\ is_list h nx l
  end.
Record wf_heap (q : queue) (l : list (Z * T)) : Prop := {
  wh_brk : 0 < brk q;
  wh_addr a n : nodes q !! a = Some n -> 0 < a < brk q;
  wh_nodup : NoDup (map fst l);
}.
Record holds (q : queue) (l : list (Z * T)) : Prop := {
  ho_wf : wf_heap q l;
  ho_list : is_list (nodes q) (head q) l;
  ho_count : task_count q = u32 (Z.of_nat (length l));
}.

Fixpoint insert_by (key : T -> Z) (x : Z * T) (l : list (Z * T)) : list (Z * T) :=
  match l with [] => [x] | y :: l' => if key (snd x) <=? key (snd y) then x :: l else y :: insert_by key x l' end.
Definition by_key (key : T -> Z) (x y : Z * T) : Prop := key (snd x) <= key (snd y).

Lemma is_list_ne h p l a n : is_list h p l -> a ∉ map fst l -> is_list (<[a := n]> h) p l.
Proof.
  revert p. induction l as [|[b t] l IH]; intros p; cbn; [done|]. intros [-> (nx & E & H)] Ha.
  apply not_elem_of_cons in Ha as [Hb Ha]. split; [done|]. exists nx. rewrite lookup_insert_ne by done. auto.
Qed.
Lemma is_list_lookup h p l a t : is_list h p l -> (a, t) ∈ l -> exists nx, h !! a = Some (mk_node t nx).
Proof.
  revert p. induction l as [|[b s] l IH]; intros p; cbn; [by intros _ ?%elem_of_nil|].
  intros [-> (nx & E & H)] [[= -> ->]|Hin]%elem_of_cons; eauto.
Qed.

Lemma insert_by_perm key x l : insert_by key x l ≡ₚ x :: l.
Proof. induction l as [|y l IH]; cbn; [done|]. case_match; [done|]. rewrite IH. apply Permutation_swap. Qed.
Lemma insert_by_sorted key x l : StronglySorted (by_key key) l -> StronglySorted (by_key key) (insert_by key x l).
Proof.
  induction 1 as [|y l Hl IH Hy]; cbn; [by repeat constructor|]. destruct (Z.leb_spec (key (snd x)) (key (snd y))) as [Hle|Hlt].
  - constructor; [by constructor|]. constructor; [done|]. eapply Forall_impl; [exact Hy|]. unfold by_key. intros z. lia.
  - constructor; [done|]. rewrite insert_by_perm. constructor; [unfold by_key; lia|done].
Qed.

(** *** The operations *)

Lemma list_fits h p l : is_list h p l -> NoDup (map fst l) -> (length l <= size h)%nat.
Proof.
  intros Hl Hn. rewrite <- (length_map fst l), <- size_dom, <- (size_list_to_set (C := gset Z) (map fst l)) by done.
  apply subseteq_size. intros a ([a' t] & -> & Hin)%elem_of_list_to_set%list_elem_of_fmap.
  apply elem_of_dom. destruct (is_list_lookup _ _ _ _ _ Hl Hin) as [nx E]. by exists (mk_node t nx).
Qed.

Lemma locate_insert key a t q l : forall b s fuel,
  nodes q !! a <> None -> is_list (nodes q) b ((b, s) :: l) -> a ∉ map fst ((b, s) :: l) -> NoDup (map fst ((b, s) :: l)) ->
  (forall x n, nodes q !! x = Some n -> x <> NULL) -> key s < key t -> (length l <= fuel)%nat ->
  exists cur c, locate fuel key (key t) q b = Some cur /\ nodes q !! cur = Some c /\ cur ∈ map fst ((b, s) :: l) /\
    is_list (<[cur := mk_node (n_task c) a]> (<[a := mk_node t (n_next c)]> (nodes q))) b (insert_by key (a, t) ((b, s) :: l)).
Proof.
  induction l as [|[b' s'] l IH]; intros b s fuel Ha Hl Hin Hnd Hnull Hk Hf; cbn [is_list] in Hl;
    destruct Hl as [_ (nx & Eb & Hl)]; cbn [map fst] in Hin; apply not_elem_of_cons in Hin as [Hab Hin].
  - subst nx. exists b, (mk_node s NULL). cbn [insert_by snd n_task n_next]. rewrite (proj2 (Z.leb_gt _ _)) by done.
    split_and!; [destruct fuel; cbn [locate]; by rewrite Eb|done|by left|]. cbn [is_list]. split; [done|]. exists a.
    rewrite lookup_insert_eq. split; [done|]. split; [done|]. exists NULL. by rewrite lookup_insert_ne, lookup_insert_eq by done.
  - pose proof Hl as Hl0. destruct Hl as [-> (nx' & Eb' & Hl)]. pose proof (Hnull _ _ Eb') as Hb0.
    cbn [insert_by snd]. rewrite (proj2 (Z.leb_gt (key t) (key s))) by done.
    apply NoDup_cons in Hnd as [Hnb Hnd]. destruct (Z.ltb_spec (key s') (key t)) as [Hlt|Hge].
    + destruct fuel as [|fuel]; [cbn in Hf; lia|]. destruct (IH b' s' fuel) as (cur & c & E & Ec & Hc & Hr); [done..|cbn in Hf; lia|].
      exists cur, c. split_and!; [|done|by right|].
      * cbn [locate]. rewrite Eb. cbn [n_next]. rewrite (proj2 (Z.eqb_neq _ _)), Eb' by done. cbn [n_task]. by rewrite (proj2 (Z.ltb_lt _ _)).
      * split; [done|]. exists b'. split; [|exact Hr]. rewrite lookup_insert_ne by (intros ->; done). by rewrite lookup_insert_ne.
    + exists b, (mk_node s b'). cbn [n_task n_next insert_by snd]. rewrite (proj2 (Z.leb_le (key t) (key s'))) by done.
      split_and!; [|done|by left|].
      * destruct fuel; cbn [locate]; rewrite Eb; cbn [n_next]; rewrite (proj2 (Z.eqb_neq _ _)), Eb' by done; cbn [n_task];
          by rewrite (proj2 (Z.ltb_ge _ _)).
      * split; [done|]. exists a. rewrite lookup_insert_eq. split; [done|]. split; [done|]. exists b'.
        rewrite lookup_insert_ne, lookup_insert_eq by done. split; [done|]. by apply is_list_ne; [apply is_list_ne|].
Qed.

Lemma wf_heap_insert q l h hd tl n l' : wf_heap q l -> (dom h : gset Z) = dom (nodes q) -> NoDup (map fst l') ->
  wf_heap (mk_queue h (brk q) hd tl n) l'.
Proof.
  intros [Hb Ha _] Hd Hn. constructor; cbn [nodes brk head tail task_count set_ends set_nodes]; [done| |done]. intros a x E. assert (a ∈ dom (nodes q)) as [y Ey]%elem_of_dom
    by (rewrite <- Hd; apply elem_of_dom; by exists x). eauto.
Qed.

Lemma length_insert_by key x l : length (insert_by key x l) = S (length l).
Proof. by rewrite insert_by_perm. Qed.
Lemma u32_count_succ n : u32 (u32 (Z.of_nat n) + 1) = u32 (Z.of_nat (S n)).
Proof. unfold u32. rewrite Zplus_mod_idemp_l. f_equal. lia. Qed.

(** The node is linked in at its place; the tail pointer is left as it was. *)
Lemma sortedinsert_holds key a t nx q l : holds q l -> nodes q !! a = Some (mk_node t nx) -> a ∉ map fst l ->
  exists q', sortedinsert key a q = Some q' /\ holds q' (insert_by key (a, t) l) /\ tail q' = tail q.
Proof.
  intros [Hwf Hl Hc] Ea Hin. pose proof Hwf as [Hb Haddr Hnd].
  assert (NoDup (map fst (insert_by key (a, t) l))) as Hnd' by (rewrite insert_by_perm; by apply NoDup_cons).
  assert (u32 (task_count q + 1) = u32 (Z.of_nat (length (insert_by key (a, t) l)))) as Hn
    by (rewrite Hc, length_insert_by; apply u32_count_succ).
  unfold sortedinsert. rewrite Ea. cbn [n_task].
  assert (insert_by key (a, t) l = (a, t) :: l -> exists q', match set_next a (head q) q with
     | Some q => Some (set_ends a (tail q) (u32 (task_count q + 1)) q) | None => None end = Some q' /\
     holds q' (insert_by key (a, t) l) /\ tail q' = tail q) as Hhead.
  { intros El. unfold set_next. rewrite Ea. cbn [n_task]. eexists. split; [done|]. split; [|done]. constructor; cbn [nodes brk head tail task_count set_ends set_nodes]; [|rewrite El|done].
    - apply (wf_heap_insert q l); [done|by cbn [nodes set_nodes]; rewrite dom_insert_lookup_L by (by rewrite Ea)|done].
    - split; [done|]. exists (head q). rewrite lookup_insert_eq. split; [done|]. by apply is_list_ne. }
  destruct l as [|[b s] l]; [cbn in Hl; rewrite Hl in *; by apply Hhead|].
  pose proof Hl as Hl0. destruct Hl as [Eh (nb & Eb & Hl)]. rewrite Eh, (proj2 (Z.eqb_neq b NULL)), Eb
    by (apply Haddr in Eb; unfold NULL; lia). cbn [n_task]. rewrite Eh in Hhead. cbn [insert_by snd] in Hhead.
  destruct (Z.leb_spec (key t) (key s)) as [Hle|Hlt]; [cbn [insert_by snd]; rewrite (proj2 (Z.leb_le _ _) Hle); by apply Hhead|].
  destruct (locate_insert key a t q l b s (size (nodes q))) as (cur & c & E & Ec & Hcur & Hr);
    [by rewrite Ea|by rewrite Eh in Hl0|done|done| |done| |].
  - intros x n Ex. apply Haddr in Ex. unfold NULL. lia.
  - apply list_fits in Hl0; [|done]. cbn in Hl0. lia.
  - rewrite E, Ec. unfold set_next. rewrite Ea. cbn [nodes set_nodes n_task].
    assert (a <> cur) by (intros ->; done). rewrite lookup_insert_ne, Ec by done. eexists. split; [done|]. split; [|done].
    constructor; cbn [head nodes task_count set_ends set_nodes]; [|by rewrite Eh|done].
    apply (wf_heap_insert q ((b, s) :: l)); [done| |done]. cbn [nodes set_nodes]. rewrite !dom_insert_lookup_L; [done|by rewrite Ea|].
    rewrite lookup_insert_ne by done. by rewrite Ec.
Qed.

Lemma dequeue_holds q a t l : holds q ((a, t) :: l) ->
  exists q' nx, dequeue q = Some (a, q') /\ holds q' l /\ nodes q' !! a = Some (mk_node t nx) /\ (a ∉ map fst l) /\
    tail q' = match l with [] => NULL | _ => tail q end.
Proof.
  intros [Hwf [Eh (nx & Ea & Hl)] Hc]. pose proof Hwf as [Hb Haddr [Hin Hnd]%NoDup_cons]. pose proof (Haddr _ _ Ea).
  unfold dequeue. rewrite Eh, (proj2 (Z.eqb_neq a NULL)), Ea by (unfold NULL; lia). cbn [n_next]. eexists _, nx.
  split; [done|]. split_and!; [|done|done|].
  - constructor; cbn [nodes brk head tail task_count set_ends set_nodes]; [by apply (wf_heap_insert q _ (nodes q) _ _ _ l Hwf)|done|]. rewrite Hc. cbn [length].
    unfold u32. rewrite Zminus_mod_idemp_l. f_equal. lia.
  - cbn. destruct l as [|[b s] l]; [by rewrite (proj2 (Z.eqb_eq nx NULL))|]. destruct Hl as [-> (n2 & Eb & _)].
    by rewrite (proj2 (Z.eqb_neq b NULL)) by (apply Haddr in Eb; unfold NULL; lia).
Qed.

(** A change of a task in place. *)
Lemma set_task_holds q l1 a t t' l2 : holds q (l1 ++ (a, t) :: l2) ->
  exists q', set_task a t' q = Some q' /\ holds q' (l1 ++ (a, t') :: l2) /\ tail q' = tail q.
Proof.
  intros [Hwf Hl Hc]. destruct (is_list_lookup _ _ _ a t Hl) as [nx Ea]; [set_solver|].
  unfold set_task. rewrite Ea. cbn [n_next]. eexists. split; [done|]. split; [|done].
  pose proof (wh_nodup _ _ Hwf) as Hnd. rewrite map_app in Hnd.
  constructor; cbn [nodes brk head tail task_count set_ends set_nodes]; [|clear Hc|by rewrite Hc, !length_app].
  - apply (wf_heap_insert q _ _ _ _ _ _ Hwf); [by cbn [nodes set_nodes]; rewrite dom_insert_lookup_L by (by rewrite Ea)|by rewrite map_app].
  - revert Hl Hnd. clear Hwf. generalize (head q). induction l1 as [|[b s] l1 IH]; intros p; cbn.
    + intros [-> (n2 & E & Hl)] [Hin _]%NoDup_cons. split; [done|]. exists nx. rewrite lookup_insert_eq. split; [done|].
      rewrite E in Ea. injection Ea as ->. by apply is_list_ne.
    + intros [-> (n2 & E & Hl)] [Hin Hnd]%NoDup_cons. split; [done|]. exists n2. rewrite lookup_insert_ne by set_solver. auto.
Qed.

Lemma create_holds t q l : holds q l -> let '(a, q') := create_node t q in
  holds q' l /\ nodes q' !! a = Some (mk_node t NULL) /\ (a ∉ map fst l) /\ tail q' = tail q.
Proof.
  intros [[Hb Ha Hn] Hl Hc]. cbn.
  assert (brk q ∉ map fst l) as Hin.
  { intros ([a s] & E & Hin)%list_elem_of_fmap. cbn in E. subst a. destruct (is_list_lookup _ _ _ _ _ Hl Hin) as [nx Ex].
    apply Ha in Ex. lia. }
  split_and!; [|by rewrite lookup_insert_eq|done|done]. constructor; cbn [nodes brk head tail task_count set_ends set_nodes]; [|by apply is_list_ne|done].
  constructor; cbn [nodes brk head tail task_count set_ends set_nodes]; [lia| |done]. intros a n. rewrite lookup_insert_Some. intros [[<- _]|[_ ?%Ha]]; lia.
Qed.

(** The tail pointer is the last node. *)
Definition tail_ok (q : queue) (l : list (Z * T)) : Prop := tail q = match last l with Some x => fst x | None => NULL end.

Lemma is_list_snoc h p l a t : is_list h p l -> h !! a = Some (mk_node t NULL) -> a ∉ map fst l -> NoDup (map fst l) ->
  match last l with
  | None => is_list h a (l ++ [(a, t)])
  | Some (b, s) => is_list (<[b := mk_node s a]> h) p (l ++ [(a, t)])
  end.
Proof.
  revert p. induction l as [|[b s] l IH]; intros p Hl Ea Hin Hnd; cbn in *; [by split; [|exists NULL]|].
  destruct Hl as [-> (nx & Eb & Hl)]. apply not_elem_of_cons in Hin as [Hab Hin]. apply NoDup_cons in Hnd as [Hb Hnd].
  specialize (IH nx Hl Ea Hin Hnd). destruct l as [|[b' s'] l].
  - cbn. split; [done|]. exists a. rewrite lookup_insert_eq. split; [done|]. split; [done|]. exists NULL. by rewrite lookup_insert_ne.
  - rewrite last_cons_cons. destruct (last ((b', s') :: l)) as [[c r]|] eqn:El; [|by apply last_None in El].
    split; [done|]. exists nx. split; [|done]. rewrite lookup_insert_ne; [done|]. intros Ecb. apply Hb, list_elem_of_fmap. exists (c, r). split; [by cbn; congruence|by apply last_Some_elem_of].
Qed.

Lemma enqueue_holds t q l : holds q l -> tail_ok q l ->
  exists q', enqueue t q = Some q' /\ holds q' (l ++ [(brk q, t)]) /\ tail_ok q' (l ++ [(brk q, t)]).
Proof.
  intros Hq Ht. pose proof (create_holds t q l Hq) as Hcr. unfold enqueue. destruct (create_node t q) as [a q1] eqn:Ec.
  injection Ec as <- <-. destruct Hcr as ([Hwf Hl Hc] & Ea & Hin & Ht1). set (q1 := mk_queue _ _ _ _ _) in *.
  assert (NoDup (map fst (l ++ [(brk q, t)]))) as Hnd'.
  { rewrite map_app. apply NoDup_app. split_and!; [apply Hwf|set_solver|apply NoDup_singleton]. }
  pose proof (is_list_snoc _ _ _ _ t Hl Ea Hin (wh_nodup _ _ Hwf)) as Hs. unfold tail_ok in *. rewrite Ht1, Ht, last_snoc.
  assert (u32 (task_count q1 + 1) = u32 (Z.of_nat (length (l ++ [(brk q, t)])))) as Hn
    by (rewrite Hc, length_app, Nat.add_1_r; apply u32_count_succ).
  destruct (last l) as [[b s]|] eqn:El; cbn [fst].
  - destruct (is_list_lookup _ _ _ b s Hl) as [nx Eb]; [by apply last_Some_elem_of|].
    rewrite (proj2 (Z.eqb_neq b NULL)) by (apply Hwf in Eb; unfold NULL; lia). unfold set_next. rewrite Eb. cbn [n_task].
    eexists. split; [done|]. split; [|done]. constructor; cbn [nodes brk head tail task_count set_ends set_nodes]; [|exact Hs|exact Hn].
    apply (wf_heap_insert q1 l); [done|by cbn [nodes set_nodes]; rewrite dom_insert_lookup_L by (by rewrite Eb)|done].
  - rewrite Z.eqb_refl. eexists. split; [done|]. split; [|done]. constructor; cbn [nodes brk head tail task_count set_ends set_nodes]; [|exact Hs|exact Hn].
    by apply (wf_heap_insert q1 l).
Qed.

Lemma null_free q l a n : wf_heap q l -> nodes q !! a = Some n -> a <> NULL.
Proof. intros [_ H _] E. apply H in E. unfold NULL. lia. Qed.

Lemma find_due_none key now q l : forall p fuel, is_list (nodes q) p l -> (length l <= fuel)%nat ->
  (forall a n, nodes q !! a = Some n -> a <> NULL) -> Forall (fun x => now < key (snd x)) l -> find_due fuel key now q p = Some NULL.
Proof.
  induction l as [|[a t] l IH]; intros p fuel Hl Hf Hn Hd.
  - cbn in Hl. subst p. by destruct fuel.
  - destruct Hl as [-> (nx & E & Hl)]. apply Forall_cons in Hd as [Hd1 Hd]. cbn in Hd1, Hf. destruct fuel as [|fuel]; [lia|]. cbn.
    rewrite (proj2 (Z.eqb_neq a NULL)), E by (by eapply Hn). cbn [n_task n_next]. rewrite (proj2 (Z.leb_gt _ _)) by done. apply IH; [done|lia|done..].
Qed.
Lemma find_due_head key now fuel a t nx q : a <> NULL -> nodes q !! a = Some (mk_node t nx) -> key t <= now ->
  find_due fuel key now q a = Some a.
Proof.
  intros Ha E Hk. destruct fuel; cbn; rewrite (proj2 (Z.eqb_neq a NULL)), E by done; cbn [n_task]; by rewrite (proj2 (Z.leb_le _ _)).
Qed.

(** The first task is changed, removed and put in its place again. *)
Lemma reinsert_holds key a t t' q l : holds q ((a, t) :: l) ->
  exists q1 q2 q3, set_task a t' q = Some q1 /\ dequeue q1 = Some (a, q2) /\ sortedinsert key a q2 = Some q3 /\
    holds q3 (insert_by key (a, t') l).
Proof.
  intros Hq. destruct (set_task_holds _ [] _ _ t' _ Hq) as (q1 & E1 & H1 & _).
  destruct (dequeue_holds _ _ _ _ H1) as (q2 & nx2 & E2 & H2 & Ea2 & Hin & _).
  destruct (sortedinsert_holds key _ _ _ _ _ H2 Ea2 Hin) as (q3 & E3 & H3 & _). by exists q1, q2, q3.
Qed.

Lemma unique_task (l : list (Z * T)) a t u : NoDup (map fst l) -> (a, t) ∈ l -> (a, u) ∈ l -> t = u.
Proof.
  induction l as [|[b v] l IH]; cbn; [by intros _ ?%elem_of_nil|]. intros [Hb Hn]%NoDup_cons.
  assert (forall w, (b, w) ∈ l -> False) as Hx by (intros w Hw; apply Hb, list_elem_of_fmap; by exists (b, w)).
  intros [[= -> ->]|H1]%elem_of_cons [[= ->]|H2]%elem_of_cons; try done; [by apply Hx in H2|subst; by apply Hx in H1|auto].
Qed.

End Queue.
