(* ===== verification/TtScheduler.v ===== *)
(** TtScheduler: time-triggered tasks, apps/ttscheduling/tt_minimal_scheduler.c.

    - The schedule is the queue of Tasks.v.  The clock (get_time) is the list of
      its readings, and a call of a task's function is recorded with the node
      and the task as the function sees it.
    - release_times points to an array of its own for every task and is part of
      the task here.
    - Specification: execution number [k] of a task has a release time
      ([nominal]) that is given by the task's table and the hyper period. *)

From stdpp Require Import base numbers gmap sorting list.
From S2P Require Import Prelude Tasks.

Record MinimalTTTask := mk_tt {
  id : Z; period : Z; release_times : list Z; deadline : Z; wcet : Z; release_inst : Z; nr_releases : Z;
  delta_sum : Z; last_release_time : Z; exec_count : Z; func : Z;
}.
Record MinimalTTSchedule := mk_schedule { hyper_period : Z; start_time : Z; tasks : queue (T := MinimalTTTask) }.

(** [newTask] has the members that are not set. *)
Definition init_minimal_tttask (newTask : MinimalTTTask) (i p : Z) (times : list Z) (n f : Z) : MinimalTTTask :=
  mk_tt (u16 i) p times (deadline newTask) (wcet newTask) 0 (u32 n) 0 0 0 f.
(** [h] and [b] are the allocated memory. *)
Definition init_minimal_ttschedule (hyperperiod num_tasks : Z) (h : gmap Z node) (b : Z) : MinimalTTSchedule :=
  mk_schedule hyperperiod 0 (mk_queue h b NULL NULL num_tasks).

Definition set_tasks (q : queue) (s : MinimalTTSchedule) : MinimalTTSchedule := mk_schedule (hyper_period s) (start_time s) q.
Definition release (t : MinimalTTTask) : Z := at_ (release_times t) (release_inst t).

Definition create_tttasknode : MinimalTTTask -> queue -> Z * queue := create_node.
Definition ttschedule_enqueue : MinimalTTTask -> queue -> option queue := enqueue.
Definition ttschedule_sortedinsert_period : Z -> queue -> option queue := sortedinsert period.
Definition ttschedule_sortedinsert_release : Z -> queue -> option queue := sortedinsert release.
Definition ttschedule_dequeue : queue -> option (Z * queue) := dequeue (T := MinimalTTTask).

(** The members of a task after its function was called. *)
Definition executed (hyper current_time : Z) (t : MinimalTTTask) : MinimalTTTask :=
  mk_tt (id t) (period t) (<[Z.to_nat (release_inst t) := u64 (release t + hyper)]> (release_times t)) (deadline t) (wcet t)
    (u32 (release_inst t + 1) mod nr_releases t) (nr_releases t)
    (u64 (delta_sum t + if last_release_time t =? 0 then period t else u64 (current_time - last_release_time t)))
    current_time (u32 (exec_count t + 1)) (func t).

Definition tt_minimal_dispatcher (current_time : Z) (s : MinimalTTSchedule) :
    option (Z * MinimalTTSchedule * list (Z * MinimalTTTask)) :=
  match find_due (size (nodes (tasks s))) release current_time (tasks s) (head (tasks s)) with
  | None => None
  | Some node_itr =>
      match nodes (tasks s) !! node_itr with
      | None => Some (0, s, [])
      | Some n =>
          let t := n_task n in
          match set_task node_itr (executed (hyper_period s) current_time t) (tasks s) with
          | None => None
          | Some q =>
              match ttschedule_dequeue q with
              | None => None
              | Some (exec_task, q) =>
                  match ttschedule_sortedinsert_release exec_task q with
                  | None => None
                  | Some q => Some (1, set_tasks q s, [(node_itr, t)])
                  end
              end
          end
      end
  end.

(** The while loop; the result has the number of executed tasks, the calls and
    the rest of the readings. *)
Fixpoint schedule_loop (infinite : bool) (bound start current_time : Z) (s : MinimalTTSchedule) (n : Z) (readings : list Z) :
    option (Z * MinimalTTSchedule * list (Z * MinimalTTTask) * list Z) :=
  if infinite || (current_time <? bound) then
    match tt_minimal_dispatcher current_time s with
    | None => None
    | Some (r, s, calls) =>
        match readings with
        | [] => None
        | now :: readings =>
            match schedule_loop infinite bound start (u64 (now - start)) s (u32 (n + r)) readings with
            | None => None
            | Some (n, s, calls', rest) => Some (n, s, calls ++ calls', rest)
            end
        end
    end
  else Some (n, s, [], readings).

Definition tt_minimal_schedule_loop (noLoops : Z) (infinite : bool) (s : MinimalTTSchedule) (readings : list Z) :
    option (Z * MinimalTTSchedule * list (Z * MinimalTTTask) * list Z) :=
  match readings with
  | start :: now :: readings =>
      schedule_loop infinite (u64 (noLoops * hyper_period s)) start (u64 (now - start)) s 0 readings
  | _ => None
  end.

(** ** Release times *)

(** Execution [k] of a task with the table [r]. *)
Definition nominal (hyper : Z) (r : list Z) (k : Z) : Z :=
  let n := Z.of_nat (length r) in at_ r (k mod n) + hyper * (k / n).
Record table_ok (hyper : Z) (r : list Z) : Prop := {
  tb_len : 0 < Z.of_nat (length r) < 2 ^ 32;
  tb_order i : 0 <= i < Z.of_nat (length r) - 1 -> at_ r i <= at_ r (i + 1);
  tb_hyper : at_ r (Z.of_nat (length r) - 1) <= at_ r 0 + hyper;
  tb_first : 0 <= at_ r 0;
}.
(** The task with the table [r] before execution [k]. *)
Record before (hyper : Z) (r : list Z) (k : Z) (t : MinimalTTTask) : Prop := {
  be_count : exec_count t = k;
  be_inst : release_inst t = k mod Z.of_nat (length r);
  be_n : nr_releases t = Z.of_nat (length r);
  be_len : length (release_times t) = length r;
  be_times j : 0 <= j < Z.of_nat (length r) ->
    at_ (release_times t) j = at_ r j + hyper * (k / Z.of_nat (length r) + if j <? k mod Z.of_nat (length r) then 1 else 0);
}.

Lemma mod_succ k n : 0 < n -> 0 <= k ->
  (k mod n = n - 1 /\ (k + 1) mod n = 0 /\ (k + 1) / n = k / n + 1) \/
  (k mod n < n - 1 /\ (k + 1) mod n = k mod n + 1 /\ (k + 1) / n = k / n).
Proof.
  intros Hn Hk. pose proof (Z.div_mod k n ltac:(lia)). pose proof (Z.mod_pos_bound k n Hn).
  destruct (decide (k mod n = n - 1)) as [E|E]; [left|right].
  - split; [done|]. assert (k + 1 = (k / n + 1) * n + 0) as -> by lia. rewrite Z.add_0_r, Z.mod_mul, Z.div_mul by lia. lia.
  - split; [lia|]. assert (k + 1 = (k mod n + 1) + (k / n) * n) as -> by lia.
    rewrite Z.mod_add, Z.div_add, Z.mod_small, Z.div_small by lia. lia.
Qed.

Lemma nominal_mono hyper r k : table_ok hyper r -> 0 <= k -> nominal hyper r k <= nominal hyper r (k + 1).
Proof.
  intros [Hl Ho Hh _] Hk. unfold nominal. cbv zeta. pose proof (Z.mod_pos_bound k (Z.of_nat (length r)) ltac:(lia)).
  destruct (mod_succ k (Z.of_nat (length r)) ltac:(lia) Hk) as [(E1 & E2 & E3)|(E1 & E2 & E3)]; rewrite E2, E3.
  - rewrite E1. lia.
  - specialize (Ho (k mod Z.of_nat (length r)) ltac:(lia)). lia.
Qed.

Lemma release_before hyper r k t : table_ok hyper r -> before hyper r k t -> release t = nominal hyper r k.
Proof.
  intros Hr [_ Hi _ _ Ht]. pose proof (tb_len _ _ Hr). pose proof (Z.mod_pos_bound k (Z.of_nat (length r)) ltac:(lia)).
  unfold release, nominal. cbv zeta. rewrite Hi, Ht by done. rewrite Z.ltb_irrefl. by rewrite Z.add_0_r.
Qed.

Lemma at_insert (l : list Z) i j v : 0 <= i < Z.of_nat (length l) -> 0 <= j ->
  at_ (<[Z.to_nat i := v]> l) j = if decide (j = i) then v else at_ l j.
Proof.
  intros Hi Hj. unfold at_. rewrite !nth_lookup. case_decide as E.
  - subst. by rewrite list_lookup_insert_eq by lia.
  - by rewrite list_lookup_insert_ne by lia.
Qed.

Lemma executed_before hyper r k t now : table_ok hyper r -> before hyper r k t -> 0 <= k < 2 ^ 32 - 1 ->
  0 <= release t + hyper < 2 ^ 64 -> before hyper r (k + 1) (executed hyper now t).
Proof.
  intros Hr Hb Hk Hu. pose proof (release_before _ _ _ _ Hr Hb) as Er. destruct Hb as [Hc Hi Hn Hlen Ht], (tb_len _ _ Hr) as [Hl1 Hl2].
  set (n := Z.of_nat (length r)) in *. pose proof (Z.mod_pos_bound k n ltac:(lia)) as Hm. unfold executed.
  assert (u32 (release_inst t + 1) mod n = (k + 1) mod n) as Ei.
  { rewrite Hi, u32_small by lia. by rewrite Zplus_mod_idemp_l. }
  constructor; cbn [exec_count release_inst nr_releases release_times].
  - rewrite Hc. apply u32_small. lia.
  - by rewrite Hn.
  - done.
  - by rewrite length_insert.
  - intros j Hj. rewrite at_insert by (rewrite ?Hlen, ?Hi; fold n; lia). rewrite u64_small by lia. rewrite Er. unfold nominal. cbv zeta. fold n.
    rewrite Hi. case_decide as E; [subst j|rewrite Ht by done];
      destruct (mod_succ k n ltac:(lia) ltac:(lia)) as [(E1 & E2 & E3)|(E1 & E2 & E3)]; rewrite ?E2, ?E3; rewrite ?E1;
      repeat (match goal with |- context [?x <? ?y] => destruct (Z.ltb_spec x y) end); lia.
Qed.

(** ** The dispatcher *)

Definition sorted (l : list (Z * MinimalTTTask)) : Prop := StronglySorted (by_key release) l.

Lemma dispatcher_idle now s l : holds (tasks s) l -> Forall (fun x => now < release (snd x)) l ->
  tt_minimal_dispatcher now s = Some (0, s, []).
Proof.
  intros [Hwf Hl _] Hd. unfold tt_minimal_dispatcher. pose proof (list_fits _ _ _ Hl (wh_nodup _ _ Hwf)).
  rewrite (find_due_none release now _ l) by (done || (intros a n; by eapply null_free)). case_match eqn:E; [|done].
  by apply (null_free _ _ _ _ Hwf) in E.
Qed.

Lemma dispatcher_run now s a t l : holds (tasks s) ((a, t) :: l) -> release t <= now ->
  exists s', tt_minimal_dispatcher now s = Some (1, s', [(a, t)]) /\ hyper_period s' = hyper_period s /\
    holds (tasks s') (insert_by release (a, executed (hyper_period s) now t) l).
Proof.
  intros Hq Hd. pose proof Hq as [Hwf [Eh (nx & Ea & _)] _]. unfold tt_minimal_dispatcher. rewrite Eh.
  rewrite (find_due_head release now _ a t nx) by (done || by eapply null_free).
  rewrite Ea. cbn [n_task]. destruct (reinsert_holds release a t (executed (hyper_period s) now t) _ _ Hq) as (q1 & q2 & q3 & -> & E2 & E3 & H3).
  unfold ttschedule_dequeue. rewrite E2. unfold ttschedule_sortedinsert_release. rewrite E3.
  by eexists.
Qed.

(** ** Runs *)

(** Calls of the dispatcher at the times [ts]; the result has the calls of
    tasks with the time. *)
Fixpoint dispatches (ts : list Z) (s : MinimalTTSchedule) : option (MinimalTTSchedule * list (Z * (Z * MinimalTTTask))) :=
  match ts with
  | [] => Some (s, [])
  | now :: ts =>
      match tt_minimal_dispatcher now s with
      | None => None
      | Some (_, s, calls) =>
          match dispatches ts s with
          | None => None
          | Some (s, calls') => Some (s, map (fun c => (now, c)) calls ++ calls')
          end
      end
  end.

(** The task at [a] has the table [tab a]; at most [n] executions follow. *)
Record tt_inv (tab : Z -> list Z) (limit : Z) (n : nat) (s : MinimalTTSchedule) (l : list (Z * MinimalTTTask)) : Prop := {
  ti_holds : holds (tasks s) l;
  ti_sorted : sorted l;
  ti_hyper : 0 <= hyper_period s /\ limit + hyper_period s < 2 ^ 64;
  ti_tasks a t : (a, t) ∈ l -> table_ok (hyper_period s) (tab a) /\ before (hyper_period s) (tab a) (exec_count t) t /\
    0 <= exec_count t /\ exec_count t + Z.of_nat n < 2 ^ 32 - 1;
}.

Lemma tt_inv_le tab limit n m s l : tt_inv tab limit n s l -> (m <= n)%nat -> tt_inv tab limit m s l.
Proof. intros [H1 H2 H3 H4] Hm. constructor; try done. intros a t Hin. destruct (H4 a t Hin) as (? & ? & ? & ?). split_and!; try done. lia. Qed.

Lemma nominal_nonneg hyper r k : table_ok hyper r -> 0 <= hyper -> 0 <= k -> 0 <= nominal hyper r k.
Proof.
  intros Hr Hh Hk. pose proof (tb_len _ _ Hr) as Hl. unfold nominal. cbv zeta. pose proof (Z.mod_pos_bound k (Z.of_nat (length r)) ltac:(lia)) as Hm.
  assert (0 <= k / Z.of_nat (length r)) by (apply Z.div_pos; lia).
  assert (forall i, (i < length r)%nat -> 0 <= at_ r (Z.of_nat i)) as Hi.
  { intros i. induction i as [|i IH]; intros Hl2; [apply Hr|]. specialize (IH ltac:(lia)).
    pose proof (tb_order _ _ Hr (Z.of_nat i) ltac:(lia)). replace (Z.of_nat (S i)) with (Z.of_nat i + 1) by lia. lia. }
  specialize (Hi (Z.to_nat (k mod Z.of_nat (length r))) ltac:(lia)). rewrite Z2Nat.id in Hi by lia. nia.
Qed.

(** One call of the dispatcher. *)
Lemma tt_step tab limit n s l now : tt_inv tab limit (S n) s l -> now < limit ->
  (tt_minimal_dispatcher now s = Some (0, s, []) /\ Forall (fun x => now < release (snd x)) l) \/
  exists a t l0 s', l = (a, t) :: l0 /\ release t <= now /\ tt_minimal_dispatcher now s = Some (1, s', [(a, t)]) /\
    hyper_period s' = hyper_period s /\
    tt_inv tab limit n s' (insert_by release (a, executed (hyper_period s) now t) l0) /\
    exec_count (executed (hyper_period s) now t) = exec_count t + 1 /\ release t <= release (executed (hyper_period s) now t).
Proof.
  intros Hi Hnow. pose proof Hi as [Hq Hs [Hh0 Hh] Ht]. destruct l as [|[a t] l0]; [left; split; [by eapply dispatcher_idle|done]|].
  pose proof Hs as [Hs0 Hle]%StronglySorted_inv. destruct (decide (release t <= now)) as [Hd|Hd].
  - right. destruct (dispatcher_run now s a t l0 Hq Hd) as (s' & E & Eh & Hq'). exists a, t, l0, s'.
    destruct (Ht a t ltac:(by left)) as (Htab & Hb & Hc0 & Hc). pose proof (release_before _ _ _ _ Htab Hb) as Er.
    pose proof (nominal_nonneg _ _ _ Htab Hh0 Hc0).
    assert (before (hyper_period s) (tab a) (exec_count t + 1) (executed (hyper_period s) now t)) as Hb'
      by (apply executed_before; (done || lia)).
    pose proof (be_count _ _ _ _ Hb') as Ec. pose proof (release_before _ _ _ _ Htab Hb') as Er'.
    pose proof (nominal_mono _ _ (exec_count t) Htab Hc0).
    split_and!; try done; [|lia]. constructor; [done|by apply insert_by_sorted|by rewrite Eh|]. rewrite Eh.
    intros b u. rewrite insert_by_perm. intros [[= -> ->]|Hin]%elem_of_cons.
    + rewrite Ec. split_and!; (done || lia).
    + destruct (Ht b u ltac:(by right)) as (? & ? & ? & ?). split_and!; (done || lia).
  - left. assert (Forall (fun x => now < release (snd x)) ((a, t) :: l0)) as Hall.
    { constructor; [cbn; lia|]. eapply Forall_impl; [exact Hle|]. unfold by_key. cbn. intros x. lia. }
    split; [|done]. by eapply dispatcher_idle.
Qed.

(** The release times of the calls of the task at [a]. *)
Definition releases_of (a : Z) (calls : list (Z * (Z * MinimalTTTask))) : list Z :=
  map (fun c => release (snd (snd c))) (filter (fun c => fst (snd c) = a) calls).
Definition call_release (c : Z * (Z * MinimalTTTask)) : Z := release (snd (snd c)).

(** What the calls [calls] do to the tasks [l]. *)
Record tt_run (tab : Z -> list Z) (hyper : Z) (l l' : list (Z * MinimalTTTask)) (calls : list (Z * (Z * MinimalTTTask))) : Prop := {
  tr_same : map fst l' ≡ₚ map fst l;
  tr_times : Forall (fun c => call_release c <= fst c) calls;
  tr_order : StronglySorted Z.le (map call_release calls);
  tr_exact a t t' : (a, t) ∈ l -> (a, t') ∈ l' -> exec_count t <= exec_count t' /\
    releases_of a calls = map (nominal hyper (tab a)) (seqZ (exec_count t) (exec_count t' - exec_count t));
  tr_above m : Forall (fun x => m <= release (snd x)) l -> Forall (fun c => m <= call_release c) calls;
}.

Lemma tt_run_nil tab hyper l : NoDup (map fst l) -> tt_run tab hyper l l [].
Proof.
  intros Hn. constructor; [done|constructor|constructor| |constructor]. intros a t t' H1 H2. rewrite (unique_task l a t t') by done.
  split; [done|]. by rewrite Z.sub_diag.
Qed.

(** A call of the first task, then the rest. *)
Lemma tt_run_cons tab hyper now a t t' l l' calls :
  NoDup (map fst ((a, t) :: l)) -> sorted ((a, t) :: l) -> release t <= now -> release t = nominal hyper (tab a) (exec_count t) ->
  exec_count t' = exec_count t + 1 -> release t <= release t' ->
  tt_run tab hyper (insert_by release (a, t') l) l' calls -> tt_run tab hyper ((a, t) :: l) l' ((now, (a, t)) :: calls).
Proof.
  intros Hn Hs Hd Hr Hc Hm [H1 H2 H3 H4 H5]. pose proof Hs as [_ Hle]%StronglySorted_inv.
  assert (Forall (fun x => release t <= release (snd x)) (insert_by release (a, t') l)) as Hlow.
  { rewrite insert_by_perm. constructor; [done|]. eapply Forall_impl; [exact Hle|]. unfold by_key. cbn. done. }
  constructor.
  - rewrite H1, insert_by_perm. done.
  - by constructor.
  - constructor; [done|]. apply Forall_map. by apply H5.
  - intros b u u' Hu Hu'. unfold releases_of. cbn [filter]. rewrite filter_cons. cbn [fst snd].
    apply elem_of_cons in Hu as [[= -> ->]|Hu].
    + rewrite decide_True by done. cbn [map snd]. destruct (H4 a t' u') as [Hk E]; [rewrite insert_by_perm; by left|done|].
      unfold releases_of in E. rewrite E, Hr. split; [lia|]. rewrite (seqZ_cons (exec_count t)), Hc by lia.
      by replace (exec_count u' - (exec_count t + 1)) with (Z.pred (exec_count u' - exec_count t)) by lia.
    + assert (a <> b) as Hab by (intros ->; apply NoDup_cons in Hn as [Hn _]; apply Hn, list_elem_of_fmap; by exists (b, u)).
      rewrite decide_False by done. apply H4; [rewrite insert_by_perm; by right|done].
  - intros m [Hm0 Hall]%Forall_cons. constructor; [exact Hm0|]. apply H5. rewrite insert_by_perm. constructor; [cbn in *; lia|done].
Qed.

Lemma dispatches_run tab limit ts : forall s l, tt_inv tab limit (length ts) s l -> Forall (fun t => t < limit) ts ->
  exists s' l' calls, dispatches ts s = Some (s', calls) /\ hyper_period s' = hyper_period s /\
    tt_inv tab limit 0 s' l' /\ tt_run tab (hyper_period s) l l' calls.
Proof.
  induction ts as [|now ts IH]; intros s l Hi Hts.
  - exists s, l, []. split_and!; try done. apply tt_run_nil. apply Hi.
  - apply Forall_cons in Hts as [Hnow Hts]. cbn [dispatches].
    destruct (tt_step tab limit (length ts) s l now Hi Hnow) as [[-> _]|(a & t & l0 & s1 & -> & Hd & -> & Eh & Hi1 & Hc & Hm)].
    + destruct (IH s l) as (s' & l' & calls & -> & E & Hi' & Hr); [apply (tt_inv_le _ _ (S (length ts))); [exact Hi|lia]|done|]. by exists s', l', calls.
    + destruct (IH s1 _ Hi1 Hts) as (s' & l' & calls & -> & E & Hi' & Hr). exists s', l', ((now, (a, t)) :: calls).
      rewrite Eh in *. split_and!; try done. destruct (ti_tasks _ _ _ _ _ Hi a t ltac:(by left)) as (Htab & Hb & _ & _).
      eapply tt_run_cons; try done; [apply Hi|apply Hi|by apply release_before].
Qed.

(** C24: time-triggered execution.  When the tasks are in the order of their
    release times, then however often and at whatever times the dispatcher is
    called: every task is executed for its releases in order, each once and none
    skipped (execution [k] for entry [k mod n] of its table, moved by one hyper
    period per round), no earlier than the release, and all executions are in
    the order of their release times. *)
Theorem tt_executes_schedule tab limit ts s l : tt_inv tab limit (length ts) s l -> Forall (fun t => t < limit) ts ->
  exists s' l' calls, dispatches ts s = Some (s', calls) /\ tt_inv tab limit 0 s' l' /\ map fst l' ≡ₚ map fst l /\
    Forall (fun c => call_release c <= fst c) calls /\ StronglySorted Z.le (map call_release calls) /\
    forall a t t', (a, t) ∈ l -> (a, t') ∈ l' ->
      releases_of a calls = map (nominal (hyper_period s) (tab a)) (seqZ (exec_count t) (exec_count t' - exec_count t)).
Proof.
  intros Hi Hts. destruct (dispatches_run tab limit ts s l Hi Hts) as (s' & l' & calls & E & _ & Hi' & [H1 H2 H3 H4 _]).
  exists s', l', calls. split_and!; try done. intros a t t' Ht Ht'. by apply (H4 a t t').
Qed.

(** ** The loop *)

Lemma u64_elapsed start t : 0 <= t < 2 ^ 64 -> u64 (start + t - start) = t.
Proof. intros Ht. replace (start + t - start) with t by lia. by apply u64_small. Qed.

Lemma schedule_loop_run tab limit bound start e rest ts : bound <= e < 2 ^ 64 -> bound <= limit < 2 ^ 64 ->
  forall c s l n, tt_inv tab limit (length ts) s l -> Forall (fun t => 0 <= t < bound) ts ->
  match ts ++ [e] with
  | [] => True
  | c' :: later => c = c' -> exists s' calls, dispatches ts s = Some (s', calls) /\
      schedule_loop false bound start c s (u32 n) (map (fun t => start + t) later ++ rest) =
      Some (u32 (n + Z.of_nat (length calls)), s', map snd calls, rest)
  end.
Proof.
  intros He Hlim. induction ts as [|t ts IH]; intros c s l n Hi Hts; cbn [app].
  - intros ->. exists s, []. split; [done|]. cbn [map app]. rewrite Z.add_0_r. unfold schedule_loop.
    destruct rest; by rewrite (proj2 (Z.ltb_ge e bound)) by lia.
  - intros ->. apply Forall_cons in Hts as [Ht Hts]. cbn [dispatches].
    assert (exists r s1 calls1 l1, tt_minimal_dispatcher t s = Some (r, s1, calls1) /\ tt_inv tab limit (length ts) s1 l1 /\
      r = Z.of_nat (length calls1)) as (r & s1 & calls1 & l1 & Ed & Hi1 & ->).
    { destruct (tt_step tab limit (length ts) s l t Hi ltac:(lia)) as [[E _]|(a & u & l0 & s1 & _ & _ & E & _ & Hi1 & _)].
      - exists 0, s, [], l. split_and!; try done. apply (tt_inv_le _ _ (S (length ts))); [exact Hi|lia].
      - by eexists _, _, _, _. }
    rewrite Ed. destruct (ts ++ [e]) as [|c' later] eqn:El; [by destruct ts|].
    assert (0 <= c' < 2 ^ 64) as Hc'.
    { destruct ts as [|t2 ts2]; injection El as <- _; [lia|]. apply Forall_cons in Hts as [? _]. lia. }
    specialize (IH c' s1 l1 (n + Z.of_nat (length calls1)) Hi1 Hts eq_refl) as (s' & calls & E1 & E2). rewrite E1.
    eexists s', _. split; [done|]. cbn [map app schedule_loop]. rewrite (proj2 (Z.ltb_lt t bound)) by lia. rewrite Ed. cbn [orb].
    rewrite u64_elapsed by done. replace (u32 (u32 n + Z.of_nat (length calls1))) with (u32 (n + Z.of_nat (length calls1)))
      by (unfold u32; by rewrite Zplus_mod_idemp_l).
    rewrite E2. rewrite map_app, length_app, length_map, map_map, map_id. do 5 f_equal. lia.
Qed.

(** the schedule loop ends and is the dispatcher at the times of the clock.
    When the clock, read relative to the first reading, shows times below
    [noLoops] hyper periods and then one that is not, tt_minimal_schedule_loop
    returns after that reading; it has called the dispatcher once for every
    reading before, and returns the number of executed tasks. *)
Theorem tt_loop_returns tab limit s l noLoops start ts e rest :
  let bound := noLoops * hyper_period s in
  tt_inv tab limit (length ts) s l -> 0 <= bound -> bound <= e < 2 ^ 64 -> bound <= limit < 2 ^ 64 ->
  Forall (fun t => 0 <= t < bound) ts ->
  exists s' calls, dispatches ts s = Some (s', calls) /\
    tt_minimal_schedule_loop noLoops false s (start :: map (fun t => start + t) (ts ++ [e]) ++ rest) =
    Some (u32 (Z.of_nat (length calls)), s', map snd calls, rest).
Proof.
  intros bound Hi Hb He Hl Hts. pose proof (schedule_loop_run tab limit bound start e rest ts He Hl) as H.
  destruct (ts ++ [e]) as [|c later] eqn:El; [by destruct ts|].
  destruct (H c s l 0 Hi Hts eq_refl) as (s' & calls & E1 & E2). exists s', calls. split; [done|]. cbn [map app tt_minimal_schedule_loop].
  assert (0 <= c < 2 ^ 64) by (destruct ts as [|t2 ts2]; injection El as <- _; [lia|apply Forall_cons in Hts as [? _]; lia]).
  rewrite u64_elapsed by done. fold bound. rewrite (u64_small bound) by lia. exact E2.
Qed.

(** Two tasks, inserted as a program does: one with two releases in a hyper
    period of 10, one with one. *)
Module TwoTasks.
Definition blank : MinimalTTTask := mk_tt 0 0 [] 0 0 0 0 0 0 0 0.
Definition t1 := init_minimal_tttask blank 1 5 [2; 7] 2 0.
Definition t2 := init_minimal_tttask blank 2 10 [0] 1 0.
Definition insert (t : MinimalTTTask) (q : queue) : queue :=
  let '(a, q) := create_tttasknode t q in default q (ttschedule_sortedinsert_release a q).
Definition s : MinimalTTSchedule :=
  let s := init_minimal_ttschedule 10 0 ∅ 1 in set_tasks (insert t2 (insert t1 (tasks s))) s.
Definition tab (a : Z) : list Z := if a =? 1 then [2; 7] else [0].
Definition l : list (Z * MinimalTTTask) := [(2, t2); (1, t1)].
Definition ts : list Z := [0; 1; 3; 4; 9; 9; 12; 13; 15].

Lemma two_tasks_hold : holds (tasks s) l.
Proof.
  constructor; [constructor| |vm_compute; reflexivity].
  - vm_compute. reflexivity.
  - change (map_Forall (fun a _ => 0 < a < brk (tasks s)) (nodes (tasks s))). apply (bool_decide_unpack _). vm_compute. reflexivity.
  - apply (bool_decide_unpack _). vm_compute. reflexivity.
  - cbn [is_list l]. split; [vm_compute; reflexivity|]. exists 1. split; [vm_compute; reflexivity|]. split; [done|].
    exists NULL. split; [vm_compute; reflexivity|done].
Qed.

Lemma table_ok_2 : table_ok 10 [2; 7].
Proof.
  constructor; [cbn; lia| |vm_compute; discriminate|vm_compute; discriminate].
  intros i Hi. cbn in Hi. assert (i = 0) as -> by lia. vm_compute. discriminate.
Qed.
Lemma table_ok_1 : table_ok 10 [0].
Proof. constructor; [cbn; lia|cbn; lia|vm_compute; discriminate|vm_compute; discriminate]. Qed.

Lemma two_tasks_inv : tt_inv tab 1000 9 s l.
Proof.
  constructor; [apply two_tasks_hold| |vm_compute; split; [discriminate|reflexivity]|].
  - repeat constructor; vm_compute; discriminate.
  - intros a t [[= -> ->]|[[= -> ->]|?%elem_of_nil]%elem_of_cons]%elem_of_cons; [| |done]; cbn [Z.eqb tab];
      (split; [apply table_ok_1 || apply table_ok_2|]); (split; [|vm_compute; split; [discriminate|reflexivity]]); constructor; try reflexivity; intros j Hj; cbn in Hj.
    + assert (j = 0) as -> by lia. reflexivity.
    + assert (j = 0 \/ j = 1) as [-> | ->] by lia; reflexivity.
Qed.
End TwoTasks.

Lemma tt_executes_schedule_witness : exists s' l' calls,
  dispatches TwoTasks.ts TwoTasks.s = Some (s', calls) /\ tt_inv TwoTasks.tab 1000 0 s' l' /\
  map (fun c => (fst c, fst (snd c), call_release c)) calls = [(0, 2, 0); (3, 1, 2); (9, 1, 7); (12, 2, 10); (13, 1, 12)].
Proof.
  destruct (tt_executes_schedule TwoTasks.tab 1000 TwoTasks.ts TwoTasks.s TwoTasks.l) as (s' & l' & calls & E & Hi & _).
  - apply TwoTasks.two_tasks_inv.
  - apply (bool_decide_unpack _). vm_compute. reflexivity.
  - exists s', l', calls. split; [done|]. split; [done|].
    assert (option_map (fun x => map (fun c => (fst c, fst (snd c), call_release c)) (snd x)) (dispatches TwoTasks.ts TwoTasks.s) =
      Some [(0, 2, 0); (3, 1, 2); (9, 1, 7); (12, 2, 10); (13, 1, 12)]) as H by (vm_compute; reflexivity).
    rewrite E in H. by injection H.
Defined.

Lemma tt_loop_returns_witness : exists s' (calls : list (Z * (Z * MinimalTTTask))),
  tt_minimal_schedule_loop 2 false TwoTasks.s (100 :: map (fun t => 100 + t) (TwoTasks.ts ++ [21]) ++ [130]) = Some (5, s', map snd calls, [130]).
Proof.
  destruct (tt_loop_returns TwoTasks.tab 1000 TwoTasks.s TwoTasks.l 2 100 TwoTasks.ts 21 [130]) as (s' & calls & E1 & E2).
  - apply TwoTasks.two_tasks_inv.
  - vm_compute. discriminate.
  - vm_compute. split; [discriminate|reflexivity].
  - vm_compute. split; [discriminate|reflexivity].
  - apply (bool_decide_unpack _). vm_compute. reflexivity.
  - exists s', calls. rewrite E2. assert (option_map (fun x => length (snd x)) (dispatches TwoTasks.ts TwoTasks.s) = Some 5%nat) as H
      by (vm_compute; reflexivity). rewrite E1 in H. cbn in H. injection H as ->. reflexivity.
Defined.
