(* ===== verification/RmScheduler.v ===== *)
(** RmScheduler: periodic tasks, apps/rmscheduling/rm_minimal_scheduler.c.

    - The schedule is the queue of Tasks.v; the clock (get_time) is the list of
      its readings, and a call of a task's function is recorded with the node
      and the task as the function sees it.
    - calc_hyperperiod has the number of rounds of its endless loop as fuel.
    - Specification: executions of a task are at least a period apart; the hyper
      period is the least common multiple of the periods. *)

From stdpp Require Import base numbers gmap sorting list.
From S2P Require Import Prelude Tasks.

Inductive TaskState := ELECTED | BLOCKED | READY | PASSIVE | NONEXIST.
Record MinimalRMTask := mk_rm {
  state : TaskState; id : Z; period : Z; deadline : Z; wcet : Z; earliest_release : Z; release_time : Z; delta_sum : Z;
  last_release_time : Z; exec_count : Z; overruns : Z; func : Z;
}.
Record MinimalRMSchedule := mk_schedule { hyper_period : Z; start_time : Z; tasks : queue (T := MinimalRMTask) }.

(** The member earliest_release is not set: [new_task] has it. *)
Definition init_minimal_rmtask (new_task : MinimalRMTask) (i p d w earliest f : Z) : MinimalRMTask :=
  mk_rm READY (u16 i) p d (u32 w) (earliest_release new_task) earliest 0 0 0 0 f.
(** [h] and [b] are the allocated memory. *)
Definition init_minimal_rmschedule (hyperperiod num_tasks : Z) (h : gmap Z node) (b : Z) : MinimalRMSchedule :=
  mk_schedule hyperperiod 0 (mk_queue h b NULL NULL 0).
Definition set_tasks (q : queue) (s : MinimalRMSchedule) : MinimalRMSchedule := mk_schedule (hyper_period s) (start_time s) q.

Definition create_rmtasknode : MinimalRMTask -> queue -> Z * queue := create_node.
Definition rmschedule_enqueue : MinimalRMTask -> queue -> option queue := enqueue.
Definition rmschedule_sortedinsert_period : Z -> queue -> option queue := sortedinsert period.
Definition rmschedule_sortedinsert_deadline : Z -> queue -> option queue := sortedinsert deadline.
Definition rmschedule_sortedinsert_release : Z -> queue -> option queue := sortedinsert release_time.
Definition rmschedule_dequeue : queue -> option (Z * queue) := dequeue (T := MinimalRMTask).

(** *** The scheduler *)

(** The task when its function is called. *)
Definition elected (current_time : Z) (t : MinimalRMTask) : MinimalRMTask :=
  mk_rm ELECTED (id t) (period t) (deadline t) (wcet t) (earliest_release t) (u64 (current_time + period t))
    (u64 (delta_sum t + if last_release_time t =? 0 then period t else u64 (current_time - last_release_time t)))
    current_time (exec_count t) (overruns t) (func t).
(** The test for an overrun at the reading [after] of the clock. *)
Definition overrun (start current_time after : Z) (t : MinimalRMTask) : Z :=
  if u64 (exec_count t * period t + deadline t) <? u64 (u64 (after - start) - current_time) then 1 else 0.
(** The task after the call. *)
Definition finished (start current_time after : Z) (t : MinimalRMTask) : MinimalRMTask :=
  let t := mk_rm (state t) (id t) (period t) (deadline t) (wcet t) (earliest_release t) (release_time t) (delta_sum t)
             (last_release_time t) (u32 (exec_count t + 1)) (overruns t) (func t) in
  mk_rm READY (id t) (period t) (deadline t) (wcet t) (earliest_release t) (release_time t) (delta_sum t)
    (last_release_time t) (exec_count t) (u16 (overruns t + overrun start current_time after t)) (func t).

(** The result is 0 or 1, the schedule, the calls and the rest of the
    readings. *)
Definition minimal_rm_scheduler (s : MinimalRMSchedule) (readings : list Z) :
    option (Z * MinimalRMSchedule * list (Z * MinimalRMTask) * list Z) :=
  match readings with
  | [] => None
  | now :: readings =>
      let current_time := u64 (now - start_time s) in
      match find_due (size (nodes (tasks s))) release_time current_time (tasks s) (head (tasks s)) with
      | None => None
      | Some node_itr =>
          match nodes (tasks s) !! node_itr with
          | None => Some (0, s, [], readings)
          | Some n =>
              let t := elected current_time (n_task n) in
              match readings with
              | [] => None
              | after :: readings =>
                  match set_task node_itr (finished (start_time s) current_time after t) (tasks s) with
                  | None => None
                  | Some q =>
                      match rmschedule_dequeue q with
                      | None => None
                      | Some (exec_task, q) =>
                          match rmschedule_sortedinsert_release exec_task q with
                          | None => None
                          | Some q => Some (1, set_tasks q s, [(node_itr, t)], readings)
                          end
                      end
                  end
              end
          end
      end
  end.

(** *** The hyper period *)

(** The loop over the tasks that finds the longest period. *)
Fixpoint max_period (fuel : nat) (q : queue) (node_itr lcm : Z) : option Z :=
  if node_itr =? NULL then Some lcm
  else
    match nodes q !! node_itr, fuel with
    | Some n, S f => max_period f q (n_next n) (if lcm <? period (n_task n) then period (n_task n) else lcm)
    | _, _ => None
    end.
(** The loop over the tasks that counts periods that divide [lcm]. *)
Fixpoint count_divisors (fuel : nat) (q : queue) (node_itr lcm found_lcm : Z) : option Z :=
  if node_itr =? NULL then Some found_lcm
  else
    match nodes q !! node_itr, fuel with
    | Some n, S f => count_divisors f q (n_next n) lcm (if lcm mod period (n_task n) =? 0 then u32 (found_lcm + 1) else 0)
    | _, _ => None
    end.
Fixpoint lcm_loop (fuel : nat) (q : queue) (step lcm found_lcm : Z) : option Z :=
  match count_divisors (S (size (nodes q))) q (head q) lcm found_lcm with
  | None => None
  | Some found_lcm =>
      if found_lcm =? task_count q then Some lcm
      else match fuel with O => None | S f => lcm_loop f q step (u64 (lcm + step)) found_lcm end
  end.
Definition calc_hyperperiod (fuel : nat) (q : queue) (step : Z) : option Z :=
  match max_period (S (size (nodes q))) q (head q) 0 with
  | None => None
  | Some lcm => lcm_loop fuel q step lcm 0
  end.

(** ** The hyper period *)

Definition periods (l : list (Z * MinimalRMTask)) : list Z := map (fun x => period (snd x)) l.
Definition common (ps : list Z) (x : Z) : Prop := Forall (fun p => (p | x)) ps.
(** The number of divisors at the end of the list, with [c] before the list. *)
Fixpoint run_length (ps : list Z) (x c : Z) : Z :=
  match ps with [] => c | p :: ps => run_length ps x (if x mod p =? 0 then c + 1 else 0) end.

Lemma max_period_run q l : forall p fuel m, is_list (nodes q) p l -> (forall a n, nodes q !! a = Some n -> a <> NULL) ->
  (length l <= fuel)%nat -> max_period fuel q p m = Some (fold_left Z.max (periods l) m).
Proof.
  induction l as [|[a t] l IH]; intros p fuel m Hl Hn Hf.
  - cbn in Hl. subst p. by destruct fuel.
  - destruct Hl as [-> (nx & E & Hl)]. cbn in Hf. destruct fuel as [|fuel]; [lia|]. cbn [max_period].
    rewrite (proj2 (Z.eqb_neq a NULL)), E by (by eapply Hn). cbn [n_task n_next]. rewrite (IH nx) by (done || lia).
    cbn [periods map fold_left snd]. f_equal. f_equal. destruct (Z.ltb_spec m (period t)); lia.
Qed.

Lemma count_divisors_run q x l : forall p fuel c, is_list (nodes q) p l -> (forall a n, nodes q !! a = Some n -> a <> NULL) ->
  (length l <= fuel)%nat -> 0 <= c -> c + Z.of_nat (length l) < 2 ^ 32 ->
  count_divisors fuel q p x c = Some (run_length (periods l) x c).
Proof.
  induction l as [|[a t] l IH]; intros p fuel c Hl Hn Hf Hc Hu.
  - cbn in Hl. subst p. by destruct fuel.
  - destruct Hl as [-> (nx & E & Hl)]. cbn [length] in Hf, Hu. destruct fuel as [|fuel]; [lia|]. cbn [count_divisors].
    rewrite (proj2 (Z.eqb_neq a NULL)), E by (by eapply Hn). cbn [n_task n_next periods map run_length snd].
    destruct (x mod period t =? 0); [rewrite u32_small by lia|]; apply IH; (done || lia).
Qed.

Lemma run_length_common ps x : forall c, common ps x -> run_length ps x c = c + Z.of_nat (length ps).
Proof.
  induction ps as [|p ps IH]; intros c Hc; cbn [run_length length]; [lia|]. apply Forall_cons in Hc as [Hp Hc].
  rewrite (proj2 (Z.eqb_eq (x mod p) 0)) by (destruct (decide (p = 0)) as [->|]; [destruct Hp as [z ->]; by rewrite Z.mul_0_r|by apply Z.mod_divide]).
  rewrite IH by done. lia.
Qed.
Lemma run_length_bound ps x : forall c, 0 <= c -> 0 <= run_length ps x c <= c + Z.of_nat (length ps).
Proof. induction ps as [|p ps IH]; intros c Hc; cbn [run_length length]; [lia|]. case_match; [specialize (IH (c + 1))|specialize (IH 0)]; lia. Qed.
(** Some period does not divide [x]. *)
Lemma run_length_other ps x : Forall (fun p => 0 < p) ps -> ~ common ps x -> forall c, 0 <= c -> 0 <= run_length ps x c < Z.of_nat (length ps).
Proof.
  induction 1 as [|p ps Hp Hps IH]; intros Hn c Hc; [destruct Hn; constructor|]. cbn [run_length length].
  destruct (Z.eqb_spec (x mod p) 0) as [E|E].
  - assert (~ common ps x) as Hn' by (intros H; apply Hn; constructor; [apply Z.mod_divide; lia|done]). specialize (IH Hn' (c + 1) ltac:(lia)). lia.
  - pose proof (run_length_bound ps x 0 ltac:(lia)). lia.
Qed.
(** The last period does not divide [x]: the count starts anew. *)
Lemma run_length_last ps p x c : 0 < p -> ~ (p | x) -> run_length (ps ++ [p]) x c = 0.
Proof.
  intros Hp Hx. revert c. induction ps as [|q ps IH]; intros c; cbn; [|apply IH].
  rewrite (proj2 (Z.eqb_neq _ _)); [done|]. rewrite Z.mod_divide by lia. done.
Qed.

Section Hyper.
Context (q : queue (T := MinimalRMTask)) (l : list (Z * MinimalRMTask)) (step : Z).
Context (Hq : holds q l) (Hlen : Z.of_nat (length l) < 2 ^ 31).

Lemma count_run x c : 0 <= c < 2 ^ 31 -> count_divisors (S (size (nodes q))) q (head q) x c = Some (run_length (periods l) x c).
Proof.
  intros Hc. pose proof Hq as [Hwf Hl _]. pose proof (list_fits _ _ _ Hl (wh_nodup _ _ Hwf)).
  apply count_divisors_run; try lia; [done|]. intros a n. by eapply null_free.
Qed.
Lemma hyper_start : max_period (S (size (nodes q))) q (head q) 0 = Some (fold_left Z.max (periods l) 0).
Proof.
  pose proof Hq as [Hwf Hl _]. pose proof (list_fits _ _ _ Hl (wh_nodup _ _ Hwf)).
  apply max_period_run; [done| |lia]. intros a n. by eapply null_free.
Qed.
Lemma hyper_count : task_count q = Z.of_nat (length l).
Proof. rewrite (ho_count _ _ Hq). apply u32_small. lia. Qed.

Lemma lcm_loop_run ps p : periods l = ps ++ [p] -> Forall (fun p => 0 < p) (periods l) -> ~ (p | step) -> 0 < step ->
  forall d fuel x c, (d <= fuel)%nat -> 0 <= x -> x + Z.of_nat d * step < 2 ^ 64 -> common (periods l) (x + Z.of_nat d * step) ->
  (forall e, (e < d)%nat -> ~ common (periods l) (x + Z.of_nat e * step)) ->
  (common (periods l) x -> c = 0) -> 0 <= c < 2 ^ 31 -> lcm_loop fuel q step x c = Some (x + Z.of_nat d * step).
Proof.
  intros Ep Hpos Hp Hst. assert (length (periods l) = length l) as Hll by apply length_map.
  induction d as [|d IH]; intros fuel x c Hf Hx Hu Hc Hleast Hc0 Hcb.
  - replace (x + Z.of_nat 0 * step) with x in * by lia. destruct fuel; cbn [lcm_loop]; rewrite count_run, hyper_count by done;
      rewrite run_length_common, Hll, (Hc0 Hc) by done; by rewrite Z.eqb_refl.
  - destruct fuel as [|fuel]; [lia|]. cbn [lcm_loop]. rewrite count_run, hyper_count by done.
    assert (~ common (periods l) x) as Hn by (specialize (Hleast 0%nat ltac:(lia)); by replace (x + Z.of_nat 0 * step) with x in Hleast by lia).
    pose proof (run_length_other _ _ Hpos Hn c ltac:(lia)). rewrite (proj2 (Z.eqb_neq _ _)) by lia. rewrite u64_small by nia.
    replace (x + Z.of_nat (S d) * step) with (x + step + Z.of_nat d * step) in * by lia.
    apply IH; [lia|lia|done|done| | |lia].
    + intros e He. specialize (Hleast (S e) ltac:(lia)). by replace (x + step + Z.of_nat e * step) with (x + Z.of_nat (S e) * step) by lia.
    + intros Hcx. rewrite Ep in Hcx, Hpos |- *. apply Forall_app in Hcx as [_ [Hpx _]%Forall_cons]. apply Forall_app in Hpos as [_ [Hp0 _]%Forall_cons].
      apply run_length_last; [exact Hp0|]. intros Hd. apply Hp. replace step with (x + step - x) by lia. by apply Z.divide_sub_r.
Qed.

End Hyper.

Definition lcm_all (ps : list Z) : Z := fold_right Z.lcm 1 ps.
Lemma lcm_all_common ps : common ps (lcm_all ps).
Proof.
  induction ps as [|p ps IH]; [constructor|]. cbn. constructor; [apply Z.divide_lcm_l|]. eapply Forall_impl; [exact IH|].
  intros z Hz. etrans; [exact Hz|]. apply Z.divide_lcm_r.
Qed.
Lemma lcm_all_least ps x : common ps x -> (lcm_all ps | x).
Proof. induction 1 as [|p ps Hp _ IH]; cbn; [apply Z.divide_1_l|]. by apply Z.lcm_least. Qed.
Lemma lcm_all_pos ps : Forall (fun p => 0 < p) ps -> 0 < lcm_all ps.
Proof.
  induction 1 as [|p ps Hp _ IH]; cbn; [lia|]. pose proof (Z.lcm_nonneg p (lcm_all ps)).
  assert (Z.lcm p (lcm_all ps) <> 0) by (rewrite Z.lcm_eq_0; lia). unfold lcm_all in *. lia.
Qed.
Lemma fold_max_in ps : forall m, fold_left Z.max ps m = m \/ fold_left Z.max ps m ∈ ps.
Proof.
  induction ps as [|p ps IH]; intros m; cbn; [by left|]. destruct (IH (Z.max m p)) as [E|Hin]; [|right; by right].
  rewrite E. destruct (Z.max_spec m p) as [[_ ->]|[_ ->]]; [right; by left|by left].
Qed.
Lemma fold_max_ge ps : forall m, m <= fold_left Z.max ps m.
Proof. induction ps as [|p ps IH]; intros m; cbn; [lia|]. specialize (IH (Z.max m p)). lia. Qed.

(** The hyper period.  When the step divides the longest period and the
    period of the last task does not divide the step, calc_hyperperiod ends and
    returns the least common multiple of the periods; the number of rounds is
    the distance from the longest period in steps. *)
Theorem calc_hyperperiod_correct q l step fuel a t :
  let ps := periods (l ++ [(a, t)]) in let top := fold_left Z.max ps 0 in
  holds q (l ++ [(a, t)]) -> Z.of_nat (length l) < 2 ^ 31 - 1 -> Forall (fun p => 0 < p) ps ->
  0 < step -> (step | top) -> ~ (period t | step) -> lcm_all ps < 2 ^ 64 -> (lcm_all ps - top) / step <= Z.of_nat fuel ->
  calc_hyperperiod fuel q step = Some (lcm_all ps).
Proof.
  intros ps top Hq Hlen Hpos Hs Hst Hp Hu Hf. unfold calc_hyperperiod. rewrite (hyper_start _ _ Hq). fold ps top.
  assert (periods (l ++ [(a, t)]) = periods l ++ [period t]) as Ep by (unfold periods; by rewrite map_app).
  pose proof (lcm_all_pos ps Hpos) as HL. assert (top ∈ ps) as Hin.
  { destruct (fold_max_in ps 0) as [E|?]; [|done]. exfalso. assert (period t <= top) as Ht.
    { unfold top, ps. rewrite Ep, fold_left_app. cbn. lia. }
    unfold ps in Hpos. rewrite Ep in Hpos. apply Forall_app in Hpos as [_ [Hpt _]%Forall_cons]. unfold top in Ht. lia. }
  assert (0 < top) as Htop by (by apply (proj1 (Forall_forall _ _) Hpos)).
  assert ((top | lcm_all ps)) as HtL by (by apply (proj1 (Forall_forall _ _) (lcm_all_common ps))).
  assert (top <= lcm_all ps) as HleL by (by apply Z.divide_pos_le).
  assert ((step | lcm_all ps - top)) as [k Hk] by (apply Z.divide_sub_r; [by etrans|done]).
  assert (0 <= k) as Hk0 by nia. rewrite Hk, Z.div_mul in Hf by lia.
  assert (lcm_all ps = top + Z.of_nat (Z.to_nat k) * step) as EL by (rewrite Z2Nat.id by done; lia).
  rewrite EL. apply (lcm_loop_run q _ step Hq) with (ps := periods l) (p := period t); try done; rewrite <- ?EL; try lia.
  - rewrite length_app. cbn. lia.
  - apply lcm_all_common.
  - intros e He Hce. assert (0 <= Z.of_nat e * step) by nia.
    pose proof (Z.divide_pos_le (lcm_all ps) (top + Z.of_nat e * step) ltac:(lia) (lcm_all_least _ _ Hce)) as Hge. nia.
Qed.

(** A hyper period that is missed.  found_lcm is not reset between
    candidates.  With the periods 700 and 1000 and the step 1000, the second
    period divides every candidate, the count before a common multiple is never
    0, and calc_hyperperiod does not stop at 7000 or any other common multiple
    as long as its 64-bit variable does not overflow. *)
Theorem calc_hyperperiod_misses q a t b u fuel : holds q [(a, t); (b, u)] -> period t = 700 -> period u = 1000 ->
  1000 * (Z.of_nat fuel + 2) < 2 ^ 64 -> calc_hyperperiod fuel q 1000 = None.
Proof.
  intros Hq Ht Hu Hf. unfold calc_hyperperiod. rewrite (hyper_start _ _ Hq). unfold periods. cbn [map snd fold_left]. rewrite Ht, Hu.
  change (Z.max (Z.max 0 700) 1000) with (1000 * 1).
  assert (forall fuel k c, 1 <= k -> 1000 * (k + Z.of_nat fuel + 1) < 2 ^ 64 ->
    (c = 0 /\ (1000 * k) mod 700 <> 0) \/ c = 1 \/ (c = 3 /\ (1000 * k) mod 700 <> 0) -> lcm_loop fuel q 1000 (1000 * k) c = None) as Hloop.
  2:{ apply Hloop; [lia|lia|by left]. }
  clear fuel Hf. intros fuel. induction fuel as [|fuel IH]; intros k c Hk Hb Hc; cbn [lcm_loop];
    rewrite (count_run _ _ Hq), (hyper_count _ _ Hq) by (cbn; lia); unfold periods; cbn [map snd run_length length]; rewrite Ht, Hu;
    rewrite (proj2 (Z.eqb_eq ((1000 * k) mod 1000) 0)) by (by rewrite Z.mul_comm, Z.mod_mul);
    (destruct (Z.eqb_spec ((1000 * k) mod 700) 0) as [E|E]; [destruct Hc as [[_ ?]|[->|[_ ?]]]; [done| |done]|]); try done.
  - change (1 + 1 + 1 =? Z.of_nat 2) with false. cbv iota. rewrite u64_small by lia. replace (1000 * k + 1000) with (1000 * (k + 1)) by lia.
    apply IH; [lia|lia|]. right. right. split; [done|]. Z.div_mod_to_equations. lia.
  - change (0 + 1 =? Z.of_nat 2) with false. cbv iota. rewrite u64_small by lia. replace (1000 * k + 1000) with (1000 * (k + 1)) by lia.
    apply IH; [lia|lia|]. right. by left.
Qed.

(** ** The scheduler *)

Definition sorted (l : list (Z * MinimalRMTask)) : Prop := StronglySorted (by_key release_time) l.

Record rm_inv (limit : Z) (s : MinimalRMSchedule) (l : list (Z * MinimalRMTask)) : Prop := {
  ri_holds : holds (tasks s) l;
  ri_sorted : sorted l;
  ri_limit : 0 <= limit < 2 ^ 64;
  ri_period a t : (a, t) ∈ l -> 0 < period t /\ limit + period t < 2 ^ 64;
}.

Lemma rm_step limit s l now after readings : rm_inv limit s l -> 0 <= now <= limit ->
  let start := start_time s in
  (minimal_rm_scheduler s (start + now :: after :: readings) = Some (0, s, [], after :: readings) /\
   Forall (fun x => now < release_time (snd x)) l) \/
  exists a t l0 s', l = (a, t) :: l0 /\ release_time t <= now /\
    minimal_rm_scheduler s (start + now :: after :: readings) = Some (1, s', [(a, elected now t)], readings) /\ start_time s' = start /\
    rm_inv limit s' (insert_by release_time (a, finished start now after (elected now t)) l0) /\
    release_time (elected now t) = now + period t.
Proof.
  intros Hi Hnow start. pose proof Hi as [Hq Hs Hlim Hp]. pose proof Hq as [Hwf Hl _]. unfold minimal_rm_scheduler. fold start.
  replace (start + now - start) with now by lia. rewrite u64_small by lia.
  assert (Forall (fun x => now < release_time (snd x)) l -> find_due (size (nodes (tasks s))) release_time now (tasks s) (head (tasks s)) = Some NULL) as Hidle.
  { intros Hall. pose proof (list_fits _ _ _ Hl (wh_nodup _ _ Hwf)). apply (find_due_none _ _ _ l); try done. intros a n. by eapply null_free. }
  assert (nodes (tasks s) !! NULL = None) as Hnull by (apply eq_None_not_Some; intros [n E]; by apply (null_free _ _ _ _ Hwf) in E).
  destruct l as [|[a t] l0]; [left; rewrite Hidle, Hnull by done; done|].
  pose proof Hs as [Hs0 Hle]%StronglySorted_inv. destruct (decide (release_time t <= now)) as [Hd|Hd].
  - right. pose proof Hl as [Eh (nx & Ea & _)]. rewrite Eh, (find_due_head release_time now _ a t nx) by (done || by eapply null_free).
    rewrite Ea. cbn [n_task].
    destruct (reinsert_holds release_time a t (finished start now after (elected now t)) _ _ Hq) as (q1 & q2 & q3 & -> & E2 & E3 & H3).
    unfold rmschedule_dequeue. rewrite E2. unfold rmschedule_sortedinsert_release. rewrite E3.
    destruct (Hp a t ltac:(by left)) as [Hp0 Hp1]. exists a, t, l0, (set_tasks q3 s). split_and!; try done.
    + constructor; [done|by apply insert_by_sorted|done|]. intros b u. rewrite insert_by_perm.
      intros [[= -> ->]|Hin]%elem_of_cons; [done|apply (Hp b u); by right].
    + cbn. apply u64_small. lia.
  - left. assert (Forall (fun x => now < release_time (snd x)) ((a, t) :: l0)) as Hall.
    { constructor; [cbn; lia|]. eapply Forall_impl; [exact Hle|]. unfold by_key. cbn. intros x. lia. }
    rewrite (Hidle Hall), Hnull. done.
Qed.

(** [n] calls of the scheduler. *)
Fixpoint rm_calls (n : nat) (s : MinimalRMSchedule) (readings : list Z) : option (MinimalRMSchedule * list (Z * MinimalRMTask) * list Z) :=
  match n with
  | O => Some (s, [], readings)
  | S n =>
      match minimal_rm_scheduler s readings with
      | None => None
      | Some (_, s, calls, readings) =>
          match rm_calls n s readings with
          | None => None
          | Some (s, calls', readings) => Some (s, calls ++ calls', readings)
          end
      end
  end.

(** The times at which the task at [a] is executed. *)
Definition times_of (a : Z) (calls : list (Z * MinimalRMTask)) : list Z :=
  map (fun c => last_release_time (snd c)) (filter (fun c => fst c = a) calls).

Lemma rm_calls_run limit n : forall s l readings, rm_inv limit s l -> (2 * n <= length readings)%nat ->
  Forall (fun r => start_time s <= r <= start_time s + limit) readings ->
  exists s' l' calls rest, rm_calls n s readings = Some (s', calls, rest) /\ rm_inv limit s' l' /\ map fst l' ≡ₚ map fst l /\
    forall a t, (a, t) ∈ l -> StronglySorted (fun x y => x + period t <= y) (times_of a calls) /\
      Forall (fun x => release_time t <= x) (times_of a calls).
Proof.
  induction n as [|n IH]; intros s l readings Hi Hn Hr.
  - exists s, l, [], readings. split_and!; try done. intros a t _. split; constructor.
  - destruct readings as [|r [|after readings]]; cbn in Hn; [lia|lia|]. apply Forall_cons in Hr as [Hr0 Hr]. cbn [rm_calls].
    replace r with (start_time s + (r - start_time s)) by lia. set (now := r - start_time s).
    destruct (rm_step limit s l now after readings Hi) as [[-> _]|(a & t & l0 & s1 & -> & Hd & -> & Es & Hi1 & Er)]; [lia| |].
    + destruct (IH s l (after :: readings) Hi) as (s' & l' & calls & rest & -> & H); [cbn; lia|done|]. by exists s', l', calls, rest.
    + apply Forall_cons in Hr as [_ Hr].
      destruct (IH s1 _ readings Hi1) as (s' & l' & calls & rest & -> & Hi' & Hperm & Hc); [lia|by rewrite Es|].
      exists s', l', ((a, elected now t) :: calls), rest. split; [done|]. split; [done|].
      split; [by rewrite Hperm, insert_by_perm|]. intros b u Hin. unfold times_of. rewrite filter_cons. cbn [fst].
      apply elem_of_cons in Hin as [[= -> ->]|Hin].
      * rewrite decide_True by done. cbn [map snd last_release_time elected]. pose proof (Hc a _ ltac:(rewrite insert_by_perm; by left)) as [Hc1 Hc2].
        cbn [period finished elected release_time] in Hc1, Hc2. cbn [elected release_time] in Er. rewrite Er in Hc2.
        pose proof (ri_period _ _ _ Hi a t ltac:(by left)). split.
        -- by constructor.
        -- constructor; [done|]. eapply Forall_impl; [exact Hc2|]. cbn. intros x. lia.
      * assert (a <> b) as Hab.
        { intros ->. pose proof (wh_nodup _ _ (ho_wf _ _ (ri_holds _ _ _ Hi))) as [Hnin _]%NoDup_cons.
          apply Hnin, list_elem_of_fmap. by exists (b, u). }
        rewrite decide_False by done. apply (Hc b u). rewrite insert_by_perm. by right.
Qed.

(** The scheduler picks by release time.  A call of minimal_rm_scheduler at
    a time at which no task is due executes none and changes nothing; otherwise
    it executes the task with the earliest release time, whatever its period,
    once, with its next release a period after now, and the tasks stay in the
    order of their release times. *)
Theorem rm_earliest_release limit s l now after readings : rm_inv limit s l -> 0 <= now <= limit ->
  let start := start_time s in
  (minimal_rm_scheduler s (start + now :: after :: readings) = Some (0, s, [], after :: readings) /\
   Forall (fun x => now < release_time (snd x)) l) \/
  exists a t l0 l' s', l ≡ₚ (a, t) :: l0 /\ release_time t <= now /\ Forall (fun x => release_time t <= release_time (snd x)) l /\
    minimal_rm_scheduler s (start + now :: after :: readings) = Some (1, s', [(a, elected now t)], readings) /\
    release_time (elected now t) = now + period t /\ rm_inv limit s' l' /\
    l' ≡ₚ (a, finished start now after (elected now t)) :: l0.
Proof.
  intros Hi Hnow start. destruct (rm_step limit s l now after readings Hi Hnow) as [H|(a & t & l0 & s1 & -> & Hd & E & _ & Hi1 & Er)]; [by left|].
  right. exists a, t, l0. eexists _, s1. split_and!; try done; [|apply insert_by_perm].
  pose proof (ri_sorted _ _ _ Hi) as [_ Hle]%StronglySorted_inv. constructor; [done|exact Hle].
Qed.

(** C27: periodic execution.  In every sequence of calls of the scheduler each
    task is executed only at or after its release time and its executions are
    at least a period apart; no task is lost, and the calls return. *)
Theorem rm_periods_kept limit n s l readings : rm_inv limit s l -> (2 * n <= length readings)%nat ->
  Forall (fun r => start_time s <= r <= start_time s + limit) readings ->
  exists s' l' calls rest, rm_calls n s readings = Some (s', calls, rest) /\ rm_inv limit s' l' /\ map fst l' ≡ₚ map fst l /\
    forall a t, (a, t) ∈ l -> StronglySorted (fun x y => x + period t <= y) (times_of a calls) /\
      Forall (fun x => release_time t <= x) (times_of a calls).
Proof. apply rm_calls_run. Qed.

(** Two tasks as a program enqueues them, the one with the longer period
    first. *)
Module TwoPeriods.
Definition blank : MinimalRMTask := mk_rm READY 0 0 0 0 0 0 0 0 0 0 0.
Definition slow := init_minimal_rmtask blank 1 50 50 1 3 0.
Definition quick := init_minimal_rmtask blank 2 8 8 1 5 0.
Definition empty : queue := tasks (init_minimal_rmschedule 0 2 ∅ 1).
Definition two (t u : MinimalRMTask) : queue :=
  default empty (match rmschedule_enqueue t empty with Some q => rmschedule_enqueue u q | None => None end).
Lemma two_holds t u : holds (two t u) [(1, t); (2, u)].
Proof.
  assert (holds empty []) as H0 by (constructor; [constructor; [done|intros a n E; change ((∅ : gmap Z node) !! a = Some n) in E; by rewrite lookup_empty in E|constructor]|done|done]).
  destruct (enqueue_holds t empty [] H0) as (q1 & E1 & H1 & T1); [done|].
  destruct (enqueue_holds u q1 _ H1 T1) as (q2 & E2 & H2 & _). unfold two, rmschedule_enqueue. rewrite E1, E2. cbn [default from_option].
  assert (brk q1 = 2) as Eb by (unfold enqueue in E1; cbn in E1; by injection E1 as <-). rewrite Eb in H2. exact H2.
Qed.
Definition s : MinimalRMSchedule := mk_schedule 0 100 (two slow quick).
Definition l : list (Z * MinimalRMTask) := [(1, slow); (2, quick)].
Lemma two_periods_inv : rm_inv 1000 s l.
Proof.
  constructor; [apply two_holds| |lia|].
  - repeat constructor; vm_compute; discriminate.
  - intros a t [[= -> ->]|[[= -> ->]|?%elem_of_nil]%elem_of_cons]%elem_of_cons; [| |done]; vm_compute; by split.
Qed.
End TwoPeriods.

(** Both tasks are due, and the one with the longer period is executed. *)
Lemma rm_earliest_release_witness : exists a t s', period t = 50 /\
  minimal_rm_scheduler TwoPeriods.s [106; 107; 200] = Some (1, s', [(a, elected 6 t)], [200]).
Proof.
  destruct (rm_earliest_release 1000 TwoPeriods.s TwoPeriods.l 6 107 [200]) as [[_ H]|(a & t & l0 & l' & s' & Hp & _ & Hle & E & _)];
    [apply TwoPeriods.two_periods_inv|lia| |].
  - apply Forall_cons in H as [H _]. vm_compute in H. discriminate.
  - exists a, t, s'. split; [|exact E]. assert ((a, t) ∈ TwoPeriods.l) as Hin by (rewrite Hp; by left). apply elem_of_cons in Hin as [[= -> ->]|[[= -> ->]|?%elem_of_nil]%elem_of_cons]; [done| |done].
    apply Forall_cons in Hle as [H _]. vm_compute in H. by destruct H.
Defined.

Lemma rm_periods_kept_witness : exists s' calls rest,
  rm_calls 5 TwoPeriods.s [101; 106; 107; 108; 109; 111; 130; 131; 140; 141] = Some (s', calls, rest) /\
  times_of 1 calls = [6] /\ times_of 2 calls = [8; 30].
Proof.
  destruct (rm_periods_kept 1000 5 TwoPeriods.s TwoPeriods.l [101; 106; 107; 108; 109; 111; 130; 131; 140; 141]) as (s' & l' & calls & rest & E & _).
  - apply TwoPeriods.two_periods_inv.
  - vm_compute. repeat constructor.
  - apply (bool_decide_unpack _). vm_compute. reflexivity.
  - exists s', calls, rest. split; [exact E|].
    assert (option_map (fun x => (times_of 1 (snd (fst x)), times_of 2 (snd (fst x))))
      (rm_calls 5 TwoPeriods.s [101; 106; 107; 108; 109; 111; 130; 131; 140; 141]) = Some ([6], [8; 30])) as H by (vm_compute; reflexivity).
    rewrite E in H. cbn [option_map fst snd] in H. injection H as H1 H2. split; [exact H1|exact H2].
Defined.

Lemma calc_hyperperiod_correct_witness : calc_hyperperiod 15 (TwoPeriods.two TwoPeriods.slow TwoPeriods.quick) 10 = Some 200.
Proof.
  apply (calc_hyperperiod_correct (TwoPeriods.two TwoPeriods.slow TwoPeriods.quick) [(1, TwoPeriods.slow)] 10 15 2 TwoPeriods.quick).
  - apply TwoPeriods.two_holds.
  - vm_compute. reflexivity.
  - apply (bool_decide_unpack _). vm_compute. reflexivity.
  - lia.
  - by exists 5.
  - change (~ (8 | 10)). intros [k Hk]. lia.
  - vm_compute. reflexivity.
  - vm_compute. discriminate.
Defined.
Lemma calc_hyperperiod_misses_witness :
  let t p := init_minimal_rmtask TwoPeriods.blank 1 p p 1 0 0 in calc_hyperperiod 20 (TwoPeriods.two (t 700) (t 1000)) 1000 = None.
Proof. intros t. apply (calc_hyperperiod_misses _ 1 (t 700) 2 (t 1000)); [apply TwoPeriods.two_holds|done|done|cbn; lia]. Defined.
