(* ===== verification/Dsp.v ===== *)
(** Dsp: the fixed-point filters of libaudio/dsp_algorithms.c.

    - Samples are stereo pairs of 16-bit numbers in the format Q.15; the
      channels go through the same computation ([stereo]).  An array [n][2] or
      [2][n] of samples is a list of pairs.
    - Accumulators are 32-bit numbers: every sum and product is cut to 32 bits
      ([s32]) and every stored sample to 16 bits ([s16]).
    - The code reads and writes arrays with [rd_smp], [wr_smp], [rd_tab] and
      [wr_tab], the operations of [Arrays], of which only accesses inside of
      the array are known; [smp] and [put_smp] are the list functions for the
      specifications.
    - A ring buffer whose pointer moves down stands for the list of its contents
      from the newest to the oldest ([view]). *)

From stdpp Require Import base numbers list.
From S2P Require Import Prelude.

Definition sample : Type := Z * Z.
(** Channel [c] of a sample, 0 or 1. *)
Definition ch (c : Z) (s : sample) : Z := if c =? 0 then fst s else snd s.
Definition stereo (f : Z -> Z) : sample := (f 0, f 1).
Definition smp (l : list sample) (i : Z) : sample := nth (Z.to_nat i) l (0, 0).
Definition put_smp (i : Z) (s : sample) (l : list sample) : list sample := <[Z.to_nat i := s]> l.

(** ** Arrays *)

(** The accesses of the code.  Inside of an array they are those of a list; of
    an access outside, and of a division by 0, nothing is known.  C divides
    towards 0. *)
Class Arrays := {
  rd_smp : list sample -> Z -> sample;
  wr_smp : Z -> sample -> list sample -> list sample;
  rd_tab : list Z -> Z -> Z;
  wr_tab : Z -> Z -> list Z -> list Z;
  div_c : Z -> Z -> Z;
  rd_smp_in : forall l i, 0 <= i < Z.of_nat (length l) -> rd_smp l i = smp l i;
  wr_smp_in : forall i s l, 0 <= i < Z.of_nat (length l) -> wr_smp i s l = put_smp i s l;
  rd_tab_in : forall l i, 0 <= i < Z.of_nat (length l) -> rd_tab l i = at_ l i;
  wr_tab_in : forall i v l, 0 <= i < Z.of_nat (length l) -> wr_tab i v l = <[Z.to_nat i := v]> l;
  div_c_in : forall a b, b <> 0 -> div_c a b = Z.quot a b;
}.

(** Lists everywhere: outside an access reads 0 and stores nothing. *)
Definition lists : Arrays :=
  Build_Arrays smp put_smp at_ (fun i v l => <[Z.to_nat i := v]> l) Z.quot
    (fun _ _ _ => eq_refl) (fun _ _ _ _ => eq_refl) (fun _ _ _ => eq_refl) (fun _ _ _ _ => eq_refl) (fun _ _ _ => eq_refl).

(** ** The filters *)

Section Filters.
Context {AR : Arrays}.

Definition ONE_16b := 0x7FFF.

(** (a*b) >> 2 *)
Definition scaled (a b : Z) : Z := Z.shiftr (s32 (a * b)) 2.
(** The digital saturation. *)
Definition saturate (a : Z) : Z := if 0x7FFFFFF <? a then 0x7FFFFFF else if a <? - 0x8000000 then - 0x8000000 else a.

(** The sums of an IIR filter with [n] coefficients. *)
Definition iir_sum (n pnt_i : Z) (x y : list sample) (B A : list Z) (c : Z) : Z :=
  for_up (Z.to_nat n) 0 1 (fun i accum =>
    let pnt := (pnt_i + i + 1) mod n in
    s32 (s32 (accum + scaled (rd_tab B i) (ch c (rd_smp x pnt))) - scaled (rd_tab A i) (ch c (rd_smp y pnt)))) 0.
Definition iir_out (shiftLeft : Z) (accum : sample) : sample := stereo (fun c => s16 (Z.shiftr (ch c accum) (13 - shiftLeft))).

(** The results are accum and y. *)
Definition filterIIR_1st (pnt_i : Z) (x y : list sample) (B A : list Z) (shiftLeft : Z) : sample * list sample :=
  let accum := stereo (fun c => saturate (iir_sum 2 pnt_i x y B A c)) in
  (accum, wr_smp pnt_i (iir_out shiftLeft accum) y).
Definition filterIIR_2nd (pnt_i : Z) (x y : list sample) (B A : list Z) (shiftLeft : Z) : sample * list sample :=
  let accum := stereo (fun c => saturate (iir_sum 3 pnt_i x y B A c)) in
  (accum, wr_smp pnt_i (iir_out shiftLeft accum) y).

(** The results are y and the buffer. *)
Definition allpass_comb (AP_BUF_LEN pnt : Z) (ap_buffer : list sample) (x : sample) (g : Z) : sample * list sample :=
  let ap_pnt := (pnt + AP_BUF_LEN - 1) mod AP_BUF_LEN in
  let y := stereo (fun i => s16 (ch i (rd_smp ap_buffer ap_pnt) - Z.shiftr (ch i x * g) 15)) in
  let accum := stereo (fun i =>
    let a := Z.shiftr (ch i y * g) 15 + ch i x in
    if ONE_16b <? a then ONE_16b else if a <? - ONE_16b then - ONE_16b else a) in
  (y, wr_smp pnt accum ap_buffer).

(** The sum of the delayed samples with [n] gains; the results of the filters
    are accum and y. *)
Definition comb_sum (n len pnt : Z) (audio_buffer : list sample) (g del : list Z) (c : Z) : Z :=
  for_up (Z.to_nat n) 0 1 (fun i accum =>
    s32 (accum + scaled (rd_tab g i) (ch c (rd_smp audio_buffer ((pnt + rd_tab del i) mod len))))) 0.
Definition comb_out (accum : sample) : sample := stereo (fun c => s16 (Z.shiftr (ch c accum) 13)).
Definition combFilter_1st (AUDIO_BUF_LEN pnt : Z) (audio_buffer : list sample) (g del : list Z) : sample * sample :=
  let accum := stereo (fun c => saturate (comb_sum 2 AUDIO_BUF_LEN pnt audio_buffer g del c)) in (accum, comb_out accum).
Definition combFilter_2nd (AUDIO_BUF_LEN pnt : Z) (audio_buffer : list sample) (g del : list Z) : sample * sample :=
  let accum := stereo (fun c => saturate (comb_sum 3 AUDIO_BUF_LEN pnt audio_buffer g del c)) in (accum, comb_out accum).
End Filters.

(** ** Numbers *)

Definition is_short (z : Z) : Prop := - 2 ^ 15 <= z < 2 ^ 15.
Definition short_pair (s : sample) : Prop := is_short (fst s) /\ is_short (snd s).
Definition shorts (l : list sample) : Prop := Forall short_pair l.
#[export] Instance is_short_dec z : Decision (is_short z).
Proof. unfold is_short. apply _. Defined.
#[export] Instance short_pair_dec s : Decision (short_pair s).
Proof. unfold short_pair. apply _. Defined.

Lemma s16_small z : is_short z -> s16 z = z.
Proof. intros H. by apply sext_small. Qed.
Lemma s16_short z : is_short (s16 z).
Proof. unfold s16, is_short, sext. case_match; Z.div_mod_to_equations; lia. Qed.
Lemma ch_short c s : short_pair s -> is_short (ch c s).
Proof. intros []. unfold ch. by case_match. Qed.
Lemma stereo_short f : (forall c, is_short (f c)) -> short_pair (stereo f).
Proof. intros H. split; apply H. Qed.
Lemma smp_short l i : shorts l -> short_pair (smp l i).
Proof.
  intros Hl. unfold smp. rewrite nth_lookup. destruct (l !! Z.to_nat i) eqn:E; cbn; [by eapply Forall_lookup_1|]. by split.
Qed.
Lemma at_short l i : Forall is_short l -> is_short (at_ l i).
Proof. intros Hl. unfold at_. rewrite nth_lookup. destruct (l !! Z.to_nat i) eqn:E; cbn; [by eapply Forall_lookup_1|done]. Qed.

(** The product of two samples, without overflow. *)
Lemma scaled_range a b : is_short a -> is_short b -> scaled a b = a * b / 4 /\ - 2 ^ 28 <= scaled a b <= 2 ^ 28.
Proof.
  unfold is_short. intros Ha Hb. assert (- 2 ^ 30 <= a * b <= 2 ^ 30) by nia. unfold scaled. rewrite s32_small by lia.
  rewrite Z.shiftr_div_pow2 by lia. change (2 ^ 2) with 4. split; [done|]. Z.div_mod_to_equations. lia.
Qed.
Lemma saturate_range a : - 2 ^ 27 <= saturate a < 2 ^ 27.
Proof. unfold saturate. repeat case_match; try lia; rewrite ?Z.ltb_lt, ?Z.ltb_ge in *; lia. Qed.

(** ** Ring buffers *)

(** The pointer moves down. *)
Definition down (len p : Z) : Z := if p =? 0 then len - 1 else p - 1.
Definition view (buf : list sample) (p : Z) : list sample :=
  map (fun d => smp buf ((p + Z.of_nat d) mod Z.of_nat (length buf))) (seq 1 (length buf)).

Lemma smp_put i j s l : 0 <= i < Z.of_nat (length l) -> 0 <= j -> smp (put_smp i s l) j = if decide (i = j) then s else smp l j.
Proof.
  intros Hi Hj. unfold smp, put_smp. rewrite !nth_lookup. case_decide as E; [subst|].
  - by rewrite list_lookup_insert_eq by lia.
  - by rewrite list_lookup_insert_ne by lia.
Qed.
Lemma put_length i s l : length (put_smp i s l) = length l.
Proof. apply length_insert. Qed.
Lemma view_length buf p : length (view buf p) = length buf.
Proof. unfold view. by rewrite length_map, length_seq. Qed.
Lemma view_at buf p d : 0 <= d < Z.of_nat (length buf) -> smp (view buf p) d = smp buf ((p + d + 1) mod Z.of_nat (length buf)).
Proof.
  intros Hd. unfold smp at 1, view. rewrite nth_lookup, list_lookup_fmap.
  rewrite lookup_seq_lt by lia. cbn [fmap option_fmap option_map from_option default].
  replace (Z.of_nat (1 + Z.to_nat d)) with (d + 1) by lia. by rewrite Z.add_assoc.
Qed.

Lemma ring_read buf p x d : 0 <= p < Z.of_nat (length buf) -> 0 <= d < Z.of_nat (length buf) ->
  smp (put_smp p x buf) ((p + d) mod Z.of_nat (length buf)) = if decide (d = 0) then x else smp (view buf p) (d - 1).
Proof.
  intros Hp Hd. set (n := Z.of_nat (length buf)) in *. pose proof (Z.mod_pos_bound (p + d) n ltac:(lia)).
  rewrite smp_put by (fold n; lia). case_decide as E; case_decide as E0; try done.
  - exfalso. destruct (decide (p + d < n)) as [Hlt|Hge]; [rewrite Z.mod_small in E by lia; lia|].
    replace (p + d) with (p + d - n + 1 * n) in E by lia. rewrite Z.mod_add, Z.mod_small in E by lia. lia.
  - subst d. rewrite Z.add_0_r, Z.mod_small in E by lia. done.
  - rewrite view_at by (fold n; lia). fold n. by replace (p + (d - 1) + 1) with (p + d) by lia.
Qed.

Lemma smp_ext l l' : length l = length l' -> (forall i, 0 <= i < Z.of_nat (length l) -> smp l i = smp l' i) -> l = l'.
Proof.
  intros Hl H. apply list_eq. intros i. destruct (decide (i < length l)%nat) as [Hi|Hi].
  - specialize (H (Z.of_nat i) ltac:(lia)). unfold smp in H. rewrite Nat2Z.id, !nth_lookup in H.
    destruct (lookup_lt_is_Some_2 l i Hi) as [a Ea], (lookup_lt_is_Some_2 l' i ltac:(lia)) as [b Eb].
    rewrite Ea, Eb in *. cbn in H. by subst.
  - by rewrite !lookup_ge_None_2 by lia.
Qed.

(** A sample is stored and the pointer moves on. *)
Lemma view_push buf p x : 0 <= p < Z.of_nat (length buf) ->
  view (put_smp p x buf) (down (Z.of_nat (length buf)) p) = x :: take (length buf - 1) (view buf p).
Proof.
  intros Hp. set (n := Z.of_nat (length buf)) in *.
  apply smp_ext; [cbn; rewrite view_length, put_length, length_take, view_length; lia|]. rewrite view_length, put_length. intros i Hi.
  rewrite view_at by (rewrite put_length; done). rewrite put_length. fold n.
  assert ((down n p + i + 1) mod n = (p + i) mod n) as ->.
  { unfold down. destruct (Z.eqb_spec p 0) as [->|]; [|f_equal; lia]. replace (n - 1 + i + 1) with (0 + i + 1 * n) by lia. by rewrite Z.mod_add by lia. }
  unfold n. rewrite ring_read by (fold n; lia). case_decide as E; [by subst i|].
  unfold smp. destruct (Z.to_nat i) as [|k] eqn:Ek; [lia|]. cbn [nth]. rewrite !nth_lookup. rewrite lookup_take_lt by lia.
  do 2 f_equal. lia.
Qed.
Lemma down_range len p : 0 <= p < len -> 0 <= down len p < len.
Proof. unfold down. case_match; rewrite ?Z.eqb_eq, ?Z.eqb_neq in *; lia. Qed.
