(* ===== verification/AudioFx.v ===== *)
(** AudioFx: the effects of libaudio/audio.c.

    - One record per effect with the members of its struct; an audio_ function
      takes the state and an input sample and returns the state and the output
      sample.
    - Coefficients and modulation tables are computed with floating point in
      the C code; they are arguments of the alloc_ functions here.  alloc_
      functions also add the size of the struct to an address; that is not
      part of the model. *)

From stdpp Require Import base numbers list.
From S2P Require Import Prelude Dsp.

Definition Fs := 52083.
Definition VIBRATO_L := 200.
Definition VIBRATO_P := Fs / 4.
Definition DELAY_L := Fs / 4.
Definition CHORUS_P1 := Fs.
Definition CHORUS_P2 := 4 * Fs / 5.
Definition CHORUS_L := 2083.
Definition TREMOLO_P := Fs / 4.
(** (int)(Fs*0.6), (int)(ONE_16b*0.2), (int)(ONE_16b*0.8) *)
Definition WAHWAH_P := Fs * 6 / 10.
Definition WAHWAH_DRY_GAIN := ONE_16b * 2 / 10.
Definition WAHWAH_WET_GAIN := ONE_16b * 8 / 10.

Section Effects.
Context {AR : Arrays}.

Definition audio_dry (x : sample) : sample := x.
(** Eight samples at a time. *)
Definition audio_dry_8samples (xs ys : list sample) : list sample := for_up 8 0 1 (fun i ys => wr_smp i (rd_smp xs i) ys) ys.

(** *** Filters *)

Record Filter := mk_filter {
  f_accum : sample; f_x_buf : list sample; f_y_buf : list sample; f_A : list Z; f_B : list Z;
  f_pnt : Z; f_sftLft : Z; f_type : Z; }.
(** [f] has what was in memory before: the buffers are not cleared. *)
Definition alloc_filter_vars (B A : list Z) (sft thisType : Z) (f : Filter) : Filter :=
  mk_filter (f_accum f) (f_x_buf f) (f_y_buf f) A B 2 sft thisType.
(** BP, BR, or HP and LP. *)
Definition filter_mix (type x y : Z) : Z :=
  if type =? 2 then Z.shiftr (x - y) 1 else if type =? 3 then Z.shiftr (x + y) 1 else y.
Definition audio_filter (f : Filter) (xP : sample) : Filter * sample :=
  let pnt := (f_pnt f + 1) mod 3 in
  let x_buf := wr_smp pnt xP (f_x_buf f) in
  let '(_, y_buf) := filterIIR_2nd pnt x_buf (f_y_buf f) (f_B f) (f_A f) (f_sftLft f) in
  let accum := stereo (fun c => filter_mix (f_type f) (ch c xP) (ch c (rd_smp y_buf pnt))) in
  (mk_filter accum x_buf y_buf (f_A f) (f_B f) pnt (f_sftLft f) (f_type f), stereo (fun c => s16 (ch c accum))).

(** *** Vibrato *)

Record Vibrato := mk_vibrato {
  v_accum : sample; v_del : Z; v_frac : Z; v_pnt_in : Z; v_pnt : Z; v_audio_pnt : Z; v_n_audio_pnt : Z;
  v_audio_buf : list sample; v_sin_array : list Z; v_frac_array : list Z; }.
Definition alloc_vibrato_vars (sin_array frac_array : list Z) (v : Vibrato) : Vibrato :=
  mk_vibrato (v_accum v) (v_del v) (v_frac v) (VIBRATO_L - 1) 0 (v_audio_pnt v) (v_n_audio_pnt v)
    (replicate (Z.to_nat VIBRATO_L) (0, 0)) sin_array frac_array.
Definition audio_vibrato (v : Vibrato) (xP : sample) : Vibrato * sample :=
  let del := rd_tab (v_sin_array v) (v_pnt v) in
  let frac := rd_tab (v_frac_array v) (v_pnt v) in
  let frac1Minus := s16 (ONE_16b - frac) in
  let audio_pnt := (v_pnt_in v + del) mod VIBRATO_L in
  let n_audio_pnt := (v_pnt_in v + del + 1) mod VIBRATO_L in
  let buf := wr_smp (v_pnt_in v) xP (v_audio_buf v) in
  let accum := stereo (fun c => s32 (s32 (ch c (rd_smp buf n_audio_pnt) * frac) + s32 (ch c (rd_smp buf audio_pnt) * frac1Minus))) in
  (mk_vibrato accum del frac (down VIBRATO_L (v_pnt_in v)) ((v_pnt v + 1) mod VIBRATO_P) audio_pnt n_audio_pnt
     buf (v_sin_array v) (v_frac_array v),
   stereo (fun c => s16 (Z.shiftr (ch c accum) 15))).

(** *** Wah-wah *)

Record WahWah := mk_wahwah {
  w_accum : sample; w_x_buf : list sample; w_y_buf : list sample; w_A : list Z; w_B : list Z;
  w_pnt : Z; w_wah_pnt : Z; w_sftLft : Z;
  w_a_array : list (list Z); w_b_array : list (list Z); }.
(** pnt is not set. *)
Definition alloc_wahwah_vars (B A : list Z) (a_array b_array : list (list Z)) (w : WahWah) : WahWah :=
  mk_wahwah (w_accum w) (w_x_buf w) (w_y_buf w) A B (w_pnt w) 2 1 a_array b_array.
(** Row [i] of a table; the code has 0, 1 and 2 for [i]. *)
Definition row (t : list (list Z)) (i : Z) : list Z := nth (Z.to_nat i) t [].
Definition audio_wahwah (w : WahWah) (xP : sample) : WahWah * sample :=
  let B := wr_tab 1 (rd_tab (row (w_b_array w) 1) (w_wah_pnt w)) (wr_tab 2 (rd_tab (row (w_b_array w) 2) (w_wah_pnt w)) (w_B w)) in
  let A := wr_tab 0 (rd_tab (row (w_a_array w) 0) (w_wah_pnt w)) (wr_tab 1 (rd_tab (row (w_a_array w) 1) (w_wah_pnt w)) (w_A w)) in
  let pnt := (w_pnt w + 1) mod 3 in
  let x_buf := wr_smp pnt xP (w_x_buf w) in
  let '(_, y_buf) := filterIIR_2nd pnt x_buf (w_y_buf w) B A (w_sftLft w) in
  let accum := stereo (fun c =>
    Z.shiftr (s32 (WAHWAH_WET_GAIN * (ch c xP - ch c (rd_smp y_buf pnt)))) 15 + Z.shiftr (s32 (WAHWAH_DRY_GAIN * ch c xP)) 15) in
  (mk_wahwah accum x_buf y_buf A B pnt ((w_wah_pnt w + 1) mod WAHWAH_P) (w_sftLft w) (w_a_array w) (w_b_array w),
   stereo (fun c => s16 (ch c accum))).

(** *** Tremolo *)

Record Tremolo := mk_tremolo {
  t_pnt : Z; t_pnt_n : Z; t_frac : Z; t_frac1Minus : Z; t_mod : Z; t_mod_array : list Z; t_frac_array : list Z; }.
Definition alloc_tremolo_vars (mod_array frac_array : list Z) (t : Tremolo) : Tremolo :=
  mk_tremolo 0 1 (t_frac t) (t_frac1Minus t) (t_mod t) mod_array frac_array.
Definition audio_tremolo (t : Tremolo) (xP : sample) : Tremolo * sample :=
  let pnt := (t_pnt t + 1) mod TREMOLO_P in
  let pnt_n := (t_pnt_n t + 1) mod TREMOLO_P in
  let frac := rd_tab (t_frac_array t) pnt in
  let frac1Minus := s16 (ONE_16b - frac) in
  let m := Z.shiftr (s32 (s32 (rd_tab (t_mod_array t) pnt * frac1Minus) + s32 (rd_tab (t_mod_array t) pnt_n * frac))) 15 in
  (mk_tremolo pnt pnt_n frac frac1Minus m (t_mod_array t) (t_frac_array t),
   stereo (fun c => s16 (Z.shiftr (s32 (ch c xP * m)) 15))).

(** *** Chorus *)

Record Chorus := mk_chorus {
  c_accum : sample; c_g : list Z; c_del : list Z; c_pnt : Z; c_c1_pnt : Z; c_c2_pnt : Z;
  c_audio_buf : list sample; c_mod_array1 : list Z; c_mod_array2 : list Z; }.
(** The gains are ONE_16b times 0.4, 0.4 and 0.45. *)
Definition alloc_chorus_vars (mod_array1 mod_array2 : list Z) (c : Chorus) : Chorus :=
  mk_chorus (c_accum c) [ONE_16b * 4 / 10; ONE_16b * 4 / 10; ONE_16b * 45 / 100] (wr_tab 2 0 (c_del c)) (CHORUS_L - 1) 0 0
    (replicate (Z.to_nat CHORUS_L) (0, 0)) mod_array1 mod_array2.
Definition audio_chorus (c : Chorus) (xP : sample) : Chorus * sample :=
  let del := wr_tab 1 (rd_tab (c_mod_array2 c) (c_c2_pnt c)) (wr_tab 0 (rd_tab (c_mod_array1 c) (c_c1_pnt c)) (c_del c)) in
  let buf := wr_smp (c_pnt c) xP (c_audio_buf c) in
  let '(accum, yP) := combFilter_2nd CHORUS_L (c_pnt c) buf (c_g c) del in
  (mk_chorus accum (c_g c) del (down CHORUS_L (c_pnt c)) ((c_c1_pnt c + 1) mod CHORUS_P1) ((c_c2_pnt c + 1) mod CHORUS_P2)
     buf (c_mod_array1 c) (c_mod_array2 c), yP).

(** *** Delay *)

Record IIRdelay := mk_delay { d_accum : sample; d_g : list Z; d_del : list Z; d_pnt : Z; d_audio_buf : list sample; }.
(** The gains are ONE_16b times 0.5 and ONE_16b. *)
Definition alloc_delay_vars (d : IIRdelay) : IIRdelay :=
  mk_delay (d_accum d) [ONE_16b / 2; ONE_16b] [DELAY_L - 1; 0] (DELAY_L - 1) (replicate (Z.to_nat DELAY_L) (0, 0)).
Definition audio_delay (d : IIRdelay) (xP : sample) : IIRdelay * sample :=
  let buf := wr_smp (d_pnt d) xP (d_audio_buf d) in
  let '(accum, yP) := combFilter_1st DELAY_L (d_pnt d) buf (d_g d) (d_del d) in
  (mk_delay accum (d_g d) (d_del d) (down DELAY_L (d_pnt d)) (wr_smp (d_pnt d) yP buf), yP).

(** *** Overdrive and distortion *)

(** One channel. *)
Definition overdrive1 (x : Z) : Z :=
  let x_abs := Z.abs x in
  if 2 * 0x2AAB <? x_abs then s16 (if 0 <? x then 0x7FFF else 0x8000)
  else if 0x2AAB <? x_abs then
    let a := Z.shiftr (u32 (0x17FFF * x_abs)) 15 in
    let a := 0xFFFF - a in
    let a := Z.shiftr (s32 (a * a)) 15 in
    let a := 0x17FFF - a in
    let a := Z.shiftr (s32 (a * 0x2AAB)) 15 in
    if 0 <? x then (if 32767 <? a then 32767 else s16 a) else s16 (- a)
  else s16 (Z.shiftl x 1).
Definition audio_overdrive (xP : sample) : sample := stereo (fun j => overdrive1 (ch j xP)).

Record Distortion := mk_distortion { di_accum : sample; di_k : Z; di_kOnePlus : Z; di_sftLft : Z; }.
(** The loop that scales k down. *)
Fixpoint scale_k (fuel : nat) (k sft : Z) : option (Z * Z) :=
  if ONE_16b <? k then match fuel with O => None | S f => scale_k f (Z.shiftr k 1) (sft + 1) end else Some (k, sft).
(** [k0] and [k1] are the two products with pow(2,15). *)
Definition alloc_distortion_vars (k0 k1 : Z) (d : Distortion) : option Distortion :=
  match scale_k 32 k0 0 with
  | Some (k, sft) => Some (mk_distortion (di_accum d) k (Z.shiftr k1 sft) sft)
  | None => None
  end.
(** One channel: accum[0], accum[1] and the output. *)
Definition distortion1 (d : Distortion) (x : Z) : Z * Z * Z :=
  let a0 := s32 (di_kOnePlus d * x) in
  let a1 := Z.shiftr (s32 (di_k d * Z.abs x)) 15 in
  let a1 := s32 (a1 + Z.shiftr (ONE_16b + di_sftLft d) (di_sftLft d)) in
  let a0 := div_c a0 a1 in
  (a0, a1, s16 (if 0 <? x then a0 - 1 else a0)).
Definition audio_distortion (d : Distortion) (xP : sample) : Distortion * sample :=
  let '(_, _, y0) := distortion1 d (ch 0 xP) in
  let '(a0, a1, y1) := distortion1 d (ch 1 xP) in
  (mk_distortion (a0, a1) (di_k d) (di_kOnePlus d) (di_sftLft d), (y0, y1)).

End Effects.

(** ** States *)

(** A table of [n] entries between [a] and [b]. *)
Definition table (n a b : Z) (t : list Z) : Prop := Z.of_nat (length t) = n /\ Forall (fun v => a <= v <= b) t.
Lemma table_at n a b t i : table n a b t -> 0 <= i < n -> a <= at_ t i <= b.
Proof.
  intros [Hl Ht] Hi. unfold at_. rewrite nth_lookup. destruct (lookup_lt_is_Some_2 t (Z.to_nat i)) as [v E]; [lia|]. rewrite E. cbn.
  by eapply (Forall_lookup_1 _ _ _ _ Ht) in E.
Qed.

(** A ring of [n] samples and its pointer. *)
Definition ring (n : Z) (buf : list sample) (p : Z) : Prop := Z.of_nat (length buf) = n /\ shorts buf /\ 0 <= p < n.
Lemma put_shorts i s l : shorts l -> short_pair s -> shorts (put_smp i s l).
Proof. intros Hl Hs. by apply Forall_insert. Qed.
Lemma ring_put n buf p q s : ring n buf p -> short_pair s -> 0 <= q < n -> ring n (put_smp p s buf) q.
Proof. intros (Hl & Hb & Hp) Hs Hq. split; [by rewrite put_length|]. split; [by apply put_shorts|done]. Qed.

(** [n] coefficients of 16 bits. *)
Definition coeffs (n : nat) (l : list Z) : Prop := length l = n /\ Forall is_short l.

Record filter_ok (f : Filter) : Prop := {
  fo_x : ring 3 (f_x_buf f) (f_pnt f); fo_y : ring 3 (f_y_buf f) (f_pnt f);
  fo_B : coeffs 3 (f_B f); fo_A : coeffs 3 (f_A f); fo_sft : 0 <= f_sftLft f <= 13; }.
Record wahwah_ok (w : WahWah) : Prop := {
  wo_x : ring 3 (w_x_buf w) (w_pnt w); wo_y : ring 3 (w_y_buf w) (w_pnt w);
  wo_B : coeffs 3 (w_B w); wo_A : coeffs 3 (w_A w); wo_sft : 0 <= w_sftLft w <= 13;
  wo_pnt : 0 <= w_wah_pnt w < WAHWAH_P;
  wo_tables i : 0 <= i < 3 -> table WAHWAH_P (- 2 ^ 15) (2 ^ 15 - 1) (row (w_a_array w) i) /\
    table WAHWAH_P (- 2 ^ 15) (2 ^ 15 - 1) (row (w_b_array w) i); }.
(** With the longest delay the second sample of the interpolation is the
    newest one; its fraction is then 0. *)
Record vibrato_ok (v : Vibrato) : Prop := {
  vo_ring : ring VIBRATO_L (v_audio_buf v) (v_pnt_in v); vo_pnt : 0 <= v_pnt v < VIBRATO_P;
  vo_sin : table VIBRATO_P 0 (VIBRATO_L - 1) (v_sin_array v); vo_frac : table VIBRATO_P 0 ONE_16b (v_frac_array v);
  vo_top i : 0 <= i < VIBRATO_P -> at_ (v_sin_array v) i = VIBRATO_L - 1 -> at_ (v_frac_array v) i = 0; }.
Record tremolo_ok (t : Tremolo) : Prop := {
  to_pnt : 0 <= t_pnt t < TREMOLO_P; to_pnt_n : 0 <= t_pnt_n t < TREMOLO_P;
  to_mod : table TREMOLO_P 0 ONE_16b (t_mod_array t); to_frac : table TREMOLO_P 0 ONE_16b (t_frac_array t); }.
Record chorus_ok (c : Chorus) : Prop := {
  co_ring : ring CHORUS_L (c_audio_buf c) (c_pnt c); co_c1 : 0 <= c_c1_pnt c < CHORUS_P1; co_c2 : 0 <= c_c2_pnt c < CHORUS_P2;
  co_g : coeffs 3 (c_g c); co_del : length (c_del c) = 3%nat /\ at_ (c_del c) 2 = 0;
  co_mod1 : table CHORUS_P1 0 (CHORUS_L - 1) (c_mod_array1 c); co_mod2 : table CHORUS_P2 0 (CHORUS_L - 1) (c_mod_array2 c); }.
Record delay_ok (d : IIRdelay) : Prop := {
  do_ring : ring DELAY_L (d_audio_buf d) (d_pnt d); do_g : coeffs 2 (d_g d);
  do_del : length (d_del d) = 2%nat /\ 1 <= at_ (d_del d) 0 < DELAY_L /\ at_ (d_del d) 1 = 0; }.
Record distortion_ok (d : Distortion) : Prop := {
  dio_k : 0 <= di_k d <= ONE_16b; dio_k1 : 0 <= di_kOnePlus d < 2 ^ 16; dio_sft : 0 <= di_sftLft d <= 14; }.

(** *** With lists *)

Section Lists.
#[local] Existing Instance lists.
#[local] Ltac arrays := cbn [rd_smp wr_smp rd_tab wr_tab div_c lists] in *.

Lemma filterIIR_2nd_y p x y B A sft : exists s, short_pair s /\ snd (filterIIR_2nd p x y B A sft) = put_smp p s y.
Proof. eexists. split; [|done]. apply stereo_short. intros c. apply s16_short. Qed.
Lemma mod3 p : 0 <= (p + 1) mod 3 < 3.
Proof. apply Z.mod_pos_bound. lia. Qed.
Lemma comb_out_short a : short_pair (comb_out a).
Proof. apply stereo_short. intros c. apply s16_short. Qed.

Lemma audio_filter_ok f x : filter_ok f -> short_pair x -> filter_ok (fst (audio_filter f x)) /\ short_pair (snd (audio_filter f x)).
Proof.
  intros [Hx Hy HB HA Hs] Hp. unfold audio_filter.
  set (p := (f_pnt f + 1) mod 3). pose proof (mod3 (f_pnt f)) as H3. fold p in H3.
  destruct (filterIIR_2nd_y p (put_smp p x (f_x_buf f)) (f_y_buf f) (f_B f) (f_A f) (f_sftLft f)) as (s & Hss & Es).
  destruct (filterIIR_2nd _ _ _ _ _ _) as [a y']. cbn in Es. subst y'. cbn [fst snd].
  split; [|apply stereo_short; intros c; apply s16_short].
  destruct Hx as (? & ? & ?), Hy as (? & ? & ?). constructor; cbn; try done; by apply (ring_put _ _ p).
Qed.

Lemma coeffs_insert n i v l : coeffs n l -> is_short v -> coeffs n (<[i := v]> l).
Proof. intros [Hl Hf] Hv. split; [by rewrite length_insert|by apply Forall_insert]. Qed.
Lemma audio_wahwah_ok w x : wahwah_ok w -> short_pair x -> wahwah_ok (fst (audio_wahwah w x)) /\ short_pair (snd (audio_wahwah w x)).
Proof.
  intros [Hx Hy HB HA Hs Hw Ht] Hp. unfold audio_wahwah.
  set (p := (w_pnt w + 1) mod 3). pose proof (mod3 (w_pnt w)) as H3. fold p in H3.
  set (B := wr_tab 1 _ _). set (A := wr_tab 0 _ _).
  destruct (filterIIR_2nd_y p (put_smp p x (w_x_buf w)) (w_y_buf w) B A (w_sftLft w)) as (s & Hss & Es).
  destruct (filterIIR_2nd _ _ _ _ _ _) as [a y']. cbn in Es. subst y'. cbn [fst snd].
  split; [|apply stereo_short; intros c; apply s16_short].
  assert (forall t i, 0 <= i < 3 -> table WAHWAH_P (- 2 ^ 15) (2 ^ 15 - 1) (row t i) -> is_short (at_ (row t i) (w_wah_pnt w))) as Hrow
    by (intros t i Hi Htab; pose proof (table_at _ _ _ _ _ Htab Hw); unfold is_short; lia).
  destruct Hx as (? & ? & ?), Hy as (? & ? & ?). constructor; cbn [w_x_buf w_y_buf w_pnt w_A w_B w_sftLft w_wah_pnt w_a_array w_b_array]; try done.
  - by apply (ring_put _ _ p).
  - by apply (ring_put _ _ p).
  - apply coeffs_insert; [apply coeffs_insert; [done|]|]; apply Hrow; try lia; apply Ht; lia.
  - apply coeffs_insert; [apply coeffs_insert; [done|]|]; apply Hrow; try lia; apply Ht; lia.
  - apply Z.mod_pos_bound. done.
Qed.

Lemma audio_vibrato_ok v x : vibrato_ok v -> short_pair x -> vibrato_ok (fst (audio_vibrato v x)) /\ short_pair (snd (audio_vibrato v x)).
Proof.
  intros [Hr Hv Hs Hf Ht] Hp. split; [|apply stereo_short; intros c; apply s16_short].
  pose proof Hr as (_ & _ & Hpnt). constructor; cbn; try done; [|by apply Z.mod_pos_bound].
  apply ring_put; [done|done|by apply down_range].
Qed.
Lemma audio_tremolo_ok t x : tremolo_ok t -> short_pair x -> tremolo_ok (fst (audio_tremolo t x)) /\ short_pair (snd (audio_tremolo t x)).
Proof.
  intros [Hp Hn Hm Hf] Hx. split; [|apply stereo_short; intros c; apply s16_short]. constructor; cbn; try done; by apply Z.mod_pos_bound.
Qed.
Lemma audio_chorus_ok c x : chorus_ok c -> short_pair x -> chorus_ok (fst (audio_chorus c x)) /\ short_pair (snd (audio_chorus c x)).
Proof.
  intros [Hr H1 H2 Hg [Hd1 Hd2] Hm1 Hm2] Hx. split; [|apply comb_out_short]. pose proof Hr as (_ & _ & Hpnt).
  constructor; cbn [c_audio_buf c_pnt c_c1_pnt c_c2_pnt c_g c_del c_mod_array1 c_mod_array2 audio_chorus combFilter_2nd fst]; try done.
  - apply ring_put; [done|done|by apply down_range].
  - by apply Z.mod_pos_bound.
  - by apply Z.mod_pos_bound.
  - arrays. rewrite !length_insert. split; [done|]. destruct (c_del c) as [|a [|b [|d [|]]]]; try done.
Qed.
Lemma audio_delay_ok d x : delay_ok d -> short_pair x -> delay_ok (fst (audio_delay d x)) /\ short_pair (snd (audio_delay d x)).
Proof.
  intros [Hr Hg Hd] Hx. split; [|apply comb_out_short]. pose proof Hr as (_ & _ & Hpnt).
  constructor; cbn [d_audio_buf d_pnt d_g d_del audio_delay combFilter_1st fst]; try done.
  apply ring_put; [by apply ring_put|apply comb_out_short|by apply down_range].
Qed.
End Lists.

(** *** No access leaves its array *)

Section Inside.
Context {AR : Arrays}.

Lemma for_up_cong {S} (f g : Z -> S -> S) n : forall i s,
  (forall k s, i <= k < i + Z.of_nat n -> f k s = g k s) -> for_up n i 1 f s = for_up n i 1 g s.
Proof. induction n as [|n IH]; intros i s H; cbn [for_up]; [done|]. rewrite H by lia. apply IH. intros k t Hk. apply H. lia. Qed.

Lemma iir_sum_inside n p x y B A c : 0 < n -> Z.of_nat (length x) = n -> Z.of_nat (length y) = n ->
  Z.of_nat (length B) = n -> Z.of_nat (length A) = n -> iir_sum n p x y B A c = iir_sum (AR := lists) n p x y B A c.
Proof.
  intros Hn Hx Hy HB HA. unfold iir_sum. apply for_up_cong. intros i s Hi. rewrite Z2Nat.id in Hi by lia.
  pose proof (Z.mod_pos_bound (p + i + 1) n Hn). by rewrite !rd_tab_in, !rd_smp_in by lia.
Qed.
Lemma comb_sum_inside n len p buf g del c : 0 <= n -> 0 < len -> Z.of_nat (length buf) = len ->
  n <= Z.of_nat (length g) -> n <= Z.of_nat (length del) -> comb_sum n len p buf g del c = comb_sum (AR := lists) n len p buf g del c.
Proof.
  intros Hn Hl Hb Hg Hd. unfold comb_sum. apply for_up_cong. intros i s Hi. rewrite Z2Nat.id in Hi by lia.
  rewrite !rd_tab_in by lia. pose proof (Z.mod_pos_bound (p + at_ del i) len Hl). by rewrite rd_smp_in by lia.
Qed.
Lemma filterIIR_2nd_inside p x y B A sft : ring 3 x p -> ring 3 y p -> length B = 3%nat -> length A = 3%nat ->
  filterIIR_2nd p x y B A sft = filterIIR_2nd (AR := lists) p x y B A sft.
Proof.
  intros (Hx & _ & Hp) (Hy & _ & _) HB HA. unfold filterIIR_2nd, stereo. rewrite !iir_sum_inside by lia. by rewrite wr_smp_in by lia.
Qed.

Lemma audio_filter_inside f x : filter_ok f -> short_pair x -> audio_filter f x = audio_filter (AR := lists) f x.
Proof.
  intros [Hx Hy [HB _] [HA _] Hs] Hp. unfold audio_filter. pose proof (mod3 (f_pnt f)) as H3.
  destruct Hx as (Hlx & Hbx & _), Hy as (Hly & Hby & _). rewrite wr_smp_in by lia.
  rewrite filterIIR_2nd_inside; [|split; [by rewrite put_length|split; [by apply put_shorts|done]]|done|done|done]. cbn [wr_smp rd_smp lists].
  destruct (filterIIR_2nd_y ((f_pnt f + 1) mod 3) (put_smp ((f_pnt f + 1) mod 3) x (f_x_buf f)) (f_y_buf f) (f_B f) (f_A f) (f_sftLft f)) as (s & Hss & Es).
  destruct (filterIIR_2nd _ _ _ _ _ _) as [a y']. cbn in Es. subst y'. by rewrite rd_smp_in by (rewrite put_length; lia).
Qed.
Lemma audio_wahwah_inside w x : wahwah_ok w -> short_pair x -> audio_wahwah w x = audio_wahwah (AR := lists) w x.
Proof.
  intros [Hx Hy [HB _] [HA _] Hs Hw Ht] Hp. unfold audio_wahwah. pose proof (mod3 (w_pnt w)) as H3.
  destruct Hx as (Hlx & Hbx & _), Hy as (Hly & Hby & _). destruct (Ht 0 ltac:(lia)) as [[La0 _] _], (Ht 1 ltac:(lia)) as [[La1 _] [Lb1 _]], (Ht 2 ltac:(lia)) as [_ [Lb2 _]].
  rewrite !rd_tab_in by lia. rewrite (wr_tab_in 2), (wr_tab_in 1 _ (w_A w)) by lia. rewrite (wr_tab_in 1), (wr_tab_in 0) by (rewrite length_insert; lia).
  rewrite wr_smp_in by lia. rewrite filterIIR_2nd_inside;
    [|split; [by rewrite put_length|split; [by apply put_shorts|done]]|done|by rewrite !length_insert|by rewrite !length_insert]. cbn [wr_smp rd_smp rd_tab wr_tab lists].
  change (Z.to_nat 0) with 0%nat. change (Z.to_nat 1) with 1%nat. change (Z.to_nat 2) with 2%nat.
  match goal with |- context [filterIIR_2nd ?p ?x ?y ?B ?A ?s] => destruct (filterIIR_2nd_y p x y B A s) as (t & Hss & Es); destruct (filterIIR_2nd p x y B A s) as [a y'] end.
  cbn in Es. subst y'. by rewrite rd_smp_in by (rewrite put_length; lia).
Qed.
Lemma audio_vibrato_inside v x : vibrato_ok v -> short_pair x -> audio_vibrato v x = audio_vibrato (AR := lists) v x.
Proof.
  intros [(Hl & Hb & Hp) Hv [Ls _] [Lf _] _] Hx. unfold audio_vibrato. rewrite !rd_tab_in by lia. rewrite wr_smp_in by lia. cbn [rd_smp wr_smp rd_tab lists].
  set (del := at_ (v_sin_array v) (v_pnt v)). pose proof (Z.mod_pos_bound (v_pnt_in v + del) VIBRATO_L ltac:(done)).
  pose proof (Z.mod_pos_bound (v_pnt_in v + del + 1) VIBRATO_L ltac:(done)). unfold stereo. by rewrite !rd_smp_in by (rewrite put_length; lia).
Qed.
Lemma audio_tremolo_inside t x : tremolo_ok t -> audio_tremolo t x = audio_tremolo (AR := lists) t x.
Proof.
  intros [Hp Hn [Lm _] [Lf _]]. unfold audio_tremolo. pose proof (Z.mod_pos_bound (t_pnt t + 1) TREMOLO_P ltac:(done)).
  pose proof (Z.mod_pos_bound (t_pnt_n t + 1) TREMOLO_P ltac:(done)). by rewrite !rd_tab_in by lia.
Qed.
Lemma audio_chorus_inside c x : chorus_ok c -> short_pair x -> audio_chorus c x = audio_chorus (AR := lists) c x.
Proof.
  intros [(Hl & Hb & Hp) H1 H2 [Hg _] [Hd _] [L1 _] [L2 _]] Hx. unfold audio_chorus, combFilter_2nd. rewrite !rd_tab_in by lia.
  rewrite (wr_tab_in 0) by lia. rewrite (wr_tab_in 1) by (rewrite length_insert; lia). rewrite wr_smp_in by lia. unfold stereo.
  rewrite !comb_sum_inside by (rewrite ?put_length, ?length_insert; lia || done). done.
Qed.
Lemma audio_delay_inside d x : delay_ok d -> short_pair x -> audio_delay d x = audio_delay (AR := lists) d x.
Proof.
  intros [(Hl & Hb & Hp) [Hg _] [Hd _]] Hx. unfold audio_delay, combFilter_1st. rewrite wr_smp_in by lia. unfold stereo.
  rewrite !comb_sum_inside by (rewrite ?put_length; lia || done). by rewrite wr_smp_in by (rewrite put_length; lia).
Qed.
End Inside.

(** *** The states after allocation *)

Lemma ring_blank n : 0 < n -> ring n (replicate (Z.to_nat n) (0, 0)) (n - 1).
Proof. intros Hn. split; [rewrite length_replicate; lia|]. split; [by apply Forall_replicate|lia]. Qed.
Lemma alloc_delay_ok d : delay_ok (alloc_delay_vars d).
Proof.
  constructor; cbn [alloc_delay_vars d_audio_buf d_pnt d_g d_del].
  - by apply ring_blank.
  - split; [done|]. apply (bool_decide_unpack _). vm_compute. reflexivity.
  - done.
Qed.
Lemma alloc_chorus_ok {AR : Arrays} m1 m2 c : length (c_del c) = 3%nat ->
  table CHORUS_P1 0 (CHORUS_L - 1) m1 -> table CHORUS_P2 0 (CHORUS_L - 1) m2 -> chorus_ok (alloc_chorus_vars m1 m2 c).
Proof.
  intros Hd H1 H2. constructor; cbn [alloc_chorus_vars c_audio_buf c_pnt c_c1_pnt c_c2_pnt c_g c_del c_mod_array1 c_mod_array2]; try done.
  - by apply ring_blank.
  - split; [done|]. apply (bool_decide_unpack _). vm_compute. reflexivity.
  - rewrite wr_tab_in by lia. rewrite length_insert. split; [done|]. by destruct (c_del c) as [|? [|? [|? [|]]]].
Qed.
Lemma alloc_vibrato_ok t f v : table VIBRATO_P 0 (VIBRATO_L - 1) t -> table VIBRATO_P 0 ONE_16b f ->
  (forall i, 0 <= i < VIBRATO_P -> at_ t i = VIBRATO_L - 1 -> at_ f i = 0) -> vibrato_ok (alloc_vibrato_vars t f v).
Proof.
  intros Ht Hf Htop. constructor; cbn [alloc_vibrato_vars v_audio_buf v_pnt_in v_pnt v_sin_array v_frac_array]; try done. by apply ring_blank.
Qed.
Lemma alloc_tremolo_ok m f t : table TREMOLO_P 0 ONE_16b m -> table TREMOLO_P 0 ONE_16b f -> tremolo_ok (alloc_tremolo_vars m f t).
Proof. intros Hm Hf. by constructor. Qed.
