(* ===== verification/AudioRun.v ===== *)
(** AudioRun: theorems on the effects of AudioFx.v over streams of samples. *)

From stdpp Require Import base numbers list.
From S2P Require Import Prelude Dsp AudioFx.

(** An effect on a stream. *)
Fixpoint fx_run {S} (step : S -> sample -> S * sample) (s : S) (xs : list sample) : S * list sample :=
  match xs with
  | [] => (s, [])
  | x :: xs => let '(s, y) := step s x in let '(s, ys) := fx_run step s xs in (s, y :: ys)
  end.

(** The sample [d] before number [n] of the stream [xs]; [V] are the samples
    before the stream, the last one first. *)
Definition past (V xs : list sample) (n d : Z) : sample := if d <=? n then smp xs (n - d) else smp V (d - 1 - n).

Lemma smp_cons x l i : 0 <= i -> smp (x :: l) i = if decide (i = 0) then x else smp l (i - 1).
Proof.
  intros Hi. unfold smp. case_decide as E; [by subst|]. destruct (Z.to_nat i) as [|k] eqn:Ek; [lia|]. cbn. f_equal. lia.
Qed.
Lemma past_shift V x xs n d L : 0 <= n -> 0 <= d <= Z.of_nat L -> length V = L ->
  past V (x :: xs) (n + 1) d = past (x :: take (L - 1) V) xs n d.
Proof.
  intros Hn Hd HL. unfold past. destruct (Z.leb_spec d (n + 1)) as [H1|H1], (Z.leb_spec d n) as [H2|H2]; try lia.
  - rewrite smp_cons, decide_False by lia. f_equal. lia.
  - rewrite smp_cons, decide_True by lia. rewrite smp_cons, decide_True by lia. done.
  - rewrite smp_cons, decide_False by lia. unfold smp. rewrite !nth_lookup. rewrite lookup_take_lt by lia. do 2 f_equal. lia.
Qed.

(** Two ways to take a step that agree on good states and samples. *)
Lemma fx_run_same {S} (step step' : S -> sample -> S * sample) (ok : S -> Prop) xs :
  (forall s x, ok s -> short_pair x -> step s x = step' s x /\ ok (fst (step' s x)) /\ short_pair (snd (step' s x))) -> shorts xs ->
  forall s, ok s -> fx_run step s xs = fx_run step' s xs /\ ok (fst (fx_run step' s xs)) /\ shorts (snd (fx_run step' s xs)).
Proof.
  intros Hstep Hxs. induction Hxs as [|x xs Hx _ IH]; intros s Hs; [split; [done|split; [done|constructor]]|]. cbn [fx_run].
  destruct (Hstep s x Hs Hx) as (-> & Ho & Hy). destruct (step' s x) as [s1 y]. cbn [fst snd] in *. destruct (IH s1 Ho) as (-> & Ho2 & Hys).
  destruct (fx_run step' s1 xs) as [s2 ys]. cbn [fst snd] in *. split; [done|]. split; [done|by constructor].
Qed.

Section Lists.
#[local] Existing Instance lists.
#[local] Ltac arrays := cbn [rd_smp wr_smp rd_tab wr_tab div_c lists] in *.

(** ** The comb filters *)

(** The sum of products, scaled, saturated and converted to a sample. *)
Definition comb1 (g : list Z) (old x : Z) : Z := s16 (Z.shiftr (saturate (at_ g 0 * old / 4 + at_ g 1 * x / 4)) 13).
Definition comb2 (g : list Z) (old1 old2 x : Z) : Z :=
  s16 (Z.shiftr (saturate (at_ g 0 * old1 / 4 + at_ g 1 * old2 / 4 + at_ g 2 * x / 4)) 13).

Lemma ch_stereo c f (P : Z -> Prop) : P (f 0) -> P (f 1) -> P (ch c (stereo f)).
Proof. intros H0 H1. unfold ch. by case_match. Qed.

Lemma comb_sum_2 len p buf g del c : shorts buf -> Forall is_short g ->
  comb_sum 2 len p buf g del c = at_ g 0 * ch c (smp buf ((p + at_ del 0) mod len)) / 4 + at_ g 1 * ch c (smp buf ((p + at_ del 1) mod len)) / 4.
Proof.
  intros Hb Hg. unfold comb_sum. arrays. change (Z.to_nat 2) with 2%nat. cbn [for_up]. change (0 + 1) with 1.
  set (u := ch c (smp buf ((p + at_ del 0) mod len))). set (v := ch c (smp buf ((p + at_ del 1) mod len))).
  assert (is_short u) by (by apply ch_short, smp_short). assert (is_short v) by (by apply ch_short, smp_short).
  destruct (scaled_range (at_ g 0) u) as [E0 B0]; [by apply at_short|done|]. destruct (scaled_range (at_ g 1) v) as [E1 B1]; [by apply at_short|done|].
  rewrite (s32_small (0 + _)) by lia. rewrite s32_small by lia. rewrite <- E0, <- E1. lia.
Qed.
Lemma comb_sum_3 len p buf g del c : shorts buf -> Forall is_short g ->
  comb_sum 3 len p buf g del c = at_ g 0 * ch c (smp buf ((p + at_ del 0) mod len)) / 4 + at_ g 1 * ch c (smp buf ((p + at_ del 1) mod len)) / 4
    + at_ g 2 * ch c (smp buf ((p + at_ del 2) mod len)) / 4.
Proof.
  intros Hb Hg. unfold comb_sum. arrays. change (Z.to_nat 3) with 3%nat. cbn [for_up]. change (0 + 1) with 1. change (1 + 1) with 2.
  set (u := ch c (smp buf ((p + at_ del 0) mod len))). set (v := ch c (smp buf ((p + at_ del 1) mod len))).
  set (w := ch c (smp buf ((p + at_ del 2) mod len))).
  assert (is_short u) by (by apply ch_short, smp_short). assert (is_short v) by (by apply ch_short, smp_short).
  assert (is_short w) by (by apply ch_short, smp_short).
  destruct (scaled_range (at_ g 0) u) as [E0 B0]; [by apply at_short|done|]. destruct (scaled_range (at_ g 1) v) as [E1 B1]; [by apply at_short|done|].
  destruct (scaled_range (at_ g 2) w) as [E2 B2]; [by apply at_short|done|].
  rewrite (s32_small (0 + _)) by lia. rewrite (s32_small (0 + _ + _)) by lia. rewrite s32_small by lia. rewrite <- E0, <- E1, <- E2. lia.
Qed.

(** *** Delay *)

Lemma put_put p a b buf : put_smp p a (put_smp p b buf) = put_smp p a buf.
Proof. apply list_insert_insert_eq. Qed.

Lemma audio_delay_step d x : delay_ok d -> short_pair x -> let D := at_ (d_del d) 0 in let V := view (d_audio_buf d) (d_pnt d) in
  let y := stereo (fun c => comb1 (d_g d) (ch c (smp V (D - 1))) (ch c x)) in
  snd (audio_delay d x) = y /\ d_g (fst (audio_delay d x)) = d_g d /\ d_del (fst (audio_delay d x)) = d_del d /\
  view (d_audio_buf (fst (audio_delay d x))) (d_pnt (fst (audio_delay d x))) = y :: take (Z.to_nat DELAY_L - 1) V.
Proof.
  intros [(Hl & Hb & Hp) [_ Hg] (_ & Hd0 & Hd1)] Hx D V y.
  assert (snd (audio_delay d x) = y) as Ey.
  { unfold audio_delay, combFilter_1st. arrays. cbn [snd]. unfold comb_out, y, stereo. rewrite !comb_sum_2 by (done || by apply put_shorts).
    rewrite Hd1. fold D. rewrite <- Hl. rewrite !ring_read by lia. rewrite !(decide_False (P := D = 0)), !(decide_True (P := 0 = 0)) by (done || lia). done. }
  split; [done|]. split; [done|]. split; [done|]. unfold audio_delay in *. destruct (combFilter_1st _ _ _ _ _) as [a y'].
  cbn [fst snd d_audio_buf d_pnt] in *. subst y'. rewrite put_put, <- Hl, view_push by lia. do 2 f_equal. lia.
Qed.

Lemma delay_run xs : forall d, delay_ok d -> shorts xs ->
  let D := at_ (d_del d) 0 in let V := view (d_audio_buf d) (d_pnt d) in let ys := snd (fx_run audio_delay d xs) in
  length ys = length xs /\ forall n, 0 <= n < Z.of_nat (length xs) ->
    smp ys n = stereo (fun c => comb1 (d_g d) (ch c (past V ys n D)) (ch c (smp xs n))).
Proof.
  induction xs as [|x xs IH]; intros d Hd Hxs D V ys; [split; [done|cbn; lia]|]. apply Forall_cons in Hxs as [Hx Hxs].
  destruct (audio_delay_step d x Hd Hx) as (Ey & Eg & Ed & Ev), (audio_delay_ok d x Hd Hx) as [Hd1 _]. unfold ys. cbn [fx_run].
  destruct (audio_delay d x) as [d1 y]. cbn [fst snd] in *. destruct (IH d1 Hd1 Hxs) as [Hlen H]. rewrite Eg, Ed, Ev in H. fold D V in Ey, H.
  destruct (fx_run audio_delay d1 xs) as [d2 ys']. cbn [snd] in *. split; [cbn; lia|]. intros n Hn. cbn [length] in Hn.
  pose proof Hd as [(Hl & _ & _) _ (_ & HD & _)]. fold D in HD.
  assert (length V = Z.to_nat DELAY_L) as HV by (unfold V; rewrite view_length; lia).
  rewrite !smp_cons by lia. case_decide as E0.
  - subst n. rewrite Ey. unfold past. rewrite (proj2 (Z.leb_gt D 0)) by lia. by rewrite Z.sub_0_r.
  - rewrite H by lia. rewrite <- Ey. rewrite <- (past_shift V y ys' (n - 1) D) by (done || lia).
    by replace (n - 1 + 1) with n by lia.
Qed.

(** *** Chorus *)

Lemma past_now V x d : 0 <= d -> past V [x] 0 d = if decide (d = 0) then x else smp V (d - 1).
Proof.
  intros Hd. unfold past. destruct (Z.leb_spec d 0) as [H|H].
  - assert (d = 0) as -> by lia. by rewrite decide_True.
  - rewrite decide_False by lia. f_equal. lia.
Qed.
Lemma past_first V x xs d : 0 <= d -> past V (x :: xs) 0 d = past V [x] 0 d.
Proof. intros Hd. unfold past. destruct (Z.leb_spec d 0); [|done]. by assert (d = 0) as -> by lia. Qed.

(** Entry [n] of a table that is read in a circle, from [p] on. *)
Definition cyclic (t : list Z) (len p n : Z) : Z := at_ t ((p + n) mod len).
Lemma cyclic_next t len p n : 0 < len -> cyclic t len ((p + 1) mod len) n = cyclic t len p (n + 1).
Proof. intros Hl. unfold cyclic. rewrite Zplus_mod_idemp_l. do 2 f_equal. lia. Qed.
Lemma cyclic_0 t len p : 0 <= p < len -> cyclic t len p 0 = at_ t p.
Proof. intros Hp. unfold cyclic. by rewrite Z.add_0_r, Z.mod_small. Qed.
Lemma cyclic_range t len p n a b : 0 < len -> table len a b t -> a <= cyclic t len p n <= b.
Proof. intros Hl Ht. eapply table_at; [exact Ht|]. by apply Z.mod_pos_bound. Qed.

Lemma audio_chorus_step k x : chorus_ok k -> short_pair x -> let V := view (c_audio_buf k) (c_pnt k) in
  snd (audio_chorus k x) = stereo (fun c => comb2 (c_g k) (ch c (past V [x] 0 (at_ (c_mod_array1 k) (c_c1_pnt k))))
    (ch c (past V [x] 0 (at_ (c_mod_array2 k) (c_c2_pnt k)))) (ch c x)) /\
  view (c_audio_buf (fst (audio_chorus k x))) (c_pnt (fst (audio_chorus k x))) = x :: take (Z.to_nat CHORUS_L - 1) V.
Proof.
  intros [(Hl & Hb & Hp) H1 H2 [_ Hg] [Hd0 Hd2] Hm1 Hm2] Hx V.
  pose proof (table_at _ _ _ _ _ Hm1 H1). pose proof (table_at _ _ _ _ _ Hm2 H2). split.
  - unfold audio_chorus, combFilter_2nd. arrays. change (Z.to_nat 0) with 0%nat. change (Z.to_nat 1) with 1%nat. cbn [snd]. unfold comb_out, stereo. rewrite !comb_sum_3 by (done || by apply put_shorts).
    assert (forall a b, let del := <[1%nat := b]> (<[0%nat := a]> (c_del k)) in at_ del 0 = a /\ at_ del 1 = b /\ at_ del 2 = 0) as Hdel.
    { intros a b. destruct (c_del k) as [|u [|v [|w [|]]]]; done. }
    destruct (Hdel (at_ (c_mod_array1 k) (c_c1_pnt k)) (at_ (c_mod_array2 k) (c_c2_pnt k))) as (-> & -> & ->).
    rewrite <- Hl. rewrite !ring_read by lia. rewrite !(decide_True (P := 0 = 0)) by done. fold V. by rewrite !past_now by lia.
  - cbn [fst audio_chorus combFilter_2nd c_audio_buf c_pnt]. rewrite <- Hl, view_push by lia. do 2 f_equal. lia.
Qed.

Lemma chorus_run xs : forall k, chorus_ok k -> shorts xs ->
  let V := view (c_audio_buf k) (c_pnt k) in let ys := snd (fx_run audio_chorus k xs) in
  length ys = length xs /\ forall n, 0 <= n < Z.of_nat (length xs) ->
    smp ys n = stereo (fun c => comb2 (c_g k) (ch c (past V xs n (cyclic (c_mod_array1 k) CHORUS_P1 (c_c1_pnt k) n)))
      (ch c (past V xs n (cyclic (c_mod_array2 k) CHORUS_P2 (c_c2_pnt k) n))) (ch c (smp xs n))).
Proof.
  induction xs as [|x xs IH]; intros k Hk Hxs V ys; [split; [done|cbn; lia]|]. apply Forall_cons in Hxs as [Hx Hxs].
  destruct (audio_chorus_step k x Hk Hx) as [Ey Ev], (audio_chorus_ok k x Hk Hx) as [Hk1 _]. unfold ys. cbn [fx_run].
  assert (forall k1 y, audio_chorus k x = (k1, y) -> c_g k1 = c_g k /\ c_mod_array1 k1 = c_mod_array1 k /\ c_mod_array2 k1 = c_mod_array2 k /\
    c_c1_pnt k1 = (c_c1_pnt k + 1) mod CHORUS_P1 /\ c_c2_pnt k1 = (c_c2_pnt k + 1) mod CHORUS_P2) as Hsame by (by intros k1 y [= <- <-]).
  destruct (audio_chorus k x) as [k1 y]. cbn [fst snd] in *. destruct (Hsame k1 y eq_refl) as (E1 & E2 & E3 & E4 & E5). clear Hsame.
  destruct (IH k1 Hk1 Hxs) as [Hlen H]. rewrite E1, E2, E3, E4, E5, Ev in H. fold V in Ey, H.
  destruct (fx_run audio_chorus k1 xs) as [k2 ys']. cbn [snd] in *. split; [cbn; lia|]. intros n Hn. cbn [length] in Hn.
  pose proof Hk as [(Hl & _ & _) Hc1 Hc2 _ _ Hm1 Hm2].
  assert (length V = Z.to_nat CHORUS_L) as HV by (unfold V; rewrite view_length; lia).
  pose proof (fun m => cyclic_range _ CHORUS_P1 (c_c1_pnt k) m _ _ eq_refl Hm1) as R1. pose proof (fun m => cyclic_range _ CHORUS_P2 (c_c2_pnt k) m _ _ eq_refl Hm2) as R2.
  rewrite !smp_cons by lia. case_decide as E0.
  - subst n. rewrite Ey, !cyclic_0 by done. pose proof (table_at _ _ _ _ _ Hm1 Hc1). pose proof (table_at _ _ _ _ _ Hm2 Hc2).
    by rewrite !(past_first V x xs) by lia.
  - rewrite H by lia. rewrite !cyclic_next by done. replace (n - 1 + 1) with n by lia. specialize (R1 n). specialize (R2 n).
    rewrite <- !(past_shift V x xs (n - 1) _ (Z.to_nat CHORUS_L)) by (done || lia). by replace (n - 1 + 1) with n by lia.
Qed.

(** *** Vibrato *)

(** Between the samples [a] and [b], the fraction [frac] of the way. *)
Definition interpolate (frac a b : Z) : Z := (b * frac + a * (ONE_16b - frac)) / 2 ^ 15.

Lemma interpolate_exact frac a b : 0 <= frac <= ONE_16b -> is_short a -> is_short b ->
  s16 (Z.shiftr (s32 (s32 (b * frac) + s32 (a * s16 (ONE_16b - frac)))) 15) = interpolate frac a b.
Proof.
  unfold ONE_16b, is_short, interpolate. intros Hf Ha Hb. rewrite (s16_small (32767 - frac)) by (unfold is_short; lia).
  rewrite !(s32_small (_ * _)) by nia. rewrite s32_small by nia. rewrite Z.shiftr_div_pow2 by lia. apply s16_small. unfold is_short, ONE_16b.
  change (2 ^ 15) with 32768 in *. assert (- 1073741824 <= b * frac + a * (32767 - frac) < 1073741824) as H by nia.
  revert H. generalize (b * frac + a * (32767 - frac)). intros t Ht. split; [apply Z.div_le_lower_bound|apply Z.div_lt_upper_bound]; lia.
Qed.

Lemma audio_vibrato_step v x : vibrato_ok v -> short_pair x -> let V := view (v_audio_buf v) (v_pnt_in v) in
  let del := at_ (v_sin_array v) (v_pnt v) in
  snd (audio_vibrato v x) = stereo (fun c => interpolate (at_ (v_frac_array v) (v_pnt v)) (ch c (past V [x] 0 del)) (ch c (past V [x] 0 (del + 1)))) /\
  view (v_audio_buf (fst (audio_vibrato v x))) (v_pnt_in (fst (audio_vibrato v x))) = x :: take (Z.to_nat VIBRATO_L - 1) V.
Proof.
  intros [(Hl & Hb & Hp) Hv Hs Hf Ht] Hx V del. pose proof (table_at _ _ _ _ _ Hs Hv) as Hdel. fold del in Hdel.
  pose proof (table_at _ _ _ _ _ Hf Hv) as Hfr. split.
  - unfold audio_vibrato. arrays. cbn [snd]. fold del. set (frac := at_ (v_frac_array v) (v_pnt v)) in *.
    set (buf := put_smp (v_pnt_in v) x (v_audio_buf v)). assert (shorts buf) by (by apply put_shorts).
    unfold stereo. cbn [ch]. change (ch 0 (?a, ?b)) with a. change (ch 1 (?a, ?b)) with b.
    rewrite !interpolate_exact by (done || by apply ch_short, smp_short).
    assert (smp buf ((v_pnt_in v + del) mod VIBRATO_L) = past V [x] 0 del) as ->.
    { rewrite past_now by lia. rewrite <- Hl. apply ring_read; lia. }
    destruct (decide (del = VIBRATO_L - 1)) as [Etop|Etop].
    + assert (frac = 0) as -> by (by apply Ht). unfold interpolate. by rewrite !Z.mul_0_r.
    + assert (smp buf ((v_pnt_in v + del + 1) mod VIBRATO_L) = past V [x] 0 (del + 1)) as ->; [|done].
      rewrite past_now by lia. rewrite <- Z.add_assoc, <- Hl. apply ring_read; lia.
  - cbn [fst audio_vibrato v_audio_buf v_pnt_in]. rewrite <- Hl, view_push by lia. do 2 f_equal. lia.
Qed.

Lemma vibrato_run xs : forall v, vibrato_ok v -> shorts xs ->
  let V := view (v_audio_buf v) (v_pnt_in v) in let ys := snd (fx_run audio_vibrato v xs) in
  length ys = length xs /\ forall n, 0 <= n < Z.of_nat (length xs) ->
    let del := cyclic (v_sin_array v) VIBRATO_P (v_pnt v) n in
    smp ys n = stereo (fun c => interpolate (cyclic (v_frac_array v) VIBRATO_P (v_pnt v) n) (ch c (past V xs n del)) (ch c (past V xs n (del + 1)))).
Proof.
  induction xs as [|x xs IH]; intros v Hv Hxs V ys; [split; [done|cbn; lia]|]. apply Forall_cons in Hxs as [Hx Hxs].
  destruct (audio_vibrato_step v x Hv Hx) as [Ey Ev], (audio_vibrato_ok v x Hv Hx) as [Hv1 _]. unfold ys. cbn [fx_run].
  assert (forall v1 y, audio_vibrato v x = (v1, y) -> v_sin_array v1 = v_sin_array v /\ v_frac_array v1 = v_frac_array v /\
    v_pnt v1 = (v_pnt v + 1) mod VIBRATO_P) as Hsame by (by intros v1 y [= <- <-]).
  destruct (audio_vibrato v x) as [v1 y]. cbn [fst snd] in *. destruct (Hsame v1 y eq_refl) as (E1 & E2 & E3). clear Hsame.
  destruct (IH v1 Hv1 Hxs) as [Hlen H]. rewrite E1, E2, E3, Ev in H. fold V in Ey, H.
  destruct (fx_run audio_vibrato v1 xs) as [v2 ys']. cbn [snd] in *. split; [cbn; lia|]. intros n Hn. set (del := cyclic (v_sin_array v) VIBRATO_P (v_pnt v) n). cbn [length] in Hn.
  pose proof Hv as [(Hl & _ & _) Hp Hs _ _]. assert (length V = Z.to_nat VIBRATO_L) as HV by (unfold V; rewrite view_length; lia).
  pose proof (cyclic_range _ VIBRATO_P (v_pnt v) n _ _ eq_refl Hs) as Hdel. fold del in Hdel.
  rewrite smp_cons by lia. case_decide as E0.
  - subst n. subst del. rewrite Ey. rewrite !cyclic_0 in * by done. by rewrite !(past_first V x xs) by lia.
  - rewrite H by lia. rewrite !cyclic_next by done. replace (n - 1 + 1) with n by lia. fold del.
    rewrite <- !(past_shift V x xs (n - 1) _ (Z.to_nat VIBRATO_L)) by (done || lia). by replace (n - 1 + 1) with n by lia.
Qed.

(** ** The second-order filter *)

(** The difference equation on the last inputs (the newest first) and outputs,
    with the coefficients b2 b1 b0 and a2 a1, and the third entry of A. *)
Definition biquad_sum (B A : list Z) (x0 x1 x2 y1 y2 y3 : Z) : Z :=
  at_ B 2 * x0 / 4 + at_ B 1 * x1 / 4 + at_ B 0 * x2 / 4 - at_ A 1 * y1 / 4 - at_ A 0 * y2 / 4 - at_ A 2 * y3 / 4.
(** The stored value. *)
Definition biquad (B A : list Z) (sft x0 x1 x2 y1 y2 y3 : Z) : Z :=
  s16 (Z.shiftr (saturate (biquad_sum B A x0 x1 x2 y1 y2 y3)) (13 - sft)).

(** The contents of a ring of three samples, the oldest first; [p] is the
    newest. *)
Definition hist (buf : list sample) (p : Z) : list sample := [smp buf ((p + 1) mod 3); smp buf ((p + 2) mod 3); smp buf p].

Lemma hist_push buf p x : ring 3 buf p -> let q := (p + 1) mod 3 in
  hist (put_smp q x buf) q = [smp buf ((p + 2) mod 3); smp buf p; x].
Proof.
  intros (Hl & _ & Hp) q. assert (p = 0 \/ p = 1 \/ p = 2) as Hc by lia.
  destruct buf as [|a [|b [|d [|]]]]; cbn in Hl; try lia. by destruct Hc as [-> |[-> | ->]].
Qed.

Lemma iir_sum_3 p x y B A c : shorts x -> shorts y -> Forall is_short B -> Forall is_short A ->
  let s l i := ch c (smp l ((p + i + 1) mod 3)) in
  iir_sum 3 p x y B A c = at_ B 2 * s x 2 / 4 + at_ B 1 * s x 1 / 4 + at_ B 0 * s x 0 / 4
    - at_ A 1 * s y 1 / 4 - at_ A 0 * s y 0 / 4 - at_ A 2 * s y 2 / 4.
Proof.
  intros Hx Hy HB HA s. unfold iir_sum. arrays. change (Z.to_nat 3) with 3%nat. cbn [for_up]. change (0 + 1) with 1. change (1 + 1) with 2.
  change (ch c (smp ?l ((p + ?i + 1) mod 3))) with (s l i).
  assert (forall l T i j, shorts l -> Forall is_short T ->
    scaled (at_ T i) (s l j) = at_ T i * s l j / 4 /\ - 2 ^ 28 <= scaled (at_ T i) (s l j) <= 2 ^ 28) as Hsc
    by (intros l T i j Hl HT; apply scaled_range; [by apply at_short|by apply ch_short, smp_short]).
  destruct (Hsc x B 0 0 Hx HB) as [E1 R1], (Hsc x B 1 1 Hx HB) as [E2 R2], (Hsc x B 2 2 Hx HB) as [E3 R3].
  destruct (Hsc y A 0 0 Hy HA) as [E4 R4], (Hsc y A 1 1 Hy HA) as [E5 R5], (Hsc y A 2 2 Hy HA) as [E6 R6].
  rewrite <- E1, <- E2, <- E3, <- E4, <- E5, <- E6. 
  set (b0 := scaled (at_ B 0) _) in *. set (b1 := scaled (at_ B 1) _) in *. set (b2 := scaled (at_ B 2) _) in *.
  set (a0 := scaled (at_ A 0) _) in *. set (a1 := scaled (at_ A 1) _) in *. set (a2 := scaled (at_ A 2) _) in *.
  rewrite (s32_small (0 + b0)), (s32_small (0 + b0 - a0)), (s32_small (0 + b0 - a0 + b1)), (s32_small (0 + b0 - a0 + b1 - a1)),
    (s32_small (0 + b0 - a0 + b1 - a1 + b2)), s32_small by lia. lia.
Qed.

Lemma audio_filter_step f x : filter_ok f -> short_pair x ->
  let X := hist (f_x_buf f) (f_pnt f) in let Y := hist (f_y_buf f) (f_pnt f) in
  let w := stereo (fun c => biquad (f_B f) (f_A f) (f_sftLft f) (ch c x) (ch c (smp X 2)) (ch c (smp X 1)) (ch c (smp Y 2)) (ch c (smp Y 1)) (ch c (smp Y 0))) in
  let f' := fst (audio_filter f x) in
  snd (audio_filter f x) = stereo (fun c => s16 (filter_mix (f_type f) (ch c x) (ch c w))) /\
  hist (f_x_buf f') (f_pnt f') = [smp X 1; smp X 2; x] /\ hist (f_y_buf f') (f_pnt f') = [smp Y 1; smp Y 2; w] /\
  f_B f' = f_B f /\ f_A f' = f_A f /\ f_sftLft f' = f_sftLft f /\ f_type f' = f_type f.
Proof.
  intros [Hx Hy [_ HB] [_ HA] Hs] Hp X Y w f'. set (q := (f_pnt f + 1) mod 3). set (xb := put_smp q x (f_x_buf f)).
  assert (filterIIR_2nd q xb (f_y_buf f) (f_B f) (f_A f) (f_sftLft f) = (fst (filterIIR_2nd q xb (f_y_buf f) (f_B f) (f_A f) (f_sftLft f)), put_smp q w (f_y_buf f))) as E.
  { unfold filterIIR_2nd. arrays. cbn [fst]. f_equal. f_equal. unfold iir_out, w, stereo.
    assert (shorts xb) by (apply put_shorts; [apply Hx|done]). pose proof Hy as (_ & Hys & _).
    rewrite !iir_sum_3 by done. unfold biquad, biquad_sum. subst X Y xb. destruct Hx as (Hlx & _ & Hpp), Hy as (Hly & _ & _).
    destruct (f_x_buf f) as [|u0 [|u1 [|u2 [|]]]]; cbn in Hlx; try lia. destruct (f_y_buf f) as [|v0 [|v1 [|v2 [|]]]]; cbn in Hly; try lia.
    assert (f_pnt f = 0 \/ f_pnt f = 1 \/ f_pnt f = 2) as Hc by lia. by destruct Hc as [Hc|[Hc|Hc]]; unfold q; rewrite Hc. }
  assert (smp (put_smp q w (f_y_buf f)) q = w) as Ew.
  { pose proof (mod3 (f_pnt f)) as H3. fold q in H3. destruct Hy as (Hly & _). rewrite smp_put by lia. by rewrite decide_True. }
  assert (audio_filter f x = (mk_filter (stereo (fun c => filter_mix (f_type f) (ch c x) (ch c w))) xb (put_smp q w (f_y_buf f)) (f_A f) (f_B f) q
    (f_sftLft f) (f_type f), stereo (fun c => s16 (filter_mix (f_type f) (ch c x) (ch c w))))) as Ef.
  { unfold audio_filter. arrays. fold q. fold xb. rewrite E. cbv beta iota zeta. by rewrite Ew. }
  subst f'. rewrite Ef. cbn [fst snd f_x_buf f_y_buf f_pnt f_B f_A f_sftLft f_type].
  split_and!; try done; [exact (hist_push (f_x_buf f) (f_pnt f) x Hx)|exact (hist_push (f_y_buf f) (f_pnt f) w Hy)].
Qed.

Lemma filter_run xs : forall f, filter_ok f -> shorts xs ->
  let ys := snd (fx_run audio_filter f xs) in let X := hist (f_x_buf f) (f_pnt f) ++ xs in
  exists w, length w = length xs /\ length ys = length xs /\ let Y := hist (f_y_buf f) (f_pnt f) ++ w in
    forall n, 0 <= n < Z.of_nat (length xs) ->
      smp w n = stereo (fun c => biquad (f_B f) (f_A f) (f_sftLft f) (ch c (smp X (n + 3))) (ch c (smp X (n + 2))) (ch c (smp X (n + 1)))
        (ch c (smp Y (n + 2))) (ch c (smp Y (n + 1))) (ch c (smp Y n))) /\
      smp ys n = stereo (fun c => s16 (filter_mix (f_type f) (ch c (smp xs n)) (ch c (smp w n)))).
Proof.
  induction xs as [|x xs IH]; intros f Hf Hxs ys X; [exists []; split_and!; try done; cbn; lia|]. apply Forall_cons in Hxs as [Hx Hxs].
  destruct (audio_filter_step f x Hf Hx) as (Ey & EX & EY & E1 & E2 & E3 & E4), (audio_filter_ok f x Hf Hx) as [Hf1 _]. subst ys X. cbn [fx_run].
  destruct (audio_filter f x) as [f1 y]. cbn [fst snd] in *. destruct (IH f1 Hf1 Hxs) as (w & Hlw & Hly & H). rewrite E1, E2, E3, E4, EX, EY in H.
  destruct (fx_run audio_filter f1 xs) as [f2 ys']. cbn [snd] in *. unfold hist in *.
  match type of EY with _ = [_; _; ?t] => set (w0 := t) in EY, H, Ey end. exists (w0 :: w). split_and!; [cbn; lia|cbn; lia|]. intros n Hn. cbn [length] in Hn.
  destruct (decide (n = 0)) as [->|Hn0].
  - split; [done|]. rewrite !smp_cons by lia. by rewrite !decide_True by done.
  - destruct (H (n - 1) ltac:(lia)) as [Hw Hys]. cbn [app] in *. change (smp [?a; ?b; ?c] 1) with b in Hw. change (smp [?a; ?b; ?c] 2) with c in Hw.
    rewrite (smp_cons w0), (smp_cons y), (smp_cons x xs n), !(decide_False (P := n = 0)) by lia.
    split; [rewrite Hw|exact Hys]. assert (forall a l k, 0 <= k -> smp (a :: l) (n + k) = smp l (n - 1 + k)) as Hsh
      by (intros a l k Hk; rewrite smp_cons, decide_False by lia; f_equal; lia).
    rewrite !Hsh by lia. rewrite (smp_cons _ _ n), (decide_False (P := n = 0)) by lia. done.
Qed.

End Lists.

(** ** The effects with any accesses *)

Section Any.
Context {AR : Arrays}.

Lemma delay_inside xs d : delay_ok d -> shorts xs ->
  fx_run audio_delay d xs = fx_run (audio_delay (AR := lists)) d xs /\ delay_ok (fst (fx_run (audio_delay (AR := lists)) d xs)) /\
  shorts (snd (fx_run (audio_delay (AR := lists)) d xs)).
Proof. intros Hd Hxs. apply (fx_run_same _ _ delay_ok); [|done|done]. intros s x Hs Hx. split; [by apply audio_delay_inside|by apply audio_delay_ok]. Qed.
Lemma chorus_inside xs k : chorus_ok k -> shorts xs ->
  fx_run audio_chorus k xs = fx_run (audio_chorus (AR := lists)) k xs /\ chorus_ok (fst (fx_run (audio_chorus (AR := lists)) k xs)) /\
  shorts (snd (fx_run (audio_chorus (AR := lists)) k xs)).
Proof. intros Hk Hxs. apply (fx_run_same _ _ chorus_ok); [|done|done]. intros s x Hs Hx. split; [by apply audio_chorus_inside|by apply audio_chorus_ok]. Qed.
Lemma vibrato_inside xs v : vibrato_ok v -> shorts xs ->
  fx_run audio_vibrato v xs = fx_run (audio_vibrato (AR := lists)) v xs /\ vibrato_ok (fst (fx_run (audio_vibrato (AR := lists)) v xs)) /\
  shorts (snd (fx_run (audio_vibrato (AR := lists)) v xs)).
Proof. intros Hv Hxs. apply (fx_run_same _ _ vibrato_ok); [|done|done]. intros s x Hs Hx. split; [by apply audio_vibrato_inside|by apply audio_vibrato_ok]. Qed.
Lemma filter_inside xs f : filter_ok f -> shorts xs ->
  fx_run audio_filter f xs = fx_run (audio_filter (AR := lists)) f xs /\ filter_ok (fst (fx_run (audio_filter (AR := lists)) f xs)) /\
  shorts (snd (fx_run (audio_filter (AR := lists)) f xs)).
Proof. intros Hf Hxs. apply (fx_run_same _ _ filter_ok); [|done|done]. intros s x Hs Hx. split; [by apply audio_filter_inside|by apply audio_filter_ok]. Qed.
Lemma wahwah_inside xs w : wahwah_ok w -> shorts xs ->
  fx_run audio_wahwah w xs = fx_run (audio_wahwah (AR := lists)) w xs /\ wahwah_ok (fst (fx_run (audio_wahwah (AR := lists)) w xs)) /\
  shorts (snd (fx_run (audio_wahwah (AR := lists)) w xs)).
Proof. intros Hw Hxs. apply (fx_run_same _ _ wahwah_ok); [|done|done]. intros s x Hs Hx. split; [by apply audio_wahwah_inside|by apply audio_wahwah_ok]. Qed.
Lemma tremolo_inside xs t : tremolo_ok t -> shorts xs ->
  fx_run audio_tremolo t xs = fx_run (audio_tremolo (AR := lists)) t xs /\ tremolo_ok (fst (fx_run (audio_tremolo (AR := lists)) t xs)) /\
  shorts (snd (fx_run (audio_tremolo (AR := lists)) t xs)).
Proof. intros Ht Hxs. apply (fx_run_same _ _ tremolo_ok); [|done|done]. intros s x Hs Hx. split; [by apply audio_tremolo_inside|by apply audio_tremolo_ok]. Qed.

(** the chorus mixes delayed samples.  For every stream of samples, output
    [n] is the sum, with the three gains, of input [n] and of the inputs that
    are as old as the two modulation tables say at [n]; the ring buffer of 2083
    samples and its pointers implement the delays, and no sum overflows. *)
Theorem chorus_taps xs k : chorus_ok k -> shorts xs ->
  let V := view (c_audio_buf k) (c_pnt k) in let ys := snd (fx_run audio_chorus k xs) in
  length ys = length xs /\ forall n, 0 <= n < Z.of_nat (length xs) ->
    smp ys n = stereo (fun c => comb2 (c_g k) (ch c (past V xs n (cyclic (c_mod_array1 k) CHORUS_P1 (c_c1_pnt k) n)))
      (ch c (past V xs n (cyclic (c_mod_array2 k) CHORUS_P2 (c_c2_pnt k) n))) (ch c (smp xs n))).
Proof. intros Hk Hxs V ys. subst ys. destruct (chorus_inside xs k Hk Hxs) as [-> _]. exact (chorus_run xs k Hk Hxs). Qed.

(** the vibrato.  For every stream of samples, output [n] lies between the
    inputs that are [del] and [del + 1] samples old, at the fraction the table
    says, where [del] follows the sine table at [n]; nothing overflows, and the
    output never leaves the range of a sample. *)
Theorem vibrato_interpolates xs v : vibrato_ok v -> shorts xs ->
  let V := view (v_audio_buf v) (v_pnt_in v) in let ys := snd (fx_run audio_vibrato v xs) in
  length ys = length xs /\ forall n, 0 <= n < Z.of_nat (length xs) ->
    let del := cyclic (v_sin_array v) VIBRATO_P (v_pnt v) n in
    smp ys n = stereo (fun c => interpolate (cyclic (v_frac_array v) VIBRATO_P (v_pnt v) n) (ch c (past V xs n del)) (ch c (past V xs n (del + 1)))).
Proof. intros Hv Hxs V ys. subst ys. destruct (vibrato_inside xs v Hv Hxs) as [-> _]. exact (vibrato_run xs v Hv Hxs). Qed.

(** *** The filter *)

(** Within the range of a sample for a shift of at most 1, as the sum is
    saturated to 28 bits. *)
Lemma biquad_exact B A sft x0 x1 x2 y1 y2 y3 : 0 <= sft <= 1 ->
  biquad B A sft x0 x1 x2 y1 y2 y3 = Z.shiftr (saturate (biquad_sum B A x0 x1 x2 y1 y2 y3)) (13 - sft).
Proof.
  intros Hs. unfold biquad. apply s16_small. unfold is_short. pose proof (saturate_range (biquad_sum B A x0 x1 x2 y1 y2 y3)) as Hr.
  rewrite Z.shiftr_div_pow2 by lia. assert (sft = 0 \/ sft = 1) as [-> | ->] by lia.
  all: split; [apply Z.div_le_lower_bound|apply Z.div_lt_upper_bound]; lia.
Qed.
Lemma filter_mix_short type x y : is_short x -> is_short y -> is_short (filter_mix type x y).
Proof.
  unfold is_short, filter_mix. intros Hx Hy. repeat case_match; [..|done]; rewrite Z.shiftr_div_pow2 by lia; change (2 ^ 1) with 2; Z.div_mod_to_equations; lia.
Qed.

(** C26: the filter is its difference equation.  For every stream of samples and
    any contents of its buffers, audio_filter computes, for both channels, the
    second-order recursion on the last three inputs and outputs: the sum of the
    six scaled products, in which nothing overflows, saturated to 28 bits,
    shifted right by 13 - sftLft and stored in 16 bits.  For a shift sftLft of 0
    or 1 the value fits; for a larger one the store cuts off its high bits.  The
    output is the stored value (high and low pass) or half its difference from
    (band pass) or sum with (band reject) the input, and always fits. *)
Theorem filter_difference_equation xs f : filter_ok f -> shorts xs ->
  let ys := snd (fx_run audio_filter f xs) in let X := hist (f_x_buf f) (f_pnt f) ++ xs in
  exists w, length w = length xs /\ length ys = length xs /\ let Y := hist (f_y_buf f) (f_pnt f) ++ w in
    forall n, 0 <= n < Z.of_nat (length xs) ->
      let sum c := biquad_sum (f_B f) (f_A f) (ch c (smp X (n + 3))) (ch c (smp X (n + 2))) (ch c (smp X (n + 1)))
        (ch c (smp Y (n + 2))) (ch c (smp Y (n + 1))) (ch c (smp Y n)) in
      let out c := Z.shiftr (saturate (sum c)) (13 - f_sftLft f) in
      smp w n = stereo (fun c => s16 (out c)) /\ (f_sftLft f <= 1 -> smp w n = stereo out) /\
      smp ys n = stereo (fun c => filter_mix (f_type f) (ch c (smp xs n)) (ch c (smp w n))).
Proof.
  intros Hf Hxs ys X. subst ys. destruct (filter_inside xs f Hf Hxs) as [-> _]. destruct (filter_run xs f Hf Hxs) as (w & Hlw & Hly & H).
  exists w. split; [done|]. split; [done|]. intros Y n Hn sum out. destruct (H n Hn) as [Hw Hys]. pose proof (fo_sft _ Hf) as Hs.
  split; [exact Hw|]. split.
  - intros H1. rewrite Hw. unfold stereo. by rewrite !biquad_exact by lia.
  - rewrite Hys. assert (short_pair (smp w n)) as Hsw by (rewrite Hw; apply stereo_short; intros c; apply s16_short).
    pose proof (smp_short xs n Hxs) as Hsx. unfold stereo. by rewrite !s16_small by (apply filter_mix_short; by apply ch_short).
Qed.

(** ** Delay *)

Lemma comb1_range g a b : - 2 ^ 14 <= comb1 g a b < 2 ^ 14.
Proof.
  unfold comb1. pose proof (saturate_range (at_ g 0 * a / 4 + at_ g 1 * b / 4)) as H. rewrite Z.shiftr_div_pow2 by lia.
  assert (- 2 ^ 14 <= saturate (at_ g 0 * a / 4 + at_ g 1 * b / 4) / 2 ^ 13 < 2 ^ 14)
    by (split; [apply Z.div_le_lower_bound|apply Z.div_lt_upper_bound]; lia).
  rewrite s16_small by (unfold is_short; lia). done.
Qed.

(** C38: the delay is an echo.  For every stream of samples, output [n] is the
    sum, with the two gains, of input [n] and the output that lies the delay
    back, or what the buffer held before the stream; the ring buffer implements
    the delay and no sum overflows.  The saturation limits every output to half
    of the range of a sample. *)
Theorem delay_is_echo xs d : delay_ok d -> shorts xs ->
  let D := at_ (d_del d) 0 in let V := view (d_audio_buf d) (d_pnt d) in let ys := snd (fx_run audio_delay d xs) in
  length ys = length xs /\ forall n, 0 <= n < Z.of_nat (length xs) ->
    smp ys n = stereo (fun c => comb1 (d_g d) (ch c (past V ys n D)) (ch c (smp xs n))) /\
    forall c, - 2 ^ 14 <= ch c (smp ys n) < 2 ^ 14.
Proof.
  intros Hd Hxs D V ys. subst ys. destruct (delay_inside xs d Hd Hxs) as [-> _]. set (ys := snd _).
  destruct (delay_run xs d Hd Hxs) as [Hlen H]. split; [done|]. intros n Hn. specialize (H n Hn).
  split; [exact H|]. intros c. fold ys in H. rewrite H. apply (ch_stereo c _ (fun z => - 2 ^ 14 <= z < 2 ^ 14)); apply comb1_range.
Qed.

(** ** Overdrive *)

(** The three zones for a positive sample, without any conversion. *)
Definition smooth (x : Z) : Z := (0x17FFF - (0xFFFF - 0x17FFF * x / 32768) * (0xFFFF - 0x17FFF * x / 32768) / 32768) * 0x2AAB / 32768.
Definition overdrive_curve (x : Z) : Z :=
  if x <=? 0x2AAB then 2 * x else if x <=? 2 * 0x2AAB then smooth x else 32768.

(** The distance from the end of the smooth zone, and its square. *)
Lemma smooth_arg x : 0x2AAB < x <= 2 * 0x2AAB -> - 2 <= 0xFFFF - 0x17FFF * x / 32768 <= 32765.
Proof. intros Hx. Z.div_mod_to_equations. lia. Qed.
Lemma square_range a : - 2 <= a <= 32765 -> 0 <= a * a / 32768 <= 32762.
Proof. intros Ha. split; [apply Z.div_pos; nia|]. assert (a * a / 32768 < 32763); [|lia]. apply Z.div_lt_upper_bound; nia. Qed.
Lemma square_mono a b : - 2 <= a <= b -> a * a / 32768 <= b * b / 32768.
Proof.
  intros H. destruct (decide (0 <= a)) as [Ha|Ha]; [apply Z.div_le_mono; nia|].
  assert (a * a / 32768 = 0) as -> by (apply Z.div_small; nia). apply Z.div_pos; nia.
Qed.
Lemma smooth_range x : 0x2AAB < x <= 2 * 0x2AAB -> 2 * 0x2AAB <= smooth x <= 32768.
Proof.
  intros Hx. pose proof (square_range _ (smooth_arg x Hx)) as H. unfold smooth. revert H. generalize ((0xFFFF - 0x17FFF * x / 32768) * (0xFFFF - 0x17FFF * x / 32768) / 32768).
  intros a Ha. Z.div_mod_to_equations. lia.
Qed.
Lemma smooth_mono x y : 0x2AAB < x -> x <= y <= 2 * 0x2AAB -> smooth x <= smooth y.
Proof.
  intros Hx Hy. unfold smooth. apply Z.div_le_mono; [lia|]. pose proof (smooth_arg y ltac:(lia)).
  assert (0x17FFF * x / 32768 <= 0x17FFF * y / 32768) by (apply Z.div_le_mono; lia).
  pose proof (square_mono (0xFFFF - 0x17FFF * y / 32768) (0xFFFF - 0x17FFF * x / 32768) ltac:(lia)). lia.
Qed.
Lemma curve_range x : 0 <= x -> 0 <= overdrive_curve x <= 32768 /\ (x <= 32768 -> x <= overdrive_curve x).
Proof.
  intros Hx. unfold overdrive_curve. repeat case_match; rewrite ?Z.leb_le, ?Z.leb_gt in *; [lia| |lia]. pose proof (smooth_range x ltac:(lia)). lia.
Qed.
Lemma curve_mono x y : 0 <= x <= y -> overdrive_curve x <= overdrive_curve y.
Proof.
  intros Hx. unfold overdrive_curve. repeat case_match; rewrite ?Z.leb_le, ?Z.leb_gt in *; try lia.
  - pose proof (smooth_range y ltac:(lia)). lia.
  - apply smooth_mono; lia.
  - pose proof (smooth_range x ltac:(lia)). lia.
Qed.

Lemma overdrive1_curve x : is_short x ->
  overdrive1 x = if 0 <=? x then Z.min 32767 (overdrive_curve x) else - overdrive_curve (- x).
Proof.
  unfold is_short. intros Hx. unfold overdrive1, overdrive_curve.
  assert (Z.abs x = if 0 <=? x then x else - x) as Ea by (destruct (Z.leb_spec 0 x); lia).
  destruct (Z.ltb_spec (2 * 0x2AAB) (Z.abs x)) as [H1|H1].
  - destruct (Z.ltb_spec 0 x), (Z.leb_spec 0 x); try lia; [rewrite (proj2 (Z.leb_gt x 0x2AAB)), (proj2 (Z.leb_gt x (2 * 0x2AAB))) by lia; done|].
    by rewrite (proj2 (Z.leb_gt (- x) 0x2AAB)), (proj2 (Z.leb_gt (- x) (2 * 0x2AAB))) by lia.
  - destruct (Z.ltb_spec 0x2AAB (Z.abs x)) as [H2|H2].
    + pose proof (smooth_range (Z.abs x) ltac:(lia)) as Hs. pose proof (smooth_arg (Z.abs x) ltac:(lia)) as Hr.
      pose proof (square_range _ Hr) as Hq. assert (0 <= 0x17FFF * Z.abs x < 2 ^ 32) as Hu by lia. rewrite (u32_small _ Hu).
      rewrite !Z.shiftr_div_pow2 by lia. change (2 ^ 15) with 32768.
      set (a := 0xFFFF - 0x17FFF * Z.abs x / 32768) in *. rewrite (s32_small (a * a)) by nia. rewrite (s32_small ((0x17FFF - _) * _)) by lia.
      subst a. fold (smooth (Z.abs x)).
      destruct (Z.ltb_spec 0 x), (Z.leb_spec 0 x); try lia; rewrite Ea in *.
      * rewrite (proj2 (Z.leb_gt x 0x2AAB)), (proj2 (Z.leb_le x (2 * 0x2AAB))) by lia.
        destruct (Z.ltb_spec 32767 (smooth x)); [lia|]. rewrite s16_small by (unfold is_short; lia). lia.
      * rewrite (proj2 (Z.leb_gt (- x) 0x2AAB)), (proj2 (Z.leb_le (- x) (2 * 0x2AAB))) by lia. rewrite s16_small by (unfold is_short; lia). lia.
    + rewrite Z.shiftl_mul_pow2 by lia. rewrite s16_small by (unfold is_short; lia).
      destruct (Z.leb_spec 0 x); rewrite (proj2 (Z.leb_le _ 0x2AAB)) by lia; lia.
Qed.

(** C39: overdrive.  For all samples the computation follows the curve (twice the
    sample, then a parabola, then full scale; mirrored for negative samples and
    cut at 32767) with no overflow in any step; the output is a sample, it does
    not decrease when the input grows, and it is not weaker than the input. *)
Theorem overdrive_correct x x' : is_short x -> is_short x' -> x <= x' ->
  overdrive1 x = (if 0 <=? x then Z.min 32767 (overdrive_curve x) else - overdrive_curve (- x)) /\
  is_short (overdrive1 x) /\ Z.abs x <= Z.abs (overdrive1 x) /\ overdrive1 x <= overdrive1 x'.
Proof.
  intros Hx Hx' Hle. rewrite !overdrive1_curve by done. split; [done|]. unfold is_short in *.
  destruct (Z.leb_spec 0 x) as [H|H], (Z.leb_spec 0 x') as [H'|H']; try lia.
  - pose proof (curve_range x H) as [? ?]. pose proof (curve_mono x x' ltac:(lia)). lia.
  - pose proof (curve_range (- x) ltac:(lia)) as [? ?]. pose proof (curve_range x' H') as [? ?]. lia.
  - pose proof (curve_range (- x) ltac:(lia)) as [? ?]. pose proof (curve_mono (- x') (- x) ltac:(lia)). lia.
Qed.

(** ** Distortion *)

(** The divisor of the distortion. *)
Lemma distortion1_exact d x : distortion_ok d -> is_short x -> let '(_, a1, y) := distortion1 d x in
  0 < a1 /\ a1 = di_k d * Z.abs x / 2 ^ 15 + (ONE_16b + di_sftLft d) / 2 ^ di_sftLft d /\
  y = s16 (di_kOnePlus d * x ÷ a1 - (if 0 <? x then 1 else 0)).
Proof.
  intros [Hk Hk1 Hs] Hx. unfold is_short, ONE_16b in *. unfold distortion1, ONE_16b.
  rewrite (s32_small (di_kOnePlus d * x)) by nia. assert (0 <= di_k d * Z.abs x <= 32767 * 32768) as Hp by nia.
  rewrite (s32_small (di_k d * Z.abs x)) by lia. rewrite !Z.shiftr_div_pow2 by lia.
  assert (0 <= di_k d * Z.abs x / 2 ^ 15 < 2 ^ 15) as H1 by (split; [apply Z.div_pos; lia|apply Z.div_lt_upper_bound; lia]).
  assert (1 <= (32767 + di_sftLft d) / 2 ^ di_sftLft d < 2 ^ 16) as H2.
  { assert (1 <= 2 ^ di_sftLft d <= 2 ^ 14) by (split; [apply (Z.pow_le_mono_r 2 0); lia|apply Z.pow_le_mono_r; lia]).
    split; [apply Z.div_le_lower_bound; lia|apply Z.div_lt_upper_bound; nia]. }
  rewrite s32_small by lia. rewrite div_c_in by lia. split; [lia|]. split; [done|]. f_equal. case_match; lia.
Qed.
End Any.

Lemma distortion1_inside (A1 A2 : Arrays) d x : distortion_ok d -> is_short x -> distortion1 (AR := A1) d x = distortion1 (AR := A2) d x.
Proof.
  intros Hd Hx. pose proof (distortion1_exact (AR := A1) d x Hd Hx) as H. unfold distortion1 in *. destruct H as [Ha _].
  by rewrite !div_c_in by lia.
Qed.
Lemma distortion_inside (A1 A2 : Arrays) d x : distortion_ok d -> short_pair x ->
  audio_distortion (AR := A1) d x = audio_distortion (AR := A2) d x /\
  distortion_ok (fst (audio_distortion (AR := A2) d x)) /\ short_pair (snd (audio_distortion (AR := A2) d x)).
Proof.
  intros Hd Hx. unfold audio_distortion. rewrite !(distortion1_inside A1 A2) by (done || by apply ch_short). split; [done|].
  destruct (distortion1 d (ch 0 x)) as [[? ?] y0] eqn:E0, (distortion1 d (ch 1 x)) as [[? ?] y1] eqn:E1.
  unfold distortion1 in E0, E1. injection E0 as _ _ <-. injection E1 as _ _ <-. split; [destruct Hd; by constructor|split; apply s16_short].
Qed.

(** ** All effects *)

(** On streams of samples, from the states [ok], the effect is the same for all
    behaviours of accesses outside of arrays and of divisions by 0, which are so
    never made; it ends in such a state, and its outputs are samples. *)
Definition stays_inside {S} (ok : S -> Prop) (step : Arrays -> S -> sample -> S * sample) : Prop :=
  forall A1 A2 xs s, shorts xs -> ok s ->
    fx_run (step A1) s xs = fx_run (step A2) s xs /\ ok (fst (fx_run (step A1) s xs)) /\ shorts (snd (fx_run (step A1) s xs)).
Lemma stays_inside_intro {S} (ok : S -> Prop) (step : Arrays -> S -> sample -> S * sample) :
  (forall A xs s, ok s -> shorts xs -> fx_run (step A) s xs = fx_run (step lists) s xs /\ ok (fst (fx_run (step lists) s xs)) /\
     shorts (snd (fx_run (step lists) s xs))) -> stays_inside ok step.
Proof.
  intros H A1 A2 xs s Hxs Hs. destruct (H A1 xs s Hs Hxs) as (E1 & Ho & Hy), (H A2 xs s Hs Hxs) as (E2 & _). rewrite E1, E2. by split_and!.
Qed.


(** Accesses outside of an array that return garbage and lose the array. *)
Definition garbage : Arrays.
Proof.
  refine (Build_Arrays
    (fun l i => if decide (0 <= i < Z.of_nat (length l)) then smp l i else (12345, -1))
    (fun i s l => if decide (0 <= i < Z.of_nat (length l)) then put_smp i s l else [])
    (fun l i => if decide (0 <= i < Z.of_nat (length l)) then at_ l i else 99)
    (fun i v l => if decide (0 <= i < Z.of_nat (length l)) then <[Z.to_nat i := v]> l else [])
    (fun a b => if decide (b <> 0) then Z.quot a b else 7) _ _ _ _ _); intros; by rewrite decide_True.
Defined.
#[local] Existing Instance lists.
Lemma overdrive_correct_witness : overdrive1 20000 = 32456 /\ overdrive1 20000 <= overdrive1 30000.
Proof.
  destruct (overdrive_correct 20000 30000) as (E & _ & _ & H); [by apply (bool_decide_unpack _)|by apply (bool_decide_unpack _)|lia|].
  split; [rewrite E; vm_compute; reflexivity|exact H].
Defined.

(** A band-pass filter with some coefficients, on three samples. *)
Module SomeFilter.
Definition f : Filter :=
  alloc_filter_vars [16384; -100; 8000] [3000; -20000; 0] 1 2 (mk_filter (0, 0) [(1, 2); (3, 4); (5, 6)] [(0, 0); (7, -7); (0, 0)] [] [] 0 0 0).
Definition xs : list sample := [(20000, -20000); (100, 200); (-32768, 32767)].
Lemma some_filter_ok : filter_ok f.
Proof. constructor; try (split; [|split]); try done; try lia; apply (bool_decide_unpack _); vm_compute; reflexivity. Qed.
End SomeFilter.
Lemma filter_difference_equation_witness :
  snd (fx_run audio_filter SomeFilter.f SomeFilter.xs) = [(5116, -5120); (-5877, 5945); (-24725, 24626)] /\
  exists w, length w = 3%nat /\ smp w 2 = stereo (fun c => biquad [16384; -100; 8000] [3000; -20000; 0] 1
    (ch c (-32768, 32767)) (ch c (100, 200)) (ch c (20000, -20000)) (ch c (smp w 1)) (ch c (smp w 0)) (ch c (5, 6))).
Proof.
  split; [vm_compute; reflexivity|].
  destruct (filter_difference_equation SomeFilter.xs SomeFilter.f SomeFilter.some_filter_ok) as (w & Hl & _ & H);
    [apply (bool_decide_unpack _); vm_compute; reflexivity|].
  exists w. split; [exact Hl|]. destruct (H 2 ltac:(cbn; lia)) as [E _]. rewrite E.
  destruct w as [|w0 [|w1 [|w2 [|]]]]; try done.
Defined.

(** A delay of two samples: the echo of the first one has half its level. *)
Lemma delay_is_echo_witness :
  let d0 := alloc_delay_vars (mk_delay (0, 0) [] [] 0 []) in let d := mk_delay (d_accum d0) (d_g d0) [2; 0] (d_pnt d0) (d_audio_buf d0) in
  let ys := snd (fx_run audio_delay d [(10000, -4000); (0, 0); (0, 1)]) in
  ys = [(9999, -4000); (0, 0); (4999, -1999)] /\ smp ys 2 = stereo (fun c => comb1 [16383; 32767] (ch c (smp ys 0)) (ch c (0, 1))).
Proof.
  intros d0 d ys. split; [vm_compute; reflexivity|].
  destruct (delay_is_echo [(10000, -4000); (0, 0); (0, 1)] d) as [_ H].
  - constructor; [split; [reflexivity|split; [|done]]| |done].
    + apply Forall_replicate. done.
    + apply (bool_decide_unpack _). vm_compute. reflexivity.
  - apply (bool_decide_unpack _). vm_compute. reflexivity.
  - destruct (H 2) as [E _]; [cbn; lia|]. exact E.
Defined.
