(* ===== verification/AudioProc.v ===== *)
(** AudioProc: effects in a chain, audio_process of libaudio/audio.c.

    - An effect takes blocks of [xb_size] samples and produces blocks of
      [yb_size]; they arrive and leave through queuing ports of libmp, through
      buffers of the same core, or through the audio interface.
    - [AudioPorts] is the interface to those: mp_recv, mp_ack and mp_send with the
      buffer pointers of a port, and the two buffers of the audio interface.
      Scratchpad memory is a function from byte addresses to 16-bit values.
    - [AudioFX] has the values that the pointers of the struct point to.
    - [PortSpec] states what a channel promises; the theorem on audio_process
      relies on it. *)

From stdpp Require Import base numbers list.
From S2P Require Import Prelude Dsp AudioFx AudioRun.

Definition amem := Z -> Z.
Definition sth (a v : Z) (m : amem) : amem := fun b => if b =? a then s16 v else m b.
(** Sample [j] of the buffer at [a]: a[2*j] and a[2*j+1]. *)
Definition ld (m : amem) (a j : Z) : sample := (m (a + 4 * j), m (a + 4 * j + 2)).
Definition st (a j : Z) (s : sample) (m : amem) : amem := sth (a + 4 * j + 2) (snd s) (sth (a + 4 * j) (fst s) m).

Class AudioPorts := {
  P : Type;
  recv : Z -> amem -> P -> Z * (amem * P);
  ack : Z -> amem -> P -> Z * (amem * P);
  send : Z -> amem -> P -> Z * (amem * P);
  read_buf : Z -> P -> Z;
  write_buf : Z -> P -> Z;
  adc : P -> sample * P;
  dac : sample -> P -> P;
}.

Inductive con_t := FIRST | LAST | NOC | SAME.
Inductive pt_t := XeY | XgY | XlY.
#[export] Instance con_t_eq_dec : EqDecision con_t.
Proof. solve_decision. Defined.

(** The effect with its state; HP, LP, BP and BR are the filter. *)
Inductive fx_t :=
| DRY | DRY_8S | DELAY (d : IIRdelay) | OVERDRIVE | WAHWAH (w : WahWah) | CHORUS (c : Chorus) | DISTORTION (d : Distortion)
| FILTER (f : Filter) | VIBRATO (v : Vibrato) | TREMOLO (t : Tremolo).

Record AudioFX := mk_fx {
  cpuid : Z; in_con : con_t; out_con : con_t; recv_am : Z; send_am : Z;
  x_pnt : Z; y_pnt : Z; recvChanP : list Z; sendChanP : list Z;
  pt : pt_t; s_am : Z; Nr : Z; Ns : Z; Nf : Z; xb_size : Z; yb_size : Z;
  fx : fx_t; last_init : Z; last_count : Z; latency : Z; }.
Definition set_fx (f : fx_t) (a : AudioFX) : AudioFX :=
  mk_fx (cpuid a) (in_con a) (out_con a) (recv_am a) (send_am a) (x_pnt a) (y_pnt a) (recvChanP a) (sendChanP a)
    (pt a) (s_am a) (Nr a) (Ns a) (Nf a) (xb_size a) (yb_size a) f (last_init a) (last_count a) (latency a).
Definition set_last (i c : Z) (a : AudioFX) : AudioFX :=
  mk_fx (cpuid a) (in_con a) (out_con a) (recv_am a) (send_am a) (x_pnt a) (y_pnt a) (recvChanP a) (sendChanP a)
    (pt a) (s_am a) (Nr a) (Ns a) (Nf a) (xb_size a) (yb_size a) (fx a) i c (latency a).

(** The processing type and the numbers of receives, sends and firings, as
    alloc_audio_vars sets them: (pt, Nr, Ns, Nf). *)
Definition rates (xb yb s : Z) : pt_t * Z * Z * Z :=
  if xb =? yb then (XeY, 1, 1, xb / s)
  else if yb <? xb then (XgY, 1, xb / yb, yb / s)
  else (XlY, yb / xb, 1, xb / s).

Section Chain.
Context {AR : Arrays}.

(** One sample through an effect. *)
Definition fx_step (f : fx_t) (x : sample) : fx_t * sample :=
  match f with
  | DRY => (DRY, audio_dry x)
  | DRY_8S => (DRY_8S, x)
  | DELAY d => let '(d, y) := audio_delay d x in (DELAY d, y)
  | OVERDRIVE => (OVERDRIVE, audio_overdrive x)
  | WAHWAH w => let '(w, y) := audio_wahwah w x in (WAHWAH w, y)
  | CHORUS c => let '(c, y) := audio_chorus c x in (CHORUS c, y)
  | DISTORTION d => let '(d, y) := audio_distortion d x in (DISTORTION d, y)
  | FILTER f => let '(f, y) := audio_filter f x in (FILTER f, y)
  | VIBRATO v => let '(v, y) := audio_vibrato v x in (VIBRATO v, y)
  | TREMOLO t => let '(t, y) := audio_tremolo t x in (TREMOLO t, y)
  end.
(** A firing on the buffers at [x] and [y]: audio_dry_8samples moves eight
    samples, every other effect takes one. *)
Definition fire (f : fx_t) (x y : Z) (m : amem) : fx_t * amem :=
  match f with
  | DRY_8S => (DRY_8S, for_up 8 0 1 (fun i m => st y i (ld m x i) m) m)
  | _ => let '(f, v) := fx_step f (ld m x 0) in (f, st y 0 v m)
  end.
(** PROCESS Nf TIMES, on &xP[xo + ind] and &yP[yo + ind]: the code has offs for
    one of [xo] and [yo], and 0 for the other.  The indices are unsigned. *)
Definition process (a : AudioFX) (xP yP xo yo : Z) (m : amem) : AudioFX * amem :=
  let '(f, m) := for_up (Z.to_nat (Nf a)) 0 1
    (fun i '(f, m) => let ind := u32 (2 * i * s_am a) in
       fire f (xP + 2 * u32 (xo + ind)) (yP + 2 * u32 (yo + ind)) m) (fx a, m) in
  (set_fx f a, m).

Section Process.
Context `{AudioPorts}.

(** An operation on every port of a list: 1 when one of them failed. *)
Fixpoint on_ports (op : Z -> amem -> P -> Z * (amem * P)) (ports : list Z) (retval : Z) (m : amem) (p : P) : Z * amem * P :=
  match ports with
  | [] => (retval, m, p)
  | c :: ports => let '(r, (m, p)) := op c m p in on_ports op ports (if r =? 0 then 1 else retval) m p
  end.
(** The first [recv_am] and [send_am] ports. *)
Definition recv_ports (a : AudioFX) : list Z := take (Z.to_nat (recv_am a)) (recvChanP a).
Definition send_ports (a : AudioFX) : list Z := take (Z.to_nat (send_am a)) (sendChanP a).
(** Add the signals of the other channels into the buffer at [xP]. *)
Definition mix (a : AudioFX) (xP : Z) (p : P) (m : amem) : amem :=
  let shift_am := recv_am a - 1 in
  fold_left (fun m c => let xnxtP := read_buf c p in
    for_up (Z.to_nat (xb_size a)) 0 1 (fun j m =>
      let s := stereo (fun k => Z.shiftr (ch k (ld m xP j)) shift_am + Z.shiftr (ch k (ld m xnxtP j)) shift_am) in st xP j s m) m)
    (tail (recv_ports a)) m.
(** Copy the data at [yP] to the buffers of the other channels. *)
Definition copy_out (a : AudioFX) (yP : Z) (p : P) (m : amem) : amem :=
  fold_left (fun m c => let ynxtP := write_buf c p in
    for_up (Z.to_nat (yb_size a)) 0 1 (fun j m => st ynxtP j (ld m yP j) m) m) (tail (send_ports a)) m.

Definition chan0 (l : list Z) : Z := nth 0 l 0.
(** RECEIVE: the result has the buffer. *)
Definition receive (a : AudioFX) (retval : Z) (m : amem) (p : P) : Z * Z * amem * P :=
  let '(retval, m, p) := on_ports recv (recv_ports a) retval m p in
  let xP := read_buf (chan0 (recvChanP a)) p in
  (retval, xP, mix a xP p m, p).
Definition acknowledge (a : AudioFX) (retval : Z) (m : amem) (p : P) : Z * amem * P := on_ports ack (recv_ports a) retval m p.
Definition send_all (a : AudioFX) (yP retval : Z) (m : amem) (p : P) : Z * amem * P :=
  on_ports send (send_ports a) retval (copy_out a yP p m) p.

Definition audioIn (n xP : Z) (m : amem) (p : P) : amem * P :=
  for_up (Z.to_nat n) 0 1 (fun i '(m, p) => let '(s, p) := adc p in (st xP i s m, p)) (m, p).
Definition audioOut (n yP : Z) (m : amem) (p : P) : P :=
  for_up (Z.to_nat n) 0 1 (fun i p => dac (ld m yP i) p) p.

(** yP at the start. *)
Definition out_buf (a : AudioFX) (p : P) : Z :=
  if decide (out_con a = NOC) then write_buf (chan0 (sendChanP a)) p else y_pnt a.

Definition process_XeY (a : AudioFX) (m : amem) (p : P) : Z * AudioFX * amem * P :=
  let yP := out_buf a p in
  if negb (cpuid a =? 0) || bool_decide (out_con a = SAME) || bool_decide (out_con a = NOC) || (last_init a =? 0) then
    let '(retval, xP, m, p) :=
      if decide (in_con a = NOC) then receive a 0 m p
      else
        let '(m, p) := if (cpuid a =? 0) && bool_decide (in_con a = FIRST) then audioIn (xb_size a) (x_pnt a) m p else (m, p) in
        (0, x_pnt a, m, p) in
    let '(a, m) := process a xP yP 0 0 m in
    let '(retval, m, p) := if decide (in_con a = NOC) then acknowledge a retval m p else (retval, m, p) in
    if decide (out_con a = NOC) then let '(retval, m, p) := send_all a yP retval m p in (retval, a, m, p)
    else if (cpuid a =? 0) && bool_decide (out_con a = LAST) then (retval, a, m, audioOut (yb_size a) yP m p)
    else (retval, a, m, p)
  else
    let n := u32 (last_count a + 1) in
    (0, set_last (if n =? latency a then 0 else last_init a) n a, m, p).

(** REPEAT Ns TIMES, [j] counts up; yP is read again after each send. *)
Fixpoint sends_loop (n : nat) (j xP yP retval : Z) (a : AudioFX) (m : amem) (p : P) : Z * AudioFX * amem * P :=
  match n with
  | O => (retval, a, m, p)
  | S n =>
      let offs := u32 (2 * j * yb_size a) in
      let '(a, m) := process a xP yP offs 0 m in
      let '(retval, m, p) :=
        if (j =? u32 (Ns a - 1)) && bool_decide (in_con a = NOC) then acknowledge a retval m p else (retval, m, p) in
      if decide (out_con a = NOC) then
        let '(retval, m, p) := send_all a yP retval m p in
        sends_loop n (j + 1) xP (write_buf (chan0 (sendChanP a)) p) retval a m p
      else sends_loop n (j + 1) xP yP retval a m p
  end.
Definition process_XgY (a : AudioFX) (m : amem) (p : P) : Z * AudioFX * amem * P :=
  let yP := out_buf a p in
  let '(retval, xP, m, p) := if decide (in_con a = NOC) then receive a 0 m p else (0, x_pnt a, m, p) in
  sends_loop (Z.to_nat (Ns a)) 0 xP yP retval a m p.

(** REPEAT Nr TIMES. *)
Fixpoint receives_loop (n : nat) (j yP retval : Z) (a : AudioFX) (m : amem) (p : P) : Z * AudioFX * amem * P :=
  match n with
  | O => (retval, a, m, p)
  | S n =>
      let '(retval, xP, m, p) := if decide (in_con a = NOC) then receive a retval m p else (retval, x_pnt a, m, p) in
      let offs := u32 (2 * j * xb_size a) in
      let '(a, m) := process a xP yP 0 offs m in
      let '(retval, m, p) := if decide (in_con a = NOC) then acknowledge a retval m p else (retval, m, p) in
      receives_loop n (j + 1) yP retval a m p
  end.
Definition process_XlY (a : AudioFX) (m : amem) (p : P) : Z * AudioFX * amem * P :=
  let yP := out_buf a p in
  let '(retval, a, m, p) := receives_loop (Z.to_nat (Nr a)) 0 yP 0 a m p in
  if decide (out_con a = NOC) then let '(retval, m, p) := send_all a yP retval m p in (retval, a, m, p)
  else (retval, a, m, p).

Definition audio_process (a : AudioFX) (m : amem) (p : P) : Z * AudioFX * amem * P :=
  match pt a with XeY => process_XeY a m p | XgY => process_XgY a m p | XlY => process_XlY a m p end.

End Process.

(** ** What a channel promises *)

(** The bytes of [n] samples at [a]. *)
Definition area (a n b : Z) : Prop := a <= b < a + 4 * n.
Definition same_at (Q : Z -> Prop) (m m' : amem) : Prop := forall b, Q b -> m' b = m b.
Definition block (m : amem) (a n : Z) : list sample := map (ld m a) (seqZ 0 n).

(** A receiving port [rp] with messages of [nx] samples and a sending port [sp]
    with messages of [ny]: [inq] are the messages that arrive, in time, [outq]
    those that were sent.  The buffers are in memory, so that they are not longer
    than the address space. *)
Class PortSpec `{AudioPorts} (rp sp nx ny : Z) := {
  port_ok : P -> Prop;
  inq : P -> list (list sample);
  outq : P -> list (list sample);
  spec_recv : forall m p xs rest, port_ok p -> inq p = xs :: rest ->
    let '(r, (m', p')) := recv rp m p in
    r <> 0 /\ port_ok p' /\ inq p' = rest /\ outq p' = outq p /\ write_buf sp p' = write_buf sp p /\
    block m' (read_buf rp p') nx = xs /\ same_at (area (write_buf sp p) ny) m m';
  spec_ack : forall m p, port_ok p ->
    let '(r, (m', p')) := ack rp m p in
    r <> 0 /\ port_ok p' /\ inq p' = inq p /\ outq p' = outq p /\ write_buf sp p' = write_buf sp p /\
    same_at (area (write_buf sp p) ny) m m';
  spec_send : forall m p, port_ok p ->
    let '(r, (m', p')) := send sp m p in
    r <> 0 /\ port_ok p' /\ inq p' = inq p /\ outq p' = outq p ++ [block m (write_buf sp p) ny] /\
    read_buf rp p' = read_buf rp p /\ same_at (area (read_buf rp p) nx) m m';
  spec_apart : forall p b, port_ok p -> area (read_buf rp p) nx b -> ~ area (write_buf sp p) ny b;
  spec_space : 4 * nx <= 2 ^ 32 /\ 4 * ny <= 2 ^ 32;
}.

(** ** Blocks *)

Lemma block_length m a n : 0 <= n -> Z.of_nat (length (block m a n)) = n.
Proof. intros Hn. unfold block. rewrite length_map, length_seqZ. lia. Qed.
Lemma block_app m a n k : 0 <= n -> 0 <= k -> block m a (n + k) = block m a n ++ block m (a + 4 * n) k.
Proof.
  intros Hn Hk. unfold block. rewrite seqZ_app by lia. rewrite map_app. f_equal. rewrite Z.add_0_l.
  rewrite <- (Z.add_0_r n) at 1. rewrite <- fmap_add_seqZ. rewrite map_map. apply map_ext. intros j. unfold ld. f_equal; f_equal; lia.
Qed.
Lemma block_1 m a : block m a 1 = [ld m a 0].
Proof. done. Qed.
Lemma block_same m m' a n : same_at (area a n) m m' -> block m' a n = block m a n.
Proof.
  intros Hs. unfold block. apply map_ext_in. intros j Hj%list_elem_of_In%elem_of_seqZ. unfold ld.
  rewrite !Hs by (unfold area; lia). done.
Qed.
Lemma same_at_refl Q m : same_at Q m m.
Proof. by intros b. Qed.
Lemma same_at_trans Q m1 m2 m3 : same_at Q m1 m2 -> same_at Q m2 m3 -> same_at Q m1 m3.
Proof. intros H1 H2 b Hb. by rewrite H2, H1. Qed.
Lemma same_at_weaken (Q Q' : Z -> Prop) m m' : same_at Q m m' -> (forall b, Q' b -> Q b) -> same_at Q' m m'.
Proof. intros H HQ b Hb. auto. Qed.

Lemma st_ld a j s m : short_pair s -> ld (st a j s m) a j = s.
Proof.
  intros [H1 H2]. unfold ld, st, sth. rewrite Z.eqb_refl. rewrite (proj2 (Z.eqb_neq (a + 4 * j) (a + 4 * j + 2))), Z.eqb_refl by lia.
  rewrite !s16_small by done. by destruct s.
Qed.
Lemma st_same a j s m : same_at (fun b => ~ area (a + 4 * j) 1 b) m (st a j s m).
Proof. intros b Hb. unfold area in Hb. unfold st, sth. by rewrite !(proj2 (Z.eqb_neq b _)) by lia. Qed.

(** ** Firings *)

Definition is8 (f : fx_t) : bool := match f with DRY_8S => true | _ => false end.
Lemma fx_step_8 f x : is8 (fst (fx_step f x)) = is8 f.
Proof.
  destruct f; try done; cbn; by repeat case_match.
Qed.
Lemma overdrive_short x : short_pair x -> short_pair (audio_overdrive x).
Proof.
  intros Hx. apply stereo_short. intros c. rewrite overdrive1_curve by (by apply ch_short). pose proof (ch_short c x Hx) as H. unfold is_short in *.
  destruct (Z.leb_spec 0 (ch c x)); [pose proof (curve_range (ch c x) ltac:(lia)) as [? _]|pose proof (curve_range (- ch c x) ltac:(lia)) as [? _]]; lia.
Qed.
Lemma fx_step_short f x : short_pair x -> short_pair (snd (fx_step f x)).
Proof.
  intros Hx. destruct f as [| |d| |w|k|d|f|v|t]; cbn [fx_step]; try done.
  - cbn. apply comb_out_short.
  - by apply overdrive_short.
  - unfold audio_wahwah. destruct (filterIIR_2nd _ _ _ _ _ _). apply stereo_short. intros c. apply s16_short.
  - cbn. apply comb_out_short.
  - unfold audio_distortion. destruct (distortion1 d (ch 0 x)) as [[? ?] y0] eqn:E0, (distortion1 d (ch 1 x)) as [[? ?] y1] eqn:E1.
    unfold distortion1 in E0, E1. injection E0 as _ _ <-. injection E1 as _ _ <-. split; apply s16_short.
  - unfold audio_filter. destruct (filterIIR_2nd _ _ _ _ _ _). apply stereo_short. intros c. apply s16_short.
  - apply stereo_short. intros c. apply s16_short.
  - apply stereo_short. intros c. apply s16_short.
Qed.
Lemma fx_run_app {S} (step : S -> sample -> S * sample) xs1 xs2 : forall s,
  fx_run step s (xs1 ++ xs2) = let '(s1, y1) := fx_run step s xs1 in let '(s2, y2) := fx_run step s1 xs2 in (s2, y1 ++ y2).
Proof.
  induction xs1 as [|x xs1 IH]; intros s; cbn [fx_run app]; [by destruct (fx_run step s xs2)|].
  destruct (step s x) as [s0 y]. rewrite IH. destruct (fx_run step s0 xs1) as [s1 y1]. by destruct (fx_run step s1 xs2).
Qed.
Lemma fx_run_dry xs : fx_run fx_step DRY_8S xs = (DRY_8S, xs).
Proof. induction xs as [|x xs IH]; [done|]. cbn. by rewrite IH. Qed.
Lemma fx_run_length {S} (step : S -> sample -> S * sample) xs : forall s, length (snd (fx_run step s xs)) = length xs.
Proof.
  induction xs as [|x xs IH]; intros s; cbn; [done|]. destruct (step s x) as [s1 y]. specialize (IH s1). destruct (fx_run step s1 xs). cbn in *. lia.
Qed.

(** What the firings do to a buffer of [n] samples: the output has the effect
    of the input, and nothing else in memory changes. *)
Definition ran (f : fx_t) (x y n : Z) (m : amem) (r : fx_t * amem) : Prop :=
  fx_run fx_step f (block m x n) = (fst r, block (snd r) y n) /\ same_at (fun b => ~ area y n b) m (snd r).
Definition apart (x y n : Z) : Prop := forall b, area x n b -> ~ area y n b.

Lemma ran_0 f x y m : ran f x y 0 m (f, m).
Proof. split; [done|apply same_at_refl]. Qed.
Lemma ran_app f x y n k m r r' : 0 <= n -> 0 <= k -> apart x y (n + k) ->
  ran f x y n m r -> ran (fst r) (x + 4 * n) (y + 4 * n) k (snd r) r' -> ran f x y (n + k) m r'.
Proof.
  intros Hn Hk Ha [E1 S1] [E2 S2]. split.
  - rewrite !block_app, fx_run_app, E1 by done.
    rewrite <- (block_same m (snd r) (x + 4 * n) k), E2.
    + rewrite (block_same (snd r) (snd r') y n); [done|]. eapply same_at_weaken; [exact S2|]. unfold area. lia.
    + eapply same_at_weaken; [exact S1|]. intros b Hb Hy. apply (Ha b); unfold area in *; lia.
  - eapply same_at_trans; (eapply same_at_weaken; [eassumption|]); unfold area; lia.
Qed.
Lemma ran_1 f x y m v : short_pair (ld m x 0) -> fx_step f (ld m x 0) = v -> ran f x y 1 m (fst v, st y 0 (snd v) m).
Proof.
  intros Hs <-. pose proof (fx_step_short f _ Hs) as Hv. destruct (fx_step f (ld m x 0)) as [f' v] eqn:E. cbn [fst snd] in *. split.
  - rewrite !block_1. cbn [fx_run]. rewrite E. cbn [fst snd]. by rewrite st_ld.
  - pose proof (st_same y 0 v m) as H. by rewrite Z.mul_0_r, Z.add_0_r in H.
Qed.

Lemma block_short_at m x n j : Forall short_pair (block m x n) -> 0 <= j < n -> short_pair (ld m x j).
Proof.
  intros HF Hj. eapply Forall_forall; [exact HF|]. apply list_elem_of_In, in_map, list_elem_of_In, elem_of_seqZ. lia.
Qed.
Lemma ld_shift m x j : ld m x j = ld m (x + 4 * j) 0.
Proof. unfold ld. f_equal; f_equal; lia. Qed.
Lemma st_shift m y j s : st y j s m = st (y + 4 * j) 0 s m.
Proof. unfold st. by rewrite Z.mul_0_r, Z.add_0_r. Qed.

(** The input that is left is as it was. *)
Lemma ran_input f x y n N m r : 0 <= n <= N -> apart x y N -> ran f x y n m r -> block (snd r) (x + 4 * n) (N - n) = block m (x + 4 * n) (N - n).
Proof.
  intros Hn Ha [_ Hs]. apply block_same. eapply same_at_weaken; [exact Hs|]. intros b Hb Hy. apply (Ha b); unfold area in *; lia.
Qed.

(** The samples of a firing. *)
Definition chunk (f : fx_t) : Z := if is8 f then 8 else 1.
Lemma chunk_pos f : 1 <= chunk f.
Proof. unfold chunk. destruct (is8 f); lia. Qed.

Lemma rest_short m x n N : 0 <= n <= N -> Forall short_pair (block m x N) -> Forall short_pair (block m (x + 4 * n) (N - n)).
Proof. intros Hn HF. replace N with (n + (N - n)) in HF by lia. rewrite block_app in HF by lia. by apply Forall_app in HF as [_ HF]. Qed.
Lemma front_short m x n N : 0 <= n <= N -> Forall short_pair (block m x N) -> Forall short_pair (block m x n).
Proof. intros Hn HF. replace N with (n + (N - n)) in HF by lia. rewrite block_app in HF by lia. by apply Forall_app in HF as [HF _]. Qed.

(** [n] steps of [k] samples each, one after the other. *)
Lemma ran_loop (n : nat) k (body : Z -> fx_t * amem -> fx_t * amem) f x y m :
  0 <= k -> apart x y (Z.of_nat n * k) -> Forall short_pair (block m x (Z.of_nat n * k)) ->
  (forall i f1 m1, 0 <= i < Z.of_nat n -> is8 f1 = is8 f ->
     apart (x + 4 * (i * k)) (y + 4 * (i * k)) k -> Forall short_pair (block m1 (x + 4 * (i * k)) k) ->
     ran f1 (x + 4 * (i * k)) (y + 4 * (i * k)) k m1 (body i (f1, m1)) /\ is8 (fst (body i (f1, m1))) = is8 f) ->
  let r := for_up n 0 1 body (f, m) in ran f x y (Z.of_nat n * k) m r /\ is8 (fst r) = is8 f.
Proof.
  intros Hk Ha HF Hb r.
  enough (G : ran f x y ((0 + 1 * Z.of_nat n) * k) m r /\ is8 (fst r) = is8 f) by by rewrite Z.add_0_l, Z.mul_1_l in G.
  apply (for_up_inv (fun i r => ran f x y (i * k) m r /\ is8 (fst r) = is8 f)).
  - rewrite Z.mul_0_l. split; [apply ran_0|done].
  - intros i [f1 m1] Hi. rewrite Z.mul_1_l, Z.add_0_l. intros [Hr H8]. cbn [fst] in H8.
    assert (Hl : (i + 1) * k <= Z.of_nat n * k) by (apply Z.mul_le_mono_nonneg_r; lia).
    assert (Hlo : 0 <= i * k) by nia.
    destruct (Hb i f1 m1) as [Hs H8']; [done|done|intros b Hx Hy; apply (Ha b); unfold area in *; lia| |].
    { pose proof (ran_input f x y (i * k) (Z.of_nat n * k) m (f1, m1) ltac:(lia) Ha Hr) as E. cbn [snd] in E.
      apply (front_short _ _ _ (Z.of_nat n * k - i * k)); [lia|]. rewrite E. apply rest_short; [lia|done]. }
    split; [|done]. replace ((i + 1) * k) with (i * k + k) by lia.
    apply (ran_app _ _ _ _ _ _ (f1, m1)); [done|done| |done|done]. intros b Hx Hy. apply (Ha b); unfold area in *; lia.
Qed.

Lemma fire_1 f x y m : is8 f = false -> short_pair (ld m x 0) ->
  ran f x y 1 m (fire f x y m) /\ is8 (fst (fire f x y m)) = false.
Proof.
  intros H8 Hs. pose proof (ran_1 f x y m _ Hs eq_refl) as Hr. pose proof (fx_step_8 f (ld m x 0)) as E.
  destruct (fx_step f (ld m x 0)) as [f' v] eqn:Ef. cbn [fst snd] in *.
  assert (Ep : fire f x y m = (f', st y 0 v m)) by (destruct f; try done; unfold fire; by rewrite Ef).
  rewrite Ep. split; [done|]. cbn [fst]. congruence.
Qed.
Lemma fire_8 x y m : apart x y 8 -> Forall short_pair (block m x 8) -> ran DRY_8S x y 8 m (fire DRY_8S x y m).
Proof.
  intros Ha HF. unfold fire.
  destruct (ran_loop 8 1 (fun i '(f, m) => (f, st y i (ld m x i) m)) DRY_8S x y m) as [Hr _]; [lia|done|done| |].
  - intros i f1 m1 Hi H8 _ HF1. destruct f1; try done. split; [|done]. rewrite Z.mul_1_r in *.
    rewrite st_shift, ld_shift. apply (ran_1 DRY_8S _ _ _ (DRY_8S, ld m1 (x + 4 * i) 0)); [|done].
    apply (block_short_at _ _ 1); [done|lia].
  - cbn [for_up] in *. done.
Qed.
Lemma fire_ran f x y m : apart x y (chunk f) -> Forall short_pair (block m x (chunk f)) ->
  ran f x y (chunk f) m (fire f x y m) /\ is8 (fst (fire f x y m)) = is8 f.
Proof.
  unfold chunk. intros Ha HF. destruct (is8 f) eqn:E8.
  - destruct f; try done. split; [by apply fire_8|done].
  - apply fire_1; [done|]. apply (block_short_at _ _ 1); [done|lia].
Qed.

(** The loop over the firings, on parts of the buffers that are in memory. *)
Lemma process_ran a xP yP xo yo m n : s_am a = chunk (fx a) -> 0 <= Nf a -> n = Nf a * s_am a ->
  0 <= xo -> 0 <= yo -> xo + 2 * n <= 2 ^ 32 -> yo + 2 * n <= 2 ^ 32 ->
  apart (xP + 2 * xo) (yP + 2 * yo) n -> Forall short_pair (block m (xP + 2 * xo) n) ->
  let '(a', m') := process a xP yP xo yo m in
  exists f', a' = set_fx f' a /\ is8 f' = is8 (fx a) /\ ran (fx a) (xP + 2 * xo) (yP + 2 * yo) n m (f', m').
Proof.
  intros Hs HN -> Hxo Hyo Hx Hy Ha HF. unfold process. pose proof (chunk_pos (fx a)).
  match goal with |- context [for_up ?n 0 1 ?b ?s] => destruct (ran_loop n (s_am a) b (fx a) (xP + 2 * xo) (yP + 2 * yo) m) as [Hr H8] end;
    [lia|by rewrite Z2Nat.id|by rewrite Z2Nat.id| |].
  - intros i f1 m1 Hi H8. assert (0 <= i * s_am a /\ i * s_am a < Nf a * s_am a) as [H1 H2] by nia.
    rewrite (u32_small (2 * i * s_am a)), !u32_small by lia.
    replace (xP + 2 * (xo + 2 * i * s_am a)) with (xP + 2 * xo + 4 * (i * s_am a)) by lia.
    replace (yP + 2 * (yo + 2 * i * s_am a)) with (yP + 2 * yo + 4 * (i * s_am a)) by lia. rewrite Hs, <- H8.
    replace (chunk (fx a)) with (chunk f1) by (unfold chunk; by rewrite H8). apply fire_ran.
  - rewrite Z2Nat.id in Hr by done. destruct (for_up _ _ _ _ _) as [f' m']. cbn [fst] in *. eauto.
Qed.

(** ** Streams *)

Section Stream.
Context {AP : AudioPorts} {rp sp nx ny : Z} {PS : PortSpec rp sp nx ny}.

(** An effect between two channels, with the rates of alloc_audio_vars. *)
Definition chained (a : AudioFX) : Prop :=
  in_con a = NOC /\ out_con a = NOC /\ recv_ports a = [rp] /\ recvChanP a = [rp] /\ send_ports a = [sp] /\ sendChanP a = [sp] /\
  xb_size a = nx /\ yb_size a = ny /\ s_am a = chunk (fx a).

Lemma chained_set f a : is8 f = is8 (fx a) -> chained a -> chained (set_fx f a).
Proof. unfold chained, chunk. intros E. cbn. by rewrite E. Qed.

Lemma receive_spec a m p xs rest : chained a -> port_ok p -> inq p = xs :: rest ->
  let '(r, xP, m', p') := receive a 0 m p in
  r = 0 /\ xP = read_buf rp p' /\ port_ok p' /\ inq p' = rest /\ outq p' = outq p /\ write_buf sp p' = write_buf sp p /\
  block m' xP nx = xs /\ same_at (area (write_buf sp p) ny) m m'.
Proof.
  intros (_ & _ & E1 & E2 & _) Hp Hq. unfold receive, mix. rewrite E1, E2. cbn [on_ports tail fold_left chan0 nth].
  pose proof (spec_recv m p xs rest Hp Hq) as Hs. destruct (recv rp m p) as [r [m' p']]. destruct Hs as (Hr & Hs).
  rewrite (proj2 (Z.eqb_neq r 0) Hr). by destruct_and?; split_and!.
Qed.
Lemma acknowledge_spec a m p : chained a -> port_ok p ->
  let '(r, m', p') := acknowledge a 0 m p in
  r = 0 /\ port_ok p' /\ inq p' = inq p /\ outq p' = outq p /\ write_buf sp p' = write_buf sp p /\
  same_at (area (write_buf sp p) ny) m m'.
Proof.
  intros (_ & _ & E1 & E2 & _) Hp. unfold acknowledge. rewrite E1. cbn [on_ports].
  pose proof (spec_ack m p Hp) as Hs. destruct (ack rp m p) as [r [m' p']]. destruct Hs as (Hr & Hs).
  by rewrite (proj2 (Z.eqb_neq r 0) Hr).
Qed.
Lemma send_spec a yP m p : chained a -> port_ok p ->
  let '(r, m', p') := send_all a yP 0 m p in
  r = 0 /\ port_ok p' /\ inq p' = inq p /\ outq p' = outq p ++ [block m (write_buf sp p) ny] /\
  read_buf rp p' = read_buf rp p /\ same_at (area (read_buf rp p) nx) m m'.
Proof.
  intros (_ & _ & _ & _ & E1 & E2 & _) Hp. unfold send_all, copy_out. rewrite E1. cbn [on_ports tail fold_left].
  pose proof (spec_send m p Hp) as Hs. destruct (send sp m p) as [r [m' p']]. destruct Hs as (Hr & Hs).
  by rewrite (proj2 (Z.eqb_neq r 0) Hr).
Qed.

Lemma out_buf_chained a p : chained a -> out_buf a p = write_buf sp p.
Proof. intros (_ & E & _ & _ & _ & E2 & _). unfold out_buf. by rewrite E, E2, decide_True. Qed.

(** The part of the input that a firing block takes is apart from the output. *)
Lemma ports_apart p i j n : port_ok p -> 0 <= i -> 0 <= j -> i + n <= nx -> j + n <= ny ->
  apart (read_buf rp p + 4 * i) (write_buf sp p + 4 * j) n.
Proof. intros Hp ? ? ? ? b Hx Hy. apply (spec_apart p b Hp); unfold area in *; lia. Qed.

(** The repeated sends of XgY: [n] are left, and [xs] is the input for them. *)
Lemma sends_loop_spec (n : nat) : forall j a m p xs,
  chained a -> port_ok p -> 0 < ny -> Nf a * s_am a = ny -> 0 <= Nf a -> 0 <= j -> j + Z.of_nat n = Ns a -> Ns a * ny = nx -> Ns a < 2 ^ 32 ->
  block m (read_buf rp p + 4 * (j * ny)) (Z.of_nat n * ny) = xs -> Forall short_pair xs ->
  let '(r, a', m', p') := sends_loop n j (read_buf rp p) (write_buf sp p) 0 a m p in
  exists f' outs, r = 0 /\ a' = set_fx f' a /\ port_ok p' /\ inq p' = inq p /\ outq p' = outq p ++ outs /\
    length outs = n /\ Forall (fun o => Z.of_nat (length o) = ny) outs /\ fx_run fx_step (fx a) xs = (f', concat outs).
Proof.
  induction n as [|n IH]; intros j a m p xs Ha Hp Hny HNf HNf0 Hj HNs Hnx Hlt Hb HF.
  { cbn [sends_loop]. exists (fx a), []. rewrite app_nil_r, <- Hb. split_and!; try done. by destruct a. }
  pose proof Ha as (Ein & Eout & _ & _ & _ & Esp & _ & Eyb & Es). cbn [sends_loop]. rewrite Eyb.
  replace (Z.of_nat (S n) * ny) with (ny + Z.of_nat n * ny) in Hb by lia. rewrite block_app in Hb by nia.
  rewrite <- Hb in HF. apply Forall_app in HF as [HF1 HF2].
  assert (Hle : j * ny + ny <= nx) by nia. assert (Hlo : 0 <= j * ny) by nia.
  assert (Hap := ports_apart p (j * ny) 0 ny Hp ltac:(lia) ltac:(lia) Hle ltac:(lia)). rewrite Z.mul_0_r, Z.add_0_r in Hap.
  pose proof spec_space as [Hsx Hsy]. rewrite (u32_small (2 * j * ny)) by lia.
  pose proof (process_ran a (read_buf rp p) (write_buf sp p) (2 * j * ny) 0 m ny Es HNf0 (eq_sym HNf)) as Hpr.
  replace (2 * (2 * j * ny)) with (4 * (j * ny)) in Hpr by lia. rewrite Z.mul_0_r, Z.add_0_r in Hpr.
  specialize (Hpr ltac:(lia) ltac:(lia) ltac:(lia) ltac:(lia) Hap HF1).
  destruct (process a _ _ _ _ m) as [a1 m1]. destruct Hpr as (f1 & -> & H8 & Hrun & Hsame). cbn [fst snd] in *.
  assert (Ha1 := chained_set _ _ H8 Ha).
  change (in_con (set_fx f1 a)) with (in_con a). change (out_con (set_fx f1 a)) with (out_con a).
  change (sendChanP (set_fx f1 a)) with (sendChanP a). change (Ns (set_fx f1 a)) with (Ns a).
  rewrite bool_decide_true, andb_true_r, Esp by done. destruct (decide (out_con a = NOC)); [|done]. rewrite (u32_small (Ns a - 1)) by lia. change (chan0 [sp]) with sp.
  destruct n as [|n]; [rewrite (proj2 (Z.eqb_eq j _)) by lia|rewrite (proj2 (Z.eqb_neq j _)) by lia].
  - pose proof (acknowledge_spec (set_fx f1 a) m1 p Ha1 Hp) as Hk. destruct (acknowledge _ _ _ _) as [[r2 m2] p2].
    destruct Hk as (-> & Hp2 & Ei2 & Eo2 & Ew2 & Hs2).
    pose proof (send_spec (set_fx f1 a) (write_buf sp p) m2 p2 Ha1 Hp2) as Hk. destruct (send_all _ _ _ _ _) as [[r3 m3] p3].
    destruct Hk as (-> & Hp3 & Ei3 & Eo3 & _). cbn [sends_loop]. rewrite Ew2, (block_same _ _ _ _ Hs2) in Eo3.
    exists f1, [block m1 (write_buf sp p) ny]. split_and!; try done; [congruence|congruence| |].
    + constructor; [|done]. apply block_length. lia.
    + rewrite <- Hb. replace (Z.of_nat 0 * ny) with 0 by lia. cbn [concat]. by rewrite !app_nil_r.
  - pose proof (send_spec (set_fx f1 a) (write_buf sp p) m1 p Ha1 Hp) as Hk. destruct (send_all _ _ _ _ _) as [[r3 m3] p3].
    destruct Hk as (-> & Hp3 & Ei3 & Eo3 & Er3 & Hs3).
    assert (Hin : same_at (area (read_buf rp p) nx) m m1).
    { eapply same_at_weaken; [exact Hsame|]. intros b Hx. by apply spec_apart. }
    assert (Hnx' : (j + 1) * ny + Z.of_nat (S n) * ny = nx) by (rewrite <- Hnx; rewrite <- HNs; nia).
    pose proof (IH (j + 1) (set_fx f1 a) m3 p3 (block m (read_buf rp p + 4 * (j * ny) + 4 * ny) (Z.of_nat (S n) * ny)) Ha1 Hp3) as Hk.
    rewrite Er3 in Hk. destruct (sends_loop _ _ _ _ _ _ _ _) as [[[r4 a4] m4] p4].
    destruct Hk as (f4 & outs & -> & -> & Hp4 & Ei4 & Eo4 & El4 & HF4 & Hrun4); try done; try lia; [cbn; lia| |].
    { replace (read_buf rp p + 4 * ((j + 1) * ny)) with (read_buf rp p + 4 * (j * ny) + 4 * ny) by lia. apply block_same.
      eapply same_at_trans; (eapply same_at_weaken; [eassumption|]); unfold area; lia. }
    exists f4, (block m1 (write_buf sp p) ny :: outs). cbn [fx set_fx] in Hrun4. split_and!; try done; [congruence| |cbn; lia| |].
    + by rewrite Eo4, Eo3, <- app_assoc.
    + constructor; [apply block_length; lia|done].
    + rewrite <- Hb, fx_run_app, Hrun, Hrun4. done.
Qed.

(** The repeated receives of XlY: [n] are left; what is already in the output
    buffer stays. *)
Lemma receives_loop_spec (n : nat) : forall j a m p blocks rest,
  chained a -> port_ok p -> 0 < nx -> Nf a * s_am a = nx -> 0 <= Nf a -> 0 <= j -> j + Z.of_nat n = Nr a -> Nr a * nx = ny ->
  inq p = blocks ++ rest -> length blocks = n -> Forall short_pair (concat blocks) ->
  let '(r, a', m', p') := receives_loop n j (write_buf sp p) 0 a m p in
  exists f', r = 0 /\ a' = set_fx f' a /\ is8 f' = is8 (fx a) /\ port_ok p' /\ inq p' = rest /\ outq p' = outq p /\
    write_buf sp p' = write_buf sp p /\ same_at (area (write_buf sp p) (j * nx)) m m' /\
    fx_run fx_step (fx a) (concat blocks) = (f', block m' (write_buf sp p + 4 * (j * nx)) (Z.of_nat n * nx)).
Proof.
  induction n as [|n IH]; intros j a m p blocks rest Ha Hp Hnx HNf HNf0 Hj HNr Hny Hq Hl HF.
  { destruct blocks; [|done]. cbn [receives_loop]. exists (fx a). split_and!; try done. by destruct a. }
  destruct blocks as [|xs blocks]; [done|]. injection Hl as Hl. cbn [concat] in HF. apply Forall_app in HF as [HF1 HF2].
  pose proof Ha as (Ein & Eout & _ & _ & _ & Esp & Exb & Eyb & Es). cbn [receives_loop]. rewrite decide_True by done.
  pose proof (receive_spec a m p xs (blocks ++ rest) Ha Hp Hq) as Hk. destruct (receive a 0 m p) as [[[r1 xP] m1] p1].
  destruct Hk as (-> & -> & Hp1 & Ei1 & Eo1 & Ew1 & Hx1 & Hs1). rewrite Exb.
  assert (Hle : j * nx + nx <= ny) by nia. assert (Hlo : 0 <= j * nx) by nia.
  assert (Hap := ports_apart p1 0 (j * nx) nx Hp1 ltac:(lia) ltac:(lia) ltac:(lia) Hle). rewrite Z.mul_0_r, Z.add_0_r, Ew1 in Hap.
  pose proof spec_space as [Hsx Hsy]. rewrite (u32_small (2 * j * nx)) by lia. rewrite <- Hx1 in HF1.
  pose proof (process_ran a (read_buf rp p1) (write_buf sp p) 0 (2 * j * nx) m1 nx Es HNf0 (eq_sym HNf)) as Hpr.
  replace (2 * (2 * j * nx)) with (4 * (j * nx)) in Hpr by lia. rewrite Z.mul_0_r, Z.add_0_r in Hpr.
  specialize (Hpr ltac:(lia) ltac:(lia) ltac:(lia) ltac:(lia) Hap HF1).
  destruct (process a _ _ _ _ m1) as [a2 m2]. destruct Hpr as (f2 & -> & H8 & Hrun & Hs2). cbn [fst snd] in *.
  assert (Ha2 := chained_set _ _ H8 Ha). change (in_con (set_fx f2 a)) with (in_con a). rewrite decide_True by done.
  pose proof (acknowledge_spec (set_fx f2 a) m2 p1 Ha2 Hp1) as Hk. destruct (acknowledge _ _ _ _) as [[r3 m3] p3].
  destruct Hk as (-> & Hp3 & Ei3 & Eo3 & Ew3 & Hs3).
  pose proof (IH (j + 1) (set_fx f2 a) m3 p3 blocks rest Ha2 Hp3) as Hk. rewrite Ew3, Ew1 in Hk. rewrite Ew1 in Hs3.
  destruct (receives_loop _ _ _ _ _ _ _) as [[[r4 a4] m4] p4].
  destruct Hk as (f4 & -> & -> & H84 & Hp4 & Ei4 & Eo4 & Ew4 & Hs4 & Hrun4); try done; try lia; [cbn; lia|congruence|].
  exists f4. split_and!; try done; [cbn in H84; congruence|congruence| |].
  - eapply same_at_trans; [eapply same_at_weaken; [exact Hs1|unfold area; lia]|].
    eapply same_at_trans; [eapply same_at_weaken; [exact Hs2|unfold area; lia]|].
    eapply same_at_trans; (eapply same_at_weaken; [eassumption|unfold area; lia]).
  - replace (Z.of_nat (S n) * nx) with (nx + Z.of_nat n * nx) by lia. cbn [concat fx set_fx] in *. rewrite block_app by nia.
    rewrite fx_run_app, <- Hx1, Hrun, Hrun4.
    replace (write_buf sp p + 4 * ((j + 1) * nx)) with (write_buf sp p + 4 * (j * nx) + 4 * nx) by lia.
    rewrite (block_same m2 m4 (write_buf sp p + 4 * (j * nx)) nx); [done|].
    eapply same_at_trans; (eapply same_at_weaken; [eassumption|unfold area; lia]).
Qed.

(** The result of a run of an effect in a chain. *)
Definition streamed (a : AudioFX) (p : P) (blocks rest : list (list sample)) (res : Z * AudioFX * amem * P) : Prop :=
  let '(r, a', m', p') := res in
  exists f' outs, r = 0 /\ a' = set_fx f' a /\ port_ok p' /\ inq p' = rest /\ outq p' = outq p ++ outs /\
    Z.of_nat (length outs) = Ns a /\ Forall (fun o => Z.of_nat (length o) = ny) outs /\
    fx_run fx_step (fx a) (concat blocks) = (f', concat outs).

Lemma XgY_streams a m p xs rest : chained a -> port_ok p -> 0 < ny -> Nf a * s_am a = ny -> 0 <= Nf a -> 0 <= Ns a < 2 ^ 32 -> Ns a * ny = nx ->
  inq p = xs :: rest -> Forall short_pair xs -> streamed a p [xs] rest (process_XgY a m p).
Proof.
  intros Ha Hp Hny HNf HNf0 HNs Hnx Hq HF. unfold process_XgY. rewrite out_buf_chained by done. pose proof Ha as (Ein & _).
  rewrite decide_True by done. pose proof (receive_spec a m p xs rest Ha Hp Hq) as Hk. destruct (receive a 0 m p) as [[[r1 xP] m1] p1].
  destruct Hk as (-> & -> & Hp1 & Ei1 & Eo1 & Ew1 & Hx1 & Hs1). rewrite <- Ew1.
  pose proof (sends_loop_spec (Z.to_nat (Ns a)) 0 a m1 p1 xs Ha Hp1) as Hk. destruct (sends_loop _ _ _ _ _ _ _ _) as [[[r2 a2] m2] p2].
  destruct Hk as (f' & outs & -> & -> & Hp2 & Ei2 & Eo2 & El & HFo & Hrun); try done; try lia.
  { rewrite Z.mul_0_l, Z.mul_0_r, Z.add_0_r, Z2Nat.id by lia. by rewrite Hnx. }
  exists f', outs. cbn [concat]. rewrite app_nil_r. split_and!; try done; try congruence; lia.
Qed.
Lemma XlY_streams a m p blocks rest : chained a -> port_ok p -> 0 < nx -> Nf a * s_am a = nx -> 0 <= Nf a -> 0 <= Nr a -> Nr a * nx = ny -> Ns a = 1 ->
  inq p = blocks ++ rest -> Z.of_nat (length blocks) = Nr a -> Forall short_pair (concat blocks) -> streamed a p blocks rest (process_XlY a m p).
Proof.
  intros Ha Hp Hnx HNf HNf0 HNr Hny HNs Hq Hl HF. unfold process_XlY. rewrite out_buf_chained by done.
  pose proof (receives_loop_spec (Z.to_nat (Nr a)) 0 a m p blocks rest Ha Hp) as Hk. destruct (receives_loop _ _ _ _ _ _ _) as [[[r2 a2] m2] p2].
  destruct Hk as (f' & -> & -> & H8 & Hp2 & Ei2 & Eo2 & Ew2 & _ & Hrun); try done; try lia.
  pose proof Ha as (_ & Eout & _). change (out_con (set_fx f' a)) with (out_con a). rewrite decide_True by done.
  pose proof (send_spec (set_fx f' a) (write_buf sp p) m2 p2 (chained_set _ _ H8 Ha) Hp2) as Hk. destruct (send_all _ _ _ _ _) as [[r3 m3] p3].
  destruct Hk as (-> & Hp3 & Ei3 & Eo3 & _). rewrite Z.mul_0_l, Z.mul_0_r, Z.add_0_r, Z2Nat.id, Hny in Hrun by lia.
  exists f', [block m2 (write_buf sp p) ny]. cbn [concat]. rewrite app_nil_r. split_and!; try done; try congruence.
  constructor; [|done]. apply block_length. nia.
Qed.
(** With equal blocks the code does what it does with one receive of XlY. *)
Lemma XeY_as_XlY a m p : chained a -> Nr a = 1 -> process_XeY a m p = process_XlY a m p.
Proof.
  intros Ha HN. pose proof Ha as (Ein & Eout & _ & _ & _ & Esp & _). unfold process_XeY, process_XlY. rewrite HN.
  change (Z.to_nat 1) with 1%nat. cbn [receives_loop]. rewrite Eout, (bool_decide_true (NOC = NOC)), orb_true_r by done. cbn [orb].
  rewrite !decide_True by done. destruct (receive a 0 m p) as [[[r xP] m1] p1].
  change (u32 (2 * 0 * xb_size a)) with 0. destruct (process a xP (out_buf a p) 0 0 m1) as [a2 m2] eqn:E.
  assert (in_con a2 = NOC /\ out_con a2 = NOC) as [? ?].
  { unfold process in E. destruct (for_up _ _ _ _ _) as [f m3]. by injection E as <- <-. }
  rewrite !decide_True by done. destruct (acknowledge _ _ _ _) as [[? ?] ?]. cbv beta iota. destruct (decide (out_con a2 = NOC)); done.
Qed.

(** C25: an effect between two channels processes the stream.  When the blocks
    of one side are a multiple of those of the other, whatever their sizes in
    memory, and the messages arrive in time, audio_process receives the [Nr] messages it needs, acknowledges them, sends
    [Ns] messages of [yb_size] samples and returns 0; the samples it sends are
    those of the effect run over the samples it received, in order, and the
    state of the effect carries over to the next call. *)
Theorem audio_process_stream a m p blocks rest :
  chained a -> rates nx ny (s_am a) = (pt a, Nr a, Ns a, Nf a) ->
  0 < nx < 2 ^ 32 -> 0 < ny < 2 ^ 32 -> (Z.min nx ny | Z.max nx ny) -> (s_am a | Z.min nx ny) ->
  port_ok p -> inq p = blocks ++ rest -> Z.of_nat (length blocks) = Nr a -> Forall (Forall short_pair) blocks ->
  let '(r, a', m', p') := audio_process a m p in
  exists f' outs, r = 0 /\ a' = set_fx f' a /\ port_ok p' /\ inq p' = rest /\ outq p' = outq p ++ outs /\
    Z.of_nat (length outs) = Ns a /\ Forall (fun o => Z.of_nat (length o) = ny) outs /\
    fx_run fx_step (fx a) (concat blocks) = (f', concat outs).
Proof.
  intros Ha Hr Hx Hy [k Hk] [c Hc] Hp Hq Hl HF%Forall_concat. change (streamed a p blocks rest (audio_process a m p)).
  pose proof Ha as (_ & _ & _ & _ & _ & _ & _ & _ & Es). pose proof (chunk_pos (fx a)) as Hs. rewrite <- Es in Hs.
  unfold rates, audio_process in *. destruct (Z.eqb_spec nx ny) as [E|Hne]; [|destruct (Z.ltb_spec ny nx)]; injection Hr as <- E1 E2 E3.
  - rewrite Z.min_l in Hc by lia. rewrite Hc, Z.div_mul in E3 by lia.
    assert (0 < c) by nia. rewrite XeY_as_XlY by done. apply XlY_streams; try done; lia.
  - rewrite Z.min_r, Z.max_l in * by lia. rewrite Hc, Z.div_mul in E3 by lia. rewrite Hk, Z.div_mul in E2 by lia.
    destruct blocks as [|xs [|]]; [cbn in Hl; lia| |cbn in Hl; lia]. cbn [concat] in HF. rewrite app_nil_r in HF.
    assert (0 < c) by nia. assert (0 < k <= nx) by nia. apply XgY_streams; try done; lia.
  - rewrite Z.min_l, Z.max_r in * by lia. rewrite Hc, Z.div_mul in E3 by lia. rewrite Hk, Z.div_mul in E1 by lia.
    assert (0 < c) by nia. assert (0 < k) by nia. apply XlY_streams; try done; lia.
Qed.
End Stream.
End Chain.

(** ** A channel in memory *)

#[local] Existing Instance lists.

(** Two buffers at each end, used in turn, and the messages as lists. *)
Module Loopback.
Record chan := mk_chan { c_in : list (list sample); c_out : list (list sample); c_r : bool; c_w : bool }.
Definition c_read (c : chan) : Z := if c_r c then 0 else 400.
Definition c_write (c : chan) : Z := if c_w c then 1000 else 1400.
Fixpoint fill (a : Z) (xs : list sample) (m : amem) : amem :=
  match xs with [] => m | x :: xs => fill (a + 4) xs (st a 0 x m) end.
Definition l_recv (_ : Z) (m : amem) (c : chan) : Z * (amem * chan) :=
  match c_in c with
  | [] => (0, (m, c))
  | xs :: rest => let c' := mk_chan rest (c_out c) (negb (c_r c)) (c_w c) in (1, (fill (c_read c') xs m, c'))
  end.
Definition l_send (n _ : Z) (m : amem) (c : chan) : Z * (amem * chan) :=
  (1, (m, mk_chan (c_in c) (c_out c ++ [block m (c_write c) n]) (c_r c) (negb (c_w c)))).
Definition loop_ports (n : Z) : AudioPorts :=
  {| P := chan; recv := l_recv; ack _ m c := (1, (m, c)); send := l_send n; read_buf _ := c_read; write_buf _ := c_write;
     adc c := ((0, 0), c); dac _ c := c |}.

Lemma fill_same xs : forall a m, same_at (fun b => ~ area a (Z.of_nat (length xs)) b) m (fill a xs m).
Proof.
  induction xs as [|x xs IH]; intros a m; cbn [fill]; [apply same_at_refl|].
  eapply same_at_trans; (eapply same_at_weaken; [apply st_same||apply IH|]); unfold area; cbn [length]; lia.
Qed.
Lemma fill_block xs : forall a m, Forall short_pair xs -> block (fill a xs m) a (Z.of_nat (length xs)) = xs.
Proof.
  induction xs as [|x xs IH]; intros a m HF; [done|]. apply Forall_cons in HF as [Hx HF]. cbn [fill length].
  replace (Z.of_nat (S (length xs))) with (1 + Z.of_nat (length xs)) by lia. rewrite block_app by lia.
  rewrite (block_same (st a 0 x m)); [|eapply same_at_weaken; [apply fill_same|unfold area; lia]].
  rewrite block_1, st_ld, Z.mul_1_r, IH by done. done.
Qed.

(** Messages of at most 100 samples fit the buffers. *)
Program Definition loop_spec (nx ny : Z) (Hx : 0 <= nx <= 100) (Hy : 0 <= ny <= 100) : @PortSpec (loop_ports ny) 0 1 nx ny :=
  {| port_ok (c : @P (loop_ports ny)) := Forall (fun xs => Z.of_nat (length xs) = nx /\ Forall short_pair xs) (c_in c);
     inq := c_in; outq := c_out |}.
Next Obligation.
  intros nx ny Hx Hy m c xs rest Hok Hq. cbn in *. unfold l_recv. rewrite Hq in Hok |- *. apply Forall_cons in Hok as [[Hl HF] Hok].
  split_and!; try done.
  - rewrite <- Hl. by apply fill_block.
  - eapply same_at_weaken; [apply fill_same|]. unfold area, c_read, c_write. cbn. repeat case_match; lia.
Qed.
Next Obligation. intros. cbn. split_and!; try done; apply same_at_refl. Qed.
Next Obligation. intros. cbn. split_and!; try done; apply same_at_refl. Qed.
Next Obligation. intros nx ny Hx Hy c b Hok. unfold area. cbn. unfold c_read, c_write. repeat case_match; lia. Qed.
Next Obligation. intros nx ny Hx Hy. lia. Qed.
End Loopback.

(** Blocks of two samples into blocks of four, through the overdrive. *)
Definition od_fx : AudioFX := mk_fx 1 NOC NOC 1 1 0 0 [0] [1] XlY 1 2 1 2 2 4 OVERDRIVE 0 0 0.
Definition od_in : list (list sample) := [[(100, -200); (3000, 30000)]; [(-32768, 32767); (0, 7)]].
Definition od_chan : Loopback.chan := Loopback.mk_chan (od_in ++ [[(1, 1); (2, 2)]]) [] true true.
Lemma audio_process_stream_witness :
  let AP := Loopback.loop_ports 4 in
  let '(r, a', m', p') := audio_process od_fx (fun _ => 0) od_chan in
  exists f' outs, r = 0 /\ a' = set_fx f' od_fx /\ Forall (fun xs => Z.of_nat (length xs) = 2 /\ Forall short_pair xs) (Loopback.c_in p') /\
    Loopback.c_in p' = [[(1, 1); (2, 2)]] /\ Loopback.c_out p' = [] ++ outs /\
    Z.of_nat (length outs) = 1 /\ Forall (fun o => Z.of_nat (length o) = 4) outs /\
    fx_run fx_step OVERDRIVE (concat od_in) = (f', concat outs).
Proof.
  apply (@audio_process_stream lists (Loopback.loop_ports 4) 0 1 2 4 (Loopback.loop_spec 2 4 ltac:(lia) ltac:(lia)) od_fx (fun _ => 0) od_chan od_in [[(1, 1); (2, 2)]]).
  - by unfold chained.
  - done.
  - lia.
  - lia.
  - by exists 2.
  - by exists 2.
  - repeat constructor; cbn; lia.
  - done.
  - done.
  - repeat constructor; cbn; lia.
Defined.
