(* ===== verification/LockFree.v ===== *)
(** LockFree: the lock-free stack of apps/hardlock, stack_lock_free.c over
    caspm.h.

    - The CAS scratchpad has two registers per core, the expected and the new
      value; a read of a word returns it and replaces it when it is the expected
      one.  As the registers are the core's own, cas and caspm_read are one
      access each.
    - The word [top] holds the address of the first element in its low 24 bits
      and a counter in its high 8 bits; 0 is the empty stack.
    - [pc] is the position of a core in push or pop, one constructor per access
      to shared memory, with the local variables that are still used.  Any
      number of cores call push and pop; [hist] lists the cores and their
      operations in the order of their successful cas, or of the read that saw
      the empty stack, and [log] the operations alone.
    - What a client must respect is a parameter of [reach]: [owned] is the least
      (an element that is pushed is not on the stack already), [unheld] says that
      no pop has read the element and not finished. *)

From stdpp Require Import base numbers functions list.
From S2P Require Import Prelude.

(** ** The code *)

Definition cas (exp new w : Z) : Z * Z := (w, if w =? exp then new else w).
Definition caspm_read (w : Z) : Z * Z := cas 0 0 w.

Definition cnt_msk : Z := 0xFF000000.
Definition ref_msk : Z := 0x00FFFFFF.

Record element_t := mk_element { val : Z; next : Z; cnt : Z }.

Inductive pc :=
| Idle
| PushCnt (element : Z)
| PushRead (element newcnt : Z)
| PushNext (element newcnt oldtop : Z)
| PushCas (element newcnt oldtop : Z)
| PopRead
| PopNext (oldtop : Z)
| PopCnt (oldtop nextelement : Z)
| PopCas (oldtop newtop : Z).

#[export] Instance pc_eq_dec : EqDecision pc.
Proof. solve_decision. Defined.

Inductive op := Pushed (e : Z) | Popped (e : Z) | Empty.
#[export] Instance op_eq_dec : EqDecision op.
Proof. solve_decision. Defined.

Record sys := mk_sys { top : Z; mem : Z -> element_t; pcs : Z -> pc; hist : list (Z * op) }.
Definition log (s : sys) : list op := map snd (hist s).

Definition ref (w : Z) : Z := Z.land w ref_msk.
Definition goto (c : Z) (p : pc) (s : sys) : sys := mk_sys (top s) (mem s) (<[c := p]> (pcs s)) (hist s).
Definition set_top (w : Z) (s : sys) : sys := mk_sys w (mem s) (pcs s) (hist s).
Definition set_el (e : Z) (x : element_t) (s : sys) : sys := mk_sys (top s) (<[e := x]> (mem s)) (pcs s) (hist s).
Definition done (c : Z) (o : op) (s : sys) : sys := mk_sys (top s) (mem s) (pcs s) (hist s ++ [(c, o)]).

Section Code.
Context {CM : CharModel}.

(** (++(element->cnt)) << 24 and the counter after it. *)
Definition inc_cnt (x : element_t) : element_t := mk_element (val x) (next x) (u8 (cnt x + 1)).
Definition newcnt_of (x : element_t) : Z := u32 (Z.shiftl (to_char (cnt x)) 24).
Definition push_top (element newcnt : Z) : Z := Z.lor newcnt element.
(** (nextelement->cnt & cnt_msk) | ((int)nextelement & ref_msk) *)
Definition pop_top (nextelement : Z) (x : element_t) : Z :=
  Z.lor (Z.land (u32 (to_char (cnt x))) cnt_msk) (Z.land nextelement ref_msk).

(** The next access of core [c] in push or pop. *)
Definition core_step (c : Z) (s : sys) : sys :=
  match pcs s c with
  | Idle => s
  | PushCnt e =>
      let x := inc_cnt (mem s e) in goto c (PushRead e (newcnt_of x)) (set_el e x s)
  | PushRead e newcnt =>
      let '(oldtop, w) := caspm_read (top s) in goto c (PushNext e newcnt oldtop) (set_top w s)
  | PushNext e newcnt oldtop =>
      let x := mem s e in goto c (PushCas e newcnt oldtop) (set_el e (mk_element (val x) (ref oldtop) (cnt x)) s)
  | PushCas e newcnt oldtop =>
      let '(r, w) := cas oldtop (push_top e newcnt) (top s) in
      if r =? oldtop then goto c Idle (done c (Pushed e) (set_top w s)) else goto c (PushRead e newcnt) (set_top w s)
  | PopRead =>
      let '(oldtop, w) := caspm_read (top s) in
      if oldtop =? 0 then goto c Idle (done c Empty (set_top w s)) else goto c (PopNext oldtop) (set_top w s)
  | PopNext oldtop =>
      let nextelement := next (mem s (ref oldtop)) in
      if nextelement =? 0 then goto c (PopCas oldtop 0) s else goto c (PopCnt oldtop nextelement) s
  | PopCnt oldtop nextelement => goto c (PopCas oldtop (pop_top nextelement (mem s nextelement))) s
  | PopCas oldtop newtop =>
      let '(r, w) := cas oldtop newtop (top s) in
      if r =? oldtop then goto c Idle (done c (Popped (ref oldtop)) (set_top w s)) else goto c PopRead (set_top w s)
  end.

(** ** The abstract stack *)

Definition replay1 (l : option (list Z)) (o : op) : option (list Z) :=
  match l with
  | None => None
  | Some l =>
      match o with
      | Pushed e => Some (e :: l)
      | Popped e => match l with e' :: l => if e =? e' then Some l else None | [] => None end
      | Empty => match l with [] => Some [] | _ => None end
      end
  end.
(** The stack after a sequence of operations; None when a pop did not deliver
    the element on top. *)
Definition replay (ops : list op) : option (list Z) := fold_left replay1 ops (Some []).
#[local] Arguments replay : simpl never.
#[local] Arguments log : simpl never.
Lemma log_done c p o s : log (goto c p (done c o s)) = log s ++ [o].
Proof. unfold log. cbn. by rewrite map_app. Qed.
Lemma log_same s s' : hist s' = hist s -> log s' = log s.
Proof. unfold log. by intros ->. Qed.

(** ** Clients *)

Definition pushing (p : pc) : option Z :=
  match p with PushCnt e | PushRead e _ | PushNext e _ _ | PushCas e _ _ => Some e | _ => None end.
(** The element that a pop is about to remove. *)
Definition held (p : pc) : option Z :=
  match p with PopNext w | PopCnt w _ | PopCas w _ => Some (ref w) | _ => None end.
Definition owned (s : sys) (e : Z) : Prop :=
  0 < e < 2 ^ 24 /\ (forall l, replay (log s) = Some l -> e ∉ l) /\ forall c, pushing (pcs s c) <> Some e.
Definition unheld (s : sys) (e : Z) : Prop := forall c, held (pcs s c) <> Some e.

Inductive reach (may_push : sys -> Z -> Prop) : sys -> Prop :=
| reach_start m : reach may_push (mk_sys 0 m (fun _ => Idle) [])
| reach_step c s : reach may_push s -> reach may_push (core_step c s)
| reach_push c e s : reach may_push s -> pcs s c = Idle -> may_push s e -> reach may_push (goto c (PushCnt e) s)
| reach_pop c s : reach may_push s -> pcs s c = Idle -> reach may_push (goto c PopRead s).

(** ** The invariant *)

Definition is_ref (e : Z) : Prop := 0 < e < 2 ^ 24.
(** The elements of [l] are linked from [p] on. *)
Fixpoint chain (m : Z -> element_t) (p : Z) (l : list Z) : Prop :=
  match l with [] => p = 0 | e :: l => p = e /\ is_ref e /\ chain m (next (m e)) l end.

Record stack_at (s : sys) (l : list Z) : Prop := {
  at_log : replay (log s) = Some l;
  at_chain : chain (mem s) (ref (top s)) l;
  at_empty : ref (top s) = 0 -> top s = 0;
  at_nodup : NoDup l;
}.
(** What a core knows: [l] is the stack. *)
Definition knows (s : sys) (l : list Z) (p : pc) : Prop :=
  match p with
  | Idle | PopRead => True
  | PushCnt e => is_ref e /\ e ∉ l
  | PushRead e n | PushNext e n _ => is_ref e /\ e ∉ l /\ Z.land n ref_msk = 0
  | PushCas e n w => is_ref e /\ e ∉ l /\ Z.land n ref_msk = 0 /\ next (mem s e) = ref w
  | PopNext w => ref w <> 0
  | PopCnt w nx => ref w <> 0 /\ ((ref w) ∈ l -> next (mem s (ref w)) = nx /\ nx <> 0)
  | PopCas w w' => ref w <> 0 /\ ((ref w) ∈ l -> next (mem s (ref w)) = ref w' /\ (ref w' = 0 -> w' = 0))
  end.
Record Inv (s : sys) (l : list Z) : Prop := {
  inv_stack : stack_at s l;
  inv_knows c : knows s l (pcs s c);
  inv_push c c' e : pushing (pcs s c) = Some e -> pushing (pcs s c') = Some e -> c = c';
  inv_held c c' e : pushing (pcs s c) = Some e -> held (pcs s c') <> Some e;
}.

(** ** Words *)

Lemma ref_small e : 0 <= e < 2 ^ 24 -> ref e = e.
Proof. intros He. unfold ref, ref_msk. change 0x00FFFFFF with (Z.ones 24). rewrite Z.land_ones by lia. apply Z.mod_small. lia. Qed.
Lemma ref_range w : 0 <= ref w < 2 ^ 24.
Proof. unfold ref, ref_msk. change 0x00FFFFFF with (Z.ones 24). rewrite Z.land_ones by lia. apply Z.mod_pos_bound. lia. Qed.
Lemma ref_lor a b : ref (Z.lor a b) = Z.lor (ref a) (ref b).
Proof. unfold ref. apply Z.land_lor_distr_l. Qed.
Lemma ref_push e n : is_ref e -> Z.land n ref_msk = 0 -> ref (push_top e n) = e.
Proof. intros He Hn. unfold push_top. rewrite ref_lor. unfold ref at 1. rewrite Hn, Z.lor_0_l. apply ref_small. unfold is_ref in He. lia. Qed.
Lemma newcnt_ref x : Z.land (newcnt_of x) ref_msk = 0.
Proof.
  unfold newcnt_of, u32, ref_msk. change 0x00FFFFFF with (Z.ones 24). rewrite Z.land_ones, Z.shiftl_mul_pow2 by lia.
  change (2 ^ 32) with (2 ^ 8 * 2 ^ 24). rewrite Z.mul_mod_distr_r by lia. apply Z.mod_mul. lia.
Qed.
Lemma ref_pop nx x : 0 <= nx < 2 ^ 24 -> ref (pop_top nx x) = nx.
Proof.
  intros Hn. unfold pop_top. rewrite ref_lor. fold (ref nx). rewrite (ref_small nx), (ref_small nx) by done.
  unfold ref. rewrite <- Z.land_assoc. change (Z.land cnt_msk ref_msk) with 0. by rewrite Z.land_0_r.
Qed.

(** ** Chains *)

Lemma chain_ref m p l e : chain m p l -> e ∈ l -> is_ref e.
Proof.
  revert p. induction l as [|x l IH]; intros p Hc He; [by apply elem_of_nil in He|]. destruct Hc as (_ & Hx & Hc).
  apply elem_of_cons in He as [->|He]; [done|by eapply IH].
Qed.
Lemma lf_chain_head m p l : chain m p l -> p <> 0 -> exists l', l = p :: l'.
Proof. destruct l as [|x l]; [done|]. intros (-> & _) _. by exists l. Qed.
Lemma chain_next m p l e : chain m p l -> e ∈ l -> next (m e) = 0 \/ next (m e) ∈ l.
Proof.
  revert p. induction l as [|x l IH]; intros p Hc He; [by apply elem_of_nil in He|]. destruct Hc as (_ & Hx & Hc).
  apply elem_of_cons in He as [->|He].
  - destruct (decide (next (m x) = 0)) as [|Hn]; [by left|]. right. destruct (lf_chain_head _ _ _ Hc Hn) as [l' ->]. apply elem_of_cons. right. by left.
  - destruct (IH _ Hc He) as [|Hin]; [by left|]. right. by right.
Qed.
Lemma lf_chain_frame m m' p l : (forall e, e ∈ l -> next (m' e) = next (m e)) -> chain m p l -> chain m' p l.
Proof.
  revert p. induction l as [|x l IH]; intros p Hm Hc; [done|]. destruct Hc as (-> & Hx & Hc). split_and!; [done|done|].
  rewrite Hm by (by left). apply IH; [|done]. intros e He. apply Hm. by right.
Qed.

(** ** Steps *)

Lemma knows_frame s s' l l' p :
  (forall h, held p = Some h -> h ∈ l' -> h ∈ l /\ next (mem s' h) = next (mem s h)) ->
  (forall e, pushing p = Some e -> e ∉ l' /\ next (mem s' e) = next (mem s e)) -> knows s l p -> knows s' l' p.
Proof.
  intros Hh Hp. destruct p as [|e|e n|e n w|e n w| |w|w nx|w w']; cbn in *; try done;
    try (destruct (Hp _ eq_refl) as [? E]); try (specialize (Hh _ eq_refl)); rewrite ?E; naive_solver congruence.
Qed.

(** Core [c] goes to [p]; the stack may change, and memory that no other core
    relies on. *)
Lemma inv_update s s' l l' c p : Inv s l -> stack_at s' l' -> pcs s' = <[c := p]> (pcs s) -> knows s' l' p ->
  (forall e, pushing p = Some e -> pushing (pcs s c) = Some e) ->
  (forall h, held p = Some h -> held (pcs s c) = Some h \/ h ∈ l) ->
  (forall c' h, c' <> c -> held (pcs s c') = Some h -> h ∈ l' -> h ∈ l /\ next (mem s' h) = next (mem s h)) ->
  (forall c' e, c' <> c -> pushing (pcs s c') = Some e -> e ∉ l' /\ next (mem s' e) = next (mem s e)) -> Inv s' l'.
Proof.
  intros HI Hst Ep Hk Hpu Hhe Hfh Hfp. split; [done| | |].
  - intros c'. rewrite Ep. destruct (decide (c = c')) as [<-|Hne]; [by rewrite fn_lookup_insert|]. rewrite fn_lookup_insert_ne by done.
    apply (knows_frame s s' l l'); [intros h; by apply Hfh|intros e; by apply Hfp|apply HI].
  - intros c1 c2 e. rewrite Ep. intros H1 H2. apply (inv_push s l HI c1 c2 e).
    + destruct (decide (c = c1)) as [<-|]; [rewrite fn_lookup_insert in H1; auto|by rewrite fn_lookup_insert_ne in H1].
    + destruct (decide (c = c2)) as [<-|]; [rewrite fn_lookup_insert in H2; auto|by rewrite fn_lookup_insert_ne in H2].
  - intros c1 c2 e. rewrite Ep. intros H1 H2.
    assert (H1' : pushing (pcs s c1) = Some e) by (destruct (decide (c = c1)) as [<-|]; [rewrite fn_lookup_insert in H1; auto|by rewrite fn_lookup_insert_ne in H1]).
    destruct (decide (c = c2)) as [<-|]; [|rewrite fn_lookup_insert_ne in H2 by done; by apply (inv_held s l HI c1 c2 e)].
    rewrite fn_lookup_insert in H2. destruct (Hhe _ H2) as [Hh|Hin]; [by apply (inv_held s l HI c1 c e)|].
    pose proof (inv_knows s l HI c1) as Hkn. destruct (pcs s c1); cbn in *; naive_solver.
Qed.

Lemma pushing_off s l c e : Inv s l -> pushing (pcs s c) = Some e -> is_ref e /\ e ∉ l.
Proof. intros HI Hp. pose proof (inv_knows s l HI c) as Hk. destruct (pcs s c); cbn in *; naive_solver. Qed.
Lemma caspm_read_same w : caspm_read w = (w, w).
Proof. unfold caspm_read, cas. by destruct (Z.eqb_spec w 0) as [->|]. Qed.
Lemma cas_eq e n w : w = e -> cas e n w = (w, n).
Proof. intros ->. unfold cas. by rewrite Z.eqb_refl. Qed.
Lemma cas_ne e n w : w <> e -> cas e n w = (w, w).
Proof. intros H. unfold cas. by rewrite (proj2 (Z.eqb_neq _ _) H). Qed.
Lemma replay_snoc ops o l : replay ops = Some l -> replay (ops ++ [o]) = replay1 (Some l) o.
Proof. intros E. unfold replay in *. by rewrite fold_left_app, E. Qed.

(** The fields of the stack after a step that changes none of them. *)
Lemma stack_at_same s s' l : top s' = top s -> log s' = log s -> (forall e, e ∈ l -> next (mem s' e) = next (mem s e)) ->
  stack_at s l -> stack_at s' l.
Proof. intros Et El Hm [H1 H2 H3 H4]. split; [by rewrite El|rewrite Et; by eapply lf_chain_frame|by rewrite Et|done]. Qed.
(** A core moves on and leaves memory and stack as they are. *)
Lemma inv_goto s l c p : Inv s l -> knows s l p -> (forall e, pushing p = Some e -> pushing (pcs s c) = Some e) ->
  (forall h, held p = Some h -> held (pcs s c) = Some h \/ h ∈ l) -> Inv (goto c p s) l.
Proof.
  intros HI Hk Hp Hh. apply (inv_update s _ l l c p HI); try done.
  - by apply (stack_at_same s), HI.
  - intros c' e _ He. split; [by eapply pushing_off|done].
Qed.

Lemma step_push s l c : Inv s l -> pushing (pcs s c) <> None -> exists l', Inv (core_step c s) l'.
Proof.
  intros HI Hp. pose proof (inv_knows s l HI c) as Hk. pose proof (inv_stack s l HI) as Hst. unfold core_step.
  destruct (pcs s c) as [|e|e n|e n w|e n w| |w|w nx|w w'] eqn:Ec; try done; cbn [knows] in Hk.
  - exists l. apply (inv_update s _ l l c (PushRead e (newcnt_of (inc_cnt (mem s e)))) HI); try done.
    + apply (stack_at_same s); try done. intros e' He'. cbn. destruct (decide (e = e')) as [<-|]; [by rewrite fn_lookup_insert|by rewrite fn_lookup_insert_ne].
    + cbn. split_and!; [apply Hk|apply Hk|apply newcnt_ref].
    + cbn. intros e' [= <-]. by rewrite Ec.
    + intros c' h _ _ Hin. split; [done|]. cbn. destruct (decide (e = h)) as [<-|]; [by rewrite fn_lookup_insert|by rewrite fn_lookup_insert_ne].
    + intros c' e' Hne He. split; [by eapply pushing_off|]. cbn. destruct (decide (e = e')) as [<-|]; [by rewrite fn_lookup_insert|by rewrite fn_lookup_insert_ne].
  - rewrite caspm_read_same. exists l. replace (set_top (top s) s) with s by (by destruct s). apply inv_goto; [done|done| |done]. intros e' [= <-]. by rewrite Ec.
  - exists l. destruct Hk as (Hr & Hn & Hm). apply (inv_update s _ l l c (PushCas e n w) HI); try done.
    + apply (stack_at_same s); try done. intros e' He'. cbn. rewrite fn_lookup_insert_ne; [done|by intros ->].
    + cbn. rewrite fn_lookup_insert. done.
    + cbn. intros e' [= <-]. by rewrite Ec.
    + intros c' h _ _ Hin. split; [done|]. cbn. rewrite fn_lookup_insert_ne; [done|by intros ->].
    + intros c' e' Hne He. split; [by eapply pushing_off|]. cbn. rewrite fn_lookup_insert_ne; [done|]. intros ->.
      apply Hne. apply (inv_push s l HI c' c e'); [done|by rewrite Ec].
  - destruct Hk as (Hr & Hn & Hm & Hx). destruct (decide (top s = w)) as [Et|Et].
    + rewrite (cas_eq _ _ _ Et), (proj2 (Z.eqb_eq _ _) Et). exists (e :: l). apply (inv_update s _ l (e :: l) c Idle HI); try done.
      * destruct Hst as [H1 H2 H3 H4]. split; cbn.
        -- by rewrite log_done, (replay_snoc _ _ _ H1).
        -- rewrite ref_push by done. split_and!; [done|done|]. by rewrite Hx, <- Et.
        -- rewrite ref_push by done. unfold is_ref in Hr. lia.
        -- by constructor.
      * intros c' h Hne Hh Hin. split; [|done]. apply elem_of_cons in Hin as [->|Hin]; [|done].
        exfalso. apply (inv_held s l HI c c' e); [by rewrite Ec|done].
      * intros c' e' Hne He. split; [|done]. apply not_elem_of_cons. split; [|by eapply pushing_off].
        intros ->. apply Hne. apply (inv_push s l HI c' c e); [done|by rewrite Ec].
    + rewrite (cas_ne _ _ _ Et), (proj2 (Z.eqb_neq _ _) Et). exists l. replace (set_top (top s) s) with s by (by destruct s).
      apply inv_goto; [done|done| |done]. intros e' [= <-]. by rewrite Ec.
Qed.
Lemma step_pop s l c : Inv s l -> pushing (pcs s c) = None -> exists l', Inv (core_step c s) l'.
Proof.
  intros HI Hp. pose proof (inv_knows s l HI c) as Hk. pose proof (inv_stack s l HI) as Hst. destruct Hst as [H1 H2 H3 H4] eqn:Es. clear Es. unfold core_step.
  destruct (pcs s c) as [|e|e n|e n w|e n w| |w|w nx|w w'] eqn:Ec; try done; cbn [knows] in Hk.
  - by exists l.
  - rewrite caspm_read_same. replace (set_top (top s) s) with s by (by destruct s). exists l. destruct (Z.eqb_spec (top s) 0) as [Et|Et].
    + apply (inv_update s _ l l c Idle HI); try done.
      * split; cbn; try done. rewrite log_done, (replay_snoc _ _ _ H1). rewrite Et in H2. change (ref 0) with 0 in H2. destruct l as [|x l]; [done|].
        destruct H2 as (<- & Hr & _). unfold is_ref in Hr. lia.
      * intros c' e' _ He. split; [by eapply pushing_off|done].
    + assert (Hr : ref (top s) <> 0) by (intros E; by apply Et, H3). apply inv_goto; [done|done|done|].
      intros h [= <-]. right. destruct (lf_chain_head _ _ _ H2 Hr) as [l' ->]. by left.
  - exists l. destruct (Z.eqb_spec (next (mem s (ref w))) 0) as [En|En]; (apply inv_goto; [done|by cbn|done|rewrite Ec; auto]).
  - exists l. apply inv_goto; [done| |done|rewrite Ec; auto]. cbn. destruct Hk as [Hw Hk]. split; [done|]. intros Hin. destruct (Hk Hin) as [E Hnx].
    destruct (chain_next _ _ _ _ H2 Hin) as [E0|Hin']; [congruence|]. pose proof (chain_ref _ _ _ _ H2 Hin') as Hr. rewrite E in Hr. unfold is_ref in Hr.
    rewrite ref_pop by lia. split; [done|lia].
  - destruct Hk as [Hw Hk]. destruct (decide (top s = w)) as [Et|Et].
    + rewrite (cas_eq _ _ _ Et), (proj2 (Z.eqb_eq _ _) Et). rewrite Et in H2. destruct (lf_chain_head _ _ _ H2 Hw) as [l' ->]. exists l'.
      destruct H2 as (_ & Hr & H2). destruct (Hk ltac:(left)) as [En E0]. apply NoDup_cons in H4 as [Hni H4].
      apply (inv_update s _ (ref w :: l') l' c Idle HI); try done.
      * split; cbn; try done; [by rewrite log_done, (replay_snoc _ _ _ H1); cbn; rewrite Z.eqb_refl|by rewrite <- En].
      * intros c' h _ _ Hin. split; [by right|done].
      * intros c' e' _ He. split; [|done]. destruct (pushing_off _ _ _ _ HI He) as [_ Ho]. intros Hin. apply Ho. by right.
    + rewrite (cas_ne _ _ _ Et), (proj2 (Z.eqb_neq _ _) Et). exists l. replace (set_top (top s) s) with s by (by destruct s).
      apply inv_goto; try done.
Qed.

Lemma reach_inv_stack s : reach (fun s e => owned s e /\ unheld s e) s -> exists l, Inv s l.
Proof.
  induction 1 as [m|c s _ [l HI]|c e s _ [l HI] Hi [(Hr & Hl & Hp) Hh]|c s _ [l HI] Hi].
  - exists []. split; [split; [done|done|done|constructor]|done|done|done].
  - destruct (decide (pushing (pcs s c) = None)); [by apply (step_pop s l)|by apply (step_push s l)].
  - exists l. pose proof (Hl l (at_log _ _ (inv_stack s l HI))) as Hn. split; [by apply (stack_at_same s), HI| | |].
    + intros c'. cbn. destruct (decide (c = c')) as [<-|Hne]; [by rewrite fn_lookup_insert|rewrite fn_lookup_insert_ne by done; apply (inv_knows s l HI)].
    + intros c1 c2 e'. cbn. destruct (decide (c = c1)) as [<-|], (decide (c = c2)) as [<-|]; rewrite ?fn_lookup_insert, ?fn_lookup_insert_ne by done; cbn.
      * done.
      * intros [= <-] H2. by destruct (Hp c2).
      * intros H1 [= <-]. by destruct (Hp c1).
      * apply (inv_push s l HI).
    + intros c1 c2 e'. cbn. destruct (decide (c = c1)) as [<-|], (decide (c = c2)) as [<-|]; rewrite ?fn_lookup_insert, ?fn_lookup_insert_ne by done; cbn; try done.
      * intros [= <-]. apply Hh.
      * apply (inv_held s l HI).
  - exists l. apply inv_goto; [done|done|done|done].
Qed.

(** ** The theorems *)

(** C5: the stack is linearizable.  For any number of cores and every
    interleaving of their accesses, when an element is pushed only while it is
    not on the stack, no other core pushes it and no pop in progress has read
    it: in the order of the successful cas, every pop delivers the element that
    was pushed last and is still there, a pop that returns 0 finds the stack
    empty, and memory holds exactly the elements that are left, linked in
    order. *)
Theorem stack_linearizable s : reach (fun s e => owned s e /\ unheld s e) s ->
  exists l, replay (log s) = Some l /\ chain (mem s) (ref (top s)) l /\ NoDup l /\ (top s = 0 <-> l = []).
Proof.
  intros [l HI]%reach_inv_stack. destruct (inv_stack s l HI) as [H1 H2 H3 H4]. exists l. split_and!; try done. split.
  - intros E. rewrite E in H2. destruct l as [|x l]; [done|]. destruct H2 as (E' & Hr & _). change (ref 0) with 0 in E'. unfold is_ref in Hr. lia.
  - intros ->. by apply H3.
Qed.

(** *** A failed cas *)

Inductive event := Step (c : Z) | CallPush (c e : Z) | CallPop (c : Z).
Definition exec1 (ev : event) (s : sys) : sys :=
  match ev with Step c => core_step c s | CallPush c e => goto c (PushCnt e) s | CallPop c => goto c PopRead s end.
Definition exec (evs : list event) (s : sys) : sys := fold_left (fun s ev => exec1 ev s) evs s.
Definition by_core (ev : event) : Z := match ev with Step c | CallPush c _ | CallPop c => c end.

(** The value of the top that a core has read and will compare with. *)
Definition read_top (p : pc) : option Z :=
  match p with PushNext _ _ w | PushCas _ _ w | PopNext w | PopCnt w _ | PopCas w _ => Some w | _ => None end.
Definition at_read (p : pc) : bool := match p with PushRead _ _ | PopRead => true | _ => false end.
Definition at_cas (p : pc) : bool := match p with PushCas _ _ _ | PopCas _ _ => true | _ => false end.

(** What an event adds to the history: entries of the core that makes it.  The
    top stays unless a push, or a pop that delivers an element, takes effect. *)
Definition adds (ev : event) (s : sys) (ops : list (Z * op)) : Prop :=
  hist (exec1 ev s) = hist s ++ ops /\ Forall (fun x => fst x = by_core ev) ops /\
  (Forall (fun x => snd x = Empty) ops -> top (exec1 ev s) = top s).
Lemma exec1_progress ev s : exists ops, adds ev s ops.
Proof.
  assert (Hsame : hist (exec1 ev s) = hist s -> top (exec1 ev s) = top s -> exists ops, adds ev s ops)
    by (intros E1 E2; exists []; split; [by rewrite app_nil_r|split; [constructor|done]]).
  destruct ev as [c|c e|c]; [|by apply Hsame|by apply Hsame]. unfold adds, exec1, core_step in *.
  destruct (pcs s c) as [|e|e n|e n w|e n w| |w|w nx|w w']; try (by apply Hsame).
  - rewrite caspm_read_same in *. by apply Hsame.
  - destruct (decide (top s = w)) as [E|E]; [rewrite (cas_eq _ _ _ E), (proj2 (Z.eqb_eq _ _) E)|rewrite (cas_ne _ _ _ E), (proj2 (Z.eqb_neq _ _) E) in *; by apply Hsame].
    exists [(c, Pushed e)]. split; [done|]. split; [by repeat constructor|]. by intros [? _]%Forall_cons.
  - rewrite caspm_read_same in *. destruct (top s =? 0); [|by apply Hsame]. exists [(c, Empty)]. split; [done|]. split; [by repeat constructor|done].
  - destruct (next _ =? 0); by apply Hsame.
  - destruct (decide (top s = w)) as [E|E]; [rewrite (cas_eq _ _ _ E), (proj2 (Z.eqb_eq _ _) E)|rewrite (cas_ne _ _ _ E), (proj2 (Z.eqb_neq _ _) E) in *; by apply Hsame].
    exists [(c, Popped (ref w))]. split; [done|]. split; [by repeat constructor|]. by intros [? _]%Forall_cons.
Qed.

(** What core [c] has read is what the top was at its last read, and since
    then only other cores have completed operations. *)
Definition since_read (c : Z) (s0 : sys) (evs : list event) (w : Z) : Prop :=
  exists evs1 evs2 ops, evs = evs1 ++ Step c :: evs2 /\ at_read (pcs (exec evs1 s0) c) = true /\ top (exec evs1 s0) = w /\
    hist (exec evs s0) = hist (exec evs1 s0) ++ ops /\ Forall (fun x => fst x <> c) ops /\
    (Forall (fun x => snd x = Empty) ops -> top (exec evs s0) = w).

Lemma exec_snoc evs ev s : exec (evs ++ [ev]) s = exec1 ev (exec evs s).
Proof. unfold exec. by rewrite fold_left_app. Qed.
(** An access that completes nothing, or one of another core. *)
Lemma since_read_more c s0 evs ev w : since_read c s0 evs w ->
  by_core ev <> c \/ hist (exec1 ev (exec evs s0)) = hist (exec evs s0) -> since_read c s0 (evs ++ [ev]) w.
Proof.
  intros (evs1 & evs2 & ops & -> & Hr & Ht & Hh & Hf & Hw) Hev. destruct (exec1_progress ev (exec (evs1 ++ Step c :: evs2) s0)) as (o & Ho & Hc & Hk).
  exists evs1, (evs2 ++ [ev]), (ops ++ o). rewrite exec_snoc, Ho, Hh. split_and!; [by rewrite <- app_assoc|done|done|by rewrite app_assoc| |].
  - apply Forall_app_2; [done|]. destruct Hev as [Hne|E].
    + eapply Forall_impl; [exact Hc|]. cbn. congruence.
    + rewrite Ho in E. rewrite <- (app_nil_r (hist _)) in E at 2. apply app_inv_head in E as ->. constructor.
  - intros [H1 H2]%Forall_app. by rewrite (Hk H2), (Hw H1).
Qed.

Lemma exec_read c s0 evs : read_top (pcs s0 c) = None ->
  forall w, read_top (pcs (exec evs s0) c) = Some w -> since_read c s0 evs w.
Proof.
  intros H0. induction evs as [|ev evs IH] using rev_ind; intros w Hw; [unfold exec in Hw; cbn in Hw; congruence|].
  rewrite exec_snoc in Hw. set (s := exec evs s0) in *. destruct (decide (by_core ev = c)) as [Ec|Hne].
  2:{ apply since_read_more; [|by left]. apply IH. rewrite <- Hw. fold s. clear -Hne.
      destruct ev as [c'|c' e|c']; cbn in *; try (by rewrite fn_lookup_insert_ne).
      unfold core_step, caspm_read, cas. repeat case_match; cbn; by rewrite ?fn_lookup_insert_ne. }
  destruct ev as [c'|c' e|c']; cbn in Ec; subst c'; [|by cbn in Hw; rewrite fn_lookup_insert in Hw..].
  cbn [exec1] in Hw. assert (Hmore : read_top (pcs s c) = Some w -> hist (core_step c s) = hist s -> since_read c s0 (evs ++ [Step c]) w)
    by (intros Hr Hh; apply since_read_more; [by apply IH|by right]).
  assert (Hnew : at_read (pcs s c) = true -> w = top s -> hist (core_step c s) = hist s -> top (core_step c s) = top s -> since_read c s0 (evs ++ [Step c]) w).
  { intros Hr -> Hh Ht. exists evs, [], []. rewrite exec_snoc. fold s. cbn [exec1]. rewrite app_nil_r. by split_and!. }
  unfold core_step in *. destruct (pcs s c) as [|e|e n|e n v|e n v| |v|v nx|v v'] eqn:Ep; rewrite ?caspm_read_same in *; cbn [goto pcs] in Hw;
    rewrite ?fn_lookup_insert, ?Ep in Hw; try done.
  - cbn in Hw. injection Hw as <-. by apply Hnew.
  - by apply Hmore.
  - destruct (decide (top s = v)) as [E|E]; [rewrite (cas_eq _ _ _ E), (proj2 (Z.eqb_eq _ _) E) in Hw|rewrite (cas_ne _ _ _ E), (proj2 (Z.eqb_neq _ _) E) in Hw];
      cbn [goto pcs] in Hw; by rewrite fn_lookup_insert in Hw.
  - destruct (top s =? 0); cbn [goto pcs] in Hw; rewrite fn_lookup_insert in Hw; [done|]. cbn in Hw. injection Hw as <-. by apply Hnew.
  - apply Hmore; destruct (next _ =? 0); try done; cbn [goto pcs] in Hw; by rewrite fn_lookup_insert in Hw.
  - by apply Hmore.
  - destruct (decide (top s = v)) as [E|E]; [rewrite (cas_eq _ _ _ E), (proj2 (Z.eqb_eq _ _) E) in Hw|rewrite (cas_ne _ _ _ E), (proj2 (Z.eqb_neq _ _) E) in Hw];
      cbn [goto pcs] in Hw; by rewrite fn_lookup_insert in Hw.
Qed.

(** The cas of a core at its cas succeeds when the top is what it has read. *)
Lemma cas_succeeds c s w : at_cas (pcs s c) = true -> read_top (pcs s c) = Some w -> top s = w -> pcs (core_step c s) c = Idle.
Proof.
  intros Ha Hr Et. unfold core_step. destruct (pcs s c); try done; cbn in Hr; injection Hr as ->;
    rewrite cas_eq, (proj2 (Z.eqb_eq (top s) w)) by done; cbn; by rewrite fn_lookup_insert.
Qed.

(** C16: lock freedom.  [evs] are the accesses and calls of all cores, in any
    order, from a state in which core [c] is not in an operation.  When then the
    cas of core [c] fails, so that it is still in its loop, another core has
    completed a push or has popped an element since core [c] read the top: it
    read it at the access [Step c] behind [evs1], and [ops] are the operations
    completed from there on, all of them by other cores. *)
Theorem failed_cas_means_progress c evs s0 : pcs s0 c = Idle -> let s := exec evs s0 in
  at_cas (pcs s c) = true -> pcs (core_step c s) c <> Idle ->
  exists evs1 evs2 ops, evs = evs1 ++ Step c :: evs2 /\ at_read (pcs (exec evs1 s0) c) = true /\
    hist s = hist (exec evs1 s0) ++ ops /\ Forall (fun x => fst x <> c) ops /\
    exists c' o, (c', o) ∈ ops /\ c' <> c /\ o <> Empty.
Proof.
  intros H0 s Ha Hfail. assert (exists w, read_top (pcs s c) = Some w) as [w Hw] by (destruct (pcs s c); try done; by eexists).
  destruct (exec_read c s0 evs ltac:(by rewrite H0) w Hw) as (evs1 & evs2 & ops & -> & Hr & Ht & Hh & Hf & Hk). exists evs1, evs2, ops. split_and!; try done.
  destruct (decide (Forall (fun x => snd x = Empty) ops)) as [He|Hn]; [destruct Hfail; by apply (cas_succeeds c s w), Hk|].
  apply not_Forall_Exists, Exists_exists in Hn as ([c' o] & Hin & Ho); [|apply _]. exists c', o. rewrite Forall_forall in Hf. by specialize (Hf _ Hin).
Qed.

(** *** Runs *)

(** The cores of a run; all others are idle. *)
Definition owned_b (cores : list Z) (s : sys) (e : Z) : bool :=
  (0 <? e) && (e <? 2 ^ 24) && match replay (log s) with Some l => bool_decide (e ∉ l) | None => true end &&
  forallb (fun c => bool_decide (pushing (pcs s c) <> Some e)) cores.
Definition unheld_b (cores : list Z) (s : sys) (e : Z) : bool := forallb (fun c => bool_decide (held (pcs s c) <> Some e)) cores.
Definition allowed (ok : sys -> Z -> bool) (cores : list Z) (ev : event) (s : sys) : bool :=
  bool_decide (by_core ev ∈ cores) &&
  match ev with
  | Step _ => true
  | CallPush c e => bool_decide (pcs s c = Idle) && ok s e
  | CallPop c => bool_decide (pcs s c = Idle)
  end.
Fixpoint allowed_run (ok : sys -> Z -> bool) (cores : list Z) (evs : list event) (s : sys) : bool :=
  match evs with [] => true | ev :: evs => allowed ok cores ev s && allowed_run ok cores evs (exec1 ev s) end.
Definition idle_but (cores : list Z) (s : sys) : Prop := forall c, c ∉ cores -> pcs s c = Idle.

Lemma exec1_idle cores ev s : by_core ev ∈ cores -> idle_but cores s -> idle_but cores (exec1 ev s).
Proof.
  intros Hin Hi c Hc. assert (by_core ev <> c) by (by intros <-). rewrite <- (Hi c Hc).
  destruct ev as [c'|c' e|c']; cbn in *; try (by rewrite fn_lookup_insert_ne). unfold core_step, caspm_read, cas. repeat case_match; cbn; by rewrite ?fn_lookup_insert_ne.
Qed.
Lemma owned_b_owned cores s e : idle_but cores s -> owned_b cores s e = true -> owned s e.
Proof.
  intros Hi. unfold owned_b, owned. rewrite !andb_true_iff, Z.ltb_lt, Z.ltb_lt, forallb_forall. intros [[[? ?] Hl] Hp]. split_and!; [lia|lia| |].
  - intros l E. rewrite E in Hl. by apply bool_decide_eq_true_1 in Hl.
  - intros c. destruct (decide (c ∈ cores)) as [Hc|Hc]; [by apply (bool_decide_eq_true_1 _ (Hp c (proj1 (list_elem_of_In _ _) Hc)))|by rewrite (Hi c Hc)].
Qed.
Lemma unheld_b_unheld cores s e : idle_but cores s -> unheld_b cores s e = true -> unheld s e.
Proof.
  intros Hi. unfold unheld_b, unheld. rewrite forallb_forall. intros Hp c.
  destruct (decide (c ∈ cores)) as [Hc|Hc]; [by apply (bool_decide_eq_true_1 _ (Hp c (proj1 (list_elem_of_In _ _) Hc)))|by rewrite (Hi c Hc)].
Qed.
Lemma allowed_reach (may_push : sys -> Z -> Prop) ok cores evs : (forall s e, idle_but cores s -> ok s e = true -> may_push s e) ->
  forall s, idle_but cores s -> reach may_push s -> allowed_run ok cores evs s = true -> reach may_push (exec evs s).
Proof.
  intros Hok. induction evs as [|ev evs IH]; intros s Hi Hr Ha; [done|]. cbn in Ha. apply andb_true_iff in Ha as [[Hc Ha]%andb_true_iff Hrest].
  apply bool_decide_eq_true_1 in Hc. apply IH; [by apply exec1_idle| |done].
  destruct ev as [c|c e|c]; cbn in *; [by apply reach_step| |by apply reach_pop; [|apply bool_decide_eq_true_1 in Ha]].
  apply andb_true_iff in Ha as [Hp Ho]. apply reach_push; [done|by apply bool_decide_eq_true_1 in Hp|by apply Hok].
Qed.
End Code.


(** ** Examples *)

Definition push (c e : Z) : list event := CallPush c e :: replicate 4 (Step c).
Definition pop (c : Z) : list event := CallPop c :: replicate 4 (Step c).
Definition start : sys := mk_sys 0 (fun _ => mk_element 0 0 0) (fun _ => Idle) [].

(** Two cores: one pops while the other pushes, so that its first cas fails. *)
Definition contended : list event :=
  push 1 16 ++ push 1 32 ++ [CallPop 2; Step 2; Step 2] ++ push 1 48 ++ [Step 2; Step 2] ++ replicate 4 (Step 2) ++ pop 1 ++ pop 1 ++ pop 2.
Lemma stack_linearizable_witness :
  let CM : CharModel := true in
  replay (log (exec contended start)) = Some [] /\
  exists l, replay (log (exec contended start)) = Some l /\ chain (mem (exec contended start)) (ref (top (exec contended start))) l /\ NoDup l /\
    (top (exec contended start) = 0 <-> l = []).
Proof.
  intros CM. split; [vm_compute; reflexivity|]. apply (stack_linearizable (CM := CM)).
  apply (allowed_reach _ (fun s e => owned_b [1; 2] s e && unheld_b [1; 2] s e) [1; 2]).
  - intros s e Hi [H1 H2]%andb_true_iff. split; [by apply (owned_b_owned [1; 2])|by apply (unheld_b_unheld [1; 2])].
  - by intros c _.
  - apply reach_start.
  - vm_compute. reflexivity.
Defined.
Lemma failed_cas_means_progress_witness :
  let CM : CharModel := true in
  let evs := push 1 16 ++ [CallPop 2; Step 2; Step 2] ++ push 1 48 in
  exists evs1 evs2 ops, evs = evs1 ++ Step 2 :: evs2 /\ at_read (pcs (exec evs1 start) 2) = true /\
    hist (exec evs start) = hist (exec evs1 start) ++ ops /\ Forall (fun x => fst x <> 2) ops /\
    exists c' o, (c', o) ∈ ops /\ c' <> 2 /\ o <> Empty.
Proof.
  intros CM evs. apply (failed_cas_means_progress (CM := CM) 2 evs start eq_refl).
  - vm_compute. reflexivity.
  - vm_compute. discriminate.
Defined.

(** The counter is meant to make a top that was read in the past differ from
    every later one, but pop takes it from the low byte of the next element with
    the mask of the high byte, and so writes no counter.  Core 2 reads the top
    and the next element; core 1 removes both, pushes the first again, pushes a
    third element and pops it.  The top is then what core 2 has read, its cas
    succeeds and makes an element the top that core 1 owns; the next pop
    delivers it from an empty stack. *)
Definition reuse : list event :=
  push 1 32 ++ push 1 16 ++ push 1 48 ++ pop 1 ++ [CallPop 2; Step 2; Step 2; Step 2] ++
  pop 1 ++ pop 1 ++ push 1 16 ++ push 1 48 ++ pop 1 ++ [Step 2] ++ pop 1.
Theorem stack_reuse_breaks {CM : CharModel} : exists s, reach owned s /\ replay (log s) = None.
Proof.
  exists (exec reuse start). destruct CM.
  all: split; [apply (allowed_reach _ (owned_b [1; 2]) [1; 2]); [intros s e; apply owned_b_owned|by intros c _|apply reach_start|vm_compute; reflexivity]|vm_compute; reflexivity].
Qed.
