(* ===== verification/CasLock.v ===== *)
(** CasLock: the stack and the queue of apps/htmrts under the locks of
    apps/hardlock (queue.h, stack.h, queue_cas.c, stack_cas.c, caspm.h, and the
    same bodies under hardlock.h).

    - [Section Locked] is the lock: any number of cores call operations whose
      bodies run between lock(0) and unlock(0), one access to shared memory per
      step.  A body is a deterministic program over the shared data: [start] is
      its first local state, [micro] its next access.  The theorem of the section
      says that the bodies are atomic.
    - lock(0) of caspm.h repeats a cas of the lock word from 0 to 1, unlock(0) a
      cas from 1 to 0; hardlock.h halts the core until it has the lock, which is
      the same step made at a later time.
    - [Module Queue] and [Module Stack] are the bodies, with linked elements in a
      store, and what they do to the list of elements. *)

From stdpp Require Import base numbers functions list.
From S2P Require Import Prelude LockFree.

(** ** The lock *)

Section Locked.
Context {D Op Res St : Type} (start : Op -> St) (micro : St -> D -> (St + Res) * D).

(** A core calls nothing, tries to take the lock, is in the body, or releases
    the lock. *)
Inductive lpc := Out | Trying (o : Op) | Body (o : Op) (st : St) | Leaving.
Record lsys := mk_lsys { lockw : Z; data : D; at_pc : Z -> lpc; hist : list (Op * Res) }.

Definition move (c : Z) (p : lpc) (s : lsys) : lsys := mk_lsys (lockw s) (data s) (<[c := p]> (at_pc s)) (hist s).
Definition set_lock (w : Z) (s : lsys) : lsys := mk_lsys w (data s) (at_pc s) (hist s).

Definition lstep (c : Z) (s : lsys) : lsys :=
  match at_pc s c with
  | Out => s
  | Trying o => let '(r, w) := cas 0 1 (lockw s) in if r =? 0 then move c (Body o (start o)) (set_lock w s) else set_lock w s
  | Body o st =>
      match micro st (data s) with
      | (inl st', d) => mk_lsys (lockw s) d (<[c := Body o st']> (at_pc s)) (hist s)
      | (inr r, d) => mk_lsys (lockw s) d (<[c := Leaving]> (at_pc s)) (hist s ++ [(o, r)])
      end
  | Leaving => let '(r, w) := cas 1 0 (lockw s) in if r =? 1 then move c Out (set_lock w s) else set_lock w s
  end.

Inductive lreach (d0 : D) : lsys -> Prop :=
| lreach_start : lreach d0 (mk_lsys 0 d0 (fun _ => Out) [])
| lreach_step c s : lreach d0 s -> lreach d0 (lstep c s)
| lreach_call c o s : lreach d0 s -> at_pc s c = Out -> lreach d0 (move c (Trying o) s).

(** A body alone: from [st] and [d] it ends with [r] and [d']. *)
Inductive runs : St -> D -> Res -> D -> Prop :=
| runs_done st d r d' : micro st d = (inr r, d') -> runs st d r d'
| runs_step st d st1 d1 r d' : micro st d = (inl st1, d1) -> runs st1 d1 r d' -> runs st d r d'.
(** The first part of a body. *)
Inductive part : St -> D -> St -> D -> Prop :=
| part_refl st d : part st d st d
| part_step st d st1 d1 st2 d2 : part st d st1 d1 -> micro st1 d1 = (inl st2, d2) -> part st d st2 d2.
(** The operations one after the other. *)
Inductive serial (d0 : D) : list (Op * Res) -> D -> Prop :=
| serial_nil : serial d0 [] d0
| serial_snoc h d o r d' : serial d0 h d -> runs (start o) d r d' -> serial d0 (h ++ [(o, r)]) d'.

Lemma part_runs st d st1 d1 r d' : part st d st1 d1 -> runs st1 d1 r d' -> runs st d r d'.
Proof. induction 1; eauto using runs_step. Qed.

Definition inside (p : lpc) : bool := match p with Body _ _ | Leaving => true | _ => false end.

(** The shared data is that of the serial execution, up to the part of the body
    that the holder of the lock has run. *)
Record LInv (d0 : D) (s : lsys) : Prop := {
  li_word : lockw s = 0 \/ lockw s = 1;
  li_free : lockw s = 0 -> forall c, inside (at_pc s c) = false;
  li_held : lockw s = 1 -> exists c, inside (at_pc s c) = true;
  li_one c c' : inside (at_pc s c) = true -> inside (at_pc s c') = true -> c = c';
  li_data : (forall c o st, at_pc s c <> Body o st) -> serial d0 (hist s) (data s);
  li_part c o st : at_pc s c = Body o st -> exists d, serial d0 (hist s) d /\ part (start o) d st (data s);
}.

Lemma at_move (c c' : Z) (p : lpc) (f : Z -> lpc) : <[c := p]> f c' = if decide (c = c') then p else f c'.
Proof. case_decide as E; [subst; by rewrite fn_lookup_insert|by rewrite fn_lookup_insert_ne]. Qed.

(** Outside the lock a core changes nothing that the invariant is about. *)
Lemma linv_outside d0 s c p : LInv d0 s -> inside (at_pc s c) = false -> inside p = false -> LInv d0 (move c p s).
Proof.
  intros [H1 H2 H2' H3 H4 H5] Hc Hp. split; cbn; [done| | | | |].
  - intros E c'. rewrite at_move. case_decide; [done|by apply H2].
  - intros E. destruct (H2' E) as [c' Hc']. exists c'. rewrite at_move. case_decide; [subst; congruence|done].
  - intros c1 c2. rewrite !at_move. repeat case_decide; subst; try congruence. apply H3.
  - intros Hn. apply H4. intros c' o st E. apply (Hn c' o st). rewrite at_move. case_decide; [subst; by rewrite E in Hc|done].
  - intros c' o st. rewrite at_move. case_decide; [intros ->; done|apply H5].
Qed.
(** The holder stays inside. *)
Lemma others_outside d0 s c : LInv d0 s -> inside (at_pc s c) = true -> forall c', c <> c' -> inside (at_pc s c') = false.
Proof. intros HI Hc c' Hne. apply not_true_iff_false. intros H. apply Hne. by apply (li_one d0 s HI). Qed.
Lemma not_free d0 s c : LInv d0 s -> inside (at_pc s c) = true -> lockw s = 1.
Proof. intros HI Hc. destruct (li_word d0 s HI) as [E|]; [|done]. by rewrite (li_free d0 s HI E) in Hc. Qed.

Lemma linv_take d0 s c o : LInv d0 s -> lockw s = 0 -> LInv d0 (move c (Body o (start o)) (set_lock 1 s)).
Proof.
  intros HI E. pose proof (li_free d0 s HI E) as Hf. split; cbn; [by right|done|intros _; exists c; by rewrite fn_lookup_insert| | |].
  - intros c1 c2. rewrite !at_move. repeat case_decide; subst; try done; rewrite ?Hf; done.
  - intros Hn. exfalso. apply (Hn c o (start o)). by rewrite fn_lookup_insert.
  - intros c' o' st. rewrite at_move. case_decide.
    + intros [= <- <-]. exists (data s). split; [|constructor]. apply (li_data d0 s HI). intros c2 o2 st2 E2. pose proof (Hf c2) as Hin. by rewrite E2 in Hin.
    + intros E2. pose proof (Hf c') as Hin. by rewrite E2 in Hin.
Qed.
Lemma linv_micro d0 s c o st st' d : LInv d0 s -> at_pc s c = Body o st -> micro st (data s) = (inl st', d) ->
  LInv d0 (mk_lsys (lockw s) d (<[c := Body o st']> (at_pc s)) (hist s)).
Proof.
  intros HI Ec Em. assert (Hc : inside (at_pc s c) = true) by by rewrite Ec. pose proof (others_outside d0 s c HI Hc) as Ho.
  pose proof (not_free d0 s c HI Hc) as El. split; cbn; [by right|by rewrite El|intros _; exists c; by rewrite fn_lookup_insert| | |].
  - intros c1 c2. rewrite !at_move. repeat case_decide; subst; try done; rewrite ?Ho by done; done.
  - intros Hn. exfalso. apply (Hn c o st'). by rewrite fn_lookup_insert.
  - intros c' o' st2. rewrite at_move. case_decide as Ecc.
    + intros [= <- <-]. destruct (li_part d0 s HI c o st Ec) as (dd & Hs & Hp). exists dd. split; [done|]. by eapply part_step.
    + intros E2. pose proof (Ho c' Ecc) as Hin. by rewrite E2 in Hin.
Qed.
Lemma linv_end d0 s c o st r d : LInv d0 s -> at_pc s c = Body o st -> micro st (data s) = (inr r, d) ->
  LInv d0 (mk_lsys (lockw s) d (<[c := Leaving]> (at_pc s)) (hist s ++ [(o, r)])).
Proof.
  intros HI Ec Em. assert (Hc : inside (at_pc s c) = true) by by rewrite Ec. pose proof (others_outside d0 s c HI Hc) as Ho.
  pose proof (not_free d0 s c HI Hc) as El. split; cbn; [by right|by rewrite El|intros _; exists c; by rewrite fn_lookup_insert| | |].
  - intros c1 c2. rewrite !at_move. repeat case_decide; subst; try done; rewrite ?Ho by done; done.
  - intros _. destruct (li_part d0 s HI c o st Ec) as (dd & Hs & Hp). eapply serial_snoc; [done|]. eapply part_runs; [done|]. by constructor.
  - intros c' o' st2. rewrite at_move. case_decide as Ecc; [done|]. intros E2. pose proof (Ho c' Ecc) as Hin. by rewrite E2 in Hin.
Qed.
Lemma linv_leave d0 s c : LInv d0 s -> at_pc s c = Leaving -> LInv d0 (move c Out (set_lock 0 s)).
Proof.
  intros HI Ec. assert (Hc : inside (at_pc s c) = true) by by rewrite Ec. pose proof (others_outside d0 s c HI Hc) as Ho.
  assert (Hout : forall c', inside (<[c := Out]> (at_pc s) c') = false) by (intros c'; rewrite at_move; case_decide; [done|by apply Ho]).
  split; cbn; [by left|done|done|by intros c1 c2; rewrite Hout| |].
  - intros _. apply (li_data d0 s HI). intros c' o st E. destruct (decide (c = c')) as [<-|Hne]; [congruence|]. pose proof (Ho c' Hne) as Hin. by rewrite E in Hin.
  - intros c' o st E. pose proof (Hout c') as Hin. by rewrite E in Hin.
Qed.

Lemma lreach_inv d0 s : lreach d0 s -> LInv d0 s.
Proof.
  induction 1 as [|c s _ HI|c o s _ HI Hc]; [split; cbn; try done; [by left|intros _; constructor]| |by apply linv_outside; rewrite ?Hc].
  unfold lstep. destruct (at_pc s c) as [|o|o st|] eqn:Ec; [done| | |].
  - destruct (decide (lockw s = 0)) as [E|E]; [rewrite (cas_eq _ _ _ E), (proj2 (Z.eqb_eq _ _) E); by apply linv_take|].
    rewrite (cas_ne _ _ _ E), (proj2 (Z.eqb_neq _ _) E). by destruct s.
  - destruct (micro st (data s)) as [[st'|r] d] eqn:Em; [by eapply linv_micro|by eapply linv_end].
  - destruct (decide (lockw s = 1)) as [E|E]; [rewrite (cas_eq _ _ _ E), (proj2 (Z.eqb_eq _ _) E); by apply linv_leave|].
    rewrite (cas_ne _ _ _ E), (proj2 (Z.eqb_neq _ _) E). by destruct s.
Qed.

(** The bodies are atomic: the results are those of the operations one after the
    other, and while the lock is free so is the shared data. *)
Lemma lreach_serial d0 s : lreach d0 s -> exists d, serial d0 (hist s) d /\ (lockw s = 0 -> data s = d).
Proof.
  intros HI%lreach_inv. destruct (li_word d0 s HI) as [E|E].
  - exists (data s). split; [|done]. apply (li_data d0 s HI). intros c o st Ec. pose proof (li_free d0 s HI E c) as Hin. by rewrite Ec in Hin.
  - destruct (li_held d0 s HI E) as [c Hc]. destruct (at_pc s c) as [|o|o st|] eqn:Ec; try done.
    + destruct (li_part d0 s HI c o st Ec) as (d & Hd & _). exists d. split; [done|]. by rewrite E.
    + exists (data s). split; [|done]. apply (li_data d0 s HI). intros c' o st Ec'.
      enough (c = c') by congruence. apply (li_one d0 s HI); [by rewrite Ec|by rewrite Ec'].
Qed.
Lemma runs_det st d r d' r2 d2 : runs st d r d' -> runs st d r2 d2 -> r2 = r /\ d2 = d'.
Proof.
  induction 1 as [st d r d' E|st d st1 d1 r d' E H IH]; inversion 1 as [? ? ? ? E2|? ? ? ? ? ? E2 H2]; subst; rewrite E in E2; try done.
  - by injection E2 as -> ->.
  - injection E2 as <- <-. by apply IH.
Qed.
End Locked.
#[global] Arguments lpc : clear implicits.

(** ** The queue *)

Module Queue.
Record element_t := mk_el { next_ptr : Z; val : Z }.
Record queue_t := mk_queue { first_ptr : Z; last_ptr : Z; mem : Z -> element_t }.

Definition set_first (v : Z) (q : queue_t) : queue_t := mk_queue v (last_ptr q) (mem q).
Definition set_last (v : Z) (q : queue_t) : queue_t := mk_queue (first_ptr q) v (mem q).
Definition set_next (e v : Z) (q : queue_t) : queue_t :=
  mk_queue (first_ptr q) (last_ptr q) (<[e := mk_el v (val (mem q e))]> (mem q)).

Definition initialize (q : queue_t) : queue_t := set_last 0 (set_first 0 q).
Definition initialize_element (e v : Z) (q : queue_t) : queue_t :=
  mk_queue (first_ptr q) (last_ptr q) (<[e := mk_el 0 v]> (mem q)).

Inductive qop := Enqueue (element_ptr : Z) | Dequeue.
(** The positions in _enqueue and _dequeue. *)
Inductive qst :=
| EnqNext (element_ptr : Z) | EnqFirst (element_ptr : Z) | EnqLink (element_ptr first : Z) | EnqSet (element_ptr : Z)
| DeqLast | DeqNext (last : Z) | DeqFirst (last next : Z) | DeqSet (last next : Z).
Definition qstart (o : qop) : qst := match o with Enqueue e => EnqNext e | Dequeue => DeqLast end.
Definition qmicro (st : qst) (q : queue_t) : (qst + Z) * queue_t :=
  match st with
  | EnqNext e => (inl (EnqFirst e), set_next e 0 q)
  | EnqFirst e => (inl (EnqLink e (first_ptr q)), q)
  | EnqLink e f => (inl (EnqSet e), if f =? 0 then set_last e q else set_next f e q)
  | EnqSet e => (inr 0, set_first e q)
  | DeqLast => (if last_ptr q =? 0 then inr 0 else inl (DeqNext (last_ptr q)), q)
  | DeqNext p => (inl (DeqFirst p (next_ptr (mem q p))), q)
  | DeqFirst p n => (inl (DeqSet p n), if n =? 0 then set_first 0 q else q)
  | DeqSet p n => (inr p, set_last n q)
  end.

(** The elements [l] are linked from [p] on. *)
Fixpoint linked (m : Z -> element_t) (p : Z) (l : list Z) : Prop :=
  match l with [] => p = 0 | e :: l => p = e /\ e <> 0 /\ linked m (next_ptr (m e)) l end.
Definition queue_at (q : queue_t) (l : list Z) : Prop :=
  linked (mem q) (last_ptr q) l /\ first_ptr q = List.last l 0 /\ NoDup l.

(** The queue as a list, and the histories in which every dequeue delivers the
    oldest element. *)
Definition fifo1 (l : option (list Z)) (x : qop * Z) : option (list Z) :=
  match l with
  | None => None
  | Some l =>
      match fst x with
      | Enqueue e => Some (l ++ [e])
      | Dequeue => match l with [] => if snd x =? 0 then Some [] else None | e :: l => if snd x =? e then Some l else None end
      end
  end.
Definition fifo (h : list (qop * Z)) : option (list Z) := fold_left fifo1 h (Some []).
#[global] Arguments fifo : simpl never.
(** An element is enqueued only when it is not in the queue. *)
Definition disciplined (h : list (qop * Z)) : Prop :=
  forall h1 e r h2 l, h = h1 ++ (Enqueue e, r) :: h2 -> fifo h1 = Some l -> e <> 0 /\ e ∉ l.

Lemma linked_frame m m' p l : (forall e, e ∈ l -> next_ptr (m' e) = next_ptr (m e)) -> linked m p l -> linked m' p l.
Proof.
  revert p. induction l as [|x l IH]; intros p Hm Hc; [done|]. destruct Hc as (-> & Hx & Hc). split_and!; [done|done|].
  rewrite Hm by (by left). apply IH; [|done]. intros e He. apply Hm. by right.
Qed.
Lemma linked_nonzero m p l : linked m p l -> 0 ∉ l.
Proof. revert p. induction l as [|x l IH]; intros p Hc Hin; [by apply elem_of_nil in Hin|]. destruct Hc as (_ & Hx & Hc). apply elem_of_cons in Hin as [<-|Hin]; [done|by eapply IH]. Qed.
Lemma last_in (l : list Z) x : List.last (x :: l) 0 ∈ x :: l.
Proof. revert x. induction l as [|y l IH]; intros x; [by left|]. cbn [List.last]. right. apply IH. Qed.
(** Behind the last element of a chain. *)
Lemma linked_snoc m m' p l e : linked m p l -> l <> [] -> NoDup l -> e <> 0 -> next_ptr (m' e) = 0 -> next_ptr (m' (List.last l 0)) = e ->
  (forall x, x ∈ l -> x <> List.last l 0 -> next_ptr (m' x) = next_ptr (m x)) -> linked m' p (l ++ [e]).
Proof.
  revert p. induction l as [|x l IH]; intros p Hc Hne Hnd He H0 Hl Hm; [done|]. destruct Hc as (-> & Hx & Hc). apply NoDup_cons in Hnd as [Hni Hnd].
  cbn. split_and!; [done|done|]. destruct l as [|y l].
  - cbn in *. rewrite Hl. done.
  - assert (x <> List.last (y :: l) 0) by (intros E; apply Hni; rewrite E; apply last_in). rewrite Hm by (done || by left).
    apply IH; try done. intros z Hz Hzl. apply Hm; [by right|done].
Qed.

Notation qruns := (runs qmicro).
Lemma enqueue_runs q l e : queue_at q l -> e <> 0 -> e ∉ l -> exists q', qruns (EnqNext e) q 0 q' /\ queue_at q' (l ++ [e]).
Proof.
  intros (Hc & Hf & Hn) He Hni. set (q1 := set_next e 0 q). set (f := first_ptr q).
  exists (set_first e (if f =? 0 then set_last e q1 else set_next f e q1)). split.
  - eapply runs_step; [done|]. eapply runs_step; [done|]. eapply runs_step; [done|]. by apply runs_done.
  - assert (Hnd : NoDup (l ++ [e])) by (apply NoDup_app; split_and!; [done| |apply NoDup_singleton]; intros x Hx Hin%list_elem_of_singleton; by subst).
    destruct l as [|x l].
    + unfold f. rewrite Hf. cbn. split_and!; [|done|done]. cbn. split_and!; [done|done|]. by rewrite fn_lookup_insert.
    + pose proof (last_in l x) as Hin. rewrite <- Hf in Hin. fold f in Hin.
      assert (Hf0 : f <> 0) by (intros E; rewrite E in Hin; by apply (linked_nonzero _ _ _ Hc)).
      assert (Hfe : f <> e) by (intros E; by rewrite E in Hin). rewrite (proj2 (Z.eqb_neq f 0) Hf0). unfold queue_at. split_and!; [|by rewrite last_last|done].
      fold f in Hf. apply (linked_snoc (mem q)); try done; rewrite <- ?Hf; unfold q1; cbn [mem set_first set_next].
      * rewrite fn_lookup_insert_ne by done. by rewrite fn_lookup_insert.
      * by rewrite fn_lookup_insert.
      * intros y Hy Hyf. rewrite fn_lookup_insert_ne by done. rewrite fn_lookup_insert_ne; [done|]. by intros ->.
Qed.
Lemma dequeue_runs q l : queue_at q l -> exists q', qruns DeqLast q (hd 0 l) q' /\ queue_at q' (tail l).
Proof.
  intros (Hc & Hf & Hn). destruct l as [|p l].
  - cbn in Hc. exists q. split; [|done]. apply runs_done. cbn. by rewrite Hc.
  - destruct Hc as (Hp & Hp0 & Hc). apply NoDup_cons in Hn as [Hni Hn]. set (n := next_ptr (mem q p)) in *.
    exists (set_last n (if n =? 0 then set_first 0 q else q)). split.
    + eapply runs_step; [cbn; rewrite Hp, (proj2 (Z.eqb_neq p 0) Hp0); done|]. eapply runs_step; [done|]. eapply runs_step; [done|]. by apply runs_done.
    + assert (El : l = [] <-> n = 0).
      { split; [by intros ->|]. intros E. destruct l as [|y l]; [done|]. destruct Hc as (E' & Hy & _). congruence. }
      destruct (Z.eqb_spec n 0) as [E|E]; cbn; unfold queue_at; cbn.
      * rewrite (proj2 El E). rewrite E. split_and!; [done|done|constructor].
      * destruct l as [|y l]; [by destruct E; apply El|]. split_and!; [done|done|done].
Qed.

Lemma initialize_at q : queue_at (initialize q) [].
Proof. split_and!; [done|done|constructor]. Qed.
Lemma fifo_snoc h x : fifo (h ++ [x]) = fifo1 (fifo h) x.
Proof. unfold fifo. by rewrite fold_left_app. Qed.
Lemma disciplined_front h x : disciplined (h ++ [x]) -> disciplined h.
Proof. intros H h1 e r h2 l -> Hl. apply (H h1 e r (h2 ++ [x]) l); [by rewrite <- app_assoc|done]. Qed.
Lemma serial_fifo q0 h q : queue_at q0 [] -> serial qstart qmicro q0 h q -> disciplined h -> exists l, fifo h = Some l /\ queue_at q l.
Proof.
  intros H0. induction 1 as [|h q o r q' _ IH Hr]; intros Hd; [by exists []|]. destruct (IH (disciplined_front _ _ Hd)) as (l & El & Hq).
  rewrite fifo_snoc, El. destruct o as [e|]; cbn in Hr |- *.
  - destruct (Hd h e r [] l eq_refl El) as [He Hn]. destruct (enqueue_runs q l e Hq He Hn) as (q2 & Hr2 & Hq2).
    destruct (runs_det _ _ _ _ _ _ _ Hr2 Hr) as [-> ->]. by exists (l ++ [e]).
  - destruct (dequeue_runs q l Hq) as (q2 & Hr2 & Hq2). destruct (runs_det _ _ _ _ _ _ _ Hr2 Hr) as [-> ->].
    exists (tail l). split; [|done]. destruct l as [|p l]; cbn; by rewrite ?Z.eqb_refl.
Qed.

Lemma disciplined_snoc h x : disciplined h -> (forall e l, fst x = Enqueue e -> fifo h = Some l -> e <> 0 /\ e ∉ l) -> disciplined (h ++ [x]).
Proof.
  intros Hh Hx h1 e r h2 l E Hl. destruct h2 as [|y h2 _] using rev_ind.
  - apply app_inj_tail in E as [-> ->]. by apply (Hx e l).
  - rewrite app_comm_cons, app_assoc in E. apply app_inj_tail in E as [-> _]. by apply (Hh h1 e r h2 l).
Qed.

(** C15: the queue under the lock is a FIFO queue.  For any number of cores and
    every interleaving, when an element is enqueued only while it is not in the
    queue: in the order in which the bodies ran, every dequeue delivers the
    element that was enqueued first and is still there, or 0 when there is none;
    whenever the lock is free, memory holds the elements that are left. *)
Theorem locked_queue_fifo q0 s : lreach qstart qmicro (initialize q0) s -> disciplined (hist s) ->
  exists l, fifo (hist s) = Some l /\ (lockw s = 0 -> queue_at (data s) l).
Proof.
  intros (q & Hs & Hf)%lreach_serial Hd. destruct (serial_fifo _ _ _ (initialize_at q0) Hs Hd) as (l & El & Hq).
  exists l. split; [done|]. intros E. by rewrite (Hf E).
Qed.
End Queue.

(** ** The stack *)

Module Stack.
Import Queue.
Record stack_t := mk_stack { top_ptr : Z; smem : Z -> element_t }.
Definition set_top (v : Z) (s : stack_t) : stack_t := mk_stack v (smem s).
Definition set_snext (e v : Z) (s : stack_t) : stack_t := mk_stack (top_ptr s) (<[e := mk_el v (val (smem s e))]> (smem s)).
Definition sinitialize (s : stack_t) : stack_t := set_top 0 s.

Inductive sop := Push (element_ptr : Z) | Pop.
(** The positions in _push and _pop. *)
Inductive sst := PushTop (e : Z) | PushLink (e t : Z) | PushSet (e t : Z) | PopTop | PopLink (e : Z) | PopSet (e n : Z).
Definition sstart (o : sop) : sst := match o with Push e => PushTop e | Pop => PopTop end.
Definition smicro (st : sst) (s : stack_t) : (sst + Z) * stack_t :=
  match st with
  | PushTop e => (inl (PushLink e (top_ptr s)), s)
  | PushLink e t => (inl (PushSet e t), set_snext e t s)
  | PushSet e _ => (inr 0, set_top e s)
  | PopTop => (if top_ptr s =? 0 then inr 0 else inl (PopLink (top_ptr s)), s)
  | PopLink e => (inl (PopSet e (next_ptr (smem s e))), s)
  | PopSet e n => (inr e, set_top n s)
  end.
(** push and pop of apps/hardlock/stack_hardlock.c: the top is changed with a
    cas, and pop does not test for the empty stack. *)
Definition hmicro (st : sst) (s : stack_t) : (sst + Z) * stack_t :=
  match st with
  | PushTop e => let '(t, w) := caspm_read (top_ptr s) in (inl (PushLink e t), set_top w s)
  | PushLink e t => (inl (PushSet e t), set_snext e t s)
  | PushSet e t => let '(_, w) := cas t e (top_ptr s) in (inr 0, set_top w s)
  | PopTop => let '(t, w) := caspm_read (top_ptr s) in (inl (PopLink t), set_top w s)
  | PopLink e => (inl (PopSet e (next_ptr (smem s e))), s)
  | PopSet e n => let '(_, w) := cas e n (top_ptr s) in (inr e, set_top w s)
  end.

Definition stack_at (s : stack_t) (l : list Z) : Prop := linked (smem s) (top_ptr s) l /\ NoDup l.
(** The history in terms of the abstract stack of LockFree. *)
Definition to_op (x : sop * Z) : op :=
  match fst x with Push e => Pushed e | Pop => if snd x =? 0 then Empty else Popped (snd x) end.
Definition content (h : list (sop * Z)) : option (list Z) := replay (map to_op h).
Definition sdisciplined (h : list (sop * Z)) : Prop :=
  forall h1 e r h2 l, h = h1 ++ (Push e, r) :: h2 -> content h1 = Some l -> e <> 0 /\ e ∉ l.

(** A body that pushes and pops as a stack does. *)
Definition implements (micro : sst -> stack_t -> (sst + Z) * stack_t) (nonempty : bool) : Prop :=
  (forall s l e, stack_at s l -> e <> 0 -> e ∉ l -> exists s', runs micro (PushTop e) s 0 s' /\ stack_at s' (e :: l)) /\
  (forall s l, stack_at s l -> (nonempty = true -> l <> []) -> exists s', runs micro PopTop s (hd 0 l) s' /\ stack_at s' (tail l)).

Lemma push_at s l e : stack_at s l -> e <> 0 -> e ∉ l -> stack_at (set_top e (set_snext e (top_ptr s) s)) (e :: l).
Proof.
  intros [Hc Hn] He Hni. split; [|by constructor]. cbn. split_and!; [done|done|]. rewrite fn_lookup_insert. cbn.
  apply (linked_frame (smem s)); [|done]. intros x Hx. rewrite fn_lookup_insert_ne; [done|]. by intros ->.
Qed.
Lemma pop_at s l e : stack_at s (e :: l) -> stack_at (set_top (next_ptr (smem s e)) s) l.
Proof. intros [(_ & _ & Hc) [_ Hn]%NoDup_cons]. done. Qed.
Lemma smicro_implements : implements smicro false.
Proof.
  split.
  - intros s l e Hs He Hn. eexists. split; [|by apply (push_at s l e)].
    eapply runs_step; [done|]. eapply runs_step; [done|]. by apply runs_done.
  - intros s l Hs _. destruct l as [|e l].
    + exists s. split; [|done]. apply runs_done. destruct Hs as [Hc _]. cbn in *. by rewrite Hc.
    + eexists. split; [|by apply pop_at]. destruct Hs as [(Ht & He & _) _].
      eapply runs_step; [cbn; by rewrite Ht, (proj2 (Z.eqb_neq e 0) He)|]. eapply runs_step; [done|]. by apply runs_done.
Qed.
Lemma hmicro_implements : implements hmicro true.
Proof.
  split.
  - intros s l e Hs He Hn. exists (set_top e (set_snext e (top_ptr s) s)). split; [|by apply (push_at s l e)].
    eapply runs_step; [cbn [hmicro]; by rewrite caspm_read_same|]. eapply runs_step; [done|]. apply runs_done. cbn. by rewrite Z.eqb_refl.
  - intros s l Hs Hl. destruct l as [|e l]; [by destruct (Hl eq_refl)|].
    exists (set_top (next_ptr (smem s e)) s). split; [|by apply pop_at]. destruct Hs as [(Ht & He & _) _].
    destruct s as [t m]. cbn in Ht. subst t.
    eapply runs_step; [cbn [hmicro]; by rewrite caspm_read_same|]. eapply runs_step; [done|]. apply runs_done. cbn. by rewrite Z.eqb_refl.
Qed.

Lemma content_snoc h x : content (h ++ [x]) = replay1 (content h) (to_op x).
Proof. unfold content, replay. by rewrite map_app, fold_left_app. Qed.
Lemma sdisciplined_front h x : sdisciplined (h ++ [x]) -> sdisciplined h.
Proof. intros H h1 e r h2 l -> Hl. apply (H h1 e r (h2 ++ [x]) l); [by rewrite <- app_assoc|done]. Qed.
Lemma serial_lifo s0 h s : stack_at s0 [] -> serial sstart smicro s0 h s -> sdisciplined h -> exists l, content h = Some l /\ stack_at s l.
Proof.
  intros H0. induction 1 as [|h q o r q' _ IH Hr]; intros Hd; [by exists []|]. destruct (IH (sdisciplined_front _ _ Hd)) as (l & El & Hq).
  rewrite content_snoc, El. destruct smicro_implements as [Hpush Hpop]. destruct o as [e|]; cbn in Hr |- *.
  - destruct (Hd h e r [] l eq_refl El) as [He Hn]. destruct (Hpush q l e Hq He Hn) as (q2 & Hr2 & Hq2).
    destruct (runs_det _ _ _ _ _ _ _ Hr2 Hr) as [-> ->]. by exists (e :: l).
  - destruct (Hpop q l Hq ltac:(done)) as (q2 & Hr2 & Hq2). destruct (runs_det _ _ _ _ _ _ _ Hr2 Hr) as [-> ->].
    exists (tail l). split; [|done]. destruct l as [|p l]; [done|]. cbn. destruct Hq as [(_ & Hp & _) _].
    rewrite (proj2 (Z.eqb_neq p 0) Hp). cbn. by rewrite Z.eqb_refl.
Qed.

(** The stack under the lock is a LIFO stack, for any number of cores and
    every interleaving, when an element is pushed only while it is not on it. *)
Theorem locked_stack_lifo s0 s : lreach sstart smicro (sinitialize s0) s -> sdisciplined (hist s) ->
  exists l, content (hist s) = Some l /\ (lockw s = 0 -> stack_at (data s) l).
Proof.
  intros (q & Hs & Hf)%lreach_serial Hd. assert (H0 : stack_at (sinitialize s0) []) by (split; [done|constructor]).
  destruct (serial_lifo _ _ _ H0 Hs Hd) as (l & El & Hq). exists l. split; [done|]. intros E. by rewrite (Hf E).
Qed.

(** The pop of stack_hardlock.c on an empty stack: it reads the next field at
    address 0, and what is there becomes the top. *)
Theorem hardlock_pop_of_empty s : top_ptr s = 0 -> runs hmicro PopTop s 0 (set_top (next_ptr (smem s 0)) s).
Proof.
  intros E. destruct s as [t m]. cbn in E. subst t.
  eapply runs_step; [cbn [hmicro]; by rewrite caspm_read_same|]. eapply runs_step; [done|]. by apply runs_done.
Qed.
End Stack.

(** ** Examples *)

(** Calls and steps of cores. *)
Inductive lev {Op : Type} := LCall (c : Z) (o : Op) | LStep (c : Z).
Section Exec.
Context {D Op Res St : Type} (start : Op -> St) (micro : St -> D -> (St + Res) * D).
Definition lexec1 (s : lsys (D := D) (Op := Op) (Res := Res) (St := St)) (ev : lev (Op := Op)) :=
  match ev with LCall c o => match at_pc s c with Out => move c (Trying o) s | _ => s end | LStep c => lstep start micro c s end.
Definition lexec evs s := fold_left lexec1 evs s.
Lemma lexec_reach d0 evs : forall s, lreach start micro d0 s -> lreach start micro d0 (lexec evs s).
Proof.
  induction evs as [|ev evs IH]; intros s Hr; [done|]. cbn. apply IH. destruct ev as [c o|c]; cbn; [|by apply lreach_step].
  destruct (at_pc s c) eqn:E; try done. by apply lreach_call.
Qed.
End Exec.

(** Cores 1 and 2 enqueue, core 2 waiting for the lock, and core 3 dequeues. *)
Definition q_blank : Queue.queue_t := Queue.mk_queue 5 7 (fun _ => Queue.mk_el 9 0).
Definition q_run :=
  lexec Queue.qstart Queue.qmicro
    ([LCall 1 (Queue.Enqueue 16); LCall 2 (Queue.Enqueue 32); LStep 1; LStep 2] ++ replicate 5 (LStep 1) ++ replicate 6 (LStep 2) ++
     [LCall 3 Queue.Dequeue] ++ replicate 6 (LStep 3))
    (mk_lsys 0 (Queue.initialize q_blank) (fun _ => Out) []).
Lemma locked_queue_fifo_witness :
  hist q_run = [(Queue.Enqueue 16, 0); (Queue.Enqueue 32, 0); (Queue.Dequeue, 16)] /\
  exists l, Queue.fifo (hist q_run) = Some l /\ (lockw q_run = 0 -> Queue.queue_at (data q_run) l).
Proof.
  split; [vm_compute; reflexivity|]. apply (Queue.locked_queue_fifo q_blank).
  - apply lexec_reach. apply lreach_start.
  - change (hist q_run) with (([] ++ [(Queue.Enqueue 16, 0)]) ++ [(Queue.Enqueue 32, 0)] ++ [(Queue.Dequeue, 16)]). rewrite app_assoc.
    apply Queue.disciplined_snoc; [apply Queue.disciplined_snoc; [apply Queue.disciplined_snoc; [by intros [|? ?]|]|]|by intros].
    + intros e l [= <-] [= <-]. split; [lia|by intros ?%elem_of_nil].
    + intros e l [= <-] [= <-]. split; [lia|]. intros E%list_elem_of_singleton. lia.
Defined.
