(* ===== verification/I2c.v ===== *)
(** I2c: the driver of the I2C master, apps/i2c-master/i2c_master.c.

    - The driver has four registers.  The controller (I2CMaster.scala of the
      hardware) documents them in a comment; [Section Controller] is that
      behaviour: a write to the address register connects to a device, data is
      written and read byte by byte, each operation keeps the controller busy for
      a number of polls of the status register.
    - The device on the bus is the interface [I2cSlave]; [trace] lists what
      happened on the bus.
    - The busy loops have fuel and return None when it is used up.
    - [RegSlave] are the laws of a device with 8-bit registers that are addressed
      by the first byte of a write; [RegFile] is such a device. *)

From stdpp Require Import base numbers functions list.
From S2P Require Import Prelude.

Class I2cSlave := {
  dev : Type;
  (** Addressed for reading (true) or writing: whether it acknowledges. *)
  s_addr : Z -> bool -> dev -> bool * dev;
  s_wr : Z -> dev -> bool * dev;
  s_rd : dev -> Z * dev;
}.

(** The controller acknowledges a read byte unless the flag of [Rd] is set. *)
Inductive bev := Start (addr : Z) (rd ack : bool) | Wr (b : Z) (ack : bool) | Rd (b : Z) (nack : bool) | Stop.

Section Controller.
Context `{I2cSlave}.
(** How many polls an operation takes, by what happened before. *)
Context (latency : list bev -> nat).

Record i2c := mk_i2c {
  nack : bool; busy : nat; conn : bool; rw : bool; abrt : bool; read_buf : Z; slave : dev; trace : list bev }.

Definition is_busy (b : i2c) : bool := match busy b with O => false | S _ => true end.
Definition begin_busy (b : i2c) : i2c := mk_i2c (nack b) (latency (trace b)) (conn b) (rw b) (abrt b) (read_buf b) (slave b) (trace b).
Definition set_nack (v : bool) (b : i2c) : i2c := mk_i2c v (busy b) (conn b) (rw b) (abrt b) (read_buf b) (slave b) (trace b).
Definition see (e : bev) (b : i2c) : i2c := mk_i2c (nack b) (busy b) (conn b) (rw b) (abrt b) (read_buf b) (slave b) (trace b ++ [e]).
Definition set_conn (v : bool) (b : i2c) : i2c := mk_i2c (nack b) (busy b) v (rw b) (abrt b) (read_buf b) (slave b) (trace b).
Definition set_mode (r a : bool) (b : i2c) : i2c := mk_i2c (nack b) (busy b) (conn b) r a (read_buf b) (slave b) (trace b).
Definition set_dev (d : dev) (b : i2c) : i2c := mk_i2c (nack b) (busy b) (conn b) (rw b) (abrt b) (read_buf b) d (trace b).
Definition set_buf (v : Z) (b : i2c) : i2c := mk_i2c (nack b) (busy b) (conn b) (rw b) (abrt b) v (slave b) (trace b).

Definition stop (b : i2c) : i2c := set_conn false (see Stop b).
(** A byte is read; without acknowledge the transfer ends. *)
Definition read_byte (b : i2c) : i2c :=
  let '(v, d) := s_rd (slave b) in
  let b := see (Rd v (nack b)) (set_buf v (set_dev d b)) in
  if nack b then stop b else b.

Definition wr_ctrl (v : Z) (b : i2c) : i2c :=
  if is_busy b then b else
  let b := set_nack (Z.testbit v 0) b in
  if Z.testbit v 1 && conn b && negb (rw b) then begin_busy (stop b) else b.
Definition wr_addr (v : Z) (b : i2c) : i2c :=
  if is_busy b || (conn b && rw b) then b else
  let v := u8 v in let r := Z.testbit v 0 in
  let '(a, d) := s_addr (v / 2) r (slave b) in
  let b := set_mode r (negb a) (see (Start (v / 2) r a) (set_dev d b)) in
  begin_busy (if a then let b := set_conn true b in if r then read_byte b else b else stop b).
Definition wr_data (v : Z) (b : i2c) : i2c :=
  if negb (is_busy b) && conn b && negb (rw b) then
    let '(a, d) := s_wr (u8 v) (slave b) in
    let b := see (Wr (u8 v) a) (set_dev d b) in
    begin_busy (if a then b else stop (set_mode false true b))
  else b.
Definition rd_data (b : i2c) : Z * i2c :=
  if negb (is_busy b) && rw b then (read_buf b, if conn b then begin_busy (read_byte b) else b) else (0, b).
(** The status register; reading it is a poll. *)
Definition rd_status (b : i2c) : Z * i2c :=
  (c_bool (is_busy b) + 2 * c_bool (conn b) + 4 * c_bool (rw b) + 16 * c_bool (abrt b),
   mk_i2c (nack b) (pred (busy b)) (conn b) (rw b) (abrt b) (read_buf b) (slave b) (trace b)).

(** ** The driver *)

(** Poll the status register while bit 0 is set. *)
Fixpoint wait (fuel : nat) (b : i2c) : option i2c :=
  match fuel with
  | O => None
  | S fuel => let '(v, b) := rd_status b in if Z.land v 1 =? 0 then Some b else wait fuel b
  end.

Context (fuel : nat).

Fixpoint write_loop (bytes : list Z) (b : i2c) : option i2c :=
  match bytes with
  | [] => Some b
  | x :: bytes => b ← wait fuel (wr_data x b); write_loop bytes b
  end.
(** The buffer is as long as [cnt] says. *)
Definition i2c_write (addr cnt : Z) (buf : list Z) (b : i2c) : option (Z * i2c) :=
  if cnt <? 0 then Some (-1, b) else
  b ← wait fuel (wr_addr (Z.shiftl addr 1) b);
  let '(v, b) := rd_status b in
  if Z.land v 2 =? 0 then Some (-1, b) else
  b ← write_loop (take (Z.to_nat cnt) buf) b;
  Some (0, b).

(** The loop of i2c_read: [n] iterations are left, [n] is cnt; what is read is
    appended to [buf]. *)
Fixpoint read_loop (n : nat) (buf : list Z) (b : i2c) : option (list Z * i2c) :=
  match n with
  | O => Some (buf, b)
  | S n =>
      let b := if (n =? 1)%nat then wr_ctrl 1 b else b in
      let '(x, b) := rd_data b in
      b ← wait fuel b;
      read_loop n (buf ++ [u8 x]) b
  end.
Definition i2c_read (addr cnt : Z) (b : i2c) : option (Z * list Z * i2c) :=
  if cnt <? 1 then Some (-1, [], b) else
  let b := wr_ctrl (if cnt =? 1 then 1 else 0) b in
  b ← wait fuel (wr_addr (Z.lor (Z.shiftl addr 1) 1) b);
  let '(v, b) := rd_status b in
  if negb (Z.land v 0x10 =? 0) then Some (-1, [], b) else
  '(buf, b) ← read_loop (Z.to_nat cnt) [] b;
  Some (0, buf, b).
Definition i2c_stop (b : i2c) : option i2c := wait fuel (wr_ctrl 2 b).

Definition i2c_probe (addr : Z) (b : i2c) : option (Z * i2c) :=
  '(r, b) ← i2c_write addr 0 [] b;
  if r <? 0 then Some (-1, b) else b ← i2c_stop b; Some (0, b).
(** The register is written and [n] bytes are read back; the result is computed
    from them. *)
Definition read_reg (addr : Z) (reg : list Z) (n : Z) (f : list Z -> Z) (b : i2c) : option (Z * i2c) :=
  '(r, b) ← i2c_write addr (Z.of_nat (length reg)) reg b;
  if r <? 0 then Some (-1, b) else
  '(r, buf, b) ← i2c_read addr n b;
  if r <? 0 then Some (-1, b) else Some (f buf, b).
Definition write_reg (addr : Z) (buf : list Z) (b : i2c) : option (Z * i2c) :=
  '(r, b) ← i2c_write addr (Z.of_nat (length buf)) buf b;
  if r <? 0 then Some (-1, b) else b ← i2c_stop b; Some (0, b).

Definition i2c_reg8_read_stream (addr reg buf_len : Z) (b : i2c) : option (Z * list Z * i2c) :=
  '(r, b) ← i2c_write addr 1 [reg] b;
  if r <? 0 then Some (-1, [], b) else
  '(r, buf, b) ← i2c_read addr buf_len b;
  if r <? 0 then Some (-1, buf, b) else Some (0, buf, b).
Definition i2c_reg8_read8 (addr reg : Z) := read_reg addr [reg] 1 (fun buf => at_ buf 0).
Definition i2c_reg8_read16l (addr reg : Z) := read_reg addr [reg] 2 (fun buf => Z.lor (at_ buf 0) (Z.shiftl (at_ buf 1) 8)).
Definition i2c_reg8_read16b (addr reg : Z) := read_reg addr [reg] 2 (fun buf => Z.lor (Z.shiftl (at_ buf 0) 8) (at_ buf 1)).
Definition i2c_reg8_read24l (addr reg : Z) :=
  read_reg addr [reg] 3 (fun buf => Z.lor (Z.lor (at_ buf 0) (Z.shiftl (at_ buf 1) 8)) (Z.shiftl (at_ buf 2) 16)).
Definition i2c_reg8_read24b (addr reg : Z) :=
  read_reg addr [reg] 3 (fun buf => Z.lor (Z.lor (Z.shiftl (at_ buf 0) 16) (Z.shiftl (at_ buf 1) 8)) (at_ buf 2)).
Definition i2c_reg16l_read16l (addr reg : Z) :=
  read_reg addr [u8 reg; u8 (Z.shiftr reg 8)] 2 (fun buf => Z.lor (at_ buf 0) (Z.shiftl (at_ buf 1) 8)).
Definition i2c_reg16b_read16b (addr reg : Z) :=
  read_reg addr [u8 (Z.shiftr reg 8); u8 reg] 2 (fun buf => Z.lor (Z.shiftl (at_ buf 0) 8) (at_ buf 1)).

Definition i2c_reg8_write8 (addr reg data : Z) := write_reg addr [reg; data].
Definition i2c_reg8_write16l (addr reg data : Z) := write_reg addr [reg; u8 data; u8 (Z.shiftr data 8)].
Definition i2c_reg8_write16b (addr reg data : Z) := write_reg addr [reg; u8 (Z.shiftr data 8); u8 data].
Definition i2c_reg8_write24l (addr reg data : Z) := write_reg addr [reg; u8 data; u8 (Z.shiftr data 8); u8 (Z.shiftr data 16)].
Definition i2c_reg8_write24b (addr reg data : Z) := write_reg addr [reg; u8 (Z.shiftr data 16); u8 (Z.shiftr data 8); u8 data].
Definition i2c_reg16l_write16l (addr reg data : Z) :=
  write_reg addr [u8 reg; u8 (Z.shiftr reg 8); u8 data; u8 (Z.shiftr data 8)].
Definition i2c_reg16b_write16b (addr reg data : Z) :=
  write_reg addr [u8 (Z.shiftr reg 8); u8 reg; u8 (Z.shiftr data 8); u8 data].

(** ** The bus *)

(** A device takes bytes until one is not acknowledged; it delivers bytes. *)
Fixpoint dev_writes (bytes : list Z) (d : dev) : option dev :=
  match bytes with [] => Some d | x :: bytes => let '(a, d) := s_wr x d in if a then dev_writes bytes d else None end.
Fixpoint dev_reads (n : nat) (d : dev) : list Z * dev :=
  match n with O => ([], d) | S n => let '(x, d) := s_rd d in let '(xs, d) := dev_reads n d in (x :: xs, d) end.
(** All bytes but the last are acknowledged, then the transfer ends. *)
Fixpoint rd_trace (xs : list Z) : list bev :=
  match xs with [] => [] | [x] => [Rd x true; Stop] | x :: xs => Rd x false :: rd_trace xs end.
Definition wr_trace (xs : list Z) : list bev := map (fun x => Wr x true) xs.

Definition idle (b : i2c) : i2c := mk_i2c (nack b) 0 (conn b) (rw b) (abrt b) (read_buf b) (slave b) (trace b).
(** The controller takes a new address. *)
Definition ready (b : i2c) : Prop := busy b = 0%nat /\ conn b && rw b = false.

Hypothesis enough : forall t, (latency t < fuel)%nat.

Lemma status_busy b : Z.land (fst (rd_status b)) 1 = c_bool (is_busy b).
Proof. unfold rd_status. cbn [fst]. by destruct (is_busy b), (conn b), (rw b), (abrt b). Qed.
Lemma status_conn b : busy b = 0%nat -> Z.land (fst (rd_status b)) 2 = 2 * c_bool (conn b).
Proof. intros E. unfold rd_status, is_busy. rewrite E. cbn [fst]. by destruct (conn b), (rw b), (abrt b). Qed.
Lemma status_abrt b : busy b = 0%nat -> Z.land (fst (rd_status b)) 0x10 = 16 * c_bool (abrt b).
Proof. intros E. unfold rd_status, is_busy. rewrite E. cbn [fst]. by destruct (conn b), (rw b), (abrt b). Qed.
Lemma status_same b : busy b = 0%nat -> snd (rd_status b) = b.
Proof. destruct b. cbn. by intros ->. Qed.
Lemma wait_idle n : forall b, (busy b < n)%nat -> wait n b = Some (idle b).
Proof.
  induction n as [|n IH]; intros b Hb; [lia|]. cbn [wait]. pose proof (status_busy b) as Es. destruct (rd_status b) as [v b'] eqn:E. cbn [fst] in Es. rewrite Es.
  unfold rd_status in E. injection E as _ <-. unfold is_busy. destruct (busy b) as [|k] eqn:Ek; cbn [c_bool Z.eqb].
  - done.
  - cbn. rewrite IH by (cbn; lia). by unfold idle.
Qed.
Lemma wait_begin b : wait fuel (begin_busy b) = Some (idle (begin_busy b)).
Proof. apply wait_idle. cbn. apply enough. Qed.
Lemma not_busy b : busy b = 0%nat -> is_busy b = false.
Proof. unfold is_busy. by intros ->. Qed.
Lemma idle_same b : busy b = 0%nat -> idle b = b.
Proof. destruct b. cbn. by intros ->. Qed.

(** The state after bytes were written. *)
Definition written (xs : list Z) (d : dev) (b : i2c) : i2c :=
  mk_i2c (nack b) 0 (conn b) (rw b) (abrt b) (read_buf b) d (trace b ++ wr_trace xs).
Lemma write_loop_ok xs : forall b d, busy b = 0%nat -> conn b = true -> rw b = false -> Forall is_byte xs -> dev_writes xs (slave b) = Some d ->
  write_loop xs b = Some (written xs d b).
Proof.
  induction xs as [|x xs IH]; intros b d Hb Hc Hr HF Hd.
  - cbn in *. injection Hd as <-. unfold written, wr_trace. cbn. rewrite app_nil_r. destruct b. cbn in *. by subst.
  - apply Forall_cons in HF as [Hx HF]. cbn [write_loop]. unfold wr_data. rewrite not_busy, Hc, Hr by done. cbn [negb andb].
    rewrite (u8_small x) by (unfold is_byte in Hx; lia). cbn [dev_writes] in Hd. destruct (s_wr x (slave b)) as [[|] d1]; [|done].
    rewrite wait_begin. cbn. rewrite (IH _ d); try done. unfold written, wr_trace. cbn. by rewrite <- app_assoc.
Qed.

Lemma addr_byte a r : 0 <= a < 128 -> u8 (Z.lor (Z.shiftl a 1) (c_bool r)) = 2 * a + c_bool r.
Proof. intros Ha. rewrite lor_shift by (destruct r; cbn; lia). rewrite u8_small; [lia|destruct r; cbn; lia]. Qed.
Lemma addr_parts a r : (2 * a + c_bool r) / 2 = a /\ Z.testbit (2 * a + c_bool r) 0 = r.
Proof.
  split; [destruct r; cbn [c_bool]; Z.div_mod_to_equations; lia|]. rewrite Z.add_comm. destruct r; cbn [c_bool].
  - rewrite Z.add_comm. by rewrite Z.testbit_odd_0.
  - by rewrite Z.add_0_l, Z.testbit_even_0.
Qed.

(** A connection for writing, and for reading the first byte. *)
Lemma connect_write a b : ready b -> 0 <= a < 128 ->
  let '(k, d) := s_addr a false (slave b) in
  wait fuel (wr_addr (Z.shiftl a 1) b) =
    Some (mk_i2c (nack b) 0 k false (negb k) (read_buf b) d (trace b ++ Start a false k :: if k then [] else [Stop])).
Proof.
  intros [Hb Hc] Ha. destruct (s_addr a false (slave b)) as [k d] eqn:Ed. unfold wr_addr. rewrite not_busy, Hc by done. cbn [orb].
  assert (E : u8 (Z.shiftl a 1) = 2 * a + c_bool false) by (rewrite <- addr_byte by done; cbn [c_bool]; by rewrite Z.lor_0_r).
  cbv zeta. rewrite E. destruct (addr_parts a false) as [-> ->]. rewrite Ed.
  rewrite wait_begin. unfold idle, begin_busy, stop. destruct k; cbn; [done|]. by rewrite <- app_assoc.
Qed.
Lemma i2c_write_ok a xs b d1 d2 : ready b -> 0 <= a < 128 -> Forall is_byte xs -> s_addr a false (slave b) = (true, d1) -> dev_writes xs d1 = Some d2 ->
  i2c_write a (Z.of_nat (length xs)) xs b =
    Some (0, mk_i2c (nack b) 0 true false false (read_buf b) d2 (trace b ++ Start a false true :: wr_trace xs)).
Proof.
  intros Hb Ha HF Hd1 Hd2. unfold i2c_write. rewrite (proj2 (Z.ltb_ge _ 0)) by lia. pose proof (connect_write a b Hb Ha) as Hw. rewrite Hd1 in Hw. rewrite Hw. cbn [mbind option_bind].
  match goal with |- context [rd_status ?b1] => pose proof (status_conn b1 eq_refl) as Es; pose proof (status_same b1 eq_refl) as Eb; destruct (rd_status b1) as [v b2] end.
  cbn in Es, Eb. subst b2. rewrite Es. cbn [Z.eqb]. rewrite Nat2Z.id, firstn_all. rewrite (write_loop_ok xs _ d2) by done. unfold written. cbn.
  by rewrite <- app_assoc.
Qed.
Lemma i2c_write_absent a xs b d1 : ready b -> 0 <= a < 128 -> s_addr a false (slave b) = (false, d1) ->
  i2c_write a (Z.of_nat (length xs)) xs b =
    Some (-1, mk_i2c (nack b) 0 false false true (read_buf b) d1 (trace b ++ [Start a false false; Stop])).
Proof.
  intros Hb Ha Hd1. unfold i2c_write. rewrite (proj2 (Z.ltb_ge _ 0)) by lia. pose proof (connect_write a b Hb Ha) as Hw. rewrite Hd1 in Hw. rewrite Hw. cbn [mbind option_bind].
  match goal with |- context [rd_status ?b1] => pose proof (status_conn b1 eq_refl) as Es; pose proof (status_same b1 eq_refl) as Eb; destruct (rd_status b1) as [v b2] end.
  cbn in Es, Eb. subst b2. rewrite Es. done.
Qed.

Lemma rd_trace_cons x xs : xs <> [] -> rd_trace (x :: xs) = Rd x false :: rd_trace xs.
Proof. by destruct xs. Qed.
Lemma dev_reads_length n : forall d, length (fst (dev_reads n d)) = n.
Proof. induction n as [|n IH]; intros d; [done|]. cbn. destruct (s_rd d) as [x d1]. specialize (IH d1). destruct (dev_reads n d1). cbn in *. lia. Qed.

Lemma read_loop_S n buf b :
  read_loop (S n) buf b =
    let '(x, b1) := rd_data (if (n =? 1)%nat then wr_ctrl 1 b else b) in
    match wait fuel b1 with Some b2 => read_loop n (buf ++ [u8 x]) b2 | None => None end.
Proof. cbn [read_loop]. by destruct (rd_data _) as [x b1], (wait fuel b1). Qed.

(** A byte [x] is in the buffer and [n] more are to be read. *)
Lemma read_loop_ok n : forall buf b x, busy b = 0%nat -> rw b = true -> read_buf b = x -> conn b = negb (n =? 0)%nat -> nack b = (n =? 0)%nat ->
  exists b', read_loop (S n) buf b = Some (buf ++ map u8 (x :: fst (dev_reads n (slave b))), b') /\
    busy b' = 0%nat /\ conn b' = false /\ slave b' = snd (dev_reads n (slave b)) /\ trace b' = trace b ++ rd_trace (fst (dev_reads n (slave b))).
Proof.
  induction n as [|n IH]; intros buf b x Hb Hr Hx Hc Hn; rewrite read_loop_S.
  - cbn [Nat.eqb]. unfold rd_data. rewrite not_busy, Hr, Hc, Hx by done. cbn [negb andb Nat.eqb]. rewrite wait_idle by (rewrite Hb; pose proof (enough []); lia). cbn.
    exists b. rewrite idle_same by done. by rewrite app_nil_r.
  - cbn in Hc, Hn. set (b1 := if (S n =? 1)%nat then wr_ctrl 1 b else b).
    assert (E1 : b1 = set_nack (n =? 0)%nat b).
    { unfold b1. destruct n as [|n]; cbn [Nat.eqb].
      - unfold wr_ctrl. rewrite not_busy by done. cbn. by destruct (conn b), (rw b).
      - destruct b. cbn in *. by subst. }
    unfold rd_data. rewrite E1. rewrite not_busy by done. cbn [negb andb]. change (rw (set_nack _ b)) with (rw b). rewrite Hr.
    change (conn (set_nack _ b)) with (conn b). rewrite Hc. change (read_buf (set_nack _ b)) with (read_buf b). rewrite wait_begin. cbn [mbind option_bind].
    cbn [dev_reads]. destruct (s_rd (slave b)) as [v d] eqn:Ed. set (b2 := idle _).
    assert (E2 : busy b2 = 0%nat /\ rw b2 = true /\ read_buf b2 = v /\ conn b2 = negb (n =? 0)%nat /\ nack b2 = (n =? 0)%nat /\ slave b2 = d /\
      trace b2 = trace b ++ Rd v (n =? 0)%nat :: if (n =? 0)%nat then [Stop] else []).
    { unfold b2, read_byte. cbn [slave set_nack]. rewrite Ed. destruct n as [|n]; cbn; rewrite <- ?app_assoc; by split_and!. }
    destruct E2 as (F1 & F2 & F3 & F4 & F5 & F6 & F7).
    destruct (IH (buf ++ [u8 (read_buf b)]) b2 v F1 F2 F3 F4 F5) as (b' & E & G1 & G2 & G3 & G4). rewrite F6 in E, G3, G4.
    pose proof (dev_reads_length n d) as Hl. destruct (dev_reads n d) as [xs d']. cbn [fst snd] in *. exists b'. rewrite E, Hx.
    split; [by rewrite <- app_assoc|]. split_and!; try done. rewrite G4, F7. destruct n as [|n], xs as [|y xs]; try done; cbn [Nat.eqb]; by rewrite <- app_assoc.
Qed.

Lemma connect_read a b (n : nat) : ready b -> 0 <= a < 128 ->
  let '(k, d) := s_addr a true (slave b) in
  exists b', wait fuel (wr_addr (Z.lor (Z.shiftl a 1) 1) (set_nack (n =? 0)%nat b)) = Some b' /\ busy b' = 0%nat /\ abrt b' = negb k /\
    if k then
      let '(x, d) := s_rd d in
      rw b' = true /\ read_buf b' = x /\ conn b' = negb (n =? 0)%nat /\ nack b' = (n =? 0)%nat /\ slave b' = d /\
      trace b' = trace b ++ Start a true true :: Rd x (n =? 0)%nat :: if (n =? 0)%nat then [Stop] else []
    else conn b' = false /\ slave b' = d /\ trace b' = trace b ++ [Start a true false; Stop].
Proof.
  intros [Hb Hc] Ha. destruct (s_addr a true (slave b)) as [k d] eqn:Ed. unfold wr_addr. rewrite not_busy by done.
  change (conn (set_nack _ b)) with (conn b). change (rw (set_nack _ b)) with (rw b). rewrite Hc. cbn [orb].
  assert (E : u8 (Z.lor (Z.shiftl a 1) 1) = 2 * a + c_bool true) by (by rewrite <- addr_byte).
  cbv zeta. rewrite E. destruct (addr_parts a true) as [-> ->]. cbn [slave set_nack]. rewrite Ed, wait_begin. eexists. split; [done|]. split; [done|].
  unfold read_byte. destruct k; cbn [slave set_conn set_mode see set_dev set_nack].
  - destruct (s_rd d) as [x d1]. destruct n as [|n]; cbn; rewrite <- ?app_assoc; by split_and!.
  - cbn. rewrite <- ?app_assoc. by split_and!.
Qed.

(** i2c_read of [S n] bytes. *)
Lemma i2c_read_ok a (n : nat) b d1 : ready b -> 0 <= a < 128 -> s_addr a true (slave b) = (true, d1) ->
  exists b', i2c_read a (Z.of_nat (S n)) b = Some (0, map u8 (fst (dev_reads (S n) d1)), b') /\
    busy b' = 0%nat /\ conn b' = false /\ slave b' = snd (dev_reads (S n) d1) /\
    trace b' = trace b ++ Start a true true :: rd_trace (fst (dev_reads (S n) d1)).
Proof.
  intros Hb Ha Hd. unfold i2c_read. rewrite (proj2 (Z.ltb_ge _ 1)) by lia.
  assert (Ec : wr_ctrl (if Z.of_nat (S n) =? 1 then 1 else 0) b = set_nack (n =? 0)%nat b).
  { unfold wr_ctrl. rewrite not_busy by apply Hb. destruct n as [|n]; [done|]. by rewrite (proj2 (Z.eqb_neq (Z.of_nat (S (S n))) 1)) by lia. }
  rewrite Ec. pose proof (connect_read a b n Hb Ha) as Hw. rewrite Hd in Hw. destruct Hw as (b1 & -> & F1 & Fa & F2). cbn [mbind option_bind].
  pose proof (status_abrt b1 F1) as Es. pose proof (status_same b1 F1) as Eb. destruct (rd_status b1) as [v b2]. cbn [fst snd] in Es, Eb. subst b2. rewrite Es, Fa.
  cbn [negb c_bool Z.mul Z.eqb]. destruct (s_rd d1) as [x d2] eqn:Er. destruct F2 as (F2 & F3 & F4 & F5 & F6 & F7). rewrite Nat2Z.id.
  destruct (read_loop_ok n [] b1 x F1 F2 F3 F4 F5) as (b' & E & G1 & G2 & G3 & G4). rewrite E. cbn [mbind option_bind]. exists b'.
  cbn [dev_reads]. rewrite Er. rewrite F6 in *. pose proof (dev_reads_length n d2) as Hl. destruct (dev_reads n d2) as [xs d3]. cbn [fst snd] in *. split_and!; try done.
  rewrite G4, F7, <- app_assoc. destruct n as [|n], xs as [|y xs]; done.
Qed.
Lemma i2c_stop_ok b : busy b = 0%nat -> conn b = true -> rw b = false ->
  i2c_stop b = Some (mk_i2c false 0 false false (abrt b) (read_buf b) (slave b) (trace b ++ [Stop])).
Proof.
  intros Hb Hc Hr. assert (E : wr_ctrl 2 b = begin_busy (stop (set_nack false b))) by (unfold wr_ctrl; rewrite not_busy by done; cbn; by rewrite Hc, Hr).
  unfold i2c_stop. rewrite E, wait_begin. unfold idle, begin_busy, stop. cbn. by rewrite Hr.
Qed.
End Controller.

(** ** Devices with registers *)

(** How a register is addressed: by one byte, or by two with the low or the
    high byte first; [reg_top] is the number of registers. *)
Inductive reg_width := R8 | R16l | R16b.
Definition reg_code (w : reg_width) (r : Z) : list Z :=
  match w with R8 => [r] | R16l => [u8 r; u8 (Z.shiftr r 8)] | R16b => [u8 (Z.shiftr r 8); u8 r] end.
Definition reg_top (w : reg_width) : Z := match w with R8 => 2 ^ 8 | _ => 2 ^ 16 end.

(** Device [a]: the first bytes of a write select a register ([sel]: they are
    expected next), the following bytes are stored and reading delivers the
    registers from there on. *)
Class RegSlave `{I2cSlave} (a : Z) (w : reg_width) := {
  dok : dev -> Prop;
  reg_of : dev -> Z -> Z;
  ptr : dev -> Z;
  sel : dev -> bool;
  law_addr_w d : dok d -> exists d', s_addr a false d = (true, d') /\ dok d' /\ sel d' = true /\ forall r, reg_of d' r = reg_of d r;
  law_sel d r : dok d -> sel d = true -> 0 <= r < reg_top w ->
    exists d', dev_writes (reg_code w r) d = Some d' /\ dok d' /\ sel d' = false /\ ptr d' = r /\ forall r, reg_of d' r = reg_of d r;
  law_wr d v : dok d -> sel d = false -> is_byte v ->
    exists d', s_wr v d = (true, d') /\ dok d' /\ sel d' = false /\ ptr d' = (ptr d + 1) mod reg_top w /\ forall r, reg_of d' r = if r =? ptr d then v else reg_of d r;
  law_addr_r d : dok d -> exists d', s_addr a true d = (true, d') /\ dok d' /\ ptr d' = ptr d /\ forall r, reg_of d' r = reg_of d r;
  law_rd d : dok d -> exists d', s_rd d = (reg_of d (ptr d), d') /\ dok d' /\ ptr d' = (ptr d + 1) mod reg_top w /\ forall r, reg_of d' r = reg_of d r;
}.

Section Registers.
Context `{RegSlave} (latency : list bev -> nat) (fuel : nat) (enough : forall t, (latency t < fuel)%nat) (Ha : 0 <= a < 128).

(** The registers from [p] on. *)
Definition regs (d : dev) (p n : Z) : list Z := map (reg_of d) (seqZ p n).
Lemma regs_cons d p n : 0 <= n -> regs d p (n + 1) = reg_of d p :: regs d (p + 1) n.
Proof. intros Hn. unfold regs. rewrite seqZ_cons by lia. by rewrite Z.add_1_r, Z.pred_succ, Z.add_1_r. Qed.
Lemma regs_same d d' p n : (forall r, reg_of d' r = reg_of d r) -> regs d' p n = regs d p n.
Proof. intros E. unfold regs. by apply map_ext. Qed.

Lemma reg_writes vs : forall d, dok d -> sel d = false -> Forall is_byte vs -> 0 <= ptr d -> ptr d + Z.of_nat (length vs) <= reg_top w ->
  exists d', dev_writes vs d = Some d' /\ dok d' /\
    regs d' (ptr d) (Z.of_nat (length vs)) = vs /\ (forall r, ~ (ptr d <= r < ptr d + Z.of_nat (length vs)) -> reg_of d' r = reg_of d r).
Proof.
  induction vs as [|v vs IH]; intros d Hd Hs HF Hp Hl; [by exists d|]. apply Forall_cons in HF as [Hv HF]. cbn [length] in *. rewrite Nat2Z.inj_succ, <- Z.add_1_r in *.
  destruct (law_wr d v Hd Hs Hv) as (d1 & E & Hd1 & Hs1 & Hp1 & Hr1). cbn [dev_writes]. rewrite E.
  destruct vs as [|v' vs].
  { exists d1. split_and!; try done.
    - rewrite regs_cons, Hr1, Z.eqb_refl by (cbn; lia). done.
    - cbn. intros r Hr. rewrite Hr1, (proj2 (Z.eqb_neq r (ptr d))) by lia. done. }
  rewrite Z.mod_small in Hp1 by (cbn in Hl; lia). destruct (IH d1 Hd1 Hs1 HF) as (d2 & E2 & Hd2 & Hg & Hr2); [lia|lia|]. exists d2. split_and!; try done.
  - rewrite regs_cons by lia. rewrite <- Hp1, Hg, Hr2, Hr1, Z.eqb_refl by lia. done.
  - intros r Hr. rewrite Hr2, Hr1, (proj2 (Z.eqb_neq r (ptr d))) by lia. done.
Qed.
Lemma reg_reads n : forall d, dok d -> 0 <= ptr d -> ptr d + Z.of_nat n <= reg_top w ->
  fst (dev_reads n d) = regs d (ptr d) (Z.of_nat n) /\ dok (snd (dev_reads n d)) /\ forall r, reg_of (snd (dev_reads n d)) r = reg_of d r.
Proof.
  induction n as [|n IH]; intros d Hd Hp Hl; [by split_and!|]. destruct (law_rd d Hd) as (d1 & E & Hd1 & Hp1 & Hr1). cbn [dev_reads]. rewrite E.
  rewrite Nat2Z.inj_succ, <- Z.add_1_r in *. rewrite regs_cons by lia. destruct n as [|n]; [cbn; by split_and!|].
  rewrite Z.mod_small in Hp1 by lia. destruct (IH d1 Hd1) as (E1 & Hd2 & Hr2); [lia|lia|]. destruct (dev_reads (S n) d1) as [xs d2]. cbn [fst snd] in *.
  split_and!; [rewrite E1, Hp1; f_equal; by apply regs_same|done|]. intros r. by rewrite Hr2, Hr1.
Qed.

(** The bus before a call: the controller is not reading and the device is
    there. *)
Definition bus_ok (b : i2c) : Prop := ready b /\ dok (slave b).

Lemma dev_writes_app xs ys d : dev_writes (xs ++ ys) d = match dev_writes xs d with Some d' => dev_writes ys d' | None => None end.
Proof. revert d. induction xs as [|x xs IH]; intros d; [done|]. cbn. destruct (s_wr x d) as [[|] d1]; [apply IH|done]. Qed.
Lemma u8_byte x : is_byte (u8 x).
Proof. apply u8_range. Qed.
Lemma reg_code_bytes reg : 0 <= reg < reg_top w -> Forall is_byte (reg_code w reg).
Proof.
  intros Hr. destruct w; cbn in *; repeat (apply List.Forall_cons; [apply u8_byte || (unfold is_byte; change (Z.pow_pos 2 8) with 256 in Hr; lia)|]);
    apply List.Forall_nil.
Qed.

Lemma write_reg_ok reg vs b : bus_ok b -> 0 <= reg < reg_top w -> Forall is_byte vs -> reg + Z.of_nat (length vs) <= reg_top w ->
  exists b', write_reg latency fuel a (reg_code w reg ++ vs) b = Some (0, b') /\ bus_ok b' /\ conn b' = false /\
    regs (slave b') reg (Z.of_nat (length vs)) = vs /\
    (forall r, ~ (reg <= r < reg + Z.of_nat (length vs)) -> reg_of (slave b') r = reg_of (slave b) r) /\
    trace b' = trace b ++ Start a false true :: wr_trace (reg_code w reg ++ vs) ++ [Stop].
Proof.
  intros [Hb Hd] Hreg HF Hl. destruct (law_addr_w _ Hd) as (d1 & E1 & Hd1 & Hs1 & Hr1). destruct (law_sel d1 reg Hd1 Hs1 Hreg) as (d2 & E2 & Hd2 & Hs2 & Hp2 & Hr2).
  destruct (reg_writes vs d2 Hd2 Hs2 HF) as (d3 & E3 & Hd3 & Hg & Hr3); [lia|lia|]. rewrite Hp2 in Hg, Hr3.
  assert (Ew : dev_writes (reg_code w reg ++ vs) d1 = Some d3) by (by rewrite dev_writes_app, E2).
  unfold write_reg. rewrite (i2c_write_ok latency fuel enough a (reg_code w reg ++ vs) b d1 d3) by (done || by apply Forall_app_2; [apply reg_code_bytes|]).
  cbn [mbind option_bind Z.ltb Z.compare].
  rewrite i2c_stop_ok by done. eexists. split; [done|]. split; [by split|]. cbn [slave trace conn]. split_and!; [done|done| |by rewrite <- app_assoc].
  intros r Hr. by rewrite Hr3, Hr2, Hr1.
Qed.
Lemma read_reg_ok reg (n : nat) f b : bus_ok b -> 0 <= reg < reg_top w -> reg + Z.of_nat (S n) <= reg_top w ->
  exists b', read_reg latency fuel a (reg_code w reg) (Z.of_nat (S n)) f b = Some (f (map u8 (regs (slave b) reg (Z.of_nat (S n)))), b') /\ bus_ok b' /\
    (forall r, reg_of (slave b') r = reg_of (slave b) r) /\
    trace b' = trace b ++ (Start a false true :: wr_trace (reg_code w reg) ++ [Start a true true]) ++ rd_trace (regs (slave b) reg (Z.of_nat (S n))).
Proof.
  intros [Hb Hd] Hreg Hl. destruct (law_addr_w _ Hd) as (d1 & E1 & Hd1 & Hs1 & Hr1). destruct (law_sel d1 reg Hd1 Hs1 Hreg) as (d2 & E2 & Hd2 & Hs2 & Hp2 & Hr2).
  unfold read_reg. rewrite (i2c_write_ok latency fuel enough a (reg_code w reg) b d1 d2) by (done || by apply reg_code_bytes). cbn [mbind option_bind Z.ltb Z.compare].
  destruct (law_addr_r d2 Hd2) as (d3 & E3 & Hd3 & Hp3 & Hr3).
  match goal with |- context [i2c_read _ _ _ _ ?b1] => destruct (i2c_read_ok latency fuel enough a n b1 d3) as (b' & E & G1 & G2 & G3 & G4); [by split|done|done|] end.
  rewrite E. cbn [mbind option_bind Z.ltb Z.compare]. exists b'.
  destruct (reg_reads (S n) d3 Hd3) as (R1 & R2 & R3); [rewrite Hp3, Hp2; lia|rewrite Hp3, Hp2; lia|].
  assert (Er : forall r, reg_of d3 r = reg_of (slave b) r) by (intros r; by rewrite Hr3, Hr2, Hr1).
  rewrite Hp3, Hp2 in R1. rewrite (regs_same _ _ _ _ Er) in R1. rewrite R1 in *. split; [done|]. split; [split; [split; [done|by rewrite G2]|by rewrite G3]|].
  split; [intros r; by rewrite G3, R3|]. rewrite G4. cbn [trace]. by rewrite <- !app_assoc, <- ?app_comm_cons, <- ?app_assoc.
Qed.

(** Bytes that are written to registers from [reg] on are read back by [f], and
    no other register changes. *)
Definition kept (k reg data : Z) (w r : i2c -> option (Z * i2c)) (b : i2c) : Prop :=
  exists b1 b2, w b = Some (0, b1) /\ r b1 = Some (data, b2) /\ bus_ok b2 /\
    forall q, ~ (reg <= q < reg + k) -> reg_of (slave b2) q = reg_of (slave b) q.

Lemma map_u8_bytes vs : Forall is_byte vs -> map u8 vs = vs.
Proof. induction 1 as [|v vs Hv _ IH]; [done|]. cbn. rewrite IH, u8_small by (unfold is_byte in Hv; lia). done. Qed.
Lemma write_then_read reg vs f b : bus_ok b -> 0 <= reg < reg_top w -> Forall is_byte vs -> vs <> [] -> reg + Z.of_nat (length vs) <= reg_top w ->
  kept (Z.of_nat (length vs)) reg (f vs) (write_reg latency fuel a (reg_code w reg ++ vs)) (read_reg latency fuel a (reg_code w reg) (Z.of_nat (length vs)) f) b.
Proof.
  intros Hb Hr HF Hne Hl. destruct (write_reg_ok reg vs b Hb Hr HF Hl) as (b1 & E1 & Hb1 & _ & Hg & Ho & _).
  destruct vs as [|v vs]; [done|]. cbn [length] in *. destruct (read_reg_ok reg (length vs) f b1 Hb1 Hr Hl) as (b2 & E2 & Hb2 & Hr2 & _).
  exists b1, b2. rewrite Hg, map_u8_bytes in E2 by done. split_and!; try done. intros q Hq. by rewrite Hr2, Ho.
Qed.
Lemma le_16 v : 0 <= v < 2 ^ 16 -> Z.lor (u8 v) (Z.shiftl (u8 (Z.shiftr v 8)) 8) = v.
Proof.
  intros Hv. rewrite Z.lor_comm, lor_bytes by apply u8_byte. rewrite Z.shiftr_div_pow2 by lia. change (2 ^ 8) with 256. unfold u8. change (2 ^ 8) with 256.
  Z.div_mod_to_equations. lia.
Qed.
Lemma le_24 v : 0 <= v < 2 ^ 24 -> Z.lor (Z.lor (u8 v) (Z.shiftl (u8 (Z.shiftr v 8)) 8)) (Z.shiftl (u8 (Z.shiftr v 16)) 16) = v.
Proof.
  intros Hv. rewrite Z.lor_comm. rewrite (Z.lor_comm (u8 v)), lor_bytes by apply u8_byte.
  pose proof (u8_byte v). pose proof (u8_byte (Z.shiftr v 8)). unfold is_byte in *. rewrite lor_shift by lia. rewrite !Z.shiftr_div_pow2 by lia. unfold u8.
  change (2 ^ 8) with 256. change (2 ^ 16) with 65536. Z.div_mod_to_equations. lia.
Qed.

(** Reading back with the function that fits the order of the bytes. *)
Ltac bytes_ok := repeat (apply List.Forall_cons; [apply u8_byte|]); apply List.Forall_nil.
Lemma keeps_8 reg data b : bus_ok b -> 0 <= reg < reg_top w -> 0 <= data < 2 ^ 8 ->
  kept 1 reg data (write_reg latency fuel a (reg_code w reg ++ [data])) (read_reg latency fuel a (reg_code w reg) 1 (fun buf => at_ buf 0)) b.
Proof.
  intros Hb Hr Hd. apply (write_then_read reg [data] (fun buf => at_ buf 0)); try done; [|cbn; lia].
  constructor; [|done]. unfold is_byte. change (2 ^ 8) with 256 in Hd. lia.
Qed.
Lemma keeps_16l reg data b : bus_ok b -> 0 <= reg -> reg + 2 <= reg_top w -> 0 <= data < 2 ^ 16 ->
  kept 2 reg data (write_reg latency fuel a (reg_code w reg ++ [u8 data; u8 (Z.shiftr data 8)]))
    (read_reg latency fuel a (reg_code w reg) 2 (fun buf => Z.lor (at_ buf 0) (Z.shiftl (at_ buf 1) 8))) b.
Proof.
  intros Hb Hr Hl Hd. rewrite <- (le_16 data) at 1 by lia.
  apply (write_then_read reg [u8 data; u8 (Z.shiftr data 8)] (fun buf => Z.lor (at_ buf 0) (Z.shiftl (at_ buf 1) 8))); [done|lia|bytes_ok|done|cbn; lia].
Qed.
Lemma keeps_16b reg data b : bus_ok b -> 0 <= reg -> reg + 2 <= reg_top w -> 0 <= data < 2 ^ 16 ->
  kept 2 reg data (write_reg latency fuel a (reg_code w reg ++ [u8 (Z.shiftr data 8); u8 data]))
    (read_reg latency fuel a (reg_code w reg) 2 (fun buf => Z.lor (Z.shiftl (at_ buf 0) 8) (at_ buf 1))) b.
Proof.
  intros Hb Hr Hl Hd. rewrite <- (le_16 data), Z.lor_comm at 1 by lia.
  apply (write_then_read reg [u8 (Z.shiftr data 8); u8 data] (fun buf => Z.lor (Z.shiftl (at_ buf 0) 8) (at_ buf 1))); [done|lia|bytes_ok|done|cbn; lia].
Qed.
Lemma keeps_24l reg data b : bus_ok b -> 0 <= reg -> reg + 3 <= reg_top w -> 0 <= data < 2 ^ 24 ->
  kept 3 reg data (write_reg latency fuel a (reg_code w reg ++ [u8 data; u8 (Z.shiftr data 8); u8 (Z.shiftr data 16)]))
    (read_reg latency fuel a (reg_code w reg) 3 (fun buf => Z.lor (Z.lor (at_ buf 0) (Z.shiftl (at_ buf 1) 8)) (Z.shiftl (at_ buf 2) 16))) b.
Proof.
  intros Hb Hr Hl Hd. rewrite <- (le_24 data) at 1 by lia.
  apply (write_then_read reg [u8 data; u8 (Z.shiftr data 8); u8 (Z.shiftr data 16)]
    (fun buf => Z.lor (Z.lor (at_ buf 0) (Z.shiftl (at_ buf 1) 8)) (Z.shiftl (at_ buf 2) 16))); [done|lia|bytes_ok|done|cbn; lia].
Qed.
Lemma keeps_24b reg data b : bus_ok b -> 0 <= reg -> reg + 3 <= reg_top w -> 0 <= data < 2 ^ 24 ->
  kept 3 reg data (write_reg latency fuel a (reg_code w reg ++ [u8 (Z.shiftr data 16); u8 (Z.shiftr data 8); u8 data]))
    (read_reg latency fuel a (reg_code w reg) 3 (fun buf => Z.lor (Z.lor (Z.shiftl (at_ buf 0) 16) (Z.shiftl (at_ buf 1) 8)) (at_ buf 2))) b.
Proof.
  intros Hb Hr Hl Hd. rewrite <- (le_24 data) at 1 by lia. rewrite Z.lor_comm, (Z.lor_comm (u8 data)), Z.lor_assoc.
  apply (write_then_read reg [u8 (Z.shiftr data 16); u8 (Z.shiftr data 8); u8 data]
    (fun buf => Z.lor (Z.lor (Z.shiftl (at_ buf 0) 16) (Z.shiftl (at_ buf 1) 8)) (at_ buf 2))); [done|lia|bytes_ok|done|cbn; lia].
Qed.

End Registers.

Section Pairs.
Context `{I2cSlave} (a : Z) (latency : list bev -> nat) (fuel : nat) (enough : forall t, (latency t < fuel)%nat) (Ha : 0 <= a < 128).

(** What the pairs of functions for a width of the register address keep. *)
Definition pairs_keep (w : reg_width) {RS : RegSlave a w} (reg data : Z) (b : i2c) : Prop :=
  match w with
  | R8 =>
      (data < 2 ^ 8 -> kept 1 reg data (i2c_reg8_write8 latency fuel a reg data) (i2c_reg8_read8 latency fuel a reg) b) /\
      (data < 2 ^ 16 -> reg + 2 <= 2 ^ 8 ->
         kept 2 reg data (i2c_reg8_write16l latency fuel a reg data) (i2c_reg8_read16l latency fuel a reg) b /\
         kept 2 reg data (i2c_reg8_write16b latency fuel a reg data) (i2c_reg8_read16b latency fuel a reg) b) /\
      (data < 2 ^ 24 -> reg + 3 <= 2 ^ 8 ->
         kept 3 reg data (i2c_reg8_write24l latency fuel a reg data) (i2c_reg8_read24l latency fuel a reg) b /\
         kept 3 reg data (i2c_reg8_write24b latency fuel a reg data) (i2c_reg8_read24b latency fuel a reg) b)
  | R16l => data < 2 ^ 16 -> reg + 2 <= 2 ^ 16 ->
      kept 2 reg data (i2c_reg16l_write16l latency fuel a reg data) (i2c_reg16l_read16l latency fuel a reg) b
  | R16b => data < 2 ^ 16 -> reg + 2 <= 2 ^ 16 ->
      kept 2 reg data (i2c_reg16b_write16b latency fuel a reg data) (i2c_reg16b_read16b latency fuel a reg) b
  end.

(** C12: registers keep what is written to them.  On a device whose registers
    are addressed by one byte, every pair of i2c_reg8_write... and
    i2c_reg8_read... (8, 16 and 24 bits, either byte order) writes a value and
    reads the same value back; on a device addressed by two bytes, low or high
    byte first, the pair i2c_reg16l_... or i2c_reg16b_... does.  No other
    register changes, and the bus is free again. *)
Theorem i2c_registers_roundtrip (w : reg_width) {RS : RegSlave a w} reg data b :
  bus_ok b -> 0 <= reg < reg_top w -> 0 <= data -> pairs_keep w reg data b.
Proof.
  intros Hb Hr Hdata. pose proof (keeps_8 latency fuel enough Ha reg data b Hb Hr) as K8.
  pose proof (keeps_16l latency fuel enough Ha reg data b Hb ltac:(lia)) as Kl. pose proof (keeps_16b latency fuel enough Ha reg data b Hb ltac:(lia)) as Kb.
  pose proof (keeps_24l latency fuel enough Ha reg data b Hb ltac:(lia)) as Ml. pose proof (keeps_24b latency fuel enough Ha reg data b Hb ltac:(lia)) as Mb.
  unfold pairs_keep. destruct w; cbn [reg_code app reg_top] in *.
  - split_and!; [intros Hd; apply K8; lia|intros Hd Hl; split; [apply Kl|apply Kb]; lia|intros Hd Hl; split; [apply Ml|apply Mb]; lia].
  - intros Hd Hl. apply Kl; lia.
  - intros Hd Hl. apply Kb; lia.
Qed.
End Pairs.

(** ** Transfers *)

Section Transfers.
Context `{I2cSlave} (latency : list bev -> nat) (fuel : nat) (enough : forall t, (latency t < fuel)%nat).

(** A block is read completely.  With any device that acknowledges its
    address and the register number, i2c_reg8_read_stream returns 0 and the
    bytes the device delivers, in order; on the bus every byte but the last is
    acknowledged and the transfer is ended, so that the next call can begin.  A
    device that does not answer gives -1 and leaves the bus free. *)
Theorem i2c_stream_correct addr reg (n : nat) b : ready b -> 0 <= addr < 128 -> is_byte reg ->
  (forall d1 d2 d3, s_addr addr false (slave b) = (true, d1) -> s_wr reg d1 = (true, d2) -> s_addr addr true d2 = (true, d3) ->
   exists b', i2c_reg8_read_stream latency fuel addr reg (Z.of_nat (S n)) b = Some (0, map u8 (fst (dev_reads (S n) d3)), b') /\
     ready b' /\ conn b' = false /\ slave b' = snd (dev_reads (S n) d3) /\
     trace b' = trace b ++ [Start addr false true; Wr reg true; Start addr true true] ++ rd_trace (fst (dev_reads (S n) d3))) /\
  (forall d1, s_addr addr false (slave b) = (false, d1) ->
   exists b', i2c_reg8_read_stream latency fuel addr reg (Z.of_nat (S n)) b = Some (-1, [], b') /\ ready b' /\ trace b' = trace b ++ [Start addr false false; Stop]).
Proof.
  intros Hb Ha Hr. split.
  - intros d1 d2 d3 E1 E2 E3. unfold i2c_reg8_read_stream. change 1 with (Z.of_nat (length [reg])).
    rewrite (i2c_write_ok latency fuel enough addr [reg] b d1 d2); [|done|done|by constructor|done|cbn; by rewrite E2]. cbn [mbind option_bind Z.ltb Z.compare].
    match goal with |- context [i2c_read _ _ _ _ ?b1] => destruct (i2c_read_ok latency fuel enough addr n b1 d3) as (b' & E & G1 & G2 & G3 & G4); [by split|done|done|] end.
    rewrite E. cbn [mbind option_bind Z.ltb Z.compare]. exists b'. split_and!; try done; [split; [done|by rewrite G2]|]. rewrite G4. cbn [trace]. by rewrite <- app_assoc.
  - intros d1 E1. unfold i2c_reg8_read_stream. change 1 with (Z.of_nat (length [reg])). rewrite (i2c_write_absent latency fuel enough addr [reg] b d1) by done.
    eexists. split; [done|]. by split.
Qed.
End Transfers.

(** ** A device *)

(** A device with address 64 that keeps its registers in a table; [rf_left]
    bytes of a register address are still to come after [rf_acc]. *)
Module RegFile.
Record rf := mk_rf { rf_ptr : Z; rf_left : nat; rf_acc : list Z; rf_regs : Z -> Z }.
Definition code_len (w : reg_width) : nat := match w with R8 => 1 | _ => 2 end.
Definition decode (w : reg_width) (bytes : list Z) : Z :=
  match w, bytes with
  | R8, [x] => x
  | R16l, [x; y] => x + 256 * y
  | R16b, [x; y] => 256 * x + y
  | _, _ => 0
  end.
Definition rf_wr (w : reg_width) (v : Z) (d : rf) : rf :=
  match rf_left d with
  | O => mk_rf ((rf_ptr d + 1) mod reg_top w) 0 [] (<[rf_ptr d := v]> (rf_regs d))
  | S O => mk_rf (decode w (rf_acc d ++ [v])) 0 [] (rf_regs d)
  | S n => mk_rf (rf_ptr d) n (rf_acc d ++ [v]) (rf_regs d)
  end.
Definition rf_slave (w : reg_width) : I2cSlave := {|
  dev := rf;
  s_addr x r d := if x =? 64 then (true, if r then d else mk_rf (rf_ptr d) (code_len w) [] (rf_regs d)) else (false, d);
  s_wr v d := (true, rf_wr w v d);
  s_rd d := (rf_regs d (rf_ptr d), mk_rf ((rf_ptr d + 1) mod reg_top w) (rf_left d) (rf_acc d) (rf_regs d));
|}.
Lemma decode_code w r : 0 <= r < reg_top w -> decode w (reg_code w r) = r.
Proof.
  intros Hr. destruct w; cbn in *; [done|..]; unfold u8; rewrite Z.shiftr_div_pow2 by lia; change (2 ^ 8) with 256;
    change (Z.pow_pos 2 16) with 65536 in Hr; Z.div_mod_to_equations; lia.
Qed.
Definition rf_registers (w : reg_width) : @RegSlave (rf_slave w) 64 w.
Proof.
  refine (@Build_RegSlave (rf_slave w) 64 w
    (fun d : rf => rf_left d = O \/ rf_left d = code_len w /\ rf_acc d = []) rf_regs rf_ptr (fun d => negb (rf_left d =? 0)%nat) _ _ _ _ _).
  - intros d _. eexists. split; [reflexivity|]. cbn. split; [by right|]. split; [by destruct w|done].
  - intros d r Hd Hs Hr. pose proof (decode_code w r Hr) as Ed. destruct Hd as [E|[E1 E2]]; [by rewrite E in Hs|].
    destruct d as [p l acc g]. cbn in E1, E2. subst. cbn [rf_regs].
    exists (mk_rf r 0 [] g). split; [|split; [by left|done]]. rewrite <- Ed at 2. by destruct w.
  - intros d v Hd Hs _. apply negb_false_iff, Nat.eqb_eq in Hs. cbn. unfold rf_wr. rewrite Hs. eexists. split; [reflexivity|].
    cbn. split; [by left|]. split_and!; try done. intros r.
    destruct (Z.eqb_spec r (rf_ptr d)) as [->|]; [by rewrite fn_lookup_insert|by rewrite fn_lookup_insert_ne].
  - intros d Hd. by eexists.
  - intros d Hd. by eexists.
Defined.
(** Three polls per operation. *)
Definition three (_ : list bev) : nat := 3.
Definition bus0 (w : reg_width) : @i2c (rf_slave w) := @mk_i2c (rf_slave w) false 0 false false false 0 (mk_rf 0 0 [] (fun r => r + 1)) [].
Lemma three_enough t : (three t < 9)%nat.
Proof. unfold three. lia. Qed.
Lemma bus0_ok w : @bus_ok (rf_slave w) 64 w (rf_registers w) (bus0 w).
Proof. split; [by split|]. by left. Qed.
End RegFile.
Import RegFile.

Lemma i2c_registers_roundtrip_witness :
  @kept (rf_slave R8) 64 R8 (rf_registers R8) 2 16 0xABCD (i2c_reg8_write16l three 9 64 16 0xABCD) (i2c_reg8_read16l three 9 64 16) (bus0 R8) /\
  @kept (rf_slave R16b) 64 R16b (rf_registers R16b) 2 0x1234 0xABCD (i2c_reg16b_write16b three 9 64 0x1234 0xABCD) (i2c_reg16b_read16b three 9 64 0x1234) (bus0 R16b).
Proof.
  split.
  - apply (@i2c_registers_roundtrip (rf_slave R8) 64 three 9 three_enough ltac:(lia) R8 (rf_registers R8) 16 0xABCD (bus0 R8)); [apply bus0_ok|cbn; lia|lia|lia|lia].
  - apply (@i2c_registers_roundtrip (rf_slave R16b) 64 three 9 three_enough ltac:(lia) R16b (rf_registers R16b) 0x1234 0xABCD (bus0 R16b)); [apply bus0_ok|cbn; lia|lia|lia|lia].
Defined.
Lemma i2c_stream_correct_witness :
  exists b', @i2c_reg8_read_stream (rf_slave R8) three 9 64 5 (Z.of_nat 3) (bus0 R8) = Some (0, [6; 7; 8], b') /\ ready b' /\ conn b' = false /\
    trace b' = [Start 64 false true; Wr 5 true; Start 64 true true; Rd 6 false; Rd 7 false; Rd 8 true; Stop].
Proof.
  destruct (@i2c_stream_correct (rf_slave R8) three 9 three_enough 64 5 2 (bus0 R8)) as [H _]; [done|lia|unfold is_byte; lia|].
  destruct (H _ _ _ eq_refl eq_refl eq_refl) as (b' & E & Hr & Hc & _ & Ht). exists b'. split; [exact E|]. split; [exact Hr|]. split; [exact Hc|exact Ht].
Defined.
