(* ===== verification/NocInit.v ===== *)
(** NocInit: the start of the network-on-chip, libnoc/noc.c.

    - [ni] is the network interface of a core as far as the start uses it: the
      schedule table, the mode change table, the configuration and the run mode
      of the network with what was requested last, and the two interrupt
      queues.  The schedule table has [words] words and repeats itself behind
      them (MemSize.v).
    - The schedules come from a file that a tool generates: noc_init_array and
      its dimensions are parameters.
    - noc_init runs on all cores at once.  [sys] is the state they share and
      [pc] a position in noc_init, one per access to it; [core_step i] is the
      access made there and [net_step] lets the network follow the requested
      run mode. *)

From stdpp Require Import base numbers functions relations list.
From S2P Require Import Prelude MemSize Boot.

(** ** The network interface *)

Record ni := mk_ni {
  sched : Z -> Z; mc : Z -> Z; conf_req : Z; conf : Z; run_req : Z; run : Z;
  irq_fifo : Z -> list Z; handlers : Z -> option Z }.

Definition put_sched (f : Z -> Z) (n : ni) : ni :=
  mk_ni f (mc n) (conf_req n) (conf n) (run_req n) (run n) (irq_fifo n) (handlers n).
Definition put_mc (f : Z -> Z) (n : ni) : ni :=
  mk_ni (sched n) f (conf_req n) (conf n) (run_req n) (run n) (irq_fifo n) (handlers n).
Definition put_conf_req (v : Z) (n : ni) : ni :=
  mk_ni (sched n) (mc n) v (conf n) (run_req n) (run n) (irq_fifo n) (handlers n).
Definition put_run_req (v : Z) (n : ni) : ni :=
  mk_ni (sched n) (mc n) (conf_req n) (conf n) v (run n) (irq_fifo n) (handlers n).
Definition put_irq (f : Z -> list Z) (n : ni) : ni :=
  mk_ni (sched n) (mc n) (conf_req n) (conf n) (run_req n) (run n) f (handlers n).
(** exc_register stores a handler in the exception vector; a handler is named
    by its number. *)
Definition exc_register (i h : Z) (n : ni) : ni :=
  mk_ni (sched n) (mc n) (conf_req n) (conf n) (run_req n) (run n) (irq_fifo n) (<[i := Some h]> (handlers n)).
Definition data_recv_handler := 1.
Definition remote_irq_handler := 0.

Section NocInit.
Context (words : Z).
Context (NOC_CONFS NOC_CORES NOC_TABLES NOC_SCHEDULE_ENTRIES NOC_MASTER : Z) (noc_init_array : Z -> Z).

(** ** Loading the schedules *)

Definition mode_idx (j : Z) : Z := u32 (j * NOC_CORES * NOC_TABLES * NOC_SCHEDULE_ENTRIES).
Definition core_idx (cpuid : Z) : Z := u32 (cpuid * NOC_TABLES * NOC_SCHEDULE_ENTRIES).
Definition schedule_entries (cpuid j : Z) : Z := u16 (noc_init_array (u32 (mode_idx j + core_idx cpuid))).
Definition schedule_entry (cpuid j i : Z) : Z := u32 (noc_init_array (u32 (mode_idx j + core_idx cpuid + i + 1))).

(** The inner loop, one configuration. *)
Definition load_conf (cpuid j base : Z) (n : ni) : ni :=
  for_up (Z.to_nat (schedule_entries cpuid j)) 0 1
    (fun i n => put_sched (wr words (sched n) (base + i) (schedule_entry cpuid j i)) n) n.

(** [c] configurations are left, from [j] on. *)
Fixpoint load_loop (c : nat) (cpuid size j base : Z) (n : ni) : Z * ni :=
  match c with
  | O => (1, n)
  | S c' =>
      let e := schedule_entries cpuid j in
      if size <=? u32 (base + e) then (0, n)
      else
        let n := load_conf cpuid j base n in
        let n := put_mc (<[2 + j := u32 (Z.lor (Z.shiftl (e + base) 16) base)]> (mc n)) n in
        load_loop c' cpuid size (j + 1) (u32 (base + e)) n
  end.

Definition k_noc_sched_load (cpuid : Z) (n : ni) : Z * ni :=
  let '(r, f) := find_mem_size words (sched n) in
  load_loop (Z.to_nat NOC_CONFS) cpuid (u32 r) 0 0 (put_sched f n).

(** ** Registers of the network *)

(** Reading takes an element out of a queue; [empty_read] is what an empty
    queue reads as. *)
Definition k_noc_fifo_read (empty_read irq_type : Z) (n : ni) : Z * ni :=
  match irq_fifo n (u8 irq_type) with
  | [] => (s32 empty_read, n)
  | v :: l => (s32 v, put_irq (<[u8 irq_type := l]> (irq_fifo n)) n)
  end.

(** [hw] is what the network does before a register is read again; a loop
    that waits for it runs with fuel. *)
Section Registers.
Context (hw : ni -> ni).
Fixpoint wait_for (f : ni -> Z) (v : Z) (fuel : nat) (n : ni) : option ni :=
  match fuel with
  | O => None
  | S fuel' => let n := hw n in if f n =? v then Some n else wait_for f v fuel' n
  end.
Definition k_noc_sched_set (fuel : nat) (cpuid config : Z) (n : ni) : option ni :=
  if cpuid =? NOC_MASTER then wait_for conf (u8 config) fuel (put_conf_req (u8 config) n) else Some n.
Definition k_noc_state_set (fuel : nat) (cpuid state : Z) (n : ni) : option ni :=
  if cpuid =? NOC_MASTER then wait_for run (u8 state) fuel (put_run_req (u8 state) n) else Some n.
Definition noc_enable (fuel : nat) (cpuid : Z) (n : ni) : option ni := k_noc_state_set fuel cpuid 1 n.
Definition noc_disable (fuel : nat) (cpuid : Z) (n : ni) : option ni := k_noc_state_set fuel cpuid 0 n.

(** What k_noc_configure does behind k_noc_state_set. *)
Definition configure_rest (cpuid : Z) (n : ni) : Z * ni :=
  let '(ret, n) := k_noc_sched_load cpuid n in
  (ret, exc_register 19 remote_irq_handler (exc_register 18 data_recv_handler n)).
Definition k_noc_configure (fuel : nat) (cpuid : Z) (n : ni) : option (Z * ni) :=
  n ← k_noc_state_set fuel cpuid 0 n; Some (configure_rest cpuid n).
End Registers.

(** ** The schedules are in the tables *)

(** Where the schedule of configuration [j] begins. *)
Fixpoint base_of (cpuid : Z) (j : nat) : Z :=
  match j with O => 0 | S j' => base_of cpuid j' + schedule_entries cpuid (Z.of_nat j') end.
Notation conf_end cpuid j := (base_of cpuid (S j)).

(** The two pointers of a word of the mode change table. *)
Definition mc_start (w : Z) : Z := Z.land w 0xFFFF.
Definition mc_stop (w : Z) : Z := Z.shiftr w 16.

(** Configuration [j] of core [cpuid] is between the two pointers of its
    word in the mode change table. *)
Definition conf_loaded (cpuid : Z) (n : ni) (j : nat) : Prop :=
  let w := mc n (2 + Z.of_nat j) in
  mc_start w = base_of cpuid j /\ mc_stop w = conf_end cpuid j /\
  forall i, 0 <= i < schedule_entries cpuid (Z.of_nat j) ->
    rd words (sched n) (mc_start w + i) = schedule_entry cpuid (Z.of_nat j) i.
Definition all_loaded (cpuid : Z) (n : ni) : Prop :=
  forall j, (j < Z.to_nat NOC_CONFS)%nat -> conf_loaded cpuid n j.

Lemma entries_range cpuid j : 0 <= schedule_entries cpuid j < 65536.
Proof. unfold schedule_entries. pose proof (u16_range (noc_init_array (u32 (mode_idx j + core_idx cpuid)))). lia. Qed.
Lemma base_nonneg cpuid j : 0 <= base_of cpuid j.
Proof. induction j as [|j IH]; cbn; [lia|]. pose proof (entries_range cpuid (Z.of_nat j)). lia. Qed.
Lemma base_mono cpuid j j' : (j <= j')%nat -> base_of cpuid j <= base_of cpuid j'.
Proof. induction 1 as [|j' _ IH]; [lia|]. cbn. pose proof (entries_range cpuid (Z.of_nat j')). lia. Qed.

Lemma load_conf_spec cpuid j base n : 0 <= base -> base + schedule_entries cpuid j <= words ->
  let n' := load_conf cpuid j base n in
  n' = put_sched (sched n') n /\
  forall a, 0 <= a < words -> rd words (sched n') a =
    if decide (base <= a < base + schedule_entries cpuid j) then schedule_entry cpuid j (a - base) else rd words (sched n) a.
Proof.
  intros Hb He n'. pose proof (entries_range cpuid j).
  pose proof (for_up_inv (fun i n' => n' = put_sched (sched n') n /\ forall a, 0 <= a < words -> rd words (sched n') a =
     if decide (base <= a < base + i) then schedule_entry cpuid j (a - base) else rd words (sched n) a)
    (Z.to_nat (schedule_entries cpuid j)) 0 1
    (fun i n => put_sched (wr words (sched n) (base + i) (schedule_entry cpuid j i)) n) n) as Hinv.
  rewrite Z.mul_1_l, Z.add_0_l, Z2Nat.id in Hinv by lia. apply Hinv; clear Hinv.
  - split; [by destruct n|]. intros a _. by rewrite decide_False by lia.
  - intros k s Hk [Es Hs]. split; [rewrite Es; done|]. intros a Ha. cbn [put_sched sched].
    unfold rd in *. unfold wr. rewrite (Z.mod_small (base + _)) by lia. rewrite (Z.mod_small a) in * by lia.
    destruct (decide (a = base + (0 + 1 * k))) as [->|Hne].
    + rewrite fn_lookup_insert, decide_True by lia. f_equal. lia.
    + rewrite fn_lookup_insert_ne by done. specialize (Hs a Ha). rewrite (Z.mod_small a) in Hs by lia. rewrite Hs.
      repeat case_decide; (done || lia).
Qed.

(** The word of the mode change table and its two halves. *)
Lemma mc_word e b : 0 <= b < 65536 -> 0 <= e < 65536 ->
  let w := u32 (Z.lor (Z.shiftl e 16) b) in mc_start w = b /\ mc_stop w = e.
Proof.
  intros Hb He w. assert (Ew : w = e * 65536 + b).
  { unfold w. rewrite lor_shift by lia. apply u32_small. lia. }
  unfold mc_start, mc_stop. rewrite Ew. change 0xFFFF with (Z.ones 16). rewrite Z.land_ones, Z.shiftr_div_pow2 by lia.
  change (2 ^ 16) with 65536. split; [rewrite Z.add_comm, Z_mod_plus_full|rewrite Z.add_comm, Z_div_plus by lia]; rewrite ?Z.mod_small, ?Z.div_small by lia; lia.
Qed.

(** ** k_noc_sched_load *)

Context (Hw : 4 * words <= 2 ^ 11).

Lemma load_loop_ret cpuid c : forall j n, base_of cpuid j < 4 * words ->
  fst (load_loop c cpuid (4 * words) (Z.of_nat j) (base_of cpuid j) n) = if base_of cpuid (j + c) <? 4 * words then 1 else 0.
Proof.
  induction c as [|c IH]; intros j n Hj; cbn [load_loop].
  - rewrite Nat.add_0_r. by rewrite (proj2 (Z.ltb_lt _ _) Hj).
  - cbv zeta. pose proof (entries_range cpuid (Z.of_nat j)). pose proof (base_nonneg cpuid j).
    rewrite u32_small by lia. change (base_of cpuid j + schedule_entries cpuid (Z.of_nat j)) with (conf_end cpuid j).
    rewrite <- Nat.add_succ_comm. destruct (Z.leb_spec (4 * words) (conf_end cpuid j)).
    + pose proof (base_mono cpuid (S j) (S j + c) ltac:(lia)). cbn [fst]. rewrite (proj2 (Z.ltb_ge _ _)); [done|lia].
    + replace (Z.of_nat j + 1) with (Z.of_nat (S j)) by lia. by apply IH.
Qed.

(** What loading leaves alone. *)
Definition same_rest (n n' : ni) : Prop :=
  conf_req n' = conf_req n /\ conf n' = conf n /\ run_req n' = run_req n /\ run n' = run n /\
  irq_fifo n' = irq_fifo n /\ handlers n' = handlers n.
Lemma same_rest_trans n1 n2 n3 : same_rest n1 n2 -> same_rest n2 n3 -> same_rest n1 n3.
Proof. intros (? & ? & ? & ? & ? & ?) (? & ? & ? & ? & ? & ?). split_and!; congruence. Qed.

(** Loading writes the two tables only, whether or not the schedules fit. *)
Lemma load_conf_rest cpuid j base n : same_rest n (load_conf cpuid j base n).
Proof.
  unfold load_conf. apply (for_up_inv (fun _ n' => same_rest n n')); [by split_and!|].
  intros k n' _ Hs. exact Hs.
Qed.
Lemma load_loop_rest cpuid size c : forall j base n, same_rest n (snd (load_loop c cpuid size j base n)).
Proof.
  induction c as [|c IH]; intros j base n; cbn [load_loop]; [by split_and!|]. cbv zeta. case_match; [by split_and!|].
  eapply same_rest_trans; [apply (load_conf_rest cpuid j base)|]. eapply same_rest_trans; [|apply IH]. by split_and!.
Qed.

Lemma load_one cpuid j n : conf_end cpuid j <= words -> (forall j', (j' < j)%nat -> conf_loaded cpuid n j') ->
  let n1 := load_conf cpuid (Z.of_nat j) (base_of cpuid j) n in
  let n2 := put_mc (<[2 + Z.of_nat j := u32 (Z.lor (Z.shiftl (schedule_entries cpuid (Z.of_nat j) + base_of cpuid j) 16) (base_of cpuid j))]> (mc n1)) n1 in
  forall j', (j' < S j)%nat -> conf_loaded cpuid n2 j'.
Proof.
  intros He Hl n1 n2. cbn [base_of] in He. pose proof (base_nonneg cpuid j). pose proof (entries_range cpuid (Z.of_nat j)).
  destruct (load_conf_spec cpuid (Z.of_nat j) (base_of cpuid j) n ltac:(lia) ltac:(lia)) as [E1 H1]. fold n1 in E1, H1.
  assert (Emc : mc n1 = mc n) by (rewrite E1; done).
  intros j' Hj'. unfold conf_loaded. cbv zeta. unfold n2. cbn [mc sched put_mc].
  destruct (decide (j' = j)) as [->|Hne].
  - rewrite fn_lookup_insert. destruct (mc_word (schedule_entries cpuid (Z.of_nat j) + base_of cpuid j) (base_of cpuid j)) as [-> ->]; [lia|lia|].
    split_and!; [done|cbn [base_of]; lia|]. intros i Hi. rewrite H1 by lia. rewrite decide_True by lia. f_equal. lia.
  - rewrite fn_lookup_insert_ne, Emc by lia. destruct (Hl j' ltac:(lia)) as (Ea & Eb & Hc). split_and!; [done|done|].
    intros i Hi. rewrite Ea in *. pose proof (base_mono cpuid (S j') j ltac:(lia)) as Hm. cbn [base_of] in Hm. pose proof (base_nonneg cpuid j').
    rewrite H1 by lia. rewrite decide_False by lia. by apply Hc.
Qed.

Lemma load_loop_spec cpuid c : forall j n, base_of cpuid (j + c) <= words -> 0 < words ->
  (forall j', (j' < j)%nat -> conf_loaded cpuid n j') ->
  let n' := snd (load_loop c cpuid (4 * words) (Z.of_nat j) (base_of cpuid j) n) in
  forall j', (j' < j + c)%nat -> conf_loaded cpuid n' j'.
Proof.
  induction c as [|c IH]; intros j n Ht Hp Hl; cbn [load_loop]; cbv zeta.
  - by rewrite Nat.add_0_r.
  - rewrite <- Nat.add_succ_comm in *. pose proof (base_mono cpuid (S j) (S j + c) ltac:(lia)) as Hm. pose proof (base_nonneg cpuid (S j)).
    change (base_of cpuid j + schedule_entries cpuid (Z.of_nat j)) with (conf_end cpuid j).
    rewrite (u32_small (conf_end cpuid j)) by lia. rewrite (proj2 (Z.leb_gt _ _)) by lia.
    replace (Z.of_nat j + 1) with (Z.of_nat (S j)) by lia. pose proof (load_one cpuid j n ltac:(lia) Hl) as Hl2.
    exact (IH (S j) _ Ht Hp Hl2).
Qed.

End NocInit.

(** ** The start on all cores *)

Inductive pc :=
| P_stop | P_stopped | P_load | P_scan (i : Z) (done : bool) | P_scan2 (i : Z) (done : bool) | P_release
| P_notify | P_spin | P_enable | P_running | P_done.

#[export] Instance pc_eq_dec : EqDecision pc.
Proof. solve_decision. Defined.

(** boot_info's status of the master and of the slaves, the network
    interfaces, and where each core is. *)
Record sys := mk_nsys { m_stat : status; s_stat : Z -> status; nis : Z -> ni; pcs : Z -> pc }.

Definition put_run (v : Z) (n : ni) : ni :=
  mk_ni (sched n) (mc n) (conf_req n) (conf n) (run_req n) v (irq_fifo n) (handlers n).

Section Start.
Context (k : Z) (Hk : 1 <= k <= 9).
Abbreviation words := (2 ^ k).
Context (NOC_CONFS NOC_CORES NOC_TABLES NOC_SCHEDULE_ENTRIES NOC_MASTER : Z) (noc_init_array : Z -> Z).
Notation base_of := (base_of NOC_CORES NOC_TABLES NOC_SCHEDULE_ENTRIES noc_init_array).
Notation all_loaded := (all_loaded words NOC_CONFS NOC_CORES NOC_TABLES NOC_SCHEDULE_ENTRIES noc_init_array).
Notation k_noc_sched_load := (k_noc_sched_load words NOC_CONFS NOC_CORES NOC_TABLES NOC_SCHEDULE_ENTRIES noc_init_array).
Notation configure_rest := (configure_rest words NOC_CONFS NOC_CORES NOC_TABLES NOC_SCHEDULE_ENTRIES noc_init_array).
(** The number of entries in all schedules of a core. *)
Notation total_entries cpuid := (base_of cpuid (Z.to_nat NOC_CONFS)).

Lemma table_bank : 4 * words <= 2 ^ 11 /\ 0 < words.
Proof. pose proof (Z.pow_le_mono_r 2 k 9 ltac:(lia) ltac:(lia)). pose proof (Z.pow_pos_nonneg 2 k ltac:(lia) ltac:(lia)). lia. Qed.

(** k_noc_sched_load on a table of 2^k words.  Schedules that fit are all
    loaded, each between the two pointers in the mode change table, and the
    result is 1; the result is 0 only for more than four times the entries. *)
Lemma sched_load_correct cpuid n :
  let '(r, n') := k_noc_sched_load cpuid n in
  r = (if total_entries cpuid <? 4 * words then 1 else 0) /\
  same_rest n n' /\ (total_entries cpuid <= words -> all_loaded cpuid n').
Proof.
  destruct table_bank as [Hb Hp]. unfold NocInit.k_noc_sched_load.
  destruct (mem_size_found k ltac:(lia) (sched n)) as [Hm _].
  destruct (find_mem_size words (sched n)) as [r f]. destruct Hm as [-> _]. rewrite u32_small by lia.
  pose proof (load_loop_ret words NOC_CORES NOC_TABLES NOC_SCHEDULE_ENTRIES noc_init_array ltac:(lia) cpuid (Z.to_nat NOC_CONFS) 0 (put_sched f n) ltac:(cbn; lia)) as Hr.
  pose proof (load_loop_spec words NOC_CORES NOC_TABLES NOC_SCHEDULE_ENTRIES noc_init_array ltac:(lia) cpuid (Z.to_nat NOC_CONFS) 0 (put_sched f n)) as Hs.
  pose proof (load_loop_rest words NOC_CORES NOC_TABLES NOC_SCHEDULE_ENTRIES noc_init_array cpuid (4 * words) (Z.to_nat NOC_CONFS) 0 0 (put_sched f n)) as Hsr.
  cbn [NocInit.base_of Z.of_nat Nat.add] in Hr, Hs.
  destruct (load_loop _ _ _ _ _ _ _ _ _ _ _) as [r' n']. cbn [fst snd] in *. split; [done|]. split; [exact Hsr|]. intros Ht.
  exact (Hs Ht Hp ltac:(lia)).
Qed.

(** The network interface of a core is set up: its schedules, if they fit its
    table, are loaded, and both handlers are registered.  noc_init does not
    look at the result of noc_configure, so it goes on in the same way when
    they do not fit. *)
Definition configured (c : Z) (n : ni) : Prop :=
  (total_entries c <= words -> all_loaded c n) /\
  handlers n 18 = Some data_recv_handler /\ handlers n 19 = Some remote_irq_handler.
Lemma configure_ok c n :
  let n' := snd (configure_rest c n) in configured c n' /\ run n' = run n /\ run_req n' = run_req n.
Proof.
  unfold NocInit.configure_rest. pose proof (sched_load_correct c n) as H. destruct (k_noc_sched_load c n) as [r n'].
  destruct H as (_ & Hs & Hl). cbn [snd]. split; [|split; apply Hs]. split; [exact Hl|].
  cbn [exc_register handlers]. split; [by rewrite fn_lookup_insert_ne, fn_lookup_insert|by rewrite fn_lookup_insert].
Qed.

(** STATUS_INITDONE is a value that the boot loader does not use. *)
Context (cpucnt initdone : Z).
Definition STATUS_INITDONE := STATUS_OTHER initdone.

Definition go (c : Z) (p : pc) (s : sys) : sys := mk_nsys (m_stat s) (s_stat s) (nis s) (<[c := p]> (pcs s)).
Definition on_ni (c : Z) (f : ni -> ni) (s : sys) : sys := mk_nsys (m_stat s) (s_stat s) (<[c := f (nis s c)]> (nis s)) (pcs s).

(** noc_init: k_noc_configure up to [P_load], then noc_sync, then noc_enable.
    The tests on the status of a slave read it twice. *)
Definition core_step (c : Z) (s : sys) : sys :=
  match pcs s c with
  | P_stop => if c =? NOC_MASTER then go c P_stopped (on_ni c (put_run_req 0) s) else go c P_load s
  | P_stopped => if run (nis s c) =? 0 then go c P_load s else s
  | P_load => go c (if c =? NOC_MASTER then P_scan 0 true else P_notify) (on_ni c (fun n => snd (configure_rest c n)) s)
  | P_scan i done =>
      if i <? cpucnt then
        if decide (s_stat s i = STATUS_NULL) then go c (P_scan (i + 1) done) s else go c (P_scan2 i done) s
      else go c (if done then P_release else P_scan 0 true) s
  | P_scan2 i done =>
      if decide (s_stat s i = STATUS_INITDONE) then go c (P_scan (i + 1) done) s
      else if i =? NOC_MASTER then go c (P_scan (i + 1) done) s
      else go c (P_scan (i + 1) false) s
  | P_release => go c P_enable (mk_nsys STATUS_INITDONE (s_stat s) (nis s) (pcs s))
  | P_notify => go c P_spin (mk_nsys (m_stat s) (<[c := STATUS_INITDONE]> (s_stat s)) (nis s) (pcs s))
  | P_spin => if decide (m_stat s = STATUS_INITDONE) then go c P_enable s else s
  | P_enable => if c =? NOC_MASTER then go c P_running (on_ni c (put_run_req 1) s) else go c P_done s
  | P_running => if run (nis s c) =? 1 then go c P_done s else s
  | P_done => s
  end.
(** The network takes up the run mode that the master asked for. *)
Definition net_step (s : sys) : sys := on_ni NOC_MASTER (fun n => put_run (run_req n) n) s.

(** The cores that the boot loader started. *)
Context (on : Z -> bool).
Definition active (c : Z) : Prop := 0 <= c < cpucnt /\ on c = true.
Definition step (s s' : sys) : Prop := (exists c, active c /\ s' = core_step c s) \/ s' = net_step s.

(** The boot loader leaves STATUS_INIT for the cores it started and
    STATUS_NULL for the others; the network may be running. *)
Definition started (s : sys) : Prop :=
  (forall c, pcs s c = P_stop) /\ m_stat s <> STATUS_INITDONE /\
  forall c, c <> NOC_MASTER -> s_stat s c = if on c then STATUS_INIT else STATUS_NULL.

(** ** The invariant *)

Context (Hmaster : active NOC_MASTER).
Definition is_slave (c : Z) : Prop := active c /\ c <> NOC_MASTER.
Notation INITDONE := STATUS_INITDONE.

Definition slave_inv (s : sys) (c : Z) : Prop :=
  match pcs s c with
  | P_stop | P_load => s_stat s c = STATUS_INIT
  | P_notify => s_stat s c = STATUS_INIT /\ configured c (nis s c)
  | P_spin => s_stat s c = INITDONE /\ configured c (nis s c)
  | P_enable | P_done => s_stat s c = INITDONE /\ configured c (nis s c) /\ m_stat s = INITDONE
  | _ => False
  end.
(** The slaves below [i] have notified the master. *)
Definition noted (s : sys) (i : Z) : Prop := forall c, is_slave c -> c < i -> s_stat s c = INITDONE.
Definition quiet (s : sys) : Prop := run_req (nis s NOC_MASTER) = 0 /\ run (nis s NOC_MASTER) = 0.
Definition master_inv (s : sys) : Prop :=
  let n := nis s NOC_MASTER in
  match pcs s NOC_MASTER with
  | P_stop => m_stat s <> INITDONE
  | P_stopped => m_stat s <> INITDONE /\ run_req n = 0
  | P_load => m_stat s <> INITDONE /\ quiet s
  | P_scan i d => m_stat s <> INITDONE /\ quiet s /\ configured NOC_MASTER n /\ (d = true -> noted s i) /\ 0 <= i
  | P_scan2 i d => m_stat s <> INITDONE /\ quiet s /\ configured NOC_MASTER n /\ (d = true -> noted s i) /\ active i
  | P_release => m_stat s <> INITDONE /\ quiet s /\ configured NOC_MASTER n /\ noted s cpucnt
  | P_enable => m_stat s = INITDONE /\ quiet s /\ configured NOC_MASTER n /\ noted s cpucnt
  | P_running => m_stat s = INITDONE /\ run_req n = 1 /\ configured NOC_MASTER n /\ noted s cpucnt
  | P_done => m_stat s = INITDONE /\ run_req n = 1 /\ run n = 1 /\ configured NOC_MASTER n /\ noted s cpucnt
  | P_notify | P_spin => False
  end.
Definition absent (s : sys) : Prop := forall c, c <> NOC_MASTER -> on c = false -> s_stat s c = STATUS_NULL.
Definition Inv (s : sys) : Prop := master_inv s /\ (forall c, is_slave c -> slave_inv s c) /\ absent s.

Lemma configured_run c n v : configured c (put_run v n) <-> configured c n.
Proof. done. Qed.
Lemma configured_run_req c n v : configured c (put_run_req v n) <-> configured c n.
Proof. done. Qed.

Lemma slave_step_frame s c j : c <> NOC_MASTER -> c <> j -> slave_inv s c ->
  pcs (core_step c s) j = pcs s j /\ nis (core_step c s) j = nis s j /\ s_stat (core_step c s) j = s_stat s j.
Proof.
  intros Hm Hc Hi. unfold slave_inv in Hi. unfold core_step. rewrite (proj2 (Z.eqb_neq _ _) Hm).
  destruct (pcs s c); try done; repeat case_match; cbn; rewrite ?fn_lookup_insert_ne by done; done.
Qed.
Lemma slave_step_m_stat s c : c <> NOC_MASTER -> slave_inv s c -> m_stat (core_step c s) = m_stat s.
Proof. intros Hm Hi. unfold slave_inv in Hi. unfold core_step. destruct (pcs s c); try done; repeat case_match; done. Qed.
Lemma slave_step_own s c : is_slave c -> slave_inv s c -> slave_inv (core_step c s) c.
Proof.
  intros [Ha Hm] Hi. unfold slave_inv in Hi. unfold core_step. rewrite (proj2 (Z.eqb_neq _ _) Hm).
  destruct (pcs s c) eqn:Ep; try done; unfold slave_inv; repeat case_decide; cbn; rewrite ?fn_lookup_insert; rewrite ?Ep; try naive_solver.
  split; [done|]. apply configure_ok.
Qed.
Lemma slave_step_stat s c j : c <> NOC_MASTER -> slave_inv s c -> s_stat s j = INITDONE -> s_stat (core_step c s) j = INITDONE.
Proof.
  intros Hm Hi Hj. destruct (decide (c = j)) as [->|Hc]; [|by destruct (slave_step_frame s c j Hm Hc Hi) as (_ & _ & ->)].
  unfold slave_inv in Hi. unfold core_step. destruct (pcs s j); try done; repeat case_match; cbn; rewrite ?fn_lookup_insert; done.
Qed.
Lemma noc_slave_step_master s c : c <> NOC_MASTER -> slave_inv s c -> master_inv s -> master_inv (core_step c s).
Proof.
  intros Hm Hi HM. destruct (slave_step_frame s c NOC_MASTER Hm Hm Hi) as (Ep & En & _). pose proof (slave_step_m_stat s c Hm Hi) as Es.
  assert (Hn : forall i, noted s i -> noted (core_step c s) i) by (intros i H j Hj Hl; apply slave_step_stat; auto).
  unfold master_inv, quiet in *. rewrite Ep, En, Es. destruct (pcs s NOC_MASTER); naive_solver.
Qed.

Lemma master_step_slave s c : c <> NOC_MASTER -> master_inv s -> slave_inv s c -> slave_inv (core_step NOC_MASTER s) c.
Proof.
  intros Hm HM Hi. unfold master_inv in HM. unfold core_step. rewrite Z.eqb_refl.
  destruct (pcs s NOC_MASTER); try done; repeat case_match; unfold slave_inv in *; cbn; rewrite ?fn_lookup_insert_ne by done; try done.
  destruct (pcs s c); naive_solver.
Qed.
Lemma master_step_stat s : master_inv s -> s_stat (core_step NOC_MASTER s) = s_stat s.
Proof. intros HM. unfold master_inv in HM. unfold core_step. destruct (pcs s NOC_MASTER); try done; repeat case_match; done. Qed.
Lemma net_step_inv s : Inv s -> Inv (net_step s).
Proof.
  intros (HM & HS & HA). split_and!; [| |done].
  - unfold master_inv, quiet, net_step in *. cbn. rewrite !fn_lookup_insert. cbn [run run_req put_run]. destruct (pcs s NOC_MASTER); naive_solver.
  - intros c Hc. specialize (HS c Hc). unfold slave_inv, net_step in *. cbn. destruct Hc as [_ Hm]. by rewrite fn_lookup_insert_ne by done.
Qed.

Lemma noted_scan s i : (forall c, is_slave c -> slave_inv s c) -> noted s i ->
  s_stat s i = STATUS_NULL \/ s_stat s i = INITDONE \/ i = NOC_MASTER -> noted s (i + 1).
Proof.
  intros HS Hn Hi c Hc Hl. destruct (decide (c = i)) as [->|]; [|apply Hn; [done|lia]].
  specialize (HS i Hc). destruct Hi as [Hi|[Hi|Hi]]; [|done|by destruct Hc].
  unfold slave_inv in HS. rewrite Hi in HS. destruct (pcs s i); naive_solver.
Qed.
Lemma noted_all s i : cpucnt <= i -> noted s i -> noted s cpucnt.
Proof. intros Hi Hn c Hc Hl. apply Hn; [done|lia]. Qed.
Lemma scanning_inv s p i d : p = P_scan i d /\ 0 <= i \/ p = P_scan2 i d /\ active i -> m_stat s <> INITDONE -> quiet s ->
  configured NOC_MASTER (nis s NOC_MASTER) -> (d = true -> noted s i) -> master_inv (go NOC_MASTER p s).
Proof. intros Hp H1 H2 H3 H4. unfold master_inv, quiet. cbn. rewrite !fn_lookup_insert. by destruct Hp as [[-> ?]|[-> ?]]. Qed.

Lemma master_step_own s : Inv s -> master_inv (core_step NOC_MASTER s).
Proof.
  intros (HM & HS & HA). unfold master_inv in HM. unfold core_step. rewrite Z.eqb_refl.
  destruct (pcs s NOC_MASTER) as [| | |i d|i d| | | | | |] eqn:Ep; try done.
  - unfold master_inv, quiet. cbn. rewrite !fn_lookup_insert. naive_solver.
  - destruct (Z.eqb_spec (run (nis s NOC_MASTER)) 0); unfold master_inv, quiet; cbn; rewrite ?fn_lookup_insert, ?Ep; naive_solver.
  - unfold master_inv, quiet in *. cbn. rewrite !fn_lookup_insert.
    pose proof (configure_ok NOC_MASTER (nis s NOC_MASTER)) as H. destruct (configure_rest NOC_MASTER (nis s NOC_MASTER)) as [r n'].
    destruct H as (Hc & E1 & E2). cbn [snd] in *. rewrite E1, E2. split_and!; try naive_solver. intros _ c [[] _]; lia.
  - destruct HM as (H1 & H2 & H3 & H4 & H5). destruct (Z.ltb_spec i cpucnt).
    + case_decide as En; [apply (scanning_inv _ _ (i + 1) d)|apply (scanning_inv _ _ i d)]; auto; [left; split; [done|lia]|intros Hd; apply noted_scan; auto|].
      right. split; [done|]. destruct (decide (i = NOC_MASTER)) as [->|Hm]; [done|]. split; [lia|]. destruct (on i) eqn:Eo; [done|]. by destruct En; apply HA.
    + destruct d; [|apply (scanning_inv _ _ 0 true); auto; [left; split; [done|lia]|intros _ c [[] _]; lia]].
      unfold master_inv, quiet. cbn. rewrite !fn_lookup_insert. split_and!; try done; [apply H2|apply H2|apply (noted_all s i); auto].
  - destruct HM as (H1 & H2 & H3 & H4 & [H5 H6]). repeat case_decide; [|destruct (Z.eqb_spec i NOC_MASTER)];
      [apply (scanning_inv _ _ (i + 1) d)|apply (scanning_inv _ _ (i + 1) d)|apply (scanning_inv _ _ (i + 1) false)]; auto;
      try (left; split; [done|lia]); intros Hd; [apply noted_scan; auto|apply noted_scan; auto|done].
  - unfold master_inv, quiet. cbn. rewrite !fn_lookup_insert. naive_solver.
  - unfold master_inv, quiet. cbn. rewrite !fn_lookup_insert. naive_solver.
  - destruct (Z.eqb_spec (run (nis s NOC_MASTER)) 1); unfold master_inv, quiet; cbn; rewrite ?fn_lookup_insert, ?Ep; naive_solver.
  - unfold master_inv. by rewrite Ep.
Qed.

Lemma noc_step_inv s s' : Inv s -> step s s' -> Inv s'.
Proof.
  intros HI [(c & Hc & ->)| ->]; [|by apply net_step_inv]. destruct (decide (c = NOC_MASTER)) as [->|Hm].
  - pose proof HI as (HM & HS & HA). split_and!; [by apply master_step_own|intros j Hj; apply master_step_slave; [by destruct Hj|done|by apply HS]|].
    intros j Hj Ho. rewrite master_step_stat by done. by apply HA.
  - destruct HI as (HM & HS & HA). assert (Hs : is_slave c) by done.
    split_and!; [apply noc_slave_step_master; auto| |]; intros j Hj; [|intros Ho; destruct (slave_step_frame s c j Hm ltac:(intros ->; destruct Hs as [[]]; congruence) (HS c Hs)) as (_ & _ & ->); by apply HA].
    destruct (decide (c = j)) as [->|Hcj]; [apply slave_step_own; auto|].
    pose proof (HS j Hj) as Hi. unfold slave_inv in *. destruct (slave_step_frame s c j Hm Hcj (HS c Hs)) as (-> & -> & ->).
    by rewrite (slave_step_m_stat s c Hm (HS c Hs)).
Qed.
Lemma noc_started_inv s : started s -> Inv s.
Proof.
  intros (Hp & Hm & Hs). split_and!; [by unfold master_inv; rewrite Hp| |].
  - intros c [[_ Ho] Hc]. unfold slave_inv. rewrite Hp. by rewrite Hs, Ho.
  - intros c Hc Ho. by rewrite Hs, Ho.
Qed.
Lemma noc_reach_inv s0 s : started s0 -> rtc step s0 s -> Inv s.
Proof. intros H0%noc_started_inv Hr. induction Hr; eauto using noc_step_inv. Qed.

(** Once the master is released, every core is configured. *)
Lemma released_configured s c : Inv s -> m_stat s = INITDONE -> active c -> configured c (nis s c).
Proof.
  intros (HM & HS & _) Em Hc. unfold master_inv in HM. destruct (decide (c = NOC_MASTER)) as [->|Hm].
  - destruct (pcs s NOC_MASTER); naive_solver.
  - assert (Hs : is_slave c) by done. assert (Hn : noted s cpucnt) by (destruct (pcs s NOC_MASTER); naive_solver).
    specialize (HS c Hs). unfold slave_inv in HS. rewrite (Hn c Hs) in HS by (destruct Hc; lia). destruct (pcs s c); naive_solver.
Qed.

(** ** Progress *)

Definition srank (p : pc) : Z :=
  match p with P_stop => 5 | P_load => 4 | P_notify => 3 | P_spin => 2 | P_enable => 1 | _ => 0 end.
Definition mrank (p : pc) : Z :=
  let left i := 2 * Z.max 0 (cpucnt - i) in
  let again (d : bool) := if d then 0 else 2 * Z.max 0 cpucnt + 2 in
  match p with
  | P_done => 0 | P_running => 1 | P_enable => 3 | P_release => 4
  | P_scan i d => 6 + left i + again d | P_scan2 i d => 5 + left i + again d
  | P_load => 4 * Z.max 0 cpucnt + 10 | P_stopped => 4 * Z.max 0 cpucnt + 11 | P_stop => 4 * Z.max 0 cpucnt + 13
  | _ => 0
  end.
(** 1 while the network has not followed the request. *)
Definition lag (s : sys) : Z := if decide (run (nis s NOC_MASTER) = run_req (nis s NOC_MASTER)) then 0 else 1.
Definition slave_ranks (s : sys) : Z := total (fun c => if decide (is_slave c) then srank (pcs s c) else 0) (seqZ 0 cpucnt).
Definition measure (s : sys) : Z := mrank (pcs s NOC_MASTER) + lag s + slave_ranks s.

Lemma noc_measure_nonneg s : 0 <= measure s.
Proof.
  unfold measure, slave_ranks. assert (0 <= total (fun c => if decide (is_slave c) then srank (pcs s c) else 0) (seqZ 0 cpucnt))
    by (apply total_pos; intros c; case_decide; [destruct (pcs s c); cbn; lia|lia]).
  assert (0 <= lag s) by (unfold lag; case_decide; lia).
  assert (0 <= mrank (pcs s NOC_MASTER)) by (destruct (pcs s NOC_MASTER) as [| | |? []|? []| | | | | |]; cbn; lia). lia.
Qed.

Lemma slave_step_measure s c : Inv s -> is_slave c -> srank (pcs (core_step c s) c) < srank (pcs s c) -> measure (core_step c s) < measure s.
Proof.
  intros (HM & HS & _) Hc Hr. pose proof Hc as [[Hi Ho] Hm]. destruct (slave_step_frame s c NOC_MASTER Hm Hm (HS c Hc)) as (Ep & En & _).
  unfold measure, lag. rewrite Ep, En. apply Z.add_lt_mono_l. unfold slave_ranks. apply (total_lt _ _ _ c).
  - intros j _. case_decide; [|done]. destruct (decide (c = j)) as [->|Hj]; [lia|].
    by destruct (slave_step_frame s c j Hm Hj (HS c Hc)) as (-> & _ & _).
  - apply elem_of_seqZ. lia.
  - by rewrite !decide_True by done.
Qed.
Lemma master_step_slaves s : master_inv s -> slave_ranks (core_step NOC_MASTER s) = slave_ranks s.
Proof.
  intros HM. unfold slave_ranks. assert (H : forall c, c <> NOC_MASTER -> pcs (core_step NOC_MASTER s) c = pcs s c).
  { intros c Hc. unfold core_step. rewrite Z.eqb_refl. unfold master_inv in HM.
    destruct (pcs s NOC_MASTER); try done; repeat case_match; cbn; rewrite ?fn_lookup_insert_ne by done; done. }
  unfold total. induction (seqZ 0 cpucnt) as [|c l IH]; [done|]. cbn. rewrite IH. f_equal. case_decide as Hd; [|done]. rewrite H; [done|apply Hd].
Qed.

(** A slave that has not notified the master can go on, and one that waits
    can when the master is released. *)
Lemma slave_progress s c : slave_inv s c -> is_slave c ->
  match pcs s c with P_done => False | P_spin => m_stat s = INITDONE | _ => True end ->
  srank (pcs (core_step c s) c) < srank (pcs s c).
Proof.
  intros Hi [Ha Hm] Hp. unfold slave_inv in Hi. unfold core_step. rewrite (proj2 (Z.eqb_neq _ _) Hm).
  destruct (pcs s c); try done; rewrite ?decide_True by done; cbn; rewrite fn_lookup_insert; cbn; lia.
Qed.

Ltac fields := cbn [go on_ni pcs nis s_stat m_stat run run_req put_run_req put_run].

(** The master can go on when all slaves have notified it, after the
    network has followed. *)
Lemma master_progress s : Inv s -> noted s cpucnt -> lag s = 0 -> pcs s NOC_MASTER <> P_done ->
  measure (core_step NOC_MASTER s) < measure s.
Proof.
  intros (HM & HS & HA) Hn Hl Hd. unfold measure. rewrite (master_step_slaves s HM). apply Z.add_lt_mono_r.
  unfold lag in *. case_decide as El; [clear Hl|done]. unfold master_inv in HM. unfold core_step. rewrite Z.eqb_refl.
  destruct (pcs s NOC_MASTER) as [| | |i d|i d| | | | | |] eqn:Ep; try done.
  - fields. rewrite !fn_lookup_insert. unfold mrank. destruct (decide _); lia.
  - destruct (Z.eqb_spec (run (nis s NOC_MASTER)) 0) as [_|[]]; [|destruct HM; congruence]. fields. rewrite fn_lookup_insert, decide_True by done. unfold mrank. lia.
  - pose proof (configure_ok NOC_MASTER (nis s NOC_MASTER)) as H. fields. rewrite !fn_lookup_insert.
    destruct (configure_rest NOC_MASTER (nis s NOC_MASTER)) as [r n']. destruct H as (_ & E1 & E2). cbn [snd] in *.
    rewrite decide_True by congruence. unfold mrank. lia.
  - destruct (Z.ltb_spec i cpucnt); [destruct (decide (s_stat s i = STATUS_NULL))|destruct d]; fields; rewrite fn_lookup_insert, decide_True by done; unfold mrank; lia.
  - destruct HM as (_ & _ & _ & _ & Hi). assert (Hst : i = NOC_MASTER \/ s_stat s i = INITDONE).
    { destruct (decide (i = NOC_MASTER)) as [|Hm]; [by left|right]. apply Hn; [done|apply Hi]. }
    destruct Hi as [Hi _]. destruct (decide (s_stat s i = INITDONE)); [|destruct (Z.eqb_spec i NOC_MASTER); [|naive_solver]];
      fields; rewrite fn_lookup_insert, decide_True by done; unfold mrank; lia.
  - fields. rewrite fn_lookup_insert, decide_True by done. unfold mrank. lia.
  - fields. rewrite !fn_lookup_insert. unfold mrank. destruct (decide _); lia.
  - destruct (Z.eqb_spec (run (nis s NOC_MASTER)) 1) as [_|[]]; [|destruct HM as (_ & ? & _); congruence]. fields. rewrite fn_lookup_insert, decide_True by done. unfold mrank. lia.
Qed.

Definition all_done (s : sys) : Prop := forall c, active c -> pcs s c = P_done.
(** Either some slave can be moved on, or the master can, or all are done. *)
Lemma some_slave (P : Z -> Prop) `{!forall c, Decision (P c)} :
  (exists c, is_slave c /\ P c) \/ forall c, is_slave c -> ~ P c.
Proof.
  destruct (decide (Exists (fun c => is_slave c /\ P c) (seqZ 0 cpucnt))) as [He|Hn].
  - apply Exists_exists in He as (c & _ & Hex). by left; exists c.
  - right. intros c Hc Hp. apply Hn, Exists_exists. exists c. split; [apply elem_of_seqZ; destruct Hc as [[] _]; lia|done].
Qed.
Definition unready (p : pc) : bool := match p with P_stop | P_load | P_notify => true | _ => false end.
Lemma noc_progress s : Inv s -> ~ all_done s -> exists s', step s s' /\ measure s' < measure s.
Proof.
  intros HI Hd. pose proof HI as (HM & HS & _).
  destruct (some_slave (fun c => unready (pcs s c) = true)) as [(c & Hc & Hp)|Hready].
  { exists (core_step c s). split; [left; exists c; by destruct Hc|]. apply slave_step_measure; [done|done|].
    apply slave_progress; auto. by destruct (pcs s c). }
  destruct (decide (lag s = 0)) as [Hl|Hl].
  2:{ exists (net_step s). split; [by right|]. unfold measure, net_step, slave_ranks in *. unfold lag in *. fields. rewrite !fn_lookup_insert. fields.
      rewrite decide_True by done. case_decide; [done|lia]. }
  destruct (decide (pcs s NOC_MASTER = P_done)) as [Em|Em].
  - assert (E : m_stat s = INITDONE) by (unfold master_inv in HM; rewrite Em in HM; apply HM).
    destruct (some_slave (fun c => pcs s c <> P_done)) as [(c & Hc & Hp)|Hall].
    + exists (core_step c s). split; [left; exists c; by destruct Hc|]. apply slave_step_measure; [done|done|].
      apply slave_progress; auto. by destruct (pcs s c).
    + destruct Hd. intros c Hc. destruct (decide (c = NOC_MASTER)) as [->|]; [done|]. specialize (Hall c ltac:(done)).
      destruct (decide (pcs s c = P_done)); done.
  - exists (core_step NOC_MASTER s). split; [left; by exists NOC_MASTER|]. apply master_progress; auto.
    intros c Hc _. specialize (Hready c Hc). specialize (HS c Hc). unfold slave_inv in HS. destruct (pcs s c); naive_solver.
Qed.

(** C8: noc_init is a barrier, and the network starts behind it.  In every
    interleaving of the cores that the boot loader started, the master among
    them, whether or not the network was running before, and whether or not
    the schedules of a core fit its table of 2^k words (k from 1 to 9, 2 KB at
    most):
    - when noc_init returns on any core, every core is configured: its
      schedules, if they fit, are in its table between the pointers of the
      mode change table, and both interrupt handlers are registered;
    - from when the master has seen the network stop, it does not run until
      every core is configured;
    - when noc_init returns on the master, the network runs. *)
Theorem noc_init_barrier s0 s : started s0 -> rtc step s0 s ->
  (forall c, active c -> pcs s c = P_done -> forall c', active c' -> configured c' (nis s c')) /\
  (pcs s NOC_MASTER <> P_stop -> pcs s NOC_MASTER <> P_stopped -> run (nis s NOC_MASTER) <> 0 ->
     forall c, active c -> configured c (nis s c)) /\
  (pcs s NOC_MASTER = P_done -> run (nis s NOC_MASTER) = 1).
Proof.
  intros H0 Hr. pose proof (noc_reach_inv s0 s H0 Hr) as HI. pose proof HI as (HM & HS & _). split_and!.
  - intros c Hc Ep c' Hc'. apply released_configured; auto. destruct (decide (c = NOC_MASTER)) as [->|Hm].
    + unfold master_inv in HM. rewrite Ep in HM. apply HM.
    + specialize (HS c ltac:(done)). unfold slave_inv in HS. rewrite Ep in HS. apply HS.
  - intros H1 H2 Hrun c Hc. apply released_configured; auto. unfold master_inv, quiet in HM. destruct (pcs s NOC_MASTER); naive_solver.
  - intros Ep. unfold master_inv in HM. rewrite Ep in HM. apply HM.
Qed.

(** C17: the start is free of deadlocks.  From every state that the cores can
    reach, whether or not their schedules fit, there is a continuation in
    which noc_init returns on all of them. *)
Theorem noc_init_completes s0 s : started s0 -> rtc step s0 s -> exists s', rtc step s s' /\ all_done s'.
Proof.
  intros H0 Hr. pose proof (noc_reach_inv s0 s H0 Hr) as HI. clear H0 Hr s0. remember (Z.to_nat (measure s)) as m eqn:Em. revert s Em HI.
  induction (lt_wf m) as [m _ IH]. intros s -> HI.
  destruct (decide (Forall (fun c => on c = true -> pcs s c = P_done) (seqZ 0 cpucnt))) as [Ha|Ha].
  - exists s. split; [done|]. intros c [Hc Ho]. rewrite Forall_forall in Ha. apply Ha; [apply elem_of_seqZ; lia|done].
  - destruct (noc_progress s HI) as (s1 & Hs & Hm).
    { intros Hd. apply Ha, Forall_forall. intros c Hc Ho. apply elem_of_seqZ in Hc. apply Hd. split; [lia|done]. }
    pose proof (noc_measure_nonneg s1). destruct (IH (Z.to_nat (measure s1)) ltac:(lia) s1 eq_refl (noc_step_inv s s1 HI Hs)) as (s' & Hr & Hd).
    exists s'. split; [by eapply rtc_l|done].
Qed.

End Start.

(** ** A platform with two cores *)

(** Two configurations of two entries for each of two cores, in a table of
    four words; [array3] has three entries each. *)
Definition array2 (a : Z) : Z := if a mod 4 =? 0 then 2 else 100 + a.
Definition array3 (a : Z) : Z := if a mod 4 =? 0 then 3 else 100 + a.
Definition blank : ni := mk_ni (fun _ => 0) (fun _ => 0) 0 0 1 1 (fun _ => []) (fun _ => None).
(** The network is still running from before. *)
Definition warm : sys := mk_nsys STATUS_INIT (fun c => if c =? 0 then STATUS_NULL else STATUS_INIT) (fun _ => blank) (fun _ => P_stop).
(** The cores take their steps in the order of a list; -1 is the network. *)
Fixpoint run_list (l : list Z) (s : sys) : sys :=
  match l with
  | [] => s
  | c :: l => run_list l (if c =? -1 then net_step 0 s else core_step 2 2 2 1 4 0 array2 2 7 c s)
  end.
Notation step2 := (step 2 2 2 1 4 0 array2 2 7 (fun _ => true)).
Lemma run_list_rtc l : Forall (fun c => -1 <= c < 2) l -> forall s, rtc step2 s (run_list l s).
Proof.
  induction 1 as [|c l Hc _ IH]; intros s; [done|]. eapply rtc_l; [|apply IH]. destruct (Z.eqb_spec c (-1)); [by right|].
  left. exists c. split; [split; [lia|done]|done].
Qed.
Lemma warm_started : started 0 7 (fun _ => true) warm.
Proof. split_and!; [done|done|]. intros c Hc. cbn. by rewrite (proj2 (Z.eqb_neq c 0)). Qed.

(** A start of both cores, up to the end of noc_init. *)
Definition start2 : list Z := [0; 1; 1; 0; -1; 0; 0; 0; 0; 1; 0; 0; 0; 0; 0; 0; 0; 0; 0; 1; 1; 0; -1; 0].
Lemma noc_init_barrier_witness :
  let s := run_list start2 warm in
  pcs s 0 = P_done /\ run (nis s 0) = 1 /\ all_loaded (2 ^ 2) 2 2 1 4 array2 1 (nis s 1) /\ rd (2 ^ 2) (sched (nis s 1)) 2 = 113.
Proof.
  intros s. destruct (noc_init_barrier 2 ltac:(lia) 2 2 1 4 0 array2 2 7 (fun _ => true) ltac:(split; [lia|done]) warm s warm_started) as (H1 & _ & H3).
  - apply run_list_rtc. repeat constructor; lia.
  - assert (Ep : pcs s 0 = P_done) by (vm_compute; reflexivity). split_and!; [exact Ep|exact (H3 Ep)| |vm_compute; reflexivity].
    apply (H1 0 ltac:(split; [lia|done]) Ep 1); [split; [lia|done]|vm_compute; discriminate].
Defined.
Lemma noc_init_completes_witness :
  exists s', rtc step2 (run_list [0; 1; 1; 0; 0; 0] warm) s' /\ all_done 2 (fun _ => true) s'.
Proof.
  apply (noc_init_completes 2 ltac:(lia) 2 2 1 4 0 array2 2 7 (fun _ => true) ltac:(split; [lia|done]) warm _ warm_started).
  apply run_list_rtc. repeat constructor; lia.
Defined.

(** The size is found in bytes and compared with a number of words: schedules
    of six entries are accepted for a table of four words, and the second
    overwrites the first. *)
Theorem sched_load_overflow :
  let '(r, n) := k_noc_sched_load (2 ^ 2) 2 2 1 4 array3 0 blank in
  r = 1 /\ mc_start (mc n 2) = 0 /\ mc_start (mc n 3) = 3 /\
  schedule_entry 2 1 4 array3 0 0 0 = 101 /\ rd (2 ^ 2) (sched n) 0 = schedule_entry 2 1 4 array3 0 1 1.
Proof. vm_compute. repeat split. Qed.

(** A slave loads its table while the network still runs, and it can leave
    noc_init before the network runs: only the master waits for the run mode. *)
Theorem slave_does_not_wait :
  (exists s, rtc step2 warm s /\ pcs s 1 = P_notify /\ run (nis s 0) = 1) /\
  (exists s, rtc step2 warm s /\ pcs s 1 = P_done /\ run (nis s 0) = 0).
Proof.
  split; [exists (run_list [1; 1] warm)|exists (run_list [0; 1; 1; 0; -1; 0; 0; 0; 0; 1; 0; 0; 0; 0; 0; 0; 0; 0; 1; 1; 1] warm)];
    (split; [apply run_list_rtc; repeat constructor; lia|split; vm_compute; reflexivity]).
Qed.

(** ** Interrupts *)

(** The scratchpad by words and the pending interrupts; [source] is what
    exc_get_source returns. *)
Record icore := mk_icore { i_ni : ni; i_spm : Z -> Z; pending : Z -> bool }.
Definition irq_handler (empty_read irq_type source : Z) (s : icore) : icore :=
  let '(tmp, n) := k_noc_fifo_read empty_read irq_type (i_ni s) in
  mk_icore n (<[u32 (Z.shiftl tmp 2) := 0]> (i_spm s)) (<[source := false]> (pending s)).
Definition __remote_irq_handler (empty_read : Z) := irq_handler empty_read 0.
Definition __data_recv_handler (empty_read : Z) := irq_handler empty_read 1.

(** The word of the scratchpad that an element of a queue stands for. *)
Definition flag_of (v : Z) : Z := u32 (Z.shiftl (s32 v) 2).

(** As many interrupts as there are elements in a queue empty it, and clear
    exactly the words its elements stand for. *)
Theorem irq_handlers_drain e t src s : t = 0 \/ t = 1 ->
  let s' := Nat.iter (length (irq_fifo (i_ni s) t)) (irq_handler e t src) s in
  irq_fifo (i_ni s') t = [] /\
  forall a, i_spm s' a = if decide (a ∈ map flag_of (irq_fifo (i_ni s) t)) then 0 else i_spm s a.
Proof.
  intros Ht. assert (E : u8 t = t) by (by destruct Ht as [-> | ->]). remember (irq_fifo (i_ni s) t) as l eqn:El. revert s El.
  induction l as [|v l IH]; intros s El.
  - cbn. split; [done|]. intros a. by rewrite decide_False by (by intros ?%elem_of_nil).
  - cbn [length]. rewrite Nat.iter_succ_r. set (s1 := irq_handler e t src s).
    assert (E1 : s1 = mk_icore (put_irq (<[t := l]> (irq_fifo (i_ni s))) (i_ni s)) (<[flag_of v := 0]> (i_spm s)) (<[src := false]> (pending s)))
      by (unfold s1, irq_handler, k_noc_fifo_read; by rewrite E, <- El).
    destruct (IH s1) as [H1 H2]; [rewrite E1; cbn; by rewrite fn_lookup_insert|]. split; [exact H1|]. intros a. rewrite H2.
    cbn [map]. rewrite E1. cbn [i_spm]. destruct (decide (a = flag_of v)) as [->|Hne].
    + rewrite fn_lookup_insert, (decide_True (P := flag_of v ∈ flag_of v :: _)) by left. by case_decide.
    + rewrite fn_lookup_insert_ne by done. apply decide_ext. rewrite elem_of_cons. naive_solver.
Qed.
