(* ===== verification/Rticap.v ===== *)
(** Rticap: the reconfiguration controller's library, librticap/rticap.c.

    - The scratchpad of the controller is seen through a window of one bank; a
      register selects the bank.  [spm_hw] is that memory, as rticap.h
      describes it: addresses with bit 15 set select, the two lowest bits are
      not used.  The library remembers the selected bank, [current_bank].
    - The registers are words by number.
    - In the memory test, what malloc returns and the values of rand are
      parameters. *)

From stdpp Require Import base numbers functions list.
From S2P Require Import Prelude.

Definition BRAM_ADDR_WIDTH := 15.
Definition BANK_SIZE := 32768.
Definition BANK_WORD_SIZE := 8192.
Definition BANK_NUMBER := 8.

(** ** The scratchpad *)

(** Addresses are offsets from RTICAP_BRAM_BASE. *)
Class SpmHw (H : Type) := { hw_wr : Z -> Z -> H -> H; hw_rd : Z -> H -> Z * H }.

Record spm_hw := mk_spm { bank_sel : Z; banks : Z -> Z -> Z }.
#[export] Instance spm_hw_ok : SpmHw spm_hw := {
  hw_wr := fun off v h =>
    if Z.testbit off 15 then mk_spm v (banks h)
    else mk_spm (bank_sel h) (<[bank_sel h := <[Z.shiftr off 2 := v]> (banks h (bank_sel h))]> (banks h));
  hw_rd := fun off h => (banks h (bank_sel h) (Z.shiftr off 2), h) }.

Section Driver.
Context {H : Type} `{!SpmHw H}.

(** [random_array] is NULL or the array in main memory. *)
Record rticap := mk_rticap { current_bank : Z; hw : H; random_array : option (Z -> Z) }.
Definition put_random (p : option (Z -> Z)) (s : rticap) : rticap := mk_rticap (current_bank s) (hw s) p.
(** The value of current_bank at the start of the program. *)
Definition NO_BANK := 0xFFFFFFFF.

Definition select_bank (addr : Z) (s : rticap) : rticap :=
  if negb (current_bank s =? Z.shiftr addr BRAM_ADDR_WIDTH) then
    let b := Z.shiftr addr BRAM_ADDR_WIDTH in mk_rticap b (hw_wr 0x8000 b (hw s)) (random_array s)
  else s.
Definition rticap_reconspm_write32 (addr data : Z) (s : rticap) : rticap :=
  let s := select_bank addr s in
  mk_rticap (current_bank s) (hw_wr (Z.land addr (BANK_SIZE - 1)) data (hw s)) (random_array s).
Definition rticap_reconspm_read32 (addr : Z) (s : rticap) : Z * rticap :=
  let s := select_bank addr s in
  let '(v, h) := hw_rd (Z.land addr (BANK_SIZE - 1)) (hw s) in (v, mk_rticap (current_bank s) h (random_array s)).

(** ** The memory test *)

Definition TEST_WORDS := BANK_NUMBER * BANK_WORD_SIZE.
(** The loop that writes and the loop that compares; [n] words are left. *)
Fixpoint test_write (n : nat) (i : Z) (arr : Z -> Z) (s : rticap) : rticap :=
  match n with
  | O => s
  | S n' => test_write n' (i + 1) arr (rticap_reconspm_write32 (u32 (Z.shiftl i 2)) (arr i) s)
  end.
Fixpoint test_check (n : nat) (i : Z) (arr : Z -> Z) (s : rticap) : Z * rticap :=
  match n with
  | O => (0, s)
  | S n' =>
      let '(v, s) := rticap_reconspm_read32 (u32 (Z.shiftl i 2)) s in
      if negb (v =? arr i) then (-1, s) else test_check n' (i + 1) arr s
  end.
(** [malloc_ok]: malloc did not return NULL.  [rand i] is the value of call
    [i] of rand after srand(seed). *)
Definition rticap_reconspm_test (malloc_ok : bool) (rand : Z -> Z) (s : rticap) : Z * rticap :=
  let s := put_random None s in
  if negb malloc_ok then (-2, s)
  else
    let arr i := u32 (rand i) in
    let s := put_random (Some arr) s in
    let s := test_write (Z.to_nat TEST_WORDS) 0 arr s in
    let '(r, s) := test_check (Z.to_nat TEST_WORDS) 0 arr s in
    if r =? 0 then (0, put_random None s) else (r, s).

End Driver.
Arguments rticap : clear implicits.

(** ** The registers *)

Definition RTICAP_STATUS_REG := 0.
Definition RTICAP_SIGNATURE_REG := 7.
Definition rticap_read_reg (reg : Z) (regs : Z -> Z) : Z := regs reg.
Definition rticap_write_reg (reg data : Z) (regs : Z -> Z) : Z -> Z := <[reg := data]> regs.
Definition rticap_get_status (regs : Z -> Z) : Z := u16 (Z.land (rticap_read_reg RTICAP_STATUS_REG regs) 0x0000FFFF).
Definition rticap_get_icap_status (regs : Z -> Z) : Z := u16 (Z.land (rticap_read_reg RTICAP_STATUS_REG regs) 0xFFFF0000).
Definition rticap_get_signature (regs : Z -> Z) : Z := rticap_read_reg RTICAP_SIGNATURE_REG regs.

(** The upper half is masked but not shifted down: the ICAP status always
    reads 0. *)
Theorem icap_status_lost regs : rticap_get_icap_status regs = 0.
Proof.
  unfold rticap_get_icap_status, u16. rewrite <- Z.land_ones, <- Z.land_assoc by lia. change (Z.land 0xFFFF0000 (Z.ones 16)) with 0. apply Z.land_0_r.
Qed.

(** ** The banks are one memory *)

Abbreviation driver := (rticap spm_hw).

(** The library knows the selected bank, or it has not selected one yet. *)
Definition good (s : driver) : Prop := current_bank s = NO_BANK \/ current_bank s = bank_sel (hw s).
(** Word [a] of the memory. *)
Definition flat (s : driver) (a : Z) : Z := banks (hw s) (a / BANK_WORD_SIZE) (a mod BANK_WORD_SIZE).
(** The word that an address is in. *)
Definition word_of (addr : Z) : Z := addr / 4.
Definition in_spm (addr : Z) : Prop := 0 <= addr < BANK_NUMBER * BANK_SIZE.

Lemma bank_of addr : in_spm addr -> Z.shiftr addr BRAM_ADDR_WIDTH = word_of addr / BANK_WORD_SIZE /\ 0 <= Z.shiftr addr BRAM_ADDR_WIDTH < 8.
Proof.
  unfold in_spm, word_of, BANK_NUMBER, BANK_SIZE, BANK_WORD_SIZE, BRAM_ADDR_WIDTH. intros Ha. rewrite Z.shiftr_div_pow2 by lia.
  change (2 ^ 15) with (4 * 8192). rewrite <- Z.div_div by lia. split; [done|]. Z.to_euclidean_division_equations; lia.
Qed.
Lemma offset_of addr : 0 <= addr -> let off := Z.land addr (BANK_SIZE - 1) in
  Z.testbit off 15 = false /\ Z.shiftr off 2 = word_of addr mod BANK_WORD_SIZE.
Proof.
  intros Ha off. unfold off, word_of, BANK_SIZE, BANK_WORD_SIZE. change (32768 - 1) with (Z.ones 15). split.
  - rewrite Z.land_spec. by rewrite andb_false_r.
  - rewrite Z.land_ones, Z.shiftr_div_pow2 by lia. change (2 ^ 15) with (4 * 8192). change (2 ^ 2) with 4.
    rewrite Z.rem_mul_r by lia. rewrite (Z.mul_comm 4), Z.div_add, (Z.div_small (addr mod 4)) by (try apply Z.mod_pos_bound; lia). lia.
Qed.

Lemma select_bank_ok addr (s : driver) : good s -> in_spm addr ->
  let s' := select_bank addr s in
  bank_sel (hw s') = word_of addr / BANK_WORD_SIZE /\ current_bank s' = bank_sel (hw s') /\
  banks (hw s') = banks (hw s) /\ random_array s' = random_array s.
Proof.
  intros Hg Ha. destruct (bank_of addr Ha) as [<- Hr]. unfold select_bank.
  destruct (Z.eqb_spec (current_bank s) (Z.shiftr addr BRAM_ADDR_WIDTH)) as [E|_]; cbn; [|done].
  destruct Hg as [Hg|Hg]; [unfold NO_BANK in Hg; lia|]. split_and!; congruence.
Qed.

Lemma write32_flat addr v (s : driver) : good s -> in_spm addr ->
  let s' := rticap_reconspm_write32 addr v s in
  good s' /\ random_array s' = random_array s /\
  forall a, 0 <= a -> flat s' a = if decide (a = word_of addr) then v else flat s a.
Proof.
  intros Hg Ha. destruct (select_bank_ok addr s Hg Ha) as (Eb & Ec & Em & Er). unfold rticap_reconspm_write32. cbv zeta.
  set (s1 := select_bank addr s) in *. destruct (offset_of addr ltac:(unfold in_spm in Ha; lia)) as [Et Eo].
  cbn [hw_wr spm_hw_ok]. rewrite Et, Eo. split_and!; [by right|done|]. intros a Hpos. unfold flat. cbn [hw banks]. rewrite Eb, Em.
  unfold BANK_WORD_SIZE in *. pose proof (Z.div_mod a 8192 ltac:(lia)) as E1. pose proof (Z.div_mod (word_of addr) 8192 ltac:(lia)) as E2.
  case_decide as E; [rewrite E, !fn_lookup_insert; done|].
  destruct (decide (word_of addr / 8192 = a / 8192)) as [Eq|Hq]; [|by rewrite fn_lookup_insert_ne].
  rewrite Eq, fn_lookup_insert. rewrite fn_lookup_insert_ne; [done|]. intros Hm. lia.
Qed.
Lemma read32_flat addr (s : driver) : good s -> in_spm addr ->
  let '(v, s') := rticap_reconspm_read32 addr s in
  v = flat s (word_of addr) /\ good s' /\ flat s' = flat s /\ random_array s' = random_array s.
Proof.
  intros Hg Ha. destruct (select_bank_ok addr s Hg Ha) as (Eb & Ec & Em & Er). unfold rticap_reconspm_read32. cbv zeta.
  set (s1 := select_bank addr s) in *. destruct (offset_of addr ltac:(unfold in_spm in Ha; lia)) as [Et Eo].
  cbn [hw_rd spm_hw_ok]. unfold flat. cbn [hw]. rewrite Eo, Eb, Em. split_and!; [done|by right|done|done].
Qed.

(** ** Any use of the memory *)

Inductive spm_op := Read32 (addr : Z) | Write32 (addr data : Z).
Definition op_addr (o : spm_op) : Z := match o with Read32 a | Write32 a _ => a end.
(** The values read, through the library and from one memory of words. *)
Fixpoint use {H} `{!SpmHw H} (ops : list spm_op) (s : rticap H) : list Z * rticap H :=
  match ops with
  | [] => ([], s)
  | Read32 a :: ops => let '(v, s) := rticap_reconspm_read32 a s in let '(l, s) := use ops s in (v :: l, s)
  | Write32 a v :: ops => use ops (rticap_reconspm_write32 a v s)
  end.
Fixpoint use_flat (ops : list spm_op) (m : Z -> Z) : list Z * (Z -> Z) :=
  match ops with
  | [] => ([], m)
  | Read32 a :: ops => let '(l, m') := use_flat ops m in (m (word_of a) :: l, m')
  | Write32 a v :: ops => use_flat ops (<[word_of a := v]> m)
  end.

(** The reconfiguration scratchpad behaves as one memory, whatever the order
    in which its banks are used: every sequence of accesses reads the same
    values, and leaves the same contents, as on a memory of words. *)
Theorem reconspm_refines_memory ops : Forall (fun o => in_spm (op_addr o)) ops -> forall (s : driver) m,
  good s -> (forall a, 0 <= a -> flat s a = m a) ->
  fst (use ops s) = fst (use_flat ops m) /\ forall a, 0 <= a -> flat (snd (use ops s)) a = snd (use_flat ops m) a.
Proof.
  assert (Hw : forall a, in_spm a -> 0 <= word_of a) by (intros a [Ha _]; apply Z.div_pos; lia).
  induction 1 as [|[a|a v] ops Ha _ IH]; intros s m Hg Hm; cbn [use use_flat op_addr] in *; [done| |].
  - pose proof (read32_flat a s Hg Ha) as Hr. destruct (rticap_reconspm_read32 a s) as [v s1]. destruct Hr as (-> & Hg1 & Ef & _).
    destruct (IH s1 m Hg1 ltac:(by rewrite Ef)) as [E1 E2]. destruct (use ops s1), (use_flat ops m). cbn in *. split; [|done]. rewrite Hm by auto. congruence.
  - destruct (write32_flat a v s Hg Ha) as (Hg1 & _ & Hf). apply IH; [done|]. intros b Hb. rewrite Hf by done.
    case_decide as E; [by rewrite E, fn_lookup_insert|]. rewrite fn_lookup_insert_ne; auto.
Qed.

(** ** The memory test *)

Lemma word_of_index i : 0 <= i < TEST_WORDS -> in_spm (u32 (Z.shiftl i 2)) /\ word_of (u32 (Z.shiftl i 2)) = i.
Proof.
  unfold TEST_WORDS, in_spm, word_of, BANK_NUMBER, BANK_WORD_SIZE, BANK_SIZE. intros Hi. rewrite Z.shiftl_mul_pow2 by lia.
  rewrite u32_small by lia. split; [lia|]. change (2 ^ 2) with 4. apply Z.div_mul. lia.
Qed.
Lemma test_write_flat n : forall i arr (s : driver), good s -> 0 <= i -> i + Z.of_nat n <= TEST_WORDS ->
  let s' := test_write n i arr s in
  good s' /\ random_array s' = random_array s /\
  forall a, 0 <= a -> flat s' a = if decide (i <= a < i + Z.of_nat n) then arr a else flat s a.
Proof.
  induction n as [|n IH]; intros i arr s Hg Hi Hn; cbn [test_write].
  - split_and!; [done|done|]. intros a _. by rewrite decide_False by lia.
  - destruct (word_of_index i ltac:(lia)) as [Ha Ew]. destruct (write32_flat _ (arr i) s Hg Ha) as (Hg1 & Er & Hf). rewrite Ew in Hf.
    destruct (IH (i + 1) arr _ Hg1 ltac:(lia) ltac:(lia)) as (Hg2 & Er2 & Hf2). split_and!; [done|by rewrite Er2|].
    intros a Hp. rewrite Hf2, Hf by done. repeat case_decide; subst; (done || lia).
Qed.
(** The comparison finds the first word that differs. *)
Lemma test_check_flat n : forall i arr (s : driver), good s -> 0 <= i -> i + Z.of_nat n <= TEST_WORDS ->
  let '(r, s') := test_check n i arr s in
  good s' /\ flat s' = flat s /\ (r = 0 \/ r = -1) /\ (r = 0 <-> forall a, i <= a < i + Z.of_nat n -> flat s a = arr a).
Proof.
  induction n as [|n IH]; intros i arr s Hg Hi Hn; cbn [test_check].
  - split_and!; [done|done|by left|]. split; [intros _ a Ha; lia|done].
  - destruct (word_of_index i ltac:(lia)) as [Ha Ew]. pose proof (read32_flat _ s Hg Ha) as Hr. rewrite Ew in Hr.
    destruct (rticap_reconspm_read32 (u32 (Z.shiftl i 2)) s) as [v s1]. destruct Hr as (-> & Hg1 & Ef & _).
    destruct (Z.eqb_spec (flat s i) (arr i)) as [E|E]; cbn [negb].
    + specialize (IH (i + 1) arr s1 Hg1 ltac:(lia) ltac:(lia)). destruct (test_check n (i + 1) arr s1) as [r s2].
      destruct IH as (Hg2 & Ef2 & Hr2 & Hiff). rewrite Ef in *. split_and!; [done|done|done|]. rewrite Hiff. split; intros H a Hr.
      * destruct (decide (a = i)) as [->|]; [done|]. apply H. lia.
      * apply H. lia.
    + split_and!; [done|done|by right|]. split; [done|]. intros H. by destruct E; apply H; lia.
Qed.

(** rticap_reconspm_test: without memory for the array it returns -2 and does
    not touch the scratchpad; with it, it passes on a scratchpad that works, of
    which every word then holds its random value. *)
Theorem reconspm_test_passes rand (s : driver) : good s ->
  rticap_reconspm_test false rand s = (-2, put_random None s) /\
  let '(r, s') := rticap_reconspm_test true rand s in
  r = 0 /\ random_array s' = None /\ good s' /\ forall a, 0 <= a < TEST_WORDS -> flat s' a = u32 (rand a).
Proof.
  intros Hg. split; [done|]. unfold rticap_reconspm_test. cbn [negb]. cbv zeta. set (arr := fun i => u32 (rand i)).
  assert (Hn : 0 + Z.of_nat (Z.to_nat TEST_WORDS) = TEST_WORDS) by (rewrite Z2Nat.id; unfold TEST_WORDS, BANK_NUMBER, BANK_WORD_SIZE; lia).
  destruct (test_write_flat (Z.to_nat TEST_WORDS) 0 arr (put_random (Some arr) (put_random None s)) Hg ltac:(lia) ltac:(lia)) as (Hg1 & _ & Hf).
  rewrite Hn in Hf. set (s1 := test_write _ _ _ _) in *.
  pose proof (test_check_flat (Z.to_nat TEST_WORDS) 0 arr s1 Hg1 ltac:(lia) ltac:(lia)) as Hc. rewrite Hn in Hc.
  destruct (test_check (Z.to_nat TEST_WORDS) 0 arr s1) as [r s2]. destruct Hc as (Hg2 & Ef & Hr & Hiff).
  assert (Hall : forall a, 0 <= a < TEST_WORDS -> flat s1 a = arr a) by (intros a Ha; rewrite Hf by lia; by rewrite decide_True).
  rewrite (proj2 Hiff Hall). cbn [Z.eqb]. split_and!; [done|done|done|]. intros a Ha. change (flat s2 a = arr a). rewrite Ef. by apply Hall.
Qed.
