(* ===== verification/CoreThread.v ===== *)
(** CoreThread: threads on other cores, libcorethread/corethread.c.

    - The master calls corethread_create and corethread_join; a thread ends
      with corethread_exit.  They meet in the entry of a core in boot_info,
      [slave_info] of Boot.v.
    - The loop that waits on the other cores for a thread is in the start-up
      code of the C library.  [worker_step] is that loop as a comment in
      corethread.c gives it; what a start routine passes to corethread_exit is
      the parameter [result].
    - [csys] is the state they share, [mpos] and [wpos] are the positions of the
      master and of a worker, one per access to it, and [step] are all
      interleavings.  The master runs a program, a list of calls. *)

From stdpp Require Import base numbers functions relations list.
From S2P Require Import Prelude Boot.

Definition EAGAIN := 1.
Inductive op := Create (core_id start_routine arg : Z) | Join (core_id : Z).
Definition op_core (o : op) : Z := match o with Create c _ _ | Join c => c end.

Inductive mpos := M_next | M_create2 | M_create3 | M_create4 | M_create5 | M_join2 | M_join3 (v : Z).
Inductive wpos :=
| W_idle | W_fn | W_ret (f : Z) | W_init (f : Z) | W_call (f : Z) | W_exit (v : Z) | W_return | W_fin | W_wait.
#[export] Instance mpos_eq_dec : EqDecision mpos.
Proof. solve_decision. Defined.
#[export] Instance wpos_eq_dec : EqDecision wpos.
Proof. solve_decision. Defined.

(** [prog] are the calls left, the first one under way; [results] what the
    calls before returned; [runs c] the calls of start routines on core [c]. *)
Record csys := mk_csys {
  info : Z -> slave_info; wk : Z -> wpos; prog : list op; mp : mpos; results : list Z; runs : Z -> list (Z * Z) }.

Definition on_info (c : Z) (g : slave_info -> slave_info) (s : csys) : csys :=
  mk_csys (<[c := g (info s c)]> (info s)) (wk s) (prog s) (mp s) (results s) (runs s).
Definition mgo (p : mpos) (s : csys) : csys := mk_csys (info s) (wk s) (prog s) p (results s) (runs s).
Definition wgo (c : Z) (p : wpos) (s : csys) : csys := mk_csys (info s) (<[c := p]> (wk s)) (prog s) (mp s) (results s) (runs s).
(** The call under way returns [v]. *)
Definition finish (v : Z) (s : csys) : csys := mk_csys (info s) (wk s) (tail (prog s)) M_next (results s ++ [v]) (runs s).
Definition set_param (v : Z) (x : slave_info) : slave_info := mk_slave (s_status x) (return_val x) v (funcpoint x).
Definition set_funcpoint (v : Z) (x : slave_info) : slave_info := mk_slave (s_status x) (return_val x) (param x) v.

Section CoreThread.
(** STATUS_INITDONE is a value that the boot loader does not use. *)
Context (initdone : Z) (result : Z -> Z -> Z -> Z).
Definition INITDONE := STATUS_OTHER initdone.

Definition create_step (c f a : Z) (s : csys) : csys :=
  match mp s with
  | M_next => if decide (s_status (info s c) = INITDONE) then finish EAGAIN s else mgo M_create2 s
  | M_create2 => if funcpoint (info s c) =? 0 then mgo M_create3 s else finish EAGAIN s
  | M_create3 => mgo M_create4 (on_info c (set_param a) s)
  | M_create4 => mgo M_create5 (on_info c (set_funcpoint f) s)
  | M_create5 => if decide (s_status (info s c) = INITDONE) then finish 0 s else s
  | _ => s
  end.
(** The delay between two looks at the status touches no shared state. *)
Definition join_step (c : Z) (s : csys) : csys :=
  match mp s with
  | M_next => if decide (s_status (info s c) = STATUS_RETURN) then mgo M_join2 s else s
  | M_join2 => mgo (M_join3 (return_val (info s c))) s
  | M_join3 v => finish v (on_info c (set_funcpoint 0) s)
  | _ => s
  end.
Definition master_step (s : csys) : csys :=
  match prog s with
  | [] => s
  | Create c f a :: _ => create_step c f a s
  | Join c :: _ => join_step c s
  end.

(** corethread_exit is the two writes from [W_exit] on. *)
Definition exit_value (c : Z) (v : Z) (s : csys) : csys := wgo c W_return (on_info c (set_return (s32 v)) s).
Definition exit_status (c : Z) (s : csys) : csys := wgo c W_fin (on_info c (set_status STATUS_RETURN) s).
Definition call_routine (c f p : Z) (s : csys) : csys :=
  wgo c (W_exit (result c f p)) (mk_csys (info s) (wk s) (prog s) (mp s) (results s) (<[c := runs s c ++ [(f, p)]]> (runs s))).
Definition worker_step (c : Z) (s : csys) : csys :=
  match wk s c with
  | W_idle => if funcpoint (info s c) =? 0 then s else wgo c W_fn s
  | W_fn => wgo c (W_ret (funcpoint (info s c))) s
  | W_ret f => wgo c (W_init f) (on_info c (set_return (-1)) s)
  | W_init f => wgo c (W_call f) (on_info c (set_status INITDONE) s)
  | W_call f => call_routine c f (param (info s c)) s
  | W_exit v => exit_value c v s
  | W_return => exit_status c s
  | W_fin => wgo c W_wait (on_info c (set_status STATUS_RETURN) s)
  | W_wait => if funcpoint (info s c) =? 0 then wgo c W_idle s else s
  end.
Definition step (s s' : csys) : Prop := s' = master_step s \/ exists c, s' = worker_step c s.

(** ** The calls in sequence *)

(** What the calls mean one after the other: the thread on a core that was
    not joined yet, the value of the last join, the threads created. *)
Record spec := mk_spec { busy : Z -> option (Z * Z); last : Z -> Z; created : Z -> list (Z * Z) }.
Definition value_of (sp : spec) (c : Z) : Z :=
  match busy sp c with Some (f, a) => s32 (result c f a) | None => last sp c end.
Definition spec_op (o : op) (sp : spec) : Z * spec :=
  match o with
  | Create c f a =>
      match busy sp c with
      | Some _ => (EAGAIN, sp)
      | None => (0, mk_spec (<[c := Some (f, a)]> (busy sp)) (last sp) (<[c := created sp c ++ [(f, a)]]> (created sp)))
      end
  | Join c => (value_of sp c, mk_spec (<[c := None]> (busy sp)) (<[c := value_of sp c]> (last sp)) (created sp))
  end.
Fixpoint spec_run (ops : list op) (sp : spec) : list Z * spec :=
  match ops with
  | [] => ([], sp)
  | o :: ops => let '(v, sp) := spec_op o sp in let '(l, sp) := spec_run ops sp in (v :: l, sp)
  end.
Lemma spec_run_snoc ops : forall sp o, spec_run (ops ++ [o]) sp =
  let '(l, sp1) := spec_run ops sp in let '(v, sp2) := spec_op o sp1 in (l ++ [v], sp2).
Proof.
  induction ops as [|x ops IH]; intros sp o; cbn [spec_run app].
  - by destruct (spec_op o sp).
  - destruct (spec_op x sp) as [v sp1]. rewrite IH. destruct (spec_run ops sp1) as [l sp2]. by destruct (spec_op o sp2).
Qed.

Lemma spec_run_length ops : forall sp, length (fst (spec_run ops sp)) = length ops.
Proof.
  induction ops as [|o ops IH]; intros sp; [done|]. cbn. destruct (spec_op o sp) as [v sp1]. specialize (IH sp1).
  destruct (spec_run ops sp1). cbn in *. by rewrite IH.
Qed.

(** The workers wait for a thread; the values in boot_info are arbitrary. *)
Definition started (p : list op) (s : csys) : Prop :=
  prog s = p /\ mp s = M_next /\ results s = [] /\
  forall c, s_status (info s c) = STATUS_RETURN /\ funcpoint (info s c) = 0 /\ wk s c = W_idle /\ runs s c = [].
Definition spec0 (s : csys) : spec := mk_spec (fun _ => None) (fun c => return_val (info s c)) (fun _ => []).

(** ** The invariant *)

Inductive phase := Free | Starting (f a : Z) | Busy (f a : Z).
Definition phase_of (sp : spec) (s : csys) (c : Z) : phase :=
  match busy sp c with
  | Some (f, a) => Busy f a
  | None =>
      match prog s, mp s with
      | Create c' f a :: _, M_create5 => if decide (c' = c) then Starting f a else Free
      | _, _ => Free
      end
  end.
(** Worker [c] by phase: [x] its entry, [w] its position, [r] the routines it
    called, [cr] the threads created before. *)
Definition worker_ok (ph : phase) (c lst : Z) (cr : list (Z * Z)) (x : slave_info) (w : wpos) (r : list (Z * Z)) : Prop :=
  match ph with
  | Free => funcpoint x = 0 /\ s_status x = STATUS_RETURN /\ return_val x = lst /\ r = cr /\
      match w with W_idle | W_fin | W_wait => True | _ => False end
  | Starting f a => funcpoint x = f /\ param x = a /\ f <> 0 /\
      match w with
      | W_idle | W_fn => s_status x = STATUS_RETURN /\ r = cr
      | W_ret f' | W_init f' => f' = f /\ s_status x = STATUS_RETURN /\ r = cr
      | W_call f' => f' = f /\ s_status x = INITDONE /\ r = cr
      | W_exit v => v = result c f a /\ s_status x = INITDONE /\ r = cr ++ [(f, a)]
      | W_return => return_val x = s32 (result c f a) /\ s_status x = INITDONE /\ r = cr ++ [(f, a)]
      | W_fin | W_wait => s_status x = STATUS_RETURN /\ (r = cr \/ r = cr ++ [(f, a)])
      end
  | Busy f a => funcpoint x = f /\ param x = a /\ f <> 0 /\
      match w with
      | W_call f' => f' = f /\ s_status x = INITDONE /\ r ++ [(f, a)] = cr
      | W_exit v => v = result c f a /\ s_status x = INITDONE /\ r = cr
      | W_return => return_val x = s32 (result c f a) /\ s_status x = INITDONE /\ r = cr
      | W_fin | W_wait => return_val x = s32 (result c f a) /\ s_status x = STATUS_RETURN /\ r = cr
      | _ => False
      end
  end.
Definition workers_ok (sp : spec) (s : csys) : Prop :=
  forall c, worker_ok (phase_of sp s c) c (last sp c) (created sp c) (info s c) (wk s c) (runs s c).
Definition master_ok (sp : spec) (s : csys) : Prop :=
  match prog s, mp s with
  | _, M_next | Create _ _ _ :: _, M_create2 => True
  | Create c _ _ :: _, (M_create3 | M_create5) => busy sp c = None
  | Create c _ a :: _, M_create4 => busy sp c = None /\ param (info s c) = a
  | Join c :: _, M_join2 => s_status (info s c) = STATUS_RETURN
  | Join c :: _, M_join3 v => s_status (info s c) = STATUS_RETURN /\ v = value_of sp c
  | _, _ => False
  end.

Definition nonnull (o : op) : Prop := match o with Create _ f _ => f <> 0 | Join _ => True end.
Definition Inv (p : list op) (s0 s : csys) : Prop :=
  exists ops sp, p = ops ++ prog s /\ spec_run ops (spec0 s0) = (results s, sp) /\ master_ok sp s /\ workers_ok sp s.

(** A worker's step changes its own entry and nothing of the master. *)
Lemma worker_frame c s : let s' := worker_step c s in
  prog s' = prog s /\ mp s' = mp s /\ results s' = results s /\
  (forall j, j <> c -> info s' j = info s j /\ wk s' j = wk s j /\ runs s' j = runs s j) /\
  param (info s' c) = param (info s c) /\ funcpoint (info s' c) = funcpoint (info s c).
Proof.
  unfold worker_step. destruct (wk s c) eqn:E; repeat case_match; cbn; rewrite ?fn_lookup_insert;
    (split_and!; [done|done|done| |done|done]; intros j Hj; rewrite ?fn_lookup_insert_ne by done; done).
Qed.
Ltac entry := cbn in *; rewrite ?fn_lookup_insert in *; cbn in *.
Lemma worker_ok_step ph c lst cr s : worker_ok ph c lst cr (info s c) (wk s c) (runs s c) ->
  let s' := worker_step c s in worker_ok ph c lst cr (info s' c) (wk s' c) (runs s' c).
Proof.
  unfold worker_step. intros Hw. destruct (wk s c) eqn:E; repeat case_match; entry; rewrite ?E;
    unfold worker_ok in *; destruct ph; entry; try lia; try tauto; try naive_solver.
Qed.
Lemma worker_keeps_return ph c lst cr s : worker_ok ph c lst cr (info s c) (wk s c) (runs s c) ->
  match ph with Starting _ _ => False | _ => True end ->
  s_status (info s c) = STATUS_RETURN -> s_status (info (worker_step c s) c) = STATUS_RETURN.
Proof.
  unfold worker_step. intros Hw Hp Hr. destruct (wk s c) eqn:E; repeat case_match; entry; try done;
    unfold worker_ok in Hw; destruct ph; try done; naive_solver.
Qed.

Lemma phase_same sp s s' c : prog s' = prog s -> mp s' = mp s -> phase_of sp s' c = phase_of sp s c.
Proof. intros Ep Em. unfold phase_of. by rewrite Ep, Em. Qed.
Lemma phase_quiet sp s c : mp s <> M_create5 -> match phase_of sp s c with Starting _ _ => False | _ => True end.
Proof. intros Hm. unfold phase_of. repeat case_match; try done; congruence. Qed.

Lemma worker_step_inv p s0 s c : Inv p s0 s -> Inv p s0 (worker_step c s).
Proof.
  intros (ops & sp & Ep & Es & HM & HW). exists ops, sp. destruct (worker_frame c s) as (E1 & E2 & E3 & Ej & Epar & Efp).
  rewrite E1, E3. split_and!; [done|done| |].
  - assert (Hs : forall j, mp s <> M_create5 -> s_status (info s j) = STATUS_RETURN -> s_status (info (worker_step c s) j) = STATUS_RETURN).
    { intros j Hm Hr. destruct (decide (j = c)) as [->|Hj]; [|by destruct (Ej j Hj) as (-> & _)].
      eapply worker_keeps_return; [apply HW|by apply phase_quiet|done]. }
    assert (Hp : forall j, param (info (worker_step c s) j) = param (info s j)).
    { intros j. destruct (decide (j = c)) as [->|Hj]; [done|by destruct (Ej j Hj) as (-> & _)]. }
    unfold master_ok in *. rewrite E1, E2. destruct (prog s) as [|[] ?], (mp s) eqn:Em; rewrite ?Hp; try done.
    + apply Hs; done.
    + destruct HM. split; [by apply Hs|done].
  - intros j. rewrite (phase_same sp s _ j E1 E2). destruct (decide (j = c)) as [->|Hj]; [by apply worker_ok_step|].
    destruct (Ej j Hj) as (-> & -> & ->). apply HW.
Qed.

(** The phases as long as no thread is being started. *)
Lemma phase_busy sp s c : mp s <> M_create5 -> phase_of sp s c = match busy sp c with Some (f, a) => Busy f a | None => Free end.
Proof. intros Hm. unfold phase_of. repeat case_match; try done; congruence. Qed.
Lemma move_inv p s0 s q ops sp : mp s <> M_create5 -> q <> M_create5 ->
  p = ops ++ prog s -> spec_run ops (spec0 s0) = (results s, sp) -> workers_ok sp s -> master_ok sp (mgo q s) -> Inv p s0 (mgo q s).
Proof.
  intros Hm Hq Ep Es HW HM. exists ops, sp. split_and!; [done|done|done|]. intros c. rewrite phase_busy by done. specialize (HW c). by rewrite phase_busy in HW.
Qed.
Lemma finish_inv p s0 s o rest v ops sp sp' : prog s = o :: rest -> p = ops ++ prog s -> spec_run ops (spec0 s0) = (results s, sp) ->
  spec_op o sp = (v, sp') ->
  (forall c, worker_ok (match busy sp' c with Some (f, a) => Busy f a | None => Free end) c (last sp' c) (created sp' c) (info s c) (wk s c) (runs s c)) ->
  Inv p s0 (finish v s).
Proof.
  intros Eo Ep Es Ev HW. exists (ops ++ [o]), sp'. unfold finish. cbn [prog results info wk runs mp]. split_and!.
  - rewrite Ep, Eo. cbn. by rewrite <- app_assoc.
  - rewrite spec_run_snoc, Es, Ev. done.
  - unfold master_ok. cbn. by destruct (tail (prog s)) as [|[] ?].
  - intros c. rewrite phase_busy by done. apply HW.
Qed.

Lemma create_inv p s0 s c f a rest ops sp : prog s = Create c f a :: rest -> f <> 0 ->
  p = ops ++ prog s -> spec_run ops (spec0 s0) = (results s, sp) -> master_ok sp s -> workers_ok sp s -> Inv p s0 (create_step c f a s).
Proof.
  intros Eo Hf Ep Es HM HW. pose proof HM as HM'. unfold master_ok in HM'. rewrite Eo in HM'. unfold create_step.
  assert (Hb : mp s <> M_create5 -> busy sp c <> None -> Inv p s0 (finish EAGAIN s)).
  { intros Hm Hb. eapply (finish_inv _ _ _ _ _ _ ops sp sp); [done|done|done|cbn; by destruct (busy sp c)|].
    intros j. specialize (HW j). by rewrite phase_busy in HW. }
  assert (Hc : mp s <> M_create5 -> busy sp c = None -> worker_ok Free c (last sp c) (created sp c) (info s c) (wk s c) (runs s c)).
  { intros Hm E. specialize (HW c). by rewrite phase_busy, E in HW. }
  destruct (mp s) eqn:Em; try done.
  - case_decide as Ed; [|by eapply move_inv; rewrite ?Em; try done; unfold master_ok; cbn; rewrite Eo].
    apply Hb; [done|]. intros E. destruct (Hc ltac:(done) E) as (_ & Er & _). by rewrite Er in Ed.
  - destruct (Z.eqb_spec (funcpoint (info s c)) 0) as [E0|E0].
    + eapply move_inv; rewrite ?Em; try done. unfold master_ok. cbn. rewrite Eo. destruct (busy sp c) as [[f' a']|] eqn:E; [|done].
      specialize (HW c). rewrite phase_busy, E in HW by congruence. destruct HW as (? & _ & ? & _). congruence.
    + apply Hb; [done|]. intros E. by destruct (Hc ltac:(done) E).
  - eapply (move_inv _ _ (on_info c (set_param a) s) _ ops sp); try done; [by cbn; rewrite Em| |].
    + intros j. rewrite phase_busy by (cbn; congruence). specialize (HW j). rewrite phase_busy in HW by congruence. cbn.
      destruct (decide (c = j)) as [->|Hj]; [|by rewrite fn_lookup_insert_ne]. rewrite fn_lookup_insert. by rewrite HM' in *.
    + unfold master_ok. cbn. rewrite Eo, fn_lookup_insert. done.
  - destruct HM' as [HM' Epar]. exists ops, sp. split_and!; [done|done|unfold master_ok; cbn; by rewrite Eo|].
    intros j. unfold phase_of. cbn. rewrite Eo. specialize (HW j). rewrite phase_busy in HW by congruence. case_decide as Ej.
    + subst j. rewrite HM' in *. rewrite fn_lookup_insert. unfold worker_ok in *. cbn. destruct HW as (H1 & H2 & H3 & H4 & H5).
      split_and!; try done. destruct (wk s c); try done; auto.
    + rewrite fn_lookup_insert_ne by done. by destruct (busy sp j) as [[]|].
  - case_decide as Ed; [|by exists ops, sp].
    eapply (finish_inv _ _ _ _ _ _ ops sp); [done|done|done|cbn; by rewrite HM'|]. intros j. cbn [busy last created]. specialize (HW j).
    unfold phase_of in HW. rewrite Eo, Em in HW. destruct (decide (c = j)) as [->|Hj].
    + rewrite !fn_lookup_insert. rewrite HM' in HW. unfold worker_ok in *. destruct HW as (H1 & H2 & H3 & H4). split_and!; try done.
      rewrite Ed in *. destruct (wk s j); destruct_and?; subst; done || (split_and!; congruence).
    + rewrite !fn_lookup_insert_ne by done. by destruct (busy sp j) as [[]|].
Qed.

Lemma join_inv p s0 s c rest ops sp : prog s = Join c :: rest ->
  p = ops ++ prog s -> spec_run ops (spec0 s0) = (results s, sp) -> master_ok sp s -> workers_ok sp s -> Inv p s0 (join_step c s).
Proof.
  intros Eo Ep Es HM HW. pose proof HM as HM'. unfold master_ok in HM'. rewrite Eo in HM'. unfold join_step.
  assert (Hv : mp s <> M_create5 -> s_status (info s c) = STATUS_RETURN -> return_val (info s c) = value_of sp c).
  { intros Hm Er. specialize (HW c). rewrite phase_busy in HW by done. unfold value_of. destruct (busy sp c) as [[f a]|]; cbn in HW; [|naive_solver].
    rewrite Er in HW. destruct HW as (_ & _ & _ & H). destruct (wk s c); destruct_and?; done. }
  destruct (mp s) eqn:Em; try done.
  - case_decide as Ed; [|by exists ops, sp]. eapply move_inv; rewrite ?Em; try done. unfold master_ok. cbn. by rewrite Eo.
  - eapply move_inv; rewrite ?Em; try done. unfold master_ok. cbn. rewrite Eo. split; [done|]. by apply Hv.
  - destruct HM' as [Er ->]. specialize (Hv ltac:(congruence) Er).
    eapply (finish_inv p s0 (on_info c (set_funcpoint 0) s) _ _ _ ops sp); [done|done|done|done|]. intros j. cbn [busy last created on_info info wk runs].
    specialize (HW j). rewrite phase_busy in HW by congruence. destruct (decide (c = j)) as [->|Hj].
    + rewrite !fn_lookup_insert. unfold worker_ok. cbn. rewrite Er. split_and!; try done.
      all: destruct (busy sp j) as [[f a]|]; cbn in HW; rewrite ?Er in HW; destruct_and?; destruct (wk s j); destruct_and?; done.
    + rewrite !fn_lookup_insert_ne by done. done.
Qed.

Lemma ct_step_inv p s0 s s' : Forall nonnull p -> Inv p s0 s -> step s s' -> Inv p s0 s'.
Proof.
  intros Hp HI [-> |[c ->]]; [|by apply worker_step_inv]. pose proof HI as (ops & sp & Ep & Es & HM & HW). unfold master_step.
  destruct (prog s) as [|[c f a|c] rest] eqn:Eo; [done| |]; rewrite <- Eo in Ep.
  - eapply create_inv; try done. subst p. apply Forall_app in Hp as [_ Hp]. rewrite Eo in Hp. by apply Forall_inv in Hp.
  - by eapply join_inv.
Qed.
Lemma ct_started_inv p s : started p s -> Inv p s s.
Proof.
  intros (Ep & Em & Er & Hc). exists [], (spec0 s). split_and!; [done|by rewrite Er|unfold master_ok; rewrite Em; by destruct (prog s) as [|[] ?]|].
  intros c. rewrite phase_busy by congruence. cbn. destruct (Hc c) as (E1 & E2 & E3 & E4). by rewrite E1, E2, E3, E4.
Qed.
Lemma ct_reach_inv p s0 s : Forall nonnull p -> started p s0 -> rtc step s0 s -> Inv p s0 s.
Proof.
  intros Hp H0 Hr. assert (G : forall s1, rtc step s1 s -> Inv p s0 s1 -> Inv p s0 s) by (induction 1; eauto using ct_step_inv).
  apply (G s0); [done|by apply ct_started_inv].
Qed.

(** C7: threads on other cores behave as calls made one after the other.  In
    every interleaving of the master with the workers:
    - the calls that have returned returned what they do in sequence: create
      gives 0, or EAGAIN for a core whose thread was not joined, and join gives
      the value that this thread passed to corethread_exit;
    - between two calls, the start routines called on a core are the threads
      created there, once each and with their argument, in order; only the
      last one may still be to be called, when it was not joined. *)
Theorem corethread_refines p s0 s : Forall nonnull p -> started p s0 -> rtc step s0 s ->
  exists ops sp, p = ops ++ prog s /\ spec_run ops (spec0 s0) = (results s, sp) /\
    (mp s = M_next -> forall c,
       match busy sp c with
       | None => runs s c = created sp c
       | Some x => runs s c = created sp c \/ runs s c ++ [x] = created sp c
       end).
Proof.
  intros Hp H0 Hr. destruct (ct_reach_inv p s0 s Hp H0 Hr) as (ops & sp & Ep & Es & HM & HW). exists ops, sp. split_and!; [done|done|].
  intros Em c. specialize (HW c). rewrite phase_busy in HW by congruence. destruct (busy sp c) as [[f a]|]; cbn in HW; [|by destruct_and!].
  destruct HW as (_ & _ & _ & H). destruct (wk s c); destruct_and?; auto; done.
Qed.

(** ** Progress *)

(** What create relies on, for the next step of the master and of worker
    [c]: the routine runs long enough for create to see STATUS_INITDONE, and a
    worker has seen that its last thread was joined before the next one is
    created there. *)
Definition timely_master (s : csys) : Prop :=
  match prog s, mp s with Create c _ _ :: _, M_create4 => wk s c = W_idle | _, _ => True end.
Definition timely_worker (c : Z) (s : csys) : Prop :=
  match prog s, mp s, wk s c with Create c' _ _ :: _, M_create5, W_return => c' <> c | _, _, _ => True end.
Definition tstep (s s' : csys) : Prop :=
  (timely_master s /\ s' = master_step s) \/ exists c, timely_worker c s /\ s' = worker_step c s.
Lemma tstep_step s s' : tstep s s' -> step s s'.
Proof. intros [[_ H]|(c & _ & H)]; [by left|right; by exists c]. Qed.

(** While create waits, the worker has not come to the end of its loop. *)
Definition waiting_ok (s : csys) : Prop :=
  match prog s, mp s with Create c _ _ :: _, M_create5 => wk s c <> W_fin /\ wk s c <> W_wait | _, _ => True end.
Lemma tstep_waiting s s' : waiting_ok s -> tstep s s' -> waiting_ok s'.
Proof.
  intros Hw [[Ht ->]|(c & Ht & ->)].
  - unfold waiting_ok, timely_master, master_step, create_step, join_step in *.
    destruct (prog s) as [|[c f a|c] rest] eqn:Ep, (mp s) eqn:Em; rewrite ?Ep, ?Em; try done;
      repeat case_match; cbn in *; rewrite ?Ep, ?Em in *; simplify_eq; try done; by rewrite Ht.
  - destruct (worker_frame c s) as (E1 & E2 & _ & Ej & _). unfold waiting_ok, timely_worker in *. rewrite E1, E2.
    destruct (prog s) as [|[c' f a|c'] rest], (mp s); try done. destruct (decide (c' = c)) as [->|Hc]; [|by destruct (Ej c' Hc) as (_ & -> & _)].
    unfold worker_step. destruct (wk s c) eqn:E; repeat case_match; cbn; rewrite ?fn_lookup_insert, ?E; naive_solver.
Qed.

Definition mrank (s : csys) : Z :=
  10 * Z.of_nat (length (prog s)) +
  match mp s with M_next => 9 | M_create2 | M_join2 => 8 | M_create3 | M_join3 _ => 7 | M_create4 => 6 | M_create5 => 5 end.
(** How far the worker is from where the master needs it. *)
Definition wneed (s : csys) : Z :=
  match prog s, mp s with
  | Create c _ _ :: _, M_create4 => match wk s c with W_fin => 2 | W_wait => 1 | _ => 0 end
  | Create c _ _ :: _, M_create5 => match wk s c with W_idle => 4 | W_fn => 3 | W_ret _ => 2 | W_init _ => 1 | _ => 0 end
  | Join c :: _, M_next => match wk s c with W_call _ => 3 | W_exit _ => 2 | W_return => 1 | _ => 0 end
  | _, _ => 0
  end.
Definition measure (s : csys) : Z := 10 * mrank s + wneed s.
Lemma wneed_range s : 0 <= wneed s <= 4.
Proof. unfold wneed. repeat case_match; lia. Qed.
Lemma ct_measure_nonneg s : 0 <= measure s.
Proof. unfold measure, mrank. pose proof (wneed_range s). destruct (mp s); lia. Qed.

Lemma master_leads s : timely_master s -> mrank (master_step s) < mrank s -> exists s', tstep s s' /\ measure s' < measure s.
Proof.
  intros Ht Hr. exists (master_step s). split; [left; done|]. unfold measure. pose proof (wneed_range s). pose proof (wneed_range (master_step s)). lia.
Qed.
Lemma worker_leads s c : timely_worker c s -> wneed (worker_step c s) < wneed s -> exists s', tstep s s' /\ measure s' < measure s.
Proof.
  intros Ht Hr. exists (worker_step c s). split; [right; by exists c|]. unfold measure, mrank.
  destruct (worker_frame c s) as (-> & -> & _). lia.
Qed.
Lemma finish_rank v s : prog s <> [] -> mrank (finish v s) < mrank s.
Proof. intros Hp. unfold mrank, finish. cbn. destruct (prog s); [done|]. cbn [tail length]. destruct (mp s); lia. Qed.

Lemma create_progress p s0 s c f a rest : Inv p s0 s -> waiting_ok s -> prog s = Create c f a :: rest ->
  exists s', tstep s s' /\ measure s' < measure s.
Proof.
  intros (ops & sp & _ & _ & HM & HW) Hw Ep. specialize (HW c). unfold master_ok in HM. unfold waiting_ok in Hw. rewrite Ep in HM, Hw.
  assert (Hfin : forall v, mrank (finish v s) < mrank s) by (intros v; apply finish_rank; by rewrite Ep).
  assert (Hmove : mp s <> M_create4 -> mrank (create_step c f a s) < mrank s -> exists s', tstep s s' /\ measure s' < measure s).
  { intros Hm Hr. apply master_leads; [unfold timely_master; rewrite Ep; by destruct (mp s)|unfold master_step; by rewrite Ep]. }
  destruct (mp s) eqn:Em; try done.
  - apply Hmove; [done|]. unfold create_step. rewrite Em. case_decide; [done|]. unfold mrank. cbn. rewrite Em. lia.
  - apply Hmove; [done|]. unfold create_step. rewrite Em. case_match; [|done]. unfold mrank. cbn. rewrite Em. lia.
  - apply Hmove; [done|]. unfold create_step. rewrite Em. unfold mrank. cbn. rewrite Em. lia.
  - destruct HM as [Eb _]. rewrite phase_busy, Eb in HW by congruence. destruct HW as (Ef & _ & _ & _ & Hk).
    destruct (wk s c) eqn:Ew; try done.
    + apply master_leads; [unfold timely_master; by rewrite Ep, Em|]. unfold master_step, create_step. rewrite Ep, Em. unfold mrank. cbn. rewrite Em. lia.
    + apply (worker_leads s c); [unfold timely_worker; by rewrite Ep, Em|]. unfold worker_step, wneed. rewrite Ew. cbn. rewrite Ep, Em, fn_lookup_insert, Ew. lia.
    + apply (worker_leads s c); [unfold timely_worker; by rewrite Ep, Em|]. unfold worker_step. rewrite Ew, Ef. unfold wneed. cbn. rewrite Ep, Em, fn_lookup_insert, Ew. lia.
  - unfold phase_of in HW. rewrite HM, Ep, Em, decide_True in HW by done. destruct HW as (Ef & _ & Hf & Hk).
    assert (Hdone : s_status (info s c) = INITDONE -> exists s', tstep s s' /\ measure s' < measure s).
    { intros E. apply Hmove; [done|]. unfold create_step. by rewrite Em, decide_True. }
    assert (Hwork : match wk s c with W_idle | W_fn | W_ret _ | W_init _ => True | _ => False end -> exists s', tstep s s' /\ measure s' < measure s).
    { intros H. apply (worker_leads s c); [unfold timely_worker; rewrite Ep, Em; by destruct (wk s c)|].
      unfold worker_step. destruct (wk s c) eqn:Ew; try done; rewrite ?Ef, ?(proj2 (Z.eqb_neq f 0) Hf); unfold wneed; cbn; rewrite Ep, Em, fn_lookup_insert, Ew; lia. }
    destruct (wk s c); destruct_and?; auto; done.
Qed.
Lemma join_progress p s0 s c rest : Inv p s0 s -> prog s = Join c :: rest -> exists s', tstep s s' /\ measure s' < measure s.
Proof.
  intros (ops & sp & _ & _ & HM & HW) Ep. specialize (HW c). unfold master_ok in HM. rewrite Ep in HM.
  assert (Hmove : mrank (join_step c s) < mrank s -> exists s', tstep s s' /\ measure s' < measure s).
  { intros Hr. apply master_leads; [unfold timely_master; by rewrite Ep|unfold master_step; by rewrite Ep]. }
  destruct (mp s) eqn:Em; try done.
  - rewrite phase_busy in HW by congruence.
    assert (Hret : s_status (info s c) = STATUS_RETURN -> exists s', tstep s s' /\ measure s' < measure s).
    { intros E. apply Hmove. unfold join_step. rewrite Em, decide_True by done. unfold mrank. cbn. rewrite Em. lia. }
    destruct (busy sp c) as [[f a]|]; cbn in HW; [|destruct_and?; auto]. destruct HW as (_ & _ & _ & Hk).
    assert (Hwork : match wk s c with W_call _ | W_exit _ | W_return => True | _ => False end -> exists s', tstep s s' /\ measure s' < measure s).
    { intros H. apply (worker_leads s c); [unfold timely_worker; by rewrite Ep|].
      unfold worker_step. destruct (wk s c) eqn:Ew; try done; unfold wneed; cbn; rewrite Ep, Em, fn_lookup_insert, Ew; lia. }
    destruct (wk s c); destruct_and?; auto; done.
  - apply Hmove. unfold join_step. rewrite Em. unfold mrank. cbn. rewrite Em. lia.
  - apply Hmove. unfold join_step. rewrite Em. pose proof (finish_rank v (on_info c (set_funcpoint 0) s) ltac:(cbn; by rewrite Ep)) as H.
    unfold mrank in *. cbn in *. rewrite Em in *. lia.
Qed.

(** C18: the master is not held up for ever.  Under the assumptions on time
    ([timely_master] and [timely_worker]), from every state the cores can reach there is a
    continuation in which all calls of the master return and its program
    ends. *)
Theorem corethread_completes p s0 s : Forall nonnull p -> started p s0 -> rtc tstep s0 s ->
  exists s', rtc tstep s s' /\ prog s' = [] /\ length (results s') = length p.
Proof.
  intros Hp H0 Hr.
  assert (HI : Inv p s0 s /\ waiting_ok s).
  { split.
    - apply (ct_reach_inv p s0 s Hp H0). exact (rtc_subrel _ _ _ _ tstep_step Hr).
    - assert (G : waiting_ok s0) by (destruct H0 as (_ & Em & _); unfold waiting_ok; rewrite Em; by destruct (prog s0) as [|[] ?]).
      clear H0. induction Hr; eauto using tstep_waiting. }
  clear Hr. destruct HI as [HI Hw]. remember (Z.to_nat (measure s)) as n eqn:En. revert s En HI Hw.
  induction (lt_wf n) as [n _ IH]. intros s -> HI Hw. destruct (prog s) as [|o rest] eqn:Ep.
  - exists s. split_and!; [done|done|]. destruct HI as (ops & sp & E & Es & _). rewrite Ep, app_nil_r in E. subst ops.
    pose proof (spec_run_length p (spec0 s0)) as Hl. by rewrite Es in Hl.
  - assert (exists s', tstep s s' /\ measure s' < measure s) as (s1 & Hs & Hm)
      by (destruct o as [c f a|c]; [by eapply create_progress|by eapply join_progress]).
    pose proof (ct_measure_nonneg s1).
    destruct (IH (Z.to_nat (measure s1)) ltac:(lia) s1 eq_refl (ct_step_inv p s0 s s1 Hp HI (tstep_step _ _ Hs)) (tstep_waiting s s1 Hw Hs)) as (s' & Hr & H').
    exists s'. split; [by eapply rtc_l|done].
Qed.

End CoreThread.

(** ** Runs *)

Section Run.
Context (initdone : Z) (result : Z -> Z -> Z -> Z).
Notation tstep := (tstep initdone result).
Notation step := (step initdone result).

(** The master (-1) and the workers take their steps in the order of a list. *)
Definition one_step (c : Z) (s : csys) : csys := if c =? -1 then master_step initdone s else worker_step initdone result c s.
Fixpoint run (l : list Z) (s : csys) : csys := match l with [] => s | c :: l => run l (one_step c s) end.
Lemma ct_run_rtc l : forall s, rtc step s (run l s).
Proof.
  induction l as [|c l IH]; intros s; [done|]. eapply rtc_l; [|apply IH]. unfold one_step.
  destruct (c =? -1); [by left|right; by exists c].
Qed.
Definition timelyb (c : Z) (s : csys) : bool :=
  match prog s, mp s with
  | Create c' _ _ :: _, M_create4 => negb (c =? -1) || bool_decide (wk s c' = W_idle)
  | Create c' _ _ :: _, M_create5 => (c =? -1) || negb (bool_decide (wk s c = W_return)) || negb (c' =? c)
  | _, _ => true
  end.
Fixpoint timely_run (l : list Z) (s : csys) : bool :=
  match l with [] => true | c :: l => timelyb c s && timely_run l (one_step c s) end.
Lemma timelyb_ok c s : timelyb c s = true -> if c =? -1 then timely_master s else timely_worker c s.
Proof.
  unfold timelyb, timely_master, timely_worker. destruct (Z.eqb_spec c (-1)) as [->|Hc];
    destruct (prog s) as [|[c' f a|c'] rest], (mp s); cbn; try done; intros H; try by destruct (wk s c).
  - by apply bool_decide_eq_true in H.
  - destruct (wk s c); try done. cbn in H. by destruct (Z.eqb_spec c' c).
Qed.
Lemma ct_timely_run_rtc l : forall s, timely_run l s = true -> rtc tstep s (run l s).
Proof.
  induction l as [|c l IH]; intros s H; [done|]. cbn in H. apply andb_true_iff in H as [H1 H2]. eapply rtc_l; [|by apply IH].
  apply timelyb_ok in H1. unfold one_step. destruct (c =? -1); [by left|right; by exists c].
Qed.
End Run.

(** A thread on core 1 and one on core 2, and a second one on core 1. *)
Definition prog3 : list op := [Create 1 100 7; Create 2 200 8; Create 1 100 9; Join 1; Join 2].
Definition idle (p : list op) : csys :=
  mk_csys (fun _ => mk_slave STATUS_RETURN (-1) 0 0) (fun _ => W_idle) p M_next [] (fun _ => []).
Lemma idle_started p : started p (idle p).
Proof. by split_and!. Qed.
Definition sum3 (c f a : Z) : Z := c + f + a.
Definition rep (n : nat) (c : Z) : list Z := repeat c n.
Definition order3 : list Z :=
  rep 5 (-1) ++ rep 4 1 ++ rep 4 (-1) ++ rep 1 (-1) ++ rep 4 2 ++ rep 2 (-1) ++ rep 3 1 ++ rep 3 2 ++ rep 2 (-1) ++ rep 3 1 ++ rep 5 (-1).

Lemma corethread_refines_witness :
  let s := run 7 sum3 (order3 ++ rep 4 (-1)) (idle prog3) in
  prog s = [] /\ results s = [0; 0; EAGAIN; 108; 210] /\
  exists ops sp, prog3 = ops ++ prog s /\ spec_run sum3 ops (spec0 (idle prog3)) = (results s, sp) /\ runs s 1 = created sp 1.
Proof.
  intros s. destruct (corethread_refines 7 sum3 prog3 (idle prog3) s) as (ops & sp & E1 & E2 & E3).
  - repeat constructor; discriminate.
  - apply idle_started.
  - apply ct_run_rtc.
  - split_and!; [vm_compute; reflexivity|vm_compute; reflexivity|]. exists ops, sp. split_and!; [exact E1|exact E2|].
    assert (Ep : prog s = []) by (vm_compute; reflexivity). rewrite Ep, app_nil_r in E1. subst ops.
    vm_compute in E2. injection E2 as <-. vm_compute. reflexivity.
Defined.
Lemma corethread_completes_witness :
  let s := run 7 sum3 order3 (idle prog3) in
  exists s', rtc (tstep 7 sum3) s s' /\ prog s' = [] /\ length (results s') = 5%nat.
Proof.
  intros s. apply (corethread_completes 7 sum3 prog3 (idle prog3) s).
  - repeat constructor; discriminate.
  - apply idle_started.
  - apply ct_timely_run_rtc. vm_compute. reflexivity.
Defined.

(** ** Without the assumptions *)

(** The master waits in create and the worker at the end of its loop. *)
Definition stuck (s : csys) : Prop :=
  mp s = M_create5 /\ (exists f a rest, prog s = Create 1 f a :: rest) /\
  wk s 1 = W_wait /\ s_status (info s 1) = STATUS_RETURN /\ funcpoint (info s 1) <> 0.
Lemma stuck_step initdone result s s' : stuck s -> step initdone result s s' -> stuck s'.
Proof.
  intros (Em & (f & a & rest & Ep) & Ew & Es & Ef) [-> |[c ->]].
  - unfold master_step, create_step. rewrite Ep, Em, decide_False by (by rewrite Es). unfold stuck. by eauto 10.
  - destruct (worker_frame initdone result c s) as (E1 & E2 & _ & Ej & _). unfold stuck. rewrite E1, E2.
    destruct (decide (1 = c)) as [<-|Hc]; [|destruct (Ej 1 Hc) as (-> & -> & _); by eauto 10].
    unfold worker_step. rewrite Ew, (proj2 (Z.eqb_neq _ _) Ef). by eauto 10.
Qed.

(** Both assumptions are needed.  A routine that ends before create looks at
    the status, and a second create before the worker has seen the join, leave
    the master and the worker waiting for each other for ever. *)
Theorem corethread_races_hang :
  (exists s, rtc (step 5 sum3) (idle [Create 1 100 7]) s /\ forall s', rtc (step 5 sum3) s s' -> mp s' = M_create5) /\
  (exists s, rtc (step 5 sum3) (idle [Create 1 100 7; Join 1; Create 1 100 9]) s /\ results s = [0; 108] /\
     forall s', rtc (step 5 sum3) s s' -> mp s' = M_create5).
Proof.
  assert (G : forall s s', stuck s -> rtc (step 5 sum3) s s' -> mp s' = M_create5).
  { intros s s' Hs Hr. induction Hr as [s|s s1 s' H1 _ IH]; [by destruct Hs|]. apply IH. by eapply stuck_step. }
  split; [exists (run 5 sum3 (rep 4 (-1) ++ rep 8 1) (idle [Create 1 100 7]))
         |exists (run 5 sum3 (rep 4 (-1) ++ rep 4 1 ++ rep 1 (-1) ++ rep 4 1 ++ rep 7 (-1)) (idle [Create 1 100 7; Join 1; Create 1 100 9]))];
    (split; [apply ct_run_rtc|]); [|split; [vm_compute; reflexivity|]]; intros s'; apply G; unfold stuck.
  all: split_and!; try (vm_compute; reflexivity); try (vm_compute; discriminate); do 3 eexists; vm_compute; reflexivity.
Qed.
