(* ===== verification/BootEth.v ===== *)
(** BootEth: the download of the boot loader over Ethernet,
    bootloader/ethmac.c, which boot.h can select in place of the serial line.

    The functions run on the state of ethlib (World.v); [boot_eth] are the
    file's own variables.  Loops have fuel, the waits of ethlib have their
    polls. *)

From stdpp Require Import base numbers list gmap.
From S2P Require Import Prelude EthIO World EthMac Mac Checksum Ipv4 Arp Udp.
Open Scope eth_scope.

Definition RX_ADDR := 0x000.
Definition TX_ADDR := 0x800.
Definition ARP_ADDR := 0xc00.
Definition TARGET_PORT := 8888.
Definition HOST_PORT := 8889.

(** The values of the enumeration in mac.h. *)
Definition eth_protocol_value (p : eth_protocol) : Z :=
  match p with
  | TIMEOUT => -1 | UNSUPPORTED => 0 | IP => 1 | ICMP => 2 | UDP => 3 | TCP => 4 | PTP => 5 | ARP => 6 | LLDP => 7
  | MDNS => 8 | TTE_PCF => 9 | TTE_MSG => 10 | INTERNOC_MSG => 11
  end.

Record boot_eth := mk_boot_eth { host_ip : list Z; available : Z; read_offset : Z }.

Section BootEth.
Context `{EthDev}.

Definition set_my_mac (mac : list Z) (w : world) : world :=
  mk_world _ (w_mem w) (w_dev w) (w_arp_table w) mac (w_my_ip w) (w_ipv4_id w).

Definition ethmac_init (g : boot_eth) : M boot_eth :=
  eth_mac_initialize ;;
  modify (fun w => set_arp_table (arp_table_init (w_arp_table w)) w) ;;
  modify (set_my_mac [0x00; 0xFF; 0xEE; 0xF0; 0xDA; 0x42]) ;;
  modify (set_my_ip [192; 168; 24; 50]) ;;
  ret (mk_boot_eth (host_ip g) 0 0).

(** What the loop does with the frame it received. *)
Definition handle_frame (fuel : nat) (g : boot_eth) : M boot_eth :=
  m <- gets w_mem ;;
  let packet_type := u8 (eth_protocol_value (mac_packet_type m RX_ADDR)) in
  let g :=
    if packet_type =? 2 then
      if (udp_get_source_port m RX_ADDR =? HOST_PORT) && (udp_get_destination_port m RX_ADDR =? TARGET_PORT) then
        mk_boot_eth (ipv4_get_source_ip m RX_ADDR) (udp_get_data_length m RX_ADDR) 0
      else g
    else g in
  if packet_type =? 3 then arp_process_received fuel RX_ADDR TX_ADDR ;; ret g else ret g.

Fixpoint get_loop (n fuel : nat) (g : boot_eth) : M boot_eth :=
  if negb (available g =? 0) then ret g
  else
    match n with
    | O => spin
    | S n' => eth_mac_receive fuel RX_ADDR 0 ;; g <- handle_frame fuel g ;; get_loop n' fuel g
    end.

Definition ethmac_get_byte (n fuel : nat) (g : boot_eth) : M (Z * boot_eth) :=
  g <- get_loop n fuel g ;;
  c <- rdb (RX_ADDR + 42 + read_offset g) ;;
  ret (u8 c, mk_boot_eth (host_ip g) (available g - 1) (read_offset g + 1)).

Definition ethmac_put_byte (n fuel : nat) (c : Z) (g : boot_eth) : M Z :=
  udp_send n fuel TX_ADDR ARP_ADDR (host_ip g) TARGET_PORT HOST_PORT [u8 c] 1 10000.

(** ** Reading a packet *)

Fixpoint get_bytes (k n fuel : nat) (g : boot_eth) : M (list Z * boot_eth) :=
  match k with
  | O => ret ([], g)
  | S k' => r <- ethmac_get_byte n fuel g ;; l <- get_bytes k' n fuel (snd r) ;; ret (fst r :: fst l, snd l)
  end.

(** As long as the packet has bytes, calls deliver them in order and touch
    nothing else. *)
Theorem packet_bytes k : forall n fuel g w, Z.of_nat k <= available g ->
  get_bytes k n fuel g w =
    Some ((read_bytes (w_mem w) (RX_ADDR + 42 + read_offset g) (Z.of_nat k),
           mk_boot_eth (host_ip g) (available g - Z.of_nat k) (read_offset g + Z.of_nat k)), w).
Proof.
  induction k as [|k IH]; intros n fuel g w Hk.
  - cbn [get_bytes]. unfold ret. destruct g. cbn. by rewrite Z.sub_0_r, Z.add_0_r.
  - cbn [get_bytes]. unfold ethmac_get_byte. destruct n; cbn [get_loop];
      rewrite (proj2 (Z.eqb_neq (available g) 0)) by lia; cbn [negb]; unfold bind, ret, rdb, gets; cbn;
      rewrite IH by (cbn; lia); cbn [host_ip available read_offset]; replace (Z.of_nat (S k)) with (Z.of_nat k + 1) by lia; rewrite read_bytes_S by lia;
      rewrite u8_small by apply iord_byte_range; cbn [fst snd]; repeat (f_equal; try lia).
Qed.

(** ** Which frames are taken *)

(** The frame types are compared with the numbers that a comment in mac.h
    gives; the enumeration has others.  A ping is taken for a datagram, a
    datagram goes to the ARP handler, and ARP requests are not answered. *)
Theorem handle_frame_types fuel g w :
  handle_frame fuel g w =
    match mac_packet_type (w_mem w) RX_ADDR with
    | ICMP =>
        Some (if (udp_get_source_port (w_mem w) RX_ADDR =? HOST_PORT) && (udp_get_destination_port (w_mem w) RX_ADDR =? TARGET_PORT)
              then mk_boot_eth (ipv4_get_source_ip (w_mem w) RX_ADDR) (udp_get_data_length (w_mem w) RX_ADDR) 0 else g, w)
    | UDP => (arp_process_received fuel RX_ADDR TX_ADDR ;; ret g) w
    | _ => Some (g, w)
    end.
Proof. unfold handle_frame, bind at 1, gets. destruct (mac_packet_type (w_mem w) RX_ADDR); reflexivity. Qed.

(** A datagram from the host to the boot loader in the receive buffer makes
    no byte available. *)
Theorem datagram_ignored fuel g w dmac smac sip dip id data c1 c2 :
  let n := Z.of_nat (length data) in
  sendable dmac sip dip data HOST_PORT TARGET_PORT -> byte_array 6 smac -> wf_mem (w_mem w) -> n <= 1024 ->
  read_bytes (w_mem w) RX_ADDR (42 + n) = udp_frame dmac smac sip dip HOST_PORT TARGET_PORT id data c1 c2 ->
  forall g' w', handle_frame fuel g w = Some (g', w') -> g' = g.
Proof.
  intros n Hs Hsm Hm Hn Hf g' w' Hh.
  destruct (udp_received (w_mem w) RX_ADDR dmac smac sip dip HOST_PORT TARGET_PORT id data c1 c2 Hs Hsm Hm eq_refl) as (_ & Hu & _);
    [unfold in_space, RX_ADDR; lia|done|].
  rewrite handle_frame_types, Hu in Hh. unfold bind, ret in Hh. destruct (arp_process_received fuel RX_ADDR TX_ADDR w) as [[r w1]|]; congruence.
Qed.

End BootEth.

(** A host whose controller has received the frames [fs]. *)
Definition receiving (fs : list (list Z)) : @world SimDev :=
  @mk_world SimDev ∅ (mk_sim ∅ 0 [] fs 0 None) [] [] [192; 168; 24; 50] 0.
Definition boot_data : list Z := [1; 2; 3].
Definition boot_frame (proto : Z) : list Z :=
  take 23 (udp_frame [0; 255; 238; 240; 218; 66] [2; 0; 0; 0; 0; 9] [10; 0; 0; 9] [192; 168; 24; 50] HOST_PORT TARGET_PORT 1 boot_data 0 0) ++
  [proto] ++ drop 24 (udp_frame [0; 255; 238; 240; 218; 66] [2; 0; 0; 0; 0; 9] [10; 0; 0; 9] [192; 168; 24; 50] HOST_PORT TARGET_PORT 1 boot_data 0 0).

(** The first three bytes that the boot loader reads, None when it waits on. *)
Definition first_bytes (fs : list (list Z)) : option (list Z) :=
  match @get_bytes SimDev 3 (length fs) 5 (mk_boot_eth [] 0 0) (receiving fs) with Some (r, _) => Some (fst r) | None => None end.

(** The same bytes with the protocol numbers of UDP and of ICMP: the datagram
    is not delivered, the ping is. *)
Theorem download_over_ethernet_broken :
  first_bytes [boot_frame 17] = None /\ first_bytes [boot_frame 17; boot_frame 1] = Some boot_data.
Proof. split; vm_compute; reflexivity. Qed.
